(* ===== verification/_CoqProject ===== *)
-Q . S2P
Prelude.v
Conc.v
Gate.v
LockOrder.v
Compose.v
Rely.v
Errors.v
Types.v
RetryQueue.v
Utf8.v
Urls.v
Manager.v
AutoStopState.v
WorkerReporting.v
Participants.v
AutoStart.v
AutoStop.v
VoiceDefaults.v
Lifecycle.v
Notification.v
Secrets.v
Json.v
Floats.v
FloatText.v
HostMetrics.v
RuntimeConfig.v
Authority.v
Gateway.v
DaveWatch.v
AudioForward.v
SdkState.v
DiscordClient.v
DiscordEvents.v
Noop.v
SpeakerForward.v
DiscordPool.v
DiscordGates.v
DiscordInvariant.v
ClientLocks.v
Goroutines.v
Confirmation.v
ManagerLocks.v
System.v
JobMachine.v
WorkerClient.v
Rfc3339.v
StartRequest.v
NodeConfig.v
UpdaterIdentity.v
Durations.v
Settings.v
MainConfig.v
HttpApi.v
YouTubeApi.v
Router.v
ControlClient.v
RuntimeJson.v
RuntimeRoundtrip.v
NodeReports.v
Wire.v
ConfigureCommand.v
Registration.v
Fencing.v
Startup.v
