(* ===== verification/Prelude.v ===== *)
(** * Prelude: root of the library, and the Go runtime the bot is written against

    This library models the Discord bot of this repository (the Go code under
    [src/internal] and [src/cmd]) and proves what makes it correct.  The bot
    joins the voice channel of a stream, forwards the audio it receives to the
    encoder and the captioning service, reports participants, speakers and chat
    to the Worker, starts waiting streams when somebody joins their channel,
    stops them when the channel is empty, and takes its authority from the
    configuration of the Control Panel.

    ** Parts and files

    Common ground.  [Prelude] (this file): strings, machine integers, times,
    maps ranged over in any order.  [Conc]: methods as programs of critical
    sections, calls, waits, locks and spawns, one method against an
    environment ([run]) and pools of goroutines under every interleaving
    ([pstep]), with the rules that reduce an invariant of all pools to a proof
    about each method.  [Gate] and [Rely]: what the holder of a mutex, and more
    generally each goroutine, knows of the shared state.  [LockOrder]: mutexes
    taken in order are released again.  [Compose]: components that call each
    other as one system.  [Errors], [Types]: error values and their
    classification, the records exchanged.  [Utf8], [Urls], [Json], [Floats],
    [Durations], [Rfc3339]: the parts of the Go standard library the code
    computes with; [FloatText] shows that a double survives its JSON.

    Job manager ([internal/jobs]).  [Manager] is its state and its calls.
    [Lifecycle] has [Start], [Stop] and the rejoin of a lost voice connection
    ([manager.go], [reconnect.go]); [Participants], [WorkerReporting] and
    [RetryQueue] what is reported and retried ([participants.go],
    [active_speakers.go], [worker_reporting.go], [event_retry.go]); [AutoStart],
    [AutoStopState] and [AutoStop] the automatic starts and stops;
    [VoiceDefaults] the waiting streams; [Notification] the YouTube-live
    message.  [Goroutines] puts every entry point and goroutine into one pool;
    [Confirmation] follows an empty channel through the timers to the stop;
    [JobMachine] is the abstract specification of the manager; [ManagerLocks]
    shows that its report mutex is always released.

    Discord client ([internal/discord], [internal/davewatch],
    [internal/audioforward], [internal/secrets]).  [SdkState] is the cache of
    the SDK, [DiscordClient] the state of [RealClient] with Gateway and voice,
    [DiscordEvents] the event handlers, [SpeakerForward] speakers and Opus
    forwarding, [DaveWatch] the watchdog of the encrypted session,
    [AudioForward] the delivery of a batch, [Secrets] the masking of error
    texts, [Noop] the client of a dry run.  [DiscordPool] is the client's pool,
    [DiscordGates] what its three mutexes serialise, [DiscordInvariant] the
    invariant of its state, [ClientLocks] the order of its mutexes.  [System] is
    client and manager in one pool, each calling the other.

    Control Panel and API ([internal/control], [internal/httpapi],
    [internal/worker]).  [RuntimeConfig], [Authority] and [Gateway] are the
    configuration, the credential it authorises and the reconciliation of the
    Discord connection with it; [RuntimeJson] and [RuntimeRoundtrip] how it is
    read from the answer of the panel.  [StartRequest], [HttpApi], [YouTubeApi]
    and [UpdaterIdentity] are the handlers of the control API, [Router] its
    routes.  [NodeConfig], [ControlClient] and [ConfigureCommand] are the node
    file, the requests to the panel and the pairing command; [HostMetrics] and
    [NodeReports] what the node reports of itself.  [WorkerClient] publishes to
    the Worker; [Wire] has the bodies of those requests.

    The process ([cmd/discord-bot/main.go]).  [Settings] is what every package
    reads from the environment, [MainConfig] what [main] makes of it.
    [Registration] is the goroutine that registers the node, with everything it
    installs and takes back, and [Fencing] the proof that what was taken back has
    no effect.  [Startup] is [main] itself, up to the shutdown.

    ** How code becomes definitions

    A Go struct is a record whose fields carry the Go names behind a short
    prefix.  A stretch of code under a mutex is one function on that record; a
    method is a [prog] composed of such sections in the order of the code, with
    every call of another component as a node whose answer is arbitrary.
    Pointers, contexts, channels and timers are numbers into a heap that is part
    of the state.  Log output is left out.  Integers wrap at their width where
    the code lets them ([wrap64], [wrapu64]); durations and times are
    nanoseconds, floating-point numbers IEEE doubles.  Iteration over a Go map is
    a fold over any permutation of the map ([MapRange]).  Code of other
    repositories and of the network stack is an interface: the URL parser
    ([URLParse], [URLText], [NetURL], [ParseURL]), SHA-256, the listener
    projection ([ParseListener]), and the SDK behind [DcCall].

    ** Theorems

    - State and concurrency, in every interleaving: the manager refines a
      machine of one job and a generation belongs to one job ([JobMachine]); its
      state, its set of participants and its bounded maps stay well formed
      ([Goroutines]); the client's state stays well formed and a replaced
      Gateway session cannot act ([DiscordInvariant]); speaker callbacks, joins
      and snapshots are serialised ([DiscordGates]); client and manager together
      keep both invariants and never wait for each other in a circle ([System]);
      a goroutine that waits for a mutex of the client gets it ([ClientLocks]).
    - Requests that change something outside happen only for a reason: starts
      ([AutoStart], [HttpApi]), stops ([Confirmation], [ControlClient]), messages
      ([Notification], [YouTubeApi]), credentials ([Authority], [Gateway]),
      registrations and heartbeats ([Fencing]), the node file
      ([ConfigureCommand]), the updater's identity ([UpdaterIdentity]); a request
      without the token changes nothing on any route ([Router]); a process that
      serves was configured ([Startup]).
    - Bounds, back-off and delivery: [RetryQueue], [WorkerReporting],
      [WorkerClient], [AudioForward], [DaveWatch], [Lifecycle], [Settings],
      [HostMetrics].
    - Texts: the start request and the runtime configuration carry what was
      written without loss and are checked ([StartRequest], [RuntimeRoundtrip],
      over the round trips of [Json], [FloatText] and [Rfc3339]); the order of members and a
      broken monitor cannot change the execution authority ([RuntimeJson]); a
      stream id survives the path of a request ([Router], [AudioForward]); no
      two payloads have one text ([Wire]); code points survive trimming ([Utf8]).

    A theorem with hypotheses is applied at concrete values by the lemma
    [..._witness] in the [Sample] module of its file.

    ** Fuel and bounds

    Loops of the code that end are structural: over lists, or over a count the
    code itself bounds (retries, delays, attempts).  The parsers of [Json] take
    the nesting limit of the code (10000) and the length of the rest of the
    text, which no array or object can exceed.  A goroutine that loops for ever
    is one turn that starts the next one.  [digits_acc] has one more digit than
    the binary length of its number.

    ** Not modelled

    Log output; the flag package of the configure command and the Windows form of
    paths (its Windows branches are modelled); the readings of a Windows host
    ([hostmetrics_windows.go]); a time written with JSON escapes, which Go refuses
    and [Rfc3339] reads; TLS, sockets, server timeouts and the scheduler of the Go
    runtime; the controlled voice transport of the test build
    ([ui188_chain_voice_linux.go]); the filter on the native library's log
    ([dave_log.go]); the vendored SDK. *)

From stdpp Require Export base gmap sets list strings fin_maps sorting pretty.
From Stdlib Require Export ZArith Lia Ascii String.

#[export] Set Default Proof Using "Type".
Open Scope string_scope.
Open Scope Z_scope.

(* stdpp's [length] for lists stays the default one. *)
Abbreviation strlen := String.length.
Abbreviation length := Datatypes.length.

(** ** Record updates

    [Setter p] is the field update of the projection [p]; [mk_setter eta]
    derives it from the eta-expansion of the record by abstracting [p]. *)
Class Setter {R T : Type} (proj : R -> T) := set_field : (T -> T) -> R -> R.
#[global] Arguments set_field {R T} proj {_} g r : assert.

Ltac mk_setter eta :=
  lazymatch goal with
  | |- @Setter _ _ ?p =>
      let e := eval cbv delta [eta] in eta in
      let e' := eval pattern p in e in
      lazymatch e' with
      | ?F p =>
          let s := eval cbv beta in (fun g => F (fun r => g (p r))) in
          exact s
      end
  end.

Declare Scope record_scope.
Delimit Scope record_scope with rec.
Notation "r <| f := v |>" := (set_field f (fun _ => v) r)
  (at level 1, left associativity, f at level 1, v at level 200,
   format "r  <| f  :=  v |>").
Notation "r <| f ::= g |>" := (set_field f g r)
  (at level 1, left associativity, f at level 1, g at level 200,
   format "r  <| f  ::=  g |>").

(** ** Machine integers *)
Definition two64 : Z := 2 ^ 64.
Definition two63 : Z := 2 ^ 63.

(** [uint64] and [int64] wrap-around. *)
Definition wrapu64 (x : Z) : Z := x mod two64.
Definition wrap64 (x : Z) : Z := (x + two63) mod two64 - two63.

(** [x++] on a [uint64] and on an [int64]. *)
Definition succ_u64 (x : Z) : Z := wrapu64 (x + 1).
Definition succ_i64 (x : Z) : Z := wrap64 (x + 1).

Definition max_int64 : Z := two63 - 1.
Definition min_int64 : Z := - two63.

Lemma two64_val : two64 = 18446744073709551616.
Proof. reflexivity. Qed.

Lemma two63_val : two63 = 9223372036854775808.
Proof. reflexivity. Qed.

Lemma max_int64_val : max_int64 = 9223372036854775807.
Proof. reflexivity. Qed.

Lemma min_int64_val : min_int64 = - 9223372036854775808.
Proof. reflexivity. Qed.

(** Gives [lia] the values of the constants. *)
Ltac zconst :=
  pose proof two64_val; pose proof two63_val;
  pose proof max_int64_val; pose proof min_int64_val.

Lemma wrap64_small x : min_int64 <= x <= max_int64 -> wrap64 x = x.
Proof. intros H. unfold wrap64. zconst. rewrite Z.mod_small; lia. Qed.

Lemma wrap64_range x : min_int64 <= wrap64 x <= max_int64.
Proof.
  unfold wrap64. pose proof (Z.mod_pos_bound (x + two63) two64) as H.
  zconst. lia.
Qed.

Lemma wrapu64_small x : 0 <= x < two64 -> wrapu64 x = x.
Proof. intros H. unfold wrapu64. by rewrite Z.mod_small. Qed.

Lemma wrapu64_range x : 0 <= wrapu64 x < two64.
Proof. apply Z.mod_pos_bound. reflexivity. Qed.

Lemma succ_u64_neq x : succ_u64 x <> x.
Proof.
  unfold succ_u64, wrapu64. intros H.
  pose proof (Z.mod_pos_bound (x + 1) two64) as Hb. rewrite H in Hb.
  pose proof (Z.div_mod (x + 1) two64) as Hd. rewrite H in Hd.
  zconst. lia.
Qed.

Lemma succ_i64_neq x : succ_i64 x <> x.
Proof.
  unfold succ_i64, wrap64. intros H.
  pose proof (Z.div_mod (x + 1 + two63) two64) as Hd.
  zconst. lia.
Qed.

(** ** [time.Time] and [time.Duration]

    A [Time] is the number of nanoseconds since Go's zero time, so the zero
    value of [time.Time] is [0]; a [Duration] is an [int64] of nanoseconds. *)
Definition Time := Z.
Definition Duration := Z.

Definition zeroTime : Time := 0.
Definition IsZero (t : Time) : bool := t =? 0.
Definition Before (t u : Time) : bool := t <? u.
Definition After (t u : Time) : bool := u <? t.

(** [t.Sub(u)] saturates at the ends of [Duration]. *)
Definition Sub (t u : Time) : Duration :=
  let d := t - u in
  if d <? min_int64 then min_int64 else if max_int64 <? d then max_int64 else d.

Definition Add (t : Time) (d : Duration) : Time := t + d.

Definition Nanosecond : Duration := 1.
Definition Millisecond : Duration := 1000000.
Definition Second : Duration := 1000000000.
Definition Minute : Duration := 60000000000.
Definition Hour : Duration := 3600000000000.

(** [d *= 2]. *)
Definition dbl (d : Duration) : Duration := wrap64 (2 * d).

Lemma Sub_exact t u : min_int64 <= t - u <= max_int64 -> Sub t u = t - u.
Proof.
  intros H. unfold Sub.
  destruct (Z.ltb_spec (t - u) min_int64); [lia|].
  destruct (Z.ltb_spec max_int64 (t - u)); lia.
Qed.

Lemma Sub_ge_iff t u d :
  min_int64 < d <= max_int64 -> (d <=? Sub t u) = (d <=? t - u).
Proof.
  intros H. unfold Sub.
  apply eq_true_iff_eq. rewrite !Z.leb_le. zconst.
  destruct (Z.ltb_spec (t - u) min_int64), (Z.ltb_spec max_int64 (t - u)); lia.
Qed.

Lemma Sub_lt_iff t u d :
  min_int64 < d <= max_int64 -> (Sub t u <? d) = (t - u <? d).
Proof.
  intros H. pose proof (Sub_ge_iff t u d H) as E.
  rewrite (Z.ltb_antisym d), (Z.ltb_antisym d (t - u)). by rewrite E.
Qed.

Lemma dbl_small d : min_int64 <= 2 * d <= max_int64 -> dbl d = 2 * d.
Proof. apply wrap64_small. Qed.

(** ** Strings: [strings.TrimSpace] and friends

    A Go string is a sequence of bytes.  [strings.TrimSpace] removes the
    UTF-8 encodings of the code points with the property White_Space at both
    ends: the six ASCII ones, U+0085 and U+00A0 (two bytes), U+1680,
    U+2000-U+200A, U+2028, U+2029, U+202F, U+205F and U+3000 (three bytes). *)
Definition byteN (a : ascii) : N := N_of_ascii a.

Lemma list_ascii_app s t :
  list_ascii_of_string (s ++ t) = (list_ascii_of_string s ++ list_ascii_of_string t)%list.
Proof. induction s as [|c s IH]; [done|]. cbn. apply (f_equal (cons c)), IH. Qed.

Definition space1 (a : ascii) : bool :=
  let n := byteN a in ((9 <=? n) && (n <=? 13) || (n =? 32))%N.

Definition space2 (a b : ascii) : bool :=
  ((byteN a =? 194) && ((byteN b =? 133) || (byteN b =? 160)))%N.

Definition space3 (a b c : ascii) : bool :=
  let x := byteN a in let y := byteN b in let z := byteN c in
  (((x =? 225) && (y =? 154) && (z =? 128))
   || ((x =? 226) && (y =? 128)
        && ((128 <=? z) && (z <=? 138) || (z =? 168) || (z =? 169) || (z =? 175)))
   || ((x =? 226) && (y =? 129) && (z =? 159))
   || ((x =? 227) && (y =? 128) && (z =? 128)))%N.

(** Skips white space at the head, given the byte order in which a
    multi-byte space is met ([fwd] from the left, otherwise from the right). *)
Fixpoint skip_space (fwd : bool) (l : list ascii) : list ascii :=
  match l with
  | [] => []
  | a :: r1 =>
      if space1 a then skip_space fwd r1 else
      match r1 with
      | [] => l
      | b :: r2 =>
          if (if fwd then space2 a b else space2 b a) then skip_space fwd r2 else
          match r2 with
          | [] => l
          | c :: r3 =>
              if (if fwd then space3 a b c else space3 c b a)
              then skip_space fwd r3 else l
          end
      end
  end.

Definition trim_bytes (l : list ascii) : list ascii :=
  rev (skip_space false (rev (skip_space true l))).

Definition TrimSpace (s : string) : string :=
  string_of_list_ascii (trim_bytes (list_ascii_of_string s)).

Definition blank (s : string) : bool := String.eqb (TrimSpace s) "".

(** The NUL separator of composite map keys. *)
Definition NUL : string := String "000"%char EmptyString.

(** [s == t] on strings. *)
Notation "s =s t" := (String.eqb s t) (at level 70, no associativity).
Notation "s <>s t" := (negb (String.eqb s t)) (at level 70, no associativity).

(** ASCII lower case, as [strings.ToLower] on ASCII input. *)
Definition lower_ascii (a : ascii) : ascii :=
  let n := byteN a in
  if ((65 <=? n) && (n <=? 90))%N then ascii_of_N (n + 32) else a.

Fixpoint ToLower (s : string) : string :=
  match s with
  | EmptyString => EmptyString
  | String a r => String (lower_ascii a) (ToLower r)
  end.

Fixpoint HasPrefix (s p : string) : bool :=
  match p, s with
  | EmptyString, _ => true
  | String a p', String b s' => Ascii.eqb a b && HasPrefix s' p'
  | String _ _, EmptyString => false
  end.

Fixpoint Contains (s sub : string) : bool :=
  HasPrefix s sub ||
  match s with EmptyString => false | String _ r => Contains r sub end.

(** [%d] of an integer and [%t] of a boolean. *)
Definition itoa (z : Z) : string := pretty z.

Section TrimSpace.
Implicit Types l : list ascii.

(** Induction by length, for the scans that drop up to three bytes. *)
Lemma bytes_ind (P : list ascii -> Prop) :
  (forall l, (forall l', (length l' < length l)%nat -> P l') -> P l) -> forall l, P l.
Proof.
  intros Hstep l. remember (length l) as n eqn:Hn.
  revert l Hn. induction (lt_wf n) as [m _ IHm]. intros l ->.
  apply Hstep. intros l' Hl'. by apply (IHm (length l')).
Qed.

Lemma skip_space_suffix fwd l : exists p, l = (p ++ skip_space fwd l)%list.
Proof.
  induction l as [l IH] using bytes_ind.
  destruct l as [|a r1]; simpl; [by exists []|].
  destruct (space1 a).
  { destruct (IH r1) as [p Hp]; [simpl; lia|]. exists (a :: p). simpl. by rewrite <- Hp. }
  destruct r1 as [|b r2]; [by exists []|].
  destruct (if fwd then space2 a b else space2 b a).
  { destruct (IH r2) as [p Hp]; [simpl; lia|]. exists (a :: b :: p). simpl. by rewrite <- Hp. }
  destruct r2 as [|c r3]; [by exists []|].
  destruct (if fwd then space3 a b c else space3 c b a); [|by exists []].
  destruct (IH r3) as [p Hp]; [simpl; lia|].
  exists (a :: b :: c :: p). simpl. by rewrite <- Hp.
Qed.

(** The head of the list is not white space. *)
Definition no_space (fwd : bool) l : Prop :=
  match l with
  | [] => True
  | a :: r1 =>
      space1 a = false /\
      match r1 with
      | [] => True
      | b :: r2 =>
          (if fwd then space2 a b else space2 b a) = false /\
          match r2 with
          | [] => True
          | c :: _ => (if fwd then space3 a b c else space3 c b a) = false
          end
      end
  end.

Lemma skip_space_no_space fwd l : no_space fwd (skip_space fwd l).
Proof.
  induction l as [l IH] using bytes_ind.
  destruct l as [|a r1]; simpl; [done|].
  destruct (space1 a) eqn:E1; [apply IH; simpl; lia|].
  destruct r1 as [|b r2]; simpl; [by rewrite E1|].
  destruct (if fwd then space2 a b else space2 b a) eqn:E2; [apply IH; simpl; lia|].
  destruct r2 as [|c r3]; simpl; [by rewrite E1, E2|].
  destruct (if fwd then space3 a b c else space3 c b a) eqn:E3; [apply IH; simpl; lia|].
  simpl. by rewrite E1, E2, E3.
Qed.

Lemma no_space_skip fwd l : no_space fwd l -> skip_space fwd l = l.
Proof.
  destruct l as [|a [|b [|c r]]]; simpl; [done|..]; intros H; destruct_and?;
    repeat (case_match; try congruence).
Qed.

(** Removing a suffix keeps the head non-blank. *)
Lemma no_space_prefix fwd l k : no_space fwd (l ++ k)%list -> no_space fwd l.
Proof. destruct l as [|a [|b [|c r]]]; simpl; naive_solver. Qed.

Lemma trim_bytes_idemp l : trim_bytes (trim_bytes l) = trim_bytes l.
Proof.
  unfold trim_bytes at 1.
  assert (no_space true (trim_bytes l)) as Hl.
  { unfold trim_bytes.
    destruct (skip_space_suffix false (rev (skip_space true l))) as [p Hp].
    apply (no_space_prefix true _ (rev p)).
    rewrite <- rev_app_distr, <- Hp, rev_involutive.
    apply skip_space_no_space. }
  rewrite (no_space_skip _ _ Hl).
  unfold trim_bytes. rewrite rev_involutive.
  by rewrite (no_space_skip false _ (skip_space_no_space false _)).
Qed.
End TrimSpace.

Lemma TrimSpace_idemp s : TrimSpace (TrimSpace s) = TrimSpace s.
Proof.
  unfold TrimSpace.
  by rewrite list_ascii_of_string_of_list_ascii, trim_bytes_idemp.
Qed.

Lemma TrimSpace_empty : TrimSpace "" = "".
Proof. reflexivity. Qed.

(** A string is canonical when trimming does nothing. *)
Definition trimmed (s : string) : Prop := TrimSpace s = s.

Lemma trimmed_TrimSpace s : trimmed (TrimSpace s).
Proof. apply TrimSpace_idemp. Qed.

Lemma blank_TrimSpace s : blank (TrimSpace s) = blank s.
Proof. unfold blank. by rewrite TrimSpace_idemp. Qed.

Lemma blank_empty : blank "" = true.
Proof. reflexivity. Qed.

Lemma not_blank_nonempty s : blank s = false -> s <> "".
Proof. by intros H ->. Qed.

Lemma seqb_eq s t : (s =s t) = true <-> s = t.
Proof. apply String.eqb_eq. Qed.

Lemma seqb_neq s t : (s =s t) = false <-> s <> t.
Proof. apply String.eqb_neq. Qed.

Lemma seqb_refl s : (s =s s) = true.
Proof. apply String.eqb_refl. Qed.

(** ** Maps

    A read of a missing key is the zero value of the element type; [range]
    visits the entries of a map in an order the language leaves open, which
    the development takes from a [MapRange] instance. *)
Class MapRange := {
  map_range : forall {K} `{Countable K} {V}, gmap K V -> list (K * V);
  map_range_perm :
    forall {K} `{Countable K} {V} (m : gmap K V), map_range m ≡ₚ map_to_list m }.

(** One concrete order, for evaluation. *)
Definition canonical_range : MapRange :=
  {| map_range := fun K _ _ V m => map_to_list m;
     map_range_perm := fun K _ _ V m => reflexivity _ |}.

Definition mread {K} `{Countable K} {V} (d : V) (m : gmap K V) (k : K) : V :=
  default d (m !! k).
Abbreviation mbool := (mread false).
Abbreviation mint := (mread 0).

Lemma mread_insert_eq {K} `{Countable K} {V} (d : V) (m : gmap K V) k v :
  mread d (<[k := v]> m) k = v.
Proof. unfold mread. by rewrite lookup_insert_eq. Qed.

Lemma mread_insert_ne {K} `{Countable K} {V} (d : V) (m : gmap K V) k k' v :
  k <> k' -> mread d (<[k := v]> m) k' = mread d m k'.
Proof. intros Hne. unfold mread. by rewrite lookup_insert_ne. Qed.

(** Number of entries, [len(m)]. *)
Definition mlen {K} `{Countable K} {V} (m : gmap K V) : Z := Z.of_nat (size m).

Lemma mlen_filter {K} `{Countable K} {V} (P : K * V -> Prop) `{forall x, Decision (P x)} (m : gmap K V) :
  mlen (filter P m) <= mlen m.
Proof. apply inj_le, map_subseteq_size, map_filter_subseteq. Qed.

Lemma mlen_delete {K} `{Countable K} {V} (k : K) (m : gmap K V) : mlen (delete k m) <= mlen m.
Proof. apply inj_le, map_subseteq_size, delete_subseteq. Qed.

Lemma mlen_insert {K} `{Countable K} {V} (k : K) (v : V) (m : gmap K V) :
  mlen (<[k := v]> m) <= mlen m + 1.
Proof. unfold mlen. rewrite map_size_insert. destruct (m !! k); simpl; lia. Qed.

Section MapRangeFacts.
Context `{MapRange} `{Countable K} {V : Type}.
Implicit Types m : gmap K V.

Lemma elem_of_range m k v : (k, v) ∈ map_range m <-> m !! k = Some v.
Proof. rewrite map_range_perm. apply elem_of_map_to_list. Qed.

Lemma range_NoDup_fst m : NoDup (map_range m).*1.
Proof. rewrite map_range_perm. apply NoDup_fst_map_to_list. Qed.

Lemma range_empty_inv m : map_range m = [] -> m = ∅.
Proof.
  intros Hr. apply map_to_list_empty_iff.
  apply Permutation_nil_r. rewrite <- Hr. symmetry. apply map_range_perm.
Qed.

Lemma length_range m : length (map_range m) = size m.
Proof. rewrite map_range_perm. apply length_map_to_list. Qed.
End MapRangeFacts.

(** ** Shared tactics *)

(** Turns boolean hypotheses into propositions. *)
Ltac bool_hyps :=
  repeat match goal with
  | H : _ && _ = true |- _ => apply andb_prop in H as [? ?]
  | H : _ || _ = false |- _ => apply orb_false_elim in H as [? ?]
  | H : negb _ = true |- _ => apply negb_true_iff in H
  | H : negb _ = false |- _ => apply negb_false_iff in H
  | H : (_ =s _) = true |- _ => apply String.eqb_eq in H
  | H : (_ =s _) = false |- _ => apply String.eqb_neq in H
  | H : (_ =? _) = true |- _ => apply Z.eqb_eq in H
  | H : (_ =? _) = false |- _ => apply Z.eqb_neq in H
  | H : (_ <=? _) = true |- _ => apply Z.leb_le in H
  | H : (_ <=? _) = false |- _ => apply Z.leb_gt in H
  | H : (_ <? _) = true |- _ => apply Z.ltb_lt in H
  | H : (_ <? _) = false |- _ => apply Z.ltb_ge in H
  | H : bool_decide _ = true |- _ => apply bool_decide_eq_true in H
  | H : bool_decide _ = false |- _ => apply bool_decide_eq_false in H
  end.

(** Case analysis on the scrutinee of the innermost match of the goal or of
    a hypothesis. *)
Ltac case_goal :=
  match goal with
  | |- context [match ?x with _ => _ end] =>
      lazymatch x with
      | context [match _ with _ => _ end] => fail
      | _ => destruct x eqn:?
      end
  end.

Ltac case_hyp H :=
  match type of H with
  | context [match ?x with _ => _ end] =>
      lazymatch x with
      | context [match _ with _ => _ end] => fail
      | _ => destruct x eqn:?
      end
  end.

(** The lemmas that automate the common cases. *)
Create HintDb bot.
Create Rewrite HintDb bot.
#[export] Hint Resolve trimmed_TrimSpace TrimSpace_idemp wrap64_range wrapu64_range : bot.
#[export] Hint Resolve succ_u64_neq succ_i64_neq : bot.
#[export] Hint Rewrite TrimSpace_idemp blank_TrimSpace seqb_refl : bot.

(** An invariant of the body of a [for] loop holds at its end. *)
Lemma fold_left_ind {A B} (P : A -> Prop) (f : A -> B -> A) l a :
  P a -> (forall a b, b ∈ l -> P a -> P (f a b)) -> P (fold_left f l a).
Proof.
  revert a. induction l as [|b l IH]; simpl; intros a Ha Hf; [done|].
  apply IH; [apply Hf; [apply list_elem_of_here|done]|].
  intros a' b' Hb'. apply Hf. by apply list_elem_of_further.
Qed.

(** [for k := range m { if !p(k) { delete(m, k) } }] *)
Lemma fold_delete_lookup `{Countable K} {V} (drop : K -> bool) (l : list K) (m : gmap K V) k :
  fold_left (fun acc k => if drop k then delete k acc else acc) l m !! k
  = if bool_decide (k ∈ l) && drop k then None else m !! k.
Proof.
  revert m. induction l as [|k' l IH]; intros m; cbn [fold_left].
  - by rewrite bool_decide_eq_false_2 by apply not_elem_of_nil.
  - rewrite IH. destruct (decide (k = k')) as [->|Hne].
    + rewrite (bool_decide_eq_true_2 (k' ∈ k' :: l)) by apply list_elem_of_here. simpl.
      destruct (drop k'); [|by rewrite andb_false_r].
      rewrite lookup_delete_eq. by destruct (_ && _).
    + replace (bool_decide (k ∈ k' :: l)) with (bool_decide (k ∈ l)).
      2:{ apply bool_decide_ext. rewrite elem_of_cons. naive_solver. }
      destruct (drop k'); [by rewrite lookup_delete_ne|done].
Qed.

Lemma range_delete_lookup `{MapRange} `{Countable K} {V} (drop : K -> bool) (m : gmap K V) k :
  fold_left (fun acc k => if drop k then delete k acc else acc) (map_range m).*1 m !! k
  = if drop k then None else m !! k.
Proof.
  rewrite fold_delete_lookup. destruct (drop k); rewrite ?andb_false_r, ?andb_true_r; [|done].
  case_bool_decide as E; [done|]. destruct (m !! k) as [v|] eqn:Hk; [|done].
  exfalso. apply E. apply list_elem_of_fmap. exists (k, v). split; [done|]. by apply elem_of_range.
Qed.

(** [for k, v := range m { if p(k) { acc[k] = v } }] *)
Lemma fold_insert_lookup `{Countable K} {V} (keep : K -> bool) (l : list (K * V)) (acc : gmap K V) k :
  NoDup l.*1 ->
  fold_left (fun acc kv => if keep kv.1 then <[kv.1 := kv.2]> acc else acc) l acc !! k
  = if keep k then match (list_to_map l : gmap K V) !! k with Some v => Some v | None => acc !! k end
    else acc !! k.
Proof.
  revert acc. induction l as [|[k' v] l IH]; intros acc Hnd; cbn [fold_left fst snd].
  - simpl. rewrite lookup_empty. by destruct (keep k).
  - simpl in Hnd. apply NoDup_cons in Hnd as [Hk' Hnd]. rewrite IH by done. simpl.
    destruct (decide (k = k')) as [->|Hne].
    + rewrite lookup_insert_eq, not_elem_of_list_to_map_1 by done.
      destruct (keep k'); [by rewrite lookup_insert_eq|done].
    + rewrite lookup_insert_ne by done.
      destruct (keep k'); [by rewrite lookup_insert_ne|done].
Qed.

Lemma range_insert_lookup `{MapRange} `{Countable K} {V} (keep : K -> bool) (m acc : gmap K V) k :
  fold_left (fun acc kv => if keep kv.1 then <[kv.1 := kv.2]> acc else acc) (map_range m) acc !! k
  = if keep k then match m !! k with Some v => Some v | None => acc !! k end else acc !! k.
Proof.
  rewrite fold_insert_lookup by apply range_NoDup_fst.
  replace ((list_to_map (map_range m) : gmap K V) !! k) with (m !! k); [done|].
  rewrite <- (list_to_map_to_list m) at 1. symmetry. f_equal.
  apply list_to_map_proper; [apply range_NoDup_fst|apply map_range_perm].
Qed.

(** ** Sums over maps *)
Section MapSum.
Context `{Countable K} {V : Type} (f : V -> Z).
Implicit Types m : gmap K V.

Definition msum m : Z := map_fold (fun _ v acc => f v + acc) 0 m.

Lemma msum_empty : msum ∅ = 0.
Proof. apply map_fold_empty. Qed.

Lemma msum_insert m k v : m !! k = None -> msum (<[k:=v]> m) = f v + msum m.
Proof.
  intros Hk. unfold msum.
  apply (map_fold_insert_L (fun (_ : K) v acc => f v + acc)); [intros; lia|done].
Qed.

Lemma msum_delete m k v : m !! k = Some v -> msum m = f v + msum (delete k m).
Proof.
  intros Hk. rewrite <- (insert_delete_id m k v Hk) at 1.
  apply msum_insert. apply lookup_delete_eq.
Qed.

Lemma msum_nonneg m : (forall k v, m !! k = Some v -> 0 <= f v) -> 0 <= msum m.
Proof.
  induction m as [|k v m Hk IH] using map_ind; intros Hf.
  - by rewrite msum_empty.
  - rewrite msum_insert by done.
    assert (0 <= f v) by (apply (Hf k); apply lookup_insert_eq).
    assert (0 <= msum m); [|lia].
    apply IH. intros k' v' Hk'. apply (Hf k').
    rewrite lookup_insert_ne; [done|congruence].
Qed.

(** An upper bound of each value bounds the change of an overwrite. *)
Lemma msum_overwrite m k v c :
  (forall k v, m !! k = Some v -> 0 <= f v) -> f v <= c ->
  msum (<[k:=v]> m) <= c + msum m.
Proof.
  intros Hm Hv. destruct (m !! k) as [u|] eqn:Hk.
  - rewrite <- insert_delete_eq, msum_insert by apply lookup_delete_eq.
    rewrite (msum_delete m k u) by done. specialize (Hm k u Hk). lia.
  - rewrite msum_insert by done. lia.
Qed.

Lemma msum_delete_le m k :
  (forall k v, m !! k = Some v -> 0 <= f v) -> msum (delete k m) <= msum m.
Proof.
  intros Hm. destruct (m !! k) as [u|] eqn:Hk.
  - rewrite (msum_delete m k u) by done. specialize (Hm k u Hk). lia.
  - by rewrite delete_id.
Qed.
End MapSum.

(** ** The oldest eligible entry of a range

    The scans of the code keep the first entry seen with the smallest time
    stamp among the eligible ones. *)
Section Oldest.
Context {A : Type} (eligible : A -> bool) (stamp : A -> Time).

Definition oldest_step (acc : option A) (x : A) : option A :=
  if eligible x then
    match acc with
    | None => Some x
    | Some a => if Before (stamp x) (stamp a) then Some x else acc
    end
  else acc.

Definition oldest (l : list A) : option A := fold_left oldest_step l None.

Lemma oldest_spec l :
  match oldest l with
  | None => forall x, x ∈ l -> eligible x = false
  | Some a =>
      a ∈ l /\ eligible a = true /\
      (forall x, x ∈ l -> eligible x = true -> stamp a <= stamp x)
  end.
Proof.
  unfold oldest. induction l as [|x l IH] using rev_ind; simpl.
  - intros x Hx. by apply not_elem_of_nil in Hx.
  - rewrite fold_left_app. simpl. unfold oldest_step at 1.
    destruct (eligible x) eqn:Ex.
    + destruct (fold_left _ l None) as [a|].
      * destruct IH as (Ha & Hea & Hmin). unfold Before.
        destruct (Z.ltb_spec (stamp x) (stamp a)).
        -- split; [set_solver|]. split; [done|].
           intros y [Hy| ->%list_elem_of_singleton]%elem_of_app Hey; [|lia].
           specialize (Hmin y Hy Hey). lia.
        -- split; [set_solver|]. split; [done|].
           intros y [Hy| ->%list_elem_of_singleton]%elem_of_app Hey; [|lia].
           by apply Hmin.
      * split; [set_solver|]. split; [done|].
        intros y [Hy| ->%list_elem_of_singleton]%elem_of_app Hey; [|lia].
        by rewrite (IH y Hy) in Hey.
    + destruct (fold_left _ l None) as [a|].
      * destruct IH as (Ha & Hea & Hmin). split; [set_solver|]. split; [done|].
        intros y [Hy| ->%list_elem_of_singleton]%elem_of_app Hey; [|congruence].
        by apply Hmin.
      * intros y [Hy| ->%list_elem_of_singleton]%elem_of_app; [|done]. by apply IH.
Qed.

Lemma oldest_Some l a :
  oldest l = Some a ->
  a ∈ l /\ eligible a = true /\
  (forall x, x ∈ l -> eligible x = true -> stamp a <= stamp x).
Proof. intros E. pose proof (oldest_spec l) as Hl. by rewrite E in Hl. Qed.

Lemma oldest_None l : oldest l = None -> forall x, x ∈ l -> eligible x = false.
Proof. intros E. pose proof (oldest_spec l) as Hl. by rewrite E in Hl. Qed.
End Oldest.
