(* ===== verification/Conc.v ===== *)
(** * Conc: goroutines, critical sections and external calls

    The operations of the bot are methods that take a mutex, change the shared
    state, release the mutex, call the outside (Discord, the Control Panel, the
    Worker), sleep, start goroutines, and take the mutex again.  A [prog] is
    the text of such a method as a finite tree whose nodes are exactly these
    effects:

    - [Atomic f]  one critical section under the state mutex, a pure function;
    - [Call e]    a call of code outside the component, answered by anything of
                  the call's result type;
    - [Wait d c]  a timer of duration [d] (absent: none), raced with the
                  condition [c] (a canceled context, a finished goroutine); the
                  answer is [true] when the condition won;
    - [Lock]/[Unlock] a mutex held across such nodes;
    - [Spawn l]   [go code(l)]: goroutines are named by labels.

    Two semantics are given.  [run] executes one method to its end against an
    environment that answers every call and may change the state at every call
    and wait (so an interleaved goroutine is one such change): it is what the
    witnesses evaluate.  [Pool] interleaves arbitrarily many goroutines node by
    node; [pool_invariant] reduces an invariant of every reachable pool to
    [safe], a proof about each method's own text. *)

From S2P Require Import Prelude.

Section Prog.
Context {S : Type} {E : Type -> Type} {L M : Type}.

Inductive prog (A : Type) : Type :=
| Ret (a : A)
| Atomic {X : Type} (f : S -> X * S) (k : X -> prog A)
| Call {X : Type} (e : E X) (k : X -> prog A)
| Wait (d : option Duration) (c : S -> bool) (k : bool -> prog A)
| Lock (mu : M) (k : prog A)
| Unlock (mu : M) (k : prog A)
| Spawn (l : L) (k : prog A).

Arguments Ret {A}. Arguments Atomic {A X}. Arguments Call {A X}.
Arguments Wait {A}. Arguments Lock {A}. Arguments Unlock {A}. Arguments Spawn {A}.

Fixpoint bind {A B} (p : prog A) (g : A -> prog B) : prog B :=
  match p with
  | Ret a => g a
  | Atomic f k => Atomic f (fun x => bind (k x) g)
  | Call e k => Call e (fun x => bind (k x) g)
  | Wait d c k => Wait d c (fun b => bind (k b) g)
  | Lock mu k => Lock mu (bind k g)
  | Unlock mu k => Unlock mu (bind k g)
  | Spawn l k => Spawn l (bind k g)
  end.

Definition atomic {X} (f : S -> X * S) : prog X := Atomic f Ret.
Definition modify (f : S -> S) : prog unit := Atomic (fun s => (tt, f s)) Ret.
Definition read {X} (f : S -> X) : prog X := Atomic (fun s => (f s, s)) Ret.
Definition call {X} (e : E X) : prog X := Call e Ret.
Definition wait (d : option Duration) (c : S -> bool) : prog bool := Wait d c Ret.
Definition lock (mu : M) : prog unit := Lock mu (Ret tt).
Definition unlock (mu : M) : prog unit := Unlock mu (Ret tt).
Definition spawn (l : L) : prog unit := Spawn l (Ret tt).

(** ** One method against an environment *)

Inductive obs : Type :=
| OCall {X : Type} (e : E X) (x : X)
| OWait (d : option Duration) (b : bool)
| OSpawn (l : L).

(** The environment answers the [n]-th observation. *)
Record env := {
  env_call : forall X, nat -> E X -> S -> X * S;
  env_wait : nat -> option Duration -> (S -> bool) -> S -> bool * S }.

Fixpoint run {A} (en : env) (p : prog A) (n : nat) (s : S) : A * S * list obs :=
  match p with
  | Ret a => (a, s, [])
  | Atomic f k => let '(x, s1) := f s in run en (k x) n s1
  | Call e k =>
      let '(x, s1) := env_call en _ n e s in
      let '(a, s2, tr) := run en (k x) (Datatypes.S n) s1 in (a, s2, OCall e x :: tr)
  | Wait d c k =>
      let '(b, s1) := env_wait en n d c s in
      let '(a, s2, tr) := run en (k b) (Datatypes.S n) s1 in (a, s2, OWait d b :: tr)
  | Lock _ k | Unlock _ k => run en k n s
  | Spawn l k =>
      let '(a, s2, tr) := run en k (Datatypes.S n) s in (a, s2, OSpawn l :: tr)
  end.

Lemma run_bind {A B} en (p : prog A) (g : A -> prog B) n s :
  run en (bind p g) n s =
  let '(a, s1, tr1) := run en p n s in
  let '(b, s2, tr2) := run en (g a) (n + length tr1)%nat s1 in
  (b, s2, (tr1 ++ tr2)%list).
Proof.
  revert n s. induction p as [a|X f k IH|X e k IH|d c k IH|mu k IH|mu k IH|l k IH];
    intros n s; simpl.
  - rewrite Nat.add_0_r. by destruct (run en (g a) n s) as [[??]?].
  - destruct (f s) as [x s1]. apply IH.
  - destruct (env_call en X n e s) as [x s1]. rewrite IH.
    destruct (run en (k x) _ s1) as [[a s2] tr]. simpl.
    rewrite Nat.add_succ_r.
    by destruct (run en (g a) _ s2) as [[??]?].
  - destruct (env_wait en n d c s) as [b s1]. rewrite IH.
    destruct (run en (k b) _ s1) as [[a s2] tr]. simpl.
    rewrite Nat.add_succ_r.
    by destruct (run en (g a) _ s2) as [[??]?].
  - apply IH.
  - apply IH.
  - rewrite IH. destruct (run en k _ s) as [[a s2] tr]. simpl.
    rewrite Nat.add_succ_r.
    by destruct (run en (g a) _ s2) as [[??]?].
Qed.

(** ** Invariants of a method's text *)

Section Safe.
(** [I] holds of the shared state at every node, [G] of every call issued,
    [Lok] of every goroutine started. *)
Context (I : S -> Prop) (G : forall X, E X -> Prop) (Lok : L -> Prop).

Fixpoint safe {A} (Q : A -> Prop) (p : prog A) : Prop :=
  match p with
  | Ret a => Q a
  | Atomic f k => forall s, I s -> I (f s).2 /\ safe Q (k (f s).1)
  | Call e k => G _ e /\ forall x, safe Q (k x)
  | Wait _ _ k => forall b, safe Q (k b)
  | Lock _ k | Unlock _ k => safe Q k
  | Spawn l k => Lok l /\ safe Q k
  end.

Lemma safe_bind {A B} (P : A -> Prop) (Q : B -> Prop) p (g : A -> prog B) :
  safe P p -> (forall a, P a -> safe Q (g a)) -> safe Q (bind p g).
Proof.
  intros Hp Hg. induction p; simpl in *; naive_solver.
Qed.

Lemma safe_mono {A} (P Q : A -> Prop) p :
  (forall a, P a -> Q a) -> safe P p -> safe Q p.
Proof. intros HPQ. induction p; simpl; naive_solver. Qed.

Lemma safe_bind_inv {A B} (Q : B -> Prop) (p : prog A) (g : A -> prog B) :
  safe Q (bind p g) -> safe (fun _ => True) p.
Proof. induction p; simpl; naive_solver. Qed.

(** Rules for the node constructors. *)
Lemma safe_seq_rule {A B} (Q : B -> Prop) (p : prog A) (g : A -> prog B) :
  safe (fun _ => True) p -> (forall a, safe Q (g a)) -> safe Q (bind p g).
Proof. intros Hp Hg. eapply safe_bind; [exact Hp|]. auto. Qed.

Lemma safe_atomic_rule {X} (f : S -> X * S) :
  (forall s, I s -> I (f s).2) -> safe (fun _ => True) (atomic f).
Proof. intros Hf s Hs. simpl. auto. Qed.

Lemma safe_modify_rule (f : S -> S) :
  (forall s, I s -> I (f s)) -> safe (fun _ => True) (modify f).
Proof. intros Hf s Hs. simpl. auto. Qed.

Lemma safe_read_rule {X} (f : S -> X) : safe (fun _ => True) (read f).
Proof. intros s Hs. simpl. auto. Qed.

Lemma safe_call_rule {X} (e : E X) : G X e -> safe (fun _ => True) (call e).
Proof. by split. Qed.

Lemma safe_wait_rule d c : safe (fun _ => True) (wait d c).
Proof. done. Qed.

Lemma safe_lock_rule mu : safe (fun _ => True) (lock mu).
Proof. done. Qed.

Lemma safe_unlock_rule mu : safe (fun _ => True) (unlock mu).
Proof. done. Qed.

Lemma safe_spawn_rule l : Lok l -> safe (fun _ => True) (spawn l).
Proof. by split. Qed.

Lemma safe_Atomic_rule {A X} (Q : A -> Prop) (f : S -> X * S) k :
  (forall s, I s -> I (f s).2) -> (forall x, safe Q (k x)) -> safe Q (Atomic f k).
Proof. intros Hf Hk s Hs. simpl. auto. Qed.

Lemma safe_Call_rule {A X} (Q : A -> Prop) (e : E X) k :
  G X e -> (forall x, safe Q (k x)) -> safe Q (Call e k).
Proof. by split. Qed.

Lemma safe_Wait_rule {A} (Q : A -> Prop) d c k :
  (forall b, safe Q (k b)) -> safe Q (Wait d c k).
Proof. done. Qed.

Lemma safe_Spawn_rule {A} (Q : A -> Prop) l (k : prog A) :
  Lok l -> safe Q k -> safe Q (Spawn l k).
Proof. by split. Qed.

Lemma safe_ret_rule {A} (a : A) : safe (fun _ => True) (Ret a).
Proof. done. Qed.

(** A safe method keeps the invariant when run to its end in an
    environment that keeps it, and every call it issues is permitted. *)
Definition env_ok (en : env) : Prop :=
  (forall X n (e : E X) s, I s -> I (env_call en X n e s).2) /\
  (forall n d c s, I s -> I (env_wait en n d c s).2).

Definition obs_ok (o : obs) : Prop :=
  match o with OCall e _ => G _ e | OSpawn l => Lok l | OWait _ _ => True end.

Lemma run_safe {A} (Q : A -> Prop) en (p : prog A) n s :
  env_ok en -> I s -> safe Q p ->
  let '(a, s', tr) := run en p n s in Q a /\ I s' /\ Forall obs_ok tr.
Proof.
  intros [Hc Hw]. revert n s.
  induction p as [a|X f k IH|X e k IH|d c k IH|mu k IH|mu k IH|l k IH];
    intros n s Hs Hp; simpl in *.
  - auto.
  - destruct (Hp s Hs) as [Hs1 Hk].
    destruct (f s) as [x s1]. by apply IH.
  - destruct Hp as [He Hk]. specialize (Hc X n e s Hs).
    destruct (env_call en X n e s) as [x s1].
    specialize (IH x (Datatypes.S n) s1 Hc (Hk x)).
    destruct (run en (k x) _ s1) as [[a s2] tr]. naive_solver.
  - specialize (Hw n d c s Hs).
    destruct (env_wait en n d c s) as [b s1].
    specialize (IH b (Datatypes.S n) s1 Hw (Hp b)).
    destruct (run en (k b) _ s1) as [[a s2] tr].
    destruct IH as (?&?&?). repeat split; [done|done|by constructor].
  - by apply IH.
  - by apply IH.
  - destruct Hp as [Hl Hk].
    specialize (IH (Datatypes.S n) s Hs Hk).
    destruct (run en k _ s) as [[a s2] tr]. naive_solver.
Qed.
End Safe.

(** What two proofs permit, both permit. *)
Lemma safe_both (I : S -> Prop) (G1 G2 : forall X, E X -> Prop) (L1 L2 : L -> Prop) {A}
    (Q : A -> Prop) (p : prog A) :
  safe I G1 L1 Q p -> safe (fun _ => True) G2 L2 (fun _ => True) p ->
  safe I (fun X e => G1 X e /\ G2 X e) (fun l => L1 l /\ L2 l) Q p.
Proof. induction p; simpl; naive_solver. Qed.

(** ** Steps of the state

Every section of a text takes the state along [R], every call it issues
satisfies [G], every mutex [Mok] and every goroutine it starts [Lok]; a reflexive
[R] then holds across every step of a pool. *)
Section Moves.
Context (R : S -> S -> Prop) (G : forall X, E X -> Prop) (Mok : M -> Prop) (Lok : L -> Prop).

Fixpoint moves {A} (Q : A -> Prop) (p : prog A) : Prop :=
  match p with
  | Ret a => Q a
  | Atomic f k => forall s, R s (f s).2 /\ moves Q (k (f s).1)
  | Call e k => G _ e /\ forall x, moves Q (k x)
  | Wait _ _ k => forall b, moves Q (k b)
  | Lock mu k | Unlock mu k => Mok mu /\ moves Q k
  | Spawn l k => Lok l /\ moves Q k
  end.

Lemma moves_bind {A B} (P : A -> Prop) (Q : B -> Prop) (p : prog A) (g : A -> prog B) :
  moves P p -> (forall a, P a -> moves Q (g a)) -> moves Q (bind p g).
Proof. intros Hp Hg. induction p; simpl in *; naive_solver. Qed.

Lemma moves_seq {A B} (Q : B -> Prop) (p : prog A) (g : A -> prog B) :
  moves (fun _ => True) p -> (forall a, moves Q (g a)) -> moves Q (bind p g).
Proof. intros Hp Hg. by eapply moves_bind; [exact Hp|]. Qed.

Lemma moves_atomic {X} (f : S -> X * S) : (forall s, R s (f s).2) -> moves (fun _ => True) (atomic f).
Proof. by split. Qed.

Lemma moves_modify (f : S -> S) : (forall s, R s (f s)) -> moves (fun _ => True) (modify f).
Proof. by split. Qed.

Lemma moves_read {X} (f : S -> X) : (forall s, R s s) -> moves (fun _ => True) (read f).
Proof. by split. Qed.

Lemma moves_call {X} (e : E X) : G _ e -> moves (fun _ => True) (call e).
Proof. by split. Qed.
End Moves.

Lemma moves_mono {A} (R R' : S -> S -> Prop) (G G' : forall X, E X -> Prop) (Mok Mok' : M -> Prop)
    (Lok Lok' : L -> Prop) (Q Q' : A -> Prop) (p : prog A) :
  (forall s s', R s s' -> R' s s') -> (forall X e, G X e -> G' X e) -> (forall mu, Mok mu -> Mok' mu) ->
  (forall l, Lok l -> Lok' l) -> (forall a, Q a -> Q' a) ->
  moves R G Mok Lok Q p -> moves R' G' Mok' Lok' Q' p.
Proof. intros HR HG HM HL HQ. induction p; simpl; naive_solver. Qed.

(** What a second proof permits of the calls. *)
Lemma moves_permitted {A} (R : S -> S -> Prop) (G1 G2 : forall X, E X -> Prop) (Mok : M -> Prop)
    (L1 L2 : L -> Prop) (Q : A -> Prop) (p : prog A) :
  moves R G1 Mok L1 Q p -> safe (fun _ => True) G2 L2 (fun _ => True) p ->
  moves R (fun X e => G1 X e /\ G2 X e) Mok L1 Q p.
Proof. induction p; simpl; naive_solver. Qed.

(** ** Pools of goroutines *)

Section Pool.
Context `{EqDecision M, Countable M}.
(** The body of a goroutine returns the label to continue with, if any. *)
Context (code : L -> prog (option L)) (entry : L -> Prop).
Context (clock_of : S -> Time) (advance : Duration -> S -> S).

Inductive thread :=
| Running (p : prog (option L))
| Sleeping (until : option Time) (c : S -> bool) (k : bool -> prog (option L)).

Record pool := Pool { p_state : S; p_held : gset M; p_threads : list thread }.

(** One node of one goroutine: the new state, mutexes, and threads that
    replace it. *)
Inductive node : S -> gset M -> thread -> S -> gset M -> list thread -> Prop :=
| n_done s h : node s h (Running (Ret None)) s h []
| n_loop s h l : node s h (Running (Ret (Some l))) s h [Running (code l)]
| n_atomic s h X (f : S -> X * S) k :
    node s h (Running (Atomic f k)) (f s).2 h [Running (k (f s).1)]
| n_call s h X (e : E X) k x :
    node s h (Running (Call e k)) s h [Running (k x)]
| n_sleep s h d c k :
    node s h (Running (Wait d c k)) s h
      [Sleeping ((fun d => Add (clock_of s) d) <$> d) c k]
| n_timer s h t c k :
    t <= clock_of s -> node s h (Sleeping (Some t) c k) s h [Running (k false)]
| n_cond s h t c k :
    c s = true -> node s h (Sleeping t c k) s h [Running (k true)]
| n_lock s h mu k :
    mu ∉ h -> node s h (Running (Lock mu k)) s ({[mu]} ∪ h) [Running k]
| n_unlock s h mu k :
    node s h (Running (Unlock mu k)) s (h ∖ {[mu]}) [Running k]
| n_spawn s h l k :
    node s h (Running (Spawn l k)) s h [Running k; Running (code l)].

Inductive pstep : pool -> pool -> Prop :=
| s_node s h t s' h' ts' l r :
    node s h t s' h' ts' ->
    pstep (Pool s h (l ++ t :: r)) (Pool s' h' (l ++ ts' ++ r))
| s_entry s h ts l :
    entry l -> pstep (Pool s h ts) (Pool s h (Running (code l) :: ts))
| s_tick s h ts d :
    0 <= d -> pstep (Pool s h ts) (Pool (advance d s) h ts).

Definition reachable (s0 : S) : pool -> Prop := rtc pstep (Pool s0 ∅ []).

(** *** Running a pool

[sched] executes a schedule: an entry point is called, time passes, or the
[i]-th goroutine takes a node, external calls being answered by [ans].  Steps
that are not enabled are skipped, so every schedule reaches a pool. *)
Section Scheduler.
Context (ans : forall X, E X -> option X).

Definition node_exec (s : S) (h : gset M) (t : thread) : option (S * gset M * list thread) :=
  match t with
  | Running (Ret None) => Some (s, h, [])
  | Running (Ret (Some l)) => Some (s, h, [Running (code l)])
  | Running (Atomic f k) => Some ((f s).2, h, [Running (k (f s).1)])
  | Running (Call e k) => (fun x => (s, h, [Running (k x)])) <$> ans _ e
  | Running (Wait d c k) =>
      Some (s, h, [Sleeping ((fun d => Add (clock_of s) d) <$> d) c k])
  | Running (Lock mu k) =>
      if decide (mu ∈ h) then None else Some (s, {[mu]} ∪ h, [Running k])
  | Running (Unlock mu k) => Some (s, h ∖ {[mu]}, [Running k])
  | Running (Spawn l k) => Some (s, h, [Running k; Running (code l)])
  | Sleeping u c k =>
      if c s then Some (s, h, [Running (k true)])
      else match u with
           | Some u => if u <=? clock_of s then Some (s, h, [Running (k false)]) else None
           | None => None
           end
  end.

Lemma node_exec_sound s h t s' h' ts' :
  node_exec s h t = Some (s', h', ts') -> node s h t s' h' ts'.
Proof.
  destruct t as [[[l|]|X f k|X e k|d c k|mu k|mu k|l k]|u c k]; simpl; try (intros [= <- <- <-]; by constructor).
  - destruct (ans X e) as [x|]; simpl; [intros [= <- <- <-]; by constructor|done].
  - destruct (decide (mu ∈ h)); [done|]. intros [= <- <- <-]. by constructor.
  - destruct (c s) eqn:Hc; [intros [= <- <- <-]; by constructor|].
    destruct u as [u|]; [|done]. destruct (Z.leb_spec u (clock_of s)); [|done].
    intros [= <- <- <-]. by constructor.
Qed.

Inductive choice := CEntry (l : L) (Hl : entry l) | CTick (d : Duration) | CNode (i : nat).

Definition sched1 (p : pool) (c : choice) : pool :=
  match c with
  | CEntry l _ => Pool (p_state p) (p_held p) (Running (code l) :: p_threads p)
  | CTick d => Pool (advance (Z.max 0 d) (p_state p)) (p_held p) (p_threads p)
  | CNode i =>
      match p_threads p !! i with
      | Some t =>
          match node_exec (p_state p) (p_held p) t with
          | Some (s', h', ts') =>
              Pool s' h' (take i (p_threads p) ++ ts' ++ drop (Datatypes.S i) (p_threads p))
          | None => p
          end
      | None => p
      end
  end.

Definition sched (cs : list choice) (p : pool) : pool := fold_left sched1 cs p.

Lemma sched1_sound p c : rtc pstep p (sched1 p c).
Proof.
  destruct p as [s h ts]. destruct c as [l Hl|d|i]; simpl.
  - by apply rtc_once, s_entry.
  - apply rtc_once, s_tick. lia.
  - destruct (ts !! i) as [t|] eqn:Hi; [|done].
    destruct (node_exec s h t) as [[[s' h'] ts']|] eqn:Hn; [|done].
    apply node_exec_sound in Hn. apply rtc_once.
    rewrite <- (take_drop_middle ts i t Hi) at 1. by apply s_node.
Qed.

Lemma sched_reaches cs p : rtc pstep p (sched cs p).
Proof.
  unfold sched. revert p. induction cs as [|c cs IH]; intros p; [done|].
  simpl. etrans; [apply sched1_sound|apply IH].
Qed.

Lemma sched_reachable cs s0 : reachable s0 (sched cs (Pool s0 ∅ [])).
Proof. apply sched_reaches. Qed.
End Scheduler.

Section Invariant.
Context (I : S -> Prop) (G : forall X, E X -> Prop) (Lok : L -> Prop).

Definition next_ok (o : option L) : Prop := from_option Lok True o.

Definition thread_safe (t : thread) : Prop :=
  match t with
  | Running p => safe I G Lok next_ok p
  | Sleeping _ _ k => forall b, safe I G Lok next_ok (k b)
  end.

Definition pool_ok (p : pool) : Prop :=
  I (p_state p) /\ Forall thread_safe (p_threads p).

Context (Hcode : forall l, Lok l -> safe I G Lok next_ok (code l)).
Context (Hentry : forall l, entry l -> Lok l).
Context (Htick : forall d s, 0 <= d -> I s -> I (advance d s)).

Lemma node_ok s h t s' h' ts' :
  node s h t s' h' ts' -> I s -> thread_safe t ->
  I s' /\ Forall thread_safe ts'.
Proof using Hcode.
  intros Hn Hs Ht.
  destruct Hn; simpl in *; rewrite ?Forall_cons, ?Forall_nil; simpl; naive_solver.
Qed.

Lemma pstep_ok p p' : pstep p p' -> pool_ok p -> pool_ok p'.
Proof using Hcode Hentry Htick.
  intros Hstep [Hs Hts]. destruct Hstep as [s h t s' h' ts' l r Hn|s h ts l Hl|s h ts d Hd];
    simpl in *.
  - rewrite Forall_app, Forall_cons in Hts. destruct Hts as (Hl & Ht & Hr).
    destruct (node_ok _ _ _ _ _ _ Hn Hs Ht) as [Hs' Hts'].
    split; [done|]. simpl. by rewrite !Forall_app.
  - split; [done|]. constructor; [|done]. apply Hcode, Hentry, Hl.
  - split; [by apply Htick|done].
Qed.

(** An invariant that the text of every goroutine keeps holds in every
    reachable pool, whatever the interleaving. *)
Theorem pool_invariant s0 p : I s0 -> reachable s0 p -> pool_ok p.
Proof using Hcode Hentry Htick.
  intros Hs0 Hr. unfold reachable in Hr.
  assert (pool_ok (Pool s0 ∅ [])) as H0 by (split; [done|constructor]).
  revert H0. induction Hr as [|p1 p2 p3 Hstep _ IH]; [done|].
  intros H1. apply IH. by apply (pstep_ok _ _ Hstep).
Qed.
End Invariant.

(** *** Steps of the shared state *)
Section Moves.
Context (R : S -> S -> Prop) (G : forall X, E X -> Prop) (Mok : M -> Prop) (Lok : L -> Prop).

Definition thread_moves (t : thread) : Prop :=
  match t with
  | Running p => moves R G Mok Lok (next_ok Lok) p
  | Sleeping _ _ k => forall b, moves R G Mok Lok (next_ok Lok) (k b)
  end.

Context (Rrefl : forall s, R s s) (Hcode : forall l, Lok l -> moves R G Mok Lok (next_ok Lok) (code l)).
Context (Hentry : forall l, entry l -> Lok l) (Htick : forall d s, R s (advance d s)).

Lemma node_moves s h t s' h' ts' :
  node s h t s' h' ts' -> thread_moves t -> R s s' /\ Forall thread_moves ts'.
Proof using Rrefl Hcode.
  clear entry Hentry Htick advance.
  intros Hn Ht. destruct Hn; simpl in *; rewrite ?Forall_cons, ?Forall_nil; simpl; naive_solver.
Qed.

Lemma pstep_moves p p' :
  pstep p p' -> Forall thread_moves (p_threads p) ->
  R (p_state p) (p_state p') /\ Forall thread_moves (p_threads p').
Proof using Rrefl Hcode Hentry Htick.
  intros Hstep Hts. destruct Hstep as [s h t s' h' ts' l r Hn|s h ts l Hl|s h ts d Hd]; simpl in *.
  - rewrite Forall_app, Forall_cons in Hts. destruct Hts as (Hl & Ht & Hr).
    destruct (node_moves _ _ _ _ _ _ Hn Ht). by rewrite !Forall_app.
  - split; [done|]. constructor; [by apply Hcode, Hentry|done].
  - done.
Qed.

Lemma reachable_moves s0 p : reachable s0 p -> Forall thread_moves (p_threads p).
Proof using Rrefl Hcode Hentry Htick.
  unfold reachable. intros Hr. assert (Forall thread_moves (p_threads (Pool s0 ∅ []))) as H0 by constructor.
  revert H0. induction Hr as [|p1 p2 p3 Hstep _ IH]; [done|].
  intros H1. apply IH. by apply (pstep_moves _ _ Hstep).
Qed.

(** Every step of a reachable pool is a step of [R]. *)
Theorem pool_simulation s0 p p' :
  reachable s0 p -> pstep p p' -> R (p_state p) (p_state p').
Proof using Rrefl Hcode Hentry Htick.
  intros Hr Hs. by apply (pstep_moves _ _ Hs), (reachable_moves s0).
Qed.
End Moves.
End Pool.
End Prog.

Arguments prog : clear implicits.
Arguments obs : clear implicits.
Arguments env : clear implicits.
Arguments pool : clear implicits.
Arguments thread : clear implicits.
Arguments Ret {S E L M A}.
Arguments Atomic {S E L M A X}.
Arguments Call {S E L M A X}.
Arguments Wait {S E L M A}.
Arguments Lock {S E L M A}.
Arguments Unlock {S E L M A}.
Arguments Spawn {S E L M A}.
Arguments OCall {E L X}.
Arguments OWait {E L}.
Arguments OSpawn {E L}.
Arguments Build_env {S E}.
Arguments env_call {S E}.
Arguments env_wait {S E}.

(** A component with a state of its own runs inside another: its sections act on
    the local state, its calls are the host's programs. *)
Section Embed.
Context {S S' L' M' : Type} {F : Type -> Type} {F' : Type -> Type}.
Context (handle : forall X, F X -> prog S' F' L' M' X).

Fixpoint embed {A} (p : prog S F Empty_set Empty_set A) (s : S) : prog S' F' L' M' (A * S) :=
  match p with
  | Ret a => Ret (a, s)
  | Atomic f k => let '(x, s1) := f s in embed (k x) s1
  | Call e k => bind (handle _ e) (fun x => embed (k x) s)
  | Wait d c k => Wait d (fun _ => c s) (fun b => embed (k b) s)
  | Lock mu _ | Unlock mu _ => match mu with end
  | Spawn l _ => match l with end
  end.
End Embed.

Declare Scope go_scope.
Delimit Scope go_scope with go.
Notation "'let*' x := p 'in' q" := (bind p (fun x => q))
  (at level 10, x pattern, p at level 100, q at level 200) : go_scope.
Notation "'do*' p 'in' q" := (bind p (fun _ => q))
  (at level 10, p at level 100, q at level 200) : go_scope.

(** Walks over the text of a method, leaving the sections, calls and spawns
    that are not trivially permitted. *)
Create HintDb go.
Ltac go_walk :=
  repeat match goal with
  | |- safe _ _ _ _ (match ?x with _ => _ end) => destruct x
  | |- safe _ _ _ _ (bind _ _) => apply safe_seq_rule; [|intros]
  | |- safe _ _ _ _ (let _ := _ in _) => cbv zeta
  | |- safe _ _ _ _ (read _) => apply safe_read_rule
  | |- safe _ _ _ _ (call _) => apply safe_call_rule; try exact I; try discriminate
  | |- safe _ _ _ _ (wait _ _) => apply safe_wait_rule
  | |- safe _ _ _ _ (lock _) => apply safe_lock_rule
  | |- safe _ _ _ _ (unlock _) => apply safe_unlock_rule
  | |- safe _ _ _ _ (spawn _) => apply safe_spawn_rule; try exact I
  | |- safe _ _ _ _ (modify _) => apply safe_modify_rule; intros; try exact I
  | |- safe _ _ _ _ (atomic _) => apply safe_atomic_rule; intros; try exact I
  | |- safe _ _ _ _ (Atomic _ _) => apply safe_Atomic_rule; [intros; try exact I|intros]
  | |- safe _ _ _ _ (Call _ _) => apply safe_Call_rule; [try reflexivity|intros]
  | |- safe _ _ _ _ (Wait _ _ _) => apply safe_Wait_rule; intros
  | |- safe _ _ _ _ (Spawn _ _) => apply safe_Spawn_rule; [try exact I|]
  | |- safe _ _ _ _ (Ret _) => apply safe_ret_rule
  | |- safe _ _ _ _ _ => solve [eauto with go nocore]
  end.

(** The same for [moves]; sections are left as goals. *)
Create HintDb moves.
Ltac moves_walk refl :=
  repeat match goal with
  | |- moves _ _ _ _ _ (match ?x with _ => _ end) => destruct x eqn:?
  | |- moves _ _ _ _ _ (bind _ _) => apply moves_seq; [|intros]
  | |- moves _ _ _ _ _ (let _ := _ in _) => cbv zeta
  | |- moves _ _ _ _ _ (read _) => apply moves_read; exact refl
  | |- moves _ _ _ _ _ (call _) => apply moves_call; try exact I
  | |- moves _ _ _ _ _ (wait _ _) => intros ?; exact I
  | |- moves _ _ _ _ _ (lock _) => split; [try exact I|exact I]
  | |- moves _ _ _ _ _ (unlock _) => split; [try exact I|exact I]
  | |- moves _ _ _ _ _ (spawn _) => split; [first [exact I|by intros []]|exact I]
  | |- moves _ _ _ _ _ (Ret _) => first [exact I|by intros []]
  | |- moves _ _ _ _ _ (modify _) => apply moves_modify; intros
  | |- moves _ _ _ _ _ (atomic _) => apply moves_atomic; intros
  | |- moves _ _ _ _ _ _ => solve [eauto with moves nocore]
  end.
