(* ===== verification/Gate.v ===== *)
(** * Gate: what a goroutine knows while it holds a mutex

    A mutex that is held across calls and other critical sections (a gate)
    protects a projection [view] of the shared state: only the holder changes
    it.  [hsafe] is a proof about a method's text in which the holder knows the
    view; [gate_invariant] shows that in every reachable pool at most one
    goroutine holds the gate and that what the holder knows is the view of the
    current state, so a call issued under the gate is issued with a view that
    cannot be outdated. *)

From S2P Require Import Prelude Conc.

Section Gate.
Context {S : Type} {E : Type -> Type} {L M V : Type}.
Context `{EqDecision M, Countable M}.
Context (I : S -> Prop) (view : S -> V) (gate : M).
(** [G h e]: the call [e] may be issued knowing [h]; [Lok]: goroutines started. *)
Context (G : forall X, option V -> E X -> Prop) (Lok : L -> Prop).

Definition knows (h : option V) (s : S) : Prop := forall v, h = Some v -> view s = v.

(** A section keeps the invariant, and the view unless the gate is held. *)
Definition section_ok (h : option V) (s s' : S) : Prop :=
  I s' /\ (h = None -> view s' = view s).

(** [h] is what the goroutine knows at a node: nothing, or the view while it
    holds the gate. *)
Fixpoint hsafe {A} (Q : option V -> A -> Prop) (h : option V) (p : prog S E L M A) : Prop :=
  match p with
  | Ret a => Q h a
  | Atomic f k =>
      forall s, I s -> knows h s ->
        section_ok h s (f s).2 /\ hsafe Q (const (view (f s).2) <$> h) (k (f s).1)
  | Call e k => G _ h e /\ forall x, hsafe Q h (k x)
  | Wait _ _ k => forall b, hsafe Q h (k b)
  | Lock mu k =>
      if decide (mu = gate) then h = None /\ forall s, I s -> hsafe Q (Some (view s)) k
      else hsafe Q h k
  | Unlock mu k => if decide (mu = gate) then is_Some h /\ hsafe Q None k else hsafe Q h k
  | Spawn l k => Lok l /\ hsafe Q h k
  end.

Lemma hsafe_mono {A} (P Q : option V -> A -> Prop) h p :
  (forall h a, P h a -> Q h a) -> hsafe P h p -> hsafe Q h p.
Proof.
  intros HPQ. revert h. induction p; intros h; simpl; try case_decide; naive_solver.
Qed.

Lemma hsafe_bind {A B} (Q : option V -> B -> Prop) h p (g : A -> prog S E L M B) :
  hsafe (fun h a => hsafe Q h (g a)) h p -> hsafe Q h (bind p g).
Proof.
  revert h. induction p; intros h; simpl; try case_decide; naive_solver.
Qed.

Lemma hsafe_seq {A B} (P : option V -> A -> Prop) (Q : option V -> B -> Prop) h p
    (g : A -> prog S E L M B) :
  hsafe P h p -> (forall h a, P h a -> hsafe Q h (g a)) -> hsafe Q h (bind p g).
Proof. intros Hp Hg. apply hsafe_bind. by eapply hsafe_mono, Hp. Qed.

Lemma hsafe_read_seq {X A} (Q : option V -> A -> Prop) h (f : S -> X) (g : X -> prog S E L M A) :
  (forall s, I s -> knows h s -> hsafe Q h (g (f s))) -> hsafe Q h (bind (read f) g).
Proof.
  intros Hg s Hs Hk. split; [by split|]. simpl.
  replace (const (view s) <$> h) with h; [by apply Hg|].
  destruct h as [v|]; [|done]. simpl. by rewrite (Hk v eq_refl).
Qed.

Lemma hsafe_call_seq {X A} (Q : option V -> A -> Prop) h (e : E X) (g : X -> prog S E L M A) :
  G X h e -> (forall x, hsafe Q h (g x)) -> hsafe Q h (bind (call e) g).
Proof. by split. Qed.

(** ** Text that leaves the view alone *)

(** No section changes the view, no call needs to know it, and the gate is
    neither taken nor released. *)
Fixpoint still {A} (p : prog S E L M A) : Prop :=
  match p with
  | Ret _ => True
  | Atomic f k => forall s, I s -> (I (f s).2 /\ view (f s).2 = view s) /\ still (k (f s).1)
  | Call e k => (forall h, G _ h e) /\ forall x, still (k x)
  | Wait _ _ k => forall b, still (k b)
  | Lock mu k | Unlock mu k => mu <> gate /\ still k
  | Spawn l k => Lok l /\ still k
  end.

Lemma still_hsafe {A} h (p : prog S E L M A) : still p -> hsafe (fun h' _ => h' = h) h p.
Proof.
  induction p as [a|X f k IH|X e k IH|d c k IH|mu k IH|mu k IH|l k IH]; simpl.
  - done.
  - intros Hp s Hs Hk. destruct (Hp s Hs) as [[HI Hv] Hst]. split; [by split|].
    replace (const (view (f s).2) <$> h) with h; [by apply IH|].
    destruct h as [v|]; [|done]. simpl. by rewrite Hv, (Hk v eq_refl).
  - naive_solver.
  - naive_solver.
  - intros [Hmu Hst]. case_decide; [done|]. by apply IH.
  - intros [Hmu Hst]. case_decide; [done|]. by apply IH.
  - naive_solver.
Qed.

Lemma still_bind {A B} (p : prog S E L M A) (g : A -> prog S E L M B) :
  still p -> (forall a, still (g a)) -> still (bind p g).
Proof. intros Hp Hg. induction p; simpl in *; naive_solver. Qed.

(** [still] text before, or a step at, what needs the gate. *)
Lemma hsafe_still_seq {A B} (Q : option V -> B -> Prop) h p (g : A -> prog S E L M B) :
  still p -> (forall a, hsafe Q h (g a)) -> hsafe Q h (bind p g).
Proof.
  intros Hp Hg. eapply hsafe_seq; [by apply still_hsafe|]. by intros ? a ->.
Qed.

Lemma still_end {A} (p : prog S E L M A) : still p -> hsafe (fun h _ => h = None) None p.
Proof. apply still_hsafe. Qed.

Lemma still_ret {A} (a : A) : still (Ret a).
Proof. done. Qed.
Lemma still_atomic {X} (f : S -> X * S) :
  (forall s, I s -> I (f s).2 /\ view (f s).2 = view s) -> still (atomic f).
Proof. intros Hf s Hs. split; [by apply Hf|done]. Qed.
Lemma still_modify (f : S -> S) :
  (forall s, I s -> I (f s) /\ view (f s) = view s) -> still (modify f).
Proof. intros Hf s Hs. split; [by apply Hf|done]. Qed.
Lemma still_read {X} (f : S -> X) : still (read f).
Proof. by intros s Hs. Qed.
Lemma still_call {X} (e : E X) : (forall h, G X h e) -> still (call e).
Proof. by split. Qed.
Lemma still_wait d c : still (wait d c).
Proof. done. Qed.
Lemma still_lock mu : mu <> gate -> still (lock mu).
Proof. by split. Qed.
Lemma still_unlock mu : mu <> gate -> still (unlock mu).
Proof. by split. Qed.
Lemma still_spawn l : Lok l -> still (spawn l).
Proof. by split. Qed.

Lemma still_embed {S2 A} {F : Type -> Type} (handle : forall X, F X -> prog S E L M X)
    (p : prog S2 F Empty_set Empty_set A) s2 :
  (forall X (e : F X), still (handle X e)) -> still (embed handle p s2).
Proof.
  intros Hh. revert s2. induction p as [a|X f k IH|X e k IH|d c k IH|[]|[]|[]]; intros s2; cbn [embed].
  - done.
  - destruct (f s2). apply IH.
  - apply still_bind; [apply Hh|]. intros x. apply IH.
  - intros b. apply IH.
Qed.

(** Text that starts and ends without the gate. *)
Definition free {A} (p : prog S E L M A) : Prop := hsafe (fun h _ => h = None) None p.

Lemma still_free {A} (p : prog S E L M A) : still p -> free p.
Proof. apply still_hsafe. Qed.

Lemma free_bind {A B} (p : prog S E L M A) (g : A -> prog S E L M B) :
  free p -> (forall a, free (g a)) -> free (bind p g).
Proof. intros Hp Hg. eapply hsafe_seq; [exact Hp|]. intros h a ->. apply Hg. Qed.

(** Text under the gate, which it keeps. *)
Definition held {A} (v : V) (p : prog S E L M A) : Prop := hsafe (fun h _ => is_Some h) (Some v) p.

Lemma held_still {A} v (p : prog S E L M A) : still p -> held v p.
Proof. intros Hp. eapply hsafe_mono; [|by apply still_hsafe]. by intros h a ->. Qed.

Lemma held_atomic {X} v (f : S -> X * S) : (forall s, I s -> view s = v -> I (f s).2) -> held v (atomic f).
Proof.
  intros Hf s Hs Hk. split; [|simpl; by eexists]. split; [apply Hf; [done|by apply Hk]|done].
Qed.

Lemma held_modify v (f : S -> S) : (forall s, I s -> view s = v -> I (f s)) -> held v (modify f).
Proof.
  intros Hf s Hs Hk. split; [|simpl; by eexists]. split; [apply Hf; [done|by apply Hk]|done].
Qed.

Lemma held_bind {A B} v (p : prog S E L M A) (g : A -> prog S E L M B) :
  held v p -> (forall v a, held v (g a)) -> held v (bind p g).
Proof. intros Hp Hg. eapply hsafe_seq; [exact Hp|]. intros h a [v' ->]. apply Hg. Qed.

(** A critical region: the gate, text under it, and the release. *)
Definition closing {A} (v : V) (p : prog S E L M A) : Prop := hsafe (fun h _ => h = None) (Some v) p.

Lemma free_lock {A} (p : prog S E L M A) :
  (forall s, I s -> closing (view s) p) -> free (bind (lock gate) (fun _ => p)).
Proof. intros Hp. unfold free. cbn [bind lock hsafe]. by rewrite decide_True. Qed.

Lemma closing_bind {A B} v (p : prog S E L M A) (g : A -> prog S E L M B) :
  held v p -> (forall v a, closing v (g a)) -> closing v (bind p g).
Proof. intros Hp Hg. eapply hsafe_seq; [exact Hp|]. intros h a [v' ->]. apply Hg. Qed.

Lemma closing_unlock v : closing v (unlock gate).
Proof. unfold closing. cbn [unlock hsafe]. by rewrite decide_True. Qed.

Lemma closing_unlock_seq {A} v (p : prog S E L M A) :
  free p -> closing v (bind (unlock gate) (fun _ => p)).
Proof. intros Hp. unfold closing. cbn [bind unlock hsafe]. by rewrite decide_True. Qed.

Lemma free_ends {A} (p : prog S E L M A) (Q : A -> Prop) :
  (forall a, Q a) -> free p -> hsafe (fun h a => h = None /\ Q a) None p.
Proof. intros HQ. apply hsafe_mono. by intros h a ->. Qed.

(** ** Pools *)
Section Pool.
Context (code : L -> prog S E L M (option L)) (clock_of : S -> Time).

(** A goroutine ends without the gate. *)
Definition ends (h : option V) (next : option L) : Prop := h = None /\ from_option Lok True next.

Context (Hcode : forall l, Lok l -> hsafe ends None (code l)).

Definition thread_ok (h : option V) (t : thread S E L M) : Prop :=
  match t with
  | Running p => hsafe ends h p
  | Sleeping _ _ k => forall b, hsafe ends h (k b)
  end.

Definition holders (hs : list (option V)) : nat := length (filter is_Some hs).
Definition gate_count (held : gset M) : nat := if decide (gate ∈ held) then 1 else 0.

(** What the goroutines of a pool know, one entry each. *)
Record gated (p : pool S E L M _ _) (hs : list (option V)) : Prop := {
  ga_state : I (p_state p);
  ga_threads : Forall2 thread_ok hs (p_threads p);
  ga_knows : Forall (fun h => knows h (p_state p)) hs;
  ga_holders : holders hs = gate_count (p_held p) }.

Lemma holders_app l r : holders (l ++ r) = (holders l + holders r)%nat.
Proof. unfold holders. by rewrite filter_app, length_app. Qed.

Definition hold (h : option V) : nat := if h is Some _ then 1 else 0.

Lemma holders_cons h r : holders (h :: r) = (hold h + holders r)%nat.
Proof. by destruct h. Qed.

Lemma holders_none hs s s' :
  holders hs = 0%nat -> Forall (fun h => knows h s) hs -> Forall (fun h => knows h s') hs.
Proof.
  induction hs as [|[v|] hs IH]; [done|done|]. intros Hn Hk. constructor; [done|].
  apply IH; [done|]. by inversion Hk.
Qed.

Lemma knows_view h s s' : view s' = view s -> knows h s -> knows h s'.
Proof. intros Hv Hk v Hh. rewrite Hv. by apply Hk. Qed.

Lemma node_gated s held t s' held' ts' h :
  node code clock_of s held t s' held' ts' -> I s -> knows h s -> thread_ok h t ->
  (hold h <= gate_count held)%nat ->
  I s' /\ (h = None -> view s' = view s) /\
  exists hs, Forall2 thread_ok hs ts' /\ Forall (fun h => knows h s') hs /\
    (holders hs + gate_count held = hold h + gate_count held')%nat.
Proof using Hcode.
  intros Hn Hs Hk Ht Hh.
  destruct Hn; simpl in Ht;
    try (split; [done|]; split; [done|]; exists [h];
         split_and!; [constructor; naive_solver|by constructor|
                      by rewrite holders_cons, Nat.add_0_r]; fail).
  - split; [done|]. split; [done|]. exists []. destruct Ht as [-> _]. by repeat split.
  - split; [done|]. split; [done|]. exists [None]. destruct Ht as [-> Hl].
    split_and!; [|by repeat constructor|done]. constructor; [|constructor]. by apply Hcode.
  - destruct (Ht s Hs Hk) as [[HI Hv] Hsafe]. split; [done|]. split; [done|].
    exists [const (view (f s).2) <$> h].
    split_and!; [by repeat constructor| |by destruct h].
    constructor; [|done]. intros v. destruct h; [|done]. by intros [= <-].
  - split; [done|]. split; [done|]. case_decide as Hmu.
    + destruct Ht as [-> Hv]. subst mu. exists [Some (view s)].
      split_and!; [by constructor; [apply Hv|]| |].
      * constructor; [|done]. by intros v [= <-].
      * unfold gate_count. rewrite decide_False by done. by rewrite decide_True by set_solver.
    + exists [h]. split_and!; [by constructor|by constructor|].
      rewrite holders_cons. unfold gate_count, holders. simpl.
      destruct (decide (gate ∈ h0)), (decide (gate ∈ {[mu]} ∪ h0)); set_solver || lia.
  - split; [done|]. split; [done|]. case_decide as Hmu.
    + destruct Ht as [[v ->] Hsafe]. subst mu. exists [None].
      split_and!; [by constructor|by repeat constructor|].
      unfold gate_count, hold in *. rewrite (decide_False (P := gate ∈ h0 ∖ {[gate]})) by set_solver.
      destruct (decide (gate ∈ h0)); [done|lia].
    + exists [h]. split_and!; [by constructor|by constructor|].
      rewrite holders_cons. unfold gate_count, holders. simpl.
      destruct (decide (gate ∈ h0)), (decide (gate ∈ h0 ∖ {[mu]})); set_solver || lia.
  - split; [done|]. split; [done|]. destruct Ht as [Hl Hsafe]. exists [h; None].
    split_and!; [|by constructor; [|constructor]|by rewrite holders_cons, Nat.add_0_r].
    constructor; [done|]. constructor; [|constructor]. by apply Hcode.
Qed.

Context (entry : L -> Prop) (advance : Duration -> S -> S).
Context (Hentry : forall l, entry l -> Lok l).
Context (Htick : forall d s, 0 <= d -> I s -> I (advance d s) /\ view (advance d s) = view s).

Lemma pstep_gated p p' hs :
  pstep code entry clock_of advance p p' -> gated p hs -> exists hs', gated p' hs'.
Proof using Hcode Hentry Htick.
  intros Hstep [HI Hts Hks Hn]. destruct Hstep as [s held t s' held' ts' l r Hnode|s held ts l Hl|s held ts d Hd];
    simpl in *.
  - apply Forall2_app_inv_r in Hts as (hl & hr' & Hl & Htr & ->).
    apply Forall2_cons_inv_r in Htr as (h & hr & Ht & Hr & ->).
    rewrite Forall_app, Forall_cons in Hks. destruct Hks as (Hkl & Hk & Hkr).
    rewrite holders_app, holders_cons in Hn.
    destruct (node_gated _ _ _ _ _ _ _ Hnode HI Hk Ht ltac:(lia)) as (HI' & Hv & hs & Hts' & Hks' & Hcnt).
    assert (forall ks, (holders ks <= holders hl + holders hr)%nat ->
      Forall (fun h => knows h s) ks -> Forall (fun h => knows h s') ks) as Hother.
    { intros ks Hle Hks. destruct h as [v|].
      - apply (holders_none _ s); [|done]. assert (gate_count held <= 1)%nat by
          (unfold gate_count; case_decide; lia). simpl in Hn. lia.
      - eapply Forall_impl; [exact Hks|]. intros k. by apply knows_view, Hv. }
    exists (hl ++ hs ++ hr)%list. split; simpl.
    + done.
    + by apply Forall2_app, Forall2_app.
    + rewrite !Forall_app. split_and!; [by apply Hother; [lia|]|done|by apply Hother; [lia|]].
    + rewrite !holders_app. lia.
  - exists (None :: hs). split; simpl; [done| |by constructor|done].
    constructor; [|done]. by apply Hcode, Hentry.
  - destruct (Htick d s Hd HI) as [HI' Hv]. exists hs. split; simpl; [done|done| |done].
    eapply Forall_impl; [exact Hks|]. intros k. by apply knows_view.
Qed.

(** In every reachable pool at most one goroutine holds the gate, and it knows
    the view of the current state. *)
Theorem gate_invariant s0 p :
  I s0 -> reachable code entry clock_of advance s0 p -> exists hs, gated p hs.
Proof using Hcode Hentry Htick.
  intros Hs0 Hr. unfold reachable in Hr.
  assert (exists hs, gated (Pool s0 ∅ []) hs) as H0.
  { exists []. split; simpl; [done|constructor|constructor|].
    unfold gate_count. by rewrite decide_False by set_solver. }
  revert H0. induction Hr as [|p1 p2 p3 Hstep _ IH]; [done|].
  intros [hs H1]. apply IH. by eapply pstep_gated.
Qed.

(** A call about to be issued is permitted by what its goroutine knows, which
    is true of the current state. *)
Corollary gated_call s0 p X (e : E X) k :
  I s0 -> reachable code entry clock_of advance s0 p -> Running (Call e k) ∈ p_threads p ->
  I (p_state p) /\ exists h, G _ h e /\ knows h (p_state p).
Proof using Hcode Hentry Htick.
  intros Hs0 Hr Hin. destruct (gate_invariant s0 p Hs0 Hr) as [hs [HI Hts Hks _]].
  split; [done|]. apply list_elem_of_lookup in Hin as [i Hi].
  destruct (Forall2_lookup_r _ _ _ _ _ Hts Hi) as (h & Hh & [Hg _]).
  exists h. split; [done|]. rewrite Forall_lookup in Hks. by apply (Hks i).
Qed.

(** Two calls that need the gate are not about to be issued at once. *)
Corollary gated_exclusive s0 p i j X (e : E X) k Y (e' : E Y) k' :
  I s0 -> reachable code entry clock_of advance s0 p ->
  p_threads p !! i = Some (Running (Call e k)) -> p_threads p !! j = Some (Running (Call e' k')) ->
  (forall h, G _ h e -> is_Some h) -> (forall h, G _ h e' -> is_Some h) -> i = j.
Proof using Hcode Hentry Htick.
  intros Hs0 Hr Hi Hj He He'. destruct (gate_invariant s0 p Hs0 Hr) as [hs [_ Hts _ Hn]].
  destruct (Forall2_lookup_r _ _ _ _ _ Hts Hi) as (h & Hh & [Hg _]).
  destruct (Forall2_lookup_r _ _ _ _ _ Hts Hj) as (h' & Hh' & [Hg' _]).
  apply He in Hg as [v ->]. apply He' in Hg' as [v' ->].
  assert (holders hs <= 1)%nat as Hle by (rewrite Hn; unfold gate_count; case_decide; lia).
  destruct (decide (i = j)) as [|Hij]; [done|]. exfalso.
  assert (exists a b : nat, (a < b)%nat /\ (exists v, hs !! a = Some (Some v)) /\ exists v, hs !! b = Some (Some v))
    as (a & b & Hab & [va Ha] & [vb Hb])
    by (destruct (Nat.lt_total i j) as [?|[?|?]]; [exists i, j|done|exists j, i]; naive_solver).
  rewrite <- (take_drop_middle hs a _ Ha), holders_app, holders_cons in Hle. simpl in Hle.
  replace b with (Datatypes.S a + (b - Datatypes.S a))%nat in Hb by lia. rewrite <- lookup_drop in Hb.
  rewrite <- (take_drop_middle _ _ _ Hb), holders_app, holders_cons in Hle. simpl in Hle. lia.
Qed.
End Pool.
End Gate.

(** Walks over text that leaves the view alone; what remains are the sections
    and calls that are not trivially permitted. *)
Create HintDb gate.
Ltac still_walk :=
  repeat match goal with
  | |- still _ _ _ _ _ (match ?x with _ => _ end) => destruct x
  | |- still _ _ _ _ _ (bind _ _) => apply still_bind; [|intros]
  | |- still _ _ _ _ _ (let _ := _ in _) => cbv zeta
  | |- still _ _ _ _ _ (read _) => apply still_read
  | |- still _ _ _ _ _ (call _) => apply still_call; intros; try exact I
  | |- still _ _ _ _ _ (wait _ _) => apply still_wait
  | |- still _ _ _ _ _ (lock _) => apply still_lock; discriminate
  | |- still _ _ _ _ _ (unlock _) => apply still_unlock; discriminate
  | |- still _ _ _ _ _ (spawn _) => apply still_spawn; try exact I
  | |- still _ _ _ _ _ (modify _) => apply still_modify; intros
  | |- still _ _ _ _ _ (atomic _) => apply still_atomic; intros
  | |- still _ _ _ _ _ (Ret _) => apply still_ret
  | |- still _ _ _ _ _ _ => solve [eauto with gate nocore]
  end.

(** Text under the gate up to its release; [held] parts are left. *)
Ltac closing_walk :=
  repeat match goal with
  | |- closing _ _ _ _ _ _ (match ?x with _ => _ end) => destruct x
  | |- closing _ _ _ _ _ _ (let _ := _ in _) => cbv zeta
  | |- closing _ _ _ _ _ _ (unlock _) => apply closing_unlock
  | |- closing _ _ _ _ _ _ (bind (unlock _) _) => apply closing_unlock_seq
  | |- closing _ _ _ _ _ _ (bind _ _) => apply closing_bind; [|intros]
  end.

(** The same for text that takes and releases the gate in regions. *)
Ltac free_walk :=
  repeat match goal with
  | |- free _ _ _ _ _ (match ?x with _ => _ end) => destruct x
  | |- free _ _ _ _ _ (let _ := _ in _) => cbv zeta
  | |- free _ _ _ _ _ (bind (lock _) _) => apply free_lock; intros; closing_walk
  | |- free _ _ _ _ _ (bind _ _) => apply free_bind; [|intros]
  | |- free _ _ _ _ _ _ => solve [eauto with gate nocore]
  | |- free _ _ _ _ _ _ => apply still_free; solve [still_walk]
  end.
