(* ===== verification/LockOrder.v ===== *)
(** * LockOrder: mutexes taken in order are always released

    The mutexes of a component are ranked.  [ordered] is a proof about a
    method's text that it takes a mutex only while every mutex it holds has a
    smaller rank, releases only what it holds, waits under a mutex only as [held_wait]
    permits, and makes under a mutex only the calls [under] permits.  Two facts follow for every reachable pool:

    - [no_circular_wait]: when a goroutine waits for a mutex, some goroutine
      that holds one is not waiting for one;
    - [lock_served]: when waits under a mutex have a timer and calls return, a
      goroutine that waits for a mutex can get it, without any new event from
      the outside: time passes, and the goroutines that hold mutexes run on. *)

From S2P Require Import Prelude Conc.

Section Count.
Context {M : Type} `{EqDecision M, Countable M}.

(** [1] for a mutex that is held. *)
Definition count (mu : M) (held : gset M) : nat := if decide (mu ∈ held) then 1 else 0.

Lemma count_in mu held : mu ∈ held -> count mu held = 1%nat.
Proof. intros. unfold count. by rewrite decide_True. Qed.

Lemma count_out mu held : mu ∉ held -> count mu held = 0%nat.
Proof. intros. unfold count. by rewrite decide_False. Qed.

Lemma count_empty mu : count mu ∅ = 0%nat.
Proof. apply count_out. set_solver. Qed.

Lemma count_le mu held : (count mu held <= 1)%nat.
Proof. unfold count. case_decide; lia. Qed.

Lemma count_union mu mu' held :
  mu' ∉ held -> count mu ({[mu']} ∪ held) = (count mu {[mu']} + count mu held)%nat.
Proof. intros Hn. unfold count. repeat case_decide; set_solver. Qed.

Lemma count_minus mu mu' held :
  mu' ∈ held -> (count mu (held ∖ {[mu']}) + count mu {[mu']} = count mu held)%nat.
Proof. intros Hn. unfold count. repeat case_decide; set_solver. Qed.

End Count.

Section LockOrder.
Context {S : Type} {E : Type -> Type} {L M : Type}.
Context `{EqDecision M, Countable M}.
Context (rank : M -> nat) (held_wait : option Duration -> Prop).
(** [under hs e]: the call [e] may be issued holding [hs]. *)
Context (under : forall X, gset M -> E X -> Prop).

(** [mu] ranks above everything held. *)
Definition below (hs : gset M) (mu : M) : Prop := forall m, m ∈ hs -> (rank m < rank mu)%nat.

Fixpoint ordered {A} (Q : gset M -> A -> Prop) (hs : gset M) (p : prog S E L M A) : Prop :=
  match p with
  | Ret a => Q hs a
  | Atomic f k => forall s, ordered Q hs (k (f s).1)
  | Call e k => under _ hs e /\ forall x, ordered Q hs (k x)
  | Wait d c k => (hs = ∅ \/ held_wait d) /\ forall b, ordered Q hs (k b)
  | Lock mu k => below hs mu /\ ordered Q ({[mu]} ∪ hs) k
  | Unlock mu k => mu ∈ hs /\ ordered Q (hs ∖ {[mu]}) k
  | Spawn l k => ordered Q hs k
  end.

(** Text that holds the same mutexes before and after. *)
Definition balanced {A} (hs : gset M) (p : prog S E L M A) : Prop :=
  ordered (fun hs' _ => hs' = hs) hs p.

Lemma ordered_mono {A} (P Q : gset M -> A -> Prop) hs p :
  (forall hs a, P hs a -> Q hs a) -> ordered P hs p -> ordered Q hs p.
Proof. intros HPQ. revert hs. induction p; intros hs; simpl; naive_solver. Qed.

Lemma ordered_bind {A B} (Q : gset M -> B -> Prop) hs p (g : A -> prog S E L M B) :
  ordered (fun hs' a => ordered Q hs' (g a)) hs p -> ordered Q hs (bind p g).
Proof. revert hs. induction p; intros hs; simpl; naive_solver. Qed.

Lemma ordered_seq {A B} (Q : gset M -> B -> Prop) hs p (g : A -> prog S E L M B) :
  balanced hs p -> (forall a, ordered Q hs (g a)) -> ordered Q hs (bind p g).
Proof.
  intros Hp Hg. apply ordered_bind. eapply ordered_mono; [|exact Hp]. by intros ? a ->.
Qed.

Lemma balanced_seq {A B} hs p (g : A -> prog S E L M B) :
  balanced hs p -> (forall a, balanced hs (g a)) -> balanced hs (bind p g).
Proof. apply ordered_seq. Qed.

(** A critical region from its [Lock] to its [Unlock]. *)
Definition closes {A} (hs : gset M) (mu : M) (p : prog S E L M A) : Prop :=
  ordered (fun hs' _ => hs' = hs) ({[mu]} ∪ hs) p.

Lemma balanced_lock {A} hs mu (p : prog S E L M A) :
  below hs mu -> closes hs mu p -> balanced hs (bind (lock mu) (fun _ => p)).
Proof. by split. Qed.

Lemma closes_seq {A B} hs mu p (g : A -> prog S E L M B) :
  balanced ({[mu]} ∪ hs) p -> (forall a, closes hs mu (g a)) -> closes hs mu (bind p g).
Proof. apply ordered_seq. Qed.

Lemma below_drop hs mu : below hs mu -> ({[mu]} ∪ hs) ∖ {[mu]} = hs.
Proof. intros Hb. assert (mu ∉ hs) by (intros ?%Hb; lia). set_solver. Qed.

Lemma closes_unlock hs mu : below hs mu -> closes hs mu (unlock mu).
Proof. intros Hb. split; [set_solver|]. by apply below_drop. Qed.

Lemma closes_unlock_seq {A} hs mu (p : prog S E L M A) :
  below hs mu -> balanced hs p -> closes hs mu (bind (unlock mu) (fun _ => p)).
Proof. intros Hb Hp. split; [set_solver|]. simpl. by rewrite (below_drop _ _ Hb). Qed.

(** A region inside a region. *)
Lemma closes_region {A X} hs mu mu' (p : prog S E L M X) (q : X -> prog S E L M A) :
  below ({[mu]} ∪ hs) mu' -> balanced ({[mu']} ∪ ({[mu]} ∪ hs)) p -> (forall x, closes hs mu (q x)) ->
  closes hs mu (bind (lock mu') (fun _ => bind p (fun x => bind (unlock mu') (fun _ => q x)))).
Proof.
  intros Hb Hp Hq. split; [done|]. cbn [bind]. eapply ordered_seq; [exact Hp|]. intros x.
  split; [set_solver|]. cbn [bind]. rewrite (below_drop _ _ Hb). apply Hq.
Qed.

Lemma balanced_ret {A} hs (a : A) : balanced hs (Ret a).
Proof. done. Qed.
Lemma balanced_atomic {X} hs (f : S -> X * S) : balanced hs (atomic f).
Proof. by intros s. Qed.
Lemma balanced_modify hs (f : S -> S) : balanced hs (modify f).
Proof. by intros s. Qed.
Lemma balanced_read {X} hs (f : S -> X) : balanced hs (read f).
Proof. by intros s. Qed.
Lemma balanced_call {X} hs (e : E X) : under X hs e -> balanced hs (call e).
Proof. by split. Qed.
Lemma balanced_wait hs d c : hs = ∅ \/ held_wait d -> balanced hs (wait d c).
Proof. by split. Qed.
Lemma balanced_spawn hs l : balanced hs (spawn l).
Proof. done. Qed.

(** ** Pools *)
Section Pool.
Context (code : L -> prog S E L M (option L)) (clock_of : S -> Time).

(** A goroutine's body ends without a mutex. *)
Definition ends {A} (hs : gset M) (a : A) : Prop := hs = ∅.

Context (Hcode : forall l, ordered ends ∅ (code l)).

Definition thread_ordered (hs : gset M) (t : thread S E L M) : Prop :=
  match t with
  | Running p => ordered ends hs p
  | Sleeping u _ k => (hs = ∅ \/ exists d, held_wait d /\ (is_Some d -> is_Some u)) /\
                      forall b, ordered ends hs (k b)
  end.

(** Who holds what: the goroutines of a pool with their mutexes. *)
Definition holds (mu : M) (es : list (gset M * thread S E L M)) : nat :=
  length (filter (fun e => mu ∈ e.1) es).

Definition entry_ok (e : gset M * thread S E L M) : Prop := thread_ordered e.1 e.2.

Record ledger (p : pool S E L M _ _) (es : list (gset M * thread S E L M)) : Prop := {
  le_threads : p_threads p = es.*2;
  le_ordered : Forall entry_ok es;
  le_holds : forall mu, holds mu es = count mu (p_held p) }.

Lemma holds_app mu l r : holds mu (l ++ r) = (holds mu l + holds mu r)%nat.
Proof. unfold holds. by rewrite filter_app, length_app. Qed.

Lemma holds_cons mu h t r : holds mu ((h, t) :: r) = (count mu h + holds mu r)%nat.
Proof. unfold holds, count. rewrite filter_cons. simpl. by case_decide. Qed.

(** What a goroutine holds is held in the pool. *)
Lemma ledger_held p es h t mu : ledger p es -> (h, t) ∈ es -> mu ∈ h -> mu ∈ p_held p.
Proof.
  intros Hl (l & r & ->)%list_elem_of_split Hmu. pose proof (le_holds _ _ Hl mu) as Hc.
  rewrite holds_app, holds_cons, (count_in mu h) in Hc by done.
  destruct (decide (mu ∈ p_held p)) as [|Hn]; [done|]. rewrite (count_out _ _ Hn) in Hc. lia.
Qed.

(** What is held in the pool is held by a goroutine. *)
Lemma ledger_holder p es mu : ledger p es -> mu ∈ p_held p -> exists h t, (h, t) ∈ es /\ mu ∈ h.
Proof.
  intros Hl Hmu. pose proof (le_holds _ _ Hl mu) as Hc. rewrite count_in in Hc by done.
  unfold holds in Hc. destruct (filter _ es) as [|[h t] l] eqn:Ef; [done|].
  exists h, t. assert ((h, t) ∈ filter (fun e => mu ∈ e.1) es) as Hin by (rewrite Ef; apply list_elem_of_here).
  apply list_elem_of_filter in Hin. naive_solver.
Qed.

(** What the goroutines that replace one after a node hold. *)
Definition after (h : gset M) (t : thread S E L M) : list (gset M) :=
  match t with
  | Running (Ret None) => []
  | Running (Ret (Some _)) => [∅]
  | Running (Lock mu _) => [{[mu]} ∪ h]
  | Running (Unlock mu _) => [h ∖ {[mu]}]
  | Running (Spawn _ _) => [h; ∅]
  | _ => [h]
  end.

Definition next_entries (h : gset M) (t : thread S E L M) (ts : list (thread S E L M)) :=
  zip (after h t) ts.

Lemma node_ledger s held t s' held' ts' h :
  node code clock_of s held t s' held' ts' -> thread_ordered h t -> h ⊆ held ->
  ts' = (next_entries h t ts').*2 /\ Forall entry_ok (next_entries h t ts') /\
  forall mu, (holds mu (next_entries h t ts') + count mu held = count mu h + count mu held')%nat.
Proof using Hcode.
  intros Hn Ht Hh. unfold next_entries.
  destruct Hn as [s g|s g l|s g X f k|s g X e k x|s g d c k|s g u c k Hu|s g u c k Hu
                 |s g mu k Hmu|s g mu k|s g l k]; simpl in Ht; (split; [reflexivity|]); (split;
    [simpl; rewrite ?Forall_cons, ?Forall_nil; unfold entry_ok; simpl; try naive_solver
    |intros mu'; simpl; rewrite ?holds_cons, ?count_empty; unfold holds; simpl]).
  all: unfold ends in *; subst; rewrite ?count_empty; try lia; try apply Hcode.
  - destruct Ht as [Hw Ht]. repeat split; [|done]. destruct Hw as [|Hw]; [by left|]. right.
    exists d. split; [done|]. by intros [d' ->].
  - destruct Ht as [Hb Ht]. rewrite !count_union by set_solver. lia.
  - destruct Ht as [Hb Ht]. pose proof (count_minus mu' mu h Hb).
    pose proof (count_minus mu' mu g ltac:(set_solver)). lia.
Qed.

Lemma node_step_ledger s held l r h t s' held' ts' :
  ledger (Pool s held (l ++ (h, t) :: r)%list.*2) (l ++ (h, t) :: r)%list ->
  node code clock_of s held t s' held' ts' ->
  ledger (Pool s' held' (l.*2 ++ ts' ++ r.*2)) (l ++ next_entries h t ts' ++ r)%list.
Proof using Hcode.
  intros Hl Hn. pose proof (le_ordered _ _ Hl) as Ho. rewrite Forall_app, Forall_cons in Ho.
  destruct Ho as (Hol & Ht & Hor).
  assert (h ⊆ held) as Hsub.
  { intros mu Hmu. apply (ledger_held _ _ h t mu Hl); [|done]. set_solver. }
  destruct (node_ledger _ _ _ _ _ _ h Hn Ht Hsub) as (Hts & Hes & Hc).
  split; simpl; [by rewrite !fmap_app, <- Hts|by rewrite !Forall_app|].
  intros mu. specialize (Hc mu). pose proof (le_holds _ _ Hl mu) as Hm. simpl in Hm.
  rewrite holds_app, holds_cons in Hm. rewrite !holds_app. lia.
Qed.

Context (entry : L -> Prop) (advance : Duration -> S -> S).

Lemma pstep_ledger p p' es :
  pstep code entry clock_of advance p p' -> ledger p es -> exists es', ledger p' es'.
Proof using Hcode.
  intros Hs Hl. destruct Hs as [s held t s' held' ts' l r Hn|s held ts l Hl'|s held ts d Hd].
  - pose proof (le_threads _ _ Hl) as Ht. simpl in Ht. symmetry in Ht.
    apply fmap_app_inv in Ht as (el & er' & -> & Her & ->).
    symmetry in Her. apply fmap_cons_inv in Her as ([h t'] & er & -> & -> & ->). simpl in *.
    assert (Pool s held (el.*2 ++ t' :: er.*2)%list = Pool s held (el ++ (h, t') :: er)%list.*2) as E1
      by (by rewrite fmap_app).
    rewrite E1 in Hl. eexists. exact (node_step_ledger _ _ _ _ _ _ _ _ _ Hl Hn).
  - exists ((∅, Running (code l)) :: es). destruct Hl as [Ht Ho Hc]. simpl in *. split; simpl.
    + by rewrite Ht.
    + constructor; [apply Hcode|done].
    + intros mu. rewrite holds_cons, count_empty. apply Hc.
  - exists es. by destruct Hl; split.
Qed.

Lemma reachable_ledger s0 p : reachable code entry clock_of advance s0 p -> exists es, ledger p es.
Proof using Hcode.
  unfold reachable. intros Hr. assert (exists es, ledger (Pool s0 ∅ []) es) as H0.
  { exists []. split; simpl; [done|constructor|]. intros mu. by rewrite count_empty. }
  revert H0. induction Hr as [|p1 p2 p3 Hs _ IH]; [done|]. intros [es H1].
  apply IH. by eapply pstep_ledger.
Qed.

(** ** No circular wait *)
Context (top : nat) (Hrank : forall mu, (rank mu <= top)%nat).

Definition waits_for (mu : M) (t : thread S E L M) : Prop := exists k, t = Running (Lock mu k).

(** A goroutine that waits for a held mutex. *)
Definition blocked (held : gset M) (t : thread S E L M) : Prop :=
  exists mu, mu ∈ held /\ waits_for mu t.

Lemma blocked_dec held t : blocked held t \/ ~ blocked held t.
Proof.
  destruct t as [[| | | |mu k| |]|]; try (right; by intros (mu' & _ & k' & [=])).
  destruct (decide (mu ∈ held)) as [Hmu|Hmu].
  { left. exists mu. split; [done|]. by exists k. }
  right. by intros (mu' & Hin & k' & [= -> ->]).
Qed.

(** A goroutine that waits for [mu] holds only smaller mutexes. *)
Lemma waits_below p es h t mu : ledger p es -> (h, t) ∈ es -> waits_for mu t -> below h mu.
Proof.
  intros Hl Hin [k ->]. pose proof (le_ordered _ _ Hl) as Ho. rewrite Forall_forall in Ho.
  by destruct (Ho _ Hin).
Qed.

Lemma chain_ends p es n : ledger p es -> forall mu, (top - rank mu < n)%nat -> mu ∈ p_held p ->
  exists h t, (h, t) ∈ es /\ h <> ∅ /\ ~ blocked (p_held p) t.
Proof using Hrank.
  intros Hl. induction n as [|n IH]; intros mu Hn Hmu; [lia|].
  destruct (ledger_holder _ _ _ Hl Hmu) as (h & t & Hin & Hh).
  destruct (blocked_dec (p_held p) t) as [(mu' & Hmu' & Hw)|Hb].
  - apply (IH mu'); [|done]. pose proof (waits_below _ _ _ _ _ Hl Hin Hw mu Hh).
    pose proof (Hrank mu'). lia.
  - exists h, t. split; [done|]. split; [|done]. intros ->. by apply not_elem_of_empty in Hh.
Qed.

(** When a goroutine waits for a held mutex, a goroutine that holds one does
    not. *)
Theorem no_circular_wait s0 p t :
  reachable code entry clock_of advance s0 p -> t ∈ p_threads p -> blocked (p_held p) t ->
  exists es h t', ledger p es /\ (h, t') ∈ es /\ h <> ∅ /\ ~ blocked (p_held p) t'.
Proof using Hcode Hrank.
  intros Hr Ht (mu & Hmu & _). destruct (reachable_ledger _ _ Hr) as [es Hl].
  destruct (chain_ends p es (Datatypes.S top) Hl mu ltac:(lia) Hmu) as (h & t' & ?).
  by exists es, h, t'.
Qed.

(** ** Every wait for a mutex can be served *)
Context (ans : forall X, E X -> X) (Htimer : forall d, held_wait d -> is_Some d).
Context (Hclock : forall d s, clock_of (advance d s) = clock_of s + d).

(** Steps without a new entry from the outside. *)
Definition progress : relation (pool S E L M _ _) := pstep code (fun _ => False) clock_of advance.

(** The goroutines that hold only mutexes of rank below [r] are left alone. *)
Definition keeps (r : nat) (es es' : list (gset M * thread S E L M)) : Prop :=
  forall h t, (forall m, m ∈ h -> (rank m < r)%nat) -> (h, t) ∈ es -> (h, t) ∈ es'.

Lemma keeps_trans r es1 es2 es3 : keeps r es1 es2 -> keeps r es2 es3 -> keeps r es1 es3.
Proof. intros H1 H2 h t Hc Hin. by apply H2, H1. Qed.

Lemma keeps_weaken r r' es es' : (r <= r')%nat -> keeps r' es es' -> keeps r es es'.
Proof. intros Hr Hk h t Hc Hin. apply Hk; [|done]. intros m Hm. specialize (Hc m Hm). lia. Qed.

(** One node of a goroutine that holds [mu]. *)
Lemma progress_node p es h t s' held' ts' mu :
  ledger p es -> (h, t) ∈ es -> mu ∈ h ->
  node code clock_of (p_state p) (p_held p) t s' held' ts' ->
  exists p' es', progress p p' /\ p_state p' = s' /\ p_held p' = held' /\ ledger p' es' /\
    keeps (rank mu) es es' /\ next_entries h t ts' ⊆ es'.
Proof using Hcode.
  intros Hl (l & r & ->)%list_elem_of_split Hmu Hn. destruct p as [s held ts]. simpl in Hn.
  pose proof (le_threads _ _ Hl) as Hts. simpl in Hts. subst ts.
  exists (Pool s' held' (l.*2 ++ ts' ++ r.*2)%list), (l ++ next_entries h t ts' ++ r)%list.
  split; [rewrite fmap_app; by apply s_node|]. split; [done|]. split; [done|].
  split; [by eapply node_step_ledger|].
  split; [|intros e He; rewrite !elem_of_app; by right; left].
  intros h' t' Hc. rewrite !elem_of_app, elem_of_cons. intros [?|[[= -> ->]|?]]; [by left| |by right; right].
  specialize (Hc mu Hmu). lia.
Qed.

(** Time passes. *)
Lemma progress_tick p es d :
  0 <= d -> ledger p es ->
  exists p', progress p p' /\ p_state p' = advance d (p_state p) /\ p_held p' = p_held p /\ ledger p' es.
Proof.
  destruct p as [s held ts]. intros Hd [Ht Ho Hc].
  exists (Pool (advance d s) held ts). split; [by apply s_tick|]. by repeat split.
Qed.

(** [mu] becomes free, and what holds only smaller mutexes is left alone. *)
Definition freed (mu : M) (p : pool S E L M _ _) (es : list (gset M * thread S E L M)) : Prop :=
  exists p' es', rtc progress p p' /\ ledger p' es' /\ (mu ∉ p_held p') /\ keeps (rank mu) es es'.

Lemma freed_step mu p p' es es' :
  progress p p' -> keeps (rank mu) es es' -> freed mu p' es' -> freed mu p es.
Proof.
  intros Hs Hk (p2 & es2 & Hr & Hl & Hn & Hk2). exists p2, es2.
  split; [by eapply rtc_l|]. split; [done|]. split; [done|]. by eapply keeps_trans.
Qed.

Lemma freed_rtc mu p p' es es' :
  rtc progress p p' -> keeps (rank mu) es es' -> freed mu p' es' -> freed mu p es.
Proof.
  intros Hs Hk (p2 & es2 & Hr & Hl & Hn & Hk2). exists p2, es2.
  split; [by etrans|]. split; [done|]. split; [done|]. by eapply keeps_trans.
Qed.

(** The holder runs until it releases [mu]: by induction on its text, freeing
    first each mutex it takes on the way ([IHn]). *)
Section Drive.
Context (mu : M) (Hinner : forall mu' p es, (rank mu < rank mu')%nat -> ledger p es ->
  mu' ∈ p_held p -> freed mu' p es).

Lemma drive_node p es h t t' s' held' h' :
  ledger p es -> (h, t) ∈ es -> mu ∈ h ->
  node code clock_of (p_state p) (p_held p) t s' held' [t'] -> after h t = [h'] ->
  (forall p' es', ledger p' es' -> (h', t') ∈ es' -> freed mu p' es') -> freed mu p es.
Proof using Hcode.
  intros Hl Hin Hmu Hn Ha Hgo.
  destruct (progress_node _ _ _ _ _ _ _ _ Hl Hin Hmu Hn) as (p' & es' & Hp & _ & _ & Hl' & Hk & Hin').
  apply (freed_step _ _ _ _ _ Hp Hk). apply Hgo; [done|]. apply Hin'.
  unfold next_entries. rewrite Ha. apply list_elem_of_here.
Qed.

Lemma drive_sleeping p es h d c k :
  ledger p es -> (h, Sleeping (Some d) c k) ∈ es -> mu ∈ h ->
  (forall b p' es', ledger p' es' -> (h, Running (k b)) ∈ es' -> freed mu p' es') -> freed mu p es.
Proof using Hcode Hclock.
  intros Hl Hin Hmu Hgo.
  destruct (progress_tick p es (Z.max 0 (d - clock_of (p_state p))) ltac:(lia) Hl)
    as (p1 & Hp1 & Hs1 & _ & Hl1).
  apply (freed_step _ _ _ _ _ Hp1 (fun h t _ Hin => Hin)).
  eapply (drive_node p1 es h _ (Running (k false)) _ _ h); [done|done|done| |done|apply Hgo].
  apply n_timer. rewrite Hs1, Hclock. lia.
Qed.

Lemma drive (q : prog S E L M (option L)) : forall p es h,
  ledger p es -> (h, Running q) ∈ es -> mu ∈ h -> freed mu p es.
Proof using ans Hcode Hclock Htimer Hinner Hrank.
  induction q as [o|X f k IH|X e k IH|d c k IH|mu' k IH|mu' k IH|l k IH]; intros p es h Hl Hin Hmu;
    pose proof (le_ordered _ _ Hl) as Ho; rewrite Forall_forall in Ho; specialize (Ho _ Hin);
    unfold entry_ok in Ho; simpl in Ho.
  - unfold ends in Ho. subst h. by apply not_elem_of_empty in Hmu.
  - eapply drive_node; [done|done|done|constructor|done|]. intros. by eapply IH.
  - eapply drive_node; [done|done|done|by apply (n_call code clock_of _ _ _ _ _ (ans X e))|done|].
    intros. by eapply IH.
  - eapply drive_node; [done|done|done|constructor|done|]. intros p' es' Hl' Hin'.
    destruct Ho as [[->|Hd] _]; [by apply not_elem_of_empty in Hmu|].
    destruct (Htimer d Hd) as [d' ->]. eapply drive_sleeping; [done|done|done|]. intros. by eapply IH.
  - destruct Ho as [Hb Ho].
    assert (forall p1 es1, ledger p1 es1 -> (h, Running (Lock mu' k)) ∈ es1 -> mu' ∉ p_held p1 ->
      freed mu p1 es1) as Hfree.
    { intros p1 es1 Hl1 Hin1 Hn1.
      eapply drive_node; [done|done|done|by constructor|done|]. intros p' es' Hl' Hin'.
      eapply IH; [done|done|]. set_solver. }
    destruct (decide (mu' ∈ p_held p)) as [Hh|Hh]; [|by apply Hfree].
    destruct (Hinner mu' p es (Hb mu Hmu) Hl Hh) as (p1 & es1 & Hr & Hl1 & Hn1 & Hk1).
    eapply freed_rtc; [exact Hr|eapply keeps_weaken; [|exact Hk1]; specialize (Hb mu Hmu); lia|].
    apply Hfree; [done| |done]. by apply Hk1.
  - destruct Ho as [Hb Ho]. destruct (decide (mu' = mu)) as [->|Hne].
    + destruct (progress_node _ _ _ _ _ _ _ _ Hl Hin Hmu (n_unlock code clock_of _ _ mu k))
        as (p' & es' & Hp & _ & Hheld & Hl' & Hk & _).
      exists p', es'. split; [by apply rtc_once|]. split; [done|]. split; [|done]. set_solver.
    + eapply drive_node; [done|done|done|constructor|done|]. intros p' es' Hl' Hin'.
      eapply IH; [done|done|]. set_solver.
  - destruct (progress_node _ _ _ _ _ _ _ _ Hl Hin Hmu (n_spawn code clock_of _ _ l k))
      as (p' & es' & Hp & _ & _ & Hl' & Hk & Hin').
    apply (freed_step _ _ _ _ _ Hp Hk). eapply IH; [done| |done]. apply Hin', list_elem_of_here.
Qed.
End Drive.

Lemma all_freed n : forall mu p es, (top - rank mu < n)%nat -> ledger p es -> mu ∈ p_held p -> freed mu p es.
Proof using ans Hcode Hclock Htimer Hrank.
  induction n as [|n IH]; intros mu p es Hn Hl Hmu; [lia|].
  destruct (ledger_holder _ _ _ Hl Hmu) as (h & t & Hin & Hh).
  assert (forall q p es, ledger p es -> (h, Running q) ∈ es -> freed mu p es) as Hrun.
  { intros q p' es' Hl' Hin'. apply (drive mu) with q h; [|done|done|done].
    intros mu' p1 es1 Hr Hl1 Hm1. apply IH; [|done|done]. pose proof (Hrank mu'). lia. }
  destruct t as [q|u c k]; [by eapply Hrun|].
  pose proof (le_ordered _ _ Hl) as Ho. rewrite Forall_forall in Ho.
  destruct (Ho _ Hin) as [[Hh0|(d & Hd & Hu)] _]; [simpl in Hh0; subst h; by apply not_elem_of_empty in Hh|].
  destruct (Hu (Htimer d Hd)) as [u' ->].
  eapply (drive_sleeping mu); [done|done|done|]. intros. by eapply Hrun.
Qed.

(** Whoever waits for a mutex can get it, without a new entry from the outside. *)
Theorem lock_served s0 p mu k :
  reachable code entry clock_of advance s0 p -> Running (Lock mu k) ∈ p_threads p ->
  exists p', rtc progress p p' /\ mu ∈ p_held p' /\ Running k ∈ p_threads p'.
Proof using ans Hcode Hclock Htimer Hrank.
  intros Hr Hin. destruct (reachable_ledger _ _ Hr) as [es Hl].
  assert (exists h, (h, Running (Lock mu k)) ∈ es) as [h Hh].
  { rewrite (le_threads _ _ Hl) in Hin. apply list_elem_of_fmap in Hin as ([h t] & -> & Hin). by exists h. }
  assert (exists p' es', rtc progress p p' /\ ledger p' es' /\ (mu ∉ p_held p') /\
    (h, Running (Lock mu k)) ∈ es') as (p1 & es1 & Hp1 & Hl1 & Hn1 & Hin1).
  { destruct (decide (mu ∈ p_held p)) as [Hmu|Hmu]; [|by exists p, es].
    destruct (all_freed (Datatypes.S top) mu p es ltac:(lia) Hl Hmu) as (p1 & es1 & ? & ? & ? & Hk).
    exists p1, es1. split; [done|]. split; [done|]. split; [done|]. apply Hk; [|done].
    apply (waits_below _ _ _ _ _ Hl Hh). by exists k. }
  apply list_elem_of_split in Hin1 as (l & r & ->). destruct p1 as [s held ts].
  pose proof (le_threads _ _ Hl1) as Hts. simpl in Hts, Hn1. subst ts.
  exists (Pool s ({[mu]} ∪ held) (l.*2 ++ [Running k] ++ r.*2)%list). split.
  - eapply rtc_r; [exact Hp1|]. rewrite fmap_app. apply s_node. by constructor.
  - simpl. set_solver.
Qed.
End Pool.
End LockOrder.

(** More calls may be permitted. *)
Lemma ordered_under {S L M A : Type} {E : Type -> Type} `{EqDecision M, Countable M} rank held_wait
    (u1 u2 : forall X, gset M -> E X -> Prop) (Q : gset M -> A -> Prop) hs (p : prog S E L M A) :
  (forall X hs e, u1 X hs e -> u2 X hs e) ->
  ordered rank held_wait u1 Q hs p -> ordered rank held_wait u2 Q hs p.
Proof. intros Hu. revert hs. induction p; intros hs; simpl; naive_solver. Qed.

(** ** Walks over a method's text *)
Section Below.
Context {M : Type} `{EqDecision M, Countable M} (rank : M -> nat).

Lemma below_empty mu : below rank ∅ mu.
Proof. intros m Hm. by apply not_elem_of_empty in Hm. Qed.

Lemma below_add m hs mu : (rank m < rank mu)%nat -> below rank hs mu -> below rank ({[m]} ∪ hs) mu.
Proof. intros Hm Hb m' [->%elem_of_singleton|Hm']%elem_of_union; [done|by apply Hb]. Qed.
End Below.

Section Embed.
Context {S L M S2 : Type} {E F : Type -> Type} `{EqDecision M, Countable M}.
Context (rank : M -> nat) (held_wait : option Duration -> Prop).
Context (under : forall X, gset M -> E X -> Prop).

(** An embedded component takes no mutex of its own. *)
Lemma balanced_embed {A} hs (handle : forall X, F X -> prog S E L M X)
    (p : prog S2 F Empty_set Empty_set A) s2 :
  (forall X (e : F X), balanced rank held_wait under hs (handle X e)) ->
  (forall d, hs = ∅ \/ held_wait d) -> balanced rank held_wait under hs (embed handle p s2).
Proof.
  intros Hh Hw. revert s2. induction p as [a|X f k IH|X e k IH|d c k IH|[]|[]|[]]; intros s2; cbn [embed].
  - done.
  - destruct (f s2). apply IH.
  - apply balanced_seq; [apply Hh|]. intros x. apply IH.
  - split; [apply Hw|]. intros b. apply IH.
Qed.
End Embed.

Create HintDb order.
Ltac below_solve :=
  first [assumption | apply below_empty | apply below_add; [cbv; lia|below_solve]].
Ltac order_walk :=
  repeat match goal with
  | |- balanced _ _ _ _ (match ?x with _ => _ end) => destruct x
  | |- balanced _ _ _ _ (let _ := _ in _) => cbv zeta
  | |- balanced _ _ _ _ (bind (lock _) _) => apply balanced_lock; [below_solve|]
  | |- balanced _ _ _ _ (bind _ _) => apply balanced_seq; [|intros]
  | |- balanced _ _ _ _ (read _) => apply balanced_read
  | |- balanced _ _ _ _ (call _) => apply balanced_call; try exact I
  | |- balanced _ _ _ _ (wait _ _) =>
      apply balanced_wait; try solve [left; reflexivity | right; by eexists]
  | |- balanced _ _ _ _ (spawn _) => apply balanced_spawn
  | |- balanced _ _ _ _ (modify _) => apply balanced_modify
  | |- balanced _ _ _ _ (atomic _) => apply balanced_atomic
  | |- balanced _ _ _ _ (Ret _) => apply balanced_ret
  | |- closes _ _ _ _ _ (match ?x with _ => _ end) => destruct x
  | |- closes _ _ _ _ _ (let _ := _ in _) => cbv zeta
  | |- closes _ _ _ _ _ (bind (unlock _) _) => apply closes_unlock_seq; [below_solve|]
  | |- closes _ _ _ _ _ (bind (lock _) _) => apply closes_region; [below_solve| |intros]
  | |- closes _ _ _ _ _ (bind _ _) => apply closes_seq; [|intros]
  | |- closes _ _ _ _ _ (unlock _) => apply closes_unlock; below_solve
  | |- balanced _ _ _ _ _ => solve [eauto with order nocore]
  end.
