(* ===== verification/Compose.v ===== *)
(** * Compose: components that call each other

    [inline] runs a component's text as part of a larger system: its sections
    act on its share of the system's state ([get], [put]), its calls become the
    texts [handle] of the components it calls, its mutexes and goroutines are
    renamed.  A proof about the component's own text ([safe], [ordered]) carries
    over, given what the handlers satisfy. *)

From S2P Require Import Prelude Conc LockOrder.

Section Inline.
Context {S S' L L' M M' : Type} {E E' : Type -> Type}.
Context (get : S' -> S) (put : S -> S' -> S') (fl : L -> L') (fm : M -> M').
Context (handle : forall X, E X -> prog S' E' L' M' X).

Fixpoint inline {A} (p : prog S E L M A) : prog S' E' L' M' A :=
  match p with
  | Ret a => Ret a
  | Atomic f k =>
      Atomic (fun s => ((f (get s)).1, put (f (get s)).2 s)) (fun x => inline (k x))
  | Call e k => bind (handle _ e) (fun x => inline (k x))
  | Wait d c k => Wait d (fun s => c (get s)) (fun b => inline (k b))
  | Lock mu k => Lock (fm mu) (inline k)
  | Unlock mu k => Unlock (fm mu) (inline k)
  | Spawn l k => Spawn (fl l) (inline k)
  end.

(** *** Invariants *)
Section Safe.
Context (I : S -> Prop) (G : forall X, E X -> Prop) (Lok : L -> Prop).
Context (I' : S' -> Prop) (G' : forall X, E' X -> Prop) (Lok' : L' -> Prop).
Context (Hget : forall s', I' s' -> I (get s')) (Hput : forall s s', I s -> I' s' -> I' (put s s')).
Context (Hhandle : forall X (e : E X), G X e -> safe I' G' Lok' (fun _ => True) (handle X e)).
Context (Hl : forall l, Lok l -> Lok' (fl l)).

Lemma safe_inline {A} (Q : A -> Prop) (p : prog S E L M A) :
  safe I G Lok Q p -> safe I' G' Lok' Q (inline p).
Proof using Hget Hput Hhandle Hl.
  induction p as [a|X f k IH|X e k IH|d c k IH|mu k IH|mu k IH|l k IH]; cbn [inline safe].
  - done.
  - intros Hp s Hs. destruct (Hp _ (Hget _ Hs)) as [Hs1 Hk]. split; [by apply Hput|]. by apply IH.
  - intros [He Hk]. eapply safe_bind; [by apply Hhandle|]. intros x _. by apply IH.
  - intros Hk b. by apply IH.
  - apply IH.
  - apply IH.
  - intros [Hlk Hk]. split; [by apply Hl|by apply IH].
Qed.
End Safe.

(** *** Lock order *)
Section Order.
Context `{EqDecision M, Countable M} `{EqDecision M', Countable M'}.
Context (rank : M -> nat) (held_wait : option Duration -> Prop) (under : forall X, gset M -> E X -> Prop).
Context (rank' : M' -> nat) (held_wait' : option Duration -> Prop).
Context (under' : forall X, gset M' -> E' X -> Prop).

(** [outer] is what the callers of this text hold. *)
Context (outer : gset M') (Hfm : forall m m', fm m = fm m' -> m = m').
Context (Houter : forall m, below rank' outer (fm m)).
Context (Hrank : forall m m', (rank m < rank m')%nat -> (rank' (fm m) < rank' (fm m'))%nat).
Context (Hwait : forall d, held_wait d -> held_wait' d).
Context (Hidle : outer = ∅ \/ forall d, held_wait' d).
Context (Hhandle : forall X (e : E X) hs, under X hs e ->
  balanced rank' held_wait' under' (outer ∪ set_map fm hs) (handle X e)).

Lemma inline_fresh (hs : gset M) mu : mu ∉ hs -> fm mu ∉ outer ∪ set_map fm hs.
Proof using Hfm Houter.
  intros Hn [Ho|(m & Hm & Hin)%elem_of_map]%elem_of_union.
  - specialize (Houter mu _ Ho). lia.
  - apply Hfm in Hm. by subst.
Qed.

Lemma set_map_add (hs : gset M) mu : outer ∪ set_map fm ({[mu]} ∪ hs) = {[fm mu]} ∪ (outer ∪ set_map fm hs).
Proof. clear. set_solver. Qed.

Lemma set_map_drop (hs : gset M) mu :
  outer ∪ set_map fm (hs ∖ {[mu]}) = (outer ∪ set_map fm hs) ∖ {[fm mu]}.
Proof using Hfm Houter.
  assert (fm mu ∉ outer) as Hn by (intros Ho; specialize (Houter mu _ Ho); lia).
  apply set_eq. intros m. rewrite elem_of_difference, !elem_of_union, !elem_of_map, elem_of_singleton.
  split.
  - intros [Ho|(m' & -> & Hd)]; [split; [by left|]; by intros ->|].
    apply elem_of_difference in Hd as [Hm' Hne]. split; [right; by exists m'|].
    intros ->%Hfm. by apply Hne, elem_of_singleton.
  - intros [[Ho|(m' & -> & Hm')] Hne]; [by left|]. right. exists m'. split; [done|].
    apply elem_of_difference. split; [done|]. by intros ->%elem_of_singleton.
Qed.

Lemma ordered_inline {A} (Q : gset M -> A -> Prop) (Q' : gset M' -> A -> Prop) hs (p : prog S E L M A) :
  (forall hs a, Q hs a -> Q' (outer ∪ set_map fm hs) a) ->
  ordered rank held_wait under Q hs p ->
  ordered rank' held_wait' under' Q' (outer ∪ set_map fm hs) (inline p).
Proof using Hfm Houter Hrank Hwait Hidle Hhandle.
  intros HQ. revert hs.
  induction p as [a|X f k IH|X e k IH|d c k IH|mu k IH|mu k IH|l k IH]; intros hs; cbn [inline ordered].
  - apply HQ.
  - intros Hp s. apply IH, Hp.
  - intros [He Hk]. eapply ordered_seq; [by apply Hhandle|]. intros x. apply IH, Hk.
  - intros [Hd Hk]. split; [|intros b; apply IH, Hk].
    destruct Hd as [->|Hd]; [|right; by apply Hwait].
    destruct Hidle as [->|Hany]; [|by right].
    left. rewrite set_map_empty. apply (left_id_L ∅ _).
  - intros [Hb Hk]. split.
    + intros m [Ho|(m' & -> & Hin)%elem_of_map]%elem_of_union; [by apply Houter|]. apply Hrank, Hb, Hin.
    + rewrite <- set_map_add. apply IH, Hk.
  - intros [Hin Hk]. split; [apply elem_of_union_r, elem_of_map; by exists mu|].
    rewrite <- set_map_drop. apply IH, Hk.
  - apply IH.
Qed.
End Order.
End Inline.
