(* ===== verification/Rely.v ===== *)
(** * Rely: what each goroutine knows, and which goroutines may know it at once

    [Gate] is about one mutex and the state behind it.  Here a goroutine carries
    a piece of knowledge [K] about the shared state: that it holds the gate, that
    it is the only goroutine of its kind, what it checked while it held the gate.
    Two pieces may exclude each other ([compat]), and a section of one goroutine
    must keep true what every other goroutine may know.  [rely_invariant] gives
    every goroutine of every reachable pool a piece that is true of the current
    state. *)

From S2P Require Import Prelude Conc LockOrder Compose.

Section Rely.
Context {S : Type} {E : Type -> Type} {L M K : Type}.
Context `{EqDecision M, Countable M}.
Context (I : S -> Prop) (holds : K -> S -> Prop) (compat : K -> K -> Prop).
(** The mutex, who holds it, and how it is taken and released. *)
Context (gate : M) (gated : K -> bool) (take release : K -> K).
(** [k0] is what every goroutine may know; [Lok]: what a goroutine starts with. *)
Context (k0 : K) (G : forall X, K -> E X -> Prop) (Lok : K -> L -> Prop).

(** A section from [s] to [s'] by a goroutine that knew [k] and now knows [k']. *)
Definition turns (k : K) (s : S) (k' : K) (s' : S) : Prop :=
  I s' /\ holds k' s' /\ gated k' = gated k /\
  forall k2, compat k k2 -> holds k2 s -> compat k' k2 /\ holds k2 s'.

(** A goroutine that knows [k] starts one that knows [k1] and goes on with [k']. *)
Definition splits (k k' k1 : K) : Prop :=
  gated k' = gated k /\ gated k1 = false /\ compat k' k1 /\
  (forall s, holds k s -> holds k' s /\ holds k1 s) /\
  forall k2, compat k k2 -> compat k' k2 /\ compat k1 k2.

Fixpoint rsafe {A} (Q : K -> A -> Prop) (k : K) (p : prog S E L M A) : Prop :=
  match p with
  | Ret a => Q k a
  | Atomic f c =>
      forall s, I s -> holds k s -> exists k', turns k s k' (f s).2 /\ rsafe Q k' (c (f s).1)
  | Call e c => G _ k e /\ forall x, rsafe Q k (c x)
  | Wait _ _ c => forall b, rsafe Q k (c b)
  | Lock mu c =>
      if decide (mu = gate) then gated k = false /\ rsafe Q (take k) c else rsafe Q k c
  | Unlock mu c =>
      if decide (mu = gate) then gated k = true /\ rsafe Q (release k) c else rsafe Q k c
  | Spawn l c => exists k' k1, splits k k' k1 /\ Lok k1 l /\ rsafe Q k' c
  end.

Lemma rsafe_mono {A} (P Q : K -> A -> Prop) k p :
  (forall k a, P k a -> Q k a) -> rsafe P k p -> rsafe Q k p.
Proof.
  intros HPQ. revert k.
  induction p as [a|X f c IH|X e c IH|d w c IH|mu c IH|mu c IH|l c IH]; intros k; cbn [rsafe].
  - apply HPQ.
  - intros Hp s Hs Hk. destruct (Hp s Hs Hk) as (k' & Ht & Hc). exists k'. split; [done|]. by apply IH.
  - intros [He Hc]. split; [done|]. intros x. apply IH, Hc.
  - intros Hc b. apply IH, Hc.
  - case_decide; [|apply IH]. intros [Hg Hc]. split; [done|]. by apply IH.
  - case_decide; [|apply IH]. intros [Hg Hc]. split; [done|]. by apply IH.
  - intros (k' & k1 & Hs & Hl & Hc). exists k', k1. split; [done|]. split; [done|]. by apply IH.
Qed.

Lemma rsafe_bind {A B} (Q : K -> B -> Prop) k p (g : A -> prog S E L M B) :
  rsafe (fun k a => rsafe Q k (g a)) k p -> rsafe Q k (bind p g).
Proof.
  revert k.
  induction p as [a|X f c IH|X e c IH|d w c IH|mu c IH|mu c IH|l c IH]; intros k; cbn [rsafe bind].
  - done.
  - intros Hp s Hs Hk. destruct (Hp s Hs Hk) as (k' & Ht & Hc). exists k'. split; [done|]. by apply IH.
  - intros [He Hc]. split; [done|]. intros x. apply IH, Hc.
  - intros Hc b. apply IH, Hc.
  - case_decide; [|apply IH]. intros [Hg Hc]. split; [done|]. by apply IH.
  - case_decide; [|apply IH]. intros [Hg Hc]. split; [done|]. by apply IH.
  - intros (k' & k1 & Hs & Hl & Hc). exists k', k1. split; [done|]. split; [done|]. by apply IH.
Qed.

Lemma rsafe_seq {A B} (P : K -> A -> Prop) (Q : K -> B -> Prop) k p (g : A -> prog S E L M B) :
  rsafe P k p -> (forall k a, P k a -> rsafe Q k (g a)) -> rsafe Q k (bind p g).
Proof. intros Hp Hg. apply rsafe_bind. by eapply rsafe_mono, Hp. Qed.

(** *** Text that leaves what is known alone *)

(** A section that no piece of knowledge notices. *)
Definition unseen (s s' : S) : Prop := I s -> I s' /\ forall k, holds k s -> holds k s'.

Lemma unseen_turns k s s' : unseen s s' -> I s -> holds k s -> turns k s k s'.
Proof.
  intros Hu Hs Hk. destruct (Hu Hs) as [Hs' Hall]. split; [done|]. split; [by apply Hall|].
  split; [done|]. intros k2 Hc H2. split; [done|]. by apply Hall.
Qed.

Definition keeps {A} (k : K) (p : prog S E L M A) : Prop := rsafe (fun k' _ => k' = k) k p.

Lemma keeps_seq {A B} (Q : K -> B -> Prop) k (p : prog S E L M A) (g : A -> prog S E L M B) :
  keeps k p -> (forall a, rsafe Q k (g a)) -> rsafe Q k (bind p g).
Proof. intros Hp Hg. eapply rsafe_seq; [exact Hp|]. by intros k' a ->. Qed.

Lemma keeps_ret {A} k (a : A) : keeps k (Ret a).
Proof. done. Qed.

Lemma keeps_call {X} k (e : E X) : G _ k e -> keeps k (call e).
Proof. by split. Qed.

Lemma keeps_wait k d c : keeps k (wait d c).
Proof. done. Qed.

Lemma keeps_atomic {X} k (f : S -> X * S) : (forall s, unseen s (f s).2) -> keeps k (atomic f).
Proof. intros Hf s Hs Hk. exists k. split; [by apply unseen_turns|done]. Qed.

Lemma keeps_modify k (f : S -> S) : (forall s, unseen s (f s)) -> keeps k (modify f).
Proof. intros Hf s Hs Hk. exists k. split; [by apply unseen_turns|done]. Qed.

Lemma rsafe_read {X A} (Q : K -> A -> Prop) k (f : S -> X) (g : X -> prog S E L M A) :
  (forall s, I s -> holds k s -> rsafe Q k (g (f s))) -> rsafe Q k (bind (read f) g).
Proof. intros Hg s Hs Hk. exists k. split; [by apply unseen_turns|by apply Hg]. Qed.

Lemma rsafe_modify {A} (Q : K -> A -> Prop) k k' (f : S -> S) (g : unit -> prog S E L M A) :
  (forall s, I s -> holds k s -> turns k s k' (f s)) -> rsafe Q k' (g tt) -> rsafe Q k (bind (modify f) g).
Proof. intros Hf Hg s Hs Hk. exists k'. split; [by apply Hf|done]. Qed.

Lemma keeps_other_lock {A} k mu (p : prog S E L M A) : mu <> gate -> keeps k p -> keeps k (Lock mu p).
Proof. intros Hmu Hp. unfold keeps. cbn [rsafe]. by rewrite decide_False. Qed.

Lemma keeps_other_unlock {A} k mu (p : prog S E L M A) : mu <> gate -> keeps k p -> keeps k (Unlock mu p).
Proof. intros Hmu Hp. unfold keeps. cbn [rsafe]. by rewrite decide_False. Qed.

Lemma keeps_spawn k l : splits k k k0 -> Lok k0 l -> keeps k (spawn l).
Proof. intros Hs Hl. exists k, k0. by split. Qed.

(** A component's text in parts. *)
Lemma rsafe_inline_bind {S1 L1 M1 : Type} {E1 : Type -> Type} {A B} (get : S -> S1) (put : S1 -> S -> S)
    (fl : L1 -> L) (fm : M1 -> M) (handle : forall X, E1 X -> prog S E L M X) (Q : K -> B -> Prop) k
    (p : prog S1 E1 L1 M1 A) (g : A -> prog S1 E1 L1 M1 B) :
  rsafe (fun k a => rsafe Q k (inline get put fl fm handle (g a))) k (inline get put fl fm handle p) ->
  rsafe Q k (inline get put fl fm handle (bind p g)).
Proof.
  revert k.
  induction p as [a|X f c IH|X e c IH|d w c IH|mu c IH|mu c IH|l c IH]; intros k; cbn [inline bind rsafe].
  - done.
  - intros Hp s Hs Hk. destruct (Hp s Hs Hk) as (k' & Ht & Hc). exists k'. split; [done|]. by apply IH.
  - revert k. induction (handle X e) as [x|Y f c' IH'|Y e' c' IH'|d w c' IH'|mu c' IH'|mu c' IH'|l c' IH'];
      intros k; cbn [bind rsafe].
    + apply IH.
    + intros Hp s Hs Hk. destruct (Hp s Hs Hk) as (k' & Ht & Hc). exists k'. split; [done|]. by apply IH'.
    + intros [He Hc]. split; [done|]. intros x. apply IH', Hc.
    + intros Hc b. apply IH', Hc.
    + case_decide; [|apply IH']. intros [Hg Hc]. split; [done|]. by apply IH'.
    + case_decide; [|apply IH']. intros [Hg Hc]. split; [done|]. by apply IH'.
    + intros (k' & k1 & Hs & Hl & Hc). exists k', k1. split; [done|]. split; [done|]. by apply IH'.
  - intros Hc b. apply IH, Hc.
  - case_decide; [|apply IH]. intros [Hg Hc]. split; [done|]. by apply IH.
  - case_decide; [|apply IH]. intros [Hg Hc]. split; [done|]. by apply IH.
  - intros (k' & k1 & Hs & Hl & Hc). exists k', k1. split; [done|]. split; [done|]. by apply IH.
Qed.

(** What every goroutine may know excludes nothing. *)
Context (Hk0 : forall k, splits k k k0).

(** A component whose sections are not noticed, as part of a larger system. *)
Section Inline.
Context {S1 L1 M1 : Type} {E1 : Type -> Type}.
Context (R1 : S1 -> S1 -> Prop) (G1 : forall X, E1 X -> Prop) (Mok1 : M1 -> Prop) (Lok1 : L1 -> Prop).
Context (get : S -> S1) (put : S1 -> S -> S) (fl : L1 -> L) (fm : M1 -> M).
Context (handle : forall X, E1 X -> prog S E L M X) (k : K).
Context (Hput : forall s s1, R1 (get s) s1 -> I s -> holds k s -> turns k s k (put s1 s)).
Context (Hhandle : forall X (e : E1 X), G1 X e -> keeps k (handle X e)).
Context (Hfm : forall mu, Mok1 mu -> fm mu <> gate) (Hfl : forall l, Lok1 l -> Lok k0 (fl l)).

Lemma rsafe_inline {A} (Q : A -> Prop) (p : prog S1 E1 L1 M1 A) :
  moves R1 G1 Mok1 Lok1 Q p -> rsafe (fun k' a => k' = k /\ Q a) k (inline get put fl fm handle p).
Proof using Hk0 Hput Hhandle Hfm Hfl.
  induction p as [a|X f c IH|X e c IH|d w c IH|mu c IH|mu c IH|l c IH]; cbn [moves inline rsafe].
  - done.
  - intros Hp s Hs Hk. exists k. destruct (Hp (get s)) as [Hr Hc].
    split; [by apply Hput|by apply IH].
  - intros [He Hc]. eapply keeps_seq; [by apply Hhandle|]. intros x. apply IH, Hc.
  - intros Hc b. apply IH, Hc.
  - intros [Hmu Hc]. rewrite decide_False by by apply Hfm. apply IH, Hc.
  - intros [Hmu Hc]. rewrite decide_False by by apply Hfm. apply IH, Hc.
  - intros [Hl Hc]. exists k, k0. split; [apply Hk0|]. split; [by apply Hfl|]. by apply IH.
Qed.
End Inline.

(** ** Pools *)
Section Pool.
Context (code : L -> prog S E L M (option L)) (clock_of : S -> Time).
Context (entry : L -> Prop) (advance : Duration -> S -> S).

(** A goroutine ends without the gate, or goes on with what it knows. *)
Definition goes_on (k : K) (next : option L) : Prop := gated k = false /\ from_option (Lok k) True next.

Context (Hcode : forall k l, gated k = false -> Lok k l -> rsafe goes_on k (code l)).
Context (Hentry : forall l, entry l -> Lok k0 l) (Hk0' : gated k0 = false).
Context (Htick : forall d s, 0 <= d -> unseen s (advance d s)).
Context (Hsym : forall k k', compat k k' -> compat k' k).
Context (Hhold0 : forall s, holds k0 s).
(** Two goroutines do not both hold the gate; taking it says nothing new about
    those that do not hold it, nor does releasing it. *)
Context (Hexcl : forall k k', compat k k' -> gated k = true -> gated k' = false).
Context (Htake : forall k s, holds k s -> holds (take k) s) (Hgt : forall k, gated (take k) = true).
Context (Htake2 : forall k k', compat k k' -> gated k' = false -> compat (take k) k').
Context (Hrel : forall k s, holds k s -> holds (release k) s) (Hgr : forall k, gated (release k) = false).
Context (Hrel2 : forall k k', compat k k' -> compat (release k) k').

Definition thread_knows (k : K) (t : thread S E L M) : Prop :=
  match t with
  | Running p => rsafe goes_on k p
  | Sleeping _ _ c => forall b, rsafe goes_on k (c b)
  end.

(** The pieces of a pool do not exclude each other. *)
Fixpoint apart (ks : list K) : Prop :=
  match ks with [] => True | k :: ks => Forall (compat k) ks /\ apart ks end.

Lemma apart_app l r : apart (l ++ r) <-> apart l /\ apart r /\ Forall (fun k => Forall (compat k) r) l.
Proof.
  induction l as [|k l IH]; simpl; [split; [by repeat split|by intros (_ & ? & _)]|].
  rewrite Forall_app, Forall_cons, IH. tauto.
Qed.

Lemma apart_middle l k r : apart (l ++ k :: r) <-> Forall (compat k) (l ++ r) /\ apart (l ++ r).
Proof using Hsym.
  rewrite !apart_app, Forall_app. simpl.
  assert (Forall (fun k' => Forall (compat k') (k :: r)) l <->
    Forall (compat k) l /\ Forall (fun k' => Forall (compat k') r) l) as ->.
  { rewrite <- Forall_and. apply Forall_iff. intros k'. rewrite Forall_cons.
    split; intros [? ?]; by split; [apply Hsym|]. }
  tauto.
Qed.

(** Is the gate held, and does some goroutine hold it? *)
Definition holding (ks : list K) : Prop := Exists (fun k => gated k = true) ks.

Record relied (p : pool S E L M _ _) (ks : list K) : Prop := {
  rl_state : I (p_state p);
  rl_threads : Forall2 thread_knows ks (p_threads p);
  rl_holds : Forall (fun k => holds k (p_state p)) ks;
  rl_apart : apart ks;
  rl_gate : gate ∈ p_held p <-> holding ks }.

Lemma apart_insert l ks r :
  Forall (fun k => Forall (compat k) (l ++ r)) ks -> apart ks -> apart (l ++ r) -> apart (l ++ ks ++ r).
Proof using Hsym.
  induction ks as [|k ks IH]; simpl; [done|]. rewrite Forall_cons. intros [Hk Hks] [Hk1 Hks1] Hlr.
  apply apart_middle. split; [|by apply IH].
  rewrite Forall_app in Hk. destruct Hk. by rewrite !Forall_app.
Qed.

Lemma holding_app l r : holding (l ++ r) <-> holding l \/ holding r.
Proof. apply Exists_app. Qed.

Lemma holding_cons k r : holding (k :: r) <-> gated k = true \/ holding r.
Proof. apply Exists_cons. Qed.

Lemma holding_nil : holding [] <-> False.
Proof. apply Exists_nil. Qed.

Lemma not_holding os : ~ holding os -> Forall (fun k => gated k = false) os.
Proof.
  intros Hn. apply Forall_forall. intros k Hk. destruct (gated k) eqn:Eg; [|done].
  destruct Hn. apply Exists_exists. by exists k.
Qed.

(** What one node of a goroutine that knows [k] leaves, next to goroutines that
    know [os]. *)
Record stepped (os : list K) (s' : S) (h' : gset M) (ts' : list (thread S E L M)) (ks : list K) : Prop := {
  st_state : I s';
  st_threads : Forall2 thread_knows ks ts';
  st_holds : Forall (fun k => holds k s') ks;
  st_apart : apart ks;
  st_compat : Forall (fun k => Forall (compat k) os) ks;
  st_others : Forall (fun k => holds k s') os;
  st_gate : gate ∈ h' <-> holding (ks ++ os) }.

(** A node that leaves state and knowledge alone. *)
Lemma stepped_same k os s h t :
  I s -> holds k s -> thread_knows k t -> Forall (compat k) os -> Forall (fun k => holds k s) os ->
  (gate ∈ h <-> holding (k :: os)) -> stepped os s h [t] [k].
Proof. intros. split; try done; by repeat constructor. Qed.

Lemma node_knows s h t s' h' ts' k os :
  node code clock_of s h t s' h' ts' -> I s -> holds k s -> thread_knows k t ->
  Forall (compat k) os -> Forall (fun k => holds k s) os -> (gate ∈ h <-> holding (k :: os)) ->
  exists ks, stepped os s' h' ts' ks.
Proof using Hcode Hentry Hk0' Htick Hsym Hhold0 Hexcl Htake Hgt Htake2 Hrel Hgr Hrel2 Hk0.
  intros Hn Hs Hk Ht Hc Ho Hg. destruct Hn; cbn [thread_knows rsafe] in Ht.
  - exists []. split; try done; try by constructor. destruct Ht as [Hgk _].
    rewrite Hg, holding_cons, Hgk. simpl. naive_solver.
  - exists [k]. destruct Ht as [Hgk Hl]. apply stepped_same; try done. by apply Hcode.
  - destruct (Ht s Hs Hk) as (k' & (Hs' & Hk' & Hgk & Hall) & Hc'). exists [k'].
    assert (Forall (fun k2 => compat k' k2 /\ holds k2 (f s).2) os) as [Hc2 Ho2]%Forall_and.
    { apply Forall_forall. rewrite Forall_forall in Hc, Ho. intros k2 Hin. apply Hall; [by apply Hc|by apply Ho]. }
    split; try done; try by repeat constructor.
    rewrite Hg. simpl. by rewrite !holding_cons, Hgk.
  - exists [k]. apply stepped_same; try done. apply Ht.
  - exists [k]. by apply stepped_same.
  - exists [k]. apply stepped_same; try done. apply Ht.
  - exists [k]. apply stepped_same; try done. apply Ht.
  - case_decide as Hmu.
    + subst mu. destruct Ht as [Hgk Hc']. exists [take k].
      assert (~ holding os) as Hno by (intros Hh; match goal with Hn : gate ∉ _ |- _ => apply Hn, Hg end; rewrite holding_cons; by right).
      split; [done|by repeat constructor|constructor; [by apply Htake|done]|by repeat constructor| |done|].
      * constructor; [|done]. pose proof (not_holding _ Hno) as Hf.
        rewrite Forall_forall in Hc, Hf |- *. intros k2 Hin. apply Htake2; auto.
      * simpl. rewrite holding_cons, Hgt. split; [by left|]. intros _. set_solver.
    + exists [k]. apply stepped_same; try done. rewrite <- Hg. set_solver.
  - case_decide as Hmu.
    + subst mu. destruct Ht as [Hgk Hc']. exists [release k].
      split; [done|by repeat constructor|constructor; [by apply Hrel|done]|by repeat constructor| |done|].
      * constructor; [|done]. eapply Forall_impl; [exact Hc|]. intros k2. apply Hrel2.
      * simpl. rewrite holding_cons, Hgr. split; [set_solver|]. intros [|Hh]; [done|].
        apply Exists_exists in Hh as (k2 & Hin & Hg2). rewrite Forall_forall in Hc.
        by rewrite (Hexcl _ _ (Hc _ Hin) Hgk) in Hg2.
    + exists [k]. apply stepped_same; try done. rewrite <- Hg. set_solver.
  - destruct Ht as (k' & kl & (Hgk & Hg1 & Hcc & Hh & Hall) & Hl & Hc'). exists [k'; kl].
    destruct (Hh s Hk) as [Hk' Hkl].
    assert (Forall (fun k2 => compat k' k2 /\ compat kl k2) os) as [Hc2 Hc3]%Forall_and
      by (eapply Forall_impl; [exact Hc|]; intros k2; apply Hall).
    split; try done.
    + constructor; [done|]. constructor; [by apply Hcode|constructor].
    + by repeat constructor.
    + simpl. by repeat constructor.
    + by repeat constructor.
    + rewrite Hg. simpl. rewrite !holding_cons, Hgk, Hg1. naive_solver.
Qed.

Lemma pstep_relied p p' ks :
  pstep code entry clock_of advance p p' -> relied p ks -> exists ks', relied p' ks'.
Proof using Hcode Hentry Hk0' Htick Hsym Hhold0 Hexcl Htake Hgt Htake2 Hrel Hgr Hrel2 Hk0.
  intros Hstep [HI Hts Hks Hap Hg].
  destruct Hstep as [s h t s' h' ts' l r Hnode|s h ts l Hl|s h ts d Hd]; simpl in *.
  - apply Forall2_app_inv_r in Hts as (kl & kr' & Htl & Htr & ->).
    apply Forall2_cons_inv_r in Htr as (k & kr & Ht & Hr & ->).
    apply apart_middle in Hap as [Hc Hap]. rewrite Forall_app, Forall_cons in Hks.
    destruct Hks as (Hkl & Hk & Hkr).
    destruct (node_knows _ _ _ _ _ _ k (kl ++ kr) Hnode HI Hk Ht Hc) as [ks [HI' Hts' Hks' Hap' Hc' Ho' Hg']].
    { by rewrite Forall_app. }
    { rewrite Hg, !holding_app, !holding_cons, holding_app. tauto. }
    exists (kl ++ ks ++ kr)%list. rewrite Forall_app in Ho'. destruct Ho'. split; simpl.
    + done.
    + by apply Forall2_app, Forall2_app.
    + by rewrite !Forall_app.
    + by apply apart_insert.
    + rewrite Hg', !holding_app. tauto.
  - exists (k0 :: ks). split; simpl.
    + done.
    + constructor; [|done]. by apply Hcode, Hentry.
    + by constructor.
    + split; [|done]. apply Forall_forall. intros k Hk. destruct (Hk0 k) as (_ & _ & Hkk & _). by apply Hsym.
    + rewrite Hg, holding_cons, Hk0'. naive_solver.
  - destruct (Htick d s Hd HI) as [HI' Hall]. exists ks. split; simpl; [done|done| |done|done].
    eapply Forall_impl; [exact Hks|]. intros k. apply Hall.
Qed.

(** In every pool reached from one whose goroutines know what they need, they
    still do. *)
Theorem rely_invariant p0 p ks0 :
  relied p0 ks0 -> rtc (pstep code entry clock_of advance) p0 p -> exists ks, relied p ks.
Proof using Hcode Hentry Hk0' Htick Hsym Hhold0 Hexcl Htake Hgt Htake2 Hrel Hgr Hrel2 Hk0.
  intros H0 Hr. assert (exists ks, relied p0 ks) as He by by exists ks0. clear H0. revert He.
  induction Hr as [|p1 p2 p3 Hstep _ IH]; [done|].
  intros [ks H1]. apply IH. by eapply pstep_relied.
Qed.

(** A goroutine about to go on with a label knows what the label needs. *)
Corollary relied_label p ks l :
  relied p ks -> Running (Ret (Some l)) ∈ p_threads p ->
  I (p_state p) /\ exists k, Lok k l /\ holds k (p_state p).
Proof.
  intros [HI Hts Hks _ _] [i Hi]%list_elem_of_lookup. split; [done|].
  destruct (Forall2_lookup_r _ _ _ _ _ Hts Hi) as (k & Hk & [_ Hl]).
  exists k. split; [done|]. rewrite Forall_lookup in Hks. by apply (Hks i).
Qed.

(** A call about to be issued is permitted by what its goroutine knows. *)
Corollary relied_call p ks X (e : E X) c :
  relied p ks -> Running (Call e c) ∈ p_threads p ->
  I (p_state p) /\ exists k, G _ k e /\ holds k (p_state p).
Proof.
  intros [HI Hts Hks _ _] [i Hi]%list_elem_of_lookup. split; [done|].
  destruct (Forall2_lookup_r _ _ _ _ _ Hts Hi) as (k & Hk & [Hg _]).
  exists k. split; [done|]. rewrite Forall_lookup in Hks. by apply (Hks i).
Qed.
End Pool.
End Rely.
