(* ===== verification/Errors.v ===== *)
(** * Errors: the Go error values of the bot and their classification

    The concrete error types of [internal/control/client.go],
    [internal/worker/client.go] and [internal/discord/message.go], their
    methods, the [errors.Is]/[errors.As] walks over wrapped errors, and the
    retry decisions the job manager takes from them
    ([event_retry.go], [auto_start.go], [auto_stop.go]). *)

From S2P Require Import Prelude.

(** Values of the interface [error].  [Wrapped] is an error of code outside the
    component (net/http, encoding/json, [fmt.Errorf] with [%w]) with what its
    [Unwrap] returns. *)
Inductive error : Type :=
| ErrNew (msg : string)
| Wrapped (msg : string) (inner : option error)
| Canceled
| DeadlineExceeded
| ControlPanelError (Endpoint : string) (StatusCode : Z) (Code : string)
| AutoStopTransportError (Err : option error)
| AutoStopPendingError (StreamID : string)
| PublishError (statusCode : Z) (class : string) (retryable : bool) (cause : option error)
| SendMessageError (Code : string) (Retryable : bool) (RetryAfter : Duration).

#[export] Instance error_eq_dec : EqDecision error.
Proof.
  unfold EqDecision, Decision. fix go 1. intros x y.
  destruct x as [m|m i| | |ep st c|i|sid|st c r i|c r ra],
    y as [m'|m' i'| | |ep' st' c'|i'|sid'|st' c' r' i'|c' r' ra'];
    try (right; discriminate).
  - destruct (decide (m = m')) as [->|]; [by left|right; congruence].
  - destruct (decide (m = m')) as [->|]; [|right; congruence].
    destruct i as [e|], i' as [e'|]; try (right; discriminate); [|by left].
    destruct (go e e') as [->|]; [by left|right; congruence].
  - by left.
  - by left.
  - destruct (decide ((ep, st, c) = (ep', st', c'))) as [E|]; [|right; congruence].
    left; congruence.
  - destruct i as [e|], i' as [e'|]; try (right; discriminate); [|by left].
    destruct (go e e') as [->|]; [by left|right; congruence].
  - destruct (decide (sid = sid')) as [->|]; [by left|right; congruence].
  - destruct (decide ((st, c, r) = (st', c', r'))) as [E|]; [|right; congruence].
    destruct i as [e|], i' as [e'|]; try (right; discriminate); [|left; congruence].
    destruct (go e e') as [->|]; [left; congruence|right; congruence].
  - destruct (decide ((c, r, ra) = (c', r', ra'))) as [E|]; [|right; congruence].
    left; congruence.
Defined.

Definition RuntimeSecretLeaseActiveCode : string := "runtime_secret_lease_active".
Definition ErrRuntimeSecretLeaseActive : error := ErrNew RuntimeSecretLeaseActiveCode.

(** ** Codes of [discord.SendMessageError] *)
Definition SendMessageCodeInvalidRequest := "discord_message_invalid".
Definition SendMessageCodeRateLimited := "discord_rate_limited".
Definition SendMessageCodeUnavailable := "discord_unavailable".
Definition SendMessageCodeMissingPermissions := "discord_missing_permissions".
Definition SendMessageCodeMissingAccess := "discord_missing_access".
Definition SendMessageCodeAuthenticationFailed := "discord_authentication_failed".
Definition SendMessageCodeChannelNotFound := "discord_channel_not_found".
Definition SendMessageCodeRequestRejected := "discord_request_rejected".

(** [SendMessageError.Error] *)
Definition send_error_text (code : string) : string :=
  if code =s SendMessageCodeInvalidRequest then "Discord message request is invalid"
  else if code =s SendMessageCodeRateLimited then "Discord rate limit reached"
  else if code =s SendMessageCodeUnavailable then "Discord is temporarily unavailable"
  else if code =s SendMessageCodeMissingPermissions
       then "Discord bot lacks permission to post in the text channel"
  else if code =s SendMessageCodeMissingAccess
       then "Discord bot cannot access the text channel"
  else if code =s SendMessageCodeAuthenticationFailed
       then "Discord bot authentication failed"
  else if code =s SendMessageCodeChannelNotFound
       then "Discord text channel was not found"
  else if code =s SendMessageCodeRequestRejected
       then "Discord rejected the message request"
  else "Discord message send failed".

(** [ControlPanelError.Error] *)
Definition control_error_text (endpoint : string) (status : Z) (code : string) : string :=
  if code <>s "" then
    "control panel " ++ endpoint ++ " failed with status " ++ itoa status ++ " code " ++ code
  else "control panel " ++ endpoint ++ " failed with status " ++ itoa status.

(** [PublishError.Error] *)
Definition publish_error_text (status : Z) : string :=
  if 0 <? status then "worker event publish failed with status " ++ itoa status
  else "worker event publish request failed".

(** [err.Error()] *)
Fixpoint Error (e : error) : string :=
  match e with
  | ErrNew msg => msg
  | Wrapped msg _ => msg
  | Canceled => "context canceled"
  | DeadlineExceeded => "context deadline exceeded"
  | ControlPanelError ep st code => control_error_text ep st code
  | AutoStopTransportError None => "control panel auto-stop transport failure"
  | AutoStopTransportError (Some e') => Error e'
  | AutoStopPendingError sid => "control panel auto-stop is still pending for stream " ++ sid
  | PublishError st _ _ _ => publish_error_text st
  | SendMessageError code _ _ => send_error_text code
  end.

(** [errors.Unwrap] *)
Definition Unwrap (e : error) : option error :=
  match e with
  | Wrapped _ inner => inner
  | AutoStopTransportError err => err
  | PublishError _ _ _ cause => cause
  | _ => None
  end.

(** The error and everything it wraps, outermost first. *)
Fixpoint chain (e : error) : list error :=
  e :: match e with
       | Wrapped _ (Some e') | AutoStopTransportError (Some e')
       | PublishError _ _ _ (Some e') => chain e'
       | _ => []
       end.

Lemma chain_unwrap e :
  chain e = e :: match Unwrap e with Some e' => chain e' | None => [] end.
Proof. destruct e as [| m [] | | | | [] | | ? ? ? [] |]; reflexivity. Qed.

(** [errors.As]: the first error of the chain that the target accepts. *)
Fixpoint first_some {A B} (f : A -> option B) (l : list A) : option B :=
  match l with [] => None | x :: r => match f x with Some y => Some y | None => first_some f r end end.

Definition As {B} (f : error -> option B) (e : error) : option B := first_some f (chain e).

(** [ControlPanelError.Is] *)
Definition is_method (e target : error) : bool :=
  match e with
  | ControlPanelError _ _ code =>
      bool_decide (target = ErrRuntimeSecretLeaseActive) && (code =s RuntimeSecretLeaseActiveCode)
  | _ => false
  end.

(** [errors.Is] *)
Definition Is (e target : error) : bool :=
  existsb (fun x => bool_decide (x = target) || is_method x target) (chain e).

(** ** Methods used through interfaces *)

(** [RetryableAutoStop] of the three types that implement it *)
Definition RetryableAutoStop (e : error) : option bool :=
  match e with
  | AutoStopTransportError _ => Some true
  | AutoStopPendingError _ => Some true
  | ControlPanelError _ st _ => Some ((st =? 429) || ((500 <=? st) && (st <? 600)))
  | _ => None
  end.

(** [ControlPanelError.RetryableAutoStart] *)
Definition RetryableAutoStart (e : error) : option bool :=
  match e with
  | ControlPanelError _ st code =>
      Some (((st =? 409) && ((code =s "service_update_in_progress") || (code =s "node_execution_busy")))
            || (st =? 408) || (st =? 429) || ((500 <=? st) && (st <? 600)))
  | _ => None
  end.

(** The interface [staleAutoStartError]: [HTTPStatusCode] and [ControlPanelCode]. *)
Definition staleAutoStartError (e : error) : option (Z * string) :=
  match e with ControlPanelError _ st code => Some (st, code) | _ => None end.

(** The interface [workerPublishErrorClassification]. *)
Definition workerPublishErrorClassification (e : error) : option (string * Z * bool) :=
  match e with
  | PublishError st class retryable _ =>
      Some (if class =s "" then "unknown" else class, st, retryable)
  | _ => None
  end.

(** ** Decisions of the job manager *)

(** [shouldRetryAutoStop] *)
Definition shouldRetryAutoStop (e : error) : bool := default false (As RetryableAutoStop e).

(** [isStaleAutoStartError] *)
Definition isStaleAutoStartError (e : error) : bool :=
  match As staleAutoStartError e with
  | Some (st, code) => (st =? 404) && (code =s "not_found")
  | None => false
  end.

(** [isRetryableAutoStartError] *)
Definition isRetryableAutoStartError (e : error) : bool := default false (As RetryableAutoStart e).

(** The [capacityBusy] test of [noteAutoStartCapacityResult]; [err] may be nil. *)
Definition capacityBusyError (err : option error) : bool :=
  match err with
  | None => false
  | Some e =>
      match As staleAutoStartError e with
      | Some (st, code) => (st =? 409) && (code =s "node_execution_busy")
      | None => false
      end
  end.

(** [safeWorkerErrorClass] *)
Definition safeWorkerErrorClass (class : string) : string :=
  let c := TrimSpace class in
  if (c =s "http_status") || (c =s "transport") || (c =s "timeout") || (c =s "canceled")
     || (c =s "configuration") || (c =s "unknown")
  then c else "unknown".

(** [workerPublishMetadata] *)
Definition workerPublishMetadata (err : option error) : string * Z * bool :=
  match err with
  | None => ("unknown", 0, false)
  | Some e =>
      if Is e Canceled then ("canceled", 0, false)
      else if Is e DeadlineExceeded then ("timeout", 0, true)
      else
        match As workerPublishErrorClassification e with
        | Some (class, st, retryable) =>
            (safeWorkerErrorClass class,
             if (st <? 100) || (599 <? st) then 0 else st, retryable)
        | None => ("unknown", 0, false)
        end
  end.

(** [shouldRetryWorkerPublish] *)
Definition shouldRetryWorkerPublish (err : option error) : bool :=
  (workerPublishMetadata err).2.

(** [classifyContextError] of the Worker client *)
Definition classifyContextError (e : error) : error :=
  if Is e Canceled then Canceled
  else if Is e DeadlineExceeded then PublishError 0 "timeout" true (Some DeadlineExceeded)
  else e.

(** ** Facts *)

Lemma first_some_elem {A B} (f : A -> option B) l y :
  first_some f l = Some y -> exists x, x ∈ l /\ f x = Some y.
Proof.
  induction l as [|x l IH]; simpl; [done|].
  destruct (f x) eqn:E.
  - intros [= ->]. exists x. split; [apply list_elem_of_here|done].
  - intros H. destruct (IH H) as (z & Hz & Hf). exists z. split; [by apply list_elem_of_further|done].
Qed.

Lemma Is_chain e t : Is e t = true -> exists x, x ∈ chain e /\ (x = t \/ is_method x t = true).
Proof.
  unfold Is. rewrite existsb_exists. intros (x & Hin & Hx).
  exists x. split; [by apply list_elem_of_In|].
  apply orb_prop in Hx as [Hx|Hx]; [|by right].
  left. by apply bool_decide_eq_true in Hx.
Qed.

(** Metadata recorded about a failed publish is bounded: a fixed vocabulary of
    classes and a status that is 0 or an HTTP status. *)
Lemma safeWorkerErrorClass_vocabulary c :
  safeWorkerErrorClass c ∈
    ["http_status"; "transport"; "timeout"; "canceled"; "configuration"; "unknown"].
Proof.
  unfold safeWorkerErrorClass.
  destruct (TrimSpace c =s "http_status") eqn:E1; simpl; [bool_hyps; rewrite E1; set_solver|].
  destruct (TrimSpace c =s "transport") eqn:E2; simpl; [bool_hyps; rewrite E2; set_solver|].
  destruct (TrimSpace c =s "timeout") eqn:E3; simpl; [bool_hyps; rewrite E3; set_solver|].
  destruct (TrimSpace c =s "canceled") eqn:E4; simpl; [bool_hyps; rewrite E4; set_solver|].
  destruct (TrimSpace c =s "configuration") eqn:E5; simpl; [bool_hyps; rewrite E5; set_solver|].
  destruct (TrimSpace c =s "unknown") eqn:E6; simpl; [bool_hyps; rewrite E6|]; set_solver.
Qed.

Lemma workerPublishMetadata_status err :
  let '(_, st, _) := workerPublishMetadata err in st = 0 \/ 100 <= st <= 599.
Proof.
  unfold workerPublishMetadata. destruct err as [e|]; [|by left].
  destruct (Is e Canceled); [by left|].
  destruct (Is e DeadlineExceeded); [by left|].
  destruct (As _ e) as [[[c st] r]|]; [|by left].
  destruct (st <? 100) eqn:E1; simpl; [by left|].
  destruct (599 <? st) eqn:E2; [by left|]. right. lia.
Qed.

Lemma workerPublishMetadata_class err :
  let '(c, _, _) := workerPublishMetadata err in
  c ∈ ["http_status"; "transport"; "timeout"; "canceled"; "configuration"; "unknown"].
Proof.
  unfold workerPublishMetadata. destruct err as [e|]; [|set_solver].
  destruct (Is e Canceled); [set_solver|].
  destruct (Is e DeadlineExceeded); [set_solver|].
  destruct (As _ e) as [[[c st] r]|]; [apply safeWorkerErrorClass_vocabulary|set_solver].
Qed.

(** A canceled publish is never retried, whatever wraps the cancellation. *)
Lemma canceled_not_retried e : Is e Canceled = true -> shouldRetryWorkerPublish (Some e) = false.
Proof. intros H. unfold shouldRetryWorkerPublish, workerPublishMetadata. by rewrite H. Qed.

(** Only rate limits, timeouts, server failures and the two explicit transition
    conflicts of the Control Panel are retried. *)
Lemma isRetryableAutoStart_statuses e :
  isRetryableAutoStartError e = true ->
  exists ep st code, ControlPanelError ep st code ∈ chain e /\
    (st = 408 \/ st = 429 \/ 500 <= st < 600 \/
     (st = 409 /\ (code = "service_update_in_progress" \/ code = "node_execution_busy"))).
Proof.
  unfold isRetryableAutoStartError, As.
  destruct (first_some _ _) as [b|] eqn:E; [|done]. simpl. intros ->.
  destruct (first_some_elem _ _ _ E) as (x & Hx & Hr).
  destruct x; try discriminate. exists Endpoint, StatusCode, Code. split; [done|].
  simpl in Hr. injection Hr as Hr.
  repeat (apply orb_prop in Hr as [Hr|Hr]); bool_hyps; try lia.
  apply orb_prop in H0 as [H0|H0]; bool_hyps; naive_solver.
Qed.
