(* ===== verification/Types.v ===== *)
(** * Types: the values the components exchange

    Records of [internal/discord/client.go] and [internal/discord/events.go]
    (voice jobs, participant and join events, snapshots, auto-start targets)
    and the job identity [sameVoiceJob]/[sameWorkerEventJob], an equivalence
    coarser than equality under which retry keys are proper. *)

From S2P Require Import Prelude.

(** [discord.VoiceJob] *)
Record VoiceJob := mkVoiceJob {
  jGuildID : string;
  jVoiceChannelID : string;
  jTextChannelID : string;
  jDiscordTargetRevision : Z;
  jStreamID : string;
  jEncoderAudioURL : string;
  jCaptionAudioURL : string;
  jCaptionAudioToken : string;
  jStreamIngestToken : string;
  jWorkerEventsURL : string;
  jWorkerEventsToken : string;
  jCaptionAudioFlushMS : Z;
  jCaptionAudioMaxBatchPackets : Z;
  jUnresolvedSSRCBufferMS : Z;
  jUnresolvedSSRCBufferMSSet : bool;
  jJobGeneration : Z }.

Definition eta_VoiceJob (r : VoiceJob) : VoiceJob :=
  mkVoiceJob (jGuildID r) (jVoiceChannelID r) (jTextChannelID r) (jDiscordTargetRevision r)
    (jStreamID r) (jEncoderAudioURL r) (jCaptionAudioURL r) (jCaptionAudioToken r)
    (jStreamIngestToken r) (jWorkerEventsURL r) (jWorkerEventsToken r)
    (jCaptionAudioFlushMS r) (jCaptionAudioMaxBatchPackets r) (jUnresolvedSSRCBufferMS r)
    (jUnresolvedSSRCBufferMSSet r) (jJobGeneration r).

#[export] Instance set_jGuildID : Setter jGuildID := ltac:(mk_setter eta_VoiceJob).
#[export] Instance set_jVoiceChannelID : Setter jVoiceChannelID := ltac:(mk_setter eta_VoiceJob).
#[export] Instance set_jTextChannelID : Setter jTextChannelID := ltac:(mk_setter eta_VoiceJob).
#[export] Instance set_jEncoderAudioURL : Setter jEncoderAudioURL := ltac:(mk_setter eta_VoiceJob).
#[export] Instance set_jCaptionAudioURL : Setter jCaptionAudioURL := ltac:(mk_setter eta_VoiceJob).
#[export] Instance set_jCaptionAudioToken : Setter jCaptionAudioToken := ltac:(mk_setter eta_VoiceJob).
#[export] Instance set_jStreamIngestToken : Setter jStreamIngestToken := ltac:(mk_setter eta_VoiceJob).
#[export] Instance set_jWorkerEventsURL : Setter jWorkerEventsURL := ltac:(mk_setter eta_VoiceJob).
#[export] Instance set_jWorkerEventsToken : Setter jWorkerEventsToken := ltac:(mk_setter eta_VoiceJob).

(** The zero value [discord.VoiceJob{}]. *)
Definition zeroVoiceJob : VoiceJob :=
  mkVoiceJob "" "" "" 0 "" "" "" "" "" "" "" 0 0 0 false 0.

#[export] Instance VoiceJob_eq_dec : EqDecision VoiceJob.
Proof. solve_decision. Defined.

(** [discord.AutoStartAuthority] *)
Record AutoStartAuthority := mkAuthority { auStreamID : string; auAssignmentEpoch : string }.

(** [discord.VoiceJoinEvent] *)
Record VoiceJoinEvent := mkVoiceJoinEvent {
  veAuthority : option AutoStartAuthority;
  veExistingPresence : bool;
  veGuildID : string;
  veVoiceChannelID : string;
  veUserID : string;
  veUsername : string }.

(** [discord.ParticipantEvent] *)
Record ParticipantEvent := mkParticipantEvent {
  peStreamID : string;
  peGuildID : string;
  peVoiceChannelID : string;
  peUserID : string;
  peUsername : string;
  peAvatarURL : string;
  peIsBot : bool;
  pePresent : bool }.

(** [discord.VoiceParticipant] *)
Record VoiceParticipant := mkVoiceParticipant {
  vpUserID : string; vpUsername : string; vpAvatarURL : string; vpIsBot : bool }.

(** [discord.ParticipantSnapshot] *)
Record ParticipantSnapshot := mkParticipantSnapshot {
  psStreamID : string;
  psGuildID : string;
  psVoiceChannelID : string;
  psParticipants : list VoiceParticipant;
  psRevision : Z }.

(** [discord.ChatMessageEvent] *)
Record ChatMessageEvent := mkChatMessageEvent {
  ceStreamID : string;
  ceGuildID : string;
  ceTextChannelID : string;
  ceMessageID : string;
  ceUserID : string;
  ceUsername : string;
  ceAvatarURL : string;
  ceIsBot : bool;
  ceContent : string;
  ceCreatedAt : Time }.

(** [discord.AutoStartVoiceTarget] *)
Record AutoStartVoiceTarget := mkAutoStartVoiceTarget {
  atAssignmentEpoch : string;
  atStreamID : string;
  atGuildID : string;
  atVoiceChannelID : string }.

#[export] Instance AutoStartVoiceTarget_eq_dec : EqDecision AutoStartVoiceTarget.
Proof. solve_decision. Defined.

(** [discord.OutboundMessage] *)
Record OutboundMessage := mkOutboundMessage { omChannelID : string; omContent : string }.

(** [jobs.Participant] *)
Record Participant := mkParticipant {
  pUserID : string;
  pUsername : string;
  pAvatarURL : string;
  pIsBot : bool;
  pSpeaking : bool;
  pJoinedAt : Time }.

(** [jobs.ChatMessage] *)
Record ChatMessage := mkChatMessage {
  cmMessageID : string;
  cmUserID : string;
  cmUsername : string;
  cmAvatarURL : string;
  cmIsBot : bool;
  cmContent : string;
  cmTextChannelID : string;
  cmCreatedAt : Time }.

Definition zeroChatMessage : ChatMessage := mkChatMessage "" "" "" "" false "" "" 0.

(** [jobs.VoiceDefaults] *)
Record VoiceDefaults := mkVoiceDefaults {
  vdAssignmentEpoch : string;
  vdGuildID : string;
  vdVoiceChannelID : string;
  vdTextChannelID : string;
  vdAutoStartEnabled : bool }.

Definition zeroVoiceDefaults : VoiceDefaults := mkVoiceDefaults "" "" "" "" false.

(** [sameVoiceJob] of the Discord client and [sameWorkerEventJob] of the job
    manager: two jobs that agree on the routing fields. *)
Definition sameVoiceJob (left right : VoiceJob) : bool :=
  (TrimSpace (jStreamID left) =s TrimSpace (jStreamID right))
  && (TrimSpace (jGuildID left) =s TrimSpace (jGuildID right))
  && (TrimSpace (jVoiceChannelID left) =s TrimSpace (jVoiceChannelID right))
  && (TrimSpace (jTextChannelID left) =s TrimSpace (jTextChannelID right))
  && (jDiscordTargetRevision left =? jDiscordTargetRevision right)
  && (jJobGeneration left =? jJobGeneration right).

Definition sameWorkerEventJob (left right : VoiceJob) : bool :=
  (TrimSpace (jStreamID left) =s TrimSpace (jStreamID right))
  && (TrimSpace (jGuildID left) =s TrimSpace (jGuildID right))
  && (TrimSpace (jVoiceChannelID left) =s TrimSpace (jVoiceChannelID right))
  && (TrimSpace (jTextChannelID left) =s TrimSpace (jTextChannelID right))
  && (jDiscordTargetRevision left =? jDiscordTargetRevision right)
  && (jJobGeneration left =? jJobGeneration right).

Definition same_job (left right : VoiceJob) : Prop := sameWorkerEventJob left right = true.

Lemma sameVoiceJob_WorkerEventJob l r : sameVoiceJob l r = sameWorkerEventJob l r.
Proof. reflexivity. Qed.

(** The routing fields of a job, normalised. *)
Definition job_key (j : VoiceJob) : string * string * string * string * Z * Z :=
  (TrimSpace (jStreamID j), TrimSpace (jGuildID j), TrimSpace (jVoiceChannelID j),
   TrimSpace (jTextChannelID j), jDiscordTargetRevision j, jJobGeneration j).

Lemma same_job_key l r : same_job l r <-> job_key l = job_key r.
Proof.
  unfold same_job, sameWorkerEventJob, job_key.
  rewrite !andb_true_iff, !String.eqb_eq, !Z.eqb_eq.
  split; [intros [[[[[-> ->] ->] ->] ->] ->]; done|intros [= -> -> -> -> -> ->]; done].
Qed.

#[export] Instance same_job_equivalence : Equivalence same_job.
Proof.
  split.
  - intros j. by apply same_job_key.
  - intros j k. rewrite !same_job_key. by intros ->.
  - intros j k l. rewrite !same_job_key. by intros ->.
Qed.

#[export] Instance sameWorkerEventJob_proper :
  Proper (same_job ==> same_job ==> eq) sameWorkerEventJob.
Proof.
  intros j j' Hj k k' Hk. apply eq_true_iff_eq. fold (same_job j k) (same_job j' k').
  by rewrite Hj, Hk.
Qed.

Lemma sameWorkerEventJob_refl j : sameWorkerEventJob j j = true.
Proof. apply (reflexivity j : same_job j j). Qed.

Lemma sameWorkerEventJob_sym j k : sameWorkerEventJob j k = sameWorkerEventJob k j.
Proof. apply eq_true_iff_eq. change (same_job j k <-> same_job k j). split; by symmetry. Qed.

#[export] Hint Resolve sameWorkerEventJob_refl : bot.
#[export] Hint Rewrite sameWorkerEventJob_refl : bot.

(** ** Keys of the retry queue ([event_retry.go]) *)
Definition workerParticipantsRetryKey (job : VoiceJob) : string :=
  TrimSpace (jStreamID job) ++ NUL ++ "participants".

Definition workerSpeakerRetryKey (job : VoiceJob) : string :=
  TrimSpace (jStreamID job) ++ NUL ++ "active_speaker".

Definition workerChatRetryKey (job : VoiceJob) (message : ChatMessage) : string :=
  TrimSpace (jStreamID job) ++ NUL ++ "chat" ++ NUL ++ TrimSpace (cmMessageID message).

#[export] Instance workerParticipantsRetryKey_proper :
  Proper (same_job ==> eq) workerParticipantsRetryKey.
Proof.
  intros j k Hjk%same_job_key. unfold workerParticipantsRetryKey.
  injection Hjk as Hs _ _ _ _ _. by rewrite Hs.
Qed.

#[export] Instance workerSpeakerRetryKey_proper :
  Proper (same_job ==> eq) workerSpeakerRetryKey.
Proof.
  intros j k Hjk%same_job_key. unfold workerSpeakerRetryKey.
  injection Hjk as Hs _ _ _ _ _. by rewrite Hs.
Qed.

#[export] Instance workerChatRetryKey_proper :
  Proper (same_job ==> eq ==> eq) workerChatRetryKey.
Proof.
  intros j k Hjk%same_job_key m ? <-. unfold workerChatRetryKey.
  injection Hjk as Hs _ _ _ _ _. by rewrite Hs.
Qed.
