(* ===== verification/RetryQueue.v ===== *)
(** * RetryQueue: the Worker event retry queue

    [workerEventRetryQueue] of [internal/jobs/event_retry.go]: a keyed, bounded,
    cancellable queue in which the newest report of a key replaces the older
    ones.  [Queue] is the state under [q.mu]; each method is one function of
    the clock reading(s) it takes.  [qstep] puts the queue beside the single
    report its consumer goroutine holds between [next] and
    [markDelivered]/[markDropped]/[requeue]. *)

From S2P Require Import Prelude Errors Types.

Definition maxWorkerEventRetryPending : Z := 256.
Definition maxWorkerEventRetryAttempts : Z := 4.
Definition workerEventRetryBase : Duration := 250 * Millisecond.
Definition workerEventRetryMax : Duration := 3 * Second.

Definition evParticipants : string := "overlay.participants".
Definition evActiveSpeaker : string := "overlay.active_speaker".
Definition evChat : string := "overlay.discord_chat".

(** [workerEventRetryReport] *)
Record workerEventRetryReport := mkReport {
  rKey : string;
  rEventType : string;
  rJob : VoiceJob;
  rReconnectGeneration : Z;
  rParticipants : list Participant;
  rStateRevision : Z;
  rSpeakerUserID : string;
  rSpeakerDisplayName : string;
  rSpeaking : bool;
  rChat : ChatMessage;
  rSequence : Z;
  rAttempts : Z;
  rNextTryAt : Time;
  rQueuedAt : Time;
  rErr : option error }.

Definition eta_report (r : workerEventRetryReport) : workerEventRetryReport :=
  mkReport (rKey r) (rEventType r) (rJob r) (rReconnectGeneration r) (rParticipants r)
    (rStateRevision r) (rSpeakerUserID r) (rSpeakerDisplayName r) (rSpeaking r) (rChat r)
    (rSequence r) (rAttempts r) (rNextTryAt r) (rQueuedAt r) (rErr r).

#[export] Instance set_rJob : Setter rJob := ltac:(mk_setter eta_report).
#[export] Instance set_rParticipants : Setter rParticipants := ltac:(mk_setter eta_report).
#[export] Instance set_rStateRevision : Setter rStateRevision := ltac:(mk_setter eta_report).
#[export] Instance set_rSpeakerDisplayName : Setter rSpeakerDisplayName := ltac:(mk_setter eta_report).
#[export] Instance set_rSpeaking : Setter rSpeaking := ltac:(mk_setter eta_report).
#[export] Instance set_rSequence : Setter rSequence := ltac:(mk_setter eta_report).
#[export] Instance set_rAttempts : Setter rAttempts := ltac:(mk_setter eta_report).
#[export] Instance set_rNextTryAt : Setter rNextTryAt := ltac:(mk_setter eta_report).
#[export] Instance set_rQueuedAt : Setter rQueuedAt := ltac:(mk_setter eta_report).
#[export] Instance set_rErr : Setter rErr := ltac:(mk_setter eta_report).

(** [workerEventRetryQueue]: [wake] is the buffered channel of capacity 1,
    [canceled] the state of [ctx], [running] whether [wg] counts the loop. *)
Record Queue := mkQueue {
  qPending : gmap string workerEventRetryReport;
  qLatest : gmap string Z;
  qSequence : Z;
  qStopped : bool;
  qWake : bool;
  qCanceled : bool;
  qRunning : bool }.

Definition eta_Queue (q : Queue) : Queue :=
  mkQueue (qPending q) (qLatest q) (qSequence q) (qStopped q) (qWake q) (qCanceled q) (qRunning q).

#[export] Instance set_qPending : Setter qPending := ltac:(mk_setter eta_Queue).
#[export] Instance set_qLatest : Setter qLatest := ltac:(mk_setter eta_Queue).
#[export] Instance set_qSequence : Setter qSequence := ltac:(mk_setter eta_Queue).
#[export] Instance set_qStopped : Setter qStopped := ltac:(mk_setter eta_Queue).
#[export] Instance set_qWake : Setter qWake := ltac:(mk_setter eta_Queue).
#[export] Instance set_qCanceled : Setter qCanceled := ltac:(mk_setter eta_Queue).
#[export] Instance set_qRunning : Setter qRunning := ltac:(mk_setter eta_Queue).

(** [newWorkerEventRetryQueue] *)
Definition newWorkerEventRetryQueue : Queue := mkQueue ∅ ∅ 0 false false false false.

Section Operations.
Context `{MapRange}.

(** [signalLocked]: a send that never blocks on a channel of capacity 1. *)
Definition signalLocked (q : Queue) : Queue := q <| qWake := true |>.

(** The locked section of [stopAndWait], and its cancellation. *)
Definition queue_mark_stopped (q : Queue) : Queue :=
  if qStopped q then q
  else q <| qStopped := true |> <| qPending := ∅ |> <| qLatest := ∅ |>.

Definition queue_cancel (q : Queue) : Queue := q <| qCanceled := true |>.

(** The effect of [stopAndWait] before [q.wg.Wait()]. *)
Definition queue_stop (q : Queue) : Queue :=
  signalLocked (queue_cancel (queue_mark_stopped q)).

(** [delete(q.pending, key); delete(q.latest, key)] *)
Definition forget (key : string) (q : Queue) : Queue :=
  q <| qPending ::= delete key |> <| qLatest ::= delete key |>.

Definition is_chat (kr : string * workerEventRetryReport) : bool :=
  rEventType kr.2 =s evChat.

(** [dropOldestChatLocked]: keys are never empty (they hold a NUL), so the
    code's test of [oldestKey] against the empty string is the option. *)
Definition dropOldestChatLocked (q : Queue) : option Queue :=
  match oldest is_chat (fun kr => rQueuedAt kr.2) (map_range (qPending q)) with
  | None => None
  | Some (k, _) => Some (forget k q)
  end.

(** The room an [enqueue] of [key] needs; [None] when there is none. *)
Definition make_room (key : string) (q : Queue) : option Queue :=
  if (match qPending q !! key with None => true | Some _ => false end)
     && (maxWorkerEventRetryPending <=? mlen (qPending q))
  then dropOldestChatLocked q else Some q.

(** [enqueue] *)
Definition enqueue (now : Time) (report : workerEventRetryReport) (q : Queue) : bool * Queue :=
  if qStopped q then (false, q) else
  match make_room (rKey report) q with
  | None => (false, q)
  | Some q =>
      let seq := succ_u64 (qSequence q) in
      let report := report <| rSequence := seq |> <| rAttempts := 0 |>
        <| rQueuedAt := now |> <| rNextTryAt := Add now workerEventRetryBase |> in
      (true,
       signalLocked (q <| qSequence := seq |> <| qLatest ::= insert (rKey report) seq |>
         <| qPending ::= insert (rKey report) report |>))
  end.

(** The answer of [next]: a report, the time to wait, or nothing pending. *)
Inductive next_result :=
| NextReady (report : workerEventRetryReport)
| NextWait (wait : Duration)
| NextIdle.

Definition is_due (now : Time) (kr : string * workerEventRetryReport) : bool :=
  IsZero (rNextTryAt kr.2) || negb (After (rNextTryAt kr.2) now).

(** [next]: [now] is read on entry and [later] by [time.Until] at the end. *)
Definition next (now later : Time) (q : Queue) : next_result * Queue :=
  let entries := map_range (qPending q) in
  match oldest (is_due now) (fun kr => rQueuedAt kr.2) entries with
  | Some (_, report) => (NextReady report, q <| qPending ::= delete (rKey report) |>)
  | None =>
      match oldest (fun kr => negb (is_due now kr)) (fun kr => rNextTryAt kr.2) entries with
      | Some (_, report) => (NextWait (Sub (rNextTryAt report) later), q)
      | None => (NextIdle, q)
      end
  end.

(** [isLatest] *)
Definition isLatest (report : workerEventRetryReport) (q : Queue) : bool :=
  negb (qStopped q) && (mint (qLatest q) (rKey report) =? rSequence report).

(** [markDelivered] and [markDropped] *)
Definition markDelivered (report : workerEventRetryReport) (q : Queue) : Queue :=
  if negb (mint (qLatest q) (rKey report) =? rSequence report) then q
  else forget (rKey report) q.

Definition markDropped (report : workerEventRetryReport) (q : Queue) : Queue :=
  if mint (qLatest q) (rKey report) =? rSequence report
  then forget (rKey report) q else q.

(** The back-off loop of [requeue]; [n] is the number of iterations left. *)
Fixpoint requeue_delay_loop (n : nat) (delay : Duration) : Duration :=
  match n with
  | O => delay
  | S n =>
      let delay := dbl delay in
      if workerEventRetryMax <=? delay then workerEventRetryMax
      else requeue_delay_loop n delay
  end.

Definition requeue_delay (attempts : Z) : Duration :=
  requeue_delay_loop (Z.to_nat (attempts - 1)) workerEventRetryBase.

(** [requeue] *)
Definition requeue (now : Time) (report : workerEventRetryReport) (q : Queue) : Queue :=
  if qStopped q || negb (mint (qLatest q) (rKey report) =? rSequence report) then q else
  match qPending q !! rKey report with
  | Some _ => q
  | None =>
      if maxWorkerEventRetryAttempts <=? rAttempts report
      then q <| qLatest ::= delete (rKey report) |>
      else
        let report := report <| rNextTryAt := Add now (requeue_delay (rAttempts report)) |>
          <| rQueuedAt := now |> in
        signalLocked (q <| qPending ::= insert (rKey report) report |>)
  end.

(** The queue part of [supersedeWorkerEventRetry]: its locked section, and the
    signal after it. *)
Definition supersede_locked (key : string) (q : Queue) : Queue :=
  if qStopped q then q else forget key q.

Definition supersede (key : string) (q : Queue) : Queue :=
  signalLocked (supersede_locked key q).

(** What one turn of [loop] does with the answer of [next]. *)
Inductive loop_turn :=
| LoopDeliver (report : workerEventRetryReport)
| LoopTimer (wait : Duration)   (* ctx, wake or timer *)
| LoopBlock.                    (* ctx or wake, no timer *)

Definition loop_choice (r : next_result) : loop_turn :=
  match r with
  | NextReady report => LoopDeliver report
  | NextWait w => if 0 <? w then LoopTimer w else LoopBlock
  | NextIdle => LoopBlock
  end.
End Operations.

(** ** Well-formed queues *)

(** Every pending report is filed under its key, is the latest of its key and
    has attempts left; a stopped queue is empty. *)
Record queue_wf (q : Queue) : Prop := {
  wf_key : forall k r, qPending q !! k = Some r -> rKey r = k;
  wf_latest : forall k r, qPending q !! k = Some r -> mint (qLatest q) k = rSequence r;
  wf_attempts : forall k r, qPending q !! k = Some r ->
    0 <= rAttempts r < maxWorkerEventRetryAttempts;
  wf_stopped : qStopped q = true -> qPending q = ∅ /\ qLatest q = ∅ }.

Section WellFormed.
Context `{MapRange}.

Lemma new_wf : queue_wf newWorkerEventRetryQueue.
Proof. split; simpl; try done; intros k r; by rewrite lookup_empty. Qed.

Lemma signal_wf q : queue_wf q -> queue_wf (signalLocked q).
Proof. by intros []. Qed.

Lemma forget_wf k q : queue_wf q -> queue_wf (forget k q).
Proof.
  intros [Hk Hl Ha Hs]. split; unfold forget; simpl.
  - intros k' r [_ Hr]%lookup_delete_Some. by apply Hk.
  - intros k' r [Hne Hr]%lookup_delete_Some. rewrite <- (Hl k' r Hr).
    unfold mread. by rewrite lookup_delete_ne.
  - intros k' r [_ Hr]%lookup_delete_Some. by eapply Ha.
  - intros Hst. destruct (Hs Hst) as [-> ->]. by rewrite !delete_empty.
Qed.

Lemma insert_wf q k r :
  queue_wf q -> qStopped q = false -> rKey r = k -> mint (qLatest q) k = rSequence r ->
  0 <= rAttempts r < maxWorkerEventRetryAttempts ->
  queue_wf (q <| qPending ::= insert k r |>).
Proof.
  intros [Hk Hl Ha Hs] Hst Hkey Hseq Hatt. split; simpl.
  - intros k' r' [[<- <-]|[_ Hr]]%lookup_insert_Some; [done|by apply Hk].
  - intros k' r' [[<- <-]|[_ Hr]]%lookup_insert_Some; [done|by apply Hl].
  - intros k' r' [[<- <-]|[_ Hr]]%lookup_insert_Some; [done|by eapply Ha].
  - congruence.
Qed.

Lemma dropOldestChat_forget q q' :
  dropOldestChatLocked q = Some q' ->
  exists k r, q' = forget k q /\ qPending q !! k = Some r /\ rEventType r = evChat /\
    (forall k' r', qPending q !! k' = Some r' -> rEventType r' = evChat ->
       rQueuedAt r <= rQueuedAt r').
Proof.
  unfold dropOldestChatLocked. destruct (oldest _ _ _) as [[k r]|] eqn:E; [|done].
  intros [= <-]. destruct (oldest_Some _ _ _ _ E) as (Hin & Hc & Hmin).
  exists k, r. unfold is_chat in Hc. simpl in *. bool_hyps.
  split; [done|]. split; [by apply elem_of_range|]. split; [done|].
  intros k' r' Hr' Hev. apply (Hmin (k', r')); [by apply elem_of_range|].
  unfold is_chat. simpl. by rewrite Hev, String.eqb_refl.
Qed.

Lemma dropOldestChat_None q :
  dropOldestChatLocked q = None ->
  forall k r, qPending q !! k = Some r -> rEventType r <> evChat.
Proof.
  unfold dropOldestChatLocked. destruct (oldest _ _ _) as [[k r]|] eqn:E; [done|].
  intros _ k r Hr Hev.
  pose proof (oldest_None _ _ _ E (k, r)) as Hn.
  rewrite elem_of_range in Hn. specialize (Hn Hr).
  unfold is_chat in Hn. simpl in Hn. by rewrite Hev, String.eqb_refl in Hn.
Qed.

Lemma make_room_cases key q q' :
  make_room key q = Some q' ->
  (q' = q /\ (is_Some (qPending q !! key) \/ (mlen (qPending q) < maxWorkerEventRetryPending))) \/
  (exists k, q' = forget k q /\ k <> key /\ is_Some (qPending q !! k) /\
     qPending q !! key = None /\ maxWorkerEventRetryPending <= mlen (qPending q)).
Proof.
  unfold make_room. destruct (qPending q !! key) as [r|] eqn:Hk; simpl.
  - intros [= <-]. left. split; [done|]. left. by exists r.
  - destruct (Z.leb_spec maxWorkerEventRetryPending (mlen (qPending q))).
    + intros (k & r & -> & Hr & _)%dropOldestChat_forget. right. exists k.
      split; [done|]. split; [congruence|]. split; [by exists r|]. done.
    + intros [= <-]. left. split; [done|]. by right.
Qed.

Lemma make_room_wf key q q' : queue_wf q -> make_room key q = Some q' -> queue_wf q'.
Proof.
  intros Hq [[-> _]|(k & -> & _)]%make_room_cases; [done|by apply forget_wf].
Qed.

Lemma make_room_stopped key q q' : make_room key q = Some q' -> qStopped q' = qStopped q.
Proof. by intros [[-> _]|(k & -> & _)]%make_room_cases. Qed.

Lemma enqueue_wf now r q : queue_wf q -> queue_wf (enqueue now r q).2.
Proof.
  intros Hq. unfold enqueue. destruct (qStopped q) eqn:Hst; [done|].
  destruct (make_room (rKey r) q) as [q1|] eqn:Hroom; [|done].
  pose proof (make_room_wf _ _ _ Hq Hroom) as [Hk Hl Ha Hs].
  apply make_room_stopped in Hroom. simpl. apply signal_wf.
  split; simpl.
  - intros k r' [[<- <-]|[_ Hr]]%lookup_insert_Some; [done|by apply Hk].
  - intros k r' [[<- <-]|[Hne Hr]]%lookup_insert_Some; unfold mread.
    + by rewrite lookup_insert_eq.
    + rewrite lookup_insert_ne by done. by apply Hl.
  - intros k r' [[<- <-]|[_ Hr]]%lookup_insert_Some; [simpl; by vm_compute|by eapply Ha].
  - congruence.
Qed.

Lemma next_wf now later q : queue_wf q -> queue_wf (next now later q).2.
Proof.
  intros Hq. unfold next. destruct (oldest (is_due now) _ _) as [[k r]|].
  - destruct Hq as [Hk Hl Ha Hs]. split; simpl.
    + intros k' r' [_ Hr]%lookup_delete_Some. by apply Hk.
    + intros k' r' [_ Hr]%lookup_delete_Some. by apply Hl.
    + intros k' r' [_ Hr]%lookup_delete_Some. by eapply Ha.
    + intros Hst. destruct (Hs Hst) as [-> ->]. by rewrite delete_empty.
  - destruct (oldest _ _ _) as [[k r]|]; done.
Qed.

Lemma markDelivered_wf r q : queue_wf q -> queue_wf (markDelivered r q).
Proof. unfold markDelivered. destruct (_ =? _); simpl; auto using forget_wf. Qed.

Lemma markDropped_wf r q : queue_wf q -> queue_wf (markDropped r q).
Proof. unfold markDropped. destruct (_ =? _); auto using forget_wf. Qed.

Lemma requeue_wf now r q : 0 <= rAttempts r -> queue_wf q -> queue_wf (requeue now r q).
Proof.
  intros Hr Hq. unfold requeue.
  destruct (qStopped q) eqn:Hst; [done|]. simpl.
  destruct (Z.eqb_spec (mint (qLatest q) (rKey r)) (rSequence r)) as [Hseq|]; [|done].
  destruct (qPending q !! rKey r) eqn:Hp; [done|]. simpl.
  destruct (Z.leb_spec maxWorkerEventRetryAttempts (rAttempts r)).
  - destruct Hq as [Hk Hl Ha Hs]. split; simpl; [done| |done|congruence].
    intros k r' Hr'. rewrite <- (Hl k r' Hr'). unfold mread.
    rewrite lookup_delete_ne; [done|]. intros <-. congruence.
  - by apply signal_wf, insert_wf.
Qed.

Lemma supersede_wf k q : queue_wf q -> queue_wf (supersede k q).
Proof.
  intros Hq. unfold supersede, supersede_locked. apply signal_wf.
  destruct (qStopped q); auto using forget_wf.
Qed.

Lemma stop_wf q : queue_wf q -> queue_wf (queue_stop q).
Proof.
  intros Hq. unfold queue_stop, queue_mark_stopped. destruct (qStopped q) eqn:E.
  - by destruct Hq.
  - split; simpl; try done; intros k r; by rewrite lookup_empty.
Qed.
End WellFormed.

#[export] Hint Resolve new_wf signal_wf forget_wf enqueue_wf next_wf markDelivered_wf
  markDropped_wf requeue_wf supersede_wf stop_wf : bot.

(** ** The queue and its consumer *)

(** The queue beside the report the consumer goroutine has popped and not yet
    settled. *)
Record qsys := QSys { s_queue : Queue; s_inflight : option workerEventRetryReport }.

Definition qsys_init : qsys := QSys newWorkerEventRetryQueue None.

(** [report.attempts++] before a publish; the refreshed fields
    ([refreshWorkerRetryReport]) leave key, sequence and attempts alone. *)
Definition attempt_of (r r' : workerEventRetryReport) : Prop :=
  rKey r' = rKey r /\ rSequence r' = rSequence r /\ rAttempts r' = rAttempts r + 1.

Inductive qlabel := QEnqueue | QPop | QOther.

Inductive qstep `{MapRange} : qsys -> qlabel -> qsys -> Prop :=
| qs_enqueue q fly now r q' :
    enqueue now r q = (true, q') -> qstep (QSys q fly) QEnqueue (QSys q' fly)
| qs_pop q now later r q' :
    next now later q = (NextReady r, q') -> qstep (QSys q None) QPop (QSys q' (Some r))
| qs_delivered q r r' :
    attempt_of r r' -> qstep (QSys q (Some r)) QOther (QSys (markDelivered r' q) None)
| qs_dropped q r r' :
    rKey r' = rKey r -> rSequence r' = rSequence r ->
    qstep (QSys q (Some r)) QOther (QSys (markDropped r' q) None)
| qs_requeued q now r r' :
    attempt_of r r' -> rAttempts r' < maxWorkerEventRetryAttempts ->
    qstep (QSys q (Some r)) QOther (QSys (requeue now r' q) None)
| qs_superseded q fly k : qstep (QSys q fly) QOther (QSys (supersede k q) fly)
| qs_stopped q fly : qstep (QSys q fly) QOther (QSys (queue_stop q) fly).

(** Runs from the empty queue, counting accepted reports and deliveries. *)
Inductive qrun `{MapRange} : qsys -> Z -> Z -> Prop :=
| qrun_init : qrun qsys_init 0 0
| qrun_step s l s' accepted popped :
    qrun s accepted popped -> qstep s l s' ->
    qrun s' (accepted + if l is QEnqueue then 1 else 0) (popped + if l is QPop then 1 else 0).

(** Deliveries a report may still get. *)
Definition budget (r : workerEventRetryReport) : Z := maxWorkerEventRetryAttempts - rAttempts r.

Definition fly_budget (fly : option workerEventRetryReport) : Z :=
  match fly with Some r => budget r - 1 | None => 0 end.

Definition fly_len (fly : option workerEventRetryReport) : Z :=
  match fly with Some _ => 1 | None => 0 end.

Record qsys_ok (s : qsys) : Prop := {
  so_wf : queue_wf (s_queue s);
  so_fly : forall r, s_inflight s = Some r -> 0 <= rAttempts r < maxWorkerEventRetryAttempts;
  so_bound : mlen (qPending (s_queue s)) + fly_len (s_inflight s)
             <= maxWorkerEventRetryPending + 1 }.

Section System.
Context `{MapRange}.

Lemma mlen_insert_le {V} (m : gmap string V) k v : mlen (<[k:=v]> m) <= mlen m + 1.
Proof. unfold mlen. rewrite map_size_insert. case_match; unfold id; lia. Qed.

Lemma mlen_insert_present {V} (m : gmap string V) k v :
  is_Some (m !! k) -> mlen (<[k:=v]> m) = mlen m.
Proof. intros [u Hu]. unfold mlen. by rewrite map_size_insert, Hu. Qed.

Lemma mlen_delete_le {V} (m : gmap string V) k : mlen (delete k m) <= mlen m.
Proof. unfold mlen. rewrite map_size_delete. case_match; unfold id; lia. Qed.

Lemma mlen_delete_present {V} (m : gmap string V) k :
  is_Some (m !! k) -> mlen (delete k m) = mlen m - 1.
Proof.
  intros [u Hu]. unfold mlen. rewrite map_size_delete, Hu.
  assert (size m <> 0%nat); [|lia]. intros Hz.
  apply map_size_empty_inv in Hz. subst. by rewrite lookup_empty in Hu.
Qed.

Lemma budget_pos q k r : queue_wf q -> qPending q !! k = Some r -> 1 <= budget r.
Proof. intros Hq Hr. pose proof (wf_attempts _ Hq _ _ Hr). unfold budget. lia. Qed.

Lemma budget_nonneg q : queue_wf q -> forall k r, qPending q !! k = Some r -> 0 <= budget r.
Proof. intros Hq k r Hr. pose proof (budget_pos q k r Hq Hr). lia. Qed.

(** Every [next] that answers a report takes it out of [pending]. *)
Lemma next_ready now later q r q' :
  queue_wf q -> next now later q = (NextReady r, q') ->
  qPending q !! rKey r = Some r /\ q' = q <| qPending ::= delete (rKey r) |> /\
  is_due now (rKey r, r) = true /\
  (forall k' r', qPending q !! k' = Some r' -> is_due now (k', r') = true ->
     rQueuedAt r <= rQueuedAt r').
Proof.
  intros Hq. unfold next. destruct (oldest (is_due now) _ _) as [[k r0]|] eqn:E.
  2:{ intros Heq. repeat case_match; simplify_eq. }
  intros Heq. simplify_eq/=. destruct (oldest_Some _ _ _ _ E) as (Hin & Hd & Hmin).
  rewrite elem_of_range in Hin. pose proof (wf_key _ Hq _ _ Hin) as <-.
  split; [done|]. split; [done|]. split; [done|].
  intros k' r' Hr' Hd'. apply (Hmin (k', r')); [by apply elem_of_range|done].
Qed.

Lemma enqueue_true now r q q' :
  enqueue now r q = (true, q') ->
  qStopped q = false /\
  exists q1, make_room (rKey r) q = Some q1 /\
    qPending q' = <[rKey r := r <| rSequence := succ_u64 (qSequence q) |> <| rAttempts := 0 |>
        <| rQueuedAt := now |> <| rNextTryAt := Add now workerEventRetryBase |>]> (qPending q1) /\
    qLatest q' = <[rKey r := succ_u64 (qSequence q)]> (qLatest q1) /\
    qSequence q' = succ_u64 (qSequence q) /\ qStopped q' = false /\ qWake q' = true.
Proof.
  unfold enqueue. destruct (qStopped q) eqn:Hst; [done|].
  destruct (make_room (rKey r) q) as [q1|] eqn:Hroom; [|done].
  intros [= <-]. split; [done|]. exists q1.
  assert (qSequence q1 = qSequence q) as Hs.
  { by destruct (make_room_cases _ _ _ Hroom) as [[-> _]|(k & -> & _)]. }
  pose proof (make_room_stopped _ _ _ Hroom) as Hst1. simpl.
  rewrite Hs. repeat split; congruence.
Qed.

Lemma make_room_len key q q1 :
  make_room key q = Some q1 ->
  (qPending q !! key = None -> mlen (qPending q1) < maxWorkerEventRetryPending
     \/ mlen (qPending q1) < mlen (qPending q)) /\
  (is_Some (qPending q !! key) -> q1 = q).
Proof.
  intros [[-> [Hk|Hlt]]|(k & -> & Hne & Hk & Hnone & Hfull)]%make_room_cases.
  - split; [|done]. intros Hn. rewrite Hn in Hk. by destruct Hk.
  - split; [|done]. by left.
  - split.
    + intros _. right. unfold forget. simpl. rewrite (mlen_delete_present _ _ Hk). lia.
    + rewrite Hnone. by intros [].
Qed.

Lemma make_room_budget key q q1 :
  queue_wf q -> make_room key q = Some q1 ->
  msum budget (qPending q1) <= msum budget (qPending q).
Proof.
  intros Hq [[-> _]|(k & -> & _)]%make_room_cases; [lia|].
  unfold forget. simpl. apply msum_delete_le, (budget_nonneg _ Hq).
Qed.

Lemma qstep_ok s l s' : qstep s l s' -> qsys_ok s -> qsys_ok s'.
Proof.
  intros Hstep [Hwf Hfly Hb]; destruct Hstep as
    [q fly now r q' He|q now later r q' Hn|q r r' (Hk & Hs & Ha)|q r r' Hk Hs
    |q now r r' (Hk & Hs & Ha) Hlt|q fly k|q fly]; simpl in *.
  - pose proof (enqueue_wf now r q Hwf) as Hwf'. rewrite He in Hwf'. simpl in Hwf'.
    destruct (enqueue_true _ _ _ _ He) as (_ & q1 & Hroom & Hp & _ & _).
    split; simpl; [done|done|]. rewrite Hp.
    destruct (make_room_len _ _ _ Hroom) as [Hnone Hsome].
    destruct (qPending q !! rKey r) as [r0|] eqn:Hr0.
    + rewrite (Hsome ltac:(by exists r0)).
      rewrite mlen_insert_present by (by exists r0). done.
    + pose proof (mlen_insert_le (qPending q1) (rKey r) (r <| rSequence := succ_u64 (qSequence q) |>
        <| rAttempts := 0 |> <| rQueuedAt := now |>
        <| rNextTryAt := Add now workerEventRetryBase |>)).
      assert (fly_len fly <= 1) by (destruct fly; simpl; lia).
      destruct (Hnone eq_refl); lia.
  - destruct (next_ready _ _ _ _ _ Hwf Hn) as (Hr & -> & _ & _).
    pose proof (next_wf now later q Hwf) as Hwf'. rewrite Hn in Hwf'. simpl in *.
    split; simpl; [done| |].
    + intros r0 [= <-]. by apply (wf_attempts _ Hwf (rKey r)).
    + rewrite mlen_delete_present by (by exists r). lia.
  - split; simpl; [by apply markDelivered_wf|done|].
    unfold markDelivered. destruct (_ =? _); simpl; [|lia].
    pose proof (mlen_delete_le (qPending q) (rKey r')). lia.
  - split; simpl; [by apply markDropped_wf|done|].
    unfold markDropped. destruct (_ =? _); simpl; [|lia].
    pose proof (mlen_delete_le (qPending q) (rKey r')). lia.
  - destruct (Hfly _ eq_refl) as [Hlo _].
    split; simpl; [apply requeue_wf; [lia|done]|done|].
    unfold requeue. destruct (_ || _); simpl; [lia|].
    destruct (qPending q !! rKey r'); simpl; [lia|].
    destruct (_ <=? _); simpl; [lia|].
    match goal with |- mlen (<[?k := ?v]> ?m) + _ <= _ => pose proof (mlen_insert_le m k v) end.
    lia.
  - split; simpl; [by apply supersede_wf|done|]. unfold supersede, supersede_locked.
    destruct (qStopped q); simpl; [done|]. pose proof (mlen_delete_le (qPending q) k). lia.
  - split; simpl; [by apply stop_wf|done|]. unfold queue_stop, queue_mark_stopped.
    destruct (qStopped q); simpl; [done|]. unfold mlen. rewrite map_size_empty.
    destruct fly; simpl; vm_compute; congruence.
Qed.

Lemma qrun_ok s a p : qrun s a p -> qsys_ok s.
Proof.
  induction 1 as [|s l s' a p _ IH Hstep]; [|by apply (qstep_ok _ _ _ Hstep)].
  split; simpl; [apply new_wf|done|]. by vm_compute.
Qed.

(** Every latest sequence belongs to a pending report or to the one in flight. *)
Definition latest_live (s : qsys) : Prop :=
  forall k n, qLatest (s_queue s) !! k = Some n ->
    is_Some (qPending (s_queue s) !! k) \/
    exists r, s_inflight s = Some r /\ rKey r = k /\ rSequence r = n.

Lemma forget_live k q fly : latest_live (QSys q fly) -> latest_live (QSys (forget k q) fly).
Proof.
  intros Hl k' n. unfold forget. simpl. intros [Hne Hn]%lookup_delete_Some.
  rewrite lookup_delete_ne by done. by apply Hl.
Qed.

(** Settling the report in flight: its own entry goes, or is already newer. *)
Lemma settle_live q r r' :
  rKey r' = rKey r -> rSequence r' = rSequence r -> latest_live (QSys q (Some r)) ->
  latest_live (QSys (if mint (qLatest q) (rKey r') =? rSequence r' then forget (rKey r') q else q) None).
Proof.
  intros Hk Hs Hl. case_match eqn:E.
  - intros k n. unfold forget. simpl. intros [Hne Hn]%lookup_delete_Some.
    rewrite lookup_delete_ne by done.
    destruct (Hl k n Hn) as [?|(r0 & [= <-] & Hk0 & _)]; [by left|]. congruence.
  - intros k n Hn. simpl in Hn. left.
    destruct (Hl k n Hn) as [?|(r0 & [= <-] & Hk0 & Hs0)]; [done|].
    bool_hyps. unfold mread in E. rewrite Hk, Hk0, Hn in E. simpl in E. congruence.
Qed.

Lemma qstep_live s l s' : qstep s l s' -> qsys_ok s -> latest_live s -> latest_live s'.
Proof.
  intros Hstep [Hwf _ _] Hl; destruct Hstep as
    [q fly now r q' He|q now later r q' Hn|q r r' (Hk & Hs & Ha)|q r r' Hk Hs
    |q now r r' (Hk & Hs & Ha) Hlt|q fly k|q fly]; simpl in *.
  - destruct (enqueue_true _ _ _ _ He) as (_ & q1 & Hroom & Hp & Hlat & _).
    assert (latest_live (QSys q1 fly)) as Hl1.
    { destruct (make_room_cases _ _ _ Hroom) as [[-> _]|(k & -> & _)]; [done|by apply forget_live]. }
    intros k n. simpl. rewrite Hlat, Hp. intros [[<- _]|[Hne Hn]]%lookup_insert_Some.
    + left. rewrite lookup_insert_eq. by eexists.
    + rewrite lookup_insert_ne by done. by apply Hl1.
  - destruct (next_ready _ _ _ _ _ Hwf Hn) as (Hr & -> & _ & _).
    intros k n. simpl. intros Hkn. destruct (decide (k = rKey r)) as [->|Hne].
    + right. exists r. split; [done|]. split; [done|].
      pose proof (wf_latest _ Hwf _ _ Hr) as Hlat. unfold mread in Hlat. by rewrite Hkn in Hlat.
    + rewrite lookup_delete_ne by done.
      destruct (Hl k n Hkn) as [?|(r0 & [=] & _)]. by left.
  - pose proof (settle_live q r r' Hk Hs Hl) as H1. unfold markDelivered.
    by destruct (mint (qLatest q) (rKey r') =? rSequence r').
  - by apply (settle_live q r r').
  - pose proof (settle_live q r r' Hk Hs Hl) as H1. unfold requeue.
    destruct (mint (qLatest q) (rKey r') =? rSequence r') eqn:E; simpl;
      [|by rewrite orb_true_r].
    destruct (qStopped q) eqn:Hst; simpl.
    { intros k n. simpl. destruct (wf_stopped _ Hwf Hst) as [_ ->]. by rewrite lookup_empty. }
    assert (forall k n, k <> rKey r' -> qLatest q !! k = Some n -> is_Some (qPending q !! k)) as Ho.
    { intros k n Hne Hkn. destruct (Hl k n Hkn) as [?|(r0 & [= <-] & Hk0 & _)]; [done|congruence]. }
    destruct (qPending q !! rKey r') eqn:Hp; simpl.
    { intros k n Hkn. left. simpl in *. destruct (decide (k = rKey r')) as [->|Hne];
        [by eexists|by eapply Ho]. }
    destruct (_ <=? _); intros k n; simpl.
    + intros [Hne Hkn]%lookup_delete_Some. left. by eapply Ho.
    + intros Hkn. left. destruct (decide (k = rKey r')) as [->|Hne].
      * rewrite lookup_insert_eq. by eexists.
      * rewrite lookup_insert_ne by done. by eapply Ho.
  - unfold supersede, supersede_locked. destruct (qStopped q); [done|].
    by apply (forget_live k q fly).
  - unfold queue_stop, queue_mark_stopped. destruct (qStopped q); [done|].
    intros k n. simpl. by rewrite lookup_empty.
Qed.

Lemma qrun_live s a p : qrun s a p -> latest_live s.
Proof.
  induction 1 as [|s l s' a p Hrun IH Hstep].
  - intros k n. simpl. by rewrite lookup_empty.
  - eapply qstep_live; [done|by eapply qrun_ok|done].
Qed.

Lemma latest_live_bound s :
  latest_live s ->
  mlen (qLatest (s_queue s)) <= mlen (qPending (s_queue s)) + fly_len (s_inflight s).
Proof.
  intros Hl. unfold mlen.
  rewrite <- !size_dom.
  assert (dom (qLatest (s_queue s)) ⊆ dom (qPending (s_queue s)) ∪
            match s_inflight s with Some r => {[rKey r]} | None => ∅ end) as Hsub.
  { intros k [n Hn]%elem_of_dom. apply elem_of_union.
    destruct (Hl k n Hn) as [?|(r & Hr & <- & _)]; [left; by apply elem_of_dom|right].
    rewrite Hr. by apply elem_of_singleton. }
  apply subseteq_size in Hsub. etrans; [apply inj_le, Hsub|].
  destruct (s_inflight s) as [r|]; simpl.
  - assert (size (dom (qPending (s_queue s)) ∪ {[rKey r]}) <= size (dom (qPending (s_queue s))) + 1)%nat;
      [|lia].
    pose proof (size_union_alt (dom (qPending (s_queue s))) {[rKey r]}) as ->.
    assert (size ({[rKey r]} ∖ dom (qPending (s_queue s))) <= size ({[rKey r]} : gset string))%nat
      by (apply subseteq_size; set_solver).
    rewrite size_singleton in *. lia.
  - rewrite union_empty_r_L. lia.
Qed.

(** Potential: every accepted report pays for its at most four deliveries. *)
Lemma qstep_budget s l s' :
  qstep s l s' -> qsys_ok s ->
  msum budget (qPending (s_queue s')) + fly_budget (s_inflight s')
    + (if l is QPop then 1 else 0)
  <= msum budget (qPending (s_queue s)) + fly_budget (s_inflight s)
    + (if l is QEnqueue then maxWorkerEventRetryAttempts else 0).
Proof.
  intros Hstep [Hwf Hfly _]; destruct Hstep as
    [q fly now r q' He|q now later r q' Hn|q r r' (Hk & Hs & Ha)|q r r' Hk Hs
    |q now r r' (Hk & Hs & Ha) Hlt|q fly k|q fly]; simpl in *.
  - destruct (enqueue_true _ _ _ _ He) as (_ & q1 & Hroom & -> & _ & _).
    pose proof (make_room_budget _ _ _ Hwf Hroom).
    pose proof (make_room_wf _ _ _ Hwf Hroom) as Hwf1.
    match goal with |- msum _ (<[?k := ?v]> ?m) + _ + _ <= _ =>
      pose proof (msum_overwrite budget m k v maxWorkerEventRetryAttempts
        (budget_nonneg _ Hwf1)) as Ho end.
    unfold budget at 1 in Ho. simpl in Ho. lia.
  - destruct (next_ready _ _ _ _ _ Hwf Hn) as (Hr & -> & _ & _). simpl.
    rewrite (msum_delete budget (qPending q) (rKey r) r Hr). lia.
  - destruct (Hfly _ eq_refl). unfold budget at 3.
    unfold markDelivered. destruct (_ =? _); simpl; [|lia].
    pose proof (msum_delete_le budget (qPending q) (rKey r') (budget_nonneg _ Hwf)). lia.
  - destruct (Hfly _ eq_refl). unfold budget at 3.
    unfold markDropped. destruct (_ =? _); simpl; [|lia].
    pose proof (msum_delete_le budget (qPending q) (rKey r') (budget_nonneg _ Hwf)). lia.
  - destruct (Hfly _ eq_refl). unfold requeue.
    destruct (_ || _); simpl; [unfold budget at 3; lia|].
    destruct (qPending q !! rKey r') eqn:Hr'; simpl; [unfold budget at 3; lia|].
    destruct (_ <=? _); simpl; [unfold budget at 3; lia|].
    rewrite msum_insert by done. unfold budget at 1 4. simpl. lia.
  - unfold supersede, supersede_locked. destruct (qStopped q); simpl; [lia|].
    pose proof (msum_delete_le budget (qPending q) k (budget_nonneg _ Hwf)). lia.
  - unfold queue_stop, queue_mark_stopped. destruct (qStopped q); simpl; [lia|].
    rewrite msum_empty.
    pose proof (msum_nonneg budget (qPending q) (budget_nonneg _ Hwf)). lia.
Qed.

Lemma qrun_budget s a p :
  qrun s a p ->
  p + msum budget (qPending (s_queue s)) + fly_budget (s_inflight s)
  <= maxWorkerEventRetryAttempts * a.
Proof.
  induction 1 as [|s l s' a p Hrun IH Hstep]; simpl.
  - rewrite msum_empty. lia.
  - pose proof (qstep_budget _ _ _ Hstep (qrun_ok _ _ _ Hrun)) as Hb.
    destruct l; lia.
Qed.
End System.

(** ** Properties of the queue *)
Section Properties.
Context `{MapRange}.

(** C22: in every run of the queue beside its consumer, whatever the order of
    enqueues, deliveries, drops, requeues, supersessions and the stop, the
    pending reports and the one in flight are at most 256+1 and so are the keys
    whose latest sequence is remembered, every pending report is filed under its
    key, is the latest of that key and has an attempt left, and a stopped queue
    holds nothing. *)
Theorem retry_run_invariant s accepted popped :
  qrun s accepted popped ->
  mlen (qPending (s_queue s)) + fly_len (s_inflight s) <= maxWorkerEventRetryPending + 1 /\
  mlen (qLatest (s_queue s)) <= maxWorkerEventRetryPending + 1 /\
  (forall k r, qPending (s_queue s) !! k = Some r ->
     rKey r = k /\ mint (qLatest (s_queue s)) k = rSequence r /\
     0 <= rAttempts r < maxWorkerEventRetryAttempts) /\
  (qStopped (s_queue s) = true -> qPending (s_queue s) = ∅).
Proof.
  intros Hrun. pose proof (latest_live_bound _ (qrun_live _ _ _ Hrun)) as Hlat.
  destruct (qrun_ok _ _ _ Hrun) as [[Hk Hl Ha Hs] _ Hb]. split; [done|]. split; [lia|]. split; [|intros Hst; by destruct (Hs Hst)].
  intros k r Hr. split; [by apply Hk|]. split; [by apply Hl|by eapply Ha].
Qed.

(** C32: the queue delivers a report at most four times: in every run the
    consumer is handed at most four reports per accepted enqueue, so a
    failing Worker cannot make the loop retry for ever. *)
Theorem retry_deliveries_bounded s accepted popped :
  qrun s accepted popped -> popped <= maxWorkerEventRetryAttempts * accepted.
Proof.
  intros Hrun. pose proof (qrun_budget _ _ _ Hrun) as Hb.
  destruct (qrun_ok _ _ _ Hrun) as [Hwf Hfly _].
  pose proof (msum_nonneg budget _ (budget_nonneg _ Hwf)).
  destruct (s_inflight s) as [r|] eqn:E; simpl in Hb; [|lia].
  destruct (Hfly r eq_refl). unfold budget at 2 in Hb. lia.
Qed.

(** [enqueue] on every branch. It refuses, changing nothing, exactly when
    the queue is stopped, or when the key is new, 256 reports are pending and
    none of them is a chat message. Otherwise the report becomes the only
    pending and the latest one of its key, with a fresh sequence, no attempts
    and a first try 250 ms away, and every other key keeps its entry, except
    that a full queue gives up one oldest chat message for a new key. *)
Theorem enqueue_functional now r q :
  let '(ok, q') := enqueue now r q in
  if ok then
    mint (qLatest q') (rKey r) = succ_u64 (qSequence q) /\
    qPending q' !! rKey r = Some (r <| rSequence := succ_u64 (qSequence q) |>
      <| rAttempts := 0 |> <| rQueuedAt := now |> <| rNextTryAt := now + 250000000 |>) /\
    ((forall k, k <> rKey r -> qPending q' !! k = qPending q !! k) \/
     (256 <= mlen (qPending q) /\ qPending q !! rKey r = None /\
      exists victim c, qPending q !! victim = Some c /\ rEventType c = evChat /\
        (forall k c', qPending q !! k = Some c' -> rEventType c' = evChat ->
           rQueuedAt c <= rQueuedAt c') /\
        qPending q' !! victim = None /\
        (forall k, k <> rKey r -> k <> victim -> qPending q' !! k = qPending q !! k)))
  else
    q' = q /\
    (qStopped q = true \/
     (qPending q !! rKey r = None /\ 256 <= mlen (qPending q) /\
      forall k c, qPending q !! k = Some c -> rEventType c <> evChat)).
Proof.
  destruct (enqueue now r q) as [[] q'] eqn:E.
  - destruct (enqueue_true _ _ _ _ E) as (_ & q1 & Hroom & Hp & Hl & _).
    rewrite Hp, Hl. unfold mread. rewrite !lookup_insert_eq. simpl.
    split; [done|]. split; [done|].
    unfold make_room in Hroom. destruct (qPending q !! rKey r) eqn:Hk; simpl in Hroom.
    { left. simplify_eq. intros k Hne. by rewrite lookup_insert_ne. }
    destruct (Z.leb_spec maxWorkerEventRetryPending (mlen (qPending q))) as [Hfull|].
    2:{ left. simplify_eq. intros k Hne. by rewrite lookup_insert_ne. }
    right. split; [done|]. split; [done|].
    destruct (dropOldestChat_forget _ _ Hroom) as (v & c & -> & Hv & Hc & Hmin).
    exists v, c. split; [done|]. split; [done|]. split; [done|]. simpl.
    split.
    + rewrite lookup_insert_ne by congruence. apply lookup_delete_eq.
    + intros k Hk1 Hk2. rewrite lookup_insert_ne by done. by rewrite lookup_delete_ne.
  - unfold enqueue in E. destruct (qStopped q) eqn:Hst; [simplify_eq; auto|].
    destruct (make_room (rKey r) q) as [q1|] eqn:Hroom; [done|]. simplify_eq.
    split; [done|]. right. unfold make_room in Hroom.
    destruct (qPending q' !! rKey r); simpl in Hroom; [done|].
    destruct (Z.leb_spec maxWorkerEventRetryPending (mlen (qPending q'))); [|done].
    split; [done|]. split; [done|]. by apply dropOldestChat_None.
Qed.

(** Newest wins. Once a newer report of the same key is accepted, every
    settlement of the older one (delivered, dropped, put back) leaves the
    queue as it is, and [isLatest] is false of it, so a stale delivery can
    neither erase nor delay the newer state. *)
Theorem newest_report_wins now later r old q q' :
  enqueue now r q = (true, q') ->
  rKey old = rKey r -> rSequence old <> succ_u64 (qSequence q) ->
  isLatest old q' = false /\ markDelivered old q' = q' /\ markDropped old q' = q' /\
  requeue later old q' = q'.
Proof.
  intros (_ & q1 & _ & _ & Hl & _)%enqueue_true Hk Hs.
  assert ((mint (qLatest q') (rKey old) =? rSequence old) = false) as E.
  { apply Z.eqb_neq. rewrite Hl, Hk. unfold mread. rewrite lookup_insert_eq. simpl. congruence. }
  unfold isLatest, markDelivered, markDropped, requeue. rewrite E. simpl.
  rewrite andb_false_r, orb_true_r. done.
Qed.

(** [next] hands out an oldest due report and removes it; when nothing is
    due it answers the time left to an earliest next try; it answers "idle"
    only for an empty queue. *)
Theorem next_functional now later q :
  queue_wf q ->
  match next now later q with
  | (NextReady r, q') =>
      qPending q !! rKey r = Some r /\ q' = q <| qPending ::= delete (rKey r) |> /\
      rNextTryAt r <= Z.max 0 now /\
      (forall k r', qPending q !! k = Some r' -> is_due now (k, r') = true ->
         rQueuedAt r <= rQueuedAt r')
  | (NextWait w, q') =>
      q' = q /\
      exists k r, qPending q !! k = Some r /\ w = Sub (rNextTryAt r) later /\
        now < rNextTryAt r /\
        (forall k' r', qPending q !! k' = Some r' ->
           now < rNextTryAt r' /\ rNextTryAt r <= rNextTryAt r')
  | (NextIdle, q') => q' = q /\ qPending q = ∅
  end.
Proof.
  intros Hq. destruct (next now later q) as [[r|w|] q'] eqn:E.
  - destruct (next_ready _ _ _ _ _ Hq E) as (Hr & -> & Hd & Hmin).
    split; [done|]. split; [done|]. split; [|done].
    unfold is_due, IsZero, After in Hd. simpl in Hd.
    apply orb_true_iff in Hd as [Hd|Hd]; bool_hyps; lia.
  - unfold next in E. destruct (oldest (is_due now) _ _) as [[k r]|] eqn:E1;
      [discriminate|].
    destruct (oldest (fun kr => negb _) _ _) as [[k r]|] eqn:E2; simplify_eq.
    split; [done|].
    assert (forall k' r', qPending q' !! k' = Some r' -> is_due now (k', r') = false) as Hnd.
    { intros k' r' Hr'. apply (oldest_None _ _ _ E1). by apply elem_of_range. }
    assert (forall k' r', qPending q' !! k' = Some r' -> now < rNextTryAt r') as Hlater.
    { intros k' r' Hr'. specialize (Hnd _ _ Hr'). unfold is_due, After in Hnd.
      simpl in Hnd. bool_hyps. lia. }
    destruct (oldest_Some _ _ _ _ E2) as (Hin%elem_of_range & _ & Hmin).
    exists k, r. split; [done|]. split; [done|]. split; [by eapply Hlater|].
    intros k' r' Hr'. split; [by eapply Hlater|].
    apply (Hmin (k', r')); [by apply elem_of_range|]. by rewrite (Hnd _ _ Hr').
  - unfold next in E. destruct (oldest (is_due now) _ _) as [[k r]|] eqn:E1;
      [discriminate|].
    destruct (oldest (fun kr => negb _) _ _) as [[k r]|] eqn:E2; simplify_eq. split; [done|].
    apply map_empty. intros k. destruct (qPending q' !! k) as [r|] eqn:Hr; [|done].
    apply elem_of_range in Hr.
    pose proof (oldest_None _ _ _ E1 _ Hr). pose proof (oldest_None _ _ _ E2 _ Hr) as Hn.
    simpl in Hn. bool_hyps. congruence.
Qed.
End Properties.

Lemma requeue_delay_loop_spec n : forall k,
  (k <= 3)%nat ->
  requeue_delay_loop n (workerEventRetryBase * 2 ^ Z.of_nat k)
  = Z.min workerEventRetryMax (workerEventRetryBase * 2 ^ (Z.of_nat k + Z.of_nat n)).
Proof.
  induction n as [|n IH]; intros k Hk.
  - rewrite Z.add_0_r. simpl.
    destruct k as [|[|[|[|k]]]]; [reflexivity..|lia].
  - cbn [requeue_delay_loop].
    assert (dbl (workerEventRetryBase * 2 ^ Z.of_nat k)
            = workerEventRetryBase * 2 ^ Z.of_nat (S k)) as ->.
    { destruct k as [|[|[|[|k]]]]; [reflexivity..|lia]. }
    destruct (decide (k = 3%nat)) as [->|Hne].
    + change (workerEventRetryMax <=? _) with true. cbn match.
      rewrite Z.min_l; [done|].
      assert (2 ^ 4 <= 2 ^ (Z.of_nat 3 + Z.of_nat (S n))) by (apply Z.pow_le_mono_r; lia).
      unfold workerEventRetryMax, workerEventRetryBase, Second, Millisecond. lia.
    + assert ((workerEventRetryMax <=? workerEventRetryBase * 2 ^ Z.of_nat (S k)) = false) as ->.
      { destruct k as [|[|[|k]]]; [reflexivity..|lia]. }
      rewrite IH by lia. do 3 f_equal. lia.
Qed.

(** The back-off before attempt [a+1] of a failed report is 250 ms doubled
    [a-1] times and capped at 3 s: the loop with its early exit computes the
    closed form, without overflow however large the attempt count. *)
Theorem requeue_delay_closed_form a :
  1 <= a -> requeue_delay a = Z.min (3 * Second) (250 * Millisecond * 2 ^ (a - 1)).
Proof.
  intros Ha. unfold requeue_delay.
  pose proof (requeue_delay_loop_spec (Z.to_nat (a - 1)) 0) as Hl.
  change (workerEventRetryBase * 2 ^ Z.of_nat 0) with workerEventRetryBase in Hl.
  rewrite Hl by lia. unfold workerEventRetryMax. do 3 f_equal. lia.
Qed.

Lemma requeue_delay_closed_form_witness :
  requeue_delay 4 = 2 * Second /\ requeue_delay 90 = 3 * Second.
Proof.
  split.
  - rewrite (requeue_delay_closed_form 4); [reflexivity|lia].
  - rewrite (requeue_delay_closed_form 90); [reflexivity|lia].
Defined.

(** ** Witnesses on a concrete run *)
Module Sample.
#[local] Existing Instance canonical_range.

Definition job : VoiceJob :=
  mkVoiceJob "guild" "voice" "text" 1 "stream" "" "" "" "" "http://worker" "token" 0 0 0 false 1.

Definition report (key kind : string) : workerEventRetryReport :=
  mkReport key kind job 1 [] 0 "" "" false zeroChatMessage 0 0 0 0 None.

Definition q1 : Queue := (enqueue 10 (report "a" evChat) newWorkerEventRetryQueue).2.
Definition q2 : Queue := (enqueue 11 (report "b" evParticipants) q1).2.
Definition popped : workerEventRetryReport :=
  (report "a" evChat) <| rSequence := 1 |> <| rQueuedAt := 10 |> <| rNextTryAt := 250000010 |>.
Definition q3 : Queue := q2 <| qPending ::= delete "a" |>.

Lemma run : qrun (QSys q3 (Some popped)) 2 1.
Proof.
  apply (qrun_step (QSys q2 None) QPop _ 2 0).
  - apply (qrun_step (QSys q1 None) QEnqueue _ 1 0).
    + apply (qrun_step qsys_init QEnqueue _ 0 0); [constructor|].
      by apply (qs_enqueue _ _ 10 (report "a" evChat)).
    + by apply (qs_enqueue _ _ 11 (report "b" evParticipants)).
  - apply (qs_pop _ 250000010 250000010). vm_compute. reflexivity.
Defined.

Lemma q2_wf : queue_wf q2.
Proof. apply enqueue_wf, enqueue_wf, new_wf. Qed.

Lemma retry_run_invariant_witness :
  qrun (QSys q3 (Some popped)) 2 1 /\ mlen (qPending q3) + 1 <= 257.
Proof.
  split; [exact run|]. exact (proj1 (retry_run_invariant _ _ _ run)).
Defined.

Lemma retry_deliveries_bounded_witness :
  qrun (QSys q3 (Some popped)) 2 1 /\ 1 <= maxWorkerEventRetryAttempts * 2.
Proof. split; [exact run|]. exact (retry_deliveries_bounded _ _ _ run). Defined.

(** A report popped before a newer one of its key is accepted. *)
Lemma newest_report_wins_witness :
  isLatest popped (enqueue 12 (report "a" evChat) q3).2 = false /\
  requeue 13 popped (enqueue 12 (report "a" evChat) q3).2
  = (enqueue 12 (report "a" evChat) q3).2.
Proof.
  destruct (newest_report_wins 12 13 (report "a" evChat) popped q3
    (enqueue 12 (report "a" evChat) q3).2) as (? & _ & _ & ?);
    [vm_compute; reflexivity|reflexivity|vm_compute; congruence|].
  split; assumption.
Defined.

Lemma next_functional_witness :
  next 10 11 q2 = (NextWait 249999999, q2) /\
  exists k r, qPending q2 !! k = Some r /\ 249999999 = Sub (rNextTryAt r) 11.
Proof.
  assert (next 10 11 q2 = (NextWait 249999999, q2)) as E by (vm_compute; reflexivity).
  pose proof (next_functional 10 11 q2 q2_wf) as Hn. rewrite E in Hn.
  split; [exact E|]. destruct Hn as (_ & k & r & Hr & Hw & _). exists k, r. split; assumption.
Defined.

(** A report that comes due between the two clock readings of [next] leaves
    the loop blocked with no timer although the report is pending. *)
Lemma next_lost_timer :
  exists w, next 250000009 250000010 q1 = (NextWait w, q1) /\
    loop_choice (NextWait w) = LoopBlock /\ mlen (qPending q1) = 1.
Proof. exists 0. vm_compute. done. Qed.
End Sample.
