(* ===== verification/Utf8.v ===== *)
(** * Utf8: [[]rune(s)] and [string(runes)]

    Go decodes a string into code points by the UTF-8 rules, taking each byte
    that starts no valid encoding as one U+FFFD.  [runes] keeps every code
    point as its encoding, so [string(runes[:n])] is the concatenation of the
    first [n] of them. *)

From S2P Require Import Prelude.

Definition in_range (lo hi : N) (a : ascii) : bool := ((lo <=? byteN a) && (byteN a <=? hi))%N.
Definition cont (a : ascii) : bool := in_range 128 191 a.

Definition utf8_2 (a b : ascii) : bool := in_range 194 223 a && cont b.

Definition utf8_3 (a b c : ascii) : bool :=
  (in_range 224 224 a && in_range 160 191 b
   || in_range 225 236 a && cont b
   || in_range 237 237 a && in_range 128 159 b
   || in_range 238 239 a && cont b) && cont c.

Definition utf8_4 (a b c d : ascii) : bool :=
  (in_range 240 240 a && in_range 144 191 b
   || in_range 241 243 a && cont b
   || in_range 244 244 a && in_range 128 143 b) && cont c && cont d.

(** The encoding of U+FFFD. *)
Definition rune_error : list ascii := ["239"; "191"; "189"]%char.

Fixpoint runes_bytes (l : list ascii) : list (list ascii) :=
  match l with
  | [] => []
  | a :: r1 =>
      if (byteN a <? 128)%N then [a] :: runes_bytes r1 else
      match r1 with
      | [] => [rune_error]
      | b :: r2 =>
          if utf8_2 a b then [a; b] :: runes_bytes r2 else
          match r2 with
          | [] => rune_error :: runes_bytes r1
          | c :: r3 =>
              if utf8_3 a b c then [a; b; c] :: runes_bytes r3 else
              match r3 with
              | [] => rune_error :: runes_bytes r1
              | d :: r4 =>
                  if utf8_4 a b c d then [a; b; c; d] :: runes_bytes r4
                  else rune_error :: runes_bytes r1
              end
          end
      end
  end.

Definition runes (s : string) : list (list ascii) := runes_bytes (list_ascii_of_string s).

(** [string(rs)] *)
Definition string_of_runes (rs : list (list ascii)) : string :=
  string_of_list_ascii (List.concat rs).

(** [utf8.RuneCountInString], [len([]rune(s))] *)
Definition rune_count (s : string) : Z := Z.of_nat (length (runes s)).

Definition valid_rune (r : list ascii) : bool :=
  match r with
  | [a] => (byteN a <? 128)%N
  | [a; b] => utf8_2 a b
  | [a; b; c] => utf8_3 a b c
  | [a; b; c; d] => utf8_4 a b c d
  | _ => false
  end.

Lemma in_range_spec lo hi a : in_range lo hi a = true <-> (lo <= byteN a <= hi)%N.
Proof. unfold in_range. rewrite andb_true_iff, !N.leb_le. lia. Qed.

Lemma runes_valid l : Forall (fun r => valid_rune r = true) (runes_bytes l).
Proof.
  induction l as [l IH] using bytes_ind.
  destruct l as [|a r1]; simpl; [constructor|].
  destruct (byteN a <? 128)%N eqn:E1; [constructor; [done|apply IH; simpl; lia]|].
  destruct r1 as [|b r2]; [by repeat constructor|].
  destruct (utf8_2 a b) eqn:E2; [constructor; [done|apply IH; simpl; lia]|].
  destruct r2 as [|c r3]; [constructor; [done|apply IH; simpl; lia]|].
  destruct (utf8_3 a b c) eqn:E3; [constructor; [done|apply IH; simpl; lia]|].
  destruct r3 as [|d r4]; [constructor; [done|apply IH; simpl; lia]|].
  destruct (utf8_4 a b c d) eqn:E4; constructor; (done || (apply IH; simpl; lia)).
Qed.

Lemma high_start_2 a b : utf8_2 a b = true -> (byteN a <? 128)%N = false.
Proof. unfold utf8_2. rewrite andb_true_iff, in_range_spec, N.ltb_ge. lia. Qed.

Lemma start_3 a b c : utf8_3 a b c = true -> (byteN a <? 128)%N = false /\ utf8_2 a b = false.
Proof.
  unfold utf8_3, utf8_2. intros [H _]%andb_true_iff.
  assert (224 <= byteN a)%N.
  { rewrite !orb_true_iff, !andb_true_iff, !in_range_spec in H. lia. }
  split; [apply N.ltb_ge; lia|].
  apply andb_false_iff. left. apply not_true_iff_false. rewrite in_range_spec. lia.
Qed.

Lemma start_4 a b c d :
  utf8_4 a b c d = true ->
  (byteN a <? 128)%N = false /\ utf8_2 a b = false /\ utf8_3 a b c = false.
Proof.
  unfold utf8_4. rewrite !andb_true_iff. intros [[H _] _].
  assert (240 <= byteN a)%N.
  { rewrite !orb_true_iff, !andb_true_iff, !in_range_spec in H. lia. }
  split; [apply N.ltb_ge; lia|].
  split; apply not_true_iff_false.
  - unfold utf8_2. rewrite andb_true_iff, in_range_spec. lia.
  - unfold utf8_3. rewrite andb_true_iff, !orb_true_iff, !andb_true_iff, !in_range_spec. lia.
Qed.

(** Decoding the encodings of valid code points gives them back. *)
Lemma runes_concat rs :
  Forall (fun r => valid_rune r = true) rs -> runes_bytes (List.concat rs) = rs.
Proof.
  induction 1 as [|r rs Hr _ IH]; [done|].
  destruct r as [|a [|b [|c [|d [|]]]]]; try discriminate Hr; simpl in Hr |- *.
  - by rewrite Hr, IH.
  - by rewrite (high_start_2 _ _ Hr), Hr, IH.
  - destruct (start_3 _ _ _ Hr) as [-> ->]. by rewrite Hr, IH.
  - destruct (start_4 _ _ _ _ Hr) as (-> & -> & ->). by rewrite Hr, IH.
Qed.

Lemma runes_of_string_of_runes rs :
  Forall (fun r => valid_rune r = true) rs -> runes (string_of_runes rs) = rs.
Proof.
  intros H. unfold runes, string_of_runes.
  rewrite list_ascii_of_string_of_list_ascii. by apply runes_concat.
Qed.

Lemma rune_count_take n s :
  rune_count (string_of_runes (take n (runes s))) <= Z.of_nat n.
Proof.
  unfold rune_count. rewrite runes_of_string_of_runes; [rewrite length_take; lia|].
  apply Forall_take, runes_valid.
Qed.

(** ** Trimming never adds code points *)

Lemma no_cont_2 a b : cont b = false -> utf8_2 a b = false.
Proof. intros Hb. unfold utf8_2. by rewrite Hb, andb_false_r. Qed.

Lemma range_cont lo hi b :
  (128 <= lo)%N -> (hi <= 191)%N -> cont b = false -> in_range lo hi b = false.
Proof.
  intros Hlo Hhi Hb. apply not_true_iff_false. rewrite in_range_spec. intros Hr.
  apply not_true_iff_false in Hb. apply Hb. unfold cont. apply in_range_spec. lia.
Qed.

Lemma no_cont_3 a b c : cont b = false \/ cont c = false -> utf8_3 a b c = false.
Proof.
  unfold utf8_3. intros [Hb|Hc]; [|by rewrite Hc, andb_false_r].
  rewrite Hb, (range_cont 160 191 b), (range_cont 128 159 b) by (done || lia).
  by rewrite !andb_false_r.
Qed.

Lemma no_cont_4 a b c d :
  cont b = false \/ cont c = false \/ cont d = false -> utf8_4 a b c d = false.
Proof.
  unfold utf8_4. intros [Hb|[Hc|Hd]]; [|by rewrite Hc, andb_false_r|by rewrite Hd, andb_false_r].
  rewrite Hb, (range_cont 144 191 b), (range_cont 128 143 b) by (done || lia).
  by rewrite !andb_false_r.
Qed.

(** Decoding splits before a byte that continues nothing. *)
Lemma runes_app p q0 q :
  cont q0 = false -> runes_bytes (p ++ q0 :: q) = (runes_bytes p ++ runes_bytes (q0 :: q))%list.
Proof.
  intros Hq. induction p as [p IH] using bytes_ind.
  destruct p as [|a r1]; [done|].
  assert (runes_bytes (r1 ++ q0 :: q) = (runes_bytes r1 ++ runes_bytes (q0 :: q))%list) as IH1
    by (apply IH; simpl; lia).
  destruct r1 as [|b r2].
  { cbn [app runes_bytes] in *. destruct (byteN a <? 128)%N; [done|].
    rewrite (no_cont_2 a q0 Hq). destruct q as [|c q]; [done|].
    rewrite (no_cont_3 a q0 c) by auto. destruct q as [|d q]; [done|].
    by rewrite (no_cont_4 a q0 c d) by auto. }
  assert (runes_bytes (r2 ++ q0 :: q) = (runes_bytes r2 ++ runes_bytes (q0 :: q))%list) as IH2
    by (apply IH; simpl; lia).
  destruct r2 as [|c r3].
  { change (([a; b] ++ q0 :: q)%list) with (a :: b :: q0 :: q).
    change (([b] ++ q0 :: q)%list) with (b :: q0 :: q) in IH1.
    cbn [runes_bytes] in *.
    destruct (byteN a <? 128)%N; [by rewrite IH1|].
    destruct (utf8_2 a b); [done|].
    rewrite (no_cont_3 a b q0) by auto. destruct q as [|d q]; [by rewrite IH1|].
    rewrite (no_cont_4 a b q0 d) by auto. by rewrite IH1. }
  assert (runes_bytes (r3 ++ q0 :: q) = (runes_bytes r3 ++ runes_bytes (q0 :: q))%list) as IH3
    by (apply IH; simpl; lia).
  destruct r3 as [|d r4].
  { change (([a; b; c] ++ q0 :: q)%list) with (a :: b :: c :: q0 :: q).
    change (([b; c] ++ q0 :: q)%list) with (b :: c :: q0 :: q) in IH1.
    change (([c] ++ q0 :: q)%list) with (c :: q0 :: q) in IH2.
    remember (runes_bytes (b :: c :: q0 :: q)) as x1. remember (runes_bytes (c :: q0 :: q)) as x2.
    remember (runes_bytes (q0 :: q)) as x3. remember (runes_bytes [b; c]) as y1.
    remember (runes_bytes [c]) as y2.
    assert (runes_bytes (a :: b :: c :: q0 :: q) =
      if (byteN a <? 128)%N then [a] :: x1 else if utf8_2 a b then [a; b] :: x2
      else if utf8_3 a b c then [a; b; c] :: x3 else if utf8_4 a b c q0 then [a; b; c; q0] :: runes_bytes q
      else rune_error :: x1) as -> by (subst; reflexivity).
    assert (runes_bytes [a; b; c] =
      if (byteN a <? 128)%N then [a] :: y1 else if utf8_2 a b then [a; b] :: y2
      else if utf8_3 a b c then [[a; b; c]] else rune_error :: y1) as -> by (subst; reflexivity).
    rewrite (no_cont_4 a b c q0) by auto. rewrite IH1, IH2.
    by destruct (byteN a <? 128)%N, (utf8_2 a b), (utf8_3 a b c). }
  assert (runes_bytes (r4 ++ q0 :: q) = (runes_bytes r4 ++ runes_bytes (q0 :: q))%list) as IH4
    by (apply IH; simpl; lia).
  change (((a :: b :: c :: d :: r4) ++ q0 :: q)%list) with (a :: b :: c :: d :: (r4 ++ q0 :: q)%list).
  change (((b :: c :: d :: r4) ++ q0 :: q)%list) with (b :: c :: d :: (r4 ++ q0 :: q)%list) in IH1.
  change (((c :: d :: r4) ++ q0 :: q)%list) with (c :: d :: (r4 ++ q0 :: q)%list) in IH2.
  change (((d :: r4) ++ q0 :: q)%list) with (d :: (r4 ++ q0 :: q)%list) in IH3.
  assert (forall t, runes_bytes (a :: b :: c :: d :: t) =
    if (byteN a <? 128)%N then [a] :: runes_bytes (b :: c :: d :: t)
    else if utf8_2 a b then [a; b] :: runes_bytes (c :: d :: t)
    else if utf8_3 a b c then [a; b; c] :: runes_bytes (d :: t)
    else if utf8_4 a b c d then [a; b; c; d] :: runes_bytes t
    else rune_error :: runes_bytes (b :: c :: d :: t)) as E by reflexivity.
  rewrite (E (r4 ++ q0 :: q)%list), (E r4), IH1, IH2, IH3, IH4.
  by destruct (byteN a <? 128)%N, (utf8_2 a b), (utf8_3 a b c), (utf8_4 a b c d).
Qed.

Lemma space1_ascii a : space1 a = true -> (byteN a <? 128)%N = true /\ cont a = false.
Proof.
  unfold space1, cont. rewrite orb_true_iff, andb_true_iff, !N.leb_le, N.eqb_eq. intros Ha.
  split; [apply N.ltb_lt; lia|]. apply not_true_iff_false. rewrite in_range_spec. lia.
Qed.

Lemma space2_utf8 a b : space2 a b = true -> utf8_2 a b = true /\ cont a = false.
Proof.
  unfold space2, utf8_2, cont. rewrite !andb_true_iff, orb_true_iff, !N.eqb_eq, !in_range_spec.
  intros Ha. split; [lia|]. apply not_true_iff_false. rewrite in_range_spec. lia.
Qed.

Lemma space3_utf8 a b c : space3 a b c = true -> utf8_3 a b c = true /\ cont a = false.
Proof.
  unfold space3, utf8_3, cont.
  rewrite !orb_true_iff, !andb_true_iff, !orb_true_iff, !andb_true_iff, !N.eqb_eq, !N.leb_le,
    !in_range_spec.
  intros Ha. split; [lia|]. apply not_true_iff_false. rewrite in_range_spec. lia.
Qed.

Abbreviation count l := (length (runes_bytes l)).

Lemma count_skip_front l : (count (skip_space true l) <= count l)%nat.
Proof.
  induction l as [l IH] using bytes_ind.
  destruct l as [|a r1]; [done|]. cbn [skip_space].
  destruct (space1 a) eqn:E1.
  { apply space1_ascii in E1 as [E1 _]. cbn [runes_bytes]. rewrite E1. cbn [length].
    etrans; [apply IH; simpl; lia|]. lia. }
  destruct r1 as [|b r2]; [done|].
  destruct (space2 a b) eqn:E2.
  { apply space2_utf8 in E2 as [E2 _]. cbn [runes_bytes].
    rewrite (high_start_2 _ _ E2), E2. cbn [length]. etrans; [apply IH; simpl; lia|]. lia. }
  destruct r2 as [|c r3]; [done|].
  destruct (space3 a b c) eqn:E3; [|done].
  apply space3_utf8 in E3 as [E3 _]. cbn [runes_bytes].
  destruct (start_3 _ _ _ E3) as [-> ->]. rewrite E3. cbn [length].
  etrans; [apply IH; simpl; lia|]. lia.
Qed.

Lemma count_skip_back r : (count (rev (skip_space false r)) <= count (rev r))%nat.
Proof.
  induction r as [r IH] using bytes_ind.
  destruct r as [|a r1]; [done|]. cbn [skip_space].
  destruct (space1 a) eqn:E1.
  { apply space1_ascii in E1 as [_ E1]. simpl rev at 2. rewrite runes_app, length_app by done.
    etrans; [apply IH; simpl; lia|]. lia. }
  destruct r1 as [|b r2]; [done|].
  destruct (space2 b a) eqn:E2.
  { apply space2_utf8 in E2 as [_ E2]. simpl rev at 2. rewrite <- app_assoc. simpl app.
    rewrite runes_app, length_app by done. etrans; [apply IH; simpl; lia|]. lia. }
  destruct r2 as [|c r3]; [done|].
  destruct (space3 c b a) eqn:E3; [|done].
  apply space3_utf8 in E3 as [_ E3]. simpl rev at 2. rewrite <- !app_assoc. simpl app.
  rewrite runes_app, length_app by done. etrans; [apply IH; simpl; lia|]. lia.
Qed.

Lemma rune_count_TrimSpace s : rune_count (TrimSpace s) <= rune_count s.
Proof.
  unfold rune_count, runes, TrimSpace. rewrite list_ascii_of_string_of_list_ascii.
  unfold trim_bytes. apply inj_le. etrans; [apply count_skip_back|].
  rewrite rev_involutive. apply count_skip_front.
Qed.
