(* ===== verification/Urls.v ===== *)
(** * Urls: escaping and joining of URL texts

    What the HTTP clients and handlers use of [net/url] and [strings] on the
    bytes of a URL: [url.PathEscape], [url.QueryEscape], trimming of slashes,
    and the joining of a base URL with an endpoint
    ([internal/worker/client.go]). *)

From S2P Require Import Prelude.

Definition upper_hex (n : N) : ascii :=
  if (n <? 10)%N then ascii_of_N (48 + n) else ascii_of_N (55 + n).

(** [%XX] *)
Definition percent (a : ascii) : string :=
  String "%" (String (upper_hex (byteN a / 16)) (String (upper_hex (byteN a mod 16)) "")).

Definition alphanumeric (a : ascii) : bool :=
  let n := byteN a in
  ((97 <=? n) && (n <=? 122) || (65 <=? n) && (n <=? 90) || (48 <=? n) && (n <=? 57))%N.

(** Letters, digits and the marks [- _ . ~] are never escaped. *)
Definition unreserved (a : ascii) : bool :=
  alphanumeric a
  || let n := byteN a in ((n =? 45) || (n =? 95) || (n =? 46) || (n =? 126))%N.

(** [$ & + : = @] are allowed in a path segment. *)
Definition segment_char (a : ascii) : bool :=
  unreserved a
  || let n := byteN a in
     ((n =? 36) || (n =? 38) || (n =? 43) || (n =? 58) || (n =? 61) || (n =? 64))%N.

(** [url.PathEscape] *)
Fixpoint PathEscape (s : string) : string :=
  match s with
  | EmptyString => ""
  | String a r => (if segment_char a then String a "" else percent a) ++ PathEscape r
  end.

(** [url.QueryEscape] *)
Fixpoint QueryEscape (s : string) : string :=
  match s with
  | EmptyString => ""
  | String a r =>
      (if unreserved a then String a ""
       else if (byteN a =? 32)%N then "+" else percent a) ++ QueryEscape r
  end.

(** [url.PathUnescape]; [None] for an error. *)
Definition hex_value (a : ascii) : option N :=
  let n := byteN a in
  if ((48 <=? n) && (n <=? 57))%N then Some (n - 48)%N
  else if ((65 <=? n) && (n <=? 70))%N then Some (n - 55)%N
  else if ((97 <=? n) && (n <=? 102))%N then Some (n - 87)%N
  else None.

Fixpoint unescape (l : list ascii) : option (list ascii) :=
  match l with
  | [] => Some []
  | "%"%char :: a :: b :: r =>
      h ← hex_value a; k ← hex_value b; rest ← unescape r; Some (ascii_of_N (16 * h + k) :: rest)
  | "%"%char :: _ => None
  | a :: r => rest ← unescape r; Some (a :: rest)
  end.

(** [(url.URL).EscapedPath] of a URL with this [Path] and [RawPath]: the raw path
    when it is an encoding of the path, else the default one. *)
Definition valid_encoded_char (a : ascii) : bool :=
  segment_char a || existsb (Ascii.eqb a) ["!"; "'"; "("; ")"; "*"; ","; ";"; "["; "]"; "/"; "%"]%char.

Fixpoint escape_path (s : string) : string :=
  match s with
  | EmptyString => ""
  | String a r =>
      (if segment_char a || existsb (Ascii.eqb a) ["/"; ";"; ","]%char then String a "" else percent a)
      ++ escape_path r
  end.

Definition EscapedPath (path rawPath : string) : string :=
  if (rawPath <>s "") && forallb valid_encoded_char (list_ascii_of_string rawPath)
     && bool_decide (unescape (list_ascii_of_string rawPath) = Some (list_ascii_of_string path))
  then rawPath
  else if path =s "*" then "*" else escape_path path.

(** A parsed URL: the parts the code reads; [guQuery] is [Query().Get]. *)
Record GoURL := mkGoURL {
  guScheme : string;
  guHost : string;
  guUser : bool;
  guHostname : string;
  guPort : string;
  guPath : string;
  guRawQuery : string;
  guFragment : string;
  guQuery : string -> string }.

(** The [RawPath] of a URL, and its text around an escaped path
    ([(url.URL).String]). *)
Class URLText := { url_raw_path : GoURL -> string; url_text : GoURL -> string -> string }.

(** [url.Parse] *)
Class URLParse := url_parse : string -> option GoURL.

Fixpoint string_forall (p : ascii -> bool) (s : string) : bool :=
  match s with EmptyString => true | String a r => p a && string_forall p r end.

(** [strings.TrimLeft(s, "/")], [TrimRight] and [Trim]. *)
Fixpoint TrimLeftSlash (s : string) : string :=
  match s with
  | EmptyString => ""
  | String a r => if Ascii.eqb a "/" then TrimLeftSlash r else s
  end.

Fixpoint TrimRightSlash (s : string) : string :=
  match s with
  | EmptyString => ""
  | String a r =>
      let r := TrimRightSlash r in
      if Ascii.eqb a "/" && (r =s "") then "" else String a r
  end.

Definition TrimSlash (s : string) : string := TrimRightSlash (TrimLeftSlash s).

(** [strings.Trim] with a predicate for the cutset. *)
Fixpoint trim_left (p : ascii -> bool) (s : string) : string :=
  match s with String a r => if p a then trim_left p r else s | EmptyString => "" end.

Fixpoint trim_right (p : ascii -> bool) (s : string) : string :=
  match s with
  | EmptyString => ""
  | String a r => let r := trim_right p r in if p a && (r =s "") then "" else String a r
  end.

Definition trim (p : ascii -> bool) (s : string) : string := trim_right p (trim_left p s).

(** [strings.ToLower] as far as it can give ASCII: besides the ASCII letters,
    U+212A is lowered to [k] and U+0130 to [i]. *)
Fixpoint lower_bytes (l : list ascii) : list ascii :=
  match l with
  | [] => []
  | a :: rest =>
      match rest with
      | b :: rest1 =>
          if ((byteN a =? 196) && (byteN b =? 176))%N then "i"%char :: lower_bytes rest1
          else
            match rest1 with
            | c :: rest2 =>
                if ((byteN a =? 226) && (byteN b =? 132) && (byteN c =? 170))%N
                then "k"%char :: lower_bytes rest2
                else lower_ascii a :: lower_bytes rest
            | [] => lower_ascii a :: lower_bytes rest
            end
      | [] => [lower_ascii a]
      end
  end.

Definition bracket (a : ascii) : bool := Ascii.eqb a "[" || Ascii.eqb a "]".

(** [joinURL] *)
Definition joinURL (baseURL endpoint : string) : string :=
  TrimRightSlash baseURL ++ "/" ++ TrimLeftSlash endpoint.

(** ** Facts *)

Lemma append_cons a (s t : string) : String a s ++ t = String a (s ++ t).
Proof. reflexivity. Qed.

Lemma string_forall_app p a b : string_forall p (a ++ b) = string_forall p a && string_forall p b.
Proof. induction a as [|x a IH]; [done|]. rewrite append_cons. simpl. by rewrite IH, andb_assoc. Qed.

Lemma QueryEscape_unreserved s : string_forall unreserved s = true -> QueryEscape s = s.
Proof.
  induction s as [|a s IH]; simpl; [done|]. intros [Ha Hs]%andb_prop. by rewrite Ha, append_cons, IH.
Qed.

(** A byte of an escaped path: nothing that delimits segments, query or fragment. *)
Definition escaped_char (a : ascii) : bool := segment_char a || Ascii.eqb a "%".

Lemma upper_hex_alphanumeric n : (n < 16)%N -> alphanumeric (upper_hex n) = true.
Proof.
  intros Hn. unfold upper_hex, alphanumeric, byteN.
  destruct (N.ltb_spec n 10); rewrite N_ascii_embedding by lia; apply orb_true_iff.
  - right. apply andb_true_intro. split; apply N.leb_le; lia.
  - left. apply orb_true_iff. right. apply andb_true_intro. split; apply N.leb_le; lia.
Qed.

Lemma percent_escaped a : string_forall escaped_char (percent a) = true.
Proof.
  assert (byteN a < 256)%N as Ha by apply N_ascii_bounded.
  assert (byteN a / 16 < 16)%N as H1 by (apply N.Div0.div_lt_upper_bound; lia).
  assert (byteN a mod 16 < 16)%N as H2 by (by apply N.mod_lt).
  apply upper_hex_alphanumeric in H1, H2. simpl.
  unfold escaped_char, segment_char, unreserved. by rewrite H1, H2.
Qed.

(** Whatever the stream id, an escaped segment cannot leave its place in a path. *)
Lemma PathEscape_escaped s : string_forall escaped_char (PathEscape s) = true.
Proof.
  induction s as [|a s IH]; [done|]. cbn [PathEscape]. rewrite string_forall_app, IH, andb_true_r.
  case_match eqn:E; [|apply percent_escaped]. simpl. unfold escaped_char. by rewrite E.
Qed.

#[export] Hint Resolve PathEscape_escaped : bot.

Lemma append_empty s : s ++ "" = s.
Proof. induction s as [|a s IH]; [done|]. by rewrite append_cons, IH. Qed.

(** No slash in an escaped segment. *)
Lemma PathEscape_slashless id : Forall (fun a => a <> "/"%char) (list_ascii_of_string (PathEscape id)).
Proof.
  pose proof (PathEscape_escaped id) as He. induction (PathEscape id) as [|a s IH]; cbn; constructor.
  - intros ->. done.
  - apply IH. by apply andb_prop in He as [].
Qed.

(** ** Unescaping an escaped segment gives it back *)

Lemma hex_upper n : (n < 16)%N -> hex_value (upper_hex n) = Some n.
Proof. intros Hn. by destruct n as [|p]; [|do 4 (destruct p as [p|p|]; try done; try lia)]. Qed.

Lemma byte_of_digits a : ascii_of_N (16 * (byteN a / 16) + byteN a mod 16) = a.
Proof. unfold byteN. rewrite <- N.div_mod by done. apply ascii_N_embedding. Qed.

Lemma unescape_percent a r :
  unescape (list_ascii_of_string (percent a) ++ r) = (fun rest => a :: rest) <$> unescape r.
Proof.
  assert (byteN a < 256)%N as Ha by apply N_ascii_bounded.
  cbn [percent list_ascii_of_string app unescape].
  rewrite !hex_upper by (try apply N.Div0.div_lt_upper_bound; try apply N.mod_lt; lia).
  simpl. rewrite byte_of_digits. by destruct (unescape r).
Qed.

Lemma unescape_char a r : a <> "%"%char -> unescape (a :: r) = (fun rest => a :: rest) <$> unescape r.
Proof. intros Ha. destruct a as [[] [] [] [] [] [] [] []]; done || by destruct (unescape r). Qed.

Lemma unescape_PathEscape s : unescape (list_ascii_of_string (PathEscape s)) = Some (list_ascii_of_string s).
Proof.
  induction s as [|a s IH]; [done|]. cbn [PathEscape]. rewrite list_ascii_app.
  destruct (segment_char a) eqn:Ea; [cbn [list_ascii_of_string app]; rewrite unescape_char; [|by intros ->]
                                    |rewrite unescape_percent]; by rewrite IH.
Qed.

Lemma unescape_app l r a b : unescape l = Some a -> unescape r = Some b -> unescape (l ++ r) = Some (a ++ b)%list.
Proof.
  revert a. induction l as [l IH] using bytes_ind. intros a Hl Hr. destruct l as [|x l]; [by injection Hl as <-|].
  destruct (decide (x = "%"%char)) as [->|Hx].
  - destruct l as [|h [|k l]]; [done..|]. cbn [app unescape] in *.
    destruct (hex_value h) as [n|]; [|done]. destruct (hex_value k) as [m|]; [|done]. cbn [mbind option_bind] in *.
    destruct (unescape l) as [rest|] eqn:E; [|done]. injection Hl as <-.
    rewrite (IH l) with (a := rest); [done|simpl; lia|done|done].
  - cbn [app]. rewrite unescape_char in Hl |- * by done.
    destruct (unescape l) as [rest|] eqn:E; [|done]. injection Hl as <-.
    rewrite (IH l) with (a := rest); [done|simpl; lia|done|done].
Qed.

Lemma PathEscape_encoded s : forallb valid_encoded_char (list_ascii_of_string (PathEscape s)) = true.
Proof.
  pose proof (PathEscape_escaped s) as He. induction (PathEscape s) as [|a r IH]; [done|].
  cbn in *. apply andb_prop in He as [Ha Hr]. rewrite IH, andb_true_r by done.
  apply orb_true_iff in Ha as [Ha|Ha]; unfold valid_encoded_char; [by rewrite Ha|].
  apply Ascii.eqb_eq in Ha as ->. reflexivity.
Qed.
