(* ===== verification/Manager.v ===== *)
(** * Manager: the state of the job manager and its effects

    [Manager] of [internal/jobs/manager.go] as one record: the fields guarded by
    [m.mu] under their Go names, and the heap the fields point into (contexts,
    auto-start retries, retry queues, notification receipts).  A critical
    section is a function on [Manager]; a method is a [mprog] whose calls
    ([ExtCall]) leave the manager: the Discord client, the event reporter, the
    stream starter and stopper, the runtime-config refresher.  Goroutines and
    entry points are [label]s; [Goroutines] maps a label to its text. *)

From S2P Require Import Prelude Conc Errors Types RetryQueue.

(** ** Data *)

(** The optional interfaces a [discord.Client] may implement. *)
Record VoiceCaps := mkVoiceCaps {
  vcSnapshotSource : bool;    (* ParticipantSnapshotSource *)
  vcPresenceSource : bool;    (* AutoStartVoicePresenceSource *)
  vcTargetSetter : bool }.    (* AutoStartVoiceTargetSetter *)

(** The optional interfaces an [EventReporter] may implement. *)
Record ReporterCaps := mkReporterCaps {
  rcParticipantsContext : bool;
  rcActiveSpeakerContext : bool;
  rcActiveSpeakerState : bool;
  rcChatContext : bool }.

(** A [StreamStopper], and whether it is a [ContextStreamStopper]. *)
Record StopperRef := mkStopperRef { stRef : nat; stContext : bool }.

(** [autoStartRetry]: [cancel] is the context it cancels. *)
Record autoStartRetry := mkRetry {
  arAssignmentEpoch : string;
  arCancel : nat;
  arReconnectGeneration : Z;
  arGuildID : string;
  arVoiceChannelID : string;
  arCapacityBusy : bool }.

Definition eta_retry (r : autoStartRetry) : autoStartRetry :=
  mkRetry (arAssignmentEpoch r) (arCancel r) (arReconnectGeneration r) (arGuildID r)
    (arVoiceChannelID r) (arCapacityBusy r).

#[export] Instance set_arCapacityBusy : Setter arCapacityBusy := ltac:(mk_setter eta_retry).

(** [autoStopInFlight] *)
Record autoStopInFlight := mkInFlight {
  ifAssignmentEpoch : string;
  ifGeneration : Z;
  ifCancel : nat;
  ifJob : VoiceJob }.

(** [autoStopObservation] *)
Record autoStopObservation := mkObservation {
  obReason : string;
  obSource : string;
  obParticipantCount : Z;
  obSnapshotRevision : Z;
  obParticipantStateRevision : Z;
  obReconnectGeneration : Z;
  obAutoStopGeneration : Z;
  obEmptyRevalidationPassed : bool }.

Definition eta_observation (r : autoStopObservation) : autoStopObservation :=
  mkObservation (obReason r) (obSource r) (obParticipantCount r) (obSnapshotRevision r)
    (obParticipantStateRevision r) (obReconnectGeneration r) (obAutoStopGeneration r)
    (obEmptyRevalidationPassed r).

#[export] Instance set_obSnapshotRevision : Setter obSnapshotRevision :=
  ltac:(mk_setter eta_observation).
#[export] Instance set_obParticipantStateRevision : Setter obParticipantStateRevision :=
  ltac:(mk_setter eta_observation).
#[export] Instance set_obEmptyRevalidationPassed : Setter obEmptyRevalidationPassed :=
  ltac:(mk_setter eta_observation).

Definition zeroObservation : autoStopObservation := mkObservation "" "" 0 0 0 0 0 false.

(** [autoStopRejoinIntent] *)
Record autoStopRejoinIntent := mkIntent {
  riAssignmentEpoch : string;
  riGuildID : string;
  riVoiceChannelID : string;
  riSourceStreamID : string;
  riSequence : Z }.

(** [ReconnectPolicy] *)
Record ReconnectPolicy := mkPolicy {
  rpEnabled : bool;
  rpMaxAttempts : Z;
  rpBaseDelay : Duration;
  rpMaxDelay : Duration }.

Definition zeroReconnectPolicy : ReconnectPolicy := mkPolicy false 0 0 0.

(** [notificationReceipt]: [done] is whether the channel is closed. *)
Record notificationReceipt := mkReceipt {
  nrStreamID : string;
  nrPayloadHash : string;
  nrMessageID : string;
  nrErr : option error;
  nrCompletedAt : Time;
  nrDone : bool }.

Definition eta_receipt (r : notificationReceipt) : notificationReceipt :=
  mkReceipt (nrStreamID r) (nrPayloadHash r) (nrMessageID r) (nrErr r) (nrCompletedAt r) (nrDone r).

#[export] Instance set_nrMessageID : Setter nrMessageID := ltac:(mk_setter eta_receipt).
#[export] Instance set_nrErr : Setter nrErr := ltac:(mk_setter eta_receipt).
#[export] Instance set_nrCompletedAt : Setter nrCompletedAt := ltac:(mk_setter eta_receipt).
#[export] Instance set_nrDone : Setter nrDone := ltac:(mk_setter eta_receipt).

(** [participantSnapshotApplyOptions] *)
Record participantSnapshotApplyOptions := mkApplyOptions {
  aoExpectedGeneration : Z;
  aoRequireGeneration : bool;
  aoAuthoritativeReplay : bool;
  aoExpectedStateRevision : Z;
  aoRequireStateRevision : bool }.

Definition noApplyOptions : participantSnapshotApplyOptions := mkApplyOptions 0 false false 0 false.

(** ** The state *)
Record Manager := mkManager {
  mVoice : VoiceCaps;  (* [voice]: the optional interfaces its client implements *)
  mReporter : option ReporterCaps;  (* [reporter], [None] for nil *)
  mStreamStarter : option nat;
  mStreamStopper : option StopperRef;
  mCurrent : VoiceJob;
  mCurrentAssignmentEpoch : string;
  mStopping : bool;
  mDisconnected : bool;
  mDefaults : VoiceDefaults;
  mStreamDefaults : gmap string VoiceDefaults;
  mLastStreamDefaults : gmap string VoiceDefaults;
  mExecutionAuthorityStreams : option (gmap string bool);  (* [None] for the nil map *)
  mAutoStartPending : gmap string Time;
  mAutoStartStopped : gmap string VoiceDefaults;
  mAutoStartRetries : gmap string nat;  (* pointers to [autoStartRetry] *)
  mAutoStopPending : gmap string bool;
  mAutoStopGeneration : gmap string Z;
  mAutoStopAttempts : gmap string Z;
  mAutoStopInFlight : gmap string autoStopInFlight;
  mAutoStopLastAttempt : gmap string Time;
  mRejoinIntents : gmap string autoStopRejoinIntent;
  mRejoinIntentSequence : Z;
  mRejoinReconcileRun : gmap string bool;
  mRejoinReconcileDelay : list Duration;
  mAutoStartCooldown : Duration;
  mAutoStartRetryDelays : list Duration;
  mAutoStopDelay : Duration;
  mAutoStopEmptyConfirmDelay : Duration;
  mAutoStopRetryDelays : list Duration;
  mAutoStopCooldown : Duration;
  mAutoStartRefresher : option nat;
  mAutoStartRefreshAt : Time;
  mAutoStartRefreshWait : Duration;
  mLastAutoStartLogAt : Time;
  mLastAutoStartLogKey : string;
  mReconnectPolicy : ReconnectPolicy;
  mReconnectGeneration : Z;
  mStartedAt : Time;
  mParticipants : gmap string Participant;
  mParticipantSnapshotRevision : Z;
  mParticipantStateRevision : Z;
  mParticipantSyncCancel : option nat;  (* the context of the sync loop *)
  mParticipantSyncDelays : list Duration;
  mParticipantSyncInterval : Duration;
  mWorkerRetry : option nat;  (* pointer to the retry queue *)
  mActiveSpeaker : string;
  mActiveSpeakers : gmap string bool;
  mLastEventAt : Time;
  mWorkerFailures : Z;
  mWorkerFailureLogAt : gmap string Time;
  mWorkerFailureLogInterval : Duration;
  mVoiceRejoinAttempts : Z;
  mVoiceRejoinFailures : Z;
  mNotificationReceipts : gmap string nat;  (* by event-id hash; pointers to [notificationReceipt] *)
  hClock : Time;  (* the clock [time.Now] reads *)
  hNextRef : nat;  (* next pointer of the heap *)
  hCanceled : gset nat;  (* canceled contexts *)
  hRetries : gmap nat autoStartRetry;
  hQueues : gmap nat Queue;
  hReceipts : gmap nat notificationReceipt }.

Definition eta_Manager (r : Manager) : Manager :=
  mkManager
    (mVoice r) (mReporter r) (mStreamStarter r) (mStreamStopper r) (mCurrent r)
    (mCurrentAssignmentEpoch r) (mStopping r) (mDisconnected r) (mDefaults r)
    (mStreamDefaults r) (mLastStreamDefaults r) (mExecutionAuthorityStreams r)
    (mAutoStartPending r) (mAutoStartStopped r) (mAutoStartRetries r) (mAutoStopPending r)
    (mAutoStopGeneration r) (mAutoStopAttempts r) (mAutoStopInFlight r) (mAutoStopLastAttempt r)
    (mRejoinIntents r) (mRejoinIntentSequence r) (mRejoinReconcileRun r)
    (mRejoinReconcileDelay r) (mAutoStartCooldown r) (mAutoStartRetryDelays r)
    (mAutoStopDelay r) (mAutoStopEmptyConfirmDelay r) (mAutoStopRetryDelays r)
    (mAutoStopCooldown r) (mAutoStartRefresher r) (mAutoStartRefreshAt r)
    (mAutoStartRefreshWait r) (mLastAutoStartLogAt r) (mLastAutoStartLogKey r)
    (mReconnectPolicy r) (mReconnectGeneration r) (mStartedAt r) (mParticipants r)
    (mParticipantSnapshotRevision r) (mParticipantStateRevision r) (mParticipantSyncCancel r)
    (mParticipantSyncDelays r) (mParticipantSyncInterval r) (mWorkerRetry r) (mActiveSpeaker r)
    (mActiveSpeakers r) (mLastEventAt r) (mWorkerFailures r) (mWorkerFailureLogAt r)
    (mWorkerFailureLogInterval r) (mVoiceRejoinAttempts r) (mVoiceRejoinFailures r)
    (mNotificationReceipts r) (hClock r) (hNextRef r) (hCanceled r) (hRetries r) (hQueues r)
    (hReceipts r).

#[export] Instance set_mVoice : Setter mVoice := ltac:(mk_setter eta_Manager).
#[export] Instance set_mReporter : Setter mReporter := ltac:(mk_setter eta_Manager).
#[export] Instance set_mStreamStarter : Setter mStreamStarter := ltac:(mk_setter eta_Manager).
#[export] Instance set_mStreamStopper : Setter mStreamStopper := ltac:(mk_setter eta_Manager).
#[export] Instance set_mCurrent : Setter mCurrent := ltac:(mk_setter eta_Manager).
#[export] Instance set_mCurrentAssignmentEpoch : Setter mCurrentAssignmentEpoch := ltac:(mk_setter eta_Manager).
#[export] Instance set_mStopping : Setter mStopping := ltac:(mk_setter eta_Manager).
#[export] Instance set_mDisconnected : Setter mDisconnected := ltac:(mk_setter eta_Manager).
#[export] Instance set_mDefaults : Setter mDefaults := ltac:(mk_setter eta_Manager).
#[export] Instance set_mStreamDefaults : Setter mStreamDefaults := ltac:(mk_setter eta_Manager).
#[export] Instance set_mLastStreamDefaults : Setter mLastStreamDefaults := ltac:(mk_setter eta_Manager).
#[export] Instance set_mExecutionAuthorityStreams : Setter mExecutionAuthorityStreams := ltac:(mk_setter eta_Manager).
#[export] Instance set_mAutoStartPending : Setter mAutoStartPending := ltac:(mk_setter eta_Manager).
#[export] Instance set_mAutoStartStopped : Setter mAutoStartStopped := ltac:(mk_setter eta_Manager).
#[export] Instance set_mAutoStartRetries : Setter mAutoStartRetries := ltac:(mk_setter eta_Manager).
#[export] Instance set_mAutoStopPending : Setter mAutoStopPending := ltac:(mk_setter eta_Manager).
#[export] Instance set_mAutoStopGeneration : Setter mAutoStopGeneration := ltac:(mk_setter eta_Manager).
#[export] Instance set_mAutoStopAttempts : Setter mAutoStopAttempts := ltac:(mk_setter eta_Manager).
#[export] Instance set_mAutoStopInFlight : Setter mAutoStopInFlight := ltac:(mk_setter eta_Manager).
#[export] Instance set_mAutoStopLastAttempt : Setter mAutoStopLastAttempt := ltac:(mk_setter eta_Manager).
#[export] Instance set_mRejoinIntents : Setter mRejoinIntents := ltac:(mk_setter eta_Manager).
#[export] Instance set_mRejoinIntentSequence : Setter mRejoinIntentSequence := ltac:(mk_setter eta_Manager).
#[export] Instance set_mRejoinReconcileRun : Setter mRejoinReconcileRun := ltac:(mk_setter eta_Manager).
#[export] Instance set_mRejoinReconcileDelay : Setter mRejoinReconcileDelay := ltac:(mk_setter eta_Manager).
#[export] Instance set_mAutoStartCooldown : Setter mAutoStartCooldown := ltac:(mk_setter eta_Manager).
#[export] Instance set_mAutoStartRetryDelays : Setter mAutoStartRetryDelays := ltac:(mk_setter eta_Manager).
#[export] Instance set_mAutoStopDelay : Setter mAutoStopDelay := ltac:(mk_setter eta_Manager).
#[export] Instance set_mAutoStopEmptyConfirmDelay : Setter mAutoStopEmptyConfirmDelay := ltac:(mk_setter eta_Manager).
#[export] Instance set_mAutoStopRetryDelays : Setter mAutoStopRetryDelays := ltac:(mk_setter eta_Manager).
#[export] Instance set_mAutoStopCooldown : Setter mAutoStopCooldown := ltac:(mk_setter eta_Manager).
#[export] Instance set_mAutoStartRefresher : Setter mAutoStartRefresher := ltac:(mk_setter eta_Manager).
#[export] Instance set_mAutoStartRefreshAt : Setter mAutoStartRefreshAt := ltac:(mk_setter eta_Manager).
#[export] Instance set_mAutoStartRefreshWait : Setter mAutoStartRefreshWait := ltac:(mk_setter eta_Manager).
#[export] Instance set_mLastAutoStartLogAt : Setter mLastAutoStartLogAt := ltac:(mk_setter eta_Manager).
#[export] Instance set_mLastAutoStartLogKey : Setter mLastAutoStartLogKey := ltac:(mk_setter eta_Manager).
#[export] Instance set_mReconnectPolicy : Setter mReconnectPolicy := ltac:(mk_setter eta_Manager).
#[export] Instance set_mReconnectGeneration : Setter mReconnectGeneration := ltac:(mk_setter eta_Manager).
#[export] Instance set_mStartedAt : Setter mStartedAt := ltac:(mk_setter eta_Manager).
#[export] Instance set_mParticipants : Setter mParticipants := ltac:(mk_setter eta_Manager).
#[export] Instance set_mParticipantSnapshotRevision : Setter mParticipantSnapshotRevision := ltac:(mk_setter eta_Manager).
#[export] Instance set_mParticipantStateRevision : Setter mParticipantStateRevision := ltac:(mk_setter eta_Manager).
#[export] Instance set_mParticipantSyncCancel : Setter mParticipantSyncCancel := ltac:(mk_setter eta_Manager).
#[export] Instance set_mParticipantSyncDelays : Setter mParticipantSyncDelays := ltac:(mk_setter eta_Manager).
#[export] Instance set_mParticipantSyncInterval : Setter mParticipantSyncInterval := ltac:(mk_setter eta_Manager).
#[export] Instance set_mWorkerRetry : Setter mWorkerRetry := ltac:(mk_setter eta_Manager).
#[export] Instance set_mActiveSpeaker : Setter mActiveSpeaker := ltac:(mk_setter eta_Manager).
#[export] Instance set_mActiveSpeakers : Setter mActiveSpeakers := ltac:(mk_setter eta_Manager).
#[export] Instance set_mLastEventAt : Setter mLastEventAt := ltac:(mk_setter eta_Manager).
#[export] Instance set_mWorkerFailures : Setter mWorkerFailures := ltac:(mk_setter eta_Manager).
#[export] Instance set_mWorkerFailureLogAt : Setter mWorkerFailureLogAt := ltac:(mk_setter eta_Manager).
#[export] Instance set_mWorkerFailureLogInterval : Setter mWorkerFailureLogInterval := ltac:(mk_setter eta_Manager).
#[export] Instance set_mVoiceRejoinAttempts : Setter mVoiceRejoinAttempts := ltac:(mk_setter eta_Manager).
#[export] Instance set_mVoiceRejoinFailures : Setter mVoiceRejoinFailures := ltac:(mk_setter eta_Manager).
#[export] Instance set_mNotificationReceipts : Setter mNotificationReceipts := ltac:(mk_setter eta_Manager).
#[export] Instance set_hClock : Setter hClock := ltac:(mk_setter eta_Manager).
#[export] Instance set_hNextRef : Setter hNextRef := ltac:(mk_setter eta_Manager).
#[export] Instance set_hCanceled : Setter hCanceled := ltac:(mk_setter eta_Manager).
#[export] Instance set_hRetries : Setter hRetries := ltac:(mk_setter eta_Manager).
#[export] Instance set_hQueues : Setter hQueues := ltac:(mk_setter eta_Manager).
#[export] Instance set_hReceipts : Setter hReceipts := ltac:(mk_setter eta_Manager).

(** [NewManagerWithReporter], [voice] and [reporter] given by the optional
    interfaces they implement, at clock reading [now]. *)
Definition NewManagerWithReporter (voice : VoiceCaps) (reporter : option ReporterCaps) (now : Time)
    : Manager := {|
  mVoice := voice;
  mReporter := reporter;
  mStreamStarter := None;
  mStreamStopper := None;
  mCurrent := zeroVoiceJob;
  mCurrentAssignmentEpoch := "";
  mStopping := false;
  mDisconnected := false;
  mDefaults := zeroVoiceDefaults;
  mStreamDefaults := ∅;
  mLastStreamDefaults := ∅;
  mExecutionAuthorityStreams := None;
  mAutoStartPending := ∅;
  mAutoStartStopped := ∅;
  mAutoStartRetries := ∅;
  mAutoStopPending := ∅;
  mAutoStopGeneration := ∅;
  mAutoStopAttempts := ∅;
  mAutoStopInFlight := ∅;
  mAutoStopLastAttempt := ∅;
  mRejoinIntents := ∅;
  mRejoinIntentSequence := 0;
  mRejoinReconcileRun := ∅;
  mRejoinReconcileDelay := [0; Second; 2 * Second; 4 * Second; 8 * Second; 16 * Second; 30 * Second];
  mAutoStartCooldown := 30 * Second;
  mAutoStartRetryDelays := [500 * Millisecond; 2 * Second; 5 * Second];
  mAutoStopDelay := 2 * Second;
  mAutoStopEmptyConfirmDelay := 15 * Second;
  mAutoStopRetryDelays := [5 * Second; 15 * Second; 45 * Second];
  mAutoStopCooldown := 15 * Second;
  mAutoStartRefresher := None;
  mAutoStartRefreshAt := 0;
  mAutoStartRefreshWait := 5 * Second;
  mLastAutoStartLogAt := 0;
  mLastAutoStartLogKey := "";
  mReconnectPolicy := zeroReconnectPolicy;
  mReconnectGeneration := 0;
  mStartedAt := 0;
  mParticipants := ∅;
  mParticipantSnapshotRevision := 0;
  mParticipantStateRevision := 0;
  mParticipantSyncCancel := None;
  mParticipantSyncDelays := [250 * Millisecond; Second; 3 * Second];
  mParticipantSyncInterval := 15 * Second;
  mWorkerRetry := None;
  mActiveSpeaker := "";
  mActiveSpeakers := ∅;
  mLastEventAt := 0;
  mWorkerFailures := 0;
  mWorkerFailureLogAt := ∅;
  mWorkerFailureLogInterval := 30 * Second;
  mVoiceRejoinAttempts := 0;
  mVoiceRejoinFailures := 0;
  mNotificationReceipts := ∅;
  hClock := now;
  hNextRef := 1%nat;
  hCanceled := ∅;
  hRetries := ∅;
  hQueues := ∅;
  hReceipts := ∅ |}.

(** ** Effects *)

(** Calls that leave the manager.  An [option error] is [None] for success. *)
Inductive ExtCall : Type -> Type :=
(* discord.Client and its optional interfaces *)
| JoinVoice (job : VoiceJob) : ExtCall (option error)
| LeaveVoice (streamID : string) : ExtCall (option error)
| SnapshotVoiceParticipants (job : VoiceJob) : ExtCall (option ParticipantSnapshot)
| AutoStartVoicePresence (target : AutoStartVoiceTarget) : ExtCall (bool * bool)
| SetAutoStartVoiceTargets (targets : list AutoStartVoiceTarget) : ExtCall unit
| SendMessage (ctx : option nat) (message : OutboundMessage) : ExtCall (string * option error)
(* EventReporter and its optional interfaces; a context is the queue it belongs to *)
| RepParticipantsChangedContext (ctx : option nat) (job : VoiceJob) (ps : list Participant)
    : ExtCall (option error)
| RepParticipantsChanged (job : VoiceJob) (ps : list Participant) : ExtCall (option error)
| RepActiveSpeakerStateChangedContext (ctx : option nat) (job : VoiceJob)
    (userID displayName : string) (speaking : bool) : ExtCall (option error)
| RepActiveSpeakerStateChanged (job : VoiceJob) (userID displayName : string) (speaking : bool)
    : ExtCall (option error)
| RepActiveSpeakerChanged (job : VoiceJob) (userID displayName : string) : ExtCall (option error)
| RepChatMessageReceivedContext (ctx : option nat) (job : VoiceJob) (message : ChatMessage)
    : ExtCall (option error)
| RepChatMessageReceived (job : VoiceJob) (message : ChatMessage) : ExtCall (option error)
(* StreamStarter, StreamStopper, the refresher *)
| StartStream (starter : nat) (streamID : string) : ExtCall (option error)
| StopStream (stopper : nat) (streamID : string) : ExtCall (option error)
| StopStreamContext (ctx : nat) (stopper : nat) (streamID : string) : ExtCall (option error)
| Refresh (refresher : nat) : ExtCall (option error)
(* which ready case a select takes: [true] for the first *)
| SelectFirst : ExtCall bool.

(** An outside in which every call succeeds and nobody is in the channel. *)
Definition accept_all X (e : ExtCall X) : X :=
  match e with
  | JoinVoice _ => None
  | LeaveVoice _ => None
  | SnapshotVoiceParticipants job =>
      Some (mkParticipantSnapshot (jStreamID job) (jGuildID job) (jVoiceChannelID job) [] 1)
  | AutoStartVoicePresence _ => (true, true)
  | SetAutoStartVoiceTargets _ => tt
  | SendMessage _ _ => ("message-1", None)
  | RepParticipantsChangedContext _ _ _ => None
  | RepParticipantsChanged _ _ => None
  | RepActiveSpeakerStateChangedContext _ _ _ _ _ => None
  | RepActiveSpeakerStateChanged _ _ _ _ => None
  | RepActiveSpeakerChanged _ _ _ => None
  | RepChatMessageReceivedContext _ _ _ => None
  | RepChatMessageReceived _ _ => None
  | StartStream _ _ => None
  | StopStream _ _ => None
  | StopStreamContext _ _ _ => None
  | Refresh _ => None
  | SelectFirst => true
  end.

(** The mutexes held across other effects. *)
Inductive mutex := participantReportMu.

#[export] Instance mutex_eq_dec : EqDecision mutex.
Proof. solve_decision. Defined.

#[export] Instance mutex_countable : Countable mutex.
Proof. refine (inj_countable' (fun _ => tt) (fun _ => participantReportMu) _). by intros []. Defined.

(** Entry points ([E...], called by the Discord client, the HTTP API and the
    runtime-config poller) and goroutines ([G...]). *)
Inductive label :=
| EStart (job : VoiceJob)
| EStop (streamID : string)
| EDiscordConnected
| EDiscordDisconnected (reason : string)
| EParticipantChanged (event : ParticipantEvent)
| EParticipantsSynced (snapshot : ParticipantSnapshot)
| EActiveSpeakerStateChanged (streamID userID : string) (speaking : bool)
| ESetActiveSpeaker (streamID userID : string)
| EChatMessageReceived (event : ChatMessageEvent)
| EVoiceUserJoined (event : VoiceJoinEvent)
| ESetVoiceDefaults (defaults : VoiceDefaults)
| ESetStreamVoiceDefaults (defaults : gmap string VoiceDefaults)
| ESetExecutionAuthorityStreams (streams : gmap string bool)
| ESetReconnectPolicy (policy : ReconnectPolicy)
| ESetStreamStarter (starter : option nat)
| ESetStreamStopper (stopper : option StopperRef)
| ESetAutoStartRefresher (refresher : option nat)
| ENotifyYouTubeLive (ctx : option nat) (streamID eventID runtimeTextChannelID watchURL : string)
| ECancelRequest (ctx : nat)    (* the caller of a request goes away *)
| GQueueLoop (queue : nat)
| GKeepSynced (ctx : nat) (job : VoiceJob) (generation : Z)
| GKeepTick (ctx : nat) (job : VoiceJob) (generation : Z) (interval : Duration)
| GAutoStopWhenEmpty (streamID : string) (observation : autoStopObservation)
    (stopper : StopperRef) (delay : Duration)
| GRejoin (job : VoiceJob) (policy : ReconnectPolicy) (generation : Z)
| GAutoStart (streamID : string) (retryCtx retry starter : nat) (refresher : option nat)
    (event : VoiceJoinEvent)
| GReconcileRejoin (sourceStreamID : string).

Abbreviation mprog := (prog Manager ExtCall label mutex).

(** [return a]. *)
Abbreviation ret := (@Ret Manager ExtCall label mutex _).

(** Calls of a trace that satisfy [P]. *)
Definition calls (P : forall X, ExtCall X -> bool) (tr : list (obs ExtCall label)) : Z :=
  fold_right (fun o n => match o with
                         | OCall e _ => if P _ e then n + 1 else n
                         | _ => n
                         end) 0 tr.

Lemma calls_app P t1 t2 : calls P (t1 ++ t2)%list = calls P t1 + calls P t2.
Proof. induction t1 as [|o t1 IH]; simpl; [lia|]. destruct o; try lia. case_match; lia. Qed.

Lemma calls_nonneg P tr : 0 <= calls P tr.
Proof. induction tr as [|o tr IH]; simpl; [lia|]. destruct o; try lia. case_match; lia. Qed.

(** Calls that only observe Discord or report to the Worker. *)
Definition quiet {X} (e : ExtCall X) : bool :=
  match e with
  | JoinVoice _ | LeaveVoice _ | SendMessage _ _ | StartStream _ _ | StopStream _ _
  | StopStreamContext _ _ _ | Refresh _ => false
  | _ => true
  end.

(** A method that makes only quiet calls, whatever the state. *)
Abbreviation qsafe :=
  (@safe Manager ExtCall label mutex (fun _ => True) (fun _ e => quiet e = true) (fun _ => True) _).

Lemma quiet_calls {A} (P : forall X, ExtCall X -> bool) en (p : mprog A) n s :
  (forall X (e : ExtCall X), P X e = true -> quiet e = false) ->
  qsafe (fun _ => True) p -> calls P (run en p n s).2 = 0.
Proof.
  intros HP Hp.
  pose proof (run_safe (fun _ => True) (fun _ e => quiet e = true) (fun _ => True)
    (fun _ => True) en p n s (conj (fun _ _ _ _ _ => I) (fun _ _ _ _ _ => I)) I Hp) as Hr.
  destruct (run en p n s) as [[a s'] tr]. destruct Hr as (_ & _ & Htr). simpl. clear -HP Htr.
  induction Htr as [|o tr Ho _ IH]; simpl; [done|].
  destruct o as [X e x| |]; try done. simpl in Ho.
  destruct (P X e) eqn:E; [|done]. by rewrite (HP _ _ E) in Ho.
Qed.

(** ** The heap *)

(** [context.WithCancel] *)
Definition newContext (m : Manager) : nat * Manager :=
  (hNextRef m, m <| hNextRef ::= S |>).

Definition cancelContext (ctx : nat) (m : Manager) : Manager :=
  m <| hCanceled ::= fun s => {[ctx]} ∪ s |>.

(** [ctx.Err() != nil], [ctx.Done()] ready. *)
Definition ctxDone (ctx : nat) (m : Manager) : bool := bool_decide (ctx ∈ hCanceled m).

(** [newWorkerEventRetryQueue()] *)
Definition newQueue (m : Manager) : nat * Manager :=
  (hNextRef m, m <| hQueues ::= insert (hNextRef m) newWorkerEventRetryQueue |>
                 <| hNextRef ::= S |>).

Definition getQueue (q : nat) (m : Manager) : Queue :=
  default newWorkerEventRetryQueue (hQueues m !! q).

Definition onQueue (q : nat) (f : Queue -> Queue) (m : Manager) : Manager :=
  m <| hQueues ::= alter f q |>.

(** [queue.start(m)] and [queue.stopAndWait()] *)
Definition startQueue (q : nat) : mprog unit :=
  (do* modify (onQueue q (fun qu => qu <| qRunning := true |>)) in
   spawn (GQueueLoop q))%go.

Definition stopAndWait (q : nat) : mprog unit :=
  (do* modify (onQueue q queue_mark_stopped) in
   do* modify (onQueue q queue_cancel) in
   do* modify (onQueue q signalLocked) in
   do* wait None (fun m => negb (qRunning (getQueue q m))) in
   ret tt)%go.

(** [if q != nil { q.stopAndWait() }] *)
Definition stopAndWaitOpt (q : option nat) : mprog unit :=
  match q with Some q => stopAndWait q | None => ret tt end.

(** ** Shared critical-section helpers *)

(** [eventsPausedLocked] *)
Definition eventsPausedLocked (m : Manager) : bool := mStopping m || mDisconnected m.

(** [if m.participantSyncCancel != nil { m.participantSyncCancel() }] *)
Definition cancelParticipantSync (m : Manager) : Manager :=
  match mParticipantSyncCancel m with
  | Some ctx => cancelContext ctx m
  | None => m
  end.

(** [restartParticipantSyncLocked] *)
Definition restartParticipantSyncLocked (m : Manager) : nat * Manager :=
  let m := cancelParticipantSync m in
  let '(ctx, m) := newContext m in
  (ctx, m <| mParticipantSyncCancel := Some ctx |>).

(** [CurrentStreamID] *)
Definition CurrentStreamID (m : Manager) : string := jStreamID (mCurrent m).

Section Snapshot.
Context `{MapRange}.

(** [participantsSnapshotLocked] *)
Definition participantsSnapshotLocked (m : Manager) : list Participant :=
  (fun kp => mkParticipant (pUserID kp.2) (pUsername kp.2) (pAvatarURL kp.2) (pIsBot kp.2)
     (mbool (mActiveSpeakers m) (pUserID kp.2)) (pJoinedAt kp.2)) <$> map_range (mParticipants m).

(** [anyActiveSpeaker] *)
Definition anyActiveSpeaker (active : gmap string bool) : string :=
  match list_find (fun kv => kv.2 = true) (map_range active) with
  | Some (_, (userID, _)) => userID
  | None => ""
  end.

(** [Participants] *)
Definition Participants (streamID : string) (m : Manager) : list Participant + error :=
  if jStreamID (mCurrent m) =s "" then inr (ErrNew "no active stream job")
  else if (streamID <>s "") && (streamID <>s jStreamID (mCurrent m))
  then inr (ErrNew "stream_id does not match current job")
  else inl (participantsSnapshotLocked m).
End Snapshot.

(** ** Quiet helpers *)

#[export] Hint Extern 0 (quiet _ = true) => reflexivity : go.

Lemma quiet_startQueue q : qsafe (fun _ => True) (startQueue q).
Proof. unfold startQueue. go_walk. Qed.

Lemma quiet_stopAndWait q : qsafe (fun _ => True) (stopAndWait q).
Proof. unfold stopAndWait. go_walk. Qed.

#[export] Hint Resolve quiet_startQueue quiet_stopAndWait : go.

Lemma quiet_stopAndWaitOpt q : qsafe (fun _ => True) (stopAndWaitOpt q).
Proof. unfold stopAndWaitOpt. go_walk. Qed.

#[export] Hint Resolve quiet_stopAndWaitOpt : go.
