(* ===== verification/AutoStopState.v ===== *)
(** * AutoStopState: the auto-stop and rejoin-intent state under [m.mu]

    The [...Locked] methods of [internal/jobs/auto_stop.go] and
    [internal/jobs/auto_stop_rejoin.go]: scheduling an auto-stop when the
    participant set empties, its validity test, its cancellation and
    invalidation, and the rejoin intents recorded while a stop is in flight. *)

From S2P Require Import Prelude Conc Errors Types RetryQueue Manager.

(** ** Requests in flight *)

(** [hasAutoStopInFlightLocked] *)
Definition hasAutoStopInFlightLocked (streamID : string) (m : Manager) : bool :=
  match mAutoStopInFlight m !! streamID with Some _ => true | None => false end.

(** [hasPendingAutoStopLocked] *)
Definition hasPendingAutoStopLocked (streamID : string) (m : Manager) : bool :=
  mbool (mAutoStopPending m) streamID || hasAutoStopInFlightLocked streamID m.

(** [clearAutoStopInFlightLocked] *)
Definition clearAutoStopInFlightLocked (streamID : string) (generation : Z) (m : Manager)
    : Manager :=
  match mAutoStopInFlight m !! streamID with
  | None => m
  | Some request =>
      if negb (ifGeneration request =? generation) then m
      else (cancelContext (ifCancel request) m) <| mAutoStopInFlight ::= delete streamID |>
  end.

(** [invalidateAutoStopLocked] *)
Definition invalidateAutoStopLocked (streamID : string) (m : Manager) : Manager :=
  let streamID := TrimSpace streamID in
  if streamID =s "" then m
  else m <| mAutoStopGeneration := <[streamID := succ_u64 (mint (mAutoStopGeneration m) streamID)]>
                                     (mAutoStopGeneration m) |>
         <| mAutoStopPending ::= delete streamID |>
         <| mAutoStopAttempts ::= delete streamID |>
         <| mAutoStopLastAttempt ::= delete streamID |>.

(** [cancelAutoStopLocked] *)
Definition cancelAutoStopLocked (streamID : string) (m : Manager) : Manager :=
  let streamID := TrimSpace streamID in
  if streamID =s "" then m
  else
    let m := match mAutoStopInFlight m !! streamID with
             | Some request =>
                 (cancelContext (ifCancel request) m) <| mAutoStopInFlight ::= delete streamID |>
             | None => m
             end in
    invalidateAutoStopLocked streamID m.

(** [finishAutoStopLocked] *)
Definition finishAutoStopLocked (streamID : string) (generation : Z) (m : Manager) : Manager :=
  let m := clearAutoStopInFlightLocked streamID generation m in
  if negb (mint (mAutoStopGeneration m) streamID =? generation) then m
  else m <| mAutoStopPending ::= delete streamID |> <| mAutoStopAttempts ::= delete streamID |>.

(** [autoStopStillValidLocked] *)
Definition autoStopStillValidLocked (streamID : string) (generation : Z) (m : Manager) : bool :=
  (mint (mAutoStopGeneration m) streamID =? generation)
  && mbool (mAutoStopPending m) streamID
  && (jStreamID (mCurrent m) =s streamID)
  && (mlen (mParticipants m) =? 0)
  && match mStreamStopper m with Some _ => true | None => false end.

(** [autoStopStillValidForJobLocked] *)
Definition autoStopStillValidForJobLocked (streamID : string) (generation : Z) (job : VoiceJob)
    (reconnectGeneration : Z) (m : Manager) : bool :=
  autoStopStillValidLocked streamID generation m
  && (mReconnectGeneration m =? reconnectGeneration)
  && sameWorkerEventJob (mCurrent m) job.

(** ** Rejoin intents *)

(** [autoStopRejoinIntentKey] *)
Definition autoStopRejoinIntentKey (guildID voiceChannelID : string) : string :=
  TrimSpace guildID ++ NUL ++ TrimSpace voiceChannelID.

(** [firstNonEmptyTrimmed] *)
Fixpoint firstNonEmptyTrimmed (values : list string) : string :=
  match values with
  | [] => ""
  | value :: rest =>
      if TrimSpace value <>s "" then TrimSpace value else firstNonEmptyTrimmed rest
  end.

(** [recordAutoStopRejoinIntentLocked] *)
Definition recordAutoStopRejoinIntentLocked (sourceStreamID guildID voiceChannelID : string)
    (m : Manager) : Manager :=
  let sourceStreamID := TrimSpace sourceStreamID in
  let guildID := TrimSpace guildID in
  let voiceChannelID := TrimSpace voiceChannelID in
  if (sourceStreamID =s "") || (guildID =s "") || (voiceChannelID =s "") then m
  else
    let key := autoStopRejoinIntentKey guildID voiceChannelID in
    if match mRejoinIntents m !! key with
       | Some existing => riSourceStreamID existing =s sourceStreamID
       | None => false
       end
    then m
    else
      let seq := succ_u64 (mRejoinIntentSequence m) in
      let epoch := match mAutoStopInFlight m !! sourceStreamID with
                   | Some flight => ifAssignmentEpoch flight
                   | None => mCurrentAssignmentEpoch m
                   end in
      m <| mRejoinIntentSequence := seq |>
        <| mRejoinIntents ::= insert key (mkIntent epoch guildID voiceChannelID sourceStreamID seq) |>.

Section Ranges.
Context `{MapRange}.

(** The loop of [inFlightAutoStopStreamForVoiceLocked]: [None] when two
    requests claim the same voice channel. *)
Fixpoint inFlight_scan (guildID voiceChannelID matched : string)
    (entries : list (string * autoStopInFlight)) : string :=
  match entries with
  | [] => matched
  | (streamID, request) :: rest =>
      if (jGuildID (ifJob request) <>s guildID)
         || (jVoiceChannelID (ifJob request) <>s voiceChannelID)
      then inFlight_scan guildID voiceChannelID matched rest
      else if (matched <>s "") && (matched <>s streamID) then ""
      else inFlight_scan guildID voiceChannelID streamID rest
  end.

(** [inFlightAutoStopStreamForVoiceLocked] *)
Definition inFlightAutoStopStreamForVoiceLocked (guildID voiceChannelID : string) (m : Manager)
    : string :=
  let guildID := TrimSpace guildID in
  let voiceChannelID := TrimSpace voiceChannelID in
  if (guildID =s "") || (voiceChannelID =s "") then ""
  else inFlight_scan guildID voiceChannelID "" (map_range (mAutoStopInFlight m)).

(** [autoStopRejoinIntentForStreamLocked] *)
Definition autoStopRejoinIntentForStreamLocked (streamID : string) (m : Manager)
    : option (string * autoStopRejoinIntent) :=
  let streamID := TrimSpace streamID in
  snd <$> list_find (fun ki => riSourceStreamID ki.2 = streamID) (map_range (mRejoinIntents m)).

(** [hasAutoStopRejoinIntentForStreamLocked] *)
Definition hasAutoStopRejoinIntentForStreamLocked (streamID : string) (m : Manager) : bool :=
  match autoStopRejoinIntentForStreamLocked streamID m with Some _ => true | None => false end.
End Ranges.

(** ** The empty/non-empty policy *)

(** [updateAutoStopForParticipantSetLocked]: the stopper and the observation
    when an auto-stop is to be scheduled. *)
Definition updateAutoStopForParticipantSetLocked (job : VoiceJob) (now : Time) (source : string)
    (snapshotRevision : Z) (m : Manager) : option (StopperRef * autoStopObservation) * Manager :=
  if 0 <? mlen (mParticipants m) then
    let m := if hasAutoStopInFlightLocked (jStreamID job) m
             then recordAutoStopRejoinIntentLocked (jStreamID job) (jGuildID job)
                    (jVoiceChannelID job) m
             else m in
    (None, cancelAutoStopLocked (jStreamID job) m)
  else
  match mStreamStopper m with
  | None => (None, m)
  | Some stopper =>
      let lastAttempt := mint (mAutoStopLastAttempt m) (jStreamID job) in
      if mbool (mAutoStopPending m) (jStreamID job)
         || (negb (IsZero lastAttempt) && (Sub now lastAttempt <? mAutoStopCooldown m))
      then (None, m)
      else
        let generation := succ_u64 (mint (mAutoStopGeneration m) (jStreamID job)) in
        let m := m <| mAutoStopPending ::= insert (jStreamID job) true |>
                   <| mAutoStopGeneration ::= insert (jStreamID job) generation |>
                   <| mAutoStopAttempts ::= insert (jStreamID job) 0 |> in
        (Some (stopper,
           mkObservation "empty_participants" source (mlen (mParticipants m)) snapshotRevision
             (mParticipantStateRevision m) (mReconnectGeneration m) generation false), m)
  end.

(** ** Facts *)

(** Invalidation fences every timer and retry of the earlier generations: none
    of them is valid afterwards. *)
Lemma invalidate_not_valid streamID generation m :
  trimmed streamID -> streamID <> "" ->
  autoStopStillValidLocked streamID generation (invalidateAutoStopLocked streamID m) = false.
Proof.
  intros Ht Hne. unfold invalidateAutoStopLocked. rewrite Ht.
  apply String.eqb_neq in Hne. rewrite Hne.
  unfold autoStopStillValidLocked, mread. simpl. rewrite lookup_delete_eq. simpl.
  by rewrite andb_false_r.
Qed.

Lemma cancel_not_valid streamID generation m :
  trimmed streamID -> streamID <> "" ->
  autoStopStillValidLocked streamID generation (cancelAutoStopLocked streamID m) = false.
Proof.
  intros Ht Hne. unfold cancelAutoStopLocked. rewrite Ht.
  pose proof Hne as Hne'. apply String.eqb_neq in Hne'. rewrite Hne'.
  by apply invalidate_not_valid.
Qed.
