(* ===== verification/WorkerReporting.v ===== *)
(** * WorkerReporting: what the manager publishes to the Worker

    [internal/jobs/worker_reporting.go], the manager side of
    [internal/jobs/event_retry.go], and the two report functions of
    [participants.go] and [active_speakers.go] that serialise publishes under
    [participantReportMu]. *)

From S2P Require Import Prelude Conc Errors Types RetryQueue Manager Utf8.

Open Scope go_scope.

(** ** The reporter and its optional interfaces *)

(** [publishParticipants]; a context is the retry queue it belongs to, [None]
    for [context.Background()]. *)
Definition publishParticipants (ctx : option nat) (reporter : ReporterCaps) (job : VoiceJob)
    (participants : list Participant) : mprog (option error) :=
  if rcParticipantsContext reporter
  then call (RepParticipantsChangedContext ctx job participants)
  else call (RepParticipantsChanged job participants).

(** [publishActiveSpeaker] *)
Definition publishActiveSpeaker (ctx : option nat) (reporter : ReporterCaps) (job : VoiceJob)
    (userID displayName : string) (speaking : bool) : mprog (option error) :=
  if rcActiveSpeakerContext reporter
  then call (RepActiveSpeakerStateChangedContext ctx job userID displayName speaking)
  else if rcActiveSpeakerState reporter
  then call (RepActiveSpeakerStateChanged job userID displayName speaking)
  else if speaking then call (RepActiveSpeakerChanged job userID displayName)
  else ret None.

(** [publishChatMessage] *)
Definition publishChatMessage (ctx : option nat) (reporter : ReporterCaps) (job : VoiceJob)
    (message : ChatMessage) : mprog (option error) :=
  if rcChatContext reporter
  then call (RepChatMessageReceivedContext ctx job message)
  else call (RepChatMessageReceived job message).

(** ** Failure accounting *)

(** [recordWorkerPublishFailureAttempt], without the log line. *)
Definition record_failure_locked (eventType streamID : string) (now : Time) (m : Manager)
    : Manager :=
  let eventType := if TrimSpace eventType =s "" then "unknown" else TrimSpace eventType in
  let streamID := TrimSpace streamID in
  let m := m <| mWorkerFailures := wrap64 (mWorkerFailures m + 1) |> in
  let logKey := eventType ++ NUL ++ streamID in
  let lastLogAt := mint (mWorkerFailureLogAt m) logKey in
  if IsZero lastLogAt || (mWorkerFailureLogInterval m <=? 0)
     || (mWorkerFailureLogInterval m <=? Sub now lastLogAt)
  then m <| mWorkerFailureLogAt ::= insert logKey now |>
  else m.

Definition recordWorkerPublishFailureAttempt (eventType streamID : string) : mprog unit :=
  let* now := read hClock in
  modify (record_failure_locked eventType streamID now).

(** [recordWorkerPublishFailure] *)
Definition recordWorkerPublishFailure (eventType streamID : string) : mprog unit :=
  recordWorkerPublishFailureAttempt eventType streamID.

(** ** The retry queue of the current job *)

(** The guard of [enqueueWorkerEventRetry] and of [supersedeWorkerEventRetry]:
    the queue to act on, when the job and the generation are still current. *)
Definition currentRetryQueue (job : VoiceJob) (generation : Z) (m : Manager) : option nat :=
  match mWorkerRetry m with
  | Some queue =>
      if sameWorkerEventJob (mCurrent m) job && (mReconnectGeneration m =? generation)
      then Some queue else None
  | None => None
  end.

Section Reporting.
Context `{MapRange}.

(** [queue.enqueue(report)], one section under [queue.mu]. *)
Definition queue_enqueue (queue : nat) (report : workerEventRetryReport) (m : Manager)
    : bool * Manager :=
  let '(ok, q) := enqueue (hClock m) report (getQueue queue m) in
  (ok, onQueue queue (fun _ => q) m).

(** [enqueueWorkerEventRetry] *)
Definition enqueueWorkerEventRetry (report : workerEventRetryReport) : mprog bool :=
  if negb (shouldRetryWorkerPublish (rErr report)) then ret false else
  let report := report <| rErr := None |> in
  let* queue := read (currentRetryQueue (rJob report) (rReconnectGeneration report)) in
  match queue with
  | None => ret false
  | Some queue => atomic (queue_enqueue queue report)
  end.

(** [supersedeWorkerEventRetry] *)
Definition supersedeWorkerEventRetry (job : VoiceJob) (generation : Z) (key : string)
    : mprog unit :=
  let* queue := read (currentRetryQueue job generation) in
  match queue with
  | None => ret tt
  | Some queue =>
      do* modify (onQueue queue (supersede_locked key)) in
      modify (onQueue queue signalLocked)
  end.

(** [isCurrentWorkerRetryReport]: a section under [queue.mu], then one under
    [m.mu]. *)
Definition retryReportCurrent (queue : nat) (report : workerEventRetryReport) (m : Manager)
    : bool :=
  bool_decide (mWorkerRetry m = Some queue) && sameWorkerEventJob (mCurrent m) (rJob report)
  && (mReconnectGeneration m =? rReconnectGeneration report).

Definition isCurrentWorkerRetryReport (queue : nat) (report : workerEventRetryReport)
    : mprog bool :=
  let* latest := read (fun m => isLatest report (getQueue queue m)) in
  if negb latest then ret false else read (retryReportCurrent queue report).

(** [refreshWorkerRetryReport]: the report with the current state, and the
    reporter. *)
Definition refreshWorkerRetryReport (queue : nat) (report : workerEventRetryReport) (m : Manager)
    : option (workerEventRetryReport * option ReporterCaps) :=
  if negb (retryReportCurrent queue report m) then None else
  let report := report <| rJob := mCurrent m |> in
  let report :=
    if rEventType report =s evParticipants
    then report <| rParticipants := participantsSnapshotLocked m |>
                <| rStateRevision := mParticipantStateRevision m |>
    else if rEventType report =s evActiveSpeaker
    then
      let report := report <| rSpeaking :=
        (rSpeakerUserID report <>s "") && mbool (mActiveSpeakers m) (rSpeakerUserID report) |> in
      match mParticipants m !! rSpeakerUserID report with
      | Some participant => report <| rSpeakerDisplayName := pUsername participant |>
      | None => report
      end
    else report in
  Some (report, mReporter m).

(** [publishWorkerRetryReport] *)
Definition publishWorkerRetryReport (ctx : nat) (reporter : ReporterCaps)
    (report : workerEventRetryReport) : mprog (option error) :=
  if rEventType report =s evParticipants
  then publishParticipants (Some ctx) reporter (rJob report) (rParticipants report)
  else if rEventType report =s evActiveSpeaker
  then publishActiveSpeaker (Some ctx) reporter (rJob report) (rSpeakerUserID report)
         (rSpeakerDisplayName report) (rSpeaking report)
  else if rEventType report =s evChat
  then publishChatMessage (Some ctx) reporter (rJob report) (rChat report)
  else ret None.

Definition queueCtxDone (queue : nat) (m : Manager) : bool := qCanceled (getQueue queue m).

(** [deliverWorkerEventRetry] *)
Definition deliverWorkerEventRetry (queue : nat) (report : workerEventRetryReport)
    : mprog unit :=
  let drop r := modify (onQueue queue (markDropped r)) in
  let* canceled := read (queueCtxDone queue) in
  if canceled then drop report else
  let* current := isCurrentWorkerRetryReport queue report in
  if negb current then drop report else
  do* lock participantReportMu in
  let* current := isCurrentWorkerRetryReport queue report in
  if negb current then (do* drop report in unlock participantReportMu) else
  let* refreshed := read (refreshWorkerRetryReport queue report) in
  match refreshed with
  | None => do* drop report in unlock participantReportMu
  | Some (report, None) => do* drop report in unlock participantReportMu
  | Some (report, Some reporter) =>
      let report := report <| rAttempts := rAttempts report + 1 |> in
      let* err := publishWorkerRetryReport queue reporter report in
      match err with
      | None =>
          do* modify (onQueue queue (markDelivered report)) in
          unlock participantReportMu
      | Some _ =>
          do* recordWorkerPublishFailureAttempt (rEventType report) (jStreamID (rJob report)) in
          let* canceled := read (queueCtxDone queue) in
          if negb (shouldRetryWorkerPublish err) || canceled
             || (maxWorkerEventRetryAttempts <=? rAttempts report)
          then (do* drop report in unlock participantReportMu)
          else
            do* modify (fun m => onQueue queue (requeue (hClock m) report) m) in
            unlock participantReportMu
      end
  end.

(** One turn of [loop]: [next] reads the clock twice. *)
Definition queue_next (queue : nat) (now : Time) (m : Manager) : next_result * Manager :=
  let '(r, q) := next now (hClock m) (getQueue queue m) in
  (r, onQueue queue (fun _ => q) m).

(** The end of [loop]: [q.wg.Done()]. *)
Definition loop_exit (queue : nat) : mprog (option label) :=
  do* modify (onQueue queue (fun q => q <| qRunning := false |>)) in
  ret None.

(** A [select] on [q.ctx.Done()] and [q.wake] with one of them ready. *)
Definition loop_woken (queue : nat) : mprog (option label) :=
  let* first := call SelectFirst in
  let* exit := atomic (fun m =>
    let q := getQueue queue m in
    if qCanceled q && (first || negb (qWake q)) then (true, m)
    else (false, onQueue queue (fun q => q <| qWake := false |>) m)) in
  if exit then loop_exit queue else ret (Some (GQueueLoop queue)).

Definition queueLoop (queue : nat) : mprog (option label) :=
  let* now := read hClock in
  let* r := atomic (queue_next queue now) in
  match loop_choice r with
  | LoopDeliver report =>
      do* deliverWorkerEventRetry queue report in
      ret (Some (GQueueLoop queue))
  | LoopTimer w =>
      let* ready := wait (Some w)
        (fun m => qCanceled (getQueue queue m) || qWake (getQueue queue m)) in
      if ready then loop_woken queue else ret (Some (GQueueLoop queue))
  | LoopBlock =>
      do* wait None (fun m => qCanceled (getQueue queue m) || qWake (getQueue queue m)) in
      loop_woken queue
  end.

(** ** Reports of the current state *)

(** The section of [reportParticipantsIfCurrent] that chooses what to publish. *)
Definition choose_participants_report (job : VoiceJob) (participants : list Participant)
    (stateRevision generation : Z) (requireGeneration : bool) (m : Manager)
    : option (VoiceJob * list Participant * Z * option ReporterCaps * Z * option nat) :=
  if eventsPausedLocked m || negb (sameWorkerEventJob (mCurrent m) job)
     || (requireGeneration && negb (mReconnectGeneration m =? generation))
  then None
  else
    let '(participants, stateRevision) :=
      if mParticipantStateRevision m =? stateRevision then (participants, stateRevision)
      else (participantsSnapshotLocked m, mParticipantStateRevision m) in
    Some (mCurrent m, participants, stateRevision, mReporter m, mReconnectGeneration m,
          mWorkerRetry m).

Definition participants_retry_report (current : VoiceJob) (generation : Z)
    (participants : list Participant) (stateRevision : Z) (err : option error)
    : workerEventRetryReport :=
  mkReport (workerParticipantsRetryKey current) evParticipants current generation participants
    stateRevision "" "" false zeroChatMessage 0 0 0 0 err.

(** [reportParticipantsIfCurrent] *)
Definition reportParticipantsIfCurrent (job : VoiceJob) (participants : list Participant)
    (stateRevision generation : Z) (requireGeneration : bool) : mprog unit :=
  do* lock participantReportMu in
  let* chosen := read (choose_participants_report job participants stateRevision generation
                         requireGeneration) in
  do* match chosen with
      | None => ret tt
      | Some (_, _, _, None, _, _) => ret tt
      | Some (current, participants, stateRevision, Some reporter, reportGeneration, queue) =>
          let* err := publishParticipants queue reporter current participants in
          match err with
          | Some _ =>
              do* recordWorkerPublishFailure evParticipants (jStreamID job) in
              do* enqueueWorkerEventRetry
                    (participants_retry_report current reportGeneration participants
                       stateRevision err) in
              ret tt
          | None =>
              supersedeWorkerEventRetry current reportGeneration
                (workerParticipantsRetryKey current)
          end
      end in
  unlock participantReportMu.

Definition speaker_retry_report (current : VoiceJob) (generation : Z) (userID displayName : string)
    (speaking : bool) (stateRevision : Z) (err : option error) : workerEventRetryReport :=
  mkReport (workerSpeakerRetryKey current) evActiveSpeaker current generation [] stateRevision
    userID displayName speaking zeroChatMessage 0 0 0 0 err.

(** [reportActiveSpeakerIfCurrent] *)
Definition reportActiveSpeakerIfCurrent (job : VoiceJob) (userID displayName : string)
    (speaking : bool) (stateRevision generation : Z) : mprog unit :=
  do* lock participantReportMu in
  let* chosen := read (fun m =>
    if eventsPausedLocked m || negb (sameWorkerEventJob (mCurrent m) job)
       || negb (mReconnectGeneration m =? generation)
       || negb (mParticipantStateRevision m =? stateRevision)
    then None
    else Some (mCurrent m, mReporter m, mWorkerRetry m)) in
  do* match chosen with
      | None => ret tt
      | Some (_, None, _) => ret tt
      | Some (current, Some reporter, queue) =>
          let* err := publishActiveSpeaker queue reporter current userID displayName speaking in
          match err with
          | Some _ =>
              do* recordWorkerPublishFailure evActiveSpeaker (jStreamID job) in
              do* enqueueWorkerEventRetry
                    (speaker_retry_report current generation userID displayName speaking
                       stateRevision err) in
              ret tt
          | None =>
              supersedeWorkerEventRetry current generation (workerSpeakerRetryKey current)
          end
      end in
  unlock participantReportMu.

(** ** Chat *)

(** [trimDiscordChatField] *)
Definition trimDiscordChatField (value : string) (maxRunes : Z) : string :=
  let value := TrimSpace value in
  if maxRunes <=? 0 then "" else
  let rs := runes value in
  if Z.of_nat (length rs) <=? maxRunes then value
  else TrimSpace (string_of_runes (take (Z.to_nat maxRunes) rs)).

(** [trimDiscordChatContent] *)
Definition trimDiscordChatContent (content : string) : string := trimDiscordChatField content 1000.

(** The message of [ChatMessageReceived], its creation time defaulted to [now]. *)
Definition chat_message (event : ChatMessageEvent) (now : Time) : ChatMessage :=
  mkChatMessage (trimDiscordChatField (ceMessageID event) 128)
    (trimDiscordChatField (ceUserID event) 128)
    (trimDiscordChatField (ceUsername event) 100)
    (trimDiscordChatField (ceAvatarURL event) 2048) (ceIsBot event)
    (trimDiscordChatContent (ceContent event))
    (trimDiscordChatField (ceTextChannelID event) 128)
    (if IsZero (ceCreatedAt event) then now else ceCreatedAt event).

Definition chat_retry_report (job : VoiceJob) (generation : Z) (message : ChatMessage)
    (err : option error) : workerEventRetryReport :=
  mkReport (workerChatRetryKey job message) evChat job generation [] 0 "" "" false message 0 0 0 0 err.

(** The first section of [ChatMessageReceived]. *)
Definition chat_accept (event : ChatMessageEvent) (m : Manager)
    : option (VoiceJob * option ReporterCaps * Z * ChatMessage) * Manager :=
  if eventsPausedLocked m || (jStreamID (mCurrent m) =s "")
     || (ceStreamID event <>s jStreamID (mCurrent m))
     || (ceGuildID event <>s jGuildID (mCurrent m))
     || (ceTextChannelID event <>s jTextChannelID (mCurrent m))
  then (None, m)
  else (Some (mCurrent m, mReporter m, mReconnectGeneration m, chat_message event (hClock m)),
        m <| mLastEventAt := hClock m |>).

(** [ChatMessageReceived] *)
Definition ChatMessageReceived (event : ChatMessageEvent) : mprog unit :=
  if (trimDiscordChatContent (ceContent event) =s "")
     || (trimDiscordChatField (ceMessageID event) 128 =s "")
     || (trimDiscordChatField (ceUserID event) 128 =s "")
  then ret tt else
  let* accepted := atomic (chat_accept event) in
  match accepted with
  | None => ret tt
  | Some (_, None, _, _) => ret tt
  | Some (job, Some _, generation, message) =>
      do* lock participantReportMu in
      let* chosen := read (fun m =>
        if eventsPausedLocked m || negb (sameWorkerEventJob (mCurrent m) job)
           || negb (mReconnectGeneration m =? generation)
        then None else Some (mReporter m, mWorkerRetry m)) in
      do* match chosen with
          | None => ret tt
          | Some (None, _) => ret tt   (* the reporter is set once, by the constructor *)
          | Some (Some reporter, queue) =>
              let* err := publishChatMessage queue reporter job message in
              match err with
              | Some _ =>
                  do* recordWorkerPublishFailure evChat (jStreamID job) in
                  do* enqueueWorkerEventRetry (chat_retry_report job generation message err) in
                  ret tt
              | None => supersedeWorkerEventRetry job generation (workerChatRetryKey job message)
              end
          end in
      unlock participantReportMu
  end.
End Reporting.

(** ** Reporting makes only quiet calls *)
Section Quiet.
Context `{MapRange}.

Lemma quiet_reportParticipants j ps sr g b :
  qsafe (fun _ => True) (reportParticipantsIfCurrent j ps sr g b).
Proof.
  unfold reportParticipantsIfCurrent, publishParticipants, recordWorkerPublishFailure,
    recordWorkerPublishFailureAttempt, enqueueWorkerEventRetry, supersedeWorkerEventRetry.
  go_walk; reflexivity.
Qed.

Lemma quiet_reportActiveSpeaker j u d s sr g :
  qsafe (fun _ => True) (reportActiveSpeakerIfCurrent j u d s sr g).
Proof.
  unfold reportActiveSpeakerIfCurrent, publishActiveSpeaker, recordWorkerPublishFailure,
    recordWorkerPublishFailureAttempt, enqueueWorkerEventRetry, supersedeWorkerEventRetry.
  go_walk; reflexivity.
Qed.
End Quiet.

#[export] Hint Resolve quiet_reportParticipants quiet_reportActiveSpeaker : go.

(** ** Properties *)

Lemma trimDiscordChatField_bound value n :
  trimmed (trimDiscordChatField value n) /\
  rune_count (trimDiscordChatField value n) <= Z.max 0 n.
Proof.
  unfold trimDiscordChatField. cbv zeta.
  destruct (Z.leb_spec n 0); [split; [done|]; vm_compute (rune_count ""); lia|].
  destruct (Z.leb_spec (Z.of_nat (length (runes (TrimSpace value)))) n).
  - split; [apply trimmed_TrimSpace|]. unfold rune_count. lia.
  - split; [apply trimmed_TrimSpace|]. etrans; [apply rune_count_TrimSpace|].
    etrans; [apply rune_count_take|]. lia.
Qed.

Section Properties.
Context `{MapRange}.

(** What a chat message can put on the overlay is bounded: whatever Discord
    delivers, the message the manager publishes has trimmed fields of at most
    1000 code points of content, 128 of each id, 100 of user name and 2048 of
    avatar URL, and a time stamp. *)
Theorem chat_message_bounded event now :
  let msg := chat_message event now in
  Forall (fun fb => trimmed fb.1 /\ rune_count fb.1 <= fb.2)
    [(cmContent msg, 1000); (cmMessageID msg, 128); (cmUserID msg, 128); (cmUsername msg, 100);
     (cmAvatarURL msg, 2048); (cmTextChannelID msg, 128)] /\
  (IsZero now = false -> IsZero (cmCreatedAt msg) = false).
Proof.
  cbv zeta. split.
  - repeat constructor; cbn [fst snd];
      lazymatch goal with
      | |- trimmed _ => apply trimDiscordChatField_bound
      | |- rune_count _ <= ?b => etrans; [apply trimDiscordChatField_bound|]; lia
      end.
  - intros Hn. unfold chat_message. simpl. by destruct (IsZero (ceCreatedAt event)) eqn:E.
Qed.

(** Only a retryable failure of the current job is kept for a retry:
    [enqueueWorkerEventRetry] makes no call; if it accepts the report, the error
    is retryable, the job and the reconnect generation are still current, and the
    queue in use holds the report under its key, without the error value and
    with no attempt counted; if it refuses for any of these reasons, nothing
    changes. *)
Theorem retry_keeps_current_reports_only en report n m :
  (forall q, mWorkerRetry m = Some q -> is_Some (hQueues m !! q)) ->
  let '(ok, m', tr) := run en (enqueueWorkerEventRetry report) n m in
  tr = [] /\
  if ok then
    shouldRetryWorkerPublish (rErr report) = true /\
    sameWorkerEventJob (mCurrent m) (rJob report) = true /\
    mReconnectGeneration m = rReconnectGeneration report /\
    exists q kept, mWorkerRetry m = Some q /\
      qPending (getQueue q m') !! rKey report = Some kept /\
      rErr kept = None /\ rAttempts kept = 0
  else
    (shouldRetryWorkerPublish (rErr report) = false \/
     currentRetryQueue (rJob report) (rReconnectGeneration report) m = None) -> m' = m.
Proof.
  intros Hq. unfold enqueueWorkerEventRetry.
  destruct (shouldRetryWorkerPublish (rErr report)) eqn:Er; cbn [negb]; [|done].
  cbv zeta. cbn [bind read run].
  change (rJob (report <| rErr := None |>)) with (rJob report).
  change (rReconnectGeneration (report <| rErr := None |>)) with (rReconnectGeneration report).
  destruct (currentRetryQueue (rJob report) (rReconnectGeneration report) m) as [q|] eqn:Ec;
    cbn [run]; [|done].
  cbn [atomic run]. unfold queue_enqueue.
  destruct (enqueue (hClock m) (report <| rErr := None |>) (getQueue q m)) as [[|] qu] eqn:En;
    [|split; [done|]; by intros [|]].
  split; [done|]. split; [done|].
  unfold currentRetryQueue in Ec. destruct (mWorkerRetry m) as [q'|] eqn:Ew; [|done].
  destruct (sameWorkerEventJob (mCurrent m) (rJob report)) eqn:Es; [|done].
  destruct (Z.eqb_spec (mReconnectGeneration m) (rReconnectGeneration report)) as [Hg|]; [|done].
  injection Ec as <-. split; [done|]. split; [done|].
  destruct (enqueue_true _ _ _ _ En) as (_ & q1 & _ & Hp & _).
  exists q'. unfold getQueue, onQueue. simpl. rewrite lookup_alter_eq.
  destruct (Hq q' eq_refl) as [qu0 Hqu0]. rewrite Hqu0. simpl. rewrite Hp.
  change (rKey (report <| rErr := None |>)) with (rKey report).
  eexists. split; [done|]. rewrite lookup_insert_eq. split; [reflexivity|]. done.
Qed.

(** An outdated report is never published: when the retry queue's context is
    canceled, a newer report of the key was accepted, or the queue, the job or
    the reconnect generation is no longer the current one, a delivery makes no
    call and gives the report up. *)
Theorem outdated_report_is_not_published en queue report n m :
  queueCtxDone queue m = true \/ isLatest report (getQueue queue m) = false \/
  retryReportCurrent queue report m = false ->
  run en (deliverWorkerEventRetry queue report) n m
  = (tt, onQueue queue (markDropped report) m, []).
Proof.
  intros Ho. unfold deliverWorkerEventRetry. cbv zeta. cbn [bind read run].
  destruct (queueCtxDone queue m) eqn:Ec; [done|].
  unfold isCurrentWorkerRetryReport at 1. cbn [bind read run].
  destruct (isLatest report (getQueue queue m)) eqn:El; cbn [negb bind read run]; [|done].
  destruct Ho as [|[|Hc]]; [done|done|]. by rewrite Hc.
Qed.
End Properties.

Module Sample.
#[local] Existing Instance canonical_range.

Definition job : VoiceJob :=
  mkVoiceJob "guild" "voice" "text" 1 "stream" "" "" "" "" "http://worker" "token" 0 0 0 false 1.

(** A job with a running retry queue. *)
Definition m0 : Manager :=
  (newQueue ((NewManagerWithReporter (mkVoiceCaps true true true) None 1000)
    <| mCurrent := job |> <| mWorkerRetry := Some 1%nat |>)).2.

Definition failed : workerEventRetryReport :=
  participants_retry_report job 0 [] 5 (Some (PublishError 503 "http_status" true None)).

Definition quiet_env : env Manager ExtCall :=
  Build_env (fun X _ e s => (accept_all X e, s)) (fun _ _ _ s => (false, s)).

Lemma m0_queue q : mWorkerRetry m0 = Some q -> is_Some (hQueues m0 !! q).
Proof. intros [= <-]. eexists. vm_compute. reflexivity. Qed.

Lemma retry_keeps_current_reports_only_witness :
  (run quiet_env (enqueueWorkerEventRetry failed) 0 m0).1.1 = true /\
  exists kept, qPending (getQueue 1 (run quiet_env (enqueueWorkerEventRetry failed) 0 m0).1.2)
    !! rKey failed = Some kept /\ rErr kept = None.
Proof.
  pose proof (retry_keeps_current_reports_only quiet_env failed 0 m0 m0_queue) as Hr.
  assert ((run quiet_env (enqueueWorkerEventRetry failed) 0 m0).1.1 = true) as E
    by (vm_compute; reflexivity).
  destruct (run quiet_env (enqueueWorkerEventRetry failed) 0 m0) as [[ok m'] tr].
  cbn [fst snd] in *. subst ok. split; [reflexivity|].
  destruct Hr as (_ & _ & _ & _ & q & kept & Hq & Hk & He & _).
  injection Hq as <-. exists kept. split; assumption.
Defined.

Lemma outdated_report_is_not_published_witness :
  let old := failed <| rSequence := 3 |> in
  run quiet_env (deliverWorkerEventRetry 1 old) 0 m0 = (tt, onQueue 1 (markDropped old) m0, []).
Proof.
  apply outdated_report_is_not_published. right. left. vm_compute. reflexivity.
Defined.
End Sample.
