(* ===== verification/Participants.v ===== *)
(** * Participants: the participant set, its snapshots, and the speakers

    [internal/jobs/participants.go] and [internal/jobs/active_speakers.go]:
    incremental participant events, authoritative snapshot replacement, the
    snapshot loop of a job, and the speaking state. *)

From S2P Require Import Prelude Conc Errors Types RetryQueue Manager AutoStopState.
From S2P Require Import WorkerReporting.

Open Scope go_scope.

Section Participants.
Context `{MapRange}.

(** ** Participant events *)

(** The record [ParticipantChanged] and [participantsSynced] store: the fields
    of the observation, completed from what is known of the same user. *)
Definition merge_participant (userID username avatarURL : string) (isBot : bool) (now : Time)
    (existing : option Participant) : Participant :=
  match existing with
  | None => mkParticipant userID username avatarURL isBot false now
  | Some old =>
      mkParticipant userID
        (if username =s "" then pUsername old else username)
        (if avatarURL =s "" then pAvatarURL old else avatarURL)
        (isBot || pIsBot old) false
        (if IsZero (pJoinedAt old) then now else pJoinedAt old)
  end.

Definition drop_speaker (userID : string) (m : Manager) : Manager :=
  let m := m <| mActiveSpeakers ::= delete userID |> in
  if mActiveSpeaker m =s userID
  then m <| mActiveSpeaker := anyActiveSpeaker (mActiveSpeakers m) |> else m.

(** What the report after a section needs. *)
Record report_args := mkReportArgs {
  raJob : VoiceJob;
  raParticipants : list Participant;
  raStateRevision : Z;
  raGeneration : Z }.

Definition current_report (m : Manager) : report_args :=
  mkReportArgs (mCurrent m) (participantsSnapshotLocked m) (mParticipantStateRevision m)
    (mReconnectGeneration m).

(** An auto-stop to schedule: stopper, observation and delay. *)
Definition stop_schedule : Type := option (StopperRef * autoStopObservation * Duration).

Definition schedule_of (m : Manager) (o : option (StopperRef * autoStopObservation))
    : stop_schedule :=
  (fun so => (so, mAutoStopDelay m)) <$> o.

(** The section of [ParticipantChanged]: the report, the display name of a
    speaker that left, the auto-stop to schedule. *)
Definition participant_section (event : ParticipantEvent) (m : Manager)
    : option (report_args * option string * stop_schedule) * Manager :=
  if eventsPausedLocked m || (jStreamID (mCurrent m) =s "")
     || (peStreamID event <>s jStreamID (mCurrent m))
  then (None, m)
  else
    let now := hClock m in
    let userID := peUserID event in
    let '(stopped, m) :=
      if pePresent event then
        (None, m <| mParticipants ::= fun ps =>
           <[userID := merge_participant userID (peUsername event) (peAvatarURL event)
                         (peIsBot event) now (ps !! userID)]> ps |>)
      else
        let name := match mParticipants m !! userID with Some p => pUsername p | None => "" end in
        (if mbool (mActiveSpeakers m) userID then Some name else None,
         drop_speaker userID (m <| mParticipants ::= delete userID |>)) in
    let m := m <| mLastEventAt := now |>
               <| mParticipantStateRevision ::= succ_u64 |> in
    let args := current_report m in
    let '(stop, m) := updateAutoStopForParticipantSetLocked (mCurrent m) now "voice_event"
                        (mParticipantSnapshotRevision m) m in
    (Some (args, stopped, schedule_of m stop), m).

Definition schedule_auto_stop (streamID : string) (stop : stop_schedule) : mprog unit :=
  match stop with
  | Some (stopper, observation, delay) =>
      spawn (GAutoStopWhenEmpty streamID observation stopper delay)
  | None => ret tt
  end.

Definition report_participants (a : report_args) : mprog unit :=
  reportParticipantsIfCurrent (raJob a) (raParticipants a) (raStateRevision a) (raGeneration a) true.

(** [ParticipantChanged] *)
Definition ParticipantChanged (event : ParticipantEvent) : mprog unit :=
  if blank (peUserID event) then ret tt else
  let* outcome := atomic (participant_section event) in
  match outcome with
  | None => ret tt
  | Some (a, stopped, stop) =>
      do* report_participants a in
      do* match stopped with
          | Some displayName =>
              reportActiveSpeakerIfCurrent (raJob a) (peUserID event) displayName false
                (raStateRevision a) (raGeneration a)
          | None => ret tt
          end in
      schedule_auto_stop (jStreamID (raJob a)) stop
  end.

(** ** Snapshots *)

(** The loop that builds the new participant map of a snapshot. *)
Definition snapshot_participants (now : Time) (old : gmap string Participant)
    (items : list VoiceParticipant) : gmap string Participant :=
  fold_left (fun acc item =>
    let userID := TrimSpace (vpUserID item) in
    if userID =s "" then acc
    else <[userID := merge_participant userID (TrimSpace (vpUsername item))
             (TrimSpace (vpAvatarURL item)) (vpIsBot item) now (old !! userID)]> acc) items ∅.

(** [for userID := range m.activeSpeakers { if absent { delete } }] *)
Definition retain_speakers (m : Manager) : Manager :=
  m <| mActiveSpeakers ::= fold_left (fun acc userID =>
         if match mParticipants m !! userID with Some _ => false | None => true end
         then delete userID acc else acc) (map_range (mActiveSpeakers m)).*1 |>.

Definition normalize_snapshot (snapshot : ParticipantSnapshot) : ParticipantSnapshot :=
  mkParticipantSnapshot (TrimSpace (psStreamID snapshot)) (TrimSpace (psGuildID snapshot))
    (TrimSpace (psVoiceChannelID snapshot)) (psParticipants snapshot) (psRevision snapshot).

(** The outcome of the section of [participantsSynced]. *)
Inductive sync_outcome :=
| SyncRefused                       (* return false *)
| SyncStale                         (* return true, nothing to publish *)
| SyncReplay (a : report_args)      (* publish the unchanged set *)
| SyncApplied (a : report_args) (stop : stop_schedule).

(** The replacement of the participant set. *)
Definition apply_snapshot (snapshot : ParticipantSnapshot) (now : Time) (m : Manager) : Manager :=
  let m := if mParticipantSnapshotRevision m <? psRevision snapshot
           then m <| mParticipantSnapshotRevision := psRevision snapshot |> else m in
  let m := m <| mParticipants ::= fun old =>
             snapshot_participants now old (psParticipants snapshot) |> in
  let m := retain_speakers m in
  let m := if mbool (mActiveSpeakers m) (mActiveSpeaker m) then m
           else m <| mActiveSpeaker := anyActiveSpeaker (mActiveSpeakers m) |> in
  m <| mLastEventAt := now |> <| mParticipantStateRevision ::= succ_u64 |>.

(** The section of [participantsSynced], [snapshot] normalised. *)
Definition sync_section (snapshot : ParticipantSnapshot)
    (options : participantSnapshotApplyOptions) (m : Manager) : sync_outcome * Manager :=
  let job := mCurrent m in
  if eventsPausedLocked m || (jStreamID job <>s psStreamID snapshot)
     || (jGuildID job <>s psGuildID snapshot)
     || (jVoiceChannelID job <>s psVoiceChannelID snapshot)
     || (aoRequireGeneration options
         && negb (mReconnectGeneration m =? aoExpectedGeneration options))
  then (SyncRefused, m)
  else if aoRequireStateRevision options
          && negb (mParticipantStateRevision m =? aoExpectedStateRevision options)
  then (SyncReplay (current_report m), m)
  else if negb (psRevision snapshot =? 0)
          && (psRevision snapshot <=? mParticipantSnapshotRevision m)
  then
    if aoAuthoritativeReplay options
       && (psRevision snapshot =? mParticipantSnapshotRevision m)
    then (SyncReplay (current_report m), m) else (SyncStale, m)
  else
    let now := hClock m in
    let m := apply_snapshot snapshot now m in
    let args := current_report m in
    let '(stop, m) := updateAutoStopForParticipantSetLocked job now "authoritative_snapshot"
                        (psRevision snapshot) m in
    (SyncApplied args (schedule_of m stop), m).

(** [participantsSynced] *)
Definition participantsSynced (snapshot : ParticipantSnapshot)
    (options : participantSnapshotApplyOptions) : mprog bool :=
  let snapshot := normalize_snapshot snapshot in
  if (psStreamID snapshot =s "") || (psGuildID snapshot =s "")
     || (psVoiceChannelID snapshot =s "")
  then ret false else
  let* outcome := atomic (sync_section snapshot options) in
  match outcome with
  | SyncRefused => ret false
  | SyncStale => ret true
  | SyncReplay a => do* report_participants a in ret true
  | SyncApplied a stop =>
      do* report_participants a in
      do* schedule_auto_stop (jStreamID (raJob a)) stop in
      ret true
  end.

(** [ParticipantsSynced] *)
Definition ParticipantsSynced (snapshot : ParticipantSnapshot) : mprog unit :=
  do* participantsSynced snapshot noApplyOptions in ret tt.

(** [hydrateVoiceParticipants] *)
Definition hydrateVoiceParticipants (job : VoiceJob) (suppressInitialEmpty : bool) : mprog unit :=
  let* source := read (fun m => vcSnapshotSource (mVoice m)) in
  if negb source then ret tt else
  let* snapshot := call (SnapshotVoiceParticipants job) in
  match snapshot with
  | None => ret tt
  | Some snapshot =>
      if suppressInitialEmpty && bool_decide (psParticipants snapshot = []) then ret tt
      else ParticipantsSynced snapshot
  end.

(** [participantJobCurrent] *)
Definition participantJobCurrent (job : VoiceJob) (generation : Z) (requireGeneration : bool)
    (m : Manager) : bool :=
  if requireGeneration && negb (mReconnectGeneration m =? generation) then false
  else negb (eventsPausedLocked m) && sameWorkerEventJob (mCurrent m) job.

(** [hydrateVoiceParticipantsForGeneration] *)
Definition hydrateVoiceParticipantsForGeneration (job : VoiceJob) (suppressEmpty : bool)
    (generation : Z) : mprog bool :=
  let* stateRevision := read (fun m =>
    if negb (mReconnectGeneration m =? generation) || negb (sameWorkerEventJob (mCurrent m) job)
    then None else Some (mParticipantStateRevision m)) in
  match stateRevision with
  | None => ret false
  | Some stateRevision =>
      let* source := read (fun m => vcSnapshotSource (mVoice m)) in
      if negb source then ret false else
      let* snapshot := call (SnapshotVoiceParticipants job) in
      match snapshot with
      | None => read (participantJobCurrent job generation true)
      | Some snapshot =>
          if suppressEmpty && bool_decide (psParticipants snapshot = [])
          then read (participantJobCurrent job generation true)
          else participantsSynced snapshot (mkApplyOptions generation true true stateRevision true)
      end
  end.

(** [waitForParticipantSync] *)
Definition waitForParticipantSync (ctx : nat) (delay : Duration) : mprog bool :=
  if delay <=? 0 then read (fun m => negb (ctxDone ctx m))
  else
    let* done := wait (Some delay) (ctxDone ctx) in
    ret (negb done).

(** The warm-up loop of [keepVoiceParticipantsSynced]; [true] when it ran to
    its end. *)
Fixpoint sync_warmup (ctx : nat) (job : VoiceJob) (generation : Z) (delays : list Duration)
    : mprog bool :=
  match delays with
  | [] => ret true
  | delay :: rest =>
      let* waited := waitForParticipantSync ctx delay in
      if negb waited then ret false else
      let* current := read (participantJobCurrent job generation true) in
      if negb current then ret false else
      let suppressEmpty := match rest with [] => false | _ => true end in
      let* ok := hydrateVoiceParticipantsForGeneration job suppressEmpty generation in
      if negb ok then ret false else sync_warmup ctx job generation rest
  end.

(** [keepVoiceParticipantsSynced] up to its ticker, and one turn of the ticker
    loop. *)
Definition keepVoiceParticipantsSynced (ctx : nat) (job : VoiceJob) (generation : Z)
    : mprog (option label) :=
  let* source := read (fun m => vcSnapshotSource (mVoice m)) in
  if negb source then ret None else
  let* config := read (fun m => (mParticipantSyncDelays m, mParticipantSyncInterval m)) in
  let* ok := sync_warmup ctx job generation config.1 in
  if negb ok || (config.2 <=? 0) then ret None
  else ret (Some (GKeepTick ctx job generation config.2)).

Definition keep_tick (ctx : nat) (job : VoiceJob) (generation : Z) (interval : Duration)
    : mprog (option label) :=
  let* done := wait (Some interval) (ctxDone ctx) in
  if done then ret None else
  let* ok := hydrateVoiceParticipantsForGeneration job false generation in
  if negb ok then ret None else ret (Some (GKeepTick ctx job generation interval)).

(** ** Speakers *)

(** The section of [setSpeakerState]. *)
Inductive speaker_outcome :=
| SpeakerError (msg : string)
| SpeakerUnchanged
| SpeakerChanged (a : report_args) (displayName : string).

Definition set_speaker_section (streamID userID : string) (speaking preserveOthers : bool)
    (m : Manager) : speaker_outcome * Manager :=
  if eventsPausedLocked m || (jStreamID (mCurrent m) =s "")
  then (SpeakerError "no active stream job", m)
  else if (streamID <>s "") && (streamID <>s jStreamID (mCurrent m))
  then (SpeakerError "stream_id does not match current job", m)
  else
  match mParticipants m !! userID with
  | None => (SpeakerError "active speaker must be an active participant", m)
  | Some participant =>
      let currentlySpeaking := mbool (mActiveSpeakers m) userID in
      if preserveOthers && Bool.eqb currentlySpeaking speaking then (SpeakerUnchanged, m)
      else if speaking && negb preserveOthers && currentlySpeaking
              && (mlen (mActiveSpeakers m) =? 1)
      then (SpeakerUnchanged, m)
      else
        let m :=
          if speaking then
            let m := if preserveOthers then m else m <| mActiveSpeakers := ∅ |> in
            m <| mActiveSpeakers ::= insert userID true |> <| mActiveSpeaker := userID |>
          else drop_speaker userID m in
        let m := m <| mParticipantStateRevision ::= succ_u64 |>
                   <| mLastEventAt := hClock m |> in
        (SpeakerChanged (current_report m) (pUsername participant), m)
  end.

(** [setSpeakerState] *)
Definition setSpeakerState (streamID userID : string) (speaking preserveOthers : bool)
    : mprog (option error) :=
  let* outcome := atomic (set_speaker_section streamID userID speaking preserveOthers) in
  match outcome with
  | SpeakerError msg => ret (Some (ErrNew msg))
  | SpeakerUnchanged => ret None
  | SpeakerChanged a displayName =>
      do* report_participants a in
      do* reportActiveSpeakerIfCurrent (raJob a) userID displayName speaking (raStateRevision a)
            (raGeneration a) in
      ret None
  end.

(** The section of [clearSpeakerStates]. *)
Definition clear_speakers_section (streamID : string) (m : Manager) : speaker_outcome * Manager :=
  if jStreamID (mCurrent m) =s "" then (SpeakerError "no active stream job", m)
  else if (streamID <>s "") && (streamID <>s jStreamID (mCurrent m))
  then (SpeakerError "stream_id does not match current job", m)
  else if mlen (mActiveSpeakers m) =? 0 then (SpeakerUnchanged, m)
  else
    let m := m <| mActiveSpeakers := ∅ |> <| mActiveSpeaker := "" |>
               <| mParticipantStateRevision ::= succ_u64 |> <| mLastEventAt := hClock m |> in
    (SpeakerChanged (current_report m) "", m).

(** [clearSpeakerStates] *)
Definition clearSpeakerStates (streamID : string) : mprog (option error) :=
  let* outcome := atomic (clear_speakers_section streamID) in
  match outcome with
  | SpeakerError msg => ret (Some (ErrNew msg))
  | SpeakerUnchanged => ret None
  | SpeakerChanged a _ =>
      do* report_participants a in
      do* reportActiveSpeakerIfCurrent (raJob a) "" "" false (raStateRevision a)
            (raGeneration a) in
      ret None
  end.

(** [SetActiveSpeaker] and [ActiveSpeakerStateChanged] *)
Definition SetActiveSpeaker (streamID userID : string) : mprog (option error) :=
  if userID =s "" then clearSpeakerStates streamID
  else setSpeakerState streamID userID true false.

Definition ActiveSpeakerStateChanged (streamID userID : string) (speaking : bool) : mprog unit :=
  do* setSpeakerState streamID userID speaking true in ret tt.
End Participants.

(** ** Snapshots make only quiet calls *)
Section Quiet.
Context `{MapRange}.

Lemma quiet_participantsSynced s o : qsafe (fun _ => True) (participantsSynced s o).
Proof.
  unfold participantsSynced, report_participants, schedule_auto_stop. go_walk.
Qed.

#[local] Hint Resolve quiet_participantsSynced : go.

Lemma quiet_hydrate j b : qsafe (fun _ => True) (hydrateVoiceParticipants j b).
Proof. unfold hydrateVoiceParticipants, ParticipantsSynced. go_walk; reflexivity. Qed.
End Quiet.

#[export] Hint Resolve quiet_participantsSynced quiet_hydrate : go.

(** ** Properties *)

(** The scheduling of an auto-stop leaves the participants and speakers alone. *)
Definition presence_of (m : Manager) :=
  (mParticipants m, mActiveSpeakers m, mActiveSpeaker m, mParticipantSnapshotRevision m).

Lemma invalidate_presence id m : presence_of (invalidateAutoStopLocked id m) = presence_of m.
Proof. unfold invalidateAutoStopLocked. cbv zeta. by case_match. Qed.

Lemma cancelAutoStop_presence id m : presence_of (cancelAutoStopLocked id m) = presence_of m.
Proof.
  unfold cancelAutoStopLocked. cbv zeta. case_match; [done|].
  rewrite invalidate_presence. by case_match.
Qed.

Lemma recordIntent_presence s g v m : presence_of (recordAutoStopRejoinIntentLocked s g v m) = presence_of m.
Proof. unfold recordAutoStopRejoinIntentLocked. by repeat case_match. Qed.

Lemma updateAutoStop_presence job now source rev m :
  presence_of (updateAutoStopForParticipantSetLocked job now source rev m).2 = presence_of m.
Proof.
  unfold updateAutoStopForParticipantSetLocked. case_match; simpl.
  - rewrite cancelAutoStop_presence. case_match; [apply recordIntent_presence|done].
  - repeat case_match; done.
Qed.

Lemma snapshot_participants_dom now old items k :
  is_Some (snapshot_participants now old items !! k) <->
  k <> "" /\ exists item, item ∈ items /\ TrimSpace (vpUserID item) = k.
Proof.
  unfold snapshot_participants. induction items as [|item items IH] using rev_ind.
  - simpl. rewrite lookup_empty. split; [intros []; done|].
    intros (_ & item & Hin & _). by apply not_elem_of_nil in Hin.
  - rewrite fold_left_app. cbn [fold_left]. cbv zeta.
    destruct (TrimSpace (vpUserID item) =s "") eqn:E; bool_hyps.
    + rewrite IH. set_solver.
    + destruct (decide (k = TrimSpace (vpUserID item))) as [->|Hne].
      * rewrite lookup_insert_eq. split; [|by eexists]. intros _. split; [done|].
        exists item. set_solver.
      * rewrite lookup_insert_ne by congruence. rewrite IH. set_solver.
Qed.

Lemma merge_keeps_join userID n a b now old :
  IsZero (pJoinedAt old) = false ->
  pJoinedAt (merge_participant userID n a b now (Some old)) = pJoinedAt old.
Proof. intros Hz. simpl. by rewrite Hz. Qed.

Lemma snapshot_participants_join now old items k p q :
  snapshot_participants now old items !! k = Some p -> old !! k = Some q ->
  IsZero (pJoinedAt q) = false -> pJoinedAt p = pJoinedAt q.
Proof.
  intros Hp Hq Hz. revert p Hp. unfold snapshot_participants.
  apply (fold_left_ind (fun acc => forall p, acc !! k = Some p -> pJoinedAt p = pJoinedAt q)).
  - intros p. by rewrite lookup_empty.
  - intros acc item _ IH p. cbv zeta. case_match; [by apply IH|].
    intros [[<- <-]|[_ Hp]]%lookup_insert_Some; [|by apply IH].
    rewrite Hq. by apply merge_keeps_join.
Qed.

Section Properties.
Context `{MapRange}.

(** An applied snapshot replaces the participant set exactly: afterwards the
    participants are the users the snapshot lists (trimmed, blank ids left
    out), whoever was present before; a user known before keeps the join time;
    users that disappeared stop speaking and nobody else does; and the
    snapshot's revision is remembered if it is newer. *)
Theorem snapshot_replaces_participants snapshot options m a stop m' :
  sync_section snapshot options m = (SyncApplied a stop, m') ->
  (forall k, is_Some (mParticipants m' !! k) <->
     k <> "" /\ exists item, item ∈ psParticipants snapshot /\ TrimSpace (vpUserID item) = k) /\
  (forall k p q, mParticipants m' !! k = Some p -> mParticipants m !! k = Some q ->
     IsZero (pJoinedAt q) = false -> pJoinedAt p = pJoinedAt q) /\
  (forall k, mActiveSpeakers m' !! k =
     match mParticipants m' !! k with Some _ => mActiveSpeakers m !! k | None => None end) /\
  mParticipantSnapshotRevision m' = Z.max (mParticipantSnapshotRevision m) (psRevision snapshot).
Proof.
  unfold sync_section. cbv zeta. case_match; [done|]. case_match; [done|].
  case_match; [by case_match|].
  match goal with |- context [updateAutoStopForParticipantSetLocked ?j ?t ?s ?r ?x] =>
    pose proof (updateAutoStop_presence j t s r x) as Hu;
    destruct (updateAutoStopForParticipantSetLocked j t s r x) as [st m2] end.
  intros [= _ _ <-]. simpl in Hu. unfold presence_of in Hu. injection Hu as -> -> _ ->.
  set (m1 := if mParticipantSnapshotRevision m <? psRevision snapshot then _ else m).
  assert (mParticipants m1 = mParticipants m /\ mActiveSpeakers m1 = mActiveSpeakers m /\
    mParticipantSnapshotRevision m1 = Z.max (mParticipantSnapshotRevision m) (psRevision snapshot))
    as (Hp & Hs & Hr).
  { unfold m1. destruct (Z.ltb_spec (mParticipantSnapshotRevision m) (psRevision snapshot));
      simpl; repeat split; lia. }
  unfold apply_snapshot. fold m1. clearbody m1. cbv zeta.
  match goal with |- context [if ?b then ?x else ?y] =>
    assert (forall (b' : bool), presence_of ((if b' then x else y) <| mLastEventAt := hClock m |>
      <| mParticipantStateRevision ::= succ_u64 |>) =
      (mParticipants x, mActiveSpeakers x, mActiveSpeaker (if b' then x else y),
       mParticipantSnapshotRevision x)) as Hb by (by intros []);
    specialize (Hb b) end.
  unfold presence_of in Hb. injection Hb as -> -> ->. simpl. rewrite Hp, Hs.
  split; [intros k; apply snapshot_participants_dom|].
  split; [intros k p q; apply snapshot_participants_join|].
  split; [|done]. intros k. rewrite range_delete_lookup. by destruct (_ !! k).
Qed.

(** An older view never replaces a newer one: a snapshot whose revision is not
    above the last applied one changes nothing, whatever it lists, and one that
    does not name the current stream, guild and voice channel, arrives while
    events are paused, or belongs to another generation is refused. *)
Theorem stale_snapshot_is_ignored snapshot options m :
  (psRevision snapshot <> 0 /\ psRevision snapshot <= mParticipantSnapshotRevision m) \/
  eventsPausedLocked m = true \/ psStreamID snapshot <> jStreamID (mCurrent m) \/
  psGuildID snapshot <> jGuildID (mCurrent m) \/
  psVoiceChannelID snapshot <> jVoiceChannelID (mCurrent m) \/
  (aoRequireGeneration options = true /\ mReconnectGeneration m <> aoExpectedGeneration options) ->
  (sync_section snapshot options m).2 = m.
Proof.
  intros Hst. unfold sync_section. cbv zeta. case_match eqn:E1; [done|].
  case_match; [done|]. case_match eqn:E3; [by case_match|]. exfalso.
  repeat (apply orb_false_iff in E1 as [E1 ?]). bool_hyps.
  destruct Hst as [[Hz Hle]|[Hp|[Hs|[Hg|[Hv|[Hr Hgen]]]]]]; try congruence.
  - apply andb_false_iff in E3 as [E3|E3]; bool_hyps; lia.
  - unfold eventsPausedLocked in Hp. apply orb_true_iff in Hp as [Hp|Hp]; congruence.
  - rewrite Hr in *. simpl in *. bool_hyps. congruence.
Qed.

(** A speaking edge moves the highlight only as it should: a user who starts
    speaking is highlighted; a user who stops without being highlighted leaves
    the highlight where it is; when the highlighted user stops, the highlight
    passes to a user who is still speaking, or to nobody if none is. *)
Theorem speaking_edge_highlight streamID userID speaking m a name m' :
  (forall k b, mActiveSpeakers m !! k = Some b -> b = true /\ k <> "") ->
  set_speaker_section streamID userID speaking true m = (SpeakerChanged a name, m') ->
  if speaking then mActiveSpeaker m' = userID /\ mActiveSpeakers m' !! userID = Some true
  else
    mActiveSpeakers m' !! userID = None /\
    (mActiveSpeaker m <> userID -> mActiveSpeaker m' = mActiveSpeaker m) /\
    (mActiveSpeaker m = userID ->
       if decide (mActiveSpeakers m' = ∅) then mActiveSpeaker m' = ""
       else mActiveSpeakers m' !! mActiveSpeaker m' = Some true).
Proof.
  intros Hb. unfold set_speaker_section.
  case_match; [done|]. case_match; [done|]. case_match; [|done]. cbv zeta.
  case_match; [done|]. case_match; [done|]. intros [= _ _ <-].
  destruct speaking; simpl; [by rewrite lookup_insert_eq|].
  unfold drop_speaker. cbv zeta. simpl.
  destruct (mActiveSpeaker m =s userID) eqn:Es; bool_hyps; simpl;
    (split; [apply lookup_delete_eq|]); (split; [done|]); [|done].
  intros _. case_decide as Hd.
  - unfold anyActiveSpeaker. rewrite Hd.
    assert (map_range (∅ : gmap string bool) = []) as ->; [|done].
    apply Permutation_nil_r. rewrite map_range_perm. by rewrite map_to_list_empty.
  - unfold anyActiveSpeaker.
    destruct (list_find _ _) as [[i [k b]]|] eqn:E.
    + apply list_find_Some in E as (Hin & Hk & _). simpl in Hk. subst b.
      apply elem_of_range. by eapply list_elem_of_lookup_2.
    + exfalso. apply Hd, map_empty. intros k. destruct (_ !! k) as [b|] eqn:Ek; [|done].
      apply list_find_None in E. rewrite Forall_forall in E.
      pose proof Ek as Ek'. apply elem_of_range in Ek'. apply E in Ek'.
      apply lookup_delete_Some in Ek as [_ Ek]. by apply Hb in Ek as [-> _].
Qed.
End Properties.

Module Sample.
#[local] Existing Instance canonical_range.

Definition job : VoiceJob :=
  mkVoiceJob "guild" "voice" "text" 1 "stream" "" "" "" "" "http://worker" "token" 0 0 0 false 1.

Definition user (id : string) (joined : Time) : Participant :=
  mkParticipant id "name" "" false false joined.

(** Alice, who speaks, and Bob are present; a snapshot lists Bob and Carol. *)
Definition m0 : Manager :=
  (NewManagerWithReporter (mkVoiceCaps true true true) None 1000)
    <| mCurrent := job |> <| mParticipantSnapshotRevision := 3 |>
    <| mParticipants := {["alice" := user "alice" 10; "bob" := user "bob" 20]} |>
    <| mActiveSpeakers := {["alice" := true]} |> <| mActiveSpeaker := "alice" |>.

Definition snapshot (revision : Z) : ParticipantSnapshot :=
  mkParticipantSnapshot "stream" "guild" "voice"
    [mkVoiceParticipant " bob" "" "" false; mkVoiceParticipant "carol" "Carol" "" false;
     mkVoiceParticipant " " "" "" false] revision.

Lemma snapshot_replaces_participants_witness :
  match sync_section (snapshot 4) noApplyOptions m0 with
  | (SyncApplied _ _, m') =>
      is_Some (mParticipants m' !! "carol") /\ ~ is_Some (mParticipants m' !! "alice") /\
      mActiveSpeakers m' !! "alice" = None /\ mParticipantSnapshotRevision m' = 4
  | _ => False
  end.
Proof.
  assert (match (sync_section (snapshot 4) noApplyOptions m0).1 with
          | SyncApplied _ _ => True | _ => False end) as E by (vm_compute; exact I).
  destruct (sync_section (snapshot 4) noApplyOptions m0) as [[| | |a stop] m'] eqn:Es; try destruct E.
  destruct (snapshot_replaces_participants _ _ _ _ _ _ Es) as (Hp & _ & Hs & Hr).
  assert (~ is_Some (mParticipants m' !! "alice")) as Ha.
  { intros [_ (item & Hin & Hi)]%Hp. simpl in Hin.
    repeat (apply elem_of_cons in Hin as [->|Hin]; [vm_compute in Hi; discriminate|]).
    apply not_elem_of_nil in Hin. exact Hin. }
  split; [|split; [exact Ha|split]].
  - apply Hp. split; [discriminate|]. exists (mkVoiceParticipant "carol" "Carol" "" false).
    split; [|vm_compute; reflexivity].
    apply list_elem_of_further, list_elem_of_here.
  - rewrite Hs. destruct (mParticipants m' !! "alice"); [|reflexivity].
    exfalso. apply Ha. eexists. reflexivity.
  - rewrite Hr. vm_compute. reflexivity.
Defined.

Lemma stale_snapshot_is_ignored_witness :
  (sync_section (snapshot 3) noApplyOptions m0).2 = m0.
Proof. apply stale_snapshot_is_ignored. left. split; vm_compute; congruence. Defined.

Lemma speaking_edge_highlight_witness :
  match set_speaker_section "stream" "bob" true true m0 with
  | (SpeakerChanged _ _, m') => mActiveSpeaker m' = "bob"
  | _ => False
  end.
Proof.
  assert (forall k b, mActiveSpeakers m0 !! k = Some b -> b = true /\ k <> "") as Hb.
  { intros k b Hk. unfold m0 in Hk. simpl in Hk.
    apply lookup_singleton_Some in Hk as [<- <-]. split; [reflexivity|discriminate]. }
  assert (match (set_speaker_section "stream" "bob" true true m0).1 with
          | SpeakerChanged _ _ => True | _ => False end) as E by (vm_compute; exact I).
  destruct (set_speaker_section "stream" "bob" true true m0) as [[| |a name] m'] eqn:Es;
    try destruct E.
  exact (proj1 (speaking_edge_highlight "stream" "bob" true m0 a name m' Hb Es)).
Defined.
End Sample.
