(* ===== verification/AutoStart.v ===== *)
(** * AutoStart: joining a voice channel starts its waiting stream

    [internal/jobs/auto_start.go] and [auto_start_capacity.go]: the reservation
    path of a join event, the goroutine that asks the Control Panel to start
    the stream, its bounded retries, and the presence checks before each
    request. *)

From S2P Require Import Prelude Conc Errors Types RetryQueue Manager AutoStopState.

Open Scope go_scope.

(** ** Authority *)

(** [autoStartAuthorityMatches] *)
Definition autoStartAuthorityMatches (streamID epoch : string) (event : VoiceJoinEvent) : bool :=
  match veAuthority event with
  | None => epoch =s ""
  | Some authority =>
      (auStreamID authority =s streamID) && (auAssignmentEpoch authority =s epoch)
  end.

(** [autoStartEventAuthorizedLocked] *)
Definition autoStartEventAuthorizedLocked (streamID : string) (event : VoiceJoinEvent)
    (m : Manager) : bool :=
  autoStartAuthorityMatches streamID
    (vdAssignmentEpoch (mread zeroVoiceDefaults (mStreamDefaults m) streamID)) event.

(** [shouldLogAutoStartLocked] *)
Definition shouldLogAutoStartLocked (key : string) (now : Time) (m : Manager) : bool * Manager :=
  if (key =s mLastAutoStartLogKey m) && negb (IsZero (mLastAutoStartLogAt m))
     && (Sub now (mLastAutoStartLogAt m) <? 10 * Second)
  then (false, m)
  else (true, m <| mLastAutoStartLogKey := key |> <| mLastAutoStartLogAt := now |>).

(** ** Retries *)

Definition getRetry (retry : nat) (m : Manager) : autoStartRetry :=
  default (mkRetry "" 0 0 "" "" false) (hRetries m !! retry).

(** [cancelAutoStartRetryLocked] *)
Definition cancelAutoStartRetryLocked (streamID : string) (m : Manager) : Manager :=
  match mAutoStartRetries m !! streamID with
  | Some retry =>
      (cancelContext (arCancel (getRetry retry m)) m) <| mAutoStartRetries ::= delete streamID |>
  | None => m
  end.

Definition retry_is (streamID : string) (retry : nat) (m : Manager) : bool :=
  bool_decide (mAutoStartRetries m !! streamID = Some retry).

(** [finishAutoStartRetry] *)
Definition finishAutoStartRetry (streamID : string) (retry : nat) (m : Manager) : Manager :=
  let m :=
    if retry_is streamID retry m then
      let m := if arCapacityBusy (getRetry retry m) && (jStreamID (mCurrent m) =s "")
               then m <| mAutoStartPending ::= delete streamID |> else m in
      m <| mAutoStartRetries ::= delete streamID |>
    else m in
  cancelContext (arCancel (getRetry retry m)) m.

(** [noteAutoStartCapacityResult] *)
Definition noteAutoStartCapacityResult (streamID : string) (retry : nat) (err : option error)
    (m : Manager) : Manager :=
  if retry_is streamID retry m
  then m <| hRetries ::= alter (fun r => r <| arCapacityBusy := capacityBusyError err |>) retry |>
  else m.

Section AutoStart.
Context `{MapRange}.

(** [cancelAllAutoStartRetriesLocked] *)
Definition cancelAllAutoStartRetriesLocked (m : Manager) : Manager :=
  fold_left (fun m streamID => cancelAutoStartRetryLocked streamID m)
    (map_range (mAutoStartRetries m)).*1 m.

(** ** The waiting stream of a voice channel *)

(** The loop of [matchingAutoStartStreamLocked]. *)
Fixpoint matching_scan (guildID voiceChannelID matched : string)
    (entries : list (string * VoiceDefaults)) : string :=
  match entries with
  | [] => matched
  | (streamID, defaults) :: rest =>
      if negb (vdAutoStartEnabled defaults) then matching_scan guildID voiceChannelID matched rest
      else if (vdGuildID defaults <>s guildID) || (vdVoiceChannelID defaults <>s voiceChannelID)
      then matching_scan guildID voiceChannelID matched rest
      else if matched <>s "" then ""
      else matching_scan guildID voiceChannelID streamID rest
  end.

(** [matchingAutoStartStreamLocked] *)
Definition matchingAutoStartStreamLocked (guildID voiceChannelID : string) (m : Manager)
    : string :=
  let guildID := TrimSpace guildID in
  let voiceChannelID := TrimSpace voiceChannelID in
  if (guildID =s "") || (voiceChannelID =s "") then ""
  else matching_scan guildID voiceChannelID "" (map_range (mStreamDefaults m)).

(** [autoStartRetryStillValidLocked] *)
Definition autoStartRetryStillValidLocked (streamID : string) (retry : nat) (m : Manager) : bool :=
  let r := getRetry retry m in
  if negb (retry_is streamID retry m) || (jStreamID (mCurrent m) <>s "")
     || negb (mReconnectGeneration m =? arReconnectGeneration r)
  then false
  else
    (vdAssignmentEpoch (mread zeroVoiceDefaults (mStreamDefaults m) streamID)
       =s arAssignmentEpoch r)
    && (matchingAutoStartStreamLocked (arGuildID r) (arVoiceChannelID r) m =s streamID).

(** The second section of [autoStartRetryStillValid]. *)
Definition presence_section (streamID : string) (retry : nat) (present known : bool) (m : Manager)
    : bool * Manager :=
  if negb (autoStartRetryStillValidLocked streamID retry m) then (false, m)
  else if negb known || negb present
  then (false, (cancelAutoStartRetryLocked streamID m) <| mAutoStartPending ::= delete streamID |>)
  else (true, m).

(** [autoStartRetryStillValid] *)
Definition autoStartRetryStillValid (streamID : string) (retry : nat) : mprog bool :=
  let* valid := read (autoStartRetryStillValidLocked streamID retry) in
  if negb valid then ret false else
  let* source := read (fun m => vcPresenceSource (mVoice m)) in
  if negb source then ret true else
  let* target := read (fun m =>
    let r := getRetry retry m in
    mkAutoStartVoiceTarget (arAssignmentEpoch r) streamID (arGuildID r) (arVoiceChannelID r)) in
  let* answer := call (AutoStartVoicePresence target) in
  atomic (presence_section streamID retry answer.1 answer.2).

(** The loop of [retryAutoStart]. *)
Fixpoint retry_loop (retryCtx retry starter : nat) (streamID : string) (delays : list Duration)
    : mprog unit :=
  match delays with
  | [] => ret tt
  | delay :: rest =>
      let* done := wait (Some delay) (ctxDone retryCtx) in
      if done then ret tt else
      let* valid := autoStartRetryStillValid streamID retry in
      if negb valid then ret tt else
      let* err := call (StartStream starter streamID) in
      do* modify (noteAutoStartCapacityResult streamID retry err) in
      match err with
      | None => ret tt
      | Some e =>
          if negb (isRetryableAutoStartError e) then ret tt
          else retry_loop retryCtx retry starter streamID rest
      end
  end.

(** [retryAutoStart] *)
Definition retryAutoStart (retryCtx retry starter : nat) (streamID : string) : mprog unit :=
  let* delays := read mAutoStartRetryDelays in
  retry_loop retryCtx retry starter streamID delays.

(** ** Join events *)

Definition normalize_join (event : VoiceJoinEvent) : VoiceJoinEvent :=
  mkVoiceJoinEvent (veAuthority event) (veExistingPresence event) (TrimSpace (veGuildID event))
    (TrimSpace (veVoiceChannelID event)) (TrimSpace (veUserID event)) (veUsername event).

(** The first section of [VoiceUserJoined], [event] normalised: [None] when it
    returns, otherwise the candidate stream, the refresher and whether to
    refresh. *)
Definition join_section (event : VoiceJoinEvent) (now : Time) (m : Manager)
    : option (string * option nat * bool) * Manager :=
  let guildID := veGuildID event in
  let voiceChannelID := veVoiceChannelID event in
  if veExistingPresence event && (jStreamID (mCurrent m) <>s "") then (None, m)
  else if jStreamID (mCurrent m) <>s "" then
    let current := mCurrent m in
    if negb (autoStartAuthorityMatches (jStreamID current) (mCurrentAssignmentEpoch m) event)
    then (None, m)
    else if (jGuildID current =s guildID) && (jVoiceChannelID current =s voiceChannelID)
            && hasAutoStopInFlightLocked (jStreamID current) m
    then (None, cancelAutoStopLocked (jStreamID current)
                  (recordAutoStopRejoinIntentLocked (jStreamID current) guildID voiceChannelID m))
    else (None, m)
  else
  let source := inFlightAutoStopStreamForVoiceLocked guildID voiceChannelID m in
  if veExistingPresence event && (source <>s "") then (None, m)
  else if source <>s "" then
    let epoch := match mAutoStopInFlight m !! source with
                 | Some flight => ifAssignmentEpoch flight
                 | None => ""
                 end in
    if negb (autoStartAuthorityMatches source epoch event) then (None, m)
    else (None, recordAutoStopRejoinIntentLocked source guildID voiceChannelID m)
  else
  let streamID := matchingAutoStartStreamLocked guildID voiceChannelID m in
  let shouldRefresh :=
    (streamID =s "") && match mAutoStartRefresher m with Some _ => true | None => false end
    && ((mAutoStartRefreshWait m <=? 0) || IsZero (mAutoStartRefreshAt m)
        || (mAutoStartRefreshWait m <=? Sub now (mAutoStartRefreshAt m))) in
  (Some (streamID, mAutoStartRefresher m, shouldRefresh),
   if shouldRefresh then m <| mAutoStartRefreshAt := now |> else m).

(** The reservation: the section of [VoiceUserJoined] from the authority check
    to the creation of the retry; [Some] starts the goroutine. *)
Definition reserve_section (streamID : string) (event : VoiceJoinEvent) (now : Time) (m : Manager)
    : option (nat * nat * nat) * Manager :=
  if (streamID <>s "") && negb (autoStartEventAuthorizedLocked streamID event m) then (None, m)
  else if streamID =s "" then (None, (shouldLogAutoStartLocked "no-candidate" now m).2)
  else
  match mStreamStarter m with
  | None => (None, (shouldLogAutoStartLocked ("starter-missing:" ++ streamID) now m).2)
  | Some starter =>
      let stopped := match mAutoStartStopped m !! streamID with
                     | Some _ => true | None => false end in
      if stopped && veExistingPresence event then (None, m)
      else
      let m := if stopped
               then m <| mAutoStartStopped ::= delete streamID |>
                      <| mAutoStartPending ::= delete streamID |>
               else m in
      match mAutoStartRetries m !! streamID with
      | Some _ => (None, m)
      | None =>
          if match mAutoStartPending m !! streamID with
             | Some last => Sub now last <? mAutoStartCooldown m
             | None => false
             end
          then (None, m)
          else
            let m := m <| mAutoStartPending ::= insert streamID now |> in
            let '(ctx, m) := newContext m in
            let retry := hNextRef m in
            let m := m <| hNextRef ::= S |>
              <| hRetries ::= insert retry (mkRetry
                   (vdAssignmentEpoch (mread zeroVoiceDefaults (mStreamDefaults m) streamID))
                   ctx (mReconnectGeneration m) (veGuildID event) (veVoiceChannelID event) false) |>
              <| mAutoStartRetries ::= insert streamID retry |>
              <| mLastEventAt := now |> in
            (Some (ctx, retry, starter), m)
      end
  end.

(** [VoiceUserJoined] *)
Definition VoiceUserJoined (event : VoiceJoinEvent) : mprog unit :=
  let event := normalize_join event in
  if (veGuildID event =s "") || (veVoiceChannelID event =s "") || (veUserID event =s "")
  then ret tt else
  let* now := read hClock in
  let* first := atomic (join_section event now) in
  match first with
  | None => ret tt
  | Some (streamID, refresher, shouldRefresh) =>
      let* stop :=
        (if shouldRefresh then
           match refresher with
           | Some f => let* err := call (Refresh f) in
                       ret (match err with Some _ => true | None => false end)
           | None => ret false
           end
         else ret false) in
      if stop then ret tt else
      let* reserved := atomic (fun m =>
        if shouldRefresh && (jStreamID (mCurrent m) <>s "") then (None, m)
        else
          let streamID :=
            if shouldRefresh
            then matchingAutoStartStreamLocked (veGuildID event) (veVoiceChannelID event) m
            else streamID in
          let '(r, m) := reserve_section streamID event now m in
          ((fun c => (streamID, c)) <$> r, m)) in
      match reserved with
      | None => ret tt
      | Some (streamID, (ctx, retry, starter)) =>
          spawn (GAutoStart streamID ctx retry starter refresher event)
      end
  end.

(** ** The goroutine of a reservation *)

(** The branch after a refusal that is not retried: a stale stream id is
    refreshed, and a successor starts over as a join. *)
Definition refresh_stale (streamID : string) (refresher : option nat) (event : VoiceJoinEvent)
    (e : error) : mprog unit :=
  match refresher with
  | None => ret tt
  | Some f =>
      if negb (isStaleAutoStartError e) then ret tt else
      let* refreshErr := call (Refresh f) in
      match refreshErr with
      | Some _ => ret tt
      | None =>
          let* successor := read (fun m =>
            if jStreamID (mCurrent m) <>s "" then None
            else Some (matchingAutoStartStreamLocked (veGuildID event)
                         (veVoiceChannelID event) m)) in
          match successor with
          | None => ret tt
          | Some successor =>
              if (successor =s "") || (successor =s streamID) then ret tt
              else VoiceUserJoined event
          end
      end
  end.

(** The body before the deferred [finishAutoStartRetry]. *)
Definition auto_start_body (streamID : string) (retryCtx retry starter : nat)
    (refresher : option nat) (event : VoiceJoinEvent) : mprog unit :=
  let* canceled := read (ctxDone retryCtx) in
  if canceled then ret tt else
  let* valid := autoStartRetryStillValid streamID retry in
  if negb valid then ret tt else
  let* err := call (StartStream starter streamID) in
  match err with
  | None => ret tt
  | Some e =>
      do* modify (noteAutoStartCapacityResult streamID retry err) in
      if isRetryableAutoStartError e then retryAutoStart retryCtx retry starter streamID
      else refresh_stale streamID refresher event e
  end.

Definition autoStartGoroutine (streamID : string) (retryCtx retry starter : nat)
    (refresher : option nat) (event : VoiceJoinEvent) : mprog (option label) :=
  do* auto_start_body streamID retryCtx retry starter refresher event in
  do* modify (finishAutoStartRetry streamID retry) in
  ret None.
End AutoStart.

(** [SetStreamStarter] and [SetAutoStartRefresher] *)
Definition SetStreamStarter (starter : option nat) (m : Manager) : Manager :=
  m <| mStreamStarter := starter |>.

Definition SetAutoStartRefresher (refresher : option nat) (m : Manager) : Manager :=
  m <| mAutoStartRefresher := refresher |> <| mAutoStartRefreshAt := zeroTime |>.

(** ** The candidate stream *)

Section Candidates.
Context `{MapRange}.

(** An entry that waits in the voice channel [v] of the guild [g]. *)
Definition waits_in (g v : string) (kd : string * VoiceDefaults) : bool :=
  vdAutoStartEnabled kd.2 && (vdGuildID kd.2 =s g) && (vdVoiceChannelID kd.2 =s v).

Lemma matching_scan_cons g v matched kd l :
  matching_scan g v matched (kd :: l) =
  if waits_in g v kd then (if matched <>s "" then "" else matching_scan g v kd.1 l)
  else matching_scan g v matched l.
Proof.
  destruct kd as [k d]. unfold waits_in. simpl.
  destruct (vdAutoStartEnabled d), (vdGuildID d =s g), (vdVoiceChannelID d =s v); reflexivity.
Qed.

(** The scan answers the only entry that passes the filter. *)
Lemma matching_scan_filter g v l matched :
  (forall d, ("", d) ∉ l) ->
  matching_scan g v matched l =
  match filter (fun kd => waits_in g v kd = true) l with
  | [] => matched
  | [kd] => if matched <>s "" then "" else kd.1
  | _ => ""
  end.
Proof.
  revert matched. induction l as [|[k d] l IH]; intros matched Hl; [done|].
  assert (forall d', ("", d') ∉ l) as Hl' by (intros d' Hd; by apply (Hl d'), list_elem_of_further).
  assert (k <> "") as Hk by (intros ->; by apply (Hl d), list_elem_of_here).
  rewrite matching_scan_cons, filter_cons. destruct (waits_in g v (k, d)) eqn:E.
  - rewrite decide_True by done. cbn [fst]. rewrite (IH k Hl').
    apply String.eqb_neq in Hk. simpl. rewrite Hk. simpl.
    destruct (filter _ l) as [|? [|]], (matched =s ""); reflexivity.
  - rewrite decide_False by congruence. by apply IH.
Qed.

Lemma singleton_of_unique {A} (l : list A) x :
  NoDup l -> x ∈ l -> (forall y, y ∈ l -> y = x) -> l = [x].
Proof.
  intros Hnd Hx Hu. destruct l as [|y [|z l]].
  - by apply not_elem_of_nil in Hx.
  - f_equal. apply Hu, list_elem_of_here.
  - apply NoDup_cons in Hnd as [Hn _].
    rewrite (Hu y) in Hn by apply list_elem_of_here.
    rewrite (Hu z) in Hn by apply list_elem_of_further, list_elem_of_here.
    destruct Hn. apply list_elem_of_here.
Qed.

(** The stream a join starts is the only enabled waiting stream of that
    voice channel: [matchingAutoStartStreamLocked] answers [id] exactly when
    [id] waits there and no other stream does, and it answers nothing when two
    streams claim the channel, whatever order the map is ranged over. *)
Theorem matching_is_the_unique_candidate g v id m :
  trimmed g -> trimmed v -> g <> "" -> v <> "" -> id <> "" ->
  mStreamDefaults m !! "" = None ->
  matchingAutoStartStreamLocked g v m = id <->
  (exists d, mStreamDefaults m !! id = Some d /\ waits_in g v (id, d) = true) /\
  (forall id' d', mStreamDefaults m !! id' = Some d' -> waits_in g v (id', d') = true -> id' = id).
Proof.
  intros Hg Hv Hg0 Hv0 Hid Hempty. unfold matchingAutoStartStreamLocked. rewrite Hg, Hv.
  apply String.eqb_neq in Hg0, Hv0. rewrite Hg0, Hv0. simpl.
  rewrite matching_scan_filter.
  2:{ intros d Hd%elem_of_range. congruence. }
  set (l := filter _ _).
  assert (forall k d, (k, d) ∈ l <-> mStreamDefaults m !! k = Some d /\ waits_in g v (k, d) = true)
    as Hl by (intros k d; unfold l; rewrite list_elem_of_filter, elem_of_range; tauto).
  assert (NoDup l) as Hnd.
  { unfold l. apply NoDup_filter. eapply NoDup_fmap_1. apply range_NoDup_fst. }
  split.
  - destruct l as [|[k d] [|]]; simpl; try congruence. intros ->.
    assert ((id, d) ∈ [(id, d)]) as Hin by apply list_elem_of_here. apply Hl in Hin.
    split; [by exists d|]. intros id' d' Hd' Hw.
    assert ((id', d') ∈ [(id, d)]) as Hin' by (apply Hl; done).
    apply list_elem_of_singleton in Hin'. congruence.
  - intros [(d & Hd & Hw) Hu].
    rewrite (singleton_of_unique l (id, d)); [done|done|by apply Hl|].
    intros [k d'] [Hk Hw']%Hl. assert (k = id) as -> by (by eapply Hu). congruence.
Qed.

(** ** Reservations *)

Lemma reserve_refused id event now m :
  is_Some (mAutoStartRetries m !! id) -> (reserve_section id event now m).1 = None.
Proof.
  intros [r Hr]. unfold reserve_section. case_match; [done|]. case_match; [done|].
  case_match; [|done]. case_match; [done|].
  match goal with |- (match mAutoStartRetries ?x !! id with _ => _ end).1 = None =>
    replace (mAutoStartRetries x !! id) with (Some r); [done|] end.
  by case_match.
Qed.

Lemma reserve_recorded id event now m c m' :
  reserve_section id event now m = (Some c, m') -> is_Some (mAutoStartRetries m' !! id).
Proof.
  unfold reserve_section. case_match; [done|]. case_match; [done|].
  case_match; [|done]. case_match; [done|].
  match goal with |- match mAutoStartRetries ?x !! id with _ => _ end = _ -> _ =>
    generalize x end.
  intros m1. destruct (mAutoStartRetries m1 !! id); [done|].
  destruct (match mAutoStartPending m1 !! id with Some _ => _ | None => _ end); [done|].
  cbn. intros [= _ <-]. simpl. rewrite lookup_insert_eq. by eexists.
Qed.

(** A burst of joins starts a stream once: after a reservation succeeded,
    every further reservation of the same stream is refused, whatever the
    event and the time, until the reservation's goroutine has finished. *)
Theorem reservation_is_exclusive id event now event' now' m c m' :
  reserve_section id event now m = (Some c, m') ->
  (reserve_section id event' now' m').1 = None.
Proof. intros Hr. eapply reserve_refused, reserve_recorded, Hr. Qed.

(** A stopped stream stays stopped for those who never left: an event of an
    existing presence neither restarts a stream recorded as stopped nor changes
    the state, while a genuine join of an authorized member clears the record. *)
Theorem existing_presence_does_not_restart id event now m d starter :
  mAutoStartStopped m !! id = Some d -> mStreamStarter m = Some starter -> id <> "" ->
  autoStartEventAuthorizedLocked id event m = true ->
  if veExistingPresence event
  then reserve_section id event now m = (None, m)
  else mAutoStartStopped (reserve_section id event now m).2 !! id = None.
Proof.
  intros Hd Hst Hid Hauth. unfold reserve_section. rewrite Hauth, Hst, Hd.
  rewrite andb_false_r. apply String.eqb_neq in Hid. rewrite Hid.
  destruct (veExistingPresence event); [done|]. cbn [andb].
  cbv iota. destruct (mAutoStartRetries _ !! id); [apply lookup_delete_eq|].
  destruct (match _ with Some _ => _ | None => _ end); apply lookup_delete_eq.
Qed.

(** A join without the stream's authority is ignored: when the event does
    not carry the assignment epoch of the waiting stream (or carries none while
    the stream has one), no start is reserved and the state is unchanged. *)
Theorem unauthorized_join_is_ignored id event now m :
  id <> "" ->
  match veAuthority event with
  | None => vdAssignmentEpoch (mread zeroVoiceDefaults (mStreamDefaults m) id) <> ""
  | Some a => auStreamID a <> id \/
      auAssignmentEpoch a <> vdAssignmentEpoch (mread zeroVoiceDefaults (mStreamDefaults m) id)
  end ->
  reserve_section id event now m = (None, m).
Proof.
  intros Hid Ha. unfold reserve_section.
  assert (autoStartEventAuthorizedLocked id event m = false) as ->.
  { unfold autoStartEventAuthorizedLocked, autoStartAuthorityMatches.
    destruct (veAuthority event) as [a|]; [|by apply String.eqb_neq].
    apply andb_false_iff. rewrite !String.eqb_neq. exact Ha. }
  apply String.eqb_neq in Hid. by rewrite Hid.
Qed.
End Candidates.

(** ** Requests of one reservation *)

Section Requests.
Context `{MapRange}.

Definition is_start X (e : ExtCall X) : bool := match e with StartStream _ _ => true | _ => false end.

Abbreviation no_start :=
  (@safe Manager ExtCall label mutex (fun _ => True) (fun _ e => is_start _ e = false)
     (fun _ => True) _).

Lemma no_start_calls {A} en (p : mprog A) n s :
  no_start (fun _ => True) p -> calls is_start (run en p n s).2 = 0.
Proof.
  intros Hp.
  pose proof (run_safe (fun _ => True) (fun _ e => is_start _ e = false) (fun _ => True)
    (fun _ => True) en p n s (conj (fun _ _ _ _ _ => I) (fun _ _ _ _ _ => I)) I Hp) as Hr.
  destruct (run en p n s) as [[a s'] tr]. destruct Hr as (_ & _ & Htr). simpl. clear -Htr.
  induction Htr as [|o tr Ho _ IH]; simpl; [done|].
  destruct o as [X e x| |]; try done. simpl in Ho. by rewrite Ho.
Qed.

Lemma no_start_retryValid id r : no_start (fun _ => True) (autoStartRetryStillValid id r).
Proof. unfold autoStartRetryStillValid. go_walk; reflexivity. Qed.

Lemma no_start_join e : no_start (fun _ => True) (VoiceUserJoined e).
Proof. unfold VoiceUserJoined. go_walk; reflexivity. Qed.

#[local] Hint Resolve no_start_join : go.

Lemma no_start_stale id f ev e : no_start (fun _ => True) (refresh_stale id f ev e).
Proof. unfold refresh_stale. go_walk; reflexivity. Qed.

Lemma retry_loop_starts en c r st id ds : forall n s,
  calls is_start (run en (retry_loop c r st id ds) n s).2 <= Z.of_nat (length ds).
Proof.
  induction ds as [|d ds IH]; intros n s; cbn [retry_loop].
  { simpl. lia. }
  cbn [bind wait run]. destruct (env_wait en n (Some d) (ctxDone c) s) as [[|] s1];
    cbn [bind run]; [simpl; lia|].
  rewrite run_bind.
  pose proof (no_start_calls en (autoStartRetryStillValid id r) (S n) s1 (no_start_retryValid id r))
    as Hv.
  destruct (run en (autoStartRetryStillValid id r) (S n) s1) as [[[|] s2] t1]; cbn [snd negb] in *.
  2:{ cbn [run snd]. rewrite app_nil_r. cbn [calls fold_right] in *. fold (calls is_start t1). lia. }
  cbn [bind call run].
  destruct (env_call en _ _ (StartStream st id) s2) as [err s3]. cbn [bind modify run fst snd].
  destruct err as [e|]; [destruct (isRetryableAutoStartError e); cbn [negb]|].
  - match goal with |- context [run en (retry_loop c r st id ds) ?k ?x] =>
      specialize (IH k x); destruct (run en (retry_loop c r st id ds) k x) as [[u s4] t2] end.
    cbn [snd] in *. cbn [calls fold_right]. fold (calls is_start (t1 ++ OCall (StartStream st id) (Some e) :: t2)%list).
    rewrite calls_app. cbn [calls fold_right is_start]. fold (calls is_start t2). simpl length. lia.
  - cbn [run snd calls fold_right].
    fold (calls is_start (t1 ++ [OCall (StartStream st id) (Some e)])%list).
    rewrite calls_app. cbn [calls fold_right is_start]. simpl length. lia.
  - cbn [run snd calls fold_right].
    fold (calls is_start (t1 ++ [OCall (StartStream st id) None])%list).
    rewrite calls_app. cbn [calls fold_right is_start]. simpl length. lia.
Qed.

(** The environment leaves the configured retry delays alone. *)
Definition keeps_retry_delays (en : env Manager ExtCall) : Prop :=
  (forall X n (e : ExtCall X) s,
     mAutoStartRetryDelays (env_call en X n e s).2 = mAutoStartRetryDelays s) /\
  (forall n d c s, mAutoStartRetryDelays (env_wait en n d c s).2 = mAutoStartRetryDelays s).

Lemma run_keeps_delays {A} en (p : mprog A) n s D :
  keeps_retry_delays en -> mAutoStartRetryDelays s = D ->
  @safe Manager ExtCall label mutex (fun m => mAutoStartRetryDelays m = D) (fun _ _ => True)
    (fun _ => True) _ (fun _ => True) p ->
  mAutoStartRetryDelays (run en p n s).1.2 = D.
Proof.
  intros [Hc Hw] HD Hp.
  pose proof (run_safe (fun m => mAutoStartRetryDelays m = D) (fun _ _ => True) (fun _ => True)
    (fun _ => True) en p n s) as Hr.
  destruct (run en p n s) as [[a s'] tr]. simpl. apply Hr; [|done|done].
  split; intros; congruence.
Qed.

Lemma presence_delays id r p k m :
  mAutoStartRetryDelays (presence_section id r p k m).2 = mAutoStartRetryDelays m.
Proof.
  unfold presence_section, cancelAutoStartRetryLocked. case_match; [done|].
  case_match; [|done]. simpl. by case_match.
Qed.

Lemma delays_retryValid en id r n s D :
  keeps_retry_delays en -> mAutoStartRetryDelays s = D ->
  mAutoStartRetryDelays (run en (autoStartRetryStillValid id r) n s).1.2 = D.
Proof.
  intros Hen HD. apply run_keeps_delays; [done|done|].
  unfold autoStartRetryStillValid. go_walk. by rewrite presence_delays.
Qed.

Lemma note_delays id r e m :
  mAutoStartRetryDelays (noteAutoStartCapacityResult id r e m) = mAutoStartRetryDelays m.
Proof. unfold noteAutoStartCapacityResult. by case_match. Qed.

(** C27: one reservation asks the Control Panel to start its stream at most once
    plus once per configured retry delay, whatever the Control Panel answers
    and whatever else happens, as long as the configured delays stay the
    same. *)
Theorem start_requests_bounded en id c r st f e k m :
  keeps_retry_delays en ->
  calls is_start (run en (autoStartGoroutine id c r st f e) k m).2
  <= 1 + Z.of_nat (length (mAutoStartRetryDelays m)).
Proof.
  intros Hen. unfold autoStartGoroutine. rewrite run_bind.
  assert (calls is_start (run en (auto_start_body id c r st f e) k m).2
          <= 1 + Z.of_nat (length (mAutoStartRetryDelays m))) as Hb.
  2:{ destruct (run en (auto_start_body id c r st f e) k m) as [[u s] t]. cbn [snd] in Hb.
      cbn [bind modify run fst snd]. by rewrite app_nil_r. }
  unfold auto_start_body. cbn [bind read run]. destruct (ctxDone c m); [simpl; lia|].
  rewrite run_bind.
  pose proof (no_start_calls en (autoStartRetryStillValid id r) k m (no_start_retryValid id r)) as Hv.
  pose proof (delays_retryValid en id r k m _ Hen eq_refl) as Hd.
  destruct (run en (autoStartRetryStillValid id r) k m) as [[[|] s2] t1]; cbn [fst snd negb] in *.
  2:{ cbn [run snd]. rewrite app_nil_r. lia. }
  cbn [bind call run].
  pose proof (proj1 Hen _ (k + length t1)%nat (StartStream st id) s2) as Hd3.
  destruct (env_call en _ _ (StartStream st id) s2) as [err s3]. cbn [snd] in Hd3.
  destruct err as [er|]; cbn [bind modify run fst snd].
  2:{ rewrite calls_app. simpl. lia. }
  destruct (isRetryableAutoStartError er).
  - unfold retryAutoStart. cbn [bind read run]. rewrite note_delays.
    match goal with |- context [run en (retry_loop c r st id ?ds) ?k' ?x] =>
      pose proof (retry_loop_starts en c r st id ds k' x) as Hl;
      destruct (run en (retry_loop c r st id ds) k' x) as [[u s4] t2] end.
    cbn [snd] in *. rewrite calls_app. cbn [calls fold_right is_start]. fold (calls is_start t2).
    rewrite Hd3, Hd in Hl. lia.
  - match goal with |- context [run en ?p ?k' ?x] =>
      assert (calls is_start (run en p k' x).2 = 0) as H2;
      [apply no_start_calls, no_start_stale|destruct (run en p k' x) as [[u s4] t2]] end.
    cbn [snd] in *. rewrite calls_app. cbn [calls fold_right is_start]. fold (calls is_start t2). lia.
Qed.
End Requests.

(** ** Witnesses: one stream waiting in one voice channel *)
Module Sample.
#[local] Existing Instance canonical_range.

Definition waiting : VoiceDefaults := mkVoiceDefaults "e1" "g" "v" "t" true.

Definition m0 : Manager :=
  (NewManagerWithReporter (mkVoiceCaps true true true) None 1000)
    <| mStreamDefaults := {["s1" := waiting]} |> <| mStreamStarter := Some 1%nat |>.

Definition stopped : Manager := m0 <| mAutoStartStopped := {["s1" := waiting]} |>.

Definition join (epoch : string) (existing : bool) : VoiceJoinEvent :=
  mkVoiceJoinEvent (Some (mkAuthority "s1" epoch)) existing "g" "v" "u1" "".

Lemma matching_is_the_unique_candidate_witness :
  matchingAutoStartStreamLocked "g" "v" m0 = "s1".
Proof.
  apply matching_is_the_unique_candidate; try reflexivity; try discriminate.
  split; [exists waiting; split; reflexivity|].
  intros id' d' Hd' _. unfold m0 in Hd'. simpl in Hd'.
  apply lookup_singleton_Some in Hd' as [<- _]. reflexivity.
Defined.

Definition reserved : Manager := (reserve_section "s1" (join "e1" false) 1000 m0).2.

Lemma reservation_is_exclusive_witness :
  (reserve_section "s1" (join "e1" false) 1000 m0).1 = Some (1%nat, 2%nat, 1%nat) /\
  (reserve_section "s1" (join "e1" false) (1000 + Hour) reserved).1 = None.
Proof.
  split; [vm_compute; reflexivity|].
  apply (reservation_is_exclusive "s1" (join "e1" false) 1000 (join "e1" false) (1000 + Hour) m0
           (1%nat, 2%nat, 1%nat) reserved).
  vm_compute. reflexivity.
Defined.

Lemma existing_presence_does_not_restart_witness :
  reserve_section "s1" (join "e1" true) 2000 stopped = (None, stopped) /\
  mAutoStartStopped (reserve_section "s1" (join "e1" false) 2000 stopped).2 !! "s1" = None.
Proof.
  split.
  - apply (existing_presence_does_not_restart "s1" (join "e1" true) 2000 stopped waiting 1%nat);
      try reflexivity; discriminate.
  - apply (existing_presence_does_not_restart "s1" (join "e1" false) 2000 stopped waiting 1%nat);
      try reflexivity; discriminate.
Defined.

Lemma unauthorized_join_is_ignored_witness :
  reserve_section "s1" (join "e0" false) 2000 m0 = (None, m0).
Proof.
  apply unauthorized_join_is_ignored; [discriminate|]. right. vm_compute. discriminate.
Defined.

(** The Control Panel is overloaded, the member stays. *)
Definition busy X (n : nat) (e : ExtCall X) (s : Manager) : X * Manager :=
  (match e in ExtCall Y return Y with
   | StartStream _ _ => Some (ControlPanelError "start" 503 "")
   | e' => accept_all _ e'
   end, s).

Definition busy_env : env Manager ExtCall := Build_env busy (fun _ _ _ s => (false, s)).

Lemma start_requests_bounded_witness :
  keeps_retry_delays busy_env /\
  calls is_start (run busy_env (autoStartGoroutine "s1" 1 2 1 None (join "e1" false)) 0 reserved).2
  = 4 /\
  calls is_start (run busy_env (autoStartGoroutine "s1" 1 2 1 None (join "e1" false)) 0 reserved).2
  <= 1 + Z.of_nat (length (mAutoStartRetryDelays reserved)).
Proof.
  assert (keeps_retry_delays busy_env) as Hk by (split; reflexivity).
  split; [exact Hk|]. split; [vm_compute; reflexivity|].
  exact (start_requests_bounded busy_env "s1" 1 2 1 None (join "e1" false) 0 reserved Hk).
Defined.
End Sample.
