(* ===== verification/AutoStop.v ===== *)
(** * AutoStop: stopping the stream of an empty voice channel

    The goroutines of [internal/jobs/auto_stop.go] and
    [internal/jobs/auto_stop_rejoin.go]: the empty-channel timer with its
    revalidation, the request to the Control Panel, its bounded retries, and the
    reconciliation of a join that raced with a stop. *)

From S2P Require Import Prelude Conc Errors Types RetryQueue Manager AutoStopState.
From S2P Require Import WorkerReporting Participants AutoStart.

Open Scope go_scope.

(** [SetStreamStopper] *)
Definition SetStreamStopper (stopper : option StopperRef) (m : Manager) : Manager :=
  m <| mStreamStopper := stopper |>.

(** [stopStreamWithContext] *)
Definition stopStreamWithContext (ctx : nat) (stopper : StopperRef) (streamID : string)
    : mprog (option error) :=
  if stContext stopper then call (StopStreamContext ctx (stRef stopper) streamID)
  else call (StopStream (stRef stopper) streamID).

(** The section of [scheduleAutoStopRetry] after a retryable failure: the delay
    of the next attempt, if any is left. *)
Definition retry_section (streamID : string) (generation : Z) (m : Manager)
    : option Duration * Manager :=
  if negb (autoStopStillValidLocked streamID generation m) then (None, m)
  else
    let attempt := mint (mAutoStopAttempts m) streamID in
    match mAutoStopRetryDelays m !! Z.to_nat attempt with
    | None => (None, finishAutoStopLocked streamID generation m)
    | Some delay => (Some delay, m <| mAutoStopAttempts ::= insert streamID (attempt + 1) |>)
    end.

(** [scheduleAutoStopRetry] *)
Definition scheduleAutoStopRetry (streamID : string) (generation : Z) (stopper : StopperRef)
    (err : error) (observation : autoStopObservation) : mprog unit :=
  if negb (shouldRetryAutoStop err) then modify (finishAutoStopLocked streamID generation) else
  let* delay := atomic (retry_section streamID generation) in
  match delay with
  | None => ret tt
  | Some delay => spawn (GAutoStopWhenEmpty streamID observation stopper delay)
  end.

(** [if stillValidForJob { cancelAutoStopLocked }] *)
Definition cancel_if_valid (streamID : string) (generation : Z) (job : VoiceJob)
    (reconnectGeneration : Z) (m : Manager) : Manager :=
  if autoStopStillValidForJobLocked streamID generation job reconnectGeneration m
  then cancelAutoStopLocked streamID m else m.

(** The section that issues the request: its context. *)
Definition request_section (streamID : string) (generation : Z) (job : VoiceJob)
    (reconnectGeneration : Z) (m : Manager) : option nat * Manager :=
  if negb (autoStopStillValidForJobLocked streamID generation job reconnectGeneration m)
  then (None, m)
  else
    let m := m <| mAutoStopLastAttempt ::= insert streamID (hClock m) |> in
    let '(ctx, m) := newContext m in
    (Some ctx, m <| mAutoStopInFlight ::= insert streamID
                      (mkInFlight (mCurrentAssignmentEpoch m) generation ctx (mCurrent m)) |>).

Section AutoStop.
Context `{MapRange}.

(** The section after the request returned: still valid, reconcile. *)
Definition answered_section (streamID : string) (generation : Z) (m : Manager)
    : (bool * bool) * Manager :=
  let m := clearAutoStopInFlightLocked streamID generation m in
  let stillValid := autoStopStillValidLocked streamID generation m in
  ((stillValid, negb stillValid && hasAutoStopRejoinIntentForStreamLocked streamID m), m).

(** The section of [scheduleAutoStopRejoinReconciliation]. *)
Definition reconcile_section (streamID : string) (m : Manager) : bool * Manager :=
  if negb (hasAutoStopRejoinIntentForStreamLocked streamID m)
     || mbool (mRejoinReconcileRun m) streamID
  then (false, m)
  else (true, m <| mRejoinReconcileRun ::= insert streamID true |>).

(** [scheduleAutoStopRejoinReconciliation] *)
Definition scheduleAutoStopRejoinReconciliation (streamID : string) : mprog unit :=
  let streamID := TrimSpace streamID in
  if streamID =s "" then ret tt else
  let* run := atomic (reconcile_section streamID) in
  if run then spawn (GReconcileRejoin streamID) else ret tt.

(** The end of [autoStopWhenEmpty], once the channel is held to be empty. *)
Definition auto_stop_request (streamID : string) (observation : autoStopObservation)
    (stopper : StopperRef) (job : VoiceJob) (reconnectGeneration : Z) : mprog unit :=
  let generation := obAutoStopGeneration observation in
  let* ctx := atomic (request_section streamID generation job reconnectGeneration) in
  match ctx with
  | None => ret tt
  | Some ctx =>
      let* err := stopStreamWithContext ctx stopper streamID in
      let* answer := atomic (answered_section streamID generation) in
      let '(stillValid, reconcile) := answer in
      do* if reconcile then scheduleAutoStopRejoinReconciliation streamID else ret tt in
      match err with
      | Some err =>
          if negb stillValid then ret tt
          else scheduleAutoStopRetry streamID generation stopper err observation
      | None =>
          if negb stillValid then ret tt
          else modify (finishAutoStopLocked streamID generation)
      end
  end.

(** [autoStopWhenEmpty] *)
Definition autoStopWhenEmpty (streamID : string) (observation : autoStopObservation)
    (stopper : StopperRef) (delay : Duration) : mprog (option label) :=
  let generation := obAutoStopGeneration observation in
  do* wait (Some (Z.max 0 delay)) (fun _ => false) in
  let* start := read (fun m =>
    if negb (autoStopStillValidLocked streamID generation m) then None
    else Some (mCurrent m, mReconnectGeneration m, mParticipantStateRevision m,
               mAutoStopEmptyConfirmDelay m)) in
  match start with
  | None => ret None
  | Some (job, reconnectGeneration, participantStateRevision, emptyConfirmDelay) =>
      let* source := read (fun m => vcSnapshotSource (mVoice m)) in
      if negb source then
        do* auto_stop_request streamID observation stopper job reconnectGeneration in ret None
      else
      let* snapshot := call (SnapshotVoiceParticipants job) in
      match snapshot with
      | None =>
          do* modify (cancel_if_valid streamID generation job reconnectGeneration) in
          ret None
      | Some snapshot =>
          if bool_decide (psParticipants snapshot <> []) then
            do* participantsSynced snapshot
                  (mkApplyOptions reconnectGeneration true true participantStateRevision true) in
            do* modify (cancel_if_valid streamID generation job reconnectGeneration) in
            ret None
          else
            let observation := observation <| obSnapshotRevision := psRevision snapshot |>
                 <| obParticipantStateRevision := participantStateRevision |> in
            let* stillValid := read (autoStopStillValidForJobLocked streamID generation job
                                       reconnectGeneration) in
            if negb stillValid then ret None
            else if negb (obEmptyRevalidationPassed observation) then
              let observation := observation <| obEmptyRevalidationPassed := true |> in
              do* spawn (GAutoStopWhenEmpty streamID observation stopper emptyConfirmDelay) in
              ret None
            else
              do* auto_stop_request streamID observation stopper job reconnectGeneration in
              ret None
      end
  end.

(** ** Reconciliation of a rejoin *)

(** What one turn of the loop of [reconcileAutoStopRejoin] decides under the
    lock, after the refresh. *)
Inductive reconcile_turn :=
| ReconcileDone
| ReconcileContinue
| ReconcileStart (event : VoiceJoinEvent).

Definition retained_join (intent : autoStopRejoinIntent) (streamID : string) : VoiceJoinEvent :=
  mkVoiceJoinEvent (Some (mkAuthority streamID (riAssignmentEpoch intent))) false
    (riGuildID intent) (riVoiceChannelID intent) "retained-rejoin" "".

Definition reconcile_turn_section (sourceStreamID key : string) (intent : autoStopRejoinIntent)
    (m : Manager) : reconcile_turn * Manager :=
  match autoStopRejoinIntentForStreamLocked sourceStreamID m with
  | None => (ReconcileDone, m)
  | Some (currentKey, currentIntent) =>
      if (currentKey <>s key) || negb (riSequence currentIntent =? riSequence intent)
      then (ReconcileDone, m)
      else if jStreamID (mCurrent m) <>s "" then
        if jStreamID (mCurrent m) <>s sourceStreamID
        then (ReconcileDone, m <| mRejoinIntents ::= delete key |>)
        else (ReconcileContinue, m)
      else
        let rearmed := matchingAutoStartStreamLocked (riGuildID intent) (riVoiceChannelID intent) m in
        if (rearmed =s "") || (rearmed <>s sourceStreamID)
           || match mStreamStarter m with None => true | Some _ => false end
           || (vdAssignmentEpoch (mread zeroVoiceDefaults (mStreamDefaults m) rearmed)
                 <>s riAssignmentEpoch intent)
        then (ReconcileContinue, m)
        else (ReconcileStart (retained_join intent rearmed),
              m <| mRejoinIntents ::= delete key |> <| mAutoStartStopped ::= delete rearmed |>)
  end.

(** The loop over [delays]; [true] when it returned from the function. *)
Fixpoint reconcile_loop (sourceStreamID : string) (delays : list Duration) : mprog bool :=
  match delays with
  | [] => ret false
  | delay :: rest =>
      do* (if 0 <? delay
           then (do* wait (Some delay) (fun _ => false) in ret tt) else ret tt) in
      let* found := read (fun m =>
        (autoStopRejoinIntentForStreamLocked sourceStreamID m, mAutoStartRefresher m)) in
      match found with
      | (None, _) => ret true
      | (Some (key, intent), refresher) =>
          let* failed :=
            match refresher with
            | Some f => let* err := call (Refresh f) in
                        ret (match err with Some _ => true | None => false end)
            | None => ret false
            end in
          if failed then reconcile_loop sourceStreamID rest else
          let* turn := atomic (reconcile_turn_section sourceStreamID key intent) in
          match turn with
          | ReconcileDone => ret true
          | ReconcileContinue => reconcile_loop sourceStreamID rest
          | ReconcileStart event => do* VoiceUserJoined event in ret true
          end
      end
  end.

(** The section after the last turn: the intent is given up. *)
Definition reconcile_exhausted (sourceStreamID : string) (m : Manager) : Manager :=
  match autoStopRejoinIntentForStreamLocked sourceStreamID m with
  | Some (key, _) => m <| mRejoinIntents ::= delete key |>
  | None => m
  end.

(** [reconcileAutoStopRejoin] *)
Definition reconcileAutoStopRejoin (sourceStreamID : string) : mprog (option label) :=
  let* delays := read mRejoinReconcileDelay in
  let* returned := reconcile_loop sourceStreamID delays in
  do* (if returned then ret tt else modify (reconcile_exhausted sourceStreamID)) in
  do* modify (fun m => m <| mRejoinReconcileRun ::= delete sourceStreamID |>) in
  ret None.
End AutoStop.

(** ** What precedes a stop request *)

Section Properties.
Context `{MapRange}.

Definition is_stop X (e : ExtCall X) : bool :=
  match e with StopStream _ _ | StopStreamContext _ _ _ => true | _ => false end.

(** Reading the environment never changes what the client implements. *)
Definition keeps_client (en : env Manager ExtCall) : Prop :=
  (forall X n (e : ExtCall X) s, mVoice (env_call en X n e s).2 = mVoice s) /\
  (forall n d c s, mVoice (env_wait en n d c s).2 = mVoice s).

(** A confirmed observation was confirmed by an empty snapshot in this trace. *)
Definition saw_empty (streamID : string) (tr : list (obs ExtCall label)) : Prop :=
  exists job snapshot,
    OCall (SnapshotVoiceParticipants job) (Some snapshot) ∈ tr /\
    jStreamID job = streamID /\ psParticipants snapshot = [].

(** Canceling an auto-stop fences it: once the auto-stop of a stream is
    canceled (somebody joined, the job was restarted), no timer or retry of any
    generation is valid any more, and a timer that wakes up then does nothing:
    no call, no change of state. *)
Theorem canceled_auto_stop_is_fenced en id ob st delay k m m' :
  trimmed id -> id <> "" ->
  (env_wait en k (Some (Z.max 0 delay)) (fun _ => false) m).2 = cancelAutoStopLocked id m' ->
  (forall g, autoStopStillValidLocked id g (cancelAutoStopLocked id m') = false) /\
  let '(l, s, tr) := run en (autoStopWhenEmpty id ob st delay) k m in
  l = None /\ s = cancelAutoStopLocked id m' /\ calls (fun _ _ => true) tr = 0.
Proof.
  intros Ht Hid Hw.
  assert (forall g, autoStopStillValidLocked id g (cancelAutoStopLocked id m') = false) as Hg
    by (intros g; by apply cancel_not_valid).
  split; [done|]. unfold autoStopWhenEmpty. cbv zeta. cbn [bind wait run].
  destruct (env_wait en k _ _ m) as [b s1]. cbn [snd] in Hw. subst s1.
  cbn [bind read run]. by rewrite Hg.
Qed.

(** The retries of an auto-stop are bounded: a failed request is retried only
    for a retryable error of a still valid observation, after the configured
    delay of its attempt, each retry counts one attempt, and when the delays
    are used up the auto-stop is finished: nothing of it stays pending. *)
Theorem auto_stop_retry_bounded id g m :
  0 <= mint (mAutoStopAttempts m) id ->
  let n := mint (mAutoStopAttempts m) id in
  match retry_section id g m with
  | (Some delay, m') =>
      mAutoStopRetryDelays m !! Z.to_nat n = Some delay /\
      n < Z.of_nat (length (mAutoStopRetryDelays m)) /\
      mint (mAutoStopAttempts m') id = n + 1 /\
      autoStopStillValidLocked id g m' = true
  | (None, m') =>
      (autoStopStillValidLocked id g m = false /\ m' = m) \/
      (Z.of_nat (length (mAutoStopRetryDelays m)) <= n /\
       mbool (mAutoStopPending m') id = false /\ mAutoStopAttempts m' !! id = None)
  end.
Proof.
  intros Hn. cbv zeta. unfold retry_section.
  destruct (autoStopStillValidLocked id g m) eqn:Ev; simpl; [|by left].
  destruct (mAutoStopRetryDelays m !! _) as [d|] eqn:Ed.
  - pose proof (lookup_lt_Some _ _ _ Ed). split; [done|]. split; [lia|].
    unfold mread at 1. simpl. rewrite lookup_insert_eq. done.
  - right. apply lookup_ge_None in Ed. split; [lia|].
    unfold finishAutoStopLocked.
    assert (mint (mAutoStopGeneration (clearAutoStopInFlightLocked id g m)) id = g) as ->.
    { unfold autoStopStillValidLocked in Ev. bool_hyps.
      unfold clearAutoStopInFlightLocked. repeat case_match; done. }
    rewrite Z.eqb_refl. simpl. unfold mread. by rewrite !lookup_delete_eq.
Qed.

(** A join that raced with a stop restarts the stream only when that is
    still right: the reconciliation starts a stream only when no job is current,
    the intent is the retained one, its stream is again the only waiting stream
    of that voice channel, with the same assignment epoch, and a starter exists;
    the intent is then consumed, so it starts at most once. *)
Theorem rejoin_starts_only_rearmed_stream id key intent m event m' :
  reconcile_turn_section id key intent m = (ReconcileStart event, m') ->
  jStreamID (mCurrent m) = "" /\
  (exists i, autoStopRejoinIntentForStreamLocked id m = Some (key, i) /\
             riSequence i = riSequence intent) /\
  matchingAutoStartStreamLocked (riGuildID intent) (riVoiceChannelID intent) m = id /\
  vdAssignmentEpoch (mread zeroVoiceDefaults (mStreamDefaults m) id) = riAssignmentEpoch intent /\
  is_Some (mStreamStarter m) /\
  event = retained_join intent id /\
  mRejoinIntents m' !! key = None /\ mAutoStartStopped m' !! id = None.
Proof.
  unfold reconcile_turn_section.
  destruct (autoStopRejoinIntentForStreamLocked id m) as [[k i]|] eqn:Ei; [|done].
  case_match eqn:Ek; [done|]. case_match eqn:Ec; [by case_match|]. cbv zeta.
  case_match eqn:Er; [done|]. bool_hyps. subst k.
  intros [= <- <-]. split; [done|]. split; [by exists i|].
  split; [congruence|]. split; [congruence|].
  split; [by destruct (mStreamStarter m); [eexists|]|].
  split; [congruence|]. simpl. rewrite lookup_delete_eq. split; [done|].
  match goal with He : matchingAutoStartStreamLocked _ _ m = id |- _ => rewrite He end.
  apply lookup_delete_eq.
Qed.
End Properties.

(** ** Witnesses: a job alone in its voice channel *)
Module Sample.
#[local] Existing Instance canonical_range.

Definition job : VoiceJob :=
  mkVoiceJob "guild" "voice" "text" 1 "stream" "" "" "" "" "http://worker" "token" 0 0 0 false 1.

Definition stopper : StopperRef := mkStopperRef 1 true.

Definition m0 : Manager :=
  (NewManagerWithReporter (mkVoiceCaps true true true) None 1000)
    <| mCurrent := job |> <| mStreamStopper := Some stopper |>.

(** The empty channel was scheduled for an auto-stop. *)
Definition scheduled : Manager := (updateAutoStopForParticipantSetLocked job 1000 "voice_event" 0 m0).2.

Definition observation : autoStopObservation :=
  mkObservation "empty_participants" "voice_event" 0 0 0 0 1 true.

Definition quiet_env : env Manager ExtCall :=
  Build_env (fun X _ e s => (accept_all X e, s)) (fun _ _ _ s => (false, s)).

Lemma canceled_auto_stop_is_fenced_witness :
  autoStopStillValidLocked "stream" 1 scheduled = true /\
  calls (fun _ _ => true)
    (run quiet_env (autoStopWhenEmpty "stream" observation stopper 0) 0
       (cancelAutoStopLocked "stream" scheduled)).2 = 0.
Proof.
  split; [vm_compute; reflexivity|].
  assert (trimmed "stream") as Ht by (vm_compute; reflexivity).
  assert ("stream" <> "") as Hne by discriminate.
  generalize scheduled as m. intros m.
  destruct (canceled_auto_stop_is_fenced quiet_env "stream" observation stopper 0 0
    (cancelAutoStopLocked "stream" m) m Ht Hne eq_refl) as [_ Hr].
  destruct (run quiet_env _ 0 (cancelAutoStopLocked "stream" m)) as [[l s] tr].
  exact (proj2 (proj2 Hr)).
Defined.

Lemma auto_stop_retry_bounded_witness :
  (retry_section "stream" 1 scheduled).1 = Some (5 * Second) /\
  mint (mAutoStopAttempts (retry_section "stream" 1 scheduled).2) "stream" = 1.
Proof.
  assert (0 <= mint (mAutoStopAttempts scheduled) "stream") as Hn by (vm_compute; congruence).
  pose proof (auto_stop_retry_bounded "stream" 1 scheduled Hn) as Hr.
  assert ((retry_section "stream" 1 scheduled).1 = Some (5 * Second)) as E
    by (vm_compute; reflexivity).
  split; [exact E|]. destruct (retry_section "stream" 1 scheduled) as [o m'].
  cbn [fst snd] in *. subst o. destruct Hr as (_ & _ & Ha & _). rewrite Ha. vm_compute. reflexivity.
Defined.

Definition intent : autoStopRejoinIntent := mkIntent "e1" "guild" "voice" "stream" 1.
Definition intent_key : string := autoStopRejoinIntentKey "guild" "voice".

Definition rearmed : Manager :=
  (NewManagerWithReporter (mkVoiceCaps true true true) None 1000)
    <| mStreamStarter := Some 1%nat |> <| mRejoinIntents := {[intent_key := intent]} |>
    <| mStreamDefaults := {["stream" := mkVoiceDefaults "e1" "guild" "voice" "text" true]} |>.

Lemma rejoin_starts_only_rearmed_stream_witness :
  (reconcile_turn_section "stream" intent_key intent rearmed).1
  = ReconcileStart (retained_join intent "stream") /\
  mRejoinIntents (reconcile_turn_section "stream" intent_key intent rearmed).2 !! intent_key = None.
Proof.
  assert ((reconcile_turn_section "stream" intent_key intent rearmed).1
          = ReconcileStart (retained_join intent "stream")) as E by (vm_compute; reflexivity).
  split; [exact E|].
  destruct (reconcile_turn_section "stream" intent_key intent rearmed) as [t m'] eqn:Et.
  cbn [fst snd] in *. subst t.
  destruct (rejoin_starts_only_rearmed_stream _ _ _ _ _ _ Et) as (_ & _ & _ & _ & _ & _ & Hk & _).
  exact Hk.
Defined.
End Sample.
