(* ===== verification/VoiceDefaults.v ===== *)
(** * VoiceDefaults: the voice-channel defaults of the waiting streams

    [internal/jobs/voice_defaults.go] without the Gateway credential part (see
    [Gateway]) and [SetExecutionAuthorityStreams] of
    [internal/jobs/runtime_gateway.go]. *)

From S2P Require Import Prelude Conc Errors Types RetryQueue Manager AutoStart.

Open Scope go_scope.

#[export] Instance set_vdAutoStartEnabled : Setter vdAutoStartEnabled :=
  fun g r => mkVoiceDefaults (vdAssignmentEpoch r) (vdGuildID r) (vdVoiceChannelID r)
               (vdTextChannelID r) (g (vdAutoStartEnabled r)).

(** [SetVoiceDefaults]: the epoch is not kept. *)
Definition SetVoiceDefaults (defaults : VoiceDefaults) (m : Manager) : Manager :=
  m <| mDefaults := mkVoiceDefaults "" (TrimSpace (vdGuildID defaults))
         (TrimSpace (vdVoiceChannelID defaults)) (TrimSpace (vdTextChannelID defaults))
         (vdAutoStartEnabled defaults) |>.

(** [mergeVoiceDefaults] *)
Definition mergeVoiceDefaults (base override : VoiceDefaults) : VoiceDefaults :=
  mkVoiceDefaults (vdAssignmentEpoch base)
    (if vdGuildID override <>s "" then vdGuildID override else vdGuildID base)
    (if vdVoiceChannelID override <>s "" then vdVoiceChannelID override else vdVoiceChannelID base)
    (if vdTextChannelID override <>s "" then vdTextChannelID override else vdTextChannelID base)
    (if vdAutoStartEnabled override then true else vdAutoStartEnabled base).

(** The defaults [ApplyVoiceDefaults] reads, and their application. *)
Definition defaults_for (streamID : string) (m : Manager) : VoiceDefaults :=
  match mStreamDefaults m !! TrimSpace streamID with
  | Some streamDefaults => mergeVoiceDefaults (mDefaults m) streamDefaults
  | None => mDefaults m
  end.

Definition fill (value default : string) : string := if blank value then default else value.

Definition fill_job (defaults : VoiceDefaults) (job : VoiceJob) : VoiceJob :=
  job <| jGuildID ::= fun g => fill g (vdGuildID defaults) |>
      <| jVoiceChannelID ::= fun v => fill v (vdVoiceChannelID defaults) |>
      <| jTextChannelID ::= fun t => fill t (vdTextChannelID defaults) |>.

(** [ApplyVoiceDefaults] *)
Definition ApplyVoiceDefaults (job : VoiceJob) (m : Manager) : VoiceJob :=
  fill_job (defaults_for (jStreamID job) m) job.

(** The stored form of one waiting entry. *)
Definition normalize_defaults (item : VoiceDefaults) : VoiceDefaults :=
  mkVoiceDefaults (vdAssignmentEpoch item) (TrimSpace (vdGuildID item))
    (TrimSpace (vdVoiceChannelID item)) (TrimSpace (vdTextChannelID item))
    (vdAutoStartEnabled item).

Definition target_of (streamID : string) (item : VoiceDefaults) : AutoStartVoiceTarget :=
  mkAutoStartVoiceTarget (vdAssignmentEpoch item) streamID (TrimSpace (vdGuildID item))
    (TrimSpace (vdVoiceChannelID item)).

(** The first loop of [SetStreamVoiceDefaults]: the new map, the targets, and
    the pending starts that survive. *)
Record load_state := mkLoad {
  ldDefaults : gmap string VoiceDefaults;
  ldTargets : list AutoStartVoiceTarget;
  ldPending : gmap string Time }.

Definition load_entry (previous : gmap string VoiceDefaults) (acc : load_state)
    (entry : string * VoiceDefaults) : load_state :=
  let streamID := TrimSpace entry.1 in
  let item := entry.2 in
  if streamID =s "" then acc
  else
    let pending :=
      match previous !! streamID with
      | Some old => if vdAssignmentEpoch old <>s vdAssignmentEpoch item
                    then delete streamID (ldPending acc) else ldPending acc
      | None => ldPending acc
      end in
    mkLoad (<[streamID := normalize_defaults item]> (ldDefaults acc))
      (if vdAutoStartEnabled item then (ldTargets acc ++ [target_of streamID item])%list
       else ldTargets acc)
      pending.

(** [SetExecutionAuthorityStreams] *)
Definition SetExecutionAuthorityStreams (streams : gmap string bool) (m : Manager) : Manager :=
  m <| mExecutionAuthorityStreams := Some (filter (fun kv => kv.2 = true) streams) |>.

Section StreamDefaults.
Context `{MapRange}.

Definition load_defaults (previous : gmap string VoiceDefaults) (pending : gmap string Time)
    (defaults : gmap string VoiceDefaults) : load_state :=
  fold_left (load_entry previous) (map_range defaults) (mkLoad ∅ [] pending).

(** The retention of [lastStreamDefaults]. *)
Definition keep_epoch (executing : gmap string bool) (m : Manager) (id : string) : bool :=
  (id =s jStreamID (mCurrent m)) || mbool executing id
  || match mAutoStartRetries m !! id with Some _ => true | None => false end
  || match mAutoStartPending m !! id with Some _ => true | None => false end.

Definition retain_epochs (previous : gmap string VoiceDefaults) (m : Manager) : Manager :=
  match mExecutionAuthorityStreams m with
  | None =>
      if 0 <? mlen (mStreamDefaults m)
      then m <| mLastStreamDefaults := mStreamDefaults m |> else m
  | Some executing =>
      let kept := fold_left (fun acc kv =>
        if keep_epoch executing m kv.1 then <[kv.1 := kv.2]> acc else acc) in
      let retained := kept (map_range (mLastStreamDefaults m)) ∅ in
      let retained := kept (map_range previous) retained in
      let retained := fold_left (fun acc kv => <[kv.1 := kv.2]> acc)
                        (map_range (mStreamDefaults m)) retained in
      m <| mLastStreamDefaults := retained |>
  end.

(** The three pruning loops that follow. *)
Definition prune_pending (m : Manager) : Manager :=
  m <| mAutoStartPending ::= fold_left (fun acc streamID =>
         if match mStreamDefaults m !! streamID with Some _ => false | None => true end
         then delete streamID acc else acc) (map_range (mAutoStartPending m)).*1 |>.

Definition prune_retry (m : Manager) (streamID : string) : Manager :=
  let cancel :=
    match mStreamDefaults m !! streamID with
    | None => true
    | Some item =>
        negb (vdAutoStartEnabled item)
        || match mAutoStartRetries m !! streamID with
           | Some retry => vdAssignmentEpoch item <>s arAssignmentEpoch (getRetry retry m)
           | None => false
           end
    end in
  if cancel then cancelAutoStartRetryLocked streamID m else m.

Definition prune_retries (m : Manager) : Manager :=
  fold_left prune_retry (map_range (mAutoStartRetries m)).*1 m.

Definition prune_stopped_entry (m : Manager) (entry : string * VoiceDefaults) : Manager :=
  let '(streamID, stopped) := entry in
  match mStreamDefaults m !! streamID with
  | None => m
  | Some next =>
      if (vdAssignmentEpoch next <>s vdAssignmentEpoch stopped)
         || (vdGuildID next <>s vdGuildID stopped)
         || (vdVoiceChannelID next <>s vdVoiceChannelID stopped)
      then m <| mAutoStartStopped ::= delete streamID |> <| mAutoStartPending ::= delete streamID |>
      else m
  end.

Definition prune_stopped (m : Manager) : Manager :=
  fold_left prune_stopped_entry (map_range (mAutoStartStopped m)) m.

(** The section of [SetStreamVoiceDefaults] and the targets it hands on. *)
Definition set_stream_defaults (defaults : gmap string VoiceDefaults) (m : Manager)
    : list AutoStartVoiceTarget * Manager :=
  let previous := mStreamDefaults m in
  let loaded := load_defaults previous (mAutoStartPending m) defaults in
  let m := m <| mStreamDefaults := ldDefaults loaded |> <| mAutoStartPending := ldPending loaded |> in
  (ldTargets loaded, prune_stopped (prune_retries (prune_pending (retain_epochs previous m)))).

(** [SetStreamVoiceDefaults] *)
Definition SetStreamVoiceDefaults (defaults : gmap string VoiceDefaults) : mprog unit :=
  let* targets := atomic (set_stream_defaults defaults) in
  let* setter := read (fun m => vcTargetSetter (mVoice m)) in
  if setter then call (SetAutoStartVoiceTargets targets) else ret tt.
End StreamDefaults.

(** ** Facts about the loops *)

Section Facts.
Context `{MapRange}.

(** What the pruning loops leave alone. *)
Definition steady (m : Manager) := (mStreamDefaults m, hRetries m, mLastStreamDefaults m).

Lemma cancelRetry_steady id m : steady (cancelAutoStartRetryLocked id m) = steady m.
Proof. unfold cancelAutoStartRetryLocked. by case_match. Qed.

Lemma cancelRetry_retries id m :
  mAutoStartRetries (cancelAutoStartRetryLocked id m) = delete id (mAutoStartRetries m).
Proof.
  unfold cancelAutoStartRetryLocked. case_match eqn:E; simpl; [done|]. by rewrite delete_id.
Qed.

Lemma cancelRetry_pending id m :
  mAutoStartPending (cancelAutoStartRetryLocked id m) = mAutoStartPending m.
Proof. unfold cancelAutoStartRetryLocked. by case_match. Qed.

(** A retry [prune_retry] keeps belongs to an enabled stream of its epoch. *)
Definition retry_authorized (m : Manager) (id : string) (r : nat) : Prop :=
  exists d, mStreamDefaults m !! id = Some d /\ vdAutoStartEnabled d = true /\
    vdAssignmentEpoch d = arAssignmentEpoch (getRetry r m).

Lemma steady_authorized m m' id r :
  steady m' = steady m -> retry_authorized m' id r -> retry_authorized m id r.
Proof.
  unfold retry_authorized, getRetry. intros [= Hd Hr _]. by rewrite Hd, Hr.
Qed.

Lemma prune_retry_spec m id :
  steady (prune_retry m id) = steady m /\
  mAutoStartPending (prune_retry m id) = mAutoStartPending m /\
  (forall k r, mAutoStartRetries (prune_retry m id) !! k = Some r ->
     mAutoStartRetries m !! k = Some r /\ (k = id -> retry_authorized m id r)).
Proof.
  unfold prune_retry. cbv zeta. case_match eqn:E.
  - rewrite cancelRetry_steady, cancelRetry_pending, cancelRetry_retries.
    split; [done|]. split; [done|]. intros k r [Hne Hr]%lookup_delete_Some. by split; [|intros ->].
  - split; [done|]. split; [done|]. intros k r Hr. split; [done|]. intros ->.
    unfold retry_authorized. destruct (mStreamDefaults m !! id) as [d|]; [|done].
    rewrite Hr in E. bool_hyps. by exists d.
Qed.

Lemma prune_retries_spec l m :
  steady (fold_left prune_retry l m) = steady m /\
  mAutoStartPending (fold_left prune_retry l m) = mAutoStartPending m /\
  (forall k r, mAutoStartRetries (fold_left prune_retry l m) !! k = Some r ->
     mAutoStartRetries m !! k = Some r /\ (k ∈ l -> retry_authorized m k r)).
Proof.
  revert m. induction l as [|id l IH]; intros m; cbn [fold_left].
  { split; [done|]. split; [done|]. intros k r Hr. split; [done|]. by intros ?%not_elem_of_nil. }
  destruct (prune_retry_spec m id) as (Hs & Hp & Hr).
  destruct (IH (prune_retry m id)) as (Hs' & Hp' & Hr').
  split; [congruence|]. split; [congruence|]. intros k r Hk.
  destruct (Hr' k r Hk) as [Hk1 Hin]. destruct (Hr k r Hk1) as [Hk2 Hid].
  split; [done|]. intros [->|Hkl]%elem_of_cons; [by apply Hid|].
  eapply steady_authorized; [exact Hs|]. by apply Hin.
Qed.

Lemma prune_stopped_spec l m :
  steady (fold_left prune_stopped_entry l m) = steady m /\
  mAutoStartRetries (fold_left prune_stopped_entry l m) = mAutoStartRetries m /\
  (forall k t, mAutoStartPending (fold_left prune_stopped_entry l m) !! k = Some t ->
     mAutoStartPending m !! k = Some t).
Proof.
  revert m. induction l as [|[id st] l IH]; intros m; cbn [fold_left]; [done|].
  destruct (IH (prune_stopped_entry m (id, st))) as (Hs & Hr & Hp).
  assert (steady (prune_stopped_entry m (id, st)) = steady m /\
          mAutoStartRetries (prune_stopped_entry m (id, st)) = mAutoStartRetries m /\
          (forall k t, mAutoStartPending (prune_stopped_entry m (id, st)) !! k = Some t ->
             mAutoStartPending m !! k = Some t)) as (Hs1 & Hr1 & Hp1).
  { unfold prune_stopped_entry. repeat case_match; try done.
    split; [done|]. split; [done|]. simpl. by intros k t [_ ?]%lookup_delete_Some. }
  split; [congruence|]. split; [congruence|]. intros k t Hk. by apply Hp1, Hp.
Qed.

(** The first loop, on canonical keys. *)
Lemma load_entry_canonical previous acc k d :
  trimmed k -> k <> "" ->
  load_entry previous acc (k, d) =
  mkLoad (<[k := normalize_defaults d]> (ldDefaults acc))
    (if vdAutoStartEnabled d then (ldTargets acc ++ [target_of k d])%list else ldTargets acc)
    (match previous !! k with
     | Some old => if vdAssignmentEpoch old <>s vdAssignmentEpoch d
                   then delete k (ldPending acc) else ldPending acc
     | None => ldPending acc
     end).
Proof.
  intros Hk Hne. unfold load_entry. cbn [fst snd]. rewrite Hk.
  apply String.eqb_neq in Hne. by rewrite Hne.
Qed.

Definition canonical_keys (l : list (string * VoiceDefaults)) : Prop :=
  Forall (fun kd => trimmed kd.1 /\ kd.1 <> "") l.

Lemma exists_target_cons k d (l : list (string * VoiceDefaults)) t :
  (exists k' d', (k', d') ∈ (k, d) :: l /\ vdAutoStartEnabled d' = true /\ t = target_of k' d') <->
  (vdAutoStartEnabled d = true /\ t = target_of k d) \/
  (exists k' d', (k', d') ∈ l /\ vdAutoStartEnabled d' = true /\ t = target_of k' d').
Proof.
  split.
  - intros (k' & d' & [[= -> ->]|Hin]%elem_of_cons & He & Ht); [by left|right]. by exists k', d'.
  - intros [[He Ht]|(k' & d' & Hin & He & Ht)].
    + exists k, d. split; [apply list_elem_of_here|done].
    + exists k', d'. split; [by apply list_elem_of_further|done].
Qed.

Lemma load_spec previous l : forall acc,
  canonical_keys l -> NoDup l.*1 ->
  let res := fold_left (load_entry previous) l acc in
  (forall k, ldDefaults res !! k =
     match (list_to_map l : gmap string VoiceDefaults) !! k with
     | Some d => Some (normalize_defaults d)
     | None => ldDefaults acc !! k
     end) /\
  (forall t, t ∈ ldTargets res <->
     t ∈ ldTargets acc \/ exists k d, (k, d) ∈ l /\ vdAutoStartEnabled d = true /\ t = target_of k d) /\
  (forall k t, ldPending res !! k = Some t ->
     ldPending acc !! k = Some t /\
     forall d old, (k, d) ∈ l -> previous !! k = Some old ->
       vdAssignmentEpoch old = vdAssignmentEpoch d).
Proof.
  induction l as [|[k d] l IH]; intros acc Hc Hnd; cbn [fold_left].
  { simpl. split; [intros k; by rewrite lookup_empty|]. split; [set_solver|].
    intros k t Hk. split; [done|]. by intros d old ?%not_elem_of_nil. }
  apply Forall_cons in Hc as [[Hk Hne] Hc]. cbn [fst] in *. simpl in Hnd.
  apply NoDup_cons in Hnd as [Hkl Hnd]. rewrite load_entry_canonical by done.
  match goal with |- context [fold_left _ l ?a] => set (acc1 := a) end.
  destruct (IH acc1 Hc Hnd) as (H1 & H2 & H3). cbv zeta. split; [|split].
  - intros k'. rewrite H1. unfold acc1. simpl. destruct (decide (k' = k)) as [->|Hk'].
    + rewrite lookup_insert_eq, not_elem_of_list_to_map_1 by done. by rewrite lookup_insert_eq.
    + by rewrite !lookup_insert_ne by done.
  - intros t. rewrite H2, exists_target_cons. unfold acc1. simpl.
    destruct (vdAutoStartEnabled d) eqn:E.
    + rewrite elem_of_app, list_elem_of_singleton. clear. tauto.
    + assert (~ (false = true /\ t = target_of k d)) as Hn by (by intros [? _]).
      revert Hn. clear. tauto.
  - intros k' t Hk'. destruct (H3 k' t Hk') as [Hp Ho]. unfold acc1 in Hp. simpl in Hp.
    assert (ldPending acc !! k' = Some t /\ (k' = k -> forall old, previous !! k = Some old ->
      vdAssignmentEpoch old = vdAssignmentEpoch d)) as [Hp1 Hp2].
    { destruct (previous !! k) as [old|] eqn:Eo; [|done].
      destruct (vdAssignmentEpoch old =s vdAssignmentEpoch d) eqn:Ee; simpl in Hp.
      - bool_hyps. split; [done|]. by intros _ ? [= <-].
      - apply lookup_delete_Some in Hp as [? ?]. split; [done|]. congruence. }
    split; [done|]. intros d' old [Hd'|Hin]%elem_of_cons Hold; [|by eapply Ho].
    injection Hd' as -> ->. by apply Hp2.
Qed.
End Facts.

(** ** Properties *)

Section Properties.
Context `{MapRange}.

Lemma retain_epochs_steady previous m :
  (mStreamDefaults (retain_epochs previous m), hRetries (retain_epochs previous m),
   mAutoStartPending (retain_epochs previous m), mAutoStartRetries (retain_epochs previous m))
  = (mStreamDefaults m, hRetries m, mAutoStartPending m, mAutoStartRetries m).
Proof. unfold retain_epochs. by repeat case_match. Qed.

(** What [set_stream_defaults] leaves after its four loops. *)
Lemma set_stream_defaults_spec defaults m :
  canonical_keys (map_range defaults) ->
  let '(ts, m') := set_stream_defaults defaults m in
  (forall k, mStreamDefaults m' !! k = normalize_defaults <$> (defaults !! k)) /\
  (forall t, t ∈ ts <-> exists k d, defaults !! k = Some d /\ vdAutoStartEnabled d = true /\
                                    t = target_of k d) /\
  (forall k t, mAutoStartPending m' !! k = Some t ->
     mAutoStartPending m !! k = Some t /\ exists d, defaults !! k = Some d /\
     forall old, mStreamDefaults m !! k = Some old -> vdAssignmentEpoch old = vdAssignmentEpoch d) /\
  (forall k r, mAutoStartRetries m' !! k = Some r ->
     mAutoStartRetries m !! k = Some r /\ retry_authorized m' k r).
Proof.
  intros Hc. unfold set_stream_defaults, load_defaults.
  destruct (load_spec (mStreamDefaults m) (map_range defaults) (mkLoad ∅ [] (mAutoStartPending m))
    Hc (range_NoDup_fst _)) as (H1 & H2 & H3).
  set (loaded := fold_left _ _ _) in *. clearbody loaded. cbv zeta.
  assert (forall k, (list_to_map (map_range defaults) : gmap string VoiceDefaults) !! k
                    = defaults !! k) as Hmap.
  { intros k. rewrite <- (list_to_map_to_list defaults) at 2. f_equal.
    apply list_to_map_proper; [apply range_NoDup_fst|apply map_range_perm]. }
  set (m1 := m <| mStreamDefaults := ldDefaults loaded |> <| mAutoStartPending := ldPending loaded |>).
  set (m2 := retain_epochs (mStreamDefaults m) m1).
  pose proof (retain_epochs_steady (mStreamDefaults m) m1) as Hs2. fold m2 in Hs2.
  injection Hs2 as Hd2 Hh2 Hp2 Hr2.
  set (m3 := prune_pending m2).
  destruct (prune_retries_spec (map_range (mAutoStartRetries m3)).*1 m3) as (Hs4 & Hp4 & Hr4).
  fold (prune_retries m3) in Hs4, Hp4, Hr4. set (m4 := prune_retries m3) in *.
  destruct (prune_stopped_spec (map_range (mAutoStartStopped m4)) m4) as (Hs5 & Hr5 & Hp5).
  fold (prune_stopped m4) in Hs5, Hr5, Hp5. set (m5 := prune_stopped m4) in *.
  assert (steady m5 = steady m3) as Hs by congruence. clear Hs4 Hs5.
  assert (mStreamDefaults m5 = ldDefaults loaded) as Hd5.
  { unfold steady in Hs. injection Hs as Hs _ _. rewrite Hs. unfold m3. simpl. by rewrite Hd2. }
  split; [|split; [|split]].
  - intros k. rewrite Hd5, H1, Hmap. simpl. destruct (defaults !! k); [done|].
    by rewrite lookup_empty.
  - intros t. rewrite H2. simpl. setoid_rewrite elem_of_range.
    split; [intros [?%not_elem_of_nil|?]; done|by right].
  - intros k t Hk%Hp5. rewrite Hp4 in Hk. unfold m3, prune_pending in Hk. simpl in Hk.
    rewrite range_delete_lookup, Hd2, Hp2 in Hk. unfold m1 in Hk. simpl in Hk.
    rewrite H1, Hmap in Hk. simpl in Hk. destruct (defaults !! k) as [d|] eqn:Ed.
    + destruct (H3 k t Hk) as [Hp Ho]. split; [done|]. exists d. split; [done|].
      intros old Hold. eapply Ho; [by apply elem_of_range|done].
    + by rewrite lookup_empty in Hk.
  - intros k r Hk. rewrite Hr5 in Hk. destruct (Hr4 k r Hk) as [Hk3 Hauth].
    assert (mAutoStartRetries m3 = mAutoStartRetries m) as Hr3 by (unfold m3; simpl; by rewrite Hr2).
    split; [congruence|]. eapply (steady_authorized m5 m3); [congruence|]. apply Hauth.
    apply list_elem_of_fmap. exists (k, r). split; [done|]. by apply elem_of_range.
Qed.

(** A runtime snapshot replaces the waiting streams exactly: the stored
    defaults are the snapshot's entries, normalised; the voice channels handed to
    the Discord client are exactly those of the enabled entries; a start that
    was pending survives only for a stream that is still waiting under the same
    assignment epoch; and a start being retried survives only for a stream that
    is still enabled under the epoch it was reserved with. *)
Theorem stream_defaults_replaced defaults m :
  (forall k, is_Some (defaults !! k) -> trimmed k /\ k <> "") ->
  let '(ts, m') := set_stream_defaults defaults m in
  (forall k, mStreamDefaults m' !! k = normalize_defaults <$> (defaults !! k)) /\
  (forall t, t ∈ ts <-> exists k d, defaults !! k = Some d /\ vdAutoStartEnabled d = true /\
                                    t = target_of k d) /\
  (forall k t, mAutoStartPending m' !! k = Some t ->
     mAutoStartPending m !! k = Some t /\ exists d, defaults !! k = Some d /\
     forall old, mStreamDefaults m !! k = Some old -> vdAssignmentEpoch old = vdAssignmentEpoch d) /\
  (forall k r, mAutoStartRetries m' !! k = Some r ->
     mAutoStartRetries m !! k = Some r /\ retry_authorized m' k r).
Proof.
  intros Hk. apply set_stream_defaults_spec. apply Forall_forall. intros [k d] Hin%elem_of_range.
  simpl. apply Hk. by eexists.
Qed.

(** The epoch of a stream in execution survives its absence from the waiting
    snapshot: when the Control Panel supplies the streams in execution, a stream
    that is current or in execution keeps the last defaults seen for it although
    the new snapshot does not list it, a stream that is neither waiting,
    executing, current nor being started is forgotten, and a listed stream has
    its new defaults. *)
Theorem executing_epoch_retained previous executing m id :
  mExecutionAuthorityStreams m = Some executing ->
  mLastStreamDefaults (retain_epochs previous m) !! id =
  match mStreamDefaults m !! id with
  | Some d => Some d
  | None =>
      if keep_epoch executing m id then
        match previous !! id with
        | Some d => Some d
        | None => mLastStreamDefaults m !! id
        end
      else None
  end.
Proof.
  intros He. unfold retain_epochs. rewrite He. simpl.
  pose proof (range_insert_lookup (fun _ : string => true) (mStreamDefaults m)) as Hall.
  cbn in Hall. rewrite Hall.
  rewrite (range_insert_lookup (keep_epoch executing m) previous).
  rewrite (range_insert_lookup (keep_epoch executing m) (mLastStreamDefaults m)).
  destruct (mStreamDefaults m !! id); [done|].
  destruct (keep_epoch executing m id); [|by rewrite lookup_empty].
  destruct (previous !! id); [done|].
  destruct (mLastStreamDefaults m !! id); [done|]. by rewrite lookup_empty.
Qed.

(** The defaults only fill gaps: [ApplyVoiceDefaults] keeps every guild, voice
    and text channel the job names; a missing one comes from the stream's own
    waiting entry if that has one, otherwise from the global defaults; no other
    field of the job changes. *)
Theorem defaults_fill_gaps job m :
  let pick given (own common : string) := fill given (if own <>s "" then own else common) in
  let own := mread zeroVoiceDefaults (mStreamDefaults m) (TrimSpace (jStreamID job)) in
  let job' := ApplyVoiceDefaults job m in
  jGuildID job' = pick (jGuildID job) (vdGuildID own) (vdGuildID (mDefaults m)) /\
  jVoiceChannelID job'
    = pick (jVoiceChannelID job) (vdVoiceChannelID own) (vdVoiceChannelID (mDefaults m)) /\
  jTextChannelID job'
    = pick (jTextChannelID job) (vdTextChannelID own) (vdTextChannelID (mDefaults m)) /\
  job' <| jGuildID := jGuildID job |> <| jVoiceChannelID := jVoiceChannelID job |>
       <| jTextChannelID := jTextChannelID job |> = job.
Proof.
  cbv zeta. unfold ApplyVoiceDefaults, defaults_for, mread.
  destruct (mStreamDefaults m !! TrimSpace (jStreamID job)) as [own|], job; done.
Qed.
End Properties.

Module Sample.
#[local] Existing Instance canonical_range.

Definition defaults : gmap string VoiceDefaults :=
  {["s1" := mkVoiceDefaults "e1" " g " "v" "t" true; "s2" := mkVoiceDefaults "e2" "g" "w" "t" false]}.

Definition m0 : Manager := NewManagerWithReporter (mkVoiceCaps true true true) None 1000.

Lemma stream_defaults_replaced_witness :
  mStreamDefaults (set_stream_defaults defaults m0).2 !! "s1"
  = Some (mkVoiceDefaults "e1" "g" "v" "t" true) /\
  mkAutoStartVoiceTarget "e1" "s1" "g" "v" ∈ (set_stream_defaults defaults m0).1.
Proof.
  assert (forall k, is_Some (defaults !! k) -> trimmed k /\ k <> "") as Hk.
  { intros k [d Hd]. unfold defaults in Hd.
    apply lookup_insert_Some in Hd as [[<- _]|[_ Hd]];
      [|apply lookup_singleton_Some in Hd as [<- _]];
      (split; [vm_compute; reflexivity|discriminate]). }
  pose proof (stream_defaults_replaced defaults m0 Hk) as Hr.
  destruct (set_stream_defaults defaults m0) as [ts m']. destruct Hr as (Hd & Ht & _).
  cbn [fst snd]. split.
  - rewrite Hd. vm_compute. reflexivity.
  - apply Ht. exists "s1", (mkVoiceDefaults "e1" " g " "v" "t" true).
    split; [vm_compute; reflexivity|]. split; vm_compute; reflexivity.
Defined.

(** [s1] is in execution and no longer waiting. *)
Definition executing : Manager :=
  m0 <| mExecutionAuthorityStreams := Some {["s1" := true]} |>
     <| mLastStreamDefaults := defaults |>.

Lemma executing_epoch_retained_witness :
  mLastStreamDefaults (retain_epochs ∅ executing) !! "s1"
  = Some (mkVoiceDefaults "e1" " g " "v" "t" true) /\
  mLastStreamDefaults (retain_epochs ∅ executing) !! "s2" = None.
Proof.
  rewrite (executing_epoch_retained ∅ {["s1" := true]} executing "s1" eq_refl).
  rewrite (executing_epoch_retained ∅ {["s1" := true]} executing "s2" eq_refl).
  split; vm_compute; reflexivity.
Defined.
End Sample.
