(* ===== verification/Lifecycle.v ===== *)
(** * Lifecycle: starting, stopping and reconnecting the stream job

    [Start] and [Stop] of [internal/jobs/manager.go], and
    [internal/jobs/reconnect.go]: the Gateway callbacks and the voice rejoin
    loop with its back-off. *)

From S2P Require Import Prelude Conc Errors Types RetryQueue Manager AutoStopState.
From S2P Require Import WorkerReporting Participants AutoStart VoiceDefaults.

Open Scope go_scope.

Section Lifecycle.
Context `{MapRange}.

(** ** Start *)

(** The first section of [Start]: the assignment epoch of the job. *)
Definition start_check (job : VoiceJob) (m : Manager) : (string + error) * Manager :=
  if mStopping m then (inr (ErrNew "stream job is stopping"), m)
  else if (jStreamID (mCurrent m) <>s "") && (jStreamID (mCurrent m) <>s jStreamID job)
  then (inr (ErrNew "another stream job is already active"), m)
  else
    let m := cancelAutoStopLocked (jStreamID job) m in
    let epoch :=
      match mStreamDefaults m !! jStreamID job with
      | Some waiting => vdAssignmentEpoch waiting
      | None => vdAssignmentEpoch (mread zeroVoiceDefaults (mLastStreamDefaults m) (jStreamID job))
      end in
    (inl epoch, m).

(** The section of [Start] once the voice channel is joined: the generation,
    the sync context, the previous retry queue and the new one. *)
Definition start_commit (job : VoiceJob) (assignmentEpoch : string) (m : Manager)
    : (Z * nat * option nat * nat) * Manager :=
  let m := m <| mReconnectGeneration ::= succ_i64 |> in
  let generation := mReconnectGeneration m in
  let '(syncCtx, m) := restartParticipantSyncLocked m in
  let previous := mWorkerRetry m in
  let '(workerRetry, m) := newQueue m in
  let m := m <| mWorkerRetry := Some workerRetry |>
             <| mCurrent := job |>
             <| mCurrentAssignmentEpoch := assignmentEpoch |>
             <| mStopping := false |>
             <| mDisconnected := false |>
             <| mStartedAt := hClock m |>
             <| mLastEventAt := hClock m |>
             <| mParticipants := ∅ |>
             <| mParticipantSnapshotRevision := 0 |>
             <| mParticipantStateRevision := 0 |>
             <| mActiveSpeaker := "" |>
             <| mActiveSpeakers := ∅ |>
             <| mAutoStartPending ::= delete (jStreamID job) |> in
  ((generation, syncCtx, previous, workerRetry), cancelAllAutoStartRetriesLocked m).

(** [Start] *)
Definition Start (job : VoiceJob) : mprog (option error) :=
  let* job := read (ApplyVoiceDefaults job) in
  if blank (jStreamID job) then ret (Some (ErrNew "stream_id is required"))
  else if blank (jGuildID job) then ret (Some (ErrNew "guild_id is required"))
  else if blank (jVoiceChannelID job) then ret (Some (ErrNew "voice_channel_id is required"))
  else
  let* checked := atomic (start_check job) in
  match checked with
  | inr err => ret (Some err)
  | inl assignmentEpoch =>
      let* err := call (JoinVoice job) in
      match err with
      | Some err => ret (Some err)
      | None =>
          let* committed := atomic (start_commit job assignmentEpoch) in
          let '(generation, syncCtx, previous, workerRetry) := committed in
          do* stopAndWaitOpt previous in
          do* startQueue workerRetry in
          do* hydrateVoiceParticipants job true in
          do* spawn (GKeepSynced syncCtx job generation) in
          ret None
      end
  end.

(** ** Stop *)

(** The first section of [Stop]: the stream to leave and the retry queue taken
    from it. *)
Definition stop_begin (streamID : string) (m : Manager)
    : ((string * option nat) + error) * Manager :=
  let m := cancelAllAutoStartRetriesLocked m in
  let currentStreamID := jStreamID (mCurrent m) in
  if currentStreamID =s "" then (inr (ErrNew "no active stream job"), m)
  else if mStopping m then (inr (ErrNew "stream job is stopping"), m)
  else if (streamID <>s "") && (streamID <>s currentStreamID)
  then (inr (ErrNew "stream_id does not match current job"), m)
  else
    let m := invalidateAutoStopLocked currentStreamID m in
    let m := m <| mStopping := true |> in
    let remaining := mWorkerRetry m in
    (inl (currentStreamID, remaining),
     m <| mWorkerRetry := None |> <| mReconnectGeneration ::= succ_i64 |>).

(** The section of [Stop] after [LeaveVoice] failed: what to restart. *)
Definition stop_failed (currentStreamID : string) (m : Manager)
    : option (VoiceJob * Z * nat * nat) * Manager :=
  if (jStreamID (mCurrent m) =s currentStreamID) && mStopping m then
    let m := m <| mStopping := false |> in
    let job := mCurrent m in
    let generation := mReconnectGeneration m in
    let '(syncCtx, m) := restartParticipantSyncLocked m in
    let '(workerRetry, m) := newQueue m in
    (Some (job, generation, syncCtx, workerRetry), m <| mWorkerRetry := Some workerRetry |>)
  else (None, m).

(** The section of [Stop] after [LeaveVoice] succeeded. *)
Definition stop_commit (currentStreamID : string) (m : Manager) : option nat * Manager :=
  let m := match mParticipantSyncCancel m with
           | Some ctx => (cancelContext ctx m) <| mParticipantSyncCancel := None |>
           | None => m
           end in
  let previous := mWorkerRetry m in
  (previous,
   m <| mWorkerRetry := None |>
     <| mAutoStartStopped ::= insert currentStreamID
          (mkVoiceDefaults (mCurrentAssignmentEpoch m) (jGuildID (mCurrent m))
             (jVoiceChannelID (mCurrent m)) "" false) |>
     <| mCurrent := zeroVoiceJob |>
     <| mStopping := false |>
     <| mStartedAt := zeroTime |>
     <| mLastEventAt := hClock m |>
     <| mParticipants := ∅ |>
     <| mActiveSpeaker := "" |>
     <| mActiveSpeakers := ∅ |>).

(** [Stop] *)
Definition Stop (streamID : string) : mprog (option error) :=
  let* begun := atomic (stop_begin streamID) in
  match begun with
  | inr err => ret (Some err)
  | inl (currentStreamID, remaining) =>
      do* stopAndWaitOpt remaining in
      let* err := call (LeaveVoice currentStreamID) in
      match err with
      | Some err =>
          let* restart := atomic (stop_failed currentStreamID) in
          do* match restart with
              | Some (job, generation, syncCtx, workerRetry) =>
                  do* startQueue workerRetry in
                  spawn (GKeepSynced syncCtx job generation)
              | None => ret tt
              end in
          ret (Some err)
      | None =>
          let* previous := atomic (stop_commit currentStreamID) in
          do* stopAndWaitOpt previous in
          ret None
      end
  end.

(** ** Gateway callbacks *)

(** [SetReconnectPolicy] *)
Definition SetReconnectPolicy (policy : ReconnectPolicy) (m : Manager) : Manager :=
  m <| mReconnectPolicy := mkPolicy (rpEnabled policy)
         (if rpMaxAttempts policy <=? 0 then 3 else rpMaxAttempts policy)
         (if rpBaseDelay policy <? 0 then 0 else rpBaseDelay policy)
         (if rpMaxDelay policy <=? 0 then 30 * Second else rpMaxDelay policy) |>.

(** The section of [DiscordConnected]. *)
Definition connected_section (m : Manager)
    : (VoiceJob * Z * option nat * option (nat * nat)) * Manager :=
  let m := m <| mLastEventAt := hClock m |> in
  let job := mCurrent m in
  let generation := mReconnectGeneration m in
  let previous := mWorkerRetry m in
  let m := m <| mDisconnected := false |> in
  if (jStreamID job <>s "") && negb (mStopping m) then
    let '(workerRetry, m) := newQueue m in
    let m := m <| mWorkerRetry := Some workerRetry |> in
    let '(syncCtx, m) := restartParticipantSyncLocked m in
    ((job, generation, previous, Some (workerRetry, syncCtx)), m)
  else ((job, generation, previous, None), m <| mWorkerRetry := None |>).

(** [DiscordConnected] *)
Definition DiscordConnected : mprog unit :=
  let* section := atomic connected_section in
  let '(job, generation, previous, restart) := section in
  do* stopAndWaitOpt previous in
  match restart with
  | Some (workerRetry, syncCtx) =>
      do* startQueue workerRetry in
      spawn (GKeepSynced syncCtx job generation)
  | None => ret tt
  end.

(** The section of [DiscordDisconnected]: job, policy, stop in progress, the
    retry queue to stop, the new generation. *)
Definition disconnected_section (m : Manager)
    : (VoiceJob * ReconnectPolicy * bool * option nat * Z) * Manager :=
  let m := cancelAllAutoStartRetriesLocked m in
  let m := m <| mLastEventAt := hClock m |> in
  let job := mCurrent m in
  let policy := mReconnectPolicy m in
  let stopInProgress := mStopping m in
  let m := match mParticipantSyncCancel m with
           | Some ctx => (cancelContext ctx m) <| mParticipantSyncCancel := None |>
           | None => m
           end in
  let previous := mWorkerRetry m in
  let m := m <| mDisconnected := true |> <| mWorkerRetry := None |>
             <| mReconnectGeneration ::= succ_i64 |> in
  ((job, policy, stopInProgress, previous, mReconnectGeneration m), m).

(** [shouldRejoinVoice] *)
Definition shouldRejoinVoice (reason : string) (job : VoiceJob) (policy : ReconnectPolicy)
    : bool :=
  if negb (rpEnabled policy) || (jStreamID job =s "") || (reason =s "gateway_disconnect")
  then false else true.

(** [DiscordDisconnected] *)
Definition DiscordDisconnected (reason : string) : mprog unit :=
  let* section := atomic disconnected_section in
  let '(job, policy, stopInProgress, previous, generation) := section in
  do* stopAndWaitOpt previous in
  if negb stopInProgress && shouldRejoinVoice reason job policy
  then spawn (GRejoin job policy generation) else ret tt.

(** ** The rejoin loop *)

(** The loop of [reconnectDelay]; [n] iterations left. *)
Fixpoint reconnect_delay_loop (n : nat) (maxDelay delay : Duration) : Duration :=
  match n with
  | O => delay
  | S n =>
      let delay := dbl delay in
      if (0 <? maxDelay) && (maxDelay <? delay) then maxDelay
      else reconnect_delay_loop n maxDelay delay
  end.

(** [reconnectDelay] *)
Definition reconnectDelay (policy : ReconnectPolicy) (attempt : Z) : Duration :=
  if (rpBaseDelay policy <=? 0) || (attempt <=? 1) then rpBaseDelay policy
  else reconnect_delay_loop (Z.to_nat (attempt - 1)) (rpMaxDelay policy) (rpBaseDelay policy).

(** The section before a rejoin attempt; [true] when the attempt goes on. *)
Definition rejoin_check (job : VoiceJob) (generation : Z) (m : Manager) : bool * Manager :=
  if negb (generation =? mReconnectGeneration m) || negb (sameWorkerEventJob (mCurrent m) job)
     || mStopping m
  then (false, m)
  else (true, m <| mVoiceRejoinAttempts ::= succ_i64 |>).

(** The section after a successful rejoin: the previous queue, and the new
    queue and sync context when the job is still current. *)
Definition rejoin_joined (job : VoiceJob) (generation : Z) (m : Manager)
    : (option nat * option (nat * nat)) * Manager :=
  let previous := mWorkerRetry m in
  if (generation =? mReconnectGeneration m) && sameWorkerEventJob (mCurrent m) job
     && negb (mStopping m)
  then
    let m := m <| mLastEventAt := hClock m |> <| mDisconnected := false |> in
    let '(workerRetry, m) := newQueue m in
    let m := m <| mWorkerRetry := Some workerRetry |> in
    let '(syncCtx, m) := restartParticipantSyncLocked m in
    ((previous, Some (workerRetry, syncCtx)), m)
  else ((previous, None), m).

(** The section after a failed rejoin; [true] when the loop goes on. *)
Definition rejoin_failed (job : VoiceJob) (generation : Z) (m : Manager) : bool * Manager :=
  if negb (generation =? mReconnectGeneration m) || negb (sameWorkerEventJob (mCurrent m) job)
  then (false, m)
  else (true, m <| mVoiceRejoinFailures ::= succ_i64 |> <| mLastEventAt := hClock m |>).

(** The loop of [rejoinVoiceWithBackoff] from [attempt]; [n] attempts left. *)
Fixpoint rejoin_loop (n : nat) (job : VoiceJob) (policy : ReconnectPolicy) (generation attempt : Z)
    : mprog unit :=
  match n with
  | O => ret tt
  | S n =>
      let delay := reconnectDelay policy attempt in
      do* (if 0 <? delay
           then (do* wait (Some delay) (fun _ => false) in ret tt) else ret tt) in
      let* go := atomic (rejoin_check job generation) in
      if negb go then ret tt else
      let* err := call (JoinVoice job) in
      match err with
      | None =>
          let* joined := atomic (rejoin_joined job generation) in
          do* stopAndWaitOpt joined.1 in
          match joined.2 with
          | None => ret tt
          | Some (workerRetry, syncCtx) =>
              do* startQueue workerRetry in
              do* hydrateVoiceParticipants job false in
              spawn (GKeepSynced syncCtx job generation)
          end
      | Some _ =>
          let* go := atomic (rejoin_failed job generation) in
          if negb go then ret tt else rejoin_loop n job policy generation (attempt + 1)
      end
  end.

(** [rejoinVoiceWithBackoff] *)
Definition rejoinVoiceWithBackoff (job : VoiceJob) (policy : ReconnectPolicy) (generation : Z)
    : mprog (option label) :=
  do* rejoin_loop (Z.to_nat (rpMaxAttempts policy)) job policy generation 1 in
  ret None.
End Lifecycle.

(** ** The back-off *)

Lemma reconnect_delay_loop_spec n : forall maxDelay delay,
  0 < delay <= maxDelay -> 2 * maxDelay <= max_int64 ->
  reconnect_delay_loop n maxDelay delay = Z.min maxDelay (delay * 2 ^ Z.of_nat n).
Proof.
  induction n as [|n IH]; intros maxDelay delay Hd Hm; cbn [reconnect_delay_loop].
  - simpl. lia.
  - rewrite dbl_small by (zconst; lia).
    rewrite Nat2Z.inj_succ, Z.pow_succ_r by lia.
    assert (1 <= 2 ^ Z.of_nat n) by (pose proof (Z.pow_pos_nonneg 2 (Z.of_nat n)); lia).
    destruct (Z.ltb_spec 0 maxDelay); [|lia]. simpl.
    destruct (Z.ltb_spec maxDelay (2 * delay)).
    + rewrite Z.min_l; [done|]. nia.
    + rewrite IH by lia. f_equal. lia.
Qed.

(** From the second attempt on: a base delay above the maximum is capped at once. *)
Lemma reconnect_delay_loop_capped policy a :
  0 < rpBaseDelay policy -> 0 < rpMaxDelay policy -> 2 <= a ->
  2 * rpMaxDelay policy <= max_int64 -> 2 * rpBaseDelay policy <= max_int64 ->
  reconnect_delay_loop (Z.to_nat (a - 1)) (rpMaxDelay policy) (rpBaseDelay policy) =
  Z.min (rpMaxDelay policy) (rpBaseDelay policy * 2 ^ (a - 1)).
Proof.
  intros Hb Hm Ha Hmax Hbase. destruct (Z.le_gt_cases (rpBaseDelay policy) (rpMaxDelay policy)).
  { rewrite reconnect_delay_loop_spec by lia. do 3 f_equal. lia. }
  assert (1 <= 2 ^ (a - 1)) by (pose proof (Z.pow_pos_nonneg 2 (a - 1)); lia).
  rewrite Z.min_l by nia. replace (Z.to_nat (a - 1)) with (S (Z.to_nat (a - 2))) by lia.
  cbn [reconnect_delay_loop]. rewrite dbl_small by (zconst; lia).
  destruct (Z.ltb_spec 0 (rpMaxDelay policy)); [|lia]. simpl.
  destruct (Z.ltb_spec (rpMaxDelay policy) (2 * rpBaseDelay policy)); [done|lia].
Qed.

(** C34: the delay before the [a]-th rejoin attempt of a policy that
    [SetReconnectPolicy] normalised: the first attempt waits the base delay, as
    it is (zero for a zero base, and even when it is above the maximum); every
    later one waits the base delay doubled [a-1] times and capped at the maximum
    delay. No delay is negative, and the doubling never overflows when twice the
    base and twice the maximum fit an [int64]. *)
Theorem reconnectDelay_closed_form policy m a :
  let p := mReconnectPolicy (SetReconnectPolicy policy m) in
  2 * rpMaxDelay p <= max_int64 -> 2 * rpBaseDelay p <= max_int64 -> 1 <= a ->
  reconnectDelay p a =
    (if a =? 1 then rpBaseDelay p else Z.min (rpMaxDelay p) (rpBaseDelay p * 2 ^ (a - 1))) /\
  0 <= reconnectDelay p a <= Z.max (rpBaseDelay p) (rpMaxDelay p) /\
  (2 <= a -> reconnectDelay p a <= rpMaxDelay p) /\ 1 <= rpMaxAttempts p.
Proof.
  intros p Hmax Hbase Ha.
  assert (0 <= rpBaseDelay p /\ 0 < rpMaxDelay p /\ 1 <= rpMaxAttempts p) as (Hb & Hm & Hatt).
  { unfold p, SetReconnectPolicy. simpl. unfold Second.
    destruct (Z.ltb_spec (rpBaseDelay policy) 0), (Z.leb_spec (rpMaxDelay policy) 0),
      (Z.leb_spec (rpMaxAttempts policy) 0); lia. }
  clearbody p. clear policy m.
  assert (1 <= 2 ^ (a - 1)) by (pose proof (Z.pow_pos_nonneg 2 (a - 1)); lia).
  assert (reconnectDelay p a = if a =? 1 then rpBaseDelay p
          else Z.min (rpMaxDelay p) (rpBaseDelay p * 2 ^ (a - 1))) as ->.
  { unfold reconnectDelay. destruct (Z.eqb_spec a 1) as [->|Hne].
    { destruct (Z.leb_spec (rpBaseDelay p) 0); simpl; [lia|done]. }
    destruct (Z.leb_spec (rpBaseDelay p) 0); simpl; [nia|].
    destruct (Z.leb_spec a 1); [lia|]. apply reconnect_delay_loop_capped; lia. }
  destruct (Z.eqb_spec a 1); (split; [done|]); split; [nia|split; [lia|done]|nia|split; [lia|done]].
Qed.

(** The doubling up to the cap, and a base delay above it. *)
Lemma reconnectDelay_closed_form_witness :
  reconnectDelay (mReconnectPolicy (SetReconnectPolicy (mkPolicy true 5 Second 0)
    (NewManagerWithReporter (mkVoiceCaps true true true) None 0))) 4 = 8 * Second /\
  reconnectDelay (mReconnectPolicy (SetReconnectPolicy (mkPolicy true 5 (3 * Second) Second)
    (NewManagerWithReporter (mkVoiceCaps true true true) None 0))) 1 = 3 * Second.
Proof.
  split.
  - destruct (reconnectDelay_closed_form (mkPolicy true 5 Second 0)
      (NewManagerWithReporter (mkVoiceCaps true true true) None 0) 4) as [E _];
      [vm_compute; congruence|vm_compute; congruence|lia|].
    rewrite E. reflexivity.
  - destruct (reconnectDelay_closed_form (mkPolicy true 5 (3 * Second) Second)
      (NewManagerWithReporter (mkVoiceCaps true true true) None 0) 1) as [E _];
      [vm_compute; congruence|vm_compute; congruence|lia|].
    rewrite E. reflexivity.
Defined.

(** ** Start and the rejoin loop *)

Section Runs.
Context `{MapRange}.

(** What [Start] checks before it asks Discord. *)
Definition start_refusal (job : VoiceJob) (m : Manager) : option string :=
  if blank (jStreamID job) then Some "stream_id is required"
  else if blank (jGuildID job) then Some "guild_id is required"
  else if blank (jVoiceChannelID job) then Some "voice_channel_id is required"
  else if mStopping m then Some "stream job is stopping"
  else if (jStreamID (mCurrent m) <>s "") && (jStreamID (mCurrent m) <>s jStreamID job)
  then Some "another stream job is already active"
  else None.

(** C33: [Start] on every branch, against any environment. The job is completed
    with the voice defaults first. A job that lacks a field, a stop in progress
    or another active stream is refused without a call and without a change of
    state; otherwise the first call is [JoinVoice] of the completed job, made
    after the pending auto-stop of the stream was canceled; if Discord refuses,
    its error is the answer and nothing else happens; if it accepts, [Start]
    succeeds. *)
Theorem Start_functional en job m :
  let job' := ApplyVoiceDefaults job m in
  let '(err, m', tr) := run en (Start job) 0 m in
  match start_refusal job' m with
  | Some msg => err = Some (ErrNew msg) /\ m' = m /\ tr = []
  | None =>
      let '(answer, m1) := env_call en _ 0 (JoinVoice job')
                             (cancelAutoStopLocked (jStreamID job') m) in
      err = answer /\
      match answer with
      | Some _ => m' = m1 /\ tr = [OCall (JoinVoice job') answer]
      | None => exists tr', tr = OCall (JoinVoice job') None :: tr'
      end
  end.
Proof.
  cbv zeta. unfold Start, start_refusal, start_check. cbn [bind read run].
  set (job' := ApplyVoiceDefaults job m).
  destruct (blank (jStreamID job')); [done|].
  destruct (blank (jGuildID job')); [done|].
  destruct (blank (jVoiceChannelID job')); [done|].
  cbn [bind atomic run]. destruct (mStopping m); [done|].
  destruct (_ && _); [done|]. cbn [bind call run].
  destruct (env_call en _ 0 (JoinVoice job') (cancelAutoStopLocked (jStreamID job') m))
    as [[e|] m1]; cbn [bind run]; [done|].
  destruct (start_commit _ _ _) as [[[[g c] prev] q] m2].
  rewrite run_bind. destruct (run en (stopAndWaitOpt prev) _ _) as [[u1 s1] t1].
  rewrite run_bind. destruct (run en (startQueue q) _ _) as [[u2 s2] t2].
  rewrite run_bind. destruct (run en (hydrateVoiceParticipants job' true) _ _) as [[u3 s3] t3].
  cbn [bind spawn run]. split; [done|]. by eexists.
Qed.

(** Voice joins of a trace, and those of another job. *)
Definition is_join X (e : ExtCall X) : bool := match e with JoinVoice _ => true | _ => false end.
Definition is_join_other (job : VoiceJob) X (e : ExtCall X) : bool :=
  match e with JoinVoice job' => negb (bool_decide (job' = job)) | _ => false end.

Lemma join_not_quiet X (e : ExtCall X) : is_join X e = true -> quiet e = false.
Proof. by destruct e. Qed.

Lemma join_other_not_quiet job X (e : ExtCall X) : is_join_other job X e = true -> quiet e = false.
Proof. by destruct e. Qed.

Lemma rejoin_loop_calls P job policy generation en :
  (forall X (e : ExtCall X), P X e = true -> quiet e = false) ->
  forall n attempt k m,
  calls P (run en (rejoin_loop n job policy generation attempt) k m).2
  <= (if P _ (JoinVoice job) then 1 else 0) * Z.of_nat n.
Proof.
  intros HP. set (c := if P _ (JoinVoice job) then 1 else 0).
  assert (0 <= c <= 1) as Hc by (unfold c; case_match; lia).
  induction n as [|n IH]; intros attempt k m; cbn [rejoin_loop].
  { simpl. lia. }
  cbv zeta. rewrite run_bind.
  match goal with |- context [run en ?p k m] => set (p0 := p) end.
  assert (calls P (run en p0 k m).2 = 0) as H0.
  { apply quiet_calls; [done|]. unfold p0. go_walk. }
  destruct (run en p0 k m) as [[u s1] t0]. cbn [snd] in H0.
  cbn [bind atomic run]. destruct (rejoin_check job generation s1) as [[|] s2];
    cbn [negb bind run]; [|cbn [snd]; rewrite calls_app; simpl; nia].
  cbn [call bind run].
  destruct (env_call en _ _ (JoinVoice job) s2) as [[e|] s3]; cbn [bind atomic run].
  - destruct (rejoin_failed job generation s3) as [[|] s4]; cbn [negb bind run].
    + match goal with |- context [run en (rejoin_loop n job policy generation ?a) ?k' s4] =>
        specialize (IH a k' s4); destruct (run en (rejoin_loop n job policy generation a) k' s4)
          as [[u5 s5] t5] end.
      cbn [snd] in *. rewrite calls_app. simpl. fold c. unfold c in *. case_match; lia.
    + cbn [snd]. rewrite calls_app. simpl. unfold c in *. case_match; lia.
  - destruct (rejoin_joined job generation s3) as [j s4].
    match goal with |- context [run en ?p ?k' s4] => set (p1 := p) end.
    match goal with |- context [run en p1 ?k' s4] =>
      assert (calls P (run en p1 k' s4).2 = 0) as H1;
      [apply quiet_calls; [done|unfold p1; go_walk]
      |destruct (run en p1 k' s4) as [[u5 s5] t5]] end.
    cbn [snd] in *. rewrite calls_app. simpl. unfold c in *. case_match; lia.
Qed.

(** A rejoin goroutine asks Discord at most [MaxAttempts] times to join, and
    only ever for the job it was started for, whatever Discord answers and
    whatever happens to the manager in between. *)
Theorem rejoin_attempts_bounded en job policy generation k m :
  let tr := (run en (rejoinVoiceWithBackoff job policy generation) k m).2 in
  calls is_join tr <= Z.max 0 (rpMaxAttempts policy) /\ calls (is_join_other job) tr = 0.
Proof.
  cbv zeta. unfold rejoinVoiceWithBackoff. rewrite run_bind.
  pose proof (rejoin_loop_calls is_join job policy generation en join_not_quiet
    (Z.to_nat (rpMaxAttempts policy)) 1 k m) as H1.
  pose proof (rejoin_loop_calls (is_join_other job) job policy generation en
    (join_other_not_quiet job) (Z.to_nat (rpMaxAttempts policy)) 1 k m) as H2.
  destruct (run en (rejoin_loop _ job policy generation 1) k m) as [[u s] t].
  cbn [run snd] in *. rewrite app_nil_r.
  simpl in H1, H2. rewrite bool_decide_eq_true_2 in H2 by done.
  pose proof (calls_nonneg (is_join_other job) t). simpl in H2. lia.
Qed.

(** A rejoin that is no longer current still stops the retry queue it finds:
    when the manager has moved on to a new generation with a queue of its own,
    that queue is stopped but stays installed, so the reports it holds are
    dropped and later ones are refused until the next reconnect. *)
Lemma stale_rejoin_stops_current_queue job generation m q qu :
  mWorkerRetry m = Some q -> generation <> mReconnectGeneration m -> hQueues m !! q = Some qu ->
  let '((previous, restart), m1) := rejoin_joined job generation m in
  previous = Some q /\ restart = None /\ m1 = m /\
  let m2 := onQueue q queue_cancel (onQueue q queue_mark_stopped m1) in
  mWorkerRetry m2 = Some q /\
  forall report, (queue_enqueue q report m2).1 = false.
Proof.
  intros Hw Hg Hq. unfold rejoin_joined.
  apply Z.eqb_neq in Hg. rewrite Hg. cbn [andb]. rewrite Hw.
  split; [done|]. split; [done|]. split; [done|]. split; [done|].
  intros report. unfold queue_enqueue, getQueue, onQueue. simpl.
  rewrite lookup_alter_eq, lookup_alter_eq, Hq. simpl.
  unfold enqueue, queue_cancel, queue_mark_stopped. destruct (qStopped qu) eqn:E; simpl; by rewrite ?E.
Qed.
End Runs.
