(* ===== verification/Notification.v ===== *)
(** * Notification: the YouTube-live message of a stream, once per event

    [NotifyYouTubeLive] of [internal/jobs/notification.go] and the receipts that
    make it idempotent.  [sum256] stands for [sha256.Sum256] of the Go standard
    library: the map of receipts is keyed by the hash of the event id, and a
    receipt holds the hash of its payload.  Receipts are pointers, because a
    caller that finds one in flight waits for it and reads it once done. *)

From S2P Require Import Prelude Conc Errors Types RetryQueue Manager.

Open Scope go_scope.

(** [youtubeLiveNotificationPrefix], in UTF-8 with its line feed. *)
Definition youtubeLiveNotificationPrefix : string :=
  "YouTube配信を開始しました。" ++ String "010"%char EmptyString.
Definition notificationReceiptTTL : Duration := 24 * Hour.
Definition maxNotificationReceipts : Z := 2048.

Definition ErrNotificationStreamIDRequired := ErrNew "notification stream_id is required".
Definition ErrNotificationEventIDRequired := ErrNew "notification event_id is required".
Definition ErrNotificationWatchURLRequired := ErrNew "notification watch_url is required".
Definition ErrNoActiveLiveJob := ErrNew "no active live job".
Definition ErrLiveJobStreamMismatch :=
  ErrNew "notification stream_id does not match active live job".
Definition ErrLiveJobTextChannelMissing := ErrNew "active live job text channel is required".
Definition ErrLiveJobTextChannelMismatch :=
  ErrNew "runtime text channel does not match active live job".
Definition ErrNotificationEventIDConflict :=
  ErrNew "notification event_id was already used for another payload".
Definition ErrNotificationReceiptCapacity := ErrNew "notification receipt capacity reached".

(** [&discord.SendMessageError{Code: unavailable, Retryable: true}] *)
Definition sendUnavailable : error := SendMessageError SendMessageCodeUnavailable true 0.

(** [ActiveLiveJobTextChannelID] *)
Definition ActiveLiveJobTextChannelID (streamID : string) (m : Manager) : string * bool :=
  let streamID := TrimSpace streamID in
  if streamID =s "" then ("", false)
  else if TrimSpace (jStreamID (mCurrent m)) <>s streamID then ("", false)
  else
    let channelID := TrimSpace (jTextChannelID (mCurrent m)) in
    (channelID, channelID <>s "").

(** [validateLiveNotificationStateLocked] *)
Definition validateLiveNotificationStateLocked (streamID runtimeTextChannelID : string)
    (m : Manager) : option error :=
  if jStreamID (mCurrent m) =s "" then Some ErrNoActiveLiveJob
  else if jStreamID (mCurrent m) <>s streamID then Some ErrLiveJobStreamMismatch
  else
    let currentTextChannelID := TrimSpace (jTextChannelID (mCurrent m)) in
    if (currentTextChannelID =s "") || (runtimeTextChannelID =s "")
    then Some ErrLiveJobTextChannelMissing
    else if currentTextChannelID <>s runtimeTextChannelID then Some ErrLiveJobTextChannelMismatch
    else None.

(** A receipt pointer is never nil: [NotifyYouTubeLive] stores only fresh ones. *)
Definition getReceipt (r : nat) (m : Manager) : notificationReceipt :=
  default (mkReceipt "" "" "" None 0 false) (hReceipts m !! r).

(** [NotificationResult] with the error. *)
Inductive notify_result :=
| NotifySent (messageID : string)
| NotifyAlreadySent (messageID : string)
| NotifyError (err : error).

Section Notification.
Context `{MapRange} (sum256 : string -> string).

Definition receipt_expired (now : Time) (receipt : notificationReceipt) : bool :=
  negb (IsZero (nrCompletedAt receipt))
  && (notificationReceiptTTL <=? Sub now (nrCompletedAt receipt)).

(** The first loop of [pruneNotificationReceiptsLocked]. *)
Definition prune_expired (now : Time) (m : Manager) : Manager :=
  m <| mNotificationReceipts ::= fold_left (fun acc kr =>
         if receipt_expired now (getReceipt kr.2 m) then delete kr.1 acc else acc)
         (map_range (mNotificationReceipts m)) |>.

(** The second loop: the oldest completed receipt goes while there are too
    many; [n] iterations. *)
Fixpoint prune_oldest (n : nat) (m : Manager) : Manager :=
  match n with
  | O => m
  | S n =>
      if mlen (mNotificationReceipts m) <? maxNotificationReceipts then m
      else
        match oldest (fun kr => negb (IsZero (nrCompletedAt (getReceipt kr.2 m))))
                (fun kr => nrCompletedAt (getReceipt kr.2 m))
                (map_range (mNotificationReceipts m)) with
        | None => m
        | Some (key, _) => prune_oldest n (m <| mNotificationReceipts ::= delete key |>)
        end
  end.

(** [pruneNotificationReceiptsLocked]: every iteration deletes an entry, so the
    number of entries bounds them. *)
Definition pruneNotificationReceiptsLocked (now : Time) (m : Manager) : Manager :=
  let m := prune_expired now m in
  prune_oldest (size (mNotificationReceipts m)) m.

Definition payload_hash (streamID runtimeTextChannelID watchURL : string) : string :=
  sum256 (streamID ++ NUL ++ runtimeTextChannelID ++ NUL ++ watchURL).

(** The first section: an error, a receipt to wait for, or a fresh one. *)
Inductive notify_begin :=
| BeginError (err : error)
| BeginWait (receipt : nat)
| BeginSend (receipt : nat).

Definition notify_section (streamID eventID runtimeTextChannelID watchURL : string) (m : Manager)
    : notify_begin * Manager :=
  let key := sum256 eventID in
  let payloadHash := payload_hash streamID runtimeTextChannelID watchURL in
  match validateLiveNotificationStateLocked streamID runtimeTextChannelID m with
  | Some err => (BeginError err, m)
  | None =>
      let m := pruneNotificationReceiptsLocked (hClock m) m in
      match mNotificationReceipts m !! key with
      | Some r =>
          let receipt := getReceipt r m in
          if (nrStreamID receipt <>s streamID) || (nrPayloadHash receipt <>s payloadHash)
          then (BeginError ErrNotificationEventIDConflict, m)
          else (BeginWait r, m)
      | None =>
          if maxNotificationReceipts <=? mlen (mNotificationReceipts m)
          then (BeginError ErrNotificationReceiptCapacity, m)
          else
            let r := hNextRef m in
            (BeginSend r,
             m <| hNextRef ::= S |>
               <| hReceipts ::= insert r (mkReceipt streamID payloadHash "" None 0 false) |>
               <| mNotificationReceipts ::= insert key r |>)
      end
  end.

(** The section after the message was sent. *)
Definition notify_settle (key : string) (receipt : nat) (messageID : string) (err : option error)
    (m : Manager) : Manager :=
  let m :=
    match err with
    | Some _ =>
        m <| hReceipts ::= alter (fun r => r <| nrErr := err |>) receipt |>
          <| mNotificationReceipts ::= delete key |>
    | None =>
        m <| hReceipts ::= alter (fun r => r <| nrErr := None |>
               <| nrMessageID := TrimSpace messageID |> <| nrCompletedAt := hClock m |>) receipt |>
          <| mLastEventAt := hClock m |>
    end in
  m <| hReceipts ::= alter (fun r => r <| nrDone := true |>) receipt |>.

(** The answer of a caller that found a receipt: it waits for [done] or for its
    own context. *)
Definition await_receipt (ctx : option nat) (receipt : nat) : mprog notify_result :=
  let ctxGone m := match ctx with Some c => ctxDone c m | None => false end in
  do* wait None (fun m => nrDone (getReceipt receipt m) || ctxGone m) in
  let* first := call SelectFirst in
  read (fun m =>
    let r := getReceipt receipt m in
    if nrDone r && (first || negb (ctxGone m)) then
      match nrErr r with
      | Some err => NotifyError err
      | None => NotifyAlreadySent (nrMessageID r)
      end
    else NotifyError sendUnavailable).

(** [NotifyYouTubeLive] *)
Definition NotifyYouTubeLive (ctx : option nat)
    (streamID eventID runtimeTextChannelID watchURL : string) : mprog notify_result :=
  let streamID := TrimSpace streamID in
  let eventID := TrimSpace eventID in
  let runtimeTextChannelID := TrimSpace runtimeTextChannelID in
  let watchURL := TrimSpace watchURL in
  if streamID =s "" then ret (NotifyError ErrNotificationStreamIDRequired)
  else if eventID =s "" then ret (NotifyError ErrNotificationEventIDRequired)
  else if watchURL =s "" then ret (NotifyError ErrNotificationWatchURLRequired)
  else
  let* begun := atomic (notify_section streamID eventID runtimeTextChannelID watchURL) in
  match begun with
  | BeginError err => ret (NotifyError err)
  | BeginWait receipt => await_receipt ctx receipt
  | BeginSend receipt =>
      let* answer := call (SendMessage ctx
        (mkOutboundMessage runtimeTextChannelID (youtubeLiveNotificationPrefix ++ watchURL))) in
      let '(messageID, err) := answer in
      let err := match err with
                 | None => if blank messageID then Some sendUnavailable else None
                 | Some _ => err
                 end in
      do* modify (notify_settle (sum256 eventID) receipt messageID err) in
      match err with
      | Some err => ret (NotifyError err)
      | None => ret (NotifySent (TrimSpace messageID))
      end
  end.
End Notification.

(** ** Receipts and the sends in flight *)

(** A send in flight: the key and the receipt of the [NotifyYouTubeLive] call
    that issued it. *)
Definition flight : Type := string * nat.

(** The receipts under any interleaving of callers: a caller's first section, a
    send that is answered, and steps of the rest of the manager, which leave
    the receipts alone. *)
Section Runs.
Context `{MapRange} (sum256 : string -> string).

Inductive nstep : Manager * list flight -> Manager * list flight -> Prop :=
| ns_send m fl s e c w r m' :
    notify_section sum256 s e c w m = (BeginSend r, m') ->
    nstep (m, fl) (m', (sum256 e, r) :: fl)
| ns_refuse m fl s e c w m' err :
    notify_section sum256 s e c w m = (BeginError err, m') -> nstep (m, fl) (m', fl)
| ns_wait m fl s e c w m' r :
    notify_section sum256 s e c w m = (BeginWait r, m') -> nstep (m, fl) (m', fl)
| ns_sent m l key r rest messageID :
    blank messageID = false ->
    nstep (m, l ++ (key, r) :: rest)%list (notify_settle key r messageID None m, l ++ rest)%list
| ns_failed m l key r rest messageID err :
    nstep (m, l ++ (key, r) :: rest)%list (notify_settle key r messageID (Some err) m, l ++ rest)%list
| ns_other m fl m' :
    mNotificationReceipts m' = mNotificationReceipts m -> hReceipts m' = hReceipts m ->
    (hNextRef m <= hNextRef m')%nat -> nstep (m, fl) (m', fl).

Record receipts_ok (m : Manager) (fl : list flight) : Prop := {
  ro_nodup : NoDup fl.*1;
  ro_flight : forall key r, (key, r) ∈ fl ->
    mNotificationReceipts m !! key = Some r /\
    exists rc, hReceipts m !! r = Some rc /\ nrDone rc = false /\ nrCompletedAt rc = 0;
  ro_settled : forall key r, mNotificationReceipts m !! key = Some r ->
    (r < hNextRef m)%nat /\
    ((key, r) ∈ fl \/
     exists rc, hReceipts m !! r = Some rc /\ nrDone rc = true /\ nrErr rc = None /\
       blank (nrMessageID rc) = false);
  ro_inj : forall k1 k2 r, mNotificationReceipts m !! k1 = Some r ->
    mNotificationReceipts m !! k2 = Some r -> k1 = k2 }.

(** Pruning deletes receipts, never one in flight. *)
Definition pruned_from (m m' : Manager) : Prop :=
  hReceipts m' = hReceipts m /\ hNextRef m' = hNextRef m /\ mCurrent m' = mCurrent m /\
  forall key, mNotificationReceipts m' !! key = mNotificationReceipts m !! key \/
    (mNotificationReceipts m' !! key = None /\
     exists r, mNotificationReceipts m !! key = Some r /\ IsZero (nrCompletedAt (getReceipt r m)) = false).

Lemma pruned_refl m : pruned_from m m.
Proof. split; [done|]. split; [done|]. split; [done|]. by left. Qed.

Lemma pruned_trans m1 m2 m3 : pruned_from m1 m2 -> pruned_from m2 m3 -> pruned_from m1 m3.
Proof.
  intros (Hh & Hn & Hc & H1) (Hh' & Hn' & Hc' & H2).
  split; [congruence|]. split; [congruence|]. split; [congruence|]. intros key.
  destruct (H2 key) as [->|(Hnone & r & Hr & Hz)]; [apply H1|].
  right. split; [done|]. exists r. destruct (H1 key) as [E|[E _]]; [|congruence].
  split; [congruence|]. unfold getReceipt in *. by rewrite Hh in Hz.
Qed.

Lemma pruned_delete m key r :
  mNotificationReceipts m !! key = Some r -> IsZero (nrCompletedAt (getReceipt r m)) = false ->
  pruned_from m (m <| mNotificationReceipts ::= delete key |>).
Proof.
  intros Hr Hz. split; [done|]. split; [done|]. split; [done|]. intros k. simpl.
  destruct (decide (k = key)) as [->|Hne].
  - right. rewrite lookup_delete_eq. split; [done|]. by exists r.
  - left. by rewrite lookup_delete_ne.
Qed.

Lemma prune_expired_pruned now m : pruned_from m (prune_expired now m).
Proof.
  unfold prune_expired.
  assert (forall (l : list (string * nat)) (acc : gmap string nat),
    (forall k r, (k, r) ∈ l -> mNotificationReceipts m !! k = Some r) ->
    (forall key, acc !! key = mNotificationReceipts m !! key \/
      (acc !! key = None /\ exists r, mNotificationReceipts m !! key = Some r /\
        IsZero (nrCompletedAt (getReceipt r m)) = false)) ->
    forall key, let acc' := fold_left (fun acc kr =>
        if receipt_expired now (getReceipt kr.2 m) then delete kr.1 acc else acc) l acc in
      acc' !! key = mNotificationReceipts m !! key \/
      (acc' !! key = None /\ exists r, mNotificationReceipts m !! key = Some r /\
        IsZero (nrCompletedAt (getReceipt r m)) = false)) as Hfold.
  { induction l as [|[k r] l IH]; intros acc Hl Hacc; [done|]. cbn [fold_left fst snd].
    apply IH; [intros k' r' Hin; by apply Hl, list_elem_of_further|].
    destruct (receipt_expired now (getReceipt r m)) eqn:E; [|done].
    intros key. destruct (decide (key = k)) as [->|Hne].
    - right. rewrite lookup_delete_eq. split; [done|]. exists r.
      split; [apply Hl, list_elem_of_here|]. unfold receipt_expired in E. by bool_hyps.
    - by rewrite lookup_delete_ne. }
  split; [done|]. split; [done|]. split; [done|]. simpl.
  apply Hfold; [intros k r; apply elem_of_range|]. by left.
Qed.

Lemma prune_oldest_pruned n m : pruned_from m (prune_oldest n m).
Proof.
  revert m. induction n as [|n IH]; intros m; cbn [prune_oldest]; [apply pruned_refl|].
  case_match; [apply pruned_refl|].
  destruct (oldest _ _ _) as [[key r]|] eqn:E; [|apply pruned_refl].
  destruct (oldest_Some _ _ _ _ E) as (Hin & Hz & _). apply elem_of_range in Hin.
  eapply pruned_trans; [|apply IH]. apply (pruned_delete m key r); [done|].
  simpl in Hz. by bool_hyps.
Qed.

Lemma prune_pruned now m : pruned_from m (pruneNotificationReceiptsLocked now m).
Proof. eapply pruned_trans; [apply prune_expired_pruned|apply prune_oldest_pruned]. Qed.

Lemma pruned_ok m m' fl : pruned_from m m' -> receipts_ok m fl -> receipts_ok m' fl.
Proof.
  intros (Hh & Hn & _ & Hp) [Hnd Hfl Hset Hinj].
  assert (forall k r, mNotificationReceipts m' !! k = Some r -> mNotificationReceipts m !! k = Some r)
    as Hsub by (intros k r Hr; destruct (Hp k) as [E|[E _]]; congruence).
  split; [done| | |].
  - intros key r Hin. destruct (Hfl key r Hin) as (Hr & rc & Hrc & Hd & Hc).
    rewrite Hh. split; [|by exists rc].
    destruct (Hp key) as [->|(_ & r' & Hr' & Hz)]; [done|].
    assert (r' = r) as -> by congruence. unfold getReceipt in Hz. rewrite Hrc in Hz. simpl in Hz.
    by rewrite Hc in Hz.
  - intros key r Hr%Hsub. rewrite Hh, Hn. by apply Hset.
  - intros k1 k2 r H1%Hsub H2%Hsub. by eapply Hinj.
Qed.

(** The first section, up to pruning. *)
Lemma notify_section_cases s e c w m b m' :
  notify_section sum256 s e c w m = (b, m') ->
  match b with
  | BeginSend r =>
      exists m1, pruned_from m m1 /\ mNotificationReceipts m1 !! sum256 e = None /\
        r = hNextRef m1 /\ mlen (mNotificationReceipts m1) < maxNotificationReceipts /\
        mNotificationReceipts m' = <[sum256 e := r]> (mNotificationReceipts m1) /\
        hReceipts m' = <[r := mkReceipt s (payload_hash sum256 s c w) "" None 0 false]> (hReceipts m1) /\
        hNextRef m' = S (hNextRef m1)
  | _ => pruned_from m m'
  end.
Proof.
  unfold notify_section. cbv zeta.
  destruct (validateLiveNotificationStateLocked s c m); [intros [= <- <-]; apply pruned_refl|].
  pose proof (prune_pruned (hClock m) m) as Hp.
  destruct (mNotificationReceipts (pruneNotificationReceiptsLocked (hClock m) m) !! sum256 e) eqn:E.
  - case_match; intros [= <- <-]; done.
  - destruct (Z.leb_spec maxNotificationReceipts
      (mlen (mNotificationReceipts (pruneNotificationReceiptsLocked (hClock m) m))));
      intros [= <- <-]; [done|].
    exists (pruneNotificationReceiptsLocked (hClock m) m). done.
Qed.

Lemma send_ok m m1 fl key r s p (m' : Manager) :
  pruned_from m m1 -> receipts_ok m fl ->
  mNotificationReceipts m1 !! key = None -> r = hNextRef m1 ->
  mNotificationReceipts m' = <[key := r]> (mNotificationReceipts m1) ->
  hReceipts m' = <[r := mkReceipt s p "" None 0 false]> (hReceipts m1) ->
  hNextRef m' = S (hNextRef m1) -> receipts_ok m' ((key, r) :: fl).
Proof.
  intros Hp Hok Hnone Hr Hm Hh Hn.
  destruct (pruned_ok _ _ _ Hp Hok) as [Hnd Hfl Hset Hinj].
  assert (forall k r', mNotificationReceipts m1 !! k = Some r' -> r' <> r) as Hfresh.
  { intros k r' Hk. destruct (Hset k r' Hk) as [Hlt _]. lia. }
  assert (key ∉ fl.*1) as Hkey.
  { intros ([k r'] & Hk & Hin)%list_elem_of_fmap. simpl in Hk. subst k.
    destruct (Hfl key r' Hin) as [Hk _]. congruence. }
  split.
  - simpl. by apply NoDup_cons.
  - intros k r' [[= -> ->]|Hin]%elem_of_cons; rewrite Hm, Hh.
    + rewrite !lookup_insert_eq. split; [done|]. by eexists.
    + destruct (Hfl k r' Hin) as (Hk & rc & Hrc & Hd). pose proof (Hfresh _ _ Hk).
      rewrite lookup_insert_ne by congruence. split; [done|]. exists rc.
      by rewrite lookup_insert_ne by congruence.
  - intros k r'. rewrite Hm, Hh, Hn. intros [[<- <-]|[Hne Hk]]%lookup_insert_Some.
    + split; [lia|]. left. apply list_elem_of_here.
    + destruct (Hset k r' Hk) as [Hlt [Hin|(rc & Hrc & Hd)]]; (split; [lia|]).
      * left. by apply list_elem_of_further.
      * right. exists rc. rewrite lookup_insert_ne; [done|]. intros <-. by apply (Hfresh _ _ Hk).
  - intros k1 k2 r'. rewrite Hm. intros [[<- <-]|[Hne1 H1]]%lookup_insert_Some
      [[<- Hr2]|[Hne2 H2]]%lookup_insert_Some; [done| | |by eapply Hinj].
    + by apply Hfresh in H2.
    + subst r'. by apply Hfresh in H1.
Qed.

Lemma flight_split (l rest : list flight) key r :
  NoDup (l ++ (key, r) :: rest)%list.*1 ->
  NoDup (l ++ rest)%list.*1 /\ key ∉ (l ++ rest)%list.*1.
Proof.
  rewrite !fmap_app. cbn [fmap list_fmap fst]. intros Hnd.
  rewrite <- Permutation_middle in Hnd. apply NoDup_cons in Hnd as [Hk Hnd]. done.
Qed.

Lemma settle_sent_ok m l key r rest id :
  blank id = false -> receipts_ok m (l ++ (key, r) :: rest)%list ->
  receipts_ok (notify_settle key r id None m) (l ++ rest)%list.
Proof.
  intros Hid [Hnd Hfl Hset Hinj]. destruct (flight_split _ _ _ _ Hnd) as [Hnd' Hk].
  destruct (Hfl key r) as (Hkr & rc & Hrc & Hd & Hc).
  { apply elem_of_app. right. apply list_elem_of_here. }
  assert (forall k r', (k, r') ∈ (l ++ rest)%list -> k <> key /\ r' <> r /\
            (k, r') ∈ (l ++ (key, r) :: rest)%list) as Hin'.
  { intros k r' Hin. assert (k <> key) as Hne.
    { intros ->. apply Hk, list_elem_of_fmap. by exists (key, r'). }
    assert ((k, r') ∈ (l ++ (key, r) :: rest)%list) as Hin1.
    { apply elem_of_app in Hin as [?|?]; apply elem_of_app; [by left|right].
      by apply list_elem_of_further. }
    split; [done|]. split; [|done]. intros ->. apply Hne.
    destruct (Hfl k r Hin1) as [Hk1 _]. by eapply Hinj. }
  unfold notify_settle. split; simpl.
  - done.
  - intros k r' Hin. destruct (Hin' k r' Hin) as (Hne & Hner & Hin1).
    destruct (Hfl k r' Hin1) as (Hk1 & rc1 & Hrc1 & Hd1). split; [done|]. exists rc1.
    by rewrite !lookup_alter_ne by done.
  - intros k r' Hk1. destruct (Hset k r' Hk1) as [Hlt Hs]. split; [done|].
    destruct (decide (r' = r)) as [->|Hner].
    + right. rewrite lookup_alter_eq, lookup_alter_eq, Hrc. simpl. eexists. split; [done|].
      simpl. by rewrite blank_TrimSpace.
    + destruct Hs as [Hin|(rc1 & Hrc1 & Hs)].
      * left. apply elem_of_app in Hin as [?|[[= -> ->]|?]%elem_of_cons]; [|done|];
          apply elem_of_app; auto.
      * right. exists rc1. by rewrite !lookup_alter_ne by done.
  - done.
Qed.

Lemma settle_failed_ok m l key r rest id err :
  receipts_ok m (l ++ (key, r) :: rest)%list ->
  receipts_ok (notify_settle key r id (Some err) m) (l ++ rest)%list.
Proof.
  intros [Hnd Hfl Hset Hinj]. destruct (flight_split _ _ _ _ Hnd) as [Hnd' Hk].
  destruct (Hfl key r) as (Hkr & rc & Hrc & Hd & Hc).
  { apply elem_of_app. right. apply list_elem_of_here. }
  unfold notify_settle. split; simpl.
  - done.
  - intros k r' Hin. assert (k <> key) as Hne.
    { intros ->. apply Hk, list_elem_of_fmap. by exists (key, r'). }
    assert ((k, r') ∈ (l ++ (key, r) :: rest)%list) as Hin1.
    { apply elem_of_app in Hin as [?|?]; apply elem_of_app; [by left|right].
      by apply list_elem_of_further. }
    destruct (Hfl k r' Hin1) as (Hk1 & rc1 & Hrc1 & Hd1).
    assert (r' <> r) by (intros ->; apply Hne; by eapply Hinj).
    rewrite lookup_delete_ne by done. split; [done|]. exists rc1. by rewrite !lookup_alter_ne by done.
  - intros k r' [Hne Hk1]%lookup_delete_Some. destruct (Hset k r' Hk1) as [Hlt Hs].
    assert (r' <> r) by (intros ->; apply Hne; symmetry; by eapply Hinj).
    split; [done|]. destruct Hs as [Hin|(rc1 & Hrc1 & Hs)].
    + left. apply elem_of_app in Hin as [?|[[= -> ->]|?]%elem_of_cons]; [|done|];
        apply elem_of_app; auto.
    + right. exists rc1. by rewrite !lookup_alter_ne by done.
  - intros k1 k2 r' [_ H1]%lookup_delete_Some [_ H2]%lookup_delete_Some. by eapply Hinj.
Qed.

Lemma nstep_ok st st' : nstep st st' -> receipts_ok st.1 st.2 -> receipts_ok st'.1 st'.2.
Proof.
  intros Hstep Hok. destruct Hstep as [m fl s e c w r m' Hn|m fl s e c w m' err Hn
    |m fl s e c w m' r Hn|m l key r rest id Hid|m l key r rest id err|m fl m' Hm Hh Hn]; simpl in *.
  - apply notify_section_cases in Hn as (m1 & Hp & Hnone & Hr & _ & Hm & Hh & Hnx).
    by eapply send_ok.
  - apply notify_section_cases in Hn. by eapply pruned_ok.
  - apply notify_section_cases in Hn. by eapply pruned_ok.
  - by apply settle_sent_ok.
  - by apply settle_failed_ok.
  - destruct Hok as [Hnd Hfl Hset Hinj]. split; [done| | |]; rewrite ?Hm, ?Hh; [done| |done].
    intros k r Hk. destruct (Hset k r Hk) as [Hlt ?]. split; [lia|done].
Qed.

Lemma nrun_ok m fl m' fl' : receipts_ok m fl -> rtc nstep (m, fl) (m', fl') -> receipts_ok m' fl'.
Proof.
  intros Hok Hr. remember (m, fl) as st. remember (m', fl') as st'.
  assert (receipts_ok st.1 st.2) as H0 by (by subst). clear Hok.
  assert (receipts_ok st'.1 st'.2) as H1; [|by subst].
  clear Heqst Heqst'. induction Hr as [|x y z Hstep _ IH]; [done|]. by eapply IH, nstep_ok.
Qed.

Lemma new_receipts_ok voice reporter now : receipts_ok (NewManagerWithReporter voice reporter now) [].
Proof.
  split; simpl.
  - constructor.
  - by intros key r ?%not_elem_of_nil.
  - intros key r. by rewrite lookup_empty.
  - intros k1 k2 r. by rewrite lookup_empty.
Qed.

(** ** A confirmed send is remembered *)

(** The receipt of the key is that of a send Discord confirmed at [t] with the
    message [id]. *)
Definition confirmed (key : string) (r : nat) (id : string) (t : Time) (m : Manager) : Prop :=
  mNotificationReceipts m !! key = Some r /\
  exists rc, hReceipts m !! r = Some rc /\ nrDone rc = true /\ nrErr rc = None /\
    nrMessageID rc = id /\ nrCompletedAt rc = t.

(** A receipt completed at [t] is kept: its time to live is not over, and the
    table is not full. *)
Definition remembers (t : Time) (m : Manager) : Prop :=
  Sub (hClock m) t < notificationReceiptTTL /\
  mlen (mNotificationReceipts m) < maxNotificationReceipts.

Lemma confirmed_receipt key r id t m :
  confirmed key r id t m ->
  nrDone (getReceipt r m) = true /\ nrErr (getReceipt r m) = None /\
  nrMessageID (getReceipt r m) = id /\ nrCompletedAt (getReceipt r m) = t.
Proof. intros (_ & rc & Hrc & Hs). unfold getReceipt. by rewrite Hrc. Qed.

Lemma prune_expired_size now m :
  mlen (mNotificationReceipts (prune_expired now m)) <= mlen (mNotificationReceipts m).
Proof.
  unfold prune_expired, mlen. simpl. generalize (mNotificationReceipts m) at 2 3 as acc.
  generalize (map_range (mNotificationReceipts m)) as l.
  induction l as [|[k r] l IH]; intros acc; cbn [fold_left fst snd]; [lia|].
  case_match; [|apply IH]. etrans; [apply IH|].
  rewrite map_size_delete. destruct (acc !! k); simpl; lia.
Qed.

Lemma prune_expired_keeps key r now m :
  receipt_expired now (getReceipt r m) = false -> mNotificationReceipts m !! key = Some r ->
  mNotificationReceipts (prune_expired now m) !! key = Some r.
Proof.
  intros He Hk. unfold prune_expired. simpl.
  assert (forall (l : list (string * nat)) (acc : gmap string nat),
    (forall k' r', (k', r') ∈ l -> mNotificationReceipts m !! k' = Some r') ->
    acc !! key = Some r ->
    fold_left (fun acc kr => if receipt_expired now (getReceipt kr.2 m) then delete kr.1 acc else acc)
      l acc !! key = Some r) as Hfold; [|apply Hfold; [intros k' r'; apply elem_of_range|done]].
  induction l as [|[k' r'] l IH]; intros acc Hl Hacc; [done|]. cbn [fold_left fst snd].
  apply IH; [intros k2 r2 Hin; by apply Hl, list_elem_of_further|].
  destruct (receipt_expired now (getReceipt r' m)) eqn:E; [|done].
  rewrite lookup_delete_ne; [done|]. intros ->.
  pose proof (Hl key r' (list_elem_of_here _ _)). congruence.
Qed.

Lemma prune_keeps key r id t m :
  confirmed key r id t m -> remembers t m ->
  confirmed key r id t (pruneNotificationReceiptsLocked (hClock m) m).
Proof.
  intros Hc [Ht Hn]. destruct (confirmed_receipt _ _ _ _ _ Hc) as (_ & _ & _ & Hat).
  destruct (prune_pruned (hClock m) m) as [Hh _]. destruct Hc as [Hk Hrc].
  split; [|by rewrite Hh]. unfold pruneNotificationReceiptsLocked. cbv zeta.
  assert (mNotificationReceipts (prune_expired (hClock m) m) !! key = Some r) as Hk'.
  { apply prune_expired_keeps; [|done]. unfold receipt_expired. rewrite Hat.
    destruct (Z.leb_spec notificationReceiptTTL (Sub (hClock m) t)); [lia|apply andb_false_r]. }
  pose proof (prune_expired_size (hClock m) m) as Hs.
  destruct (size _) as [|n]; cbn [prune_oldest]; [done|].
  destruct (Z.ltb_spec (mlen (mNotificationReceipts (prune_expired (hClock m) m)))
    maxNotificationReceipts); [done|lia].
Qed.

(** What a call for the same event comes to. *)
Lemma confirmed_section key r id t s e c w m b m' :
  confirmed key r id t m -> remembers t m -> sum256 e = key ->
  notify_section sum256 s e c w m = (b, m') ->
  confirmed key r id t m' /\
  match b with
  | BeginSend _ => False
  | BeginWait r' => r' = r
  | BeginError err => validateLiveNotificationStateLocked s c m = Some err \/
                      err = ErrNotificationEventIDConflict
  end.
Proof.
  intros Hc Hm <-. unfold notify_section. cbv zeta.
  destruct (validateLiveNotificationStateLocked s c m) as [err|]; [intros [= <- <-]; by split; [|left]|].
  pose proof (prune_keeps _ _ _ _ _ Hc Hm) as Hp. pose proof Hp as [-> _].
  case_match; intros [= <- <-]; (split; [done|]); [by right|done].
Qed.

(** No step forgets it. *)
Lemma section_keeps key r id t s e c w m b m' :
  (r < hNextRef m)%nat -> confirmed key r id t m -> remembers t m ->
  notify_section sum256 s e c w m = (b, m') -> confirmed key r id t m'.
Proof.
  intros Hlt Hc Hm Hb. destruct (decide (sum256 e = key)) as [He|Hne].
  { by apply (confirmed_section _ _ _ _ _ _ _ _ _ _ _ Hc Hm He Hb). }
  revert Hb. unfold notify_section. cbv zeta.
  destruct (validateLiveNotificationStateLocked s c m) as [err|]; [by intros [= _ <-]|].
  pose proof (prune_keeps _ _ _ _ _ Hc Hm) as Hp.
  pose proof (prune_pruned (hClock m) m) as (_ & Hn & _).
  case_match; [case_match; by intros [= _ <-]|]. case_match; intros [= _ <-]; [done|].
  destruct Hp as (Hk & rc & Hrc & Hs). unfold confirmed. simpl. rewrite Hn.
  rewrite !lookup_insert_ne by (congruence || lia). split; [done|]. by exists rc.
Qed.

Lemma confirmed_step key r id t st st' :
  receipts_ok st.1 st.2 -> confirmed key r id t st.1 -> remembers t st.1 -> nstep st st' ->
  confirmed key r id t st'.1.
Proof.
  intros Hok Hc Hm Hstep.
  assert (forall k r', (k, r') ∈ st.2 -> k <> key /\ r' <> r) as Hother.
  { intros k r' Hin. destruct Hc as (Hk & rc & Hrc & Hd & _).
    destruct (ro_flight _ _ Hok _ _ Hin) as (Hk' & rc' & Hrc' & Hd' & _).
    split; intros ->; congruence. }
  assert ((r < hNextRef st.1)%nat) as Hlt by (destruct Hc as [Hk _]; by apply (ro_settled _ _ Hok key)).
  destruct Hstep as [m fl s e c w r' m' Hn|m fl s e c w m' err Hn
    |m fl s e c w m' r' Hn|m l k r' rest id' Hid|m l k r' rest id' err|m fl m' Hm' Hh Hn]; simpl in *;
    try (by eapply section_keeps).
  1,2: destruct (Hother k r') as [Hk Hr]; [apply elem_of_app; right; apply list_elem_of_here|];
    destruct Hc as (Hk1 & rc & Hrc & Hs); unfold confirmed, notify_settle; simpl;
    rewrite ?lookup_delete_ne, !lookup_alter_ne by done; (split; [done|by exists rc]).
  unfold confirmed. by rewrite Hm', Hh.
Qed.

(** The messages a text sends. *)
Definition is_send X (e : ExtCall X) : bool :=
  match e with SendMessage _ _ => true | _ => false end.

(** A run whose every state keeps the receipts of [t]. *)
Definition nrun_within (t : Time) : relation (Manager * list flight) :=
  rtc (fun st st' => remembers t st.1 /\ nstep st st').

Lemma confirmed_run key r id t st st' :
  receipts_ok st.1 st.2 -> confirmed key r id t st.1 -> nrun_within t st st' ->
  confirmed key r id t st'.1.
Proof.
  intros Hok Hc Hr. induction Hr as [|x y z [Hm Hstep] _ IH]; [done|].
  apply IH; [by eapply nstep_ok|by eapply confirmed_step].
Qed.

Lemma settle_confirmed m l key r rest id :
  receipts_ok m (l ++ (key, r) :: rest)%list ->
  confirmed key r (TrimSpace id) (hClock m) (notify_settle key r id None m).
Proof.
  intros Hok. destruct (ro_flight _ _ Hok key r) as (Hk & rc & Hrc & _).
  { apply elem_of_app. right. apply list_elem_of_here. }
  unfold confirmed, notify_settle. simpl. split; [done|].
  rewrite !lookup_alter_eq, Hrc. simpl. by eexists.
Qed.

(** What one call does. *)
Definition notify_does (en : env Manager ExtCall) ctx s e c w k m
    (o : notify_result * Manager * list (obs ExtCall label)) : Prop :=
  let '(res, m', tr) := o in
  if blank s || blank e || blank w then tr = [] /\ m' = m else
  match notify_section sum256 (TrimSpace s) (TrimSpace e) (TrimSpace c) (TrimSpace w) m with
  | (BeginSend r, m1) => exists id err m2,
      let message := mkOutboundMessage (TrimSpace c)
                       (youtubeLiveNotificationPrefix ++ TrimSpace w) in
      env_call en _ k (SendMessage ctx message) m1 = ((id, err), m2) /\
      tr = [OCall (SendMessage ctx message) (id, err)] /\
      match err, blank id with
      | None, false => res = NotifySent (TrimSpace id) /\
          m' = notify_settle (sum256 (TrimSpace e)) r id None m2
      | None, true => res = NotifyError sendUnavailable /\
          m' = notify_settle (sum256 (TrimSpace e)) r id (Some sendUnavailable) m2
      | Some err, _ => res = NotifyError err /\
          m' = notify_settle (sum256 (TrimSpace e)) r id (Some err) m2
      end
  | (BeginError err, m1) => res = NotifyError err /\ tr = [] /\ m' = m1
  | (BeginWait r, _) => calls is_send tr = 0 /\
      match res with
      | NotifySent _ => False
      | NotifyAlreadySent id => nrDone (getReceipt r m') = true /\
          nrErr (getReceipt r m') = None /\ nrMessageID (getReceipt r m') = id
      | NotifyError err => nrErr (getReceipt r m') = Some err \/ err = sendUnavailable
      end
  end.

Lemma notify_run en ctx s e c w k m :
  notify_does en ctx s e c w k m (run en (NotifyYouTubeLive sum256 ctx s e c w) k m).
Proof.
  unfold notify_does, NotifyYouTubeLive. cbv zeta. change (TrimSpace s =s "") with (blank s);
    change (TrimSpace e =s "") with (blank e);
    change (TrimSpace w =s "") with (blank w).
  destruct (blank s), (blank e), (blank w); try done. cbn [orb bind atomic run].
  destruct (notify_section _ _ _ _ _ m) as [[err|r|r] m1] eqn:Eb; cbn [run bind]; [done| |].
  - unfold await_receipt. cbn [bind wait call read run].
    match goal with |- context [env_wait en k ?d ?f m1] => destruct (env_wait en k d f m1) as [b s1] end.
    cbn [bind call run]. destruct (env_call en _ _ SelectFirst s1) as [first s2].
    split; [done|]. set (gone := match ctx with Some _ => _ | None => _ end).
    destruct (nrDone (getReceipt r s2)), (first || negb gone); cbn [andb]; try (by right).
    destruct (nrErr (getReceipt r s2)); [by left|done].
  - cbn [bind call run].
    destruct (env_call en _ k _ m1) as [[id err] m2] eqn:Ec. cbn [bind modify run].
    destruct err as [err|]; [|destruct (blank id) eqn:Eid]; cbn [run]; eexists id, _, m2;
      (split; [reflexivity|]); rewrite ?Eid; done.
Qed.

(** C12: a live notification is sent once per event. In every run from a fresh
    manager, whatever the interleaving of callers, answers and pruning: no two
    sends of the same event are in flight; every receipt kept is that of a send
    in flight or of one Discord confirmed with a message id; a new send is begun
    only for an event that has no send in flight. Once Discord confirmed the
    message of an event, no call for that event begins another send as long as
    the receipt is remembered, that is while its time to live is not over and
    the receipt table is not full: such a call is refused, because the live job
    does not fit or its payload differs, or it finds that receipt, done, with the
    id of the message. After a failed send the receipt is gone, so the event can
    be tried again, and those who waited for it read the error. And a call of
    [NotifyYouTubeLive] sends one message, the prefix and the URL to the text
    channel, exactly when its section begins a send, and settles its receipt with
    the answer (no message id counts as an error); otherwise it sends nothing. *)
Theorem notification_sent_once voice reporter now m fl :
  rtc nstep (NewManagerWithReporter voice reporter now, []) (m, fl) ->
  NoDup fl.*1 /\
  (forall key r, mNotificationReceipts m !! key = Some r ->
     (key, r) ∈ fl \/
     (nrDone (getReceipt r m) = true /\ nrErr (getReceipt r m) = None /\
      blank (nrMessageID (getReceipt r m)) = false)) /\
  (forall s e c w r m', notify_section sum256 s e c w m = (BeginSend r, m') -> sum256 e ∉ fl.*1) /\
  (forall l key r rest id st, fl = (l ++ (key, r) :: rest)%list -> blank id = false ->
     nrun_within (hClock m) (notify_settle key r id None m, l ++ rest)%list st ->
     remembers (hClock m) st.1 ->
     forall s e c w b m', sum256 e = key -> notify_section sum256 s e c w st.1 = (b, m') ->
     match b with
     | BeginSend _ => False
     | BeginWait r' => r' = r /\ nrDone (getReceipt r m') = true /\
         nrErr (getReceipt r m') = None /\ nrMessageID (getReceipt r m') = TrimSpace id
     | BeginError err => validateLiveNotificationStateLocked s c st.1 = Some err \/
                         err = ErrNotificationEventIDConflict
     end) /\
  (forall l key r rest id err, fl = (l ++ (key, r) :: rest)%list ->
     let m' := notify_settle key r id (Some err) m in
     mNotificationReceipts m' !! key = None /\
     nrDone (getReceipt r m') = true /\ nrErr (getReceipt r m') = Some err) /\
  (forall en ctx s e c w k,
     notify_does en ctx s e c w k m (run en (NotifyYouTubeLive sum256 ctx s e c w) k m)).
Proof.
  intros Hr%(nrun_ok _ _ _ _ (new_receipts_ok voice reporter now)). pose proof Hr as Hok.
  destruct Hr as [Hnd Hfl Hset Hinj]. split; [done|]. split; [|split; [|split; [|split]]].
  - intros key r Hk. destruct (Hset key r Hk) as [_ [?|(rc & Hrc & Hs)]]; [by left|right].
    unfold getReceipt. by rewrite Hrc.
  - intros s e c w r m' (m1 & Hp & Hnone & _)%notify_section_cases
      ([k r'] & Hk & Hin)%list_elem_of_fmap. simpl in Hk. subst k.
    destruct (pruned_ok _ _ fl Hp Hok) as [_ Hfl' _ _].
    destruct (Hfl' _ _ Hin) as [Hk _]. congruence.
  - intros l key r rest id st -> Hid Hrun Hrem s e c w b m' He Hb.
    assert (confirmed key r (TrimSpace id) (hClock m) st.1) as Hc.
    { apply (confirmed_run _ _ _ _ _ _) with (3 := Hrun); [|by eapply settle_confirmed].
      by apply settle_sent_ok. }
    destruct (confirmed_section _ _ _ _ _ _ _ _ _ _ _ Hc Hrem He Hb) as [Hc' Hcase].
    destruct b; [done| |done]. destruct (confirmed_receipt _ _ _ _ _ Hc') as (?&?&?&_). by subst.
  - intros l key r rest id err ->. cbv zeta.
    destruct (Hfl key r) as (_ & rc & Hrc & _); [apply elem_of_app; right; apply list_elem_of_here|].
    unfold notify_settle, getReceipt. simpl. rewrite lookup_delete_eq, !lookup_alter_eq, Hrc. done.
  - intros en ctx s e c w k. apply notify_run.
Qed.
End Runs.

Module Sample.
#[local] Existing Instance canonical_range.

Definition job : VoiceJob :=
  mkVoiceJob "g" "v" "t" 1 "s1" "" "" "" "" "http://worker" "token" 0 0 0 false 1.

Definition m0 : Manager := NewManagerWithReporter (mkVoiceCaps true true true) None 1000.
Definition m1 : Manager := m0 <| mCurrent := job |>.

(** Two events of the live job: the first is answered, the second is in flight. *)
Definition hash (s : string) : string := s.
Definition m2 : Manager := (notify_section hash "s1" "e1" "t" "url" m1).2.
Definition m3 : Manager := notify_settle "e1" 1 "msg" None m2.
Definition m4 : Manager := (notify_section hash "s1" "e2" "t" "url" m3).2.

Definition m5 : Manager := notify_settle "e2" (hNextRef m3) " msg2 " None m4.

Definition answered : env Manager ExtCall :=
  Build_env (fun X _ e s => (accept_all X e, s)) (fun _ _ _ s => (true, s)).

Lemma notification_sent_once_witness :
  NoDup ["e2"] /\
  (forall s e c w r m', notify_section hash s e c w m4 = (BeginSend r, m') -> e <> "e2") /\
  (exists m', notify_section hash "s1" "e2" "t" "url" m5 = (BeginWait (hNextRef m3), m') /\
     nrMessageID (getReceipt (hNextRef m3) m') = "msg2") /\
  (exists r, (notify_section hash "s1" "e3" "t" "url" m4).1 = BeginSend r) /\
  notify_does hash answered None " s1" "e3" "t" "url" 0 m4
    (run answered (NotifyYouTubeLive hash None " s1" "e3" "t" "url") 0 m4).
Proof.
  assert (rtc (nstep hash) (m0, []) (m4, [("e2", hNextRef m3)])) as Hr.
  { eapply rtc_l; [apply (ns_other _ m0 [] m1); vm_compute; reflexivity || (vm_compute; lia)|].
    eapply rtc_l; [apply (ns_send _ m1 [] "s1" "e1" "t" "url" (hNextRef m1) m2); vm_compute; reflexivity|].
    eapply rtc_l; [apply (ns_sent _ m2 [] "e1" (hNextRef m1) [] "msg"); vm_compute; reflexivity|].
    eapply rtc_l; [apply (ns_send _ _ [] "s1" "e2" "t" "url" (hNextRef m3) m4); vm_compute; reflexivity|].
    apply rtc_refl. }
  destruct (notification_sent_once hash _ _ _ _ _ Hr) as (Hn & _ & Hs & Hc & _ & Hrun).
  split; [exact Hn|]. split; [|split; [|split; [by eexists; vm_compute; reflexivity|apply Hrun]]].
  - intros s e c w r m' Hb ->. apply (Hs _ _ _ _ _ _ Hb). apply list_elem_of_here.
  - assert (remembers (hClock m4) m5) as Hrem by (split; vm_compute; reflexivity).
    specialize (Hc [] "e2" (hNextRef m3) [] " msg2 " (m5, []) eq_refl eq_refl (rtc_refl _ _) Hrem
      "s1" "e2" "t" "url" (BeginWait (hNextRef m3))
      (notify_section hash "s1" "e2" "t" "url" m5).2 eq_refl).
    eexists. split; [|apply Hc]; vm_compute; reflexivity.
Defined.
End Sample.
