(* ===== verification/Secrets.v ===== *)
(** * Secrets: operational error texts without credentials

    [internal/secrets/mask.go].  The two regular expressions are matchers over
    the bytes of a Go string; [net/url] is the interface [NetURL], of which only
    the operations the code calls are named. *)

From S2P Require Import Prelude.

(** [net/url]: what [MaskURL] uses of it. *)
Class NetURL := {
  URL : Type;
  url_Parse : string -> option URL;
  url_User : URL -> option (string * option string);  (* user name and password *)
  url_SetUserPassword : URL -> string -> string -> URL;
  url_String : URL -> string }.

(** ** [httpURLPattern] *)

(** A byte of [[^\s<>] or the quotes]: the excluded characters are ASCII, so
    bytes of multi-byte code points match. *)
Definition url_char (a : ascii) : bool :=
  let n := byteN a in
  negb ((9 <=? n) && (n <=? 10) || (12 <=? n) && (n <=? 13) || (n =? 32)
        || (n =? 34) || (n =? 39) || (n =? 60) || (n =? 62))%N.

Fixpoint strip_prefix (p l : list ascii) : option (list ascii) :=
  match p, l with
  | [], _ => Some l
  | a :: p, b :: l => if Ascii.eqb a b then strip_prefix p l else None
  | _ :: _, [] => None
  end.

Fixpoint run_length (l : list ascii) : nat :=
  match l with
  | [] => O
  | a :: l => if url_char a then S (run_length l) else O
  end.

(** The length of the match of [https?://[^...]+] that starts here. *)
Definition url_match (l : list ascii) : option nat :=
  let scheme p :=
    match strip_prefix (list_ascii_of_string p) l with
    | Some rest =>
        match run_length rest with O => None | S n => Some (String.length p + S n)%nat end
    | None => None
    end in
  match scheme "https://" with Some n => Some n | None => scheme "http://" end.

(** [ReplaceAllStringFunc]: [skip] bytes belong to a match already replaced. *)
Fixpoint replace_urls (mask : string -> string) (skip : nat) (l : list ascii) : string :=
  match l with
  | [] => ""
  | a :: rest =>
      match skip with
      | S skip => replace_urls mask skip rest
      | O =>
          match url_match l with
          | Some n => mask (string_of_list_ascii (take n l)) ++ replace_urls mask (pred n) rest
          | None => String a (replace_urls mask O rest)
          end
      end
  end.

(** ** [sensitiveWordPattern] *)

(** Case folding of [(?i)]: besides ASCII, U+017F folds to [s] and U+212A to [k]. *)
Fixpoint fold_case (l : list ascii) : list ascii :=
  match l with
  | [] => []
  | a :: rest =>
      match rest with
      | b :: rest1 =>
          if ((byteN a =? 197) && (byteN b =? 191))%N then "s"%char :: fold_case rest1
          else
            match rest1 with
            | c :: rest2 =>
                if ((byteN a =? 226) && (byteN b =? 132) && (byteN c =? 170))%N
                then "k"%char :: fold_case rest2
                else lower_ascii a :: fold_case rest
            | [] => lower_ascii a :: fold_case rest
            end
      | [] => [lower_ascii a]
      end
  end.

Definition sensitive_words : list string :=
  ["authorization"; "bearer"; "token"; "secret"; "password"; "passwd"; "webhook";
   "discord.com/api/webhooks"; "hooks.slack.com/services"].

Definition sensitive (value : string) : bool :=
  let folded := string_of_list_ascii (fold_case (list_ascii_of_string value)) in
  existsb (Contains folded) sensitive_words.

Section Mask.
Context `{NetURL}.

(** [MaskURL] *)
Definition MaskURL (raw : string) : string :=
  match url_Parse raw with
  | None => raw
  | Some u =>
      match url_User u with
      | None => raw
      | Some (username, Some _) => url_String (url_SetUserPassword u username "****")
      | Some (_, None) => url_String u
      end
  end.

(** [SanitizeOperationalError] *)
Definition SanitizeOperationalError (value fallback : string) : string :=
  let value := TrimSpace value in
  if value =s "" then ""
  else
    let fallback := if blank fallback then "operation failed" else fallback in
    let masked := replace_urls MaskURL O (list_ascii_of_string value) in
    if sensitive masked then fallback else masked.

(** Whatever [net/url] does, a text that may hold a credential is replaced. *)
Lemma sanitized_not_sensitive value fallback :
  sensitive fallback = false -> sensitive (SanitizeOperationalError value fallback) = false.
Proof.
  intros Hf. unfold SanitizeOperationalError. cbv zeta. case_goal; [done|].
  destruct (sensitive (replace_urls _ _ _)) eqn:Hs; [|done]. by case_goal.
Qed.
End Mask.

#[export] Hint Resolve sanitized_not_sensitive : bot.

Example sensitive_kelvin :
  sensitive ("to" ++ String "226" (String "132" (String "170" "en"))) = true.
Proof. reflexivity. Qed.

Example replace_two :
  replace_urls (fun u => "<" ++ u ++ ">") O (list_ascii_of_string "a http://b c https://d'") =
  "a <http://b> c <https://d>'".
Proof. reflexivity. Qed.
