(* ===== verification/Json.v ===== *)
(** * Json: the JSON texts the HTTP API reads

    [encoding/json] of the Go standard library as far as the API uses it: the
    scanner over the bytes of a body with its nesting limit, strings with their
    escapes and invalid UTF-8, numbers as integers or as decimal fractions, and
    the strict decoding of an object into the fields of a struct
    ([DisallowUnknownFields], field names folded by case, later duplicates over
    earlier ones, [null] without effect).  [print] is a reference encoder, and
    [json_roundtrip] shows that the parser inverts it. *)

From S2P Require Import Prelude Utf8 Secrets.

(** A number is an integer literal, with its sign and magnitude, or has a
    fraction or an exponent: then it is [digits * 10 ^ exponent], with its sign. *)
Inductive json :=
| JNull
| JBool (b : bool)
| JInteger (negative : bool) (magnitude : N)
| JFraction (negative : bool) (digits : N) (exponent : Z)
| JString (s : string)
| JArray (items : list json)
| JObject (fields : list (string * json)).

(** ** The scanner *)

Definition json_space (a : ascii) : bool :=
  let n := byteN a in ((n =? 32) || (n =? 9) || (n =? 10) || (n =? 13))%N.

Fixpoint skip_ws (l : list ascii) : list ascii :=
  match l with a :: r => if json_space a then skip_ws r else l | [] => [] end.

Definition hex_digit (a : ascii) : option N :=
  let n := byteN a in
  if ((48 <=? n) && (n <=? 57))%N then Some (n - 48)%N
  else if ((97 <=? n) && (n <=? 102))%N then Some (n - 87)%N
  else if ((65 <=? n) && (n <=? 70))%N then Some (n - 55)%N
  else None.

(** [getu4] *)
Definition hex4 (l : list ascii) : option (N * list ascii) :=
  match l with
  | a :: b :: c :: d :: r =>
      x ← hex_digit a; y ← hex_digit b; z ← hex_digit c; w ← hex_digit d;
      Some (x * 4096 + y * 256 + z * 16 + w, r)%N
  | _ => None
  end.

(** [utf8.EncodeRune] *)
Definition encode_rune (n : N) : list ascii :=
  let c k := ascii_of_N (128 + k mod 64) in
  if (n <? 128)%N then [ascii_of_N n]
  else if (n <? 2048)%N then [ascii_of_N (192 + n / 64); c n]
  else if (n <? 65536)%N then [ascii_of_N (224 + n / 4096); c (n / 64)%N; c n]
  else [ascii_of_N (240 + n / 262144); c (n / 4096)%N; c (n / 64)%N; c n].

Definition high_surrogate (n : N) : bool := ((55296 <=? n) && (n <? 56320))%N.
Definition low_surrogate (n : N) : bool := ((56320 <=? n) && (n <? 57344))%N.

(** After [\u]: a pair of surrogates is one code point, a lone one is U+FFFD. *)
Definition unicode_escape (l : list ascii) : option (list ascii * list ascii) :=
  '(n, r) ← hex4 l;
  if high_surrogate n || low_surrogate n then
    match r with
    | "\"%char :: "u"%char :: r' =>
        match hex4 r' with
        | Some (n', r'') =>
            if high_surrogate n && low_surrogate n'
            then Some (encode_rune (65536 + (n - 55296) * 1024 + (n' - 56320)), r'')%N
            else Some (rune_error, r)
        | None => Some (rune_error, r)
        end
    | _ => Some (rune_error, r)
    end
  else Some (encode_rune n, r).

Definition escape (l : list ascii) : option (list ascii * list ascii) :=
  match l with
  | [] => None
  | a :: r =>
      match a with
      | "034"%char | "\"%char | "/"%char => Some ([a], r)
      | "b"%char => Some (["008"%char], r)
      | "f"%char => Some (["012"%char], r)
      | "n"%char => Some (["010"%char], r)
      | "r"%char => Some (["013"%char], r)
      | "t"%char => Some (["009"%char], r)
      | "u"%char => unicode_escape r
      | _ => None
      end
  end.

(** One character of a string: its bytes, and the rest. *)
Definition char_step (l : list ascii) : option (list ascii * list ascii) :=
  match l with
  | [] => None
  | a :: r =>
      if Ascii.eqb a "\" then escape r
      else if (byteN a <? 32)%N then None
      else
        match runes_bytes (take 4 l) with
        | rune :: _ =>
            (* an invalid byte is skipped alone *)
            if bool_decide (rune = rune_error) && negb (bool_decide (take 3 l = rune_error))
            then Some (rune_error, r)
            else Some (rune, drop (length rune) l)
        | [] => None
        end
  end.

(** The characters up to the closing quote; [n] bounds their number. *)
Fixpoint parse_chars (n : nat) (l : list ascii) : option (list ascii * list ascii) :=
  match n with
  | O => None
  | S n =>
      match l with
      | "034"%char :: r => Some ([], r)
      | _ =>
          '(c, r) ← char_step l;
          '(cs, r) ← parse_chars n r;
          Some (c ++ cs, r)%list
      end
  end.

Definition parse_string (l : list ascii) : option (string * list ascii) :=
  '(cs, r) ← parse_chars (S (length l)) l; Some (string_of_list_ascii cs, r).

(** ** Numbers *)

Definition digit_value (a : ascii) : option N :=
  let n := byteN a in if ((48 <=? n) && (n <=? 57))%N then Some (n - 48)%N else None.

(** The digits at the head, and the value they have after [acc]. *)
Fixpoint take_digits (acc : N) (l : list ascii) : N * list ascii :=
  match l with
  | a :: r => match digit_value a with Some d => take_digits (acc * 10 + d) r | None => (acc, l) end
  | [] => (acc, [])
  end.

(** At least one digit: the value after [acc], how many they are, the rest. *)
Definition digits1 (acc : N) (l : list ascii) : option (N * nat * list ascii) :=
  match l with
  | a :: r =>
      d ← digit_value a;
      let '(n, rest) := take_digits (acc * 10 + d) r in Some (n, (length l - length rest)%nat, rest)
  | [] => None
  end.

(** An optional fraction: was there one, the digits so far and how many of them
    follow the point. *)
Definition parse_fraction (n : N) (l : list ascii) : option (bool * N * nat * list ascii) :=
  match l with
  | "."%char :: r => '(n, k, r) ← digits1 n r; Some (true, n, k, r)
  | _ => Some (false, n, O, l)
  end.

(** An optional exponent. *)
Definition parse_exponent (l : list ascii) : option (bool * Z * list ascii) :=
  match l with
  | "e"%char :: r | "E"%char :: r =>
      let '(negative, r) :=
        match r with
        | "+"%char :: r' => (false, r')
        | "-"%char :: r' => (true, r')
        | _ => (false, r)
        end in
      '(e, _, r) ← digits1 0 r;
      Some (true, if negative : bool then - Z.of_N e else Z.of_N e, r)
  | _ => Some (false, 0, l)
  end.

(** The integer part: [0], or digits without a leading zero. *)
Definition parse_integer (l : list ascii) : option (N * list ascii) :=
  match l with
  | "0"%char :: r => Some (0%N, r)
  | a :: r => d ← digit_value a; Some (take_digits d r)
  | [] => None
  end.

Definition parse_number (negative : bool) (l : list ascii) : option (json * list ascii) :=
  '(n, l) ← parse_integer l;
  '(fraction, n, k, l) ← parse_fraction n l;
  '(exponent, e, l) ← parse_exponent l;
  Some (if fraction || exponent then JFraction negative n (e - Z.of_nat k) else JInteger negative n, l).

(** ** Values *)

Definition literal (text : string) (v : json) (l : list ascii) : option (json * list ascii) :=
  r ← strip_prefix (list_ascii_of_string text) l; Some (v, r).

(** [maxNestingDepth] *)
Definition max_depth : nat := N.to_nat 10000.

Section Nested.
Context (parse : list ascii -> option (json * list ascii)).

(** The items of an array after its first [[] or comma; [n] bounds them. *)
Fixpoint parse_items (n : nat) (l : list ascii) : option (list json * list ascii) :=
  match n with
  | O => None
  | S n =>
      '(v, l) ← parse (skip_ws l);
      match skip_ws l with
      | ","%char :: r => '(vs, r) ← parse_items n r; Some (v :: vs, r)
      | "]"%char :: r => Some ([v], r)
      | _ => None
      end
  end.

(** The members of an object after its brace or a comma. *)
Fixpoint parse_members (n : nat) (l : list ascii) : option (list (string * json) * list ascii) :=
  match n with
  | O => None
  | S n =>
      match skip_ws l with
      | "034"%char :: l =>
          '(key, l) ← parse_string l;
          match skip_ws l with
          | ":"%char :: l =>
              '(v, l) ← parse (skip_ws l);
              match skip_ws l with
              | ","%char :: r => '(kvs, r) ← parse_members n r; Some ((key, v) :: kvs, r)
              | "}"%char :: r => Some ([(key, v)], r)
              | _ => None
              end
          | _ => None
          end
      | _ => None
      end
  end.
End Nested.

(** A value at the head of a text without leading white space. *)
Fixpoint parse_value (depth : nat) (l : list ascii) : option (json * list ascii) :=
  match l with
  | [] => None
  | a :: r =>
      match a with
      | "{"%char =>
          match depth with
          | O => None
          | S depth =>
              match skip_ws r with
              | "}"%char :: r => Some (JObject [], r)
              | _ => '(kvs, r) ← parse_members (parse_value depth) (length r) r; Some (JObject kvs, r)
              end
          end
      | "["%char =>
          match depth with
          | O => None
          | S depth =>
              match skip_ws r with
              | "]"%char :: r => Some (JArray [], r)
              | _ => '(vs, r) ← parse_items (parse_value depth) (length r) r; Some (JArray vs, r)
              end
          end
      | "034"%char => '(s, r) ← parse_string r; Some (JString s, r)
      | "t"%char => literal "true" (JBool true) l
      | "f"%char => literal "false" (JBool false) l
      | "n"%char => literal "null" JNull l
      | "-"%char => parse_number true r
      | _ => parse_number false l
      end
  end.

(** [json.NewDecoder(...).Decode]: the first value, whatever follows it. *)
Definition Decode (body : string) : option json :=
  fst <$> parse_value max_depth (skip_ws (list_ascii_of_string body)).

(** [json.Unmarshal]: one value and nothing else. *)
Definition Unmarshal (body : string) : option json :=
  '(v, r) ← parse_value max_depth (skip_ws (list_ascii_of_string body));
  match skip_ws r with [] => Some v | _ => None end.

(** A JSON text with its quotes written as apostrophes. *)
Fixpoint quoted (s : string) : string :=
  match s with
  | EmptyString => ""
  | String a r => String (if Ascii.eqb a "'" then "034" else a)%char (quoted r)
  end.

Example decode_sample :
  Unmarshal (quoted "{ 'a' : [1, -20, 'x\n\u00e9\ud83d\ude00\ud800'], 'b':{} , 'c':1.5e3, 'd':[ ]} ") =
  Some (JObject [("a", JArray [JInteger false 1; JInteger true 20;
                    JString (quoted "x" ++ String "010" "é😀�")]);
                 ("b", JObject []); ("c", JFraction false 15 2); ("d", JArray [])]).
Proof. vm_compute. reflexivity. Qed.

Example decode_errors :
  Unmarshal (quoted "{'a':01}") = None /\ Unmarshal (quoted "{'a':1,}") = None /\
  Unmarshal (quoted "{} x") = None /\ Decode (quoted "{} x") = Some (JObject []) /\
  Unmarshal "[1.]" = None /\ Unmarshal "" = None /\ Unmarshal (quoted "'\x'") = None.
Proof. vm_compute. done. Qed.

(** ** The reference encoder *)

Definition hex_char (n : N) : ascii := ascii_of_N (if (n <? 10)%N then 48 + n else 87 + n).

Definition print_char (rune : list ascii) : list ascii :=
  match rune with
  | [a] =>
      if Ascii.eqb a "034" then ["\"; "034"]%char
      else if Ascii.eqb a "\" then ["\"; "\"]%char
      else if (byteN a <? 32)%N
      then ["\"; "u"; "0"; "0"; hex_char (byteN a / 16); hex_char (byteN a mod 16)]%char
      else [a]
  | _ => rune
  end.

Definition print_string (s : string) : list ascii :=
  ("034"%char :: List.concat (print_char <$> runes s) ++ ["034"%char])%list.

(** The digits of [n] before [acc]. *)
Fixpoint digits_acc (fuel : nat) (n : N) (acc : list ascii) : list ascii :=
  match fuel with
  | O => acc
  | S fuel =>
      let acc := ascii_of_N (48 + n mod 10) :: acc in
      if (n <? 10)%N then acc else digits_acc fuel (n / 10) acc
  end.

Definition print_N (n : N) : list ascii := digits_acc (S (N.to_nat (N.log2 n))) n [].

Fixpoint join (ls : list (list ascii)) : list ascii :=
  match ls with
  | [] => []
  | [l] => l
  | l :: ls => (l ++ ","%char :: join ls)%list
  end.

Fixpoint print (v : json) : list ascii :=
  match v with
  | JNull => list_ascii_of_string "null"
  | JBool true => list_ascii_of_string "true"
  | JBool false => list_ascii_of_string "false"
  | JInteger negative n => ((if negative then ["-"%char] else []) ++ print_N n)%list
  | JFraction negative n e =>
      ((if negative then ["-"%char] else []) ++ print_N n
         ++ "e"%char :: (if e <? 0 then ["-"%char] else []) ++ print_N (Z.abs_N e))%list
  | JString s => print_string s
  | JArray vs => ("["%char :: join (map print vs) ++ ["]"%char])%list
  | JObject kvs =>
      ("{"%char :: join (map (fun kv => (print_string kv.1 ++ ":"%char :: print kv.2)%list) kvs)
         ++ ["}"%char])%list
  end.

Definition encode (v : json) : string := string_of_list_ascii (print v).

(** A string of valid UTF-8, and a value of such strings nested at most [d] deep. *)
Definition utf8_valid (s : string) : Prop := string_of_runes (runes s) = s.

Fixpoint clean (d : nat) (v : json) : Prop :=
  match v with
  | JString s => utf8_valid s
  | JArray vs => match d with O => False | S d => Forall (clean d) vs end
  | JObject kvs =>
      match d with O => False | S d => Forall (fun kv => utf8_valid kv.1 /\ clean d kv.2) kvs end
  | _ => True
  end.

(** ** Round trip *)

(** What may follow the digits of a number, and what may follow a number. *)
Definition no_digit (l : list ascii) : Prop :=
  match l with [] => True | a :: _ => digit_value a = None end.

Definition delimited (l : list ascii) : Prop :=
  match l with
  | [] => True
  | a :: _ => digit_value a = None /\ a <> "."%char /\ a <> "e"%char /\ a <> "E"%char
  end.

Lemma runes_head rune rest :
  valid_rune rune = true -> exists rs, runes_bytes (take 4 (rune ++ rest)) = rune :: rs.
Proof.
  intros Hr. destruct rune as [|a [|b [|c [|d [|]]]]]; try discriminate Hr; simpl in Hr |- *.
  - destruct (take 3 rest); simpl; rewrite Hr; by eexists.
  - rewrite (high_start_2 _ _ Hr), Hr. by eexists.
  - destruct (start_3 _ _ _ Hr) as [-> ->]. rewrite Hr. by eexists.
  - destruct (start_4 _ _ _ _ Hr) as (-> & -> & ->). rewrite Hr. by eexists.
Qed.

(** A character that is not escaped is read as it is. *)
Lemma char_step_plain rune rest :
  valid_rune rune = true -> (forall a, rune = [a] -> a <> "\"%char /\ (32 <= byteN a)%N) ->
  char_step (rune ++ rest) = Some (rune, rest).
Proof.
  intros Hv Hp. destruct (runes_head rune rest Hv) as [rs Hrs].
  destruct rune as [|a r] eqn:Er; [discriminate|]. rewrite <- Er in *.
  assert (exists t, rune ++ rest = a :: t)%list as [t Ht] by (rewrite Er; by eexists).
  unfold char_step. rewrite Ht. rewrite <- Ht, Hrs.
  assert (Ascii.eqb a "\" = false /\ (byteN a <? 32)%N = false) as [-> ->].
  { destruct r as [|b r].
    - destruct (Hp a Er) as [Ha Hn]. split; [by apply Ascii.eqb_neq|by apply N.ltb_ge].
    - assert (128 <= byteN a)%N as Ha.
      { apply N.ltb_ge. subst rune. destruct r as [|c [|d [|]]]; simpl in Hv.
        - by eapply high_start_2. - by eapply start_3. - by eapply start_4. - done. }
      split; [apply Ascii.eqb_neq; intros ->; by vm_compute in Ha|apply N.ltb_ge; lia]. }
  case_bool_decide as He.
  - rewrite bool_decide_eq_true_2; [|by rewrite He]. simpl. by rewrite drop_app_length.
  - simpl. by rewrite drop_app_length.
Qed.

Lemma char_step_print rune rest :
  valid_rune rune = true -> char_step (print_char rune ++ rest) = Some (rune, rest).
Proof.
  intros Hv. destruct rune as [|a [|b r]]; [done| |by apply char_step_plain].
  unfold print_char. case_match eqn:E1; [apply Ascii.eqb_eq in E1 as ->; reflexivity|].
  case_match eqn:E2; [apply Ascii.eqb_eq in E2 as ->; reflexivity|].
  case_match eqn:E3.
  - destruct a as [[] [] [] [] [] [] [] []]; vm_compute in E3; try discriminate; reflexivity.
  - apply char_step_plain; [done|]. intros ? [= <-].
    split; [by apply Ascii.eqb_neq|by apply N.ltb_ge].
Qed.

Lemma print_char_head rune :
  valid_rune rune = true -> exists a r, print_char rune = a :: r /\ a <> "034"%char.
Proof.
  intros Hv. destruct rune as [|a [|b r]]; [done| |].
  - unfold print_char. case_match eqn:E1; [by eexists _, _|].
    case_match; [by eexists _, _|]. case_match; [by eexists _, _|]. eexists _, _. split; [done|].
    by apply Ascii.eqb_neq.
  - exists a, (b :: r). split; [done|]. intros ->. by destruct r as [|? [|? []]].
Qed.

Lemma parse_chars_print rs n rest :
  Forall (fun r => valid_rune r = true) rs -> (length rs < n)%nat ->
  parse_chars n (List.concat (print_char <$> rs) ++ "034"%char :: rest) = Some (List.concat rs, rest).
Proof.
  intros Hrs. revert n. induction Hrs as [|rune rs Hr Hrs IH]; intros [|n] Hn; simpl in Hn; try lia; [done|].
  cbn [fmap list_fmap List.concat]. rewrite <- app_assoc.
  destruct (print_char_head rune Hr) as (a & r & Hp & Ha).
  pose proof (char_step_print rune (List.concat (print_char <$> rs) ++ "034"%char :: rest) Hr) as Hs.
  rewrite Hp in *. cbn [app] in *. cbn [parse_chars].
  replace (match a with "034"%char => _ | _ => _ end) with
    ('(c, r0) ← char_step (a :: (r ++ List.concat (print_char <$> rs) ++ "034"%char :: rest));
     '(cs, r0) ← parse_chars n r0; Some (c ++ cs, r0)%list).
  2:{ destruct a as [[] [] [] [] [] [] [] []]; done. }
  rewrite Hs. cbn [mbind option_bind]. by rewrite IH by lia.
Qed.

Lemma print_chars_length rs :
  Forall (fun r => valid_rune r = true) rs -> (length rs <= length (List.concat (print_char <$> rs)))%nat.
Proof.
  induction 1 as [|rune rs Hr _ IH]; [done|]. cbn [fmap list_fmap List.concat]. rewrite length_app.
  destruct (print_char_head rune Hr) as (a & r & -> & _). simpl in *. lia.
Qed.

Lemma parse_string_print s rest :
  utf8_valid s -> exists l, (print_string s ++ rest = "034"%char :: l)%list /\ parse_string l = Some (s, rest).
Proof.
  intros Hs. exists (List.concat (print_char <$> runes s) ++ "034"%char :: rest)%list.
  split; [unfold print_string; cbn [app]; by rewrite <- app_assoc|]. unfold parse_string.
  pose proof (runes_valid (list_ascii_of_string s)) as Hv. fold (runes s) in Hv.
  rewrite parse_chars_print; [|done|].
  - cbn [mbind option_bind]. unfold utf8_valid, string_of_runes in Hs.
    by rewrite Hs.
  - rewrite length_app. pose proof (print_chars_length _ Hv). simpl. lia.
Qed.

(** *** Numbers *)

Lemma digit_value_digit d : (d < 10)%N -> digit_value (ascii_of_N (48 + d)) = Some d.
Proof.
  intros Hd. unfold digit_value, byteN. rewrite N_ascii_embedding by lia.
  rewrite (proj2 (N.leb_le 48 (48 + d))), (proj2 (N.leb_le (48 + d) 57)) by lia.
  simpl. f_equal. lia.
Qed.

Lemma take_digits_acc fuel : forall n acc,
  (n < 10 ^ N.of_nat fuel)%N -> take_digits 0 (digits_acc fuel n acc) = take_digits n acc.
Proof.
  induction fuel as [|fuel IH]; intros n acc Hn.
  - simpl in Hn. by replace n with 0%N by lia.
  - cbn [digits_acc]. assert (n mod 10 < 10)%N as Hm by (by apply N.mod_lt).
    pose proof (N.div_mod n 10 ltac:(lia)) as Hd.
    destruct (N.ltb_spec n 10) as [Hlt|Hge].
    + cbn [take_digits]. rewrite digit_value_digit by done. f_equal.
      rewrite N.mod_small by done. lia.
    + rewrite IH.
      * cbn [take_digits]. rewrite digit_value_digit by done. f_equal. lia.
      * rewrite Nat2N.inj_succ, N.pow_succ_r' in Hn. apply N.Div0.div_lt_upper_bound; lia.
Qed.

Lemma digits_acc_head fuel : forall n acc,
  (0 < n < 10 ^ N.of_nat fuel)%N ->
  exists d r, digits_acc fuel n acc = ascii_of_N (48 + d) :: r /\ (0 < d < 10)%N.
Proof.
  induction fuel as [|fuel IH]; intros n acc Hn; [simpl in Hn; lia|].
  cbn [digits_acc]. destruct (N.ltb_spec n 10) as [Hlt|Hge].
  - eexists _, _. split; [done|]. rewrite N.mod_small by done. lia.
  - apply IH. rewrite Nat2N.inj_succ, N.pow_succ_r' in Hn.
    split; [apply N.div_str_pos; lia|]. apply N.Div0.div_lt_upper_bound; lia.
Qed.

Lemma digits_acc_app fuel : forall n acc rest,
  (digits_acc fuel n acc ++ rest)%list = digits_acc fuel n (acc ++ rest).
Proof.
  induction fuel as [|fuel IH]; intros n acc rest; [done|]. cbn [digits_acc].
  case_match; [done|]. by rewrite IH.
Qed.

Lemma print_N_fuel n : (n < 10 ^ N.of_nat (S (N.to_nat (N.log2 n))))%N.
Proof.
  rewrite Nat2N.inj_succ, N2Nat.id. destruct (decide (n = 0)%N) as [->|Hn]; [done|].
  destruct (N.log2_spec n) as [_ Hl]; [lia|].
  eapply N.lt_le_trans; [exact Hl|]. apply N.pow_le_mono_l. lia.
Qed.

Lemma delimited_no_digit rest : delimited rest -> no_digit rest.
Proof. destruct rest; [done|]. by intros [? _]. Qed.

Lemma take_digits_delimited n rest : no_digit rest -> take_digits n rest = (n, rest).
Proof. destruct rest as [|a r]; [done|]. simpl. by intros ->. Qed.

Lemma parse_integer_print n rest :
  no_digit rest -> parse_integer (print_N n ++ rest) = Some (n, rest).
Proof.
  intros Hr. unfold print_N. rewrite digits_acc_app. cbn [app].
  destruct (decide (n = 0)%N) as [->|Hn]; [done|].
  pose proof (print_N_fuel n) as Hf. set (fuel := S _) in *. clearbody fuel.
  destruct (digits_acc_head fuel n rest) as (d & r & Hd & Hb); [lia|].
  pose proof (take_digits_acc fuel n rest Hf) as Ht. rewrite Hd in *.
  rewrite (take_digits_delimited n rest) in Ht by done.
  cbn [take_digits] in Ht. rewrite digit_value_digit in Ht by lia.
  unfold parse_integer.
  replace (match ascii_of_N (48 + d) with "0"%char => _ | _ => _ end) with
    (x ← digit_value (ascii_of_N (48 + d)); Some (take_digits x r)).
  - rewrite digit_value_digit by lia. simpl. by rewrite <- Ht.
  - assert (ascii_of_N (48 + d) <> "0"%char) as Hne.
    { intros E. apply (f_equal byteN) in E. unfold byteN in E.
      rewrite N_ascii_embedding in E by lia. change (N_of_ascii "0") with 48%N in E. lia. }
    destruct (ascii_of_N (48 + d)) as [[] [] [] [] [] [] [] []]; done.
Qed.

Lemma parse_number_print negative n rest :
  delimited rest -> parse_number negative (print_N n ++ rest) = Some (JInteger negative n, rest).
Proof.
  intros Hr. unfold parse_number. rewrite parse_integer_print by by apply delimited_no_digit. simpl.
  destruct rest as [|a r]; [done|]. destruct Hr as (_ & Hp & He & HE).
  unfold parse_fraction, parse_exponent.
  destruct a as [[] [] [] [] [] [] [] []]; try done; congruence.
Qed.

(** The first byte of a number. *)
Lemma print_N_head n : exists d r, print_N n = ascii_of_N (48 + d) :: r /\ (d < 10)%N.
Proof.
  destruct (decide (n = 0)%N) as [->|Hn]; [by exists 0%N, []|].
  pose proof (print_N_fuel n) as Hf. unfold print_N. set (fuel := S _) in *. clearbody fuel.
  destruct (digits_acc_head fuel n []) as (d & r & Hd & Hb); [lia|].
  exists d, r. split; [done|lia].
Qed.

Lemma digits1_print n rest :
  no_digit rest -> exists k, digits1 0 (print_N n ++ rest) = Some (n, k, rest).
Proof.
  intros Hr. unfold print_N. rewrite digits_acc_app. cbn [app].
  destruct (decide (n = 0)%N) as [->|Hn].
  { simpl. rewrite take_digits_delimited by done. by eexists. }
  pose proof (print_N_fuel n) as Hf. set (fuel := S _) in *. clearbody fuel.
  destruct (digits_acc_head fuel n rest) as (d & r & Hd & Hb); [lia|].
  pose proof (take_digits_acc fuel n rest Hf) as Ht. rewrite Hd in *.
  rewrite (take_digits_delimited n rest) in Ht by done.
  cbn [take_digits] in Ht. rewrite digit_value_digit in Ht by lia.
  cbn [digits1]. rewrite digit_value_digit by lia. cbn [mbind option_bind]. rewrite Ht. by eexists.
Qed.

Lemma parse_exponent_print e rest :
  delimited rest ->
  parse_exponent ("e"%char :: (if e <? 0 then ["-"%char] else []) ++ print_N (Z.abs_N e) ++ rest)
  = Some (true, e, rest).
Proof.
  intros Hr. destruct (digits1_print (Z.abs_N e) rest (delimited_no_digit _ Hr)) as [k Hk].
  unfold parse_exponent. destruct (Z.ltb_spec e 0) as [He|He]; cbn [app].
  - rewrite Hk. cbn [mbind option_bind]. repeat f_equal. lia.
  - destruct (print_N_head (Z.abs_N e)) as (d & r & Hp & Hd). rewrite Hp in *. cbn [app] in *.
    replace (match ascii_of_N (48 + d) with "+"%char => _ | "-"%char => _ | _ => _ end)
      with (false, ascii_of_N (48 + d) :: r ++ rest)%list.
    + rewrite Hk. cbn [mbind option_bind]. repeat f_equal. lia.
    + assert (byteN (ascii_of_N (48 + d)) = 48 + d)%N as Hb by (unfold byteN; apply N_ascii_embedding; lia).
      destruct (ascii_of_N (48 + d)) as [[] [] [] [] [] [] [] []]; try done;
        vm_compute in Hb; lia.
Qed.

Lemma parse_number_fraction negative n e rest :
  delimited rest ->
  parse_number negative
    (print_N n ++ "e"%char :: (if e <? 0 then ["-"%char] else []) ++ print_N (Z.abs_N e) ++ rest)
  = Some (JFraction negative n e, rest).
Proof.
  intros Hr. unfold parse_number. rewrite parse_integer_print by done. cbn [mbind option_bind parse_fraction].
  rewrite parse_exponent_print by done. cbn [mbind option_bind orb]. repeat f_equal. lia.
Qed.

(** *** Values *)

Lemma parse_value_number d k l :
  (k < 10)%N ->
  parse_value d (ascii_of_N (48 + k) :: l) = parse_number false (ascii_of_N (48 + k) :: l).
Proof.
  intros Hk. assert (k ∈ [0; 1; 2; 3; 4; 5; 6; 7; 8; 9]%N) as H.
  { rewrite !elem_of_cons. lia. }
  rewrite !elem_of_cons in H. by destruct d; repeat (destruct H as [->|H]); try by apply not_elem_of_nil in H.
Qed.

Lemma skip_ws_head a l : json_space a = false -> skip_ws (a :: l) = a :: l.
Proof. intros Ha. simpl. by rewrite Ha. Qed.

Lemma print_N_app_head n l :
  exists a r, (print_N n ++ l)%list = a :: r /\ json_space a = false /\ a <> "]"%char.
Proof.
  destruct (print_N_head n) as (k & r & -> & Hk). cbn [app].
  eexists _, _. split; [done|].
  assert (byteN (ascii_of_N (48 + k)) = 48 + k)%N as Hb by (unfold byteN; apply N_ascii_embedding; lia).
  unfold json_space. rewrite Hb. split.
  - rewrite !orb_false_iff, !N.eqb_neq. lia.
  - intros E. rewrite E in Hb. change (byteN "]") with 93%N in Hb. lia.
Qed.

(** The text of a value starts with no white space and no closing bracket. *)
Lemma print_head v : exists a r, print v = a :: r /\ json_space a = false /\ a <> "]"%char.
Proof.
  destruct v as [|[]|[] n|[] n e| | |]; try (by eexists _, _; repeat split).
  - cbn [print app]. rewrite <- (app_nil_r (print_N n)). apply print_N_app_head.
  - cbn [print app]. apply print_N_app_head.
Qed.

Lemma print_skip_ws v l : skip_ws (print v ++ l) = (print v ++ l)%list.
Proof. destruct (print_head v) as (a & r & -> & Ha & _). by apply skip_ws_head. Qed.

Lemma parse_value_items d a l :
  json_space a = false -> a <> "]"%char ->
  parse_value (S d) ("["%char :: a :: l) =
    ('(vs, r) ← parse_items (parse_value d) (length (a :: l)) (a :: l); Some (JArray vs, r)).
Proof. intros Hs Ha. simpl. rewrite Hs. destruct a as [[] [] [] [] [] [] [] []]; done. Qed.

Lemma parse_items_print parse vs :
  Forall (fun v => forall rest, delimited rest -> parse (print v ++ rest)%list = Some (v, rest)) vs ->
  vs <> [] -> forall n rest, (length vs <= n)%nat ->
  parse_items parse n (join (map print vs) ++ "]"%char :: rest) = Some (vs, rest).
Proof.
  induction 1 as [|v vs Hv Hvs IH]; [done|]. intros _ [|n] rest Hn; simpl in Hn; [lia|].
  destruct vs as [|w vs].
  - cbn [map join parse_items]. rewrite print_skip_ws, Hv by done. done.
  - cbn [map join]. rewrite <- app_assoc. cbn [app parse_items].
    rewrite print_skip_ws, Hv by done. cbn [mbind option_bind skip_ws json_space].
    change (json_space ",") with false. cbn iota.
    change (map print (w :: vs)) with (print w :: map print vs) in IH.
    rewrite IH by (done || (simpl in *; lia)). done.
Qed.

Lemma join_length {A} (f : A -> list ascii) (xs : list A) :
  (length xs <= S (length (join (map f xs))))%nat.
Proof.
  induction xs as [|x xs IH]; [simpl; lia|]. destruct xs as [|y xs]; [simpl; lia|].
  change (join (map f (x :: y :: xs))) with (f x ++ ","%char :: join (map f (y :: xs)))%list.
  rewrite length_app. cbn [length] in *. lia.
Qed.

Definition print_member (kv : string * json) : list ascii :=
  (print_string kv.1 ++ ":"%char :: print kv.2)%list.

Lemma parse_members_print parse kvs :
  Forall (fun kv => utf8_valid kv.1 /\
            forall rest, delimited rest -> parse (print kv.2 ++ rest)%list = Some (kv.2, rest)) kvs ->
  kvs <> [] -> forall n rest, (length kvs <= n)%nat ->
  parse_members parse n (join (map print_member kvs) ++ "}"%char :: rest) = Some (kvs, rest).
Proof.
  induction 1 as [|[k v] kvs [Hk Hv] Hkvs IH]; [done|]. intros _ [|n] rest Hn; simpl in Hn; [lia|].
  cbn [fst snd] in *.
  assert (forall tail, delimited tail -> parse_members parse (S n) (print_member (k, v) ++ tail) =
    match skip_ws tail with
    | ","%char :: r => '(kvs, r) ← parse_members parse n r; Some ((k, v) :: kvs, r)
    | "}"%char :: r => Some ([(k, v)], r)
    | _ => None
    end) as Hone.
  { intros tail Ht. unfold print_member. cbn [fst snd]. rewrite <- app_assoc. cbn [app].
    destruct (parse_string_print k (":"%char :: print v ++ tail) Hk) as (l & Hl & Hp).
    rewrite Hl. cbn [parse_members skip_ws]. change (json_space "034") with false. cbn iota.
    rewrite Hp. cbn [mbind option_bind]. rewrite skip_ws_head by done.
    rewrite print_skip_ws, Hv by done. done. }
  destruct kvs as [|w kvs].
  - cbn [map join]. by rewrite Hone by done.
  - change (join (map print_member ((k, v) :: w :: kvs))) with
      (print_member (k, v) ++ ","%char :: join (map print_member (w :: kvs)))%list.
    rewrite <- app_assoc. rewrite Hone by done. cbn [app]. rewrite skip_ws_head by done.
    rewrite IH by (done || (simpl in *; lia)). done.
Qed.

Lemma parse_value_members d kv kvs rest :
  utf8_valid kv.1 ->
  let l := (join (map print_member (kv :: kvs)) ++ "}"%char :: rest)%list in
  parse_value (S d) ("{"%char :: l) =
    ('(kvs, r) ← parse_members (parse_value d) (length l) l; Some (JObject kvs, r)).
Proof.
  intros Hk l. assert (exists r, l = "034"%char :: r) as [r ->]; [|done].
  unfold l, print_member, print_string. destruct kvs; by eexists.
Qed.

Lemma parse_value_print d : forall v rest,
  clean d v -> delimited rest -> parse_value d (print v ++ rest) = Some (v, rest).
Proof.
  induction d as [d IH] using lt_wf_ind. intros v rest Hv Hr.
  destruct v as [|[]|[] n|negative n e|s|vs|kvs]; try (by destruct d).
  - assert (parse_number true (print_N n ++ rest) = Some (JInteger true n, rest)) by by apply parse_number_print.
    by destruct d.
  - destruct (print_N_head n) as (k & r & Hp & Hk).
    pose proof (parse_number_print false n rest Hr) as Hn.
    cbn [print app]. rewrite Hp in *. cbn [app] in *. by rewrite parse_value_number.
  - pose proof (parse_number_fraction negative n e rest Hr) as Hn. cbn [print].
    rewrite <- app_assoc, <- app_assoc. cbn [app]. rewrite <- app_assoc.
    destruct negative; [destruct d; exact Hn|]. cbn [app].
    destruct (print_N_head n) as (k & r & Hp & Hk). rewrite Hp in *. cbn [app] in *.
    by rewrite parse_value_number.
  - assert (utf8_valid s) as Hs by by destruct d.
    destruct (parse_string_print s rest Hs) as (l & Hl & Hp). cbn [print]. rewrite Hl.
    destruct d; cbn [parse_value]; by rewrite Hp.
  - destruct d as [|d]; [done|]. destruct vs as [|v vs]; [done|].
    cbn [print]. cbn [app]. rewrite <- app_assoc. cbn [app].
    assert (exists a r, join (map print (v :: vs)) ++ "]"%char :: rest = a :: r /\
      json_space a = false /\ a <> "]"%char)%list as (a & r & Hl & Ha & Hb).
    { destruct (print_head v) as (a & r & Hp & ? & ?). exists a. destruct vs; cbn [map join];
        rewrite Hp; cbn [app]; by eexists. }
    rewrite Hl, parse_value_items, <- Hl by done. rewrite parse_items_print; [done| |done|].
    + eapply Forall_impl; [exact Hv|]. intros w Hw tail Ht. apply IH; [lia|done|done].
    + pose proof (join_length print (v :: vs)). rewrite length_app. simpl in *. lia.
  - destruct d as [|d]; [done|]. destruct kvs as [|kv kvs]; [done|].
    cbn [print]. cbn [app]. rewrite <- app_assoc. cbn [app].
    change (map _ (kv :: kvs)) with (map print_member (kv :: kvs)).
    cbn [clean] in Hv. pose proof (Forall_inv Hv) as [Hk _].
    rewrite (parse_value_members d kv kvs rest Hk).
    rewrite parse_members_print; [done| |done|].
    + eapply Forall_impl; [exact Hv|]. intros w [Hw ?]. split; [done|]. intros tail Ht. apply IH; [lia|done|done].
    + pose proof (join_length print_member (kv :: kvs)). rewrite length_app. simpl in *. lia.
Qed.

(** Every clean value is read back from its text. *)
Lemma json_roundtrip v : clean max_depth v -> Unmarshal (encode v) = Some v.
Proof.
  intros Hv. unfold Unmarshal, encode. rewrite list_ascii_of_string_of_list_ascii.
  pose proof (print_skip_ws v []) as Hs. rewrite app_nil_r in Hs. rewrite Hs.
  pose proof (parse_value_print max_depth v [] Hv I) as Hp. rewrite app_nil_r in Hp. rewrite Hp. done.
Qed.

(** ** Decoding into the fields of a struct *)

(** A field of a struct [A]: its JSON name, and the value it takes from a JSON
    value over the one it has. *)
Definition field A : Type := string * (json -> A -> option A).

(** The field of [A] behind the projection [proj]. *)
Definition on {A T} (name : string) (decode : json -> T -> option T) (proj : A -> T) `{!Setter proj}
    : field A :=
  (name, fun v r => x ← decode v (proj r); Some (r <| proj := x |>)).

Definition fold_name (s : string) : string :=
  string_of_list_ascii (fold_case (list_ascii_of_string s)).

(** The field of a key: by its exact name, else by its folded one. *)
Definition find_field {A} (fields : list (field A)) (key : string) : option (json -> A -> option A) :=
  match List.find (fun f => f.1 =s key) fields with
  | Some f => Some f.2
  | None => snd <$> List.find (fun f => fold_name f.1 =s fold_name key) fields
  end.

(** An unknown key is an error; each member is decoded over what the earlier
    ones left. *)
Fixpoint decode_members {A} (fields : list (field A)) (kvs : list (string * json)) (x : A)
    : option A :=
  match kvs with
  | [] => Some x
  | (key, v) :: kvs => f ← find_field fields key; x ← f v x; decode_members fields kvs x
  end.

Definition decode_struct {A} (fields : list (field A)) (v : json) (x : A) : option A :=
  match v with
  | JObject kvs => decode_members fields kvs x
  | JNull => Some x
  | _ => None
  end.

(** [string], [uint64] and [int] fields. *)
Definition decode_string (v : json) (s : string) : option string :=
  match v with JString s' => Some s' | JNull => Some s | _ => None end.

Definition decode_uint64 (v : json) (n : Z) : option Z :=
  match v with
  | JInteger false k => if (k <? 2 ^ 64)%N then Some (Z.of_N k) else None
  | JNull => Some n
  | _ => None
  end.

Definition decode_int (v : json) (n : Z) : option Z :=
  match v with
  | JInteger negative k =>
      let z := (if negative then - Z.of_N k else Z.of_N k)%Z in
      if (- 2 ^ 63 <=? z) && (z <? 2 ^ 63) then Some z else None
  | JNull => Some n
  | _ => None
  end.

(** The JSON integer of [z]. *)
Definition JInt (z : Z) : json := JInteger (z <? 0) (Z.abs_N z).

(** A field with [omitempty]. *)
Definition omitempty (name s : string) : list (string * json) :=
  if s =s "" then [] else [(name, JString s)].

Lemma decode_uint64_int z n : 0 <= z < 2 ^ 64 -> decode_uint64 (JInt z) n = Some z.
Proof.
  intros Hz. unfold decode_uint64, JInt. rewrite (proj2 (Z.ltb_ge z 0)) by lia.
  rewrite (proj2 (N.ltb_lt _ _)) by lia. f_equal. lia.
Qed.

Lemma decode_uint64_range v n z :
  0 <= n < 2 ^ 64 -> decode_uint64 v n = Some z -> 0 <= z < 2 ^ 64.
Proof.
  intros Hn. destruct v as [| |[] k| | | |]; try discriminate; simpl.
  - by intros [= <-].
  - case_match eqn:E; [|done]. apply N.ltb_lt in E. intros [= <-]. lia.
Qed.

Lemma decode_int_int z n : - 2 ^ 63 <= z < 2 ^ 63 -> decode_int (JInt z) n = Some z.
Proof.
  intros Hz. unfold decode_int, JInt.
  replace (if z <? 0 then _ else _) with z by (case_match; lia).
  by rewrite (proj2 (Z.leb_le _ _)), (proj2 (Z.ltb_lt z (2 ^ 63))) by lia.
Qed.

Lemma decode_int_range v n z :
  - 2 ^ 63 <= n < 2 ^ 63 -> decode_int v n = Some z -> - 2 ^ 63 <= z < 2 ^ 63.
Proof.
  intros Hn. destruct v as [| |negative k| | | |]; try discriminate; simpl.
  - by intros [= <-].
  - case_match eqn:E; [|done]. apply andb_true_iff in E as [?%Z.leb_le ?%Z.ltb_lt].
    by intros [= <-].
Qed.

(** What every field preserves, decoding preserves. *)
Lemma decode_members_keeps {A} (P : A -> Prop) fields :
  Forall (fun f : field A => forall v x y, P x -> f.2 v x = Some y -> P y) fields ->
  forall kvs x y, P x -> decode_members fields kvs x = Some y -> P y.
Proof.
  intros Hf kvs. induction kvs as [|[key v] kvs IH]; simpl; intros x y Hx Hd; [by simplify_eq|].
  destruct (find_field fields key) as [f|] eqn:E; [|done]. simpl in Hd.
  destruct (f v x) as [x'|] eqn:Ef; [|done]. apply (IH x'); [|done].
  rewrite Forall_forall in Hf. unfold find_field in E.
  destruct (List.find (fun g => g.1 =s key) fields) as [g|] eqn:Eg.
  - simplify_eq. apply List.find_some in Eg as [Hg _]. eapply (Hf g); [by apply list_elem_of_In|done|done].
  - apply fmap_Some in E as (h & Eh & ->).
    apply List.find_some in Eh as [Hh _]. eapply (Hf h); [by apply list_elem_of_In|done|done].
Qed.

Lemma decode_struct_keeps {A} (P : A -> Prop) fields v x y :
  Forall (fun f : field A => forall v x y, P x -> f.2 v x = Some y -> P y) fields ->
  P x -> decode_struct fields v x = Some y -> P y.
Proof.
  intros Hf Hx. destruct v; simpl; try done; [congruence|]. by apply decode_members_keeps.
Qed.

Lemma clean_S d : forall v, clean d v -> clean (S d) v.
Proof.
  induction d as [|d IH]; intros v Hv; destruct v as [| | | | |vs|kvs]; try done; cbn [clean] in *.
  - eapply Forall_impl; [exact Hv|]. intros w. apply IH.
  - eapply Forall_impl; [exact Hv|]. intros w [? ?]. split; [done|by apply IH].
Qed.

Lemma clean_le d d' v : (d <= d')%nat -> clean d v -> clean d' v.
Proof. induction 1; [done|]. intros Hv. by apply clean_S, IHle. Qed.
