(* ===== verification/Floats.v ===== *)
(** * Floats: the double-precision numbers of Go

    [float64] as IEEE binary64 ([SpecFloat] with precision 53), what
    [strconv.ParseFloat] reads, the conversions from and to integers, and the
    shortest decimal [encoding/json] prints. *)

From Stdlib Require Import SpecFloat.
From S2P Require Import Prelude Json.

#[export] Instance spec_float_eq_dec : EqDecision spec_float.
Proof. solve_decision. Defined.

(** ** Arithmetic *)

(** [float64(z)] *)
Definition float64 (z : Z) : spec_float := binary_normalize 53 1024 z 0 false.

Definition fadd : spec_float -> spec_float -> spec_float := SFadd 53 1024.
Definition fsub : spec_float -> spec_float -> spec_float := SFsub 53 1024.
Definition fmul : spec_float -> spec_float -> spec_float := SFmul 53 1024.
Definition fdiv : spec_float -> spec_float -> spec_float := SFdiv 53 1024.

(** Neither [math.IsNaN] nor [math.IsInf]. *)
Definition is_finite (x : spec_float) : bool :=
  match x with S754_infinity _ | S754_nan => false | _ => true end.

(** [time.Duration.Seconds] *)
Definition duration_seconds (d : Duration) : spec_float :=
  fadd (float64 (Z.quot d Second)) (fdiv (float64 (Z.rem d Second)) (float64 Second)).

(** ** Integers are finite *)

Lemma shr_1_range r : 0 <= shr_m r -> 0 <= shr_m (shr_1 r) <= shr_m r.
Proof. destruct r as [[|[p|p|]|p] ? ?]; simpl; lia. Qed.

Lemma iter_shr_range n : forall r, 0 <= shr_m r -> 0 <= shr_m (SpecFloat.iter_pos shr_1 n r) <= shr_m r.
Proof.
  induction n as [n IH|n IH|]; intros r Hr; simpl; [| |by apply shr_1_range].
  - pose proof (shr_1_range r Hr). pose proof (IH (shr_1 r) ltac:(lia)).
    pose proof (IH (SpecFloat.iter_pos shr_1 n (shr_1 r)) ltac:(lia)). lia.
  - pose proof (IH r Hr). pose proof (IH (SpecFloat.iter_pos shr_1 n r) ltac:(lia)). lia.
Qed.

Lemma shr_fexp_range m e l :
  0 <= m ->
  let '(r, e') := shr_fexp 53 1024 m e l in
  0 <= shr_m r <= m /\ e' <= Z.max e (fexp 53 1024 (Zdigits2 m + e)).
Proof.
  intros Hm. unfold shr_fexp, shr.
  assert (shr_m (shr_record_of_loc m l) = m) as Hs by by destruct l as [|[]].
  destruct (fexp 53 1024 (Zdigits2 m + e) - e) as [|p|p] eqn:E; rewrite ?Hs; [lia| |lia].
  pose proof (iter_shr_range p (shr_record_of_loc m l)). lia.
Qed.

Lemma digits_bound m k : 0 <= m <= 2 ^ k -> 0 <= k -> Zdigits2 m <= k + 1.
Proof.
  intros Hm Hk. destruct m as [|p|p]; simpl; [lia| |lia].
  assert (digits2_pos p = Pos.size p) as -> by (clear; induction p; simpl; congruence).
  pose proof (Pos.size_le p) as Hp.
  assert (2 ^ Zpos (Pos.size p) <= 2 ^ (k + 1)) as Hle.
  { rewrite Z.pow_add_r by lia. rewrite <- Pos2Z.inj_pow. lia. }
  apply Z.pow_le_mono_r_iff in Hle; lia.
Qed.

(** Far below the largest exponent rounding gives a finite number. *)
Lemma round_finite s m e l :
  0 <= m < 2 ^ 300 -> e <= 300 -> is_finite (binary_round_aux 53 1024 s m e l) = true.
Proof.
  intros Hm He. unfold binary_round_aux.
  pose proof (shr_fexp_range m e l ltac:(lia)) as H1. destruct (shr_fexp 53 1024 m e l) as [r e1].
  destruct H1 as [Hr He1]. pose proof (digits_bound m 300 ltac:(lia) ltac:(lia)) as Hd.
  set (m1 := round_nearest_even _ _).
  assert (0 <= m1 <= 2 ^ 300) as Hm1.
  { unfold m1, round_nearest_even. destruct (loc_of_shr_record r) as [|[]]; repeat case_match; lia. }
  clearbody m1. pose proof (shr_fexp_range m1 e1 loc_Exact ltac:(lia)) as H2.
  destruct (shr_fexp 53 1024 m1 e1 loc_Exact) as [r2 e2]. destruct H2 as [Hr2 He2].
  pose proof (digits_bound m1 300 ltac:(lia) ltac:(lia)) as Hd1.
  unfold fexp, emin in *. destruct (shr_m r2) as [|p|p]; [done| |lia].
  rewrite (proj2 (Z.leb_le _ _)); [done|lia].
Qed.

Lemma iter_xO m d : Zpos (Pos.iter xO m d) = Zpos m * 2 ^ Zpos d.
Proof.
  induction d as [|d IH] using Pos.peano_ind; [simpl; lia|].
  rewrite Pos.iter_succ, Pos2Z.inj_xO, IH, Pos2Z.inj_succ, Z.pow_succ_r by lia. lia.
Qed.

(** [float64] of every integer of the machine is finite. *)
Lemma float64_finite z : - 2 ^ 64 <= z <= 2 ^ 64 -> is_finite (float64 z) = true.
Proof.
  assert (forall s p, (Zpos p <= 2 ^ 64) -> is_finite (binary_round 53 1024 s p 0) = true) as Hround.
  { intros s p Hp. unfold binary_round, shl_align. rewrite Z.add_0_r, Z.sub_0_r.
    assert (- 52 <= fexp 53 1024 (Zpos (digits2_pos p))) as Hf by (unfold fexp; lia).
    destruct (fexp _ _ _) as [|d|d]; try (apply round_finite; lia).
    apply round_finite; [|lia]. rewrite iter_xO. split; [lia|].
    assert (2 ^ Zpos d <= 2 ^ 52) by (apply Z.pow_le_mono_r; lia).
    assert (Zpos p * 2 ^ Zpos d <= 2 ^ 64 * 2 ^ 52) by nia. lia. }
  intros Hz. unfold float64, binary_normalize. destruct z as [|p|p]; [done|apply Hround; lia..].
Qed.

(** ** To an integer *)

(** [int(x)] of a double outside [int64], which the language leaves to the
    implementation. *)
Class FloatConversion := {
  int_overflow : spec_float -> Z;
  int_overflow_range x : min_int64 <= int_overflow x <= max_int64 }.

(** The integer part, towards zero. *)
Definition float_int (x : spec_float) : option Z :=
  match x with
  | S754_zero _ => Some 0
  | S754_finite s m e =>
      let z := if 0 <=? e then Z.pos m * 2 ^ e else Z.pos m / 2 ^ (- e) in
      Some (if s then - z else z)
  | _ => None
  end.

Definition int_of_float `{FloatConversion} (x : spec_float) : Z :=
  match float_int x with
  | Some z => if (min_int64 <=? z) && (z <=? max_int64) then z else int_overflow x
  | None => int_overflow x
  end.

(** ** [strconv.ParseFloat] *)

(** [digits * 10 ^ exponent], correctly rounded; [None] when it is out of range. *)
Definition decimal (negative : bool) (digits : N) (exponent : Z) : option spec_float :=
  match digits with
  | N0 => Some (S754_zero negative)
  | Npos d =>
      let x :=
        match exponent with
        | Zneg e => SFdiv 53 1024 (S754_finite negative d 0) (S754_finite false (10 ^ e) 0)
        | _ =>
            let z := Zpos d * 10 ^ exponent in
            binary_normalize 53 1024 (if negative then - z else z) 0 negative
        end in
      if is_finite x then Some x else None
  end.

(** [digits * 2 ^ exponent], of a hexadecimal text. *)
Definition hexadecimal (negative : bool) (digits : N) (exponent : Z) : option spec_float :=
  match digits with
  | N0 => Some (S754_zero negative)
  | Npos d =>
      let x := binary_normalize 53 1024 (if negative then Zneg d else Zpos d) exponent negative in
      if is_finite x then Some x else None
  end.

Definition float_digit (hex : bool) (a : ascii) : option N :=
  match digit_value a with
  | Some d => Some d
  | None =>
      let n := byteN (lower_ascii a) in
      if hex && ((97 <=? n) && (n <=? 102))%N then Some (n - 87)%N else None
  end.

(** The mantissa of [readFloat]: was there a digit, an underscore; its value, the
    digits after the point, and the rest. *)
Fixpoint read_mantissa (hex point digits underscores : bool) (m : N) (k : Z) (l : list ascii)
    : bool * bool * N * Z * list ascii :=
  let stop := (digits, underscores, m, k, l) in
  match l with
  | [] => stop
  | a :: r =>
      if Ascii.eqb a "_" then read_mantissa hex point digits true m k r
      else if Ascii.eqb a "." then (if point then stop else read_mantissa hex true digits underscores m k r)
      else
        match float_digit hex a with
        | Some d =>
            read_mantissa hex point true underscores (m * (if hex then 16 else 10) + d)
              (if point then k + 1 else k) r
        | None => stop
        end
  end.

(** The digits of an exponent, which stops growing at 10000. *)
Fixpoint read_exponent (underscores : bool) (e : Z) (l : list ascii) : bool * Z * list ascii :=
  match l with
  | a :: r =>
      if Ascii.eqb a "_" then read_exponent true e r
      else
        match digit_value a with
        | Some d => read_exponent underscores (if e <? 10000 then e * 10 + Z.of_N d else e) r
        | None => (underscores, e, l)
        end
  | [] => (underscores, e, [])
  end.

(** [underscoreOK]: underscores stand between digits, or after the base prefix. *)
Fixpoint underscores_separate (hex : bool) (saw : ascii) (l : list ascii) : bool :=
  match l with
  | [] => negb (Ascii.eqb saw "_")
  | a :: r =>
      match float_digit hex a with
      | Some _ => underscores_separate hex "0" r
      | None =>
          if Ascii.eqb a "_" then (if Ascii.eqb saw "0" then underscores_separate hex "_" r else false)
          else if Ascii.eqb saw "_" then false else underscores_separate hex "!" r
      end
  end.

Definition underscoreOK (l : list ascii) : bool :=
  let l := match l with "+"%char :: r | "-"%char :: r => r | _ => l end in
  match l with
  | "0"%char :: b :: r =>
      let b := lower_ascii b in
      if Ascii.eqb b "b" || Ascii.eqb b "o" || Ascii.eqb b "x"
      then underscores_separate (Ascii.eqb b "x") "0" r
      else underscores_separate false "^" l
  | _ => underscores_separate false "^" l
  end.

Definition sign_of (l : list ascii) : bool * list ascii :=
  match l with "+"%char :: r => (false, r) | "-"%char :: r => (true, r) | _ => (false, l) end.

(** The infinities and NaN, by their names. *)
Definition special (s : string) : option spec_float :=
  let l := lower_ascii <$> list_ascii_of_string s in
  let '(negative, r) := sign_of l in
  let t := string_of_list_ascii r in
  if (t =s "inf") || (t =s "infinity") then Some (S754_infinity negative)
  else if string_of_list_ascii l =s "nan" then Some S754_nan
  else None.

(** The value, or [None] for a text that is no number or out of range. *)
Definition ParseFloat (s : string) : option spec_float :=
  match special s with
  | Some x => Some x
  | None =>
      let l := list_ascii_of_string s in
      let '(negative, r) := sign_of l in
      let '(hex, r) :=
        match r with
        | "0"%char :: b :: c :: r' => if Ascii.eqb (lower_ascii b) "x" then (true, c :: r') else (false, r)
        | _ => (false, r)
        end in
      let '(digits, underscores, m, k, r) := read_mantissa hex false false false 0 0 r in
      if negb digits then None
      else
        '(underscores, e, r) ←
          match r with
          | c :: r' =>
              if Ascii.eqb (lower_ascii c) (if hex then "p" else "e") then
                let '(minus, r'') := sign_of r' in
                match r'' with
                | d :: _ =>
                    match digit_value d with
                    | Some _ =>
                        let '(u, e, r3) := read_exponent underscores 0 r'' in
                        Some (u, if minus then - e else e, r3)
                    | None => None
                    end
                | [] => None
                end
              else if hex then None else Some (underscores, 0, r)
          | [] => if hex then None else Some (underscores, 0, r)
          end;
        if negb (bool_decide (r = [])) || (underscores && negb (underscoreOK l)) then None
        else if hex then hexadecimal negative m (e - 4 * k)
        else decimal negative m (e - k)
  end.

Example parse_float_samples :
  ParseFloat "1.5" = Some (S754_finite false 6755399441055744 (-52)) /\
  ParseFloat "0x1.8p0" = ParseFloat "1.5" /\ ParseFloat "1_5e-0_1" = ParseFloat "+1.5" /\
  ParseFloat "-Inf" = Some (S754_infinity true) /\ ParseFloat "NaN" = Some S754_nan /\
  ParseFloat "1e400" = None /\ ParseFloat "" = None /\ ParseFloat "1e" = None /\
  ParseFloat "1__5" = None /\ ParseFloat "+nan" = None /\ ParseFloat "-.0" = Some (S754_zero true).
Proof. vm_compute. done. Qed.

(** ** [encoding/json] *)

(** [10 ^ k <= num / den] *)
Definition pow10_le (k num den : Z) : bool :=
  if 0 <=? k then 10 ^ k * den <=? num else den <=? num * 10 ^ (- k).

(** The decimal exponent of [num / den]. *)
Definition decimal_exponent (num den : Z) : Z :=
  let k := (Z.log2 num - Z.log2 den) * 30103 / 100000 in
  if pow10_le (k + 1) num den then k + 1 else if pow10_le k num den then k else k - 1.

(** Of the decimals of [n] digits next to the number, the nearest that reads as
    the number. *)
Definition decimal_of_length (x : spec_float) (num den : Z) (k : Z) (n : nat) : option (N * Z) :=
  let e := k + 1 - Z.of_nat n in
  let scaled := if 0 <=? e then num else num * 10 ^ (- e) in
  let unit := if 0 <=? e then den * 10 ^ e else den in
  let low := scaled / unit in
  let reads d := bool_decide (decimal false (Z.to_N d) e = Some x) in
  let rest := 2 * (scaled - low * unit) in
  let up := (unit <? rest) || ((unit =? rest) && Z.odd low) in
  if reads low && negb (reads (low + 1) && up) then Some (Z.to_N low, e)
  else if reads (low + 1) then Some (Z.to_N (low + 1), e) else None.

Fixpoint shortest_from (x : spec_float) (num den k : Z) (n fuel : nat) : option (N * Z) :=
  match fuel with
  | O => None
  | S fuel =>
      match decimal_of_length x num den k n with
      | Some d => Some d
      | None => shortest_from x num den k (S n) fuel
      end
  end.

(** The shortest decimal that reads as [m * 2 ^ e]; 17 digits are enough, and the
    exact value stands behind them. *)
Definition shortest (m : positive) (e : Z) : N * Z :=
  let num := if 0 <=? e then Zpos m * 2 ^ e else Zpos m in
  let den := if 0 <=? e then 1 else 2 ^ (- e) in
  match shortest_from (S754_finite false m e) num den (decimal_exponent num den) 1 17 with
  | Some d => d
  | None => if 0 <=? e then (Z.to_N num, 0) else (Z.to_N (Zpos m * 5 ^ (- e)), e)
  end.

(** The number a double is printed as, an integer below [10 ^ 21] by its digits;
    [None] is the error of [json.Marshal]. *)
Definition json_float (x : spec_float) : option json :=
  match x with
  | S754_zero s => Some (JInteger s 0)
  | S754_finite s m e =>
      let '(digits, k) := shortest m e in
      Some (if (0 <=? k) && pow10_le 21 (Z.of_N digits * 10 ^ k) 1 then JFraction s digits k
            else if 0 <=? k then JInteger s (digits * 10 ^ Z.to_N k)
            else JFraction s digits k)
  | _ => None
  end.

Lemma json_float_finite x : is_finite x = true -> is_Some (json_float x).
Proof. destruct x; [by eexists|done..|]. intros _. simpl. by destruct (shortest m e). Qed.

Example json_float_samples :
  json_float (float64 12) = Some (JInteger false 12) /\
  json_float (fdiv (float64 1) (float64 10)) = Some (JFraction false 1 (-1)) /\
  json_float (fdiv (float64 (-200)) (float64 3)) = Some (JFraction true 6666666666666667 (-14)) /\
  json_float (S754_zero true) = Some (JInteger true 0) /\ json_float S754_nan = None.
Proof. vm_compute. done. Qed.
