(* ===== verification/FloatText.v ===== *)
(** * FloatText: a double survives its JSON

    The decimal that [Floats.json_float] writes for a finite double reads, with the
    correct rounding of [Floats.decimal], as that double again. *)

From Stdlib Require Import SpecFloat.
From S2P Require Import Prelude Json Floats.


(** ** Digits of binary numbers *)

Lemma digits_log2 p : Zpos (digits2_pos p) = Z.log2 (Zpos p) + 1.
Proof.
  assert (digits2_pos p = Pos.size p) as -> by (induction p; simpl; congruence).
  destruct p; simpl; lia.
Qed.

Lemma digits_shift m d :
  0 <= d -> Zdigits2 (Zpos m * 2 ^ d) = Zpos (digits2_pos m) + d.
Proof.
  intros Hd. pose proof (Z.pow_pos_nonneg 2 d ltac:(lia) Hd).
  destruct (Zpos m * 2 ^ d) as [|p|p] eqn:E; [lia| |lia]. cbn [Zdigits2].
  rewrite !digits_log2, <- E, Z.log2_mul_pow2 by lia. lia.
Qed.

(** ** Rounding an exact value *)

Lemma shr_1_even m : 0 < m -> shr_1 (Build_shr_record (2 * m) false false) = Build_shr_record m false false.
Proof. by destruct m. Qed.

Lemma iter_shr_exact p : forall m, 0 < m ->
  SpecFloat.iter_pos shr_1 p (Build_shr_record (m * 2 ^ Zpos p) false false) = Build_shr_record m false false.
Proof.
  induction p as [p IH|p IH|]; intros m Hm; cbn [SpecFloat.iter_pos].
  - assert (2 ^ Zpos p~1 = 2 * (2 ^ Zpos p * 2 ^ Zpos p)) as ->
      by (rewrite <- Z.pow_add_r, <- Z.pow_succ_r by lia; f_equal; lia).
    replace (m * (2 * (2 ^ Zpos p * 2 ^ Zpos p))) with (2 * (m * 2 ^ Zpos p * 2 ^ Zpos p)) by lia.
    rewrite shr_1_even by nia. rewrite IH by nia. by apply IH.
  - assert (2 ^ Zpos p~0 = 2 ^ Zpos p * 2 ^ Zpos p) as ->
      by (rewrite <- Z.pow_add_r by lia; f_equal; lia).
    rewrite Z.mul_assoc, IH by nia. by apply IH.
  - rewrite Z.pow_1_r, Z.mul_comm. by apply shr_1_even.
Qed.

Lemma shr_fexp_exact m e d :
  canonical_mantissa 53 1024 m e = true -> 0 <= d ->
  shr_fexp 53 1024 (Zpos m * 2 ^ d) (e - d) loc_Exact = (Build_shr_record (Zpos m) false false, e).
Proof.
  intros Hc%Z.eqb_eq Hd. unfold shr_fexp. cbn [shr_record_of_loc].
  rewrite digits_shift by done. replace (Zpos (digits2_pos m) + d + (e - d)) with (Zpos (digits2_pos m) + e) by lia.
  rewrite Hc. replace (e - (e - d)) with d by lia. unfold shr. destruct d as [|p|p]; [|by rewrite iter_shr_exact, Z.sub_add|lia].
  by rewrite Z.mul_1_r, Z.sub_0_r.
Qed.

(** A value that is a double times a power of two is rounded to it. *)
Lemma round_exact s m e d :
  bounded 53 1024 m e = true -> 0 <= d ->
  binary_round_aux 53 1024 s (Zpos m * 2 ^ d) (e - d) loc_Exact = S754_finite s m e.
Proof.
  intros [Hc He]%andb_prop Hd. unfold binary_round_aux. rewrite shr_fexp_exact by done.
  cbn [shr_m loc_of_shr_record round_nearest_even].
  pose proof (shr_fexp_exact m e 0 Hc ltac:(lia)) as H0. rewrite Z.mul_1_r, Z.sub_0_r in H0.
  rewrite H0. cbn [shr_m]. by rewrite He.
Qed.

(** ** The exact decimal of a double *)

Lemma exact_integer m e :
  bounded 53 1024 m e = true -> 0 <= e ->
  decimal false (Z.to_N (Zpos m * 2 ^ e)) 0 = Some (S754_finite false m e).
Proof.
  intros Hb He. pose proof (Z.pow_pos_nonneg 2 e ltac:(lia) He). unfold decimal.
  destruct (Z.to_N (Zpos m * 2 ^ e)) as [|p] eqn:Ep; [lia|].
  assert (Zpos p = Zpos m * 2 ^ e) as Hp by lia. rewrite Z.mul_1_r.
  unfold binary_normalize, binary_round. pose proof Hb as [Hc%Z.eqb_eq _]%andb_prop.
  assert (Zpos (digits2_pos p) + 0 = Zpos (digits2_pos m) + e) as ->.
  { change (Zpos (digits2_pos p)) with (Zdigits2 (Zpos p)). rewrite Hp, digits_shift by done. lia. }
  rewrite Hc. assert (shl_align p 0 e = (p, 0)) as ->
    by (unfold shl_align; rewrite Z.sub_0_r; by destruct e).
  pose proof (round_exact false m e e Hb He) as Hr. rewrite Z.sub_diag, <- Hp in Hr. by rewrite Hr.
Qed.

Lemma digits_quotient m k :
  0 < k -> Zdigits2 (Zpos m * 5 ^ k) - Zdigits2 (10 ^ k) <= Zpos (digits2_pos m) - k.
Proof.
  intros Hk. pose proof (Z.pow_pos_nonneg 5 k ltac:(lia) ltac:(lia)). pose proof (Z.pow_pos_nonneg 10 k ltac:(lia) ltac:(lia)).
  assert (forall z, 0 < z -> Zdigits2 z = Z.log2 z + 1) as Hd by (intros [|z|z]; [lia|intros _; apply digits_log2|lia]).
  rewrite digits_log2, !Hd by lia.
  change 10 with (5 * 2). rewrite Z.pow_mul_l, Z.log2_mul_pow2 by lia.
  pose proof (Z.log2_mul_above (Zpos m) (5 ^ k) ltac:(lia) ltac:(lia)). lia.
Qed.

Lemma exact_fraction m e :
  bounded 53 1024 m e = true -> e < 0 ->
  decimal false (Z.to_N (Zpos m * 5 ^ (- e))) e = Some (S754_finite false m e).
Proof.
  intros Hb He. pose proof Hb as [Hc%Z.eqb_eq _]%andb_prop. unfold decimal.
  destruct e as [|e|e]; [lia|lia|]. change (- Zneg e) with (Zpos e).
  pose proof (Z.pow_pos_nonneg 5 (Zpos e) ltac:(lia) ltac:(lia)).
  pose proof (Z.pow_pos_nonneg 2 (Zpos e) ltac:(lia) ltac:(lia)).
  destruct (Z.to_N (Zpos m * 5 ^ Zpos e)) as [|p] eqn:Ep; [lia|].
  assert (Zpos p = Zpos m * 5 ^ Zpos e) as Hp by lia.
  assert (Zpos (10 ^ e) = 10 ^ Zpos e) as Ht by apply Pos2Z.inj_pow.
  unfold SFdiv. cbn [xorb]. rewrite Hp, Ht. unfold SFdiv_core_binary. rewrite !Z.add_0_r, !Z.sub_0_r.
  pose proof (digits_quotient m (Zpos e) ltac:(lia)) as Hd.
  set (e' := Z.min _ 0).
  assert (e' <= Zneg e) as He'.
  { unfold e'. apply Z.min_le_iff. left. rewrite <- Hc. unfold fexp. lia. }
  clearbody e'. destruct (0 - e') as [|s|s] eqn:Es; [lia| |lia].
  rewrite Z.shiftl_mul_pow2 by lia. 
  assert (Zpos m * 5 ^ Zpos e * 2 ^ Zpos s = Zpos m * 2 ^ (Zneg e - e') * 10 ^ Zpos e) as ->.
  { replace (Zpos s) with (Zneg e - e' + Zpos e) by lia. change 10 with (5 * 2).
    rewrite Z.pow_add_r, Z.pow_mul_l by lia. lia. }
  pose proof (Z.pow_pos_nonneg 10 (Zpos e) ltac:(lia) ltac:(lia)).
  destruct (Z.div_eucl (Zpos m * 2 ^ (Zneg e - e') * 10 ^ Zpos e) (10 ^ Zpos e)) as [q r] eqn:Eq.
  assert (q = Zpos m * 2 ^ (Zneg e - e') /\ r = 0) as [-> ->].
  { pose proof (Z_div_mult (Zpos m * 2 ^ (Zneg e - e')) (10 ^ Zpos e) ltac:(lia)) as Hdiv.
    pose proof (Z_mod_mult (Zpos m * 2 ^ (Zneg e - e')) (10 ^ Zpos e)) as Hmod.
    unfold Z.div, Z.modulo in Hdiv, Hmod. by rewrite Eq in Hdiv, Hmod. }
  assert (new_location (10 ^ Zpos e) 0 = loc_Exact) as -> by (unfold new_location; by destruct (Z.even _)).
  pose proof (round_exact false m (Zneg e) (Zneg e - e') Hb ltac:(lia)) as Hr.
  replace (Zneg e - (Zneg e - e')) with e' in Hr by lia. by rewrite Hr.
Qed.

(** ** The shortest decimal *)

Lemma shortest_from_reads x num den k n fuel d e :
  shortest_from x num den k n fuel = Some (d, e) -> decimal false d e = Some x.
Proof.
  revert n. induction fuel as [|fuel IH]; intros n; [done|]. cbn [shortest_from].
  destruct (decimal_of_length x num den k n) as [[d' e']|] eqn:E; [|by apply IH].
  intros [= -> ->]. revert E. unfold decimal_of_length. cbv zeta.
  destruct (_ && negb _) eqn:E1.
  - intros [= <- <-]. apply andb_prop in E1 as [E1 _]. by apply bool_decide_eq_true_1 in E1.
  - match goal with |- context [if bool_decide ?P then _ else _] => destruct (bool_decide P) eqn:E2 end;
      intros [= <- <-]. by apply bool_decide_eq_true_1 in E2.
Qed.

Lemma shortest_reads m e :
  bounded 53 1024 m e = true ->
  decimal false (shortest m e).1 (shortest m e).2 = Some (S754_finite false m e).
Proof.
  intros Hb. unfold shortest. destruct (shortest_from _ _ _ _ _ _) as [[d k]|] eqn:E.
  - by apply shortest_from_reads in E.
  - destruct (Z.leb_spec 0 e); [by apply exact_integer|by apply exact_fraction].
Qed.

(** The sign goes through unchanged. *)
Lemma round_sign s m e l m' e' :
  binary_round_aux 53 1024 false m e l = S754_finite false m' e' ->
  binary_round_aux 53 1024 s m e l = S754_finite s m' e'.
Proof.
  unfold binary_round_aux. destruct (shr_fexp 53 1024 m e l) as [r1 e1].
  destruct (shr_fexp 53 1024 _ e1 _) as [r2 e2]. destruct (shr_m r2); try done.
  destruct (e2 <=? _); [|done]. by intros [= <- <-].
Qed.

Lemma decimal_sign s d k m e :
  decimal false d k = Some (S754_finite false m e) -> decimal s d k = Some (S754_finite s m e).
Proof.
  unfold decimal. destruct d as [|d]; [done|].
  assert (forall x y, (x = S754_finite false m e -> y = S754_finite s m e) ->
    (if is_finite x then Some x else None) = Some (S754_finite false m e) ->
    (if is_finite y then Some y else None) = Some (S754_finite s m e)) as Hxy.
  { intros x y Hy. destruct (is_finite x); [|done]. intros [= Hx]. by rewrite (Hy Hx). }
  assert (forall z, 0 < z -> binary_normalize 53 1024 z 0 false = S754_finite false m e ->
    binary_normalize 53 1024 (if s then - z else z) 0 s = S754_finite s m e) as Hz.
  { intros [|z|z] Hz; [lia| |lia]. destruct s; [|done]. change (- Zpos z) with (Zneg z).
    cbn [binary_normalize]. unfold binary_round. destruct (shl_align _ _ _) as [mz ez]. apply round_sign. }
  destruct k as [|k|k]; apply Hxy; [apply Hz; lia| |].
  - apply Hz. pose proof (Z.pow_pos_nonneg 10 (Zpos k) ltac:(lia) ltac:(lia)). nia.
  - unfold SFdiv. destruct (SFdiv_core_binary _ _ _ _ _ _) as [[mz ez] lz]. cbn [xorb].
    rewrite xorb_false_r. apply round_sign.
Qed.

Lemma decimal_scaled s d k m e :
  0 <= k -> decimal s d k = Some (S754_finite s m e) ->
  decimal s (d * 10 ^ Z.to_N k) 0 = Some (S754_finite s m e).
Proof.
  intros Hk. unfold decimal. destruct d as [|d]; [done|].
  destruct (N.pos d * 10 ^ Z.to_N k)%N as [|p] eqn:Ep.
  { pose proof (N.pow_nonzero 10 (Z.to_N k)). lia. }
  assert (Zpos p = Zpos d * 10 ^ k) as Hp.
  { change (Zpos p) with (Z.of_N (N.pos p)). rewrite <- Ep, N2Z.inj_mul, N2Z.inj_pow, Z2N.id by done. done. }
  rewrite Z.mul_1_r, Hp. by destruct k.
Qed.

(** The text of every finite double reads as that double. *)
Definition number_text (v : json) : option spec_float :=
  match v with
  | JInteger negative n => decimal negative n 0
  | JFraction negative n e => decimal negative n e
  | _ => None
  end.

Theorem json_float_reads x v :
  valid_binary 53 1024 x = true -> json_float x = Some v -> number_text v = Some x.
Proof.
  destruct x as [s|s| |s m e]; cbn [json_float]; [by intros _ [= <-]|done|done|]. intros Hb.
  pose proof (decimal_sign s _ _ _ _ (shortest_reads m e Hb)) as Hr.
  destruct (shortest m e) as [d k]. cbn [fst snd] in Hr.
  destruct (_ && _); [by intros [= <-]|]. destruct (Z.leb_spec 0 k) as [Hk|]; intros [= <-]; [|done].
  by apply decimal_scaled.
Qed.
