(* ===== verification/HostMetrics.v ===== *)
(** * HostMetrics: what a heartbeat says of the host

    [internal/control/hostmetrics.go] with the readings of a Unix host
    ([hostmetrics_unix.go]): the texts of [/proc], the file system and the Go
    runtime are arguments, the two samples a rate is computed against are the
    state.  Numbers are doubles ([Floats]); counters are [uint64] and wrap. *)

From Stdlib Require Import SpecFloat.
From S2P Require Import Prelude Json Floats.

Abbreviation metrics := (gmap string spec_float).

(** ** Texts *)

Definition word (w : list ascii) (rest : list string) : list string :=
  match w with [] => rest | _ => string_of_list_ascii w :: rest end.

Fixpoint fields_from (w l : list ascii) : list string :=
  match l with
  | [] => word w []
  | a :: r1 =>
      if space1 a then word w (fields_from [] r1)
      else
        match r1 with
        | b :: r2 =>
            if space2 a b then word w (fields_from [] r2)
            else
              match r2 with
              | c :: r3 =>
                  if space3 a b c then word w (fields_from [] r3) else fields_from (w ++ [a]) r1
              | [] => fields_from (w ++ [a]) r1
              end
        | [] => fields_from (w ++ [a]) r1
        end
  end.

(** [strings.Fields] *)
Definition Fields (s : string) : list string := fields_from [] (list_ascii_of_string s).

Fixpoint split_from (sep : ascii) (w l : list ascii) : list string :=
  match l with
  | [] => [string_of_list_ascii w]
  | a :: r =>
      if Ascii.eqb a sep then string_of_list_ascii w :: split_from sep [] r
      else split_from sep (w ++ [a]) r
  end.

(** [strings.Split] at one byte *)
Definition Split (sep : ascii) (s : string) : list string := split_from sep [] (list_ascii_of_string s).

Definition newline : ascii := "010"%char.

(** [strings.TrimSuffix] of one byte *)
Definition trim_colon (s : string) : string :=
  match rev (list_ascii_of_string s) with
  | ":"%char :: r => string_of_list_ascii (rev r)
  | _ => s
  end.

Fixpoint uint_digits (acc : N) (l : list ascii) : option N :=
  match l with
  | [] => Some acc
  | a :: r => match digit_value a with Some d => uint_digits (acc * 10 + d) r | None => None end
  end.

(** [strconv.ParseUint] in base 10 with 64 bits *)
Definition ParseUint (s : string) : option Z :=
  match list_ascii_of_string s with
  | [] => None
  | l =>
      match uint_digits 0 l with
      | Some n => if Z.of_N n <? two64 then Some (Z.of_N n) else None
      | None => None
      end
  end.

Example text_samples :
  Fields " a  bc " = ["a"; "bc"] /\ Split ":" "x:y:" = ["x"; "y"; ""] /\
  trim_colon "MemTotal:" = "MemTotal" /\ ParseUint "18446744073709551615" = Some (two64 - 1) /\
  ParseUint "18446744073709551616" = None /\ ParseUint "+1" = None.
Proof. vm_compute. done. Qed.

(** ** Processor *)

Record cpuTimes := mkCPUTimes { cpTotal : Z; cpIdle : Z }.

(** Counters of a line and their sum, or nothing when one is no number. *)
Fixpoint counters (total : Z) (fields : list string) : option (list Z * Z) :=
  match fields with
  | [] => Some ([], total)
  | field :: fields =>
      value ← ParseUint field;
      '(values, total) ← counters (wrapu64 (total + value)) fields;
      Some (value :: values, total)
  end.

(** A line of [/proc/stat]: [None] when it is not the one of all processors, or
    what the function returns. *)
Definition stat_line (line : string) : option (option cpuTimes) :=
  let fields := Fields line in
  if (length fields <? 5)%nat || (default "" (head fields) <>s "cpu") then None
  else
    Some
      match counters 0 (take 8 (tail fields)) with
      | None => None
      | Some (values, total) =>
          let idle := default 0 (values !! 3%nat) in
          let idle := match values !! 4%nat with Some iowait => wrapu64 (idle + iowait) | None => idle end in
          if (total =? 0) || (total <? idle) then None else Some (mkCPUTimes total idle)
      end.

Fixpoint parse_stat_lines (lines : list string) : option cpuTimes :=
  match lines with
  | [] => None
  | line :: lines => match stat_line line with Some res => res | None => parse_stat_lines lines end
  end.

Definition parseProcStatCPUTimes (data : string) : option cpuTimes :=
  parse_stat_lines (Split newline data).

(** [cpuTimeCounters] *)
Definition cpuTimeCounters (stat : option string) : option cpuTimes :=
  data ← stat; parseProcStatCPUTimes data.

(** The counters of the differences: busy and total. *)
Definition cpu_delta (previous current : cpuTimes) : option (Z * Z) :=
  if (cpTotal current <=? cpTotal previous) || (cpIdle current <? cpIdle previous) then None
  else
    let totalDelta := wrapu64 (cpTotal current - cpTotal previous) in
    let idleDelta := wrapu64 (cpIdle current - cpIdle previous) in
    if totalDelta <? idleDelta then None else Some (wrapu64 (totalDelta - idleDelta), totalDelta).

Definition cpuUsedPercent (previous current : cpuTimes) : option spec_float :=
  '(busy, total) ← cpu_delta previous current;
  Some (fmul (fdiv (float64 busy) (float64 total)) (float64 100)).

(** [cpuMetrics], with the sample it leaves. *)
Definition cpuMetrics (stat : option string) (previous : option cpuTimes) : metrics * option cpuTimes :=
  match cpuTimeCounters stat with
  | None => (∅, previous)
  | Some current =>
      (match previous ≫= fun previous => cpuUsedPercent previous current with
       | Some usedPercent => {["node.cpu.used_percent" := usedPercent]}
       | None => ∅
       end, Some current)
  end.

(** ** Memory and load *)

Definition mem_keys : list (string * string) :=
  [("MemTotal", "node.memory.total_bytes"); ("MemFree", "node.memory.free_bytes");
   ("MemAvailable", "node.memory.available_bytes"); ("Buffers", "node.memory.buffers_bytes");
   ("Cached", "node.memory.cached_bytes")].

Definition mem_key (name : string) : option string :=
  (fun x => x.2.2) <$> list_find (fun kv : string * string => kv.1 = name) mem_keys.

Definition mem_line (values : metrics) (line : string) : metrics :=
  match Fields line with
  | name :: number :: _ =>
      match ParseFloat number with
      | None => values
      | Some parsed =>
          match mem_key (trim_colon name) with
          | Some key => <[key := fmul parsed (float64 1024)]> values
          | None => values
          end
      end
  | _ => values
  end.

Definition fzero : spec_float := S754_zero false.
Definition mfloat (values : metrics) (key : string) : spec_float := default fzero (values !! key).

(** [procMemInfoMetrics] *)
Definition procMemInfoMetrics (meminfo : option string) : metrics :=
  match meminfo with
  | None => ∅
  | Some data =>
      let values := foldl mem_line ∅ (Split newline data) in
      let total := mfloat values "node.memory.total_bytes" in
      if SFltb fzero total then
        let available := mfloat values "node.memory.available_bytes" in
        let available :=
          if SFleb available fzero then mfloat values "node.memory.free_bytes" else available in
        let used := fsub total available in
        if SFleb fzero used then
          <["node.memory.used_percent" := fmul (fdiv used total) (float64 100)]>
            (<["node.memory.used_bytes" := used]> values)
        else values
      else values
  end.

(** [procLoadMetrics] *)
Definition procLoadMetrics (loadavg : option string) : metrics :=
  match loadavg with
  | None => ∅
  | Some data =>
      match Fields data with
      | load1 :: load5 :: load15 :: _ =>
          foldl (fun out kv => match ParseFloat kv.2 with Some value => <[kv.1 := value]> out | None => out end)
            ∅ [("node.load1", load1); ("node.load5", load5); ("node.load15", load15)]
      | _ => ∅
      end
  end.

(** ** File system *)

(** [syscall.Statfs_t]: the block size, and [uint64] counts of blocks and inodes. *)
Record Statfs := mkStatfs { sfBsize : Z; sfBlocks : Z; sfBavail : Z; sfFiles : Z; sfFfree : Z }.

Definition inodeUsedPercent (files free : Z) : spec_float :=
  if files =? 0 then fzero
  else fmul (fdiv (float64 (wrapu64 (files - free))) (float64 files)) (float64 100).

(** [filesystemMetrics] *)
Definition filesystemMetrics (stat : option Statfs) : metrics :=
  match stat with
  | None => ∅
  | Some stat =>
      let blockSize := float64 (sfBsize stat) in
      let total := fmul (float64 (sfBlocks stat)) blockSize in
      let free := fmul (float64 (sfBavail stat)) blockSize in
      if SFleb total fzero then ∅
      else
        let used := fsub total free in
        list_to_map
          [("node.filesystem.root.size_bytes", total); ("node.filesystem.root.free_bytes", free);
           ("node.filesystem.root.used_bytes", used);
           ("node.filesystem.root.used_percent", fmul (fdiv used total) (float64 100));
           ("node.filesystem.root.files", float64 (sfFiles stat));
           ("node.filesystem.root.files_free", float64 (sfFfree stat));
           ("node.filesystem.root.files_percent", inodeUsedPercent (sfFiles stat) (sfFfree stat))]
  end.

(** ** Network *)

(** Received and sent bytes of a line of [/proc/net/dev], added to the totals
    when the line is that of an interface. *)
Definition net_line (totals : spec_float * spec_float) (line : string) : spec_float * spec_float :=
  match Split ":" line with
  | [iface; rest] =>
      let iface := TrimSpace iface in
      if (iface =s "") || (iface =s "lo") then totals
      else
        let fields := Fields rest in
        if (length fields <? 16)%nat then totals
        else
          (match ParseFloat (default "" (fields !! 0%nat)) with
           | Some rx => fadd totals.1 rx
           | None => totals.1
           end,
           match ParseFloat (default "" (fields !! 8%nat)) with
           | Some tx => fadd totals.2 tx
           | None => totals.2
           end)
  | _ => totals
  end.

(** [networkByteCounters] *)
Definition networkByteCounters (netdev : option string) : option (spec_float * spec_float) :=
  data ← netdev;
  let totals := foldl net_line (fzero, fzero) (Split newline data) in
  if SFeqb totals.1 fzero && SFeqb totals.2 fzero then None else Some totals.

Record networkSample := mkNetSample { nsAt : Time; nsRx : spec_float; nsTx : spec_float }.

(** The rate of one direction, when it is not negative. *)
Definition rate (perSecKey kbpsKey : string) (now before elapsed : spec_float) (out : metrics) : metrics :=
  let perSec := fdiv (fsub now before) elapsed in
  if SFleb fzero perSec then
    <[kbpsKey := fdiv (fmul perSec (float64 8)) (float64 1000)]> (<[perSecKey := perSec]> out)
  else out.

(** [networkMetrics], with the sample it leaves. *)
Definition networkMetrics (netdev : option string) (now : Time) (previous : option networkSample)
    : metrics * option networkSample :=
  match networkByteCounters netdev with
  | None => (∅, previous)
  | Some (rx, tx) =>
      let out : metrics :=
        <["node.network.tx_bytes_total" := tx]> {["node.network.rx_bytes_total" := rx]} in
      (match previous with
       | None => out
       | Some p =>
           let elapsed := duration_seconds (Sub now (nsAt p)) in
           if SFltb fzero elapsed then
             rate "node.network.tx_bytes_per_sec" "node.network.tx_kbps" tx (nsTx p) elapsed
               (rate "node.network.rx_bytes_per_sec" "node.network.rx_kbps" rx (nsRx p) elapsed out)
           else out
       end, Some (mkNetSample now rx tx))
  end.

(** ** The metrics of a heartbeat *)

(** [runtime.NumCPU], [runtime.NumGoroutine] and [runtime.MemStats]. *)
Record GoRuntime := mkGoRuntime {
  grNumCPU : Z; grNumGoroutine : Z;
  grHeapAlloc : Z; grHeapSys : Z; grHeapObjects : Z; grPauseTotalNs : Z }.

(** What one reading finds: the runtime, the time since the process started, the
    files, the root file system and the clock. *)
Record Host := mkHost {
  hoRuntime : GoRuntime;
  hoUptime : Duration;
  hoStat : option string;
  hoMeminfo : option string;
  hoLoadavg : option string;
  hoStatfs : option Statfs;
  hoNetDev : option string;
  hoNow : Time }.

(** [cpuSampleState], [networkSampleState] *)
Record Samples := mkSamples { smCPU : option cpuTimes; smNetwork : option networkSample }.

Section Merge.
Context `{MapRange}.

(** One entry that an input of [mergeFloatMetrics] ranges over. *)
Definition merge_entry (out : metrics) (kv : string * spec_float) : metrics :=
  let key := TrimSpace kv.1 in
  if (key =s "") || negb (is_finite kv.2) then out else <[key := kv.2]> out.

(** A [nil] result and an empty one look the same to the caller. *)
Definition mergeFloatMetrics (inputs : list metrics) : metrics :=
  foldl (fun out input => foldl merge_entry out (map_range input)) ∅ inputs.

Definition runtime_metrics (h : Host) : metrics :=
  let r := hoRuntime h in
  list_to_map
    [("node.cpu_count", float64 (grNumCPU r)); ("process.goroutines", float64 (grNumGoroutine r));
     ("process.heap_alloc_bytes", float64 (grHeapAlloc r)); ("process.heap_sys_bytes", float64 (grHeapSys r));
     ("process.heap_objects", float64 (grHeapObjects r));
     ("process.uptime_seconds", duration_seconds (hoUptime h));
     ("process.gc_pause_seconds_total", fdiv (float64 (grPauseTotalNs r)) (float64 1000000000))].

Definition NodeHostMetrics (h : Host) (s : Samples) : metrics * Samples :=
  let '(cpu, smCPU) := cpuMetrics (hoStat h) (smCPU s) in
  let '(network, smNetwork) := networkMetrics (hoNetDev h) (hoNow h) (smNetwork s) in
  (mergeFloatMetrics
     [runtime_metrics h; cpu; procMemInfoMetrics (hoMeminfo h); procLoadMetrics (hoLoadavg h);
      filesystemMetrics (hoStatfs h); network], mkSamples smCPU smNetwork).
End Merge.

(** ** Merging *)

Section MergeFacts.
Context `{MapRange}.

(** A key that trimming leaves as it is. *)
Definition canonical_key (k : string) : bool := (TrimSpace k =s k) && (k <>s "").
Definition canonical_keys (m : metrics) : Prop := forall k, is_Some (m !! k) -> canonical_key k = true.

Lemma merge_entry_sound out kv k x :
  merge_entry out kv !! k = Some x ->
  out !! k = Some x \/ (TrimSpace kv.1 = k /\ kv.2 = x /\ k <> "" /\ is_finite x = true).
Proof.
  unfold merge_entry. destruct (_ || _) eqn:E; [by left|].
  apply orb_false_iff in E as [Hk%seqb_neq Hx%negb_false_iff].
  intros [[<- <-]|[_ Hl]]%lookup_insert_Some; [by right|by left].
Qed.

Lemma merge_input_sound (l : list (string * spec_float)) out k x :
  foldl merge_entry out l !! k = Some x ->
  out !! k = Some x \/
  exists k', (k', x) ∈ l /\ TrimSpace k' = k /\ k <> "" /\ is_finite x = true.
Proof.
  revert out. induction l as [|[k0 x0] l IH]; intros out; [by left|]. simpl.
  intros [Hl|(k' & Hin & Hk')]%IH.
  - apply merge_entry_sound in Hl as [?|(? & <- & ? & ?)]; [by left|].
    right. exists k0. split; [left|done].
  - right. exists k'. split; [by right|done].
Qed.

(** What is reported is finite, under a trimmed key, and of one of the inputs. *)
Lemma merge_sound inputs k x :
  mergeFloatMetrics inputs !! k = Some x ->
  is_finite x = true /\ canonical_key k = true /\
  exists input k', input ∈ inputs /\ input !! k' = Some x /\ TrimSpace k' = k.
Proof.
  unfold mergeFloatMetrics.
  cut (forall out, foldl (fun out input => foldl merge_entry out (map_range input)) out inputs !! k = Some x ->
    out !! k = Some x \/ (is_finite x = true /\ canonical_key k = true /\
      exists input k', input ∈ inputs /\ input !! k' = Some x /\ TrimSpace k' = k)).
  { intros Hcut [Hl|Hr]%Hcut; [by rewrite lookup_empty in Hl|done]. }
  induction inputs as [|input inputs IH]; intros out; simpl; [by left|].
  intros [Hl|(Hx & Hk & i & k' & Hi & Hk')]%IH.
  - apply merge_input_sound in Hl as [?|(k' & Hin & Hk & Hne & Hx)]; [by left|]. right.
    split; [done|]. split.
    { subst k. unfold canonical_key. rewrite TrimSpace_idemp, seqb_refl. by destruct (String.eqb_spec (TrimSpace k') ""). }
    exists input, k'. split; [left|]. split; [|done].
    rewrite map_range_perm in Hin. by apply elem_of_map_to_list.
  - right. do 2 (split; [done|]). exists i, k'. split; [by right|done].
Qed.

Lemma merge_input_keeps (l : list (string * spec_float)) out k x :
  out !! k = Some x ->
  exists x', foldl merge_entry out l !! k = Some x' /\
    (x' = x \/ exists k', (k', x') ∈ l /\ TrimSpace k' = k).
Proof.
  revert out x. induction l as [|[k0 x0] l IH]; intros out x Hx; cbn [foldl]; [by exists x; split; [|left]|].
  assert (exists x1, merge_entry out (k0, x0) !! k = Some x1 /\ (x1 = x \/ x1 = x0 /\ TrimSpace k0 = k))
    as (x1 & Hx1 & Hcase).
  { unfold merge_entry. cbn [fst snd]. case_match; [by exists x; split; [|left]|].
    destruct (decide (TrimSpace k0 = k)) as [->|Hne].
    - exists x0. rewrite lookup_insert_eq. auto.
    - exists x. rewrite lookup_insert_ne by done. auto. }
  destruct (IH _ _ Hx1) as (x' & Hl & Hx'). exists x'. split; [done|].
  destruct Hx' as [->|(k' & Hin & Hk)].
  - destruct Hcase as [->|[-> Hk]]; [by left|right]. exists k0. split; [left|done].
  - right. exists k'. split; [by right|done].
Qed.

(** A finite entry is reported under its trimmed name, with its value or that of
    another entry of the same input whose name is trimmed to the same. *)
Lemma merge_input_reports (l : list (string * spec_float)) out k x :
  (k, x) ∈ l -> blank k = false -> is_finite x = true ->
  exists k' x', (k', x') ∈ l /\ TrimSpace k' = TrimSpace k /\
    foldl merge_entry out l !! TrimSpace k = Some x'.
Proof.
  intros Hin Hk Hx. revert out. induction l as [|[k0 x0] l IH]; intros out; [by apply not_elem_of_nil in Hin|].
  cbn [foldl]. apply elem_of_cons in Hin as [[= <- <-]|Hin].
  - destruct (merge_input_keeps l (merge_entry out (k, x)) (TrimSpace k) x) as (x' & Hl & Hx').
    { unfold merge_entry. cbn [fst snd]. unfold blank in Hk. rewrite Hk, Hx. apply lookup_insert_eq. }
    destruct Hx' as [->|(k' & Hin & Hk')]; [exists k, x; split; [left|done]|].
    exists k', x'. split; [by right|done].
  - destruct (IH Hin (merge_entry out (k0, x0))) as (k' & x' & Hin' & Hk' & Hl).
    exists k', x'. split; [by right|done].
Qed.

Lemma last_input_reports host m k x :
  m !! k = Some x -> blank k = false -> is_finite x = true ->
  exists k' x', m !! k' = Some x' /\ TrimSpace k' = TrimSpace k /\
    mergeFloatMetrics [host; m] !! TrimSpace k = Some x'.
Proof.
  intros Hk Hb Hx. unfold mergeFloatMetrics. cbn [foldl].
  destruct (merge_input_reports (map_range m) (foldl merge_entry ∅ (map_range host)) k x)
    as (k' & x' & Hin & Hk' & Hl); [|done|done|].
  - rewrite map_range_perm. by apply elem_of_map_to_list.
  - rewrite map_range_perm in Hin. apply elem_of_map_to_list in Hin. eauto.
Qed.

(** The reference: the finite entries, a later input over an earlier one. *)
Definition merge_reference (inputs : list metrics) : metrics :=
  foldl (fun out input => filter (fun kv => is_finite kv.2 = true) input ∪ out) ∅ inputs.

Lemma merge_entries (l : list (string * spec_float)) out :
  NoDup l.*1 -> (forall kv, kv ∈ l -> canonical_key kv.1 = true) ->
  foldl merge_entry out l = list_to_map (filter (fun kv => is_finite kv.2 = true) l) ∪ out.
Proof.
  revert out. induction l as [|[k x] l IH]; intros out Hnd Hc; simpl.
  { by rewrite (left_id_L ∅ (∪)). }
  rewrite fmap_cons in Hnd. apply NoDup_cons in Hnd as [Hk Hnd]. simpl in Hk.
  rewrite IH; [|done|by intros kv Hkv; apply Hc; right].
  pose proof (Hc (k, x) ltac:(left)) as Hkc. unfold canonical_key in Hkc. simpl in Hkc.
  apply andb_true_iff in Hkc as [Ht%seqb_eq Hne%negb_true_iff].
  unfold merge_entry. cbn [fst snd]. rewrite Ht, Hne. cbn [orb].
  rewrite filter_cons. case_decide as Hx; cbn [snd] in Hx.
  - rewrite Hx. cbn [negb list_to_map foldr curry]. simpl.
    rewrite <- insert_union_l, insert_union_r; [done|].
    apply not_elem_of_list_to_map. intros Hin. apply Hk.
    apply list_elem_of_fmap in Hin as (kv & Heq & [_ Hin]%list_elem_of_filter). rewrite Heq.
    by apply list_elem_of_fmap_2.
  - by apply not_true_is_false in Hx as ->.
Qed.

Lemma filter_keys_NoDup (P : string * spec_float -> Prop) `{forall kv, Decision (P kv)} l :
  NoDup l.*1 -> NoDup (filter P l).*1.
Proof.
  induction l as [|kv l IH]; [done|]. rewrite fmap_cons, filter_cons, NoDup_cons.
  intros [Hkv Hl]. case_decide; [|by apply IH]. rewrite fmap_cons, NoDup_cons.
  split; [|by apply IH]. intros (kv' & Heq & [_ Hin]%list_elem_of_filter)%list_elem_of_fmap. rewrite Heq in Hkv.
  by apply Hkv, list_elem_of_fmap_2.
Qed.

Lemma merge_input input out :
  canonical_keys input ->
  foldl merge_entry out (map_range input) = filter (fun kv => is_finite kv.2 = true) input ∪ out.
Proof.
  intros Hc. rewrite merge_entries.
  - f_equal. rewrite map_filter_alt. apply list_to_map_proper; [|by rewrite map_range_perm].
    apply filter_keys_NoDup. rewrite map_range_perm. apply NoDup_fst_map_to_list.
  - rewrite map_range_perm. apply NoDup_fst_map_to_list.
  - intros [k x] Hin. rewrite map_range_perm in Hin. apply elem_of_map_to_list in Hin. apply Hc. by eexists.
Qed.

(** With trimmed keys the order in which the maps are ranged over is not seen. *)
Lemma merge_is_reference inputs :
  Forall canonical_keys inputs -> mergeFloatMetrics inputs = merge_reference inputs.
Proof.
  unfold mergeFloatMetrics, merge_reference. generalize (∅ : metrics) as out.
  induction inputs as [|input inputs IH]; intros out Hc; [done|]. simpl.
  apply Forall_cons in Hc as [Hi Hc]. rewrite merge_input by done. by apply IH.
Qed.
End MergeFacts.

(** ** The keys of each source *)

Definition keys_in (ks : list string) (m : metrics) : Prop := forall k, is_Some (m !! k) -> k ∈ ks.

Lemma keys_in_empty ks : keys_in ks ∅.
Proof. intros k [x Hx]. by rewrite lookup_empty in Hx. Qed.

Lemma keys_in_insert ks k x m : k ∈ ks -> keys_in ks m -> keys_in ks (<[k := x]> m).
Proof. intros Hk Hm k' [y [[<- _]|[_ Hl]]%lookup_insert_Some]; [done|]. apply Hm. by eexists. Qed.

Lemma keys_in_list ks (l : list (string * spec_float)) :
  Forall (fun kv => kv.1 ∈ ks) l -> keys_in ks (list_to_map l).
Proof.
  induction 1 as [|[k x] l Hk _ IH]; simpl; [apply keys_in_empty|by apply keys_in_insert].
Qed.

(** A literal key of a literal list, and maps built from literal keys. *)
Ltac literal_key := apply (bool_decide_unpack _); vm_compute; exact I.
Ltac literal_keys :=
  cbv zeta; repeat case_match; try done;
  first [apply keys_in_list; repeat apply Forall_cons_2; try apply Forall_nil_2; cbn [fst]; literal_key
        |repeat (apply keys_in_insert; [literal_key|]); try apply keys_in_empty; try done].

Definition runtime_keys : list string :=
  ["node.cpu_count"; "process.goroutines"; "process.heap_alloc_bytes"; "process.heap_sys_bytes";
   "process.heap_objects"; "process.uptime_seconds"; "process.gc_pause_seconds_total"].
Definition cpu_keys : list string := ["node.cpu.used_percent"].
Definition memory_keys : list string :=
  mem_keys.*2 ++ ["node.memory.used_percent"; "node.memory.used_bytes"].
Definition load_keys : list string := ["node.load1"; "node.load5"; "node.load15"].
Definition filesystem_keys : list string :=
  ["node.filesystem.root.size_bytes"; "node.filesystem.root.free_bytes"; "node.filesystem.root.used_bytes";
   "node.filesystem.root.used_percent"; "node.filesystem.root.files"; "node.filesystem.root.files_free";
   "node.filesystem.root.files_percent"].
Definition network_keys : list string :=
  ["node.network.rx_bytes_total"; "node.network.tx_bytes_total"; "node.network.rx_bytes_per_sec";
   "node.network.rx_kbps"; "node.network.tx_bytes_per_sec"; "node.network.tx_kbps"].

Lemma runtime_in h : keys_in runtime_keys (runtime_metrics h).
Proof. unfold runtime_metrics. literal_keys. Qed.

Lemma cpu_in stat previous : keys_in cpu_keys (cpuMetrics stat previous).1.
Proof.
  unfold cpuMetrics. destruct (cpuTimeCounters stat); [|apply keys_in_empty]. simpl.
  literal_keys.
Qed.

Lemma mem_key_in name key : mem_key name = Some key -> key ∈ memory_keys.
Proof.
  unfold mem_key. destruct (list_find _ _) as [[i kv]|] eqn:E; [|done]. intros [= <-].
  apply list_find_Some in E as (Hi & _ & _). apply elem_of_app. left.
  apply list_elem_of_fmap_2. by eapply list_elem_of_lookup_2.
Qed.

Lemma memory_in meminfo : keys_in memory_keys (procMemInfoMetrics meminfo).
Proof.
  unfold procMemInfoMetrics. destruct meminfo as [data|]; [|apply keys_in_empty].
  assert (keys_in memory_keys (foldl mem_line ∅ (Split newline data))) as Hm.
  { generalize (keys_in_empty memory_keys). generalize (∅ : metrics) as m.
    induction (Split newline data) as [|line lines IH]; intros m Hm; [done|]. simpl. apply IH.
    unfold mem_line. repeat case_match; try done. apply keys_in_insert; [|done]. by eapply mem_key_in. }
  literal_keys.
Qed.

Lemma load_in loadavg : keys_in load_keys (procLoadMetrics loadavg).
Proof.
  unfold procLoadMetrics. destruct loadavg as [data|]; [|apply keys_in_empty].
  destruct (Fields data) as [|? [|? [|? ?]]]; try apply keys_in_empty. cbn [foldl fst snd].
  literal_keys.
Qed.

Lemma filesystem_in stat : keys_in filesystem_keys (filesystemMetrics stat).
Proof.
  unfold filesystemMetrics. destruct stat; [|apply keys_in_empty].
  literal_keys.
Qed.

Lemma rate_in ks perSecKey kbpsKey now before elapsed out :
  perSecKey ∈ ks -> kbpsKey ∈ ks -> keys_in ks out ->
  keys_in ks (rate perSecKey kbpsKey now before elapsed out).
Proof. intros. unfold rate. cbv zeta. case_match; [by repeat apply keys_in_insert|done]. Qed.

Lemma network_in netdev now previous : keys_in network_keys (networkMetrics netdev now previous).1.
Proof.
  unfold networkMetrics. destruct (networkByteCounters netdev) as [[rx tx]|]; [|apply keys_in_empty].
  cbn [fst]. set (out := <["node.network.tx_bytes_total" := tx]> _).
  assert (keys_in network_keys out) as Ho.
  { repeat (apply keys_in_insert; [literal_key|]). apply keys_in_empty. }
  clearbody out. destruct previous as [p|]; [|done]. case_match; [|done].
  repeat (apply rate_in; [literal_key|literal_key|]). done.
Qed.

(** ** Samples *)

(** Counters that were read: their sum does not vanish and covers the idle time. *)
Definition sane_cpu (c : cpuTimes) : Prop := 0 <= cpIdle c <= cpTotal c /\ 0 < cpTotal c < two64.
Definition sane (s : Samples) : Prop := forall c, smCPU s = Some c -> sane_cpu c.

Lemma counters_range fields : forall total values sum,
  0 <= total < two64 -> counters total fields = Some (values, sum) ->
  0 <= sum < two64 /\ Forall (fun v => 0 <= v < two64) values.
Proof.
  induction fields as [|field fields IH]; intros total values sum Ht; simpl.
  { by intros [= <- <-]. }
  destruct (ParseUint field) as [value|] eqn:Ev; [|done]. simpl.
  destruct (counters _ fields) as [[vs t]|] eqn:Ec; [|done]. intros [= <- <-].
  apply IH in Ec as [Hs Hvs]; [|apply wrapu64_range]. split; [done|]. constructor; [|done].
  unfold ParseUint in Ev. destruct (list_ascii_of_string field); [done|].
  destruct (uint_digits 0 _) as [n|]; [|done]. destruct (Z.ltb_spec (Z.of_N n) two64); [|done].
  injection Ev as <-. lia.
Qed.

Lemma stat_line_sane line c : stat_line line = Some (Some c) -> sane_cpu c.
Proof.
  unfold stat_line. case_match; [done|]. destruct (counters 0 _) as [[values total]|] eqn:Ec; [|done].
  apply counters_range in Ec as [Ht Hv]; [|zconst; lia].
  assert (forall i, 0 <= default 0 (values !! i) < two64) as Hd.
  { intros i. destruct (values !! i) as [v|] eqn:E; simpl; [by eapply Forall_lookup in Hv|zconst; lia]. }
  set (idle := match values !! 4%nat with Some _ => _ | None => _ end).
  assert (0 <= idle) as Hi.
  { unfold idle. destruct (values !! 4%nat); [apply wrapu64_range|apply (Hd 3%nat)]. }
  destruct (Z.eqb_spec total 0), (Z.ltb_spec total idle); try done. intros [= <-].
  unfold sane_cpu. simpl. lia.
Qed.

Lemma parsed_sane data c : parseProcStatCPUTimes data = Some c -> sane_cpu c.
Proof.
  unfold parseProcStatCPUTimes. induction (Split newline data) as [|line lines IH]; simpl; [done|].
  destruct (stat_line line) as [[c'|]|] eqn:E; [intros [= ->]; by apply (stat_line_sane line)|done|done].
Qed.

(** Between two samples that were read nothing wraps: the differences are those
    of the counters, and the busy time is a part of the total. *)
Lemma cpu_delta_exact previous current busy total :
  sane_cpu previous -> sane_cpu current -> cpu_delta previous current = Some (busy, total) ->
  total = cpTotal current - cpTotal previous /\
  busy = total - (cpIdle current - cpIdle previous) /\ 0 <= busy <= total /\ 0 < total.
Proof.
  unfold sane_cpu, cpu_delta. intros Hp Hc.
  destruct (Z.leb_spec (cpTotal current) (cpTotal previous)); [done|].
  destruct (Z.ltb_spec (cpIdle current) (cpIdle previous)); [done|]. cbn [orb]. cbv zeta.
  rewrite !wrapu64_small by lia. case_match eqn:E; [done|]. apply Z.ltb_ge in E.
  rewrite wrapu64_small by lia. intros [= <- <-]. lia.
Qed.

Lemma cpu_metrics_sane stat previous :
  (forall c, previous = Some c -> sane_cpu c) ->
  forall c, (cpuMetrics stat previous).2 = Some c -> sane_cpu c.
Proof.
  intros Hp c. unfold cpuMetrics, cpuTimeCounters. destruct stat as [data|]; simpl; [|by apply Hp].
  destruct (parseProcStatCPUTimes data) as [current|] eqn:E; simpl; [|by apply Hp].
  intros [= <-]. by apply parsed_sane in E.
Qed.

Lemma cpu_metric_of stat previous x :
  (cpuMetrics stat previous).1 !! "node.cpu.used_percent" = Some x ->
  exists p c, previous = Some p /\ (cpuMetrics stat previous).2 = Some c /\ cpuUsedPercent p c = Some x.
Proof.
  unfold cpuMetrics. destruct (cpuTimeCounters stat) as [c|]; cbn [fst snd]; [|by intros ?%lookup_empty_Some].
  destruct previous as [p|]; cbn [mbind option_bind]; [|by intros ?%lookup_empty_Some].
  destruct (cpuUsedPercent p c) as [y|] eqn:E; [|by intros ?%lookup_empty_Some].
  intros [_ <-]%lookup_singleton_Some. by exists p, c.
Qed.

(** *** Signs *)

Definition unsigned (x : spec_float) : bool :=
  match x with S754_finite s _ _ | S754_infinity s => negb s | _ => true end.

Lemma nonneg_unsigned x : SFleb fzero x = true -> unsigned x = true.
Proof. by destruct x as [|[]| |[]]. Qed.

Lemma unsigned_nonneg x : unsigned x = true -> is_finite x = true -> SFleb fzero x = true.
Proof. by destruct x as [|[]| |[]]. Qed.

Lemma round_unsigned prec emax m e l : unsigned (binary_round_aux prec emax false m e l) = true.
Proof.
  unfold binary_round_aux. destruct (shr_fexp _ _ m e l) as [r1 e1].
  destruct (shr_fexp _ _ _ e1 _) as [r2 e2]. by destruct (shr_m r2); [|destruct (e2 <=? _)|].
Qed.

Lemma fmul_unsigned x m e : unsigned x = true -> unsigned (fmul x (S754_finite false m e)) = true.
Proof. destruct x as [[]|[]| |[]]; try done. intros _. apply round_unsigned. Qed.

Lemma fdiv_unsigned x m e : unsigned x = true -> unsigned (fdiv x (S754_finite false m e)) = true.
Proof.
  destruct x as [[]|[]| |[]]; try done. intros _. unfold fdiv, SFdiv.
  destruct (SFdiv_core_binary _ _ _ _ _ _) as [[mz ez] lz]. apply round_unsigned.
Qed.

(** Kilobits for bytes. *)
Definition kilobits (x : spec_float) : spec_float := fdiv (fmul x (float64 8)) (float64 1000).

Lemma kilobits_nonneg x :
  SFleb fzero x = true -> is_finite (kilobits x) = true -> SFleb fzero (kilobits x) = true.
Proof.
  intros Hx. apply unsigned_nonneg.
  apply (fdiv_unsigned _ 8796093022208000 (-43)), (fmul_unsigned _ 4503599627370496 (-49)).
  by apply nonneg_unsigned.
Qed.

(** *** The rates of the network *)

Lemma rate_lookup perSecKey kbpsKey now before elapsed out k x :
  rate perSecKey kbpsKey now before elapsed out !! k = Some x ->
  let perSec := fdiv (fsub now before) elapsed in
  (SFleb fzero perSec = true /\ (k = perSecKey /\ x = perSec \/ k = kbpsKey /\ x = kilobits perSec)) \/
  out !! k = Some x.
Proof.
  unfold rate. cbv zeta. destruct (SFleb fzero _) eqn:E; [|by right].
  intros [[<- <-]|[_ [[<- <-]|[_ Hl]]%lookup_insert_Some]]%lookup_insert_Some; [left; by auto..|by right].
Qed.

(** The bytes per second of one direction: the difference of two counters over the
    seconds between their readings, when neither is below zero. *)
Definition byte_rate (netdev : option string) (now : Time) (previous : option networkSample)
    (counter : spec_float * spec_float -> spec_float) (before : networkSample -> spec_float)
    (x : spec_float) : Prop :=
  exists p counters, previous = Some p /\ networkByteCounters netdev = Some counters /\
    let elapsed := duration_seconds (Sub now (nsAt p)) in
    SFltb fzero elapsed = true /\ x = fdiv (fsub (counter counters) (before p)) elapsed /\
    SFleb fzero x = true.

(** What is reported of the network: the two counters, and a rate and its kilobits
    for each; a counter that was reset gives none. *)
Lemma network_rates netdev now previous k x :
  (networkMetrics netdev now previous).1 !! k = Some x ->
  (k = "node.network.rx_bytes_total" \/ k = "node.network.tx_bytes_total") \/
  exists counter before y, byte_rate netdev now previous counter before y /\
    ((counter = fst /\ before = nsRx /\
      (k = "node.network.rx_bytes_per_sec" /\ x = y \/ k = "node.network.rx_kbps" /\ x = kilobits y)) \/
     (counter = snd /\ before = nsTx /\
      (k = "node.network.tx_bytes_per_sec" /\ x = y \/ k = "node.network.tx_kbps" /\ x = kilobits y))).
Proof.
  unfold networkMetrics, byte_rate.
  destruct (networkByteCounters netdev) as [[rx tx]|]; cbn [fst]; [|by intros ?%lookup_empty_Some].
  set (out := <["node.network.tx_bytes_total" := tx]> _).
  assert (forall x, out !! k = Some x ->
    k = "node.network.rx_bytes_total" \/ k = "node.network.tx_bytes_total") as Ho.
  { unfold out. intros y [[<- _]|[_ [<- _]%lookup_singleton_Some]]%lookup_insert_Some; auto. }
  clearbody out. destruct previous as [p|]; [|left; by eapply Ho].
  destruct (SFltb fzero _) eqn:E; [|left; by eapply Ho].
  intros [[Hr Hk]|[[Hr Hk]|Hl]%rate_lookup]%rate_lookup; [right..|left; by eapply Ho].
  - exists snd, nsTx. eexists. split; [by exists p, (rx, tx)|]. right. done.
  - exists fst, nsRx. eexists. split; [by exists p, (rx, tx)|]. left. done.
Qed.

(** ** What a reading reports *)

Definition host_keys : list string :=
  runtime_keys ++ cpu_keys ++ memory_keys ++ load_keys ++ filesystem_keys ++ network_keys.

(** The inputs of the merge. *)
Definition host_inputs (h : Host) (s : Samples) : list metrics :=
  [runtime_metrics h; (cpuMetrics (hoStat h) (smCPU s)).1; procMemInfoMetrics (hoMeminfo h);
   procLoadMetrics (hoLoadavg h); filesystemMetrics (hoStatfs h);
   (networkMetrics (hoNetDev h) (hoNow h) (smNetwork s)).1].

Lemma NodeHostMetrics_eq `{MapRange} h s :
  NodeHostMetrics h s =
  (mergeFloatMetrics (host_inputs h s),
   mkSamples (cpuMetrics (hoStat h) (smCPU s)).2
     (networkMetrics (hoNetDev h) (hoNow h) (smNetwork s)).2).
Proof.
  unfold NodeHostMetrics, host_inputs. destruct (cpuMetrics _ _), (networkMetrics _ _ _). done.
Qed.

Lemma inputs_keys h s : Forall2 keys_in
  [runtime_keys; cpu_keys; memory_keys; load_keys; filesystem_keys; network_keys] (host_inputs h s).
Proof.
  unfold host_inputs. repeat apply Forall2_cons_2; [apply runtime_in|apply cpu_in|apply memory_in|
    apply load_in|apply filesystem_in|apply network_in|apply Forall2_nil_2].
Qed.

Lemma canonical_in ks m : forallb canonical_key ks = true -> keys_in ks m -> canonical_keys m.
Proof.
  intros Hks Hm k Hk. rewrite forallb_forall in Hks. apply Hks. by apply list_elem_of_In, Hm.
Qed.

Lemma inputs_canonical h s : Forall canonical_keys (host_inputs h s).
Proof.
  assert (Forall (fun ks => forallb canonical_key ks = true)
    [runtime_keys; cpu_keys; memory_keys; load_keys; filesystem_keys; network_keys]) as Hc.
  { repeat (apply Forall_cons_2; [vm_compute; reflexivity|]). apply Forall_nil_2. }
  revert Hc. induction (inputs_keys h s) as [|ks m kss ms Hm _ IH]; [done|].
  intros [Hks Hkss]%Forall_cons. constructor; [by eapply canonical_in|by apply IH].
Qed.

(** An entry of the report is the entry of one input. *)
Lemma reported_input `{MapRange} h s k x :
  mergeFloatMetrics (host_inputs h s) !! k = Some x ->
  is_finite x = true /\ exists input, input ∈ host_inputs h s /\ input !! k = Some x.
Proof.
  intros (Hx & _ & input & k' & Hin & Hk' & <-)%merge_sound. split; [done|]. exists input. split; [done|].
  pose proof (inputs_canonical h s) as Hc. rewrite Forall_forall in Hc.
  pose proof (Hc _ Hin k' ltac:(by eexists)) as Hk. unfold canonical_key in Hk.
  by apply andb_true_iff in Hk as [->%seqb_eq _].
Qed.

Lemma input_key h s input k x :
  input ∈ host_inputs h s -> input !! k = Some x -> k ∈ host_keys.
Proof.
  intros Hin Hk. pose proof (inputs_keys h s) as Hkeys.
  apply list_elem_of_lookup in Hin as [i Hi].
  destruct (Forall2_lookup_r _ _ _ _ _ Hkeys Hi) as (ks & Hks & Hm).
  assert (k ∈ ks) as Hkk by (apply Hm; by eexists).
  change host_keys with (mjoin [runtime_keys; cpu_keys; memory_keys; load_keys; filesystem_keys; network_keys]).
  apply list_elem_of_join. exists ks. split; [done|]. by eapply list_elem_of_lookup_2.
Qed.

(** The input a key belongs to. *)
Lemma input_of_key h s input k x i ks :
  [runtime_keys; cpu_keys; memory_keys; load_keys; filesystem_keys; network_keys] !! i = Some ks ->
  forallb (fun ks' => bool_decide (ks' = ks) || negb (bool_decide (k ∈ ks')))
    [runtime_keys; cpu_keys; memory_keys; load_keys; filesystem_keys; network_keys] = true ->
  input ∈ host_inputs h s -> input !! k = Some x -> host_inputs h s !! i = Some input.
Proof.
  intros Hi Hks Hin Hk. pose proof (inputs_keys h s) as Hkeys.
  apply list_elem_of_lookup in Hin as [j Hj].
  destruct (Forall2_lookup_r _ _ _ _ _ Hkeys Hj) as (ks' & Hks' & Hm).
  assert (k ∈ ks') as Hkk by (apply Hm; by eexists).
  rewrite forallb_forall in Hks. specialize (Hks ks' ltac:(by eapply list_elem_of_In, list_elem_of_lookup_2)).
  rewrite (bool_decide_eq_true_2 (k ∈ ks')) in Hks by done. rewrite orb_false_r in Hks.
  apply bool_decide_eq_true_1 in Hks as ->.
  assert (i = j) as ->; [|done].
  assert (NoDup [runtime_keys; cpu_keys; memory_keys; load_keys; filesystem_keys; network_keys]) as Hnd
    by literal_key.
  by eapply NoDup_lookup.
Qed.


Module Sample.
#[local] Existing Instance canonical_range.

Definition host : Host :=
  mkHost (mkGoRuntime 4 12 1000 2000 30 0) (90 * Second)
    (Some "cpu  150 0 0 750 0 0 0 300
cpu0 1 1 1 1") None (Some "0.25 nan 1 2/3 4") None None 0.
Definition samples : Samples := mkSamples (Some (mkCPUTimes 1000 700)) None.

Lemma samples_sane : sane samples.
Proof. intros c [= <-]. unfold sane_cpu. zconst. simpl. lia. Qed.

Example cpu_sample : (cpuMetrics (hoStat host) (smCPU samples)).1 = {["node.cpu.used_percent" := float64 75]}.
Proof. vm_compute. reflexivity. Qed.

(** A second with 2000 bytes received; the counter of what was sent was reset. *)
Definition wired : Host :=
  mkHost (mkGoRuntime 4 12 1000 2000 30 0) (90 * Second) None None None None
    (Some "eth0: 5000 1 0 0 0 0 0 0 100 1 0 0 0 0 0 0") (2 * Second).
Definition plugged : Samples :=
  mkSamples None (Some (mkNetSample Second (float64 3000) (float64 900))).

End Sample.
