(* ===== verification/RuntimeConfig.v ===== *)
(** * RuntimeConfig: what the Control Panel tells the bot

    The runtime configuration of [internal/control/client.go],
    [current_discord_bindings.go] and [discord_waiting_monitor.go] after JSON
    decoding, the accessors of [cmd/discord-bot/main.go] over it, and
    [time.Time.Format] with [time.RFC3339Nano], which turns an assignment time
    into the epoch string the rest of the bot compares. *)

From Stdlib Require Import SpecFloat.
From S2P Require Import Prelude Floats.

Definition ServiceType : string := "discord_bot".

(** ** Data *)

(** A value of a profile's [map[string]any] after [encoding/json]: the code
    distinguishes strings, booleans and numbers (doubles) from the rest. *)
Inductive config_any := AnyString (s : string) | AnyBool (b : bool) | AnyNumber (x : spec_float) | AnyOther.

#[export] Instance config_any_eq_dec : EqDecision config_any.
Proof. solve_decision. Defined.

Record RegisteredService := mkService {
  rsServiceID : string;
  rsServiceType : string;
  rsCurrentStreamID : string }.

Record StreamServiceAssignment := mkAssignment {
  ssStreamID : string;
  ssServiceID : string;
  ssServiceType : string;
  ssAssignmentRole : string;
  ssAssignedAt : Time }.

Record RuntimeProfile := mkProfile {
  rpID : string;
  rpKind : string;
  rpName : string;
  rpConfig : gmap string config_any;
  rpCreatedAt : Time;
  rpUpdatedAt : Time }.

Definition zeroProfile : RuntimeProfile := mkProfile "" "" "" ∅ 0 0.

Record StreamDiscordConfig := mkStreamConfig {
  scStreamID : string;
  scAssignmentRole : string;
  scDiscordConfigID : string;
  scGuildID : string;
  scVoiceChannelID : string;
  scTextChannelID : string;
  scAutoStartTrigger : string }.

Record CurrentDiscordCredentialBinding := mkBinding {
  cbStreamID : string;
  cbServiceID : string;
  cbServiceType : string;
  cbAssignmentRole : string;
  cbAssignmentEpoch : Time;
  cbProfileID : string;
  cbProfileOwnerServiceID : string;
  cbSecretName : string;
  cbFingerprint : string;
  cbReady : bool;
  cbReadinessCode : string }.

Definition zeroBinding : CurrentDiscordCredentialBinding :=
  mkBinding "" "" "" "" 0 "" "" "" "" false "".

(** A JSON list that may be absent or null is an [option]. *)
Record CurrentDiscordBindings := mkBindings {
  cdVersion : Z;
  cdBindings : option (list CurrentDiscordCredentialBinding) }.

Record DiscordWaitingCredentialBinding := mkWaitingCredential {
  wcStreamID : string;
  wcServiceID : string;
  wcServiceType : string;
  wcSelectionEpoch : Time;
  wcProfileID : string;
  wcProfileRevision : string;
  wcProfileOwnerServiceID : string;
  wcSecretName : string;
  wcFingerprint : string;
  wcReady : bool;
  wcReadinessCode : string }.

Definition zeroWaitingCredential : DiscordWaitingCredentialBinding :=
  mkWaitingCredential "" "" "" 0 "" "" "" "" "" false "".

(** [DiscordWaitingMonitorBinding]: the embedded credential and the target. *)
Record DiscordWaitingMonitorBinding := mkWaitingBinding {
  wbCredential : DiscordWaitingCredentialBinding;
  wbGuildID : string;
  wbVoiceChannelID : string;
  wbTextChannelID : string;
  wbTargetRevision : Z;
  wbAutoStartTrigger : string }.

Record DiscordWaitingMonitor := mkMonitor {
  wmVersion : Z;
  wmExecutionActive : bool;
  wmAvailabilityCode : string;
  wmBindings : option (list DiscordWaitingMonitorBinding) }.

Record RuntimeConfig := mkRuntimeConfig {
  rcService : RegisteredService;
  rcAssignments : list StreamServiceAssignment;
  rcProfiles : gmap string (list RuntimeProfile);
  rcStreamDiscordConfigs : list StreamDiscordConfig;
  rcCurrentDiscordBindings : option CurrentDiscordBindings;
  rcCurrentDiscordBindingsPresent : bool;
  rcDiscordWaitingMonitor : option DiscordWaitingMonitor;
  rcDiscordWaitingMonitorPresent : bool }.

(** [cfg.Profiles["discord_config"]] *)
Definition discord_profiles (cfg : RuntimeConfig) : list RuntimeProfile :=
  mread [] (rcProfiles cfg) "discord_config".

(** ** [time.Time.UTC().Format(time.RFC3339Nano)] *)

(** Days of the civil calendar, counted from 0000-03-01. *)
Definition civil (days : Z) : Z * Z * Z :=
  let era := days / 146097 in
  let doe := days mod 146097 in
  let yoe := (doe - doe / 1460 + doe / 36524 - doe / 146096) / 365 in
  let doy := doe - (365 * yoe + yoe / 4 - yoe / 100) in
  let mp := (5 * doy + 2) / 153 in
  let month := if mp <? 10 then mp + 3 else mp - 9 in
  (yoe + era * 400 + (if month <=? 2 then 1 else 0), month, doy - (153 * mp + 2) / 5 + 1).

Fixpoint zeros (n : nat) : string :=
  match n with O => "" | S n => "0" ++ zeros n end.

(** [%0*d] of a non-negative number. *)
Definition padded (width : nat) (n : Z) : string :=
  let s := itoa n in zeros (width - strlen s) ++ s.

(** The fraction of a second without its trailing zeros. *)
Fixpoint fraction (width : nat) (n : Z) : string :=
  match width with
  | O => ""
  | S w => if n =? 0 then "" else padded 1 (n / 10 ^ Z.of_nat w) ++ fraction w (n mod 10 ^ Z.of_nat w)
  end.

(** The zero time is 0001-01-01T00:00:00Z, day 306 after 0000-03-01. *)
Definition FormatRFC3339Nano (t : Time) : string :=
  let seconds := t / Second in
  let nanos := t mod Second in
  let '(y, mo, d) := civil (seconds / 86400 + 306) in
  let s := seconds mod 86400 in
  padded 4 y ++ "-" ++ padded 2 mo ++ "-" ++ padded 2 d ++ "T"
  ++ padded 2 (s / 3600) ++ ":" ++ padded 2 (s / 60 mod 60) ++ ":" ++ padded 2 (s mod 60)
  ++ (if nanos =? 0 then "" else "." ++ fraction 9 nanos) ++ "Z".

(** ** Accessors *)

(** [cfg.DiscordConfigForStream] *)
Definition DiscordConfigForStream (streamID : string) (cfg : RuntimeConfig)
    : option StreamDiscordConfig :=
  let streamID := TrimSpace streamID in
  if streamID =s "" then None
  else snd <$> list_find (fun item =>
    (TrimSpace (scStreamID item) =s streamID)
    && (TrimSpace (scAssignmentRole item) =s "primary")
    && negb (blank (scGuildID item) || blank (scVoiceChannelID item)) = true)
    (rcStreamDiscordConfigs cfg).

(** [stringConfig] *)
Definition stringConfig (config : gmap string config_any) (key : string) : string :=
  match config !! key with Some (AnyString value) => value | _ => "" end.

(** [boolConfig]: the value and whether there is one. *)
Definition boolConfig (config : gmap string config_any) (key : string) : option bool :=
  match config !! key with
  | Some (AnyBool b) => Some b
  | Some (AnyString s) =>
      let v := ToLower (TrimSpace s) in
      if (v =s "1") || (v =s "true") || (v =s "yes") || (v =s "on") then Some true
      else if (v =s "0") || (v =s "false") || (v =s "no") || (v =s "off") then Some false
      else None
  | _ => None
  end.

(** [profileBelongsToService] *)
Definition profileBelongsToService (profile : RuntimeProfile) (serviceID : string) : bool :=
  match rpConfig profile !! "service_id" with
  | None => true
  | Some (AnyString s) =>
      let s := TrimSpace s in (s =s "") || (s =s TrimSpace serviceID)
  | Some _ => false
  end.

(** An explicitly scoped profile of [firstRuntimeProfileForService]. *)
Definition profileScopedToService (profile : RuntimeProfile) (serviceID : string) : bool :=
  match rpConfig profile !! "service_id" with
  | Some (AnyString s) => negb (blank s) && (TrimSpace s =s TrimSpace serviceID)
  | _ => false
  end.

(** [firstRuntimeProfileForService] *)
Definition firstRuntimeProfileForService (profiles : list RuntimeProfile) (serviceID : string)
    : option RuntimeProfile :=
  match list_find (fun p => profileScopedToService p serviceID = true) profiles with
  | Some (_, p) => Some p
  | None => snd <$> list_find (fun p => profileBelongsToService p serviceID = true) profiles
  end.

(** [primaryDiscordAssignmentStreams] *)
Definition primaryDiscordAssignmentStreams (cfg : RuntimeConfig) : gmap string bool * bool :=
  let serviceID := TrimSpace (rsServiceID (rcService cfg)) in
  if serviceID =s "" then (∅, false)
  else fold_left (fun acc a =>
         if TrimSpace (ssServiceID a) <>s serviceID then acc
         else if TrimSpace (ssServiceType a) <>s ServiceType then acc
         else ((if (TrimSpace (ssAssignmentRole a) =s "primary") && negb (blank (ssStreamID a))
                then <[TrimSpace (ssStreamID a) := true]> acc.1 else acc.1), true))
         (rcAssignments cfg) (∅, false).

(** [isPrimaryDiscordAssignment] of [internal/httpapi/server.go] *)
Definition isPrimaryDiscordAssignment (cfg : RuntimeConfig) (streamID : string) : bool :=
  let streamID := TrimSpace streamID in
  let serviceID := TrimSpace (rsServiceID (rcService cfg)) in
  if (streamID =s "") || (serviceID =s "") then false
  else existsb (fun a =>
    (TrimSpace (ssStreamID a) =s streamID) && (TrimSpace (ssServiceID a) =s serviceID)
    && (TrimSpace (ssServiceType a) =s ServiceType)
    && (TrimSpace (ssAssignmentRole a) =s "primary")) (rcAssignments cfg).

Module Sample.
Lemma format_zero : FormatRFC3339Nano 0 = "0001-01-01T00:00:00Z".
Proof. vm_compute. reflexivity. Qed.

(** 2024-02-29T12:34:56.07Z: 738944 days after the zero time. *)
Lemma format_leap :
  FormatRFC3339Nano ((738944 * 86400 + 45296) * Second + 70 * Millisecond)
  = "2024-02-29T12:34:56.07Z".
Proof. vm_compute. reflexivity. Qed.
End Sample.
