(* ===== verification/Authority.v ===== *)
(** * Authority: which Discord credential the bot may use

    [currentDiscordGatewayAuthority] of [cmd/discord-bot/current_discord_bindings.go]
    reads the credential of the streams the bot executes out of the runtime
    configuration, and [selectDiscordWaitingGateway] of
    [cmd/discord-bot/discord_waiting_monitor.go] that of the streams it waits
    for.  Both refuse on the first inconsistency.  The loops are folds that stop
    at the first [None]. *)

From S2P Require Import Prelude Errors Types RuntimeConfig.

(** [canonical]: not empty and without surrounding white space. *)
Definition canonical (s : string) : bool := (s <>s "") && (s =s TrimSpace s).

(** A loop body that may return from the function. *)
Fixpoint each {A S} (body : S -> A -> option S) (s : S) (l : list A) : option S :=
  match l with
  | [] => Some s
  | a :: l => match body s a with Some s' => each body s' l | None => None end
  end.

Lemma each_app {A S} (body : S -> A -> option S) s l k :
  each body s (l ++ k)%list = each body s l ≫= fun s' => each body s' k.
Proof. revert s. induction l as [|a l IH]; intros s; simpl; [done|]. by destruct (body s a). Qed.

(** An invariant of a loop that ran to its end, over the visited prefix. *)
Lemma each_inv {A S} (P : list A -> S -> Prop) (body : S -> A -> option S) s l s' :
  each body s l = Some s' -> P [] s ->
  (forall done a s1 s2, a ∈ l -> P done s1 -> body s1 a = Some s2 -> P (done ++ [a])%list s2) ->
  P l s'.
Proof.
  intros He H0 Hstep.
  assert (forall k s1, (forall a, a ∈ k -> a ∈ l) -> forall d, P d s1 -> each body s1 k = Some s' ->
    P (d ++ k)%list s') as Hgen.
  { induction k as [|a k IH]; intros s1 Hin d Hd Hk; simpl in Hk.
    - injection Hk as ->. by rewrite app_nil_r.
    - destruct (body s1 a) as [s2|] eqn:E; [|done].
      replace (d ++ a :: k)%list with ((d ++ [a]) ++ k)%list by (by rewrite <- app_assoc).
      apply (IH s2); [intros b Hb; by apply Hin, list_elem_of_further| |done].
      eapply Hstep; [apply Hin, list_elem_of_here|exact Hd|exact E]. }
  apply (Hgen l s) with (d := []); auto.
Qed.

(** ** The executing streams *)

Record currentGatewayAuthority := mkAuthorityResult {
  gaCurrent : gmap string string;
  gaMapped : gmap string string;
  gaProfile : RuntimeProfile;
  gaBinding : CurrentDiscordCredentialBinding }.

Definition emptyAuthority : currentGatewayAuthority :=
  mkAuthorityResult ∅ ∅ zeroProfile zeroBinding.

Definition errBindingUnavailable := ErrNew "current Discord credential binding unavailable".
Definition errBindingUnsupported := ErrNew "Panel current Discord credential binding unsupported".
Definition errBindingNull := ErrNew "Panel current Discord credential binding is null".
Definition errBindingVersion :=
  ErrNew "Panel current Discord credential binding version unsupported".

(** The loop over [cfg.Assignments]: the primaries, every assigned stream, and
    [result.current]. *)
Record assigned := mkAssigned {
  asPrimaries : gmap string StreamServiceAssignment;
  asAll : gset string;
  asCurrent : gmap string string }.

Definition assignment_valid (serviceID : string) (st : assigned) (a : StreamServiceAssignment)
    : bool :=
  canonical (ssStreamID a) && (ssServiceID a =s serviceID) && (ssServiceType a =s ServiceType)
  && ((ssAssignmentRole a =s "primary") || (ssAssignmentRole a =s "standby"))
  && negb (IsZero (ssAssignedAt a)) && negb (bool_decide (ssStreamID a ∈ asAll st)).

Definition assign_step (serviceID : string) (st : assigned) (a : StreamServiceAssignment)
    : option assigned :=
  if negb (assignment_valid serviceID st a) then None
  else
    let all := {[ssStreamID a]} ∪ asAll st in
    if ssAssignmentRole a =s "primary"
    then Some (mkAssigned (<[ssStreamID a := a]> (asPrimaries st)) all
                 (<[ssStreamID a := FormatRFC3339Nano (ssAssignedAt a)]> (asCurrent st)))
    else Some (mkAssigned (asPrimaries st) all (asCurrent st)).

(** The loop over the bindings: the streams seen, the selected profile and
    [result.mapped]. *)
Record bound := mkBound {
  boSeen : gset string;
  boSelected : string;
  boMapped : gmap string string }.

Definition binding_valid (serviceID : string) (primaries : gmap string StreamServiceAssignment)
    (st : bound) (b : CurrentDiscordCredentialBinding) : bool :=
  match primaries !! cbStreamID b with
  | None => false
  | Some a =>
      negb (bool_decide (cbStreamID b ∈ boSeen st))
      && (cbServiceID b =s serviceID) && (cbServiceType b =s ServiceType)
      && (cbAssignmentRole b =s "primary")
      && (cbAssignmentEpoch b =? ssAssignedAt a) && negb (IsZero (cbAssignmentEpoch b))
      && canonical (cbProfileID b) && (cbProfileOwnerServiceID b =s serviceID)
      && canonical (cbSecretName b) && canonical (cbFingerprint b)
      && cbReady b && (cbReadinessCode b =s "")
      && ((boSelected st =s "") || (boSelected st =s cbProfileID b))
  end.

Definition bind_step (serviceID : string) (primaries : gmap string StreamServiceAssignment)
    (st : bound) (b : CurrentDiscordCredentialBinding) : option bound :=
  if negb (binding_valid serviceID primaries st b) then None
  else Some (mkBound ({[cbStreamID b]} ∪ boSeen st) (cbProfileID b)
               (<[cbStreamID b := cbProfileID b]> (boMapped st))).

(** The profile the binding names agrees with its secret and fingerprint. *)
Definition profile_binds (p : RuntimeProfile) (b : CurrentDiscordCredentialBinding) : bool :=
  (stringConfig (rpConfig p) "bot_token_secret_name" =s cbSecretName b)
  && (stringConfig (rpConfig p) "bot_token_fingerprint" =s cbFingerprint b).

(** [ids[0]] after [sort.Strings(ids)] of the keys of [assignments]. *)
Definition first_id {V} (m : gmap string V) : string :=
  default "" (head (merge_sort strings.String.le (map_to_list m).*1)).

(** [currentDiscordGatewayAuthority]. The function returns the partial result
    beside an error; no caller reads it then, and the model leaves it out. *)
Definition currentDiscordGatewayAuthority (cfg : RuntimeConfig) (authenticatedServiceID : string)
    : currentGatewayAuthority + error :=
  let invalid := inr errBindingUnavailable in
  let service := rcService cfg in
  let serviceID := rsServiceID service in
  if negb (canonical serviceID) || (serviceID <>s authenticatedServiceID)
     || (rsServiceType service <>s ServiceType) then invalid
  else
  match rcCurrentDiscordBindings cfg with
  | None =>
      if negb (rcCurrentDiscordBindingsPresent cfg) then inr errBindingUnsupported
      else inr errBindingNull
  | Some envelope =>
  if negb (cdVersion envelope =? 1) then inr errBindingVersion
  else
  match cdBindings envelope with
  | None => invalid
  | Some bindings =>
  match each (assign_step serviceID) (mkAssigned ∅ ∅ ∅) (rcAssignments cfg) with
  | None => invalid
  | Some (mkAssigned primaries all current) =>
  if (bool_decide (all = ∅) && (rsCurrentStreamID service <>s ""))
     || (bool_decide (all <> ∅) && negb (bool_decide (rsCurrentStreamID service ∈ all)))
     || negb (mlen primaries =? Z.of_nat (length bindings)) then invalid
  else
  match each (bind_step serviceID primaries) (mkBound ∅ "" ∅) bindings with
  | None => invalid
  | Some (mkBound _ selected mapped) =>
  if mlen primaries =? 0 then inl (mkAuthorityResult current mapped zeroProfile zeroBinding)
  else
  match filter (fun p => rpID p = selected) (discord_profiles cfg) with
  | [profile] =>
      if (rpKind profile <>s "discord_config")
         || (stringConfig (rpConfig profile) "service_id" <>s serviceID) then invalid
      else if negb (forallb (profile_binds profile) bindings) then invalid
      else
        let binding := snd <$> list_find (fun b => cbStreamID b = first_id primaries) bindings in
        inl (mkAuthorityResult current mapped profile (default zeroBinding binding))
  | _ => invalid
  end
  end
  end
  end
  end.

(** ** The waiting streams *)

Record discordWaitingGatewaySelection := mkSelection {
  wsBinding : DiscordWaitingCredentialBinding;
  wsDefaults : gmap string VoiceDefaults;
  wsSelected : bool }.

Definition errMonitorVersion := ErrNew "discord_waiting_monitor_version_unsupported".
Definition errExecutionAuthority := ErrNew "discord_waiting_execution_authority_unavailable".
Definition errMonitorBinding := ErrNew "discord_waiting_monitor_binding_invalid".
Definition errCredentialsAmbiguous := ErrNew "discord_waiting_credentials_ambiguous".
Definition errTargetAmbiguous := ErrNew "discord_waiting_target_ambiguous".

(** [discordWaitingBindingEpoch] *)
Definition discordWaitingBindingEpoch (b : DiscordWaitingMonitorBinding) : string :=
  FormatRFC3339Nano (wcSelectionEpoch (wbCredential b)) ++ "/" ++ itoa (wbTargetRevision b)
  ++ "/" ++ wcProfileRevision (wbCredential b).

Definition credential_key (secretName fingerprint : string) : string :=
  secretName ++ NUL ++ fingerprint.

Definition waiting_credential (b : DiscordWaitingMonitorBinding) : string :=
  credential_key (wcSecretName (wbCredential b)) (wcFingerprint (wbCredential b)).

Definition target_key (b : DiscordWaitingMonitorBinding) : string :=
  wbGuildID b ++ NUL ++ wbVoiceChannelID b.

(** The checks on a ready binding, before and after it is marked as seen. *)
Definition waiting_valid (serviceID : string) (seen : gset string)
    (b : DiscordWaitingMonitorBinding) : bool :=
  let c := wbCredential b in
  canonical (wcStreamID c) && negb (bool_decide (wcStreamID c ∈ seen))
  && (wcServiceID c =s serviceID) && (wcServiceType c =s ServiceType)
  && (wcProfileOwnerServiceID c =s serviceID)
  && canonical (wcProfileID c) && canonical (wcProfileRevision c)
  && negb (IsZero (wcSelectionEpoch c)) && canonical (wcSecretName c)
  && canonical (wcFingerprint c) && (wcReadinessCode c =s "")
  && canonical (wbGuildID b) && canonical (wbVoiceChannelID b)
  && negb (wbTargetRevision b =? 0) && (wbAutoStartTrigger b =s "discord_voice_join").

Definition secret_name_valid (secretName : string) : bool :=
  (secretName =s "discord_bot_token") || HasPrefix secretName "discord_bot_token_".

(** The loop over the bindings: the streams seen, the credentials, how many
    candidates have a target, and the candidates. *)
Record waiting := mkWaiting {
  waSeen : gset string;
  waCredentials : gset string;
  waCounts : gmap string Z;
  waCandidates : list DiscordWaitingMonitorBinding }.

Definition waiting_step (serviceID activeCredential : string) (st : waiting)
    (b : DiscordWaitingMonitorBinding) : option waiting :=
  if negb (wcReady (wbCredential b)) then Some st
  else if negb (waiting_valid serviceID (waSeen st) b) then None
  else
    let seen := {[wcStreamID (wbCredential b)]} ∪ waSeen st in
    if negb (secret_name_valid (wcSecretName (wbCredential b))) then None
    else if (activeCredential <>s "") && (waiting_credential b <>s activeCredential)
    then Some (mkWaiting seen (waCredentials st) (waCounts st) (waCandidates st))
    else Some (mkWaiting seen ({[waiting_credential b]} ∪ waCredentials st)
                 (<[target_key b := mint (waCounts st) (target_key b) + 1]> (waCounts st))
                 (waCandidates st ++ [b])%list).

Definition stream_le (b c : DiscordWaitingMonitorBinding) : Prop :=
  strings.String.le (wcStreamID (wbCredential b)) (wcStreamID (wbCredential c)).

#[export] Instance stream_le_dec : RelDecision stream_le.
Proof. intros b c. unfold stream_le. apply _. Defined.

Definition waiting_defaults (b : DiscordWaitingMonitorBinding) : VoiceDefaults :=
  mkVoiceDefaults (discordWaitingBindingEpoch b) (wbGuildID b) (wbVoiceChannelID b)
    (wbTextChannelID b) true.

(** The loop over the sorted candidates. *)
Definition select_step (counts : gmap string Z) (result : discordWaitingGatewaySelection)
    (b : DiscordWaitingMonitorBinding) : discordWaitingGatewaySelection :=
  if negb (mint counts (target_key b) =? 1) then result
  else mkSelection (if wsSelected result then wsBinding result else wbCredential b)
         (<[wcStreamID (wbCredential b) := waiting_defaults b]> (wsDefaults result)) true.

(** The credential of the execution, when the Panel says one is active. *)
Definition active_credential (monitor : DiscordWaitingMonitor) (active : currentGatewayAuthority)
    : string :=
  if wmExecutionActive monitor && negb (bool_decide (gaCurrent active = ∅))
  then credential_key (cbSecretName (gaBinding active)) (cbFingerprint (gaBinding active))
  else "".

(** [selectDiscordWaitingGateway] *)
Definition selectDiscordWaitingGateway (cfg : RuntimeConfig) (active : currentGatewayAuthority)
    : discordWaitingGatewaySelection + error :=
  match rcDiscordWaitingMonitor cfg with
  | None => inr errMonitorVersion
  | Some monitor =>
  match wmBindings monitor with
  | None => inr errMonitorVersion
  | Some bindings =>
  if negb (wmVersion monitor =? 1) then inr errMonitorVersion
  else
  let serviceID := TrimSpace (rsServiceID (rcService cfg)) in
  if wmExecutionActive monitor && bool_decide (gaCurrent active = ∅)
  then inr errExecutionAuthority
  else
  let activeCredential := active_credential monitor active in
  if (wmAvailabilityCode monitor <>s "") && (activeCredential =s "")
  then inr (ErrNew (wmAvailabilityCode monitor))
  else
  match each (waiting_step serviceID activeCredential) (mkWaiting ∅ ∅ ∅ []) bindings with
  | None => inr errMonitorBinding
  | Some (mkWaiting _ credentials counts candidates) =>
  if 1 <? Z.of_nat (size credentials) then inr errCredentialsAmbiguous
  else
  let result := fold_left (select_step counts) (merge_sort stream_le candidates)
                  (mkSelection zeroWaitingCredential ∅ false) in
  if bool_decide (candidates <> []) && negb (wsSelected result)
  then inr errTargetAmbiguous
  else inl result
  end
  end
  end.

(** ** The executing credential is the one every binding names *)

Definition is_primary (a : StreamServiceAssignment) (id : string) : Prop :=
  ssAssignmentRole a = "primary" /\ ssStreamID a = id.

Record assigned_ok (l : list StreamServiceAssignment) (st : assigned) : Prop := {
  ao_all : forall id, id ∈ asAll st <-> exists a, a ∈ l /\ ssStreamID a = id;
  ao_primary : forall id a, asPrimaries st !! id = Some a <-> a ∈ l /\ is_primary a id;
  ao_current : asCurrent st = (FormatRFC3339Nano ∘ ssAssignedAt) <$> asPrimaries st }.

Lemma assigned_ok_empty : assigned_ok [] (mkAssigned ∅ ∅ ∅).
Proof.
  split; simpl.
  - intros id. split; [set_solver|]. by intros (a & Ha%not_elem_of_nil & _).
  - intros id a. rewrite lookup_empty. split; [done|]. by intros [Ha%not_elem_of_nil _].
  - by rewrite fmap_empty.
Qed.

Lemma exists_snoc {A} (P : A -> Prop) (l : list A) a :
  (exists b, b ∈ (l ++ [a])%list /\ P b) <-> P a \/ exists b, b ∈ l /\ P b.
Proof.
  setoid_rewrite elem_of_app. setoid_rewrite list_elem_of_singleton. split.
  - intros (b & [Hb| ->] & HP); [right; by exists b|by left].
  - intros [HP|(b & Hb & HP)]; [exists a|exists b]; auto.
Qed.

Lemma assign_step_ok serviceID l st a st' :
  assigned_ok l st -> assign_step serviceID st a = Some st' -> assigned_ok (l ++ [a])%list st'.
Proof.
  intros [Hall Hp Hc]. unfold assign_step, assignment_valid.
  destruct (_ && _) eqn:E; [|done]. bool_hyps. cbn [negb].
  assert (forall b, b ∈ l -> ssStreamID b <> ssStreamID a) as Hfresh.
  { intros b Hb Hs. match goal with H : ssStreamID a ∉ _ |- _ => apply H end.
    apply Hall. by exists b. }
  destruct (ssAssignmentRole a =s "primary") eqn:Er; bool_hyps; intros [= <-]; split; simpl.
  - intros id. rewrite elem_of_union, elem_of_singleton, Hall, exists_snoc. intuition congruence.
  - intros id b. rewrite elem_of_app, list_elem_of_singleton.
    destruct (decide (id = ssStreamID a)) as [->|Hne].
    + rewrite lookup_insert_eq. unfold is_primary. split; [intros [= <-]; auto|].
      intros [[Hb| ->] [_ Hs]]; [|done]. by destruct (Hfresh b).
    + rewrite lookup_insert_ne, Hp by done. unfold is_primary. intuition congruence.
  - by rewrite fmap_insert, Hc.
  - intros id. rewrite elem_of_union, elem_of_singleton, Hall, exists_snoc. intuition congruence.
  - intros id b. rewrite elem_of_app, list_elem_of_singleton, Hp. unfold is_primary.
    intuition congruence.
  - done.
Qed.

Lemma assignments_ok serviceID l st :
  each (assign_step serviceID) (mkAssigned ∅ ∅ ∅) l = Some st -> assigned_ok l st.
Proof.
  intros He. eapply each_inv; [exact He|apply assigned_ok_empty|].
  intros done a s1 s2 _ Hok Hs. by eapply assign_step_ok.
Qed.

(** What an accepted binding was checked for. *)
Definition binding_facts (primaries : gmap string StreamServiceAssignment)
    (b : CurrentDiscordCredentialBinding) : Prop :=
  cbReady b = true /\ cbReadinessCode b = "" /\ cbAssignmentRole b = "primary" /\
  cbProfileID b <> "" /\ cbSecretName b <> "" /\ cbFingerprint b <> "" /\
  exists a, primaries !! cbStreamID b = Some a /\ cbAssignmentEpoch b = ssAssignedAt a.

Record bound_ok primaries (l : list CurrentDiscordCredentialBinding) (st : bound) : Prop := {
  bo_nodup : NoDup (cbStreamID <$> l);
  bo_seen : boSeen st = list_to_set (cbStreamID <$> l);
  bo_facts : forall b, b ∈ l -> binding_facts primaries b /\ cbProfileID b = boSelected st;
  bo_mapped : forall id p, boMapped st !! id = Some p <->
    p = boSelected st /\ id ∈ cbStreamID <$> l }.

Lemma canonical_nonempty s : canonical s = true -> s <> "".
Proof. unfold canonical. intros E. by bool_hyps. Qed.

Lemma bind_step_ok serviceID primaries l st b st' :
  bound_ok primaries l st -> bind_step serviceID primaries st b = Some st' ->
  bound_ok primaries (l ++ [b])%list st'.
Proof.
  intros [Hnd Hseen Hfacts Hm]. unfold bind_step, binding_valid.
  destruct (primaries !! cbStreamID b) as [a|] eqn:Ea; [|done].
  destruct (_ && _) eqn:E; [|done]. bool_hyps. cbn [negb]. intros [= <-].
  assert (binding_facts primaries b) as Hb.
  { unfold binding_facts. repeat split; try done; try (by apply canonical_nonempty). by exists a. }
  assert (forall c, c ∈ l -> cbProfileID c = cbProfileID b) as Hsame.
  { intros c Hc. destruct (Hfacts c Hc) as [(_ & _ & _ & Hne & _) Hs].
    match goal with H : _ || _ = true |- _ => apply orb_prop in H as [H|H] end; bool_hyps; congruence. }
  assert (forall id, id ∈ cbStreamID <$> l -> boSelected st = cbProfileID b) as Hsel.
  { intros id (c & _ & Hc)%list_elem_of_fmap. rewrite <- (Hsame c Hc). symmetry.
    apply (Hfacts c Hc). }
  assert (cbStreamID b ∉ cbStreamID <$> l) as Hnew.
  { match goal with H : cbStreamID b ∉ _ |- _ => rewrite Hseen, elem_of_list_to_set in H end. done. }
  split; simpl.
  - rewrite fmap_app. apply NoDup_app. split; [done|]. split; [|apply NoDup_singleton].
    intros x Hx Hx'. apply list_elem_of_singleton in Hx'. by subst x.
  - rewrite Hseen, fmap_app, list_to_set_app_L. simpl. set_solver.
  - intros c [Hc| ->%list_elem_of_singleton]%elem_of_app; [|done].
    split; [by apply Hfacts|]. by apply Hsame.
  - intros id p. rewrite fmap_app, elem_of_app. cbn [fmap list_fmap].
    rewrite list_elem_of_singleton. destruct (decide (id = cbStreamID b)) as [->|Hne].
    + rewrite lookup_insert_eq. split; [intros [= <-]; auto|]. by intros [-> _].
    + rewrite lookup_insert_ne, Hm by done. split; intros [-> Hin].
      * split; [by apply (Hsel id)|by left].
      * destruct Hin as [Hin| ->]; [|done]. split; [|done]. symmetry. by apply (Hsel id).
Qed.

Lemma bindings_ok serviceID primaries l st :
  each (bind_step serviceID primaries) (mkBound ∅ "" ∅) l = Some st -> bound_ok primaries l st.
Proof.
  intros He. eapply each_inv; [exact He| |].
  - split; simpl; [constructor|done|by intros b ?%not_elem_of_nil|].
    intros id p. rewrite lookup_empty. split; [done|]. by intros [_ ?%not_elem_of_nil].
  - intros done b s1 s2 _ Hok Hs. by eapply bind_step_ok.
Qed.

(** As many bindings as primaries, all different, cover the primaries. *)
Lemma bindings_cover primaries l st :
  bound_ok primaries l st -> mlen primaries = Z.of_nat (length l) ->
  forall id, is_Some (primaries !! id) -> id ∈ cbStreamID <$> l.
Proof.
  intros [Hnd _ Hfacts _] Hlen id Hid.
  assert (list_to_set (cbStreamID <$> l) = dom primaries) as Hdom.
  { apply leibniz_equiv, set_subseteq_size_equiv.
    - intros x. rewrite elem_of_list_to_set, list_elem_of_fmap, elem_of_dom.
      intros (b & -> & Hb). destruct (Hfacts b Hb) as [(_ & _ & _ & _ & _ & _ & a & Ha & _) _].
      by exists a.
    - rewrite size_list_to_set by done. rewrite length_fmap, size_dom. unfold mlen in Hlen. lia. }
  rewrite <- (elem_of_list_to_set (C := gset string)), Hdom. by apply elem_of_dom.
Qed.

Lemma first_id_spec {V} (m : gmap string V) :
  m <> ∅ -> is_Some (m !! first_id m) /\
  forall id, is_Some (m !! id) -> strings.String.le (first_id m) id.
Proof.
  intros Hm. unfold first_id.
  pose proof (merge_sort_Permutation strings.String.le (map_to_list m).*1) as Hp.
  pose proof (StronglySorted_merge_sort strings.String.le (map_to_list m).*1) as Hs.
  assert (forall id, is_Some (m !! id) <-> id ∈ merge_sort strings.String.le (map_to_list m).*1) as Hin.
  { intros id. rewrite Hp, list_elem_of_fmap. split.
    - intros [v Hv]. exists (id, v). split; [done|]. by apply elem_of_map_to_list.
    - intros ([k v] & -> & Hv%elem_of_map_to_list). by exists v. }
  destruct (merge_sort strings.String.le (map_to_list m).*1) as [|x l] eqn:E.
  { exfalso. apply Hm, map_empty. intros i. apply eq_None_not_Some. rewrite Hin.
    apply not_elem_of_nil. }
  cbn [head default]. split; [apply Hin, list_elem_of_here|].
  intros id [-> | Hid]%Hin%elem_of_cons; [reflexivity|].
  apply StronglySorted_inv in Hs as [_ Hf]. rewrite Forall_forall in Hf. by apply Hf.
Qed.

(** What is established once both loops have accepted. *)
Lemma accepted_bindings serviceID assignments bindings primaries all current seen selected mapped :
  each (assign_step serviceID) (mkAssigned ∅ ∅ ∅) assignments
    = Some (mkAssigned primaries all current) ->
  each (bind_step serviceID primaries) (mkBound ∅ "" ∅) bindings
    = Some (mkBound seen selected mapped) ->
  mlen primaries = Z.of_nat (length bindings) ->
  (forall id e, current !! id = Some e <->
     exists a, a ∈ assignments /\ is_primary a id /\ e = FormatRFC3339Nano (ssAssignedAt a)) /\
  (forall id, is_Some (current !! id) <-> is_Some (primaries !! id)) /\
  (forall id p, mapped !! id = Some p <-> is_Some (current !! id) /\ p = selected) /\
  (forall b, b ∈ bindings -> cbReady b = true /\ cbProfileID b = selected /\
     exists a, a ∈ assignments /\ is_primary a (cbStreamID b) /\ cbAssignmentEpoch b = ssAssignedAt a) /\
  (forall id, is_Some (current !! id) -> exists b, b ∈ bindings /\ cbStreamID b = id).
Proof.
  intros [_ Hp Hc]%assignments_ok Hb Hlen. simpl in *. apply bindings_ok in Hb.
  pose proof (bindings_cover _ _ _ Hb Hlen) as Hcover. destruct Hb as [_ _ Hfacts Hm]. simpl in *.
  assert (forall id, is_Some (current !! id) <-> is_Some (primaries !! id)) as Hdom
    by (intros id; rewrite Hc, lookup_fmap, fmap_is_Some; done).
  split; [|split; [done|split; [|split]]].
  - intros id e. rewrite Hc, lookup_fmap, fmap_Some. split.
    + intros (a & [Ha Hr]%Hp & ->). by exists a.
    + intros (a & Ha & Hr & ->). exists a. split; [by apply Hp|done].
  - intros id p. rewrite Hm, Hdom. split.
    + intros [-> (b & -> & Hb)%list_elem_of_fmap]. split; [|done].
      destruct (Hfacts b Hb) as [(_ & _ & _ & _ & _ & _ & a & Ha & _) _]. by exists a.
    + intros [Hid ->]. split; [done|]. by apply Hcover.
  - intros b Hb. destruct (Hfacts b Hb) as [(Hr & _ & _ & _ & _ & _ & a & Ha & He) Hs].
    split; [done|]. split; [done|]. exists a. apply Hp in Ha as [??]. done.
  - intros id (b & -> & Hb)%Hdom%Hcover%list_elem_of_fmap. by exists b.
Qed.

(** C26: a credential is selected only by a complete and unanimous authority. When
    [currentDiscordGatewayAuthority] accepts a configuration for this service,
    the executing streams are exactly the primary assignments, with their
    assignment times as epochs. If there are any, each of them has a ready
    binding made for its current assignment, all bindings name one profile, one
    secret and one fingerprint, that profile is the only one of its id, belongs
    to this service and carries the same secret and fingerprint, and the
    binding returned is that of the first stream. *)
Theorem current_authority_sound cfg svc au :
  currentDiscordGatewayAuthority cfg svc = inl au ->
  let b0 := gaBinding au in
  rsServiceID (rcService cfg) = svc /\
  (forall id e, gaCurrent au !! id = Some e <-> exists a, a ∈ rcAssignments cfg /\
     is_primary a id /\ e = FormatRFC3339Nano (ssAssignedAt a)) /\
  (forall id p, gaMapped au !! id = Some p <->
     is_Some (gaCurrent au !! id) /\ p = cbProfileID b0) /\
  (gaCurrent au <> ∅ -> exists env bindings,
     rcCurrentDiscordBindings cfg = Some env /\ cdBindings env = Some bindings /\ b0 ∈ bindings /\
     (forall id, is_Some (gaCurrent au !! id) ->
        strings.String.le (cbStreamID b0) id /\ exists b, b ∈ bindings /\ cbStreamID b = id) /\
     filter (fun p => rpID p = cbProfileID b0) (discord_profiles cfg) = [gaProfile au] /\
     stringConfig (rpConfig (gaProfile au)) "service_id" = svc /\
     (forall b, b ∈ bindings -> cbReady b = true /\ cbProfileID b = cbProfileID b0 /\
        cbSecretName b = cbSecretName b0 /\ cbFingerprint b = cbFingerprint b0 /\
        exists a, a ∈ rcAssignments cfg /\ is_primary a (cbStreamID b) /\
          cbAssignmentEpoch b = ssAssignedAt a)).
Proof.
  unfold currentDiscordGatewayAuthority. cbv zeta.
  destruct (_ || _) eqn:E0; [done|]. bool_hyps.
  destruct (rcCurrentDiscordBindings cfg) as [env|] eqn:Eenv; [|by case_match].
  destruct (negb (cdVersion env =? 1)); [done|].
  destruct (cdBindings env) as [bindings|] eqn:Eb; [|done].
  destruct (each (assign_step _) _ _) as [[primaries all current]|] eqn:Ea; [|done].
  destruct (_ || _) eqn:E1; [done|]. bool_hyps.
  destruct (each (bind_step _ _) _ _) as [[seen selected mapped]|] eqn:Eb2; [|done].
  destruct (accepted_bindings _ _ _ _ _ _ _ _ _ Ea Eb2) as (Hcur & Hdom & Hmap & Hbs & Hcover); [done|].
  destruct (mlen primaries =? 0) eqn:E2; bool_hyps.
  - intros [= <-]. cbn [gaCurrent gaMapped gaBinding gaProfile].
    assert (current = ∅) as ->.
    { apply map_empty. intros i. apply eq_None_not_Some. rewrite Hdom.
      unfold mlen in E2. assert (size primaries = 0%nat) as Hz by lia.
      apply map_size_empty_inv in Hz as ->. rewrite lookup_empty. by intros []. }
    split; [done|]. split; [done|]. split; [|done].
    intros id p. rewrite Hmap, lookup_empty. split; by intros [[] _].
  - destruct (filter _ _) as [|profile [|]] eqn:Ef; try done.
    destruct (_ || _) eqn:E3; [done|]. bool_hyps.
    destruct (forallb _ _) eqn:E4; [|done]. cbn [negb]. intros [= <-].
    cbn [gaCurrent gaMapped gaBinding gaProfile].
    assert (primaries <> ∅) as Hne by (intros ->; by apply E2).
    destruct (first_id_spec primaries Hne) as [Hf1 Hf2].
    destruct (Hcover (first_id primaries)) as (b1 & Hb1 & Hid1); [by apply Hdom|].
    destruct (list_find (fun b => cbStreamID b = first_id primaries) bindings)
      as [[i b0]|] eqn:Efind.
    2:{ apply list_find_None in Efind. rewrite Forall_forall in Efind. by destruct (Efind b1). }
    apply list_find_Some in Efind as (Hi & Hid0 & _). cbn [fmap option_fmap option_map snd].
    change (default zeroBinding (Some b0)) with b0. cbv zeta.
    assert (b0 ∈ bindings) as Hb0 by (by eapply list_elem_of_lookup_2).
    destruct (Hbs b0 Hb0) as (_ & Hsel & _). rewrite Hsel.
    split; [done|]. split; [done|]. split; [done|]. intros _. exists env, bindings.
    split; [done|]. split; [done|]. split; [done|]. split; [|split; [done|split; [congruence|]]].
    + intros id Hid. rewrite Hid0. split; [by apply Hf2, Hdom|by apply Hcover].
    + intros b Hb. destruct (Hbs b Hb) as (Hr & Hp & Ha). split; [done|]. split; [done|].
      rewrite forallb_forall in E4. pose proof (E4 b) as Hb'. pose proof (E4 b0) as Hb0'.
      rewrite <- !list_elem_of_In in *. unfold profile_binds in *.
      specialize (Hb' Hb). specialize (Hb0' Hb0). bool_hyps. split; [congruence|]. split; [congruence|done].
Qed.

(** ** The waiting selection *)

(** A waiting binding that may be used beside [activeCredential]. *)
Definition candidate_ok (serviceID activeCredential : string) (b : DiscordWaitingMonitorBinding)
    : Prop :=
  wcReady (wbCredential b) = true /\ wcServiceID (wbCredential b) = serviceID /\
  wbAutoStartTrigger b = "discord_voice_join" /\
  wbGuildID b <> "" /\ wbVoiceChannelID b <> "" /\
  (activeCredential <> "" -> waiting_credential b = activeCredential).

Definition same_target (k : string) (l : list DiscordWaitingMonitorBinding) :=
  filter (fun b => target_key b = k) l.

Record waiting_ok (serviceID activeCredential : string)
    (l : list DiscordWaitingMonitorBinding) (st : waiting) : Prop := {
  wo_candidates : forall b, b ∈ waCandidates st ->
    b ∈ l /\ candidate_ok serviceID activeCredential b /\ waiting_credential b ∈ waCredentials st;
  wo_nodup : NoDup ((wcStreamID ∘ wbCredential) <$> waCandidates st);
  wo_seen : forall b, b ∈ waCandidates st -> wcStreamID (wbCredential b) ∈ waSeen st;
  wo_counts : forall k, mint (waCounts st) k = Z.of_nat (length (same_target k (waCandidates st))) }.

Lemma waiting_step_ok serviceID ac l st b st' :
  waiting_ok serviceID ac l st -> waiting_step serviceID ac st b = Some st' ->
  waiting_ok serviceID ac (l ++ [b])%list st'.
Proof.
  intros [Hc Hnd Hseen Hn]. unfold waiting_step.
  assert (forall st1, waCandidates st1 = waCandidates st -> waCredentials st1 = waCredentials st ->
    waCounts st1 = waCounts st -> (forall x, x ∈ waSeen st -> x ∈ waSeen st1) ->
    waiting_ok serviceID ac (l ++ [b])%list st1) as Hkeep.
  { intros st1 E1 E2 E3 Hs. split; rewrite ?E1, ?E2, ?E3; try done.
    - intros c Hc'. destruct (Hc c Hc') as (Hl & Hrest). split; [|done]. apply elem_of_app. by left.
    - intros c Hc'. by apply Hs, Hseen. }
  destruct (wcReady (wbCredential b)) eqn:Er; cbn [negb]; [|intros [= <-]; by apply Hkeep].
  unfold waiting_valid. destruct (_ && _) eqn:E; [|done]. bool_hyps. cbn [negb].
  destruct (negb (secret_name_valid _)); [done|].
  destruct (_ && _) eqn:E2; intros [= <-]; [apply Hkeep; simpl; set_solver|].
  assert (candidate_ok serviceID ac b) as Hb.
  { unfold candidate_ok. repeat split; try done; try by apply canonical_nonempty.
    intros Hac. apply andb_false_elim in E2 as [E2|E2]; by bool_hyps. }
  split; simpl.
  - intros c [Hc'| ->%list_elem_of_singleton]%elem_of_app; rewrite elem_of_app, elem_of_union.
    + destruct (Hc c Hc') as (? & ? & ?). auto.
    + rewrite list_elem_of_singleton, elem_of_singleton. auto.
  - rewrite fmap_app. apply NoDup_app. split; [done|]. split; [|apply NoDup_singleton].
    intros x (c & -> & Hc')%list_elem_of_fmap Hx. apply list_elem_of_singleton in Hx. simpl in Hx.
    match goal with H : _ ∉ waSeen st |- _ => apply H end. rewrite <- Hx. by apply Hseen.
  - intros c [Hc'| ->%list_elem_of_singleton]%elem_of_app; [|set_solver].
    apply elem_of_union. right. by apply Hseen.
  - intros k. unfold same_target. rewrite filter_app, length_app, filter_cons, filter_nil.
    fold (same_target k (waCandidates st)).
    destruct (decide (target_key b = k)) as [<-|Hne].
    + rewrite mread_insert_eq, Hn. simpl. lia.
    + rewrite mread_insert_ne, Hn by done. simpl. lia.
Qed.

Lemma waitings_ok serviceID ac l st :
  each (waiting_step serviceID ac) (mkWaiting ∅ ∅ ∅ []) l = Some st -> waiting_ok serviceID ac l st.
Proof.
  intros He. eapply each_inv; [exact He| |].
  - split; simpl; [by intros b ?%not_elem_of_nil|constructor|by intros b ?%not_elem_of_nil|].
    intros k. unfold mread. by rewrite lookup_empty.
  - intros done b s1 s2 _ Hok Hs. by eapply waiting_step_ok.
Qed.

(** The candidates alone on their target. *)
Definition alone (counts : gmap string Z) (b : DiscordWaitingMonitorBinding) : Prop :=
  mint counts (target_key b) = 1.

Record select_ok (counts : gmap string Z) (l : list DiscordWaitingMonitorBinding)
    (result : discordWaitingGatewaySelection) : Prop := {
  so_defaults : forall id d, wsDefaults result !! id = Some d ->
    exists b, b ∈ l /\ alone counts b /\ wcStreamID (wbCredential b) = id /\ d = waiting_defaults b;
  so_selected : wsSelected result = true <-> wsDefaults result <> ∅;
  so_binding : wsSelected result = true -> exists b, b ∈ l /\ wsBinding result = wbCredential b }.

Lemma select_fold_ok counts l :
  select_ok counts l
    (fold_left (select_step counts) l (mkSelection zeroWaitingCredential ∅ false)).
Proof.
  induction l as [|b l IH] using rev_ind.
  { split; simpl; [intros id d; by rewrite lookup_empty|done|done]. }
  rewrite fold_left_app. cbn [fold_left].
  destruct (fold_left _ l _) as [wb ds sel]. destruct IH as [Hd Hs Hb].
  unfold select_step. destruct (Z.eqb_spec (mint counts (target_key b)) 1) as [E|E]; cbn [negb].
  - split; simpl in *.
    + intros id d [[<- <-]|[Hne Hl]]%lookup_insert_Some.
      * exists b. rewrite elem_of_app, list_elem_of_singleton. auto.
      * destruct (Hd id d Hl) as (c & Hc & Hrest). exists c. rewrite elem_of_app. auto.
    + split; [|done]. intros _. apply insert_non_empty.
    + intros _. destruct sel.
      * destruct (Hb eq_refl) as (c & Hc & ->). exists c. rewrite elem_of_app. auto.
      * exists b. rewrite elem_of_app, list_elem_of_singleton. auto.
  - split; simpl in *; [|done|].
    + intros id d Hl. destruct (Hd id d Hl) as (c & Hc & Hrest). exists c. rewrite elem_of_app. auto.
    + intros Hsel. destruct (Hb Hsel) as (c & Hc & ->). exists c. rewrite elem_of_app. auto.
Qed.

Lemma alone_unique l counts b c :
  (forall k, mint counts k = Z.of_nat (length (same_target k l))) ->
  alone counts b -> b ∈ l -> c ∈ l -> target_key c = target_key b -> c = b.
Proof.
  intros Hn Ha Hb Hc Hk. unfold alone in Ha. rewrite Hn in Ha.
  destruct (same_target (target_key b) l) as [|x [|]] eqn:E; simpl in Ha; [lia| |lia].
  assert (b ∈ [x]) as ->%list_elem_of_singleton by (rewrite <- E; by apply list_elem_of_filter).
  assert (c ∈ [x]) as ->%list_elem_of_singleton by (rewrite <- E; by apply list_elem_of_filter).
  done.
Qed.

Lemma same_credential (credentials : gset string) x y :
  (1 <? Z.of_nat (size credentials)) = false -> x ∈ credentials -> y ∈ credentials -> x = y.
Proof.
  intros Hs Hx Hy. bool_hyps. eapply (size_singleton_inv credentials x y); [|done|done].
  assert (size credentials <> 0%nat); [|lia]. rewrite size_non_empty_iff. set_solver.
Qed.

(** Waiting for streams never widens the bot's authority. When
    [selectDiscordWaitingGateway] accepts a configuration, every stream it will
    start on a voice join comes from a ready waiting binding of this service
    that allows that trigger and names a guild and a voice channel; all of them
    use the credential of the binding selected, which during an execution is
    the credential of that execution; no two of them wait in the same voice
    channel; and a binding is selected exactly when there is such a stream. *)
Theorem waiting_selection_sound cfg active sel :
  selectDiscordWaitingGateway cfg active = inl sel ->
  exists monitor bindings,
    rcDiscordWaitingMonitor cfg = Some monitor /\ wmBindings monitor = Some bindings /\
    (forall id d, wsDefaults sel !! id = Some d -> exists b, b ∈ bindings /\
       candidate_ok (TrimSpace (rsServiceID (rcService cfg))) "" b /\
       wcStreamID (wbCredential b) = id /\ d = waiting_defaults b /\
       waiting_credential b
       = credential_key (wcSecretName (wsBinding sel)) (wcFingerprint (wsBinding sel)) /\
       (wmExecutionActive monitor = true -> waiting_credential b
        = credential_key (cbSecretName (gaBinding active)) (cbFingerprint (gaBinding active)))) /\
    (forall id1 id2 d1 d2, wsDefaults sel !! id1 = Some d1 -> wsDefaults sel !! id2 = Some d2 ->
       vdGuildID d1 = vdGuildID d2 -> vdVoiceChannelID d1 = vdVoiceChannelID d2 -> id1 = id2) /\
    (wsSelected sel = true <-> wsDefaults sel <> ∅).
Proof.
  unfold selectDiscordWaitingGateway. cbv zeta.
  destruct (rcDiscordWaitingMonitor cfg) as [monitor|] eqn:Em; [|done].
  destruct (wmBindings monitor) as [bindings|] eqn:Eb; [|done].
  destruct (negb (wmVersion monitor =? 1)); [done|].
  destruct (wmExecutionActive monitor && bool_decide (gaCurrent active = ∅)) eqn:E1; [done|].
  destruct ((wmAvailabilityCode monitor <>s "") && _); [done|].
  destruct (each _ _ _) as [[seen credentials counts candidates]|] eqn:Ee; [|done].
  destruct (1 <? _) eqn:Es; [done|]. apply waitings_ok in Ee as [Hc Hnd _ Hn]. simpl in *.
  pose proof (select_fold_ok counts (merge_sort stream_le candidates)) as Hsel.
  pose proof (merge_sort_Permutation stream_le candidates) as Hperm.
  destruct (fold_left _ _ _) as [wb ds s]. destruct Hsel as [Hd Hs Hb].
  destruct (bool_decide (candidates <> []) && _); [done|]. intros [= <-]. simpl in *. exists monitor, bindings.
  split; [done|]. split; [done|]. split; [|split; [|done]].
  - intros id d Hl. destruct (Hd id d Hl) as (b & Hin & _ & Hid & Hdef). rewrite Hperm in Hin.
    destruct (Hc b Hin) as (Hbl & (Hr & Hsv & Ht & Hg & Hv & Hac) & Hcr). exists b.
    split; [done|]. split; [by repeat split|]. split; [done|]. split; [done|]. split.
    + assert (s = true) as Hs1 by (apply Hs; intros ->; by rewrite lookup_empty in Hl).
      destruct (Hb Hs1) as (c & Hcin & ->). rewrite Hperm in Hcin.
      destruct (Hc c Hcin) as (_ & _ & Hcc). by eapply same_credential.
    + intros Hex. rewrite Hex in E1. cbn [andb] in E1. bool_hyps.
      unfold active_credential in Hac. rewrite Hex in Hac.
      rewrite bool_decide_eq_false_2 in Hac by done. cbn [andb negb] in Hac. apply Hac.
      unfold credential_key. by destruct (cbSecretName (gaBinding active)).
  - intros id1 id2 d1 d2 H1 H2 Hg Hv.
    destruct (Hd id1 d1 H1) as (b1 & Hb1 & Ha1 & <- & ->). destruct (Hd id2 d2 H2) as (b2 & Hb2 & _ & <- & ->).
    rewrite Hperm in Hb1, Hb2. simpl in Hg, Hv. do 2 f_equal. symmetry.
    eapply alone_unique; [exact Hn|done..|]. unfold target_key. by rewrite Hg, Hv.
Qed.

(** ** Witnesses: one executing stream, one waiting stream *)
Module Sample.
Definition assignment : StreamServiceAssignment :=
  mkAssignment "s1" "bot" ServiceType "primary" (738944 * 86400 * Second).

Definition binding : CurrentDiscordCredentialBinding :=
  mkBinding "s1" "bot" ServiceType "primary" (738944 * 86400 * Second) "p1" "bot"
    "discord_bot_token" "f1" true "".

Definition profile : RuntimeProfile :=
  mkProfile "p1" "discord_config" "main"
    {["service_id" := AnyString "bot"; "bot_token_secret_name" := AnyString "discord_bot_token";
      "bot_token_fingerprint" := AnyString "f1"]} 1 1.

Definition waiting_binding : DiscordWaitingMonitorBinding :=
  mkWaitingBinding (mkWaitingCredential "s2" "bot" ServiceType 5 "p1" "r1" "bot"
    "discord_bot_token" "f1" true "") "g" "v" "t" 3 "discord_voice_join".

Definition cfg : RuntimeConfig :=
  mkRuntimeConfig (mkService "bot" ServiceType "s1") [assignment]
    {["discord_config" := [profile]]} [] (Some (mkBindings 1 (Some [binding]))) true
    (Some (mkMonitor 1 true "" (Some [waiting_binding]))) true.

Definition authority : currentGatewayAuthority :=
  mkAuthorityResult {["s1" := "2024-02-29T00:00:00Z"]} {["s1" := "p1"]} profile binding.

Definition selection : discordWaitingGatewaySelection :=
  mkSelection (wbCredential waiting_binding) {["s2" := waiting_defaults waiting_binding]} true.

Lemma cfg_authority : currentDiscordGatewayAuthority cfg "bot" = inl authority.
Proof. vm_compute. reflexivity. Qed.

Lemma cfg_selection : selectDiscordWaitingGateway cfg authority = inl selection.
Proof. vm_compute. reflexivity. Qed.

Lemma current_authority_sound_witness :
  gaCurrent authority !! "s1" = Some "2024-02-29T00:00:00Z" /\
  filter (fun p => rpID p = "p1") (discord_profiles cfg) = [profile].
Proof.
  destruct (current_authority_sound cfg "bot" authority cfg_authority) as (_ & Hc & _ & Hb).
  split.
  - apply Hc. exists assignment. split; [apply list_elem_of_here|]. split; [done|].
    vm_compute. reflexivity.
  - destruct Hb as (env & bindings & _ & _ & _ & _ & Hp & _); [discriminate|]. exact Hp.
Defined.

Lemma waiting_selection_sound_witness :
  wsDefaults selection !! "s2" = Some (waiting_defaults waiting_binding) /\
  exists b, waiting_credential b = credential_key "discord_bot_token" "f1".
Proof.
  destruct (waiting_selection_sound cfg authority selection cfg_selection)
    as (monitor & bindings & _ & _ & Hd & _ & _).
  split; [vm_compute; reflexivity|].
  destruct (Hd "s2" (waiting_defaults waiting_binding)) as (b & _ & _ & _ & _ & Hc & _);
    [vm_compute; reflexivity|]. exists b. exact Hc.
Defined.
End Sample.
