(* ===== verification/Gateway.v ===== *)
(** * Gateway: from the runtime configuration to the Discord connection

    The credential state of the job manager
    ([internal/jobs/gateway_profile_authority.go], [voice_defaults.go],
    [runtime_gateway.go]) and the code of [cmd/discord-bot/main.go] and
    [discord_waiting_monitor.go] that reconciles it with a runtime
    configuration.  [Gateway] is the state under [gatewayCredentialMu]; calls of
    the Discord client, the Control Panel and the rest of the job manager are
    [GwCall]s. *)

From S2P Require Import Prelude Conc Errors Types RuntimeConfig Authority.

Open Scope go_scope.

(** ** State *)

Record GatewayProfileAuthority := mkGatewayProfile { gpEpoch : string; gpProfileID : string }.

Definition zeroGatewayProfile : GatewayProfileAuthority := mkGatewayProfile "" "".

Record Gateway := mkGateway {
  gProfileAuthority : gmap string GatewayProfileAuthority;
  gCredentialReference : string;
  gCredentialToken : string;
  (* does the client implement ReconcileGateway, is a reconciler installed *)
  gVoiceReconciles : bool;
  gReconciler : option nat }.

Definition eta_Gateway (r : Gateway) : Gateway :=
  mkGateway (gProfileAuthority r) (gCredentialReference r) (gCredentialToken r)
    (gVoiceReconciles r) (gReconciler r).
#[export] Instance set_gProfileAuthority : Setter gProfileAuthority :=
  ltac:(mk_setter eta_Gateway).
#[export] Instance set_gCredentialReference : Setter gCredentialReference :=
  ltac:(mk_setter eta_Gateway).
#[export] Instance set_gCredentialToken : Setter gCredentialToken := ltac:(mk_setter eta_Gateway).
#[export] Instance set_gReconciler : Setter gReconciler := ltac:(mk_setter eta_Gateway).

(** Calls that leave this component. *)
Inductive GwCall : Type -> Type :=
| VoiceReconcileGateway (token : string) (selected : bool) : GwCall (option error)
| ResolveRuntimeSecretForCurrentBinding (b : CurrentDiscordCredentialBinding)
    : GwCall (string * option error)
| ResolveRuntimeSecretForWaitingBinding (b : DiscordWaitingCredentialBinding)
    : GwCall (string * option error)
| FetchRuntimeConfig : GwCall (RuntimeConfig * option error)
| CtxErr : GwCall (option error)
| RunReconciler (reconciler : nat) (cfg : RuntimeConfig) : GwCall (option error)
(* the rest of the job manager *)
| ManagerClearDefaults : GwCall unit
| ManagerCurrentStreamID : GwCall string
| ManagerApplyRuntimeConfig (cfg : RuntimeConfig) : GwCall unit.

Inductive gmutex := gatewayCredentialMu | runtimeRefreshMu.

Abbreviation gprog := (prog Gateway GwCall Empty_set gmutex).
Abbreviation gret := (@Ret Gateway GwCall Empty_set gmutex _).

(** ** The profile of the executing streams *)

Section Profiles.
Context `{MapRange}.

(** The first loop: an entry whose stream is gone or reassigned is deleted. *)
Definition prune_profiles (current : gmap string string)
    (authority : gmap string GatewayProfileAuthority) : gmap string GatewayProfileAuthority :=
  fold_left (fun acc kv =>
    if match current !! kv.1 with
       | Some epoch => epoch <>s gpEpoch kv.2
       | None => true
       end
    then delete kv.1 acc else acc) (map_range authority) authority.

(** The body of the second loop: the profile selected so far and [resolved]. *)
Definition profile_step (mapped : gmap string string) (mappingsPresent : bool)
    (authority : gmap string GatewayProfileAuthority) (st : string * gmap string string)
    (kv : string * string) : option (string * gmap string string) :=
  let '(selected, resolved) := st in
  let stream := kv.1 in
  let explicit := mread "" mapped stream in
  let '(profile, resolved) :=
    if explicit <>s "" then (explicit, <[stream := explicit]> resolved)
    else if negb mappingsPresent
    then (gpProfileID (mread zeroGatewayProfile authority stream), resolved)
    else ("", resolved) in
  if (profile =s "") || ((selected <>s "") && (selected <>s profile)) then None
  else Some (profile, resolved).

(** [GatewayProfileForAssignments] *)
Definition GatewayProfileForAssignments (current mapped : gmap string string)
    (mappingsPresent : bool) (g : Gateway) : (string * bool) * Gateway :=
  let authority := prune_profiles current (gProfileAuthority g) in
  match each (profile_step mapped mappingsPresent authority) ("", ∅) (map_range current) with
  | None =>
      (("", false),
       g <| gProfileAuthority :=
              fold_left (fun acc kv => delete kv.1 acc) (map_range current) authority |>)
  | Some (selected, resolved) =>
      let authority :=
        if mappingsPresent
        then fold_left (fun acc kv => <[kv.1 := mkGatewayProfile (mread "" current kv.1) kv.2]> acc)
               (map_range resolved) authority
        else authority in
      ((selected, selected <>s ""), g <| gProfileAuthority := authority |>)
  end.
End Profiles.

(** ** The credential of the client *)

Definition errGatewayReconcile := ErrNew "runtime Gateway reconciliation unavailable".
Definition errCredentialReference := ErrNew "selected Bot credential reference unavailable".
Definition errCredential := ErrNew "selected Bot credential unavailable".
Definition errExecutionSnapshot :=
  ErrNew "current Discord execution snapshot changed during the active job".

(** [RefreshRuntimeConfig] *)
Definition RefreshRuntimeConfig {A} (refresh : gprog A) : gprog A :=
  do* lock runtimeRefreshMu in
  let* result := refresh in
  do* unlock runtimeRefreshMu in
  gret result.

(** [ReconcileGateway] *)
Definition ReconcileGateway (token : string) (selected : bool) : gprog (option error) :=
  let* reconciles := read gVoiceReconciles in
  if reconciles then call (VoiceReconcileGateway token selected)
  else gret (if selected then Some errGatewayReconcile else None).

(** [ReconcileGatewayCredential(reference, true, resolve)], where [None] stands
    for the other form its callers use, [("", false, nil)]. *)
Definition reconcile_credential (selected : option (string * GwCall (string * option error)))
    : gprog (option error) :=
  match selected with
  | None => ReconcileGateway "" false
  | Some (reference, resolve) =>
  if blank reference then gret (Some errCredentialReference)
  else
  let* known := read (fun g =>
    (reference =s gCredentialReference g) && (gCredentialToken g <>s "")) in
  let* resolved :=
    if known then gret true
    else
      let* answer := call resolve in
      let '(token, err) := answer in
      if match err with Some _ => true | None => blank token end then gret false
      else
        do* modify (fun g => g <| gCredentialReference := reference |>
                               <| gCredentialToken := token |>) in
        gret true in
  if negb resolved then
    do* ReconcileGateway "" false in
    gret (Some errCredential)
  else
    let* token := read gCredentialToken in
    ReconcileGateway token true
  end.

Definition ReconcileGatewayCredential
    (selected : option (string * GwCall (string * option error))) : gprog (option error) :=
  do* lock gatewayCredentialMu in
  let* err := reconcile_credential selected in
  do* unlock gatewayCredentialMu in
  gret err.

(** [SetRuntimeGatewayReconciler] and [ReconcileRuntimeGateway] *)
Definition SetRuntimeGatewayReconciler (reconcile : option nat) : gprog unit :=
  do* lock runtimeRefreshMu in
  do* modify (fun g => g <| gReconciler := reconcile |>) in
  unlock runtimeRefreshMu.

Definition ReconcileRuntimeGateway (cfg : RuntimeConfig) : gprog (option error) :=
  let* reconciler := read gReconciler in
  match reconciler with
  | None => gret None
  | Some r => call (RunReconciler r cfg)
  end.

(** ** Reconciling with a runtime configuration *)

Section Reconcile.
Context `{MapRange}.

(** [cfg.Service.ServiceID+"/"+binding.SecretName+"/"+binding.Fingerprint] *)
Definition credential_reference (cfg : RuntimeConfig) (secretName fingerprint : string) : string :=
  rsServiceID (rcService cfg) ++ "/" ++ secretName ++ "/" ++ fingerprint.

(** [manager.GatewayProfileForAssignments(nil, nil, true)] and the disconnect. *)
Definition revoke_profiles : gprog unit :=
  do* lock gatewayCredentialMu in
  do* atomic (GatewayProfileForAssignments ∅ ∅ true) in
  unlock gatewayCredentialMu.

Definition revoke : gprog unit :=
  do* call ManagerClearDefaults in
  do* revoke_profiles in
  do* ReconcileGatewayCredential None in
  gret tt.

(** [reconcileWaitingDiscordGateway] *)
Definition reconcileWaitingDiscordGateway (cfg : RuntimeConfig) (active : currentGatewayAuthority)
    : gprog (option error) :=
  match selectDiscordWaitingGateway cfg active with
  | inr err =>
      do* call ManagerClearDefaults in
      do* ReconcileGatewayCredential None in
      gret (Some err)
  | inl selection =>
      if negb (wsSelected selection) then ReconcileGatewayCredential None
      else
        let binding := wsBinding selection in
        ReconcileGatewayCredential (Some
          (credential_reference cfg (wcSecretName binding) (wcFingerprint binding),
           ResolveRuntimeSecretForWaitingBinding binding))
  end.

(** Does the current binding win over the waiting ones? *)
Definition prefer_current (cfg : RuntimeConfig) (authority : currentGatewayAuthority)
    (localStreamID : string) : bool :=
  match rcDiscordWaitingMonitor cfg with
  | Some monitor =>
      if (wmVersion monitor =? 1) && negb (wmExecutionActive monitor) && (localStreamID =s "")
      then false else bool_decide (gaCurrent authority <> ∅)
  | None => bool_decide (gaCurrent authority <> ∅)
  end.

(** [reconcileRuntimeGateway] *)
Definition reconcileRuntimeGateway (clientServiceID : string) (cfg : RuntimeConfig)
    : gprog (option error) :=
  match currentDiscordGatewayAuthority cfg clientServiceID with
  | inr err => do* revoke in gret (Some err)
  | inl authority =>
      let* localStreamID := call ManagerCurrentStreamID in
      if (localStreamID <>s "") && bool_decide (gaCurrent authority !! localStreamID = None)
      then do* revoke in gret (Some errExecutionSnapshot)
      else
        do* lock gatewayCredentialMu in
        let* profile := atomic (GatewayProfileForAssignments (gaCurrent authority)
                                  (gaMapped authority) true) in
        do* unlock gatewayCredentialMu in
        let '(profileID, selected) := profile in
        if negb (prefer_current cfg authority localStreamID) then
          if rcDiscordWaitingMonitorPresent cfg
             || match rcDiscordWaitingMonitor cfg with Some _ => true | None => false end
          then reconcileWaitingDiscordGateway cfg authority
          else ReconcileGatewayCredential None
        else
        let binding := gaBinding authority in
        if negb selected || (profileID <>s cbProfileID binding) then
          do* call ManagerClearDefaults in
          do* ReconcileGatewayCredential None in
          gret (Some errCredentialReference)
        else
          ReconcileGatewayCredential (Some
            (credential_reference cfg (cbSecretName binding) (cbFingerprint binding),
             ResolveRuntimeSecretForCurrentBinding binding))
  end.

(** The refresh of [runRuntimeConfigRefreshLoop]: what a failed fetch revokes. *)
Definition ErrInvalidCurrentDiscordBinding :=
  ErrNew "invalid current Discord credential binding".
Definition ErrInvalidDiscordWaitingMonitor :=
  ErrNew "invalid waiting Discord monitoring authority".

(** [errors.As(err, &rejected)] with status 401 or 403. *)
Definition rejectedByPanel (err : error) : bool :=
  match As staleAutoStartError err with
  | Some (status, _) => (status =? 401) || (status =? 403)
  | None => false
  end.

(** May the active job keep running on the decoded execution snapshot? *)
Definition owns_current (clientServiceID : string) (cfg : RuntimeConfig) (localStreamID : string)
    : bool :=
  match currentDiscordGatewayAuthority cfg clientServiceID with
  | inl authority =>
      (localStreamID <>s "") && bool_decide (is_Some (gaCurrent authority !! localStreamID))
  | inr _ => false
  end.

Definition fetch_failed (clientServiceID : string) (cfg : RuntimeConfig) (err : error)
    : gprog unit :=
  do*
    (if Is err ErrInvalidDiscordWaitingMonitor then
       let* localStreamID := call ManagerCurrentStreamID in
       if owns_current clientServiceID cfg localStreamID then gret tt else revoke
     else gret tt) in
  if Is err ErrInvalidCurrentDiscordBinding || rejectedByPanel err then revoke else gret tt.

(** One tick of [runRuntimeConfigRefreshLoop]. *)
Definition refresh_turn (clientServiceID : string) : gprog (option error) :=
  RefreshRuntimeConfig (
    let* canceled := call CtxErr in
    match canceled with
    | Some err => gret (Some err)
    | None =>
    let* fetched := call FetchRuntimeConfig in
    let '(cfg, err) := fetched in
    match err with
    | Some err => do* fetch_failed clientServiceID cfg err in gret (Some err)
    | None =>
    let* canceled := call CtxErr in
    match canceled with
    | Some err => gret (Some err)
    | None =>
    let* failed := reconcileRuntimeGateway clientServiceID cfg in
    match failed with
    | Some err => do* call ManagerClearDefaults in gret (Some err)
    | None =>
    let* canceled := call CtxErr in
    match canceled with
    | Some err => gret (Some err)
    | None => do* call (ManagerApplyRuntimeConfig cfg) in gret None
    end
    end
    end
    end
    end).

(** ** The waiting streams of a configuration *)

(** The epoch of a stream: that of its last primary assignment. *)
Definition assignment_epoch (cfg : RuntimeConfig) (streamID : string) : string :=
  fold_left (fun epoch a =>
    if (ssStreamID a =s streamID) && (ssServiceID a =s rsServiceID (rcService cfg))
       && (ssServiceType a =s ServiceType) && (ssAssignmentRole a =s "primary")
       && negb (IsZero (ssAssignedAt a))
    then FormatRFC3339Nano (ssAssignedAt a) else epoch) (rcAssignments cfg) "".

Definition legacy_step (cfg : RuntimeConfig) (primaries : gmap string bool)
    (defaults : gmap string VoiceDefaults) (item : StreamDiscordConfig)
    : gmap string VoiceDefaults :=
  if scStreamID item =s "" then defaults
  else if scAssignmentRole item <>s "primary" then defaults
  else if negb (mbool primaries (scStreamID item)) then defaults
  else
    let epoch := assignment_epoch cfg (scStreamID item) in
    if epoch =s "" then defaults
    else <[scStreamID item := mkVoiceDefaults epoch (scGuildID item) (scVoiceChannelID item)
             (scTextChannelID item) (TrimSpace (scAutoStartTrigger item) =s "discord_voice_join")]>
           defaults.

(** [streamDiscordDefaultsFromRuntimeConfig]; [None] is the nil map. *)
Definition streamDiscordDefaultsFromRuntimeConfig (cfg : RuntimeConfig)
    : option (gmap string VoiceDefaults) :=
  if rcDiscordWaitingMonitorPresent cfg
     || match rcDiscordWaitingMonitor cfg with Some _ => true | None => false end
  then
    match currentDiscordGatewayAuthority cfg (rsServiceID (rcService cfg)) with
    | inr _ => None
    | inl active =>
        match selectDiscordWaitingGateway cfg active with
        | inr _ => None
        | inl selection => Some (wsDefaults selection)
        end
    end
  else
    let '(primaries, _) := primaryDiscordAssignmentStreams cfg in
    Some (fold_left (legacy_step cfg primaries) (rcStreamDiscordConfigs cfg) ∅).

(** The body of the loop of [discordGatewayRuntimeProfile]. *)
Definition mapping_step (cfg : RuntimeConfig) (selected : string) (kv : string * bool)
    : option string :=
  match DiscordConfigForStream kv.1 cfg with
  | None => None
  | Some mapping =>
      let id := TrimSpace (scDiscordConfigID mapping) in
      if (id =s "") || ((selected <>s "") && (selected <>s id)) then None else Some id
  end.

(** [discordGatewayRuntimeProfile] *)
Definition discordGatewayRuntimeProfile (cfg : RuntimeConfig) : option RuntimeProfile :=
  let serviceID := rsServiceID (rcService cfg) in
  if rcCurrentDiscordBindingsPresent cfg
     || match rcCurrentDiscordBindings cfg with Some _ => true | None => false end
  then
    match currentDiscordGatewayAuthority cfg serviceID with
    | inl authority =>
        if cbProfileID (gaBinding authority) <>s "" then Some (gaProfile authority) else None
    | inr _ => None
    end
  else if bool_decide (rcStreamDiscordConfigs cfg = [])
  then firstRuntimeProfileForService (discord_profiles cfg) serviceID
  else
    let '(streams, _) := primaryDiscordAssignmentStreams cfg in
    match each (mapping_step cfg) "" (map_range streams) with
    | None => None
    | Some selected =>
        if selected =s "" then None
        else
          match filter (fun p => TrimSpace (rpID p) = selected /\
                  profileBelongsToService p serviceID = true) (discord_profiles cfg) with
          | [match_] => Some match_
          | _ => None
          end
    end.

(** [discordBotTokenFingerprintFromRuntimeConfig], [discordBotTokenSecretNameFromRuntimeConfig] *)
Definition discordBotTokenFingerprintFromRuntimeConfig (cfg : RuntimeConfig) : string :=
  match discordGatewayRuntimeProfile cfg with
  | Some profile => stringConfig (rpConfig profile) "bot_token_fingerprint"
  | None => ""
  end.

Definition discordBotTokenSecretNameFromRuntimeConfig (cfg : RuntimeConfig) : string :=
  match discordGatewayRuntimeProfile cfg with
  | Some profile => stringConfig (rpConfig profile) "bot_token_secret_name"
  | None => ""
  end.
End Reconcile.

(** ** The profile selected *)

Section ProfileFacts.
Context `{MapRange}.

Lemma fold_delete_pairs {V} (drop : string * V -> bool) l (acc : gmap string V) k :
  fold_left (fun acc kv => if drop kv then delete kv.1 acc else acc) l acc !! k
  = if existsb (fun kv => bool_decide (kv.1 = k) && drop kv) l then None else acc !! k.
Proof.
  revert acc. induction l as [|[k' v] l IH]; intros acc; [done|]. cbn [fold_left existsb fst].
  rewrite IH. destruct (existsb _ l); [by rewrite orb_true_r|]. rewrite orb_false_r.
  destruct (drop (k', v)); [|by rewrite andb_false_r]. rewrite andb_true_r.
  case_bool_decide; [subst; by rewrite lookup_delete_eq|by rewrite lookup_delete_ne].
Qed.

Lemma prune_profiles_spec current authority id a :
  prune_profiles current authority !! id = Some a <->
  authority !! id = Some a /\ current !! id = Some (gpEpoch a).
Proof.
  unfold prune_profiles. rewrite fold_delete_pairs.
  destruct (existsb _ _) eqn:E.
  - split; [done|]. intros [Ha Hc]. apply existsb_exists in E as ([k v] & Hin & Hd).
    apply list_elem_of_In, elem_of_range in Hin. cbn [fst snd] in Hd. bool_hyps. subst k.
    assert (v = a) as -> by congruence. rewrite Hc in *. by bool_hyps.
  - split; [|by intros [? _]]. intros Ha. split; [done|].
    destruct (current !! id) as [epoch|] eqn:Ec.
    + destruct (decide (epoch = gpEpoch a)) as [->|Hne]; [done|]. exfalso.
      apply not_true_iff_false in E. apply E, existsb_exists. exists (id, a).
      split; [by apply list_elem_of_In, elem_of_range|]. cbn [fst snd].
      rewrite bool_decide_eq_true_2, Ec by done. by apply negb_true_iff, String.eqb_neq.
    + exfalso. apply not_true_iff_false in E. apply E, existsb_exists. exists (id, a).
      split; [by apply list_elem_of_In, elem_of_range|]. cbn [fst snd].
      by rewrite bool_decide_eq_true_2, Ec by done.
Qed.

(** What is offered for a stream: the mapping, or, when mappings are omitted,
    the profile verified for it. *)
Definition offered (mapped : gmap string string) (mappingsPresent : bool)
    (authority : gmap string GatewayProfileAuthority) (id : string) : string :=
  if mread "" mapped id <>s "" then mread "" mapped id
  else if negb mappingsPresent then gpProfileID (mread zeroGatewayProfile authority id) else "".

Definition note_resolved (mapped : gmap string string) (l : list (string * string))
    (resolved : gmap string string) : gmap string string :=
  fold_left (fun acc kv => if mread "" mapped kv.1 <>s ""
                           then <[kv.1 := mread "" mapped kv.1]> acc else acc) l resolved.

Lemma profile_step_eq mapped present authority selected resolved kv :
  profile_step mapped present authority (selected, resolved) kv =
  let p := offered mapped present authority kv.1 in
  if (p =s "") || ((selected <>s "") && (selected <>s p)) then None
  else Some (p, note_resolved mapped [kv] resolved).
Proof.
  unfold profile_step, offered, note_resolved. cbn [fold_left].
  destruct (mread "" mapped kv.1 <>s ""); [done|]. by destruct present.
Qed.

Lemma profile_loop mapped present authority l selected resolved :
  match each (profile_step mapped present authority) (selected, resolved) l with
  | Some (p, r) =>
      r = note_resolved mapped l resolved /\
      ((l = [] /\ p = selected) \/
       (l <> [] /\ p <> "" /\ (selected = "" \/ selected = p) /\
        forall kv, kv ∈ l -> offered mapped present authority kv.1 = p))
  | None => ~ exists p, p <> "" /\ (selected = "" \/ selected = p) /\
      forall kv, kv ∈ l -> offered mapped present authority kv.1 = p
  end.
Proof.
  revert selected resolved. induction l as [|kv l IH]; intros selected resolved;
    [by split; [|left]|].
  cbn [each]. rewrite profile_step_eq. cbv zeta.
  set (q := offered mapped present authority kv.1).
  destruct ((q =s "") || _) eqn:E.
  - intros (p & Hp & Hs & Hall). assert (q = p) as Hq by (apply Hall, list_elem_of_here).
    apply orb_prop in E as [E|E]; bool_hyps; [congruence|]. by destruct Hs; subst.
  - bool_hyps. specialize (IH q (note_resolved mapped [kv] resolved)).
    assert (selected = "" \/ selected = q) as Hs.
    { match goal with H : _ && _ = false |- _ => apply andb_false_elim in H as [H|H] end;
        bool_hyps; auto. }
    destruct (each _ _ l) as [[p r]|].
    + destruct IH as [Hr IH]. split; [done|]. right.
      assert (q = p) as Hq by (destruct IH as [[_ ->]|(_ & _ & [?|?] & _)]; congruence).
      split; [done|]. split; [congruence|]. split; [by rewrite <- Hq|].
      intros kv' [->|Hin]%elem_of_cons; [done|].
      destruct IH as [[-> _]|(_ & _ & _ & Hall)]; [by apply not_elem_of_nil in Hin|by apply Hall].
    + intros (p & Hp & _ & Hall). apply IH. exists p. split; [done|].
      assert (q = p) as -> by (apply Hall, list_elem_of_here). split; [by right|].
      intros kv' Hin. by apply Hall, list_elem_of_further.
Qed.

Lemma note_resolved_lookup mapped l resolved id :
  note_resolved mapped l resolved !! id
  = if bool_decide (id ∈ l.*1) && (mread "" mapped id <>s "") then Some (mread "" mapped id)
    else resolved !! id.
Proof.
  revert resolved. induction l as [|[k v] l IH]; intros resolved; [done|].
  unfold note_resolved in *. cbn [fold_left fst]. rewrite IH. cbn [fmap list_fmap fst].
  destruct (decide (id ∈ l.*1)) as [Hin|Hin].
  - rewrite !bool_decide_eq_true_2 by (done || by apply list_elem_of_further).
    destruct (mread "" mapped id <>s "") eqn:E; cbn [andb]; [done|].
    destruct (mread "" mapped k <>s "") eqn:E'; [|done].
    rewrite lookup_insert_ne; [done|]. congruence.
  - rewrite (bool_decide_eq_false_2 (id ∈ l.*1)) by done. cbn [andb].
    destruct (decide (id = k)) as [->|Hne].
    + rewrite bool_decide_eq_true_2 by apply list_elem_of_here. cbn [andb].
      destruct (mread "" mapped k <>s ""); [by rewrite lookup_insert_eq|done].
    + rewrite bool_decide_eq_false_2 by (rewrite elem_of_cons; naive_solver). cbn [andb].
      destruct (mread "" mapped k <>s ""); [by rewrite lookup_insert_ne|done].
Qed.

Lemma insert_pairs {V W} (f : string -> V -> W) (m : gmap string V) (acc : gmap string W) id :
  fold_left (fun acc kv => <[kv.1 := f kv.1 kv.2]> acc) (map_range m) acc !! id
  = match m !! id with Some v => Some (f id v) | None => acc !! id end.
Proof.
  assert (forall l, NoDup l.*1 -> fold_left (fun acc kv => <[kv.1 := f kv.1 kv.2]> acc) l acc !! id
    = match (list_to_map l : gmap string V) !! id with Some v => Some (f id v) | None => acc !! id end)
    as Hl.
  { intros l. revert acc. induction l as [|[k v] l IH]; intros acc Hnd; [done|].
    cbn [fold_left fst snd fmap list_fmap] in *. apply NoDup_cons in Hnd as [Hk Hnd].
    rewrite IH by done. cbn [list_to_map foldr uncurry]. destruct (decide (id = k)) as [->|Hne].
    - rewrite lookup_insert_eq. rewrite not_elem_of_list_to_map_1 by done. by rewrite lookup_insert_eq.
    - by rewrite !lookup_insert_ne. }
  rewrite Hl by apply range_NoDup_fst. f_equal.
  by rewrite (list_to_map_proper _ _ (range_NoDup_fst m) (map_range_perm m)), list_to_map_to_list.
Qed.

Lemma delete_pairs {V W} (m : gmap string V) (acc : gmap string W) id :
  fold_left (fun acc kv => delete kv.1 acc) (map_range m) acc !! id
  = match m !! id with Some _ => None | None => acc !! id end.
Proof.
  assert (forall l (acc : gmap string W), fold_left (fun acc (kv : string * V) => delete kv.1 acc) l acc !! id
    = if bool_decide (id ∈ l.*1) then None else acc !! id) as Hl.
  { induction l as [|[k v] l IH]; intros acc'; [done|]. cbn [fold_left fst fmap list_fmap].
    rewrite IH. destruct (decide (id ∈ l.*1)) as [Hin|Hin].
    - rewrite !bool_decide_eq_true_2; [done|by apply list_elem_of_further|done].
    - rewrite bool_decide_eq_false_2 by done. destruct (decide (id = k)) as [->|Hne].
      + rewrite bool_decide_eq_true_2 by apply list_elem_of_here. by rewrite lookup_delete_eq.
      + rewrite bool_decide_eq_false_2 by (rewrite elem_of_cons; naive_solver).
        by rewrite lookup_delete_ne. }
  rewrite Hl. destruct (m !! id) as [v|] eqn:E.
  - rewrite bool_decide_eq_true_2; [done|]. apply list_elem_of_fmap. exists (id, v).
    split; [done|]. by apply elem_of_range.
  - rewrite bool_decide_eq_false_2; [done|]. intros ([k v] & -> & Hin%elem_of_range)%list_elem_of_fmap.
    simpl in E. congruence.
Qed.

(** The profile verified before for this epoch of the stream, and what a stream
    is offered by a configuration. *)
Definition verified (g : Gateway) (id epoch : string) : string :=
  match gProfileAuthority g !! id with
  | Some a => if gpEpoch a =s epoch then gpProfileID a else ""
  | None => ""
  end.

Definition offer (mapped : gmap string string) (mappingsPresent : bool) (g : Gateway)
    (id epoch : string) : string :=
  if mread "" mapped id <>s "" then mread "" mapped id
  else if mappingsPresent then "" else verified g id epoch.

Lemma offer_pruned current mapped present g id epoch :
  current !! id = Some epoch ->
  offer mapped present g id epoch
  = offered mapped present (prune_profiles current (gProfileAuthority g)) id.
Proof.
  intros Hc. unfold offer, offered, verified. destruct (mread "" mapped id <>s ""); [done|].
  destruct present; cbn [negb]; [done|]. unfold mread.
  pose proof (prune_profiles_spec current (gProfileAuthority g) id) as Hp.
  destruct (prune_profiles current (gProfileAuthority g) !! id) as [a|].
  - destruct (proj1 (Hp a) eq_refl) as [-> Ha]. replace epoch with (gpEpoch a) by congruence.
    by rewrite seqb_refl.
  - destruct (gProfileAuthority g !! id) as [a|]; [|done].
    destruct (gpEpoch a =s epoch) eqn:Ee; [|done]. bool_hyps.
    exfalso. cut (None = Some a); [done|]. apply Hp. split; congruence.
Qed.

Lemma empty_of_current (current : gmap string string)
    (authority : gmap string GatewayProfileAuthority) :
  (forall id a, authority !! id = Some a -> False) -> authority = ∅.
Proof.
  intros Ha. apply map_empty. intros i. apply eq_None_not_Some. intros [a Hi]. by eapply Ha.
Qed.

Lemma resolved_lookup mapped (current : gmap string string) id :
  note_resolved mapped (map_range current) ∅ !! id
  = match current !! id with
    | Some _ => if mread "" mapped id <>s "" then Some (mread "" mapped id) else None
    | None => None
    end.
Proof.
  rewrite note_resolved_lookup, lookup_empty. destruct (current !! id) as [v|] eqn:E.
  - rewrite bool_decide_eq_true_2; [done|]. apply list_elem_of_fmap. exists (id, v).
    split; [done|]. by apply elem_of_range.
  - rewrite bool_decide_eq_false_2; [done|]. intros ([k v] & -> & Hin%elem_of_range)%list_elem_of_fmap.
    simpl in E. congruence.
Qed.

(** A profile is selected only when a stream executes. *)
Lemma profile_for_assignments_ok current mapped g :
  let '((p, ok), _) := GatewayProfileForAssignments current mapped true g in
  ok = true -> current <> ∅.
Proof.
  unfold GatewayProfileForAssignments. cbv zeta.
  destruct (each _ _ _) as [[p r]|] eqn:E; [|done]. intros Hp ->.
  assert (map_range (∅ : gmap string string) = []) as Hn
    by (apply nil_length_inv; by rewrite length_range).
  rewrite Hn in E. cbn [each] in E. injection E as <- _. done.
Qed.

(** The profile of the executing streams, on every input. It is selected
    exactly when there is an executing stream and all of them are offered the
    same non-empty profile: the one mapped to the stream or, while mappings are
    omitted, the one verified before for the same assignment epoch, never one of
    another epoch. A refusal forgets every verified profile; a profile never
    outlives the assignment it was verified for; and an accepted mapping is
    remembered for every executing stream with its epoch. *)
Theorem profile_for_assignments_spec current mapped present g :
  let '((p, ok), g') := GatewayProfileForAssignments current mapped present g in
  let all_offer q := q <> "" /\ current <> ∅ /\
    forall id epoch, current !! id = Some epoch -> offer mapped present g id epoch = q in
  (if ok then all_offer p
   else p = "" /\ gProfileAuthority g' = ∅ /\ forall q, ~ all_offer q) /\
  (forall id a, gProfileAuthority g' !! id = Some a -> current !! id = Some (gpEpoch a)) /\
  (ok = true -> present = true -> forall id epoch, current !! id = Some epoch ->
     gProfileAuthority g' !! id = Some (mkGatewayProfile epoch p)).
Proof.
  unfold GatewayProfileForAssignments. cbv zeta.
  pose proof (offer_pruned current mapped present g) as Hoffer.
  pose proof (prune_profiles_spec current (gProfileAuthority g)) as Hauth.
  set (authority := prune_profiles current (gProfileAuthority g)) in *.
  pose proof (profile_loop mapped present authority (map_range current) "" ∅) as Hloop.
  destruct (each _ _ _) as [[p resolved]|].
  - destruct Hloop as [-> [[Hnil ->]|(Hne & Hp & _ & Hall)]].
    + apply range_empty_inv in Hnil. subst current. simpl.
      assert (authority = ∅) as Ha.
      { apply (empty_of_current ∅). intros id a [_ Ha]%Hauth. by rewrite lookup_empty in Ha. }
      assert (forall acc : gmap string GatewayProfileAuthority, fold_left (fun acc kv =>
        <[kv.1 := mkGatewayProfile (mread "" ∅ kv.1) kv.2]> acc)
        (map_range (note_resolved mapped (map_range ∅) ∅)) acc = acc) as Hf.
      { intros acc. apply map_eq. intros id.
        rewrite (insert_pairs (fun k v => mkGatewayProfile (mread "" ∅ k) v)), resolved_lookup.
        by rewrite lookup_empty. }
      rewrite Hf, Ha. destruct present; simpl; (split; [|split; [|done]]);
        try (intros id a; by rewrite lookup_empty);
        (split; [done|]; split; [done|]; intros q (_ & Hq & _); by apply Hq).
    + assert ((p <>s "") = true) as -> by (by apply negb_true_iff, String.eqb_neq).
      assert (forall id epoch, current !! id = Some epoch -> offer mapped present g id epoch = p)
        as Hall' by (intros id epoch Hc; rewrite (Hoffer _ _ Hc); apply (Hall (id, epoch));
                     by apply elem_of_range).
      assert (forall id, (if present then fold_left (fun acc kv =>
          <[kv.1 := mkGatewayProfile (mread "" current kv.1) kv.2]> acc)
          (map_range (note_resolved mapped (map_range current) ∅)) authority else authority) !! id
        = match current !! id with
          | Some epoch => if present then Some (mkGatewayProfile epoch p) else authority !! id
          | None => authority !! id end) as Hg.
      { intros id. destruct present; [|by case_match].
        rewrite (insert_pairs (fun k v => mkGatewayProfile (mread "" current k) v)), resolved_lookup.
        destruct (current !! id) as [epoch|] eqn:Ec; [|done].
        specialize (Hall' id epoch Ec). unfold offer in Hall'.
        destruct (mread "" mapped id <>s ""); [|done]. unfold mread at 1. rewrite Ec. simpl. congruence. }
      split; [split; [done|split; [|done]]|split].
      * intros ->. apply Hne. apply nil_length_inv. by rewrite length_range.
      * intros id a. simpl. rewrite Hg. destruct (current !! id) as [epoch|] eqn:Ec.
        -- destruct present; [by intros [= <-]|]. intros [_ Ha]%Hauth. congruence.
        -- intros [_ Ha]%Hauth. congruence.
      * intros _ -> id epoch Hc. simpl. by rewrite Hg, Hc.
  - simpl. assert (fold_left (fun acc kv => delete kv.1 acc) (map_range current) authority = ∅) as ->.
    { apply (empty_of_current current). intros id a. rewrite delete_pairs.
      destruct (current !! id) eqn:Ec; [done|]. intros [_ Ha]%Hauth. congruence. }
    split; [|split; [intros id a; by rewrite lookup_empty|done]].
    split; [done|]. split; [done|]. intros q (Hq & _ & Hall). apply Hloop. exists q.
    split; [done|]. split; [by left|]. intros [id epoch] Hin%elem_of_range. cbn [fst].
    rewrite <- (Hoffer _ _ Hin). by apply (Hall id epoch).
Qed.
End ProfileFacts.

(** ** The credential used *)

Section CredentialFacts.
Context `{MapRange}.

Definition credential_binding : Type :=
  CurrentDiscordCredentialBinding + DiscordWaitingCredentialBinding.

Definition resolve_call (b : credential_binding) : GwCall (string * option error) :=
  match b with
  | inl b => ResolveRuntimeSecretForCurrentBinding b
  | inr b => ResolveRuntimeSecretForWaitingBinding b
  end.

(** The token of an answer that is one. *)
Definition answered (answer : string * option error) : option string :=
  match answer.2 with
  | Some _ => None
  | None => if blank answer.1 then None else Some answer.1
  end.

(** The secret requests of a trace with their answers, and the tokens the client
    was told to connect with. *)
Definition resolves (o : obs GwCall Empty_set) : option (credential_binding * option string) :=
  match o with
  | OCall e x =>
      match e in GwCall X return X -> _ with
      | ResolveRuntimeSecretForCurrentBinding b => fun x => Some (inl b, answered x)
      | ResolveRuntimeSecretForWaitingBinding b => fun x => Some (inr b, answered x)
      | _ => fun _ => None
      end x
  | _ => None
  end.

Definition connects (o : obs GwCall Empty_set) : option string :=
  match o with
  | OCall (VoiceReconcileGateway token true) _ => Some token
  | _ => None
  end.

Definition known (reference : string) (g : Gateway) : bool :=
  (reference =s gCredentialReference g) && (gCredentialToken g <>s "").

(** The credential state belongs to the holder of [gatewayCredentialMu]: no call
    changes it. *)
Definition keeps_credential (en : env Gateway GwCall) : Prop :=
  forall X n (e : GwCall X) g,
    gCredentialReference (env_call en X n e g).2 = gCredentialReference g /\
    gCredentialToken (env_call en X n e g).2 = gCredentialToken g.

Lemma ReconcileGateway_trace en token selected k g :
  let tr := (run en (ReconcileGateway token selected) k g).2 in
  omap resolves tr = [] /\
  (forall t, t ∈ omap connects tr -> selected = true /\ t = token).
Proof.
  unfold ReconcileGateway. cbn [bind read run].
  destruct (gVoiceReconciles g); cbn [bind call run].
  - destruct (env_call en _ k (VoiceReconcileGateway token selected) g) as [x g']. simpl.
    destruct selected; simpl; (split; [done|]).
    + by intros t ->%list_elem_of_singleton.
    + by intros t ?%not_elem_of_nil.
  - destruct selected; simpl; (split; [done|]); by intros t ?%not_elem_of_nil.
Qed.

Definition request (selected : option (string * credential_binding)) :=
  (fun rb => (rb.1, resolve_call rb.2)) <$> selected.

Lemma credential_trace en selected k g :
  keeps_credential en ->
  let tr := (run en (ReconcileGatewayCredential (request selected)) k g).2 in
  match selected with
  | None => omap resolves tr = [] /\ omap connects tr = []
  | Some (r, b) =>
      (if known r g then omap resolves tr = []
       else exists l, omap resolves tr = l /\ (length l <= 1)%nat /\ forall b' t, (b', t) ∈ l -> b' = b) /\
      (forall t, t ∈ omap connects tr ->
         if known r g then t = gCredentialToken g else (b, Some t) ∈ omap resolves tr)
  end.
Proof.
  intros Hen. unfold ReconcileGatewayCredential. cbn [lock bind run]. cbv zeta.
  rewrite run_bind. unfold request, reconcile_credential.
  destruct selected as [[r b]|]; cbn [fmap option_fmap option_map fst snd].
  2:{ pose proof (ReconcileGateway_trace en "" false k g) as Hr.
      destruct (run en (ReconcileGateway "" false) k g) as [[err g'] tr]. cbn [fst snd] in *.
      cbn [unlock bind run snd]. rewrite app_nil_r. destruct Hr as [Hr Hc]. split; [done|].
      destruct (omap connects tr) as [|t l]; [done|]. by destruct (Hc t (list_elem_of_here _ _)). }
  destruct (blank r) eqn:Eb.
  { simpl. split; [|by intros t ?%not_elem_of_nil]. destruct (known r g); [done|].
    exists []. split; [done|]. split; [simpl; lia|]. by intros b' t ?%not_elem_of_nil. }
  cbn [bind read run]. fold (known r g). destruct (known r g) eqn:Ek; cbn [bind run negb].
  - cbn [read bind run].
    pose proof (ReconcileGateway_trace en (gCredentialToken g) true k g) as Hr.
    destruct (run en (ReconcileGateway _ true) k g) as [[err g'] tr]. cbn [fst snd] in *.
    cbn [unlock bind run snd]. rewrite app_nil_r. destruct Hr as [Hr Hc]. split; [done|].
    intros t Ht. by apply Hc.
  - cbn [call bind run]. destruct (env_call en _ k (resolve_call b) g) as [[token err] g1] eqn:Ec.
    assert (forall l, omap resolves (OCall (resolve_call b) (token, err) :: l)
      = (b, answered (token, err)) :: omap resolves l) as Hres by (intros l; by destruct b).
    assert (forall l, omap connects (OCall (resolve_call b) (token, err) :: l) = omap connects l)
      as Hcon by (intros l; by destruct b).
    destruct (match err with Some _ => true | None => blank token end) eqn:Ebad;
      cbn [bind run negb modify read].
    + rewrite run_bind. pose proof (ReconcileGateway_trace en "" false (S k) g1) as Hr.
      destruct (run en (ReconcileGateway "" false) (S k) g1) as [[e2 g2] tr]. cbn [fst snd] in *.
      cbn [unlock bind run snd]. rewrite !app_nil_r, Hres, Hcon. destruct Hr as [-> Hc]. split.
      * eexists. split; [done|]. split; [simpl; lia|].
        by intros b' t [= -> _]%list_elem_of_singleton.
      * intros t Ht. by destruct (Hc t Ht).
    + match goal with |- context [run en (ReconcileGateway ?t true) ?k' ?g'] =>
        pose proof (ReconcileGateway_trace en t true k' g') as Hr;
        destruct (run en (ReconcileGateway t true) k' g') as [[e2 g2] tr] end.
      cbn [fst snd] in *. cbn [unlock bind run snd]. rewrite !app_nil_r, Hres, Hcon.
      destruct Hr as [-> Hc]. split.
      * eexists. split; [done|]. split; [simpl; lia|].
        by intros b' t [= -> _]%list_elem_of_singleton.
      * intros t Ht. destruct (Hc t Ht) as [_ ->]. apply list_elem_of_singleton.
        unfold answered. cbn [fst snd]. destruct err; [done|]. by rewrite Ebad.
Qed.

(** The credential a configuration gives this service, with the reference it is
    stored under: that of the executing streams, or that of a waiting binding. *)
Definition authorized (svc : string) (cfg : RuntimeConfig) (reference : string)
    (b : credential_binding) : Prop :=
  exists au, currentDiscordGatewayAuthority cfg svc = inl au /\
  match b with
  | inl b => gaCurrent au <> ∅ /\ b = gaBinding au /\
      reference = credential_reference cfg (cbSecretName b) (cbFingerprint b)
  | inr b => exists sel, selectDiscordWaitingGateway cfg au = inl sel /\ wsSelected sel = true /\
      b = wsBinding sel /\ reference = credential_reference cfg (wcSecretName b) (wcFingerprint b)
  end.

(** A trace that only disconnects. *)
Definition disconnects_only (tr : list (obs GwCall Empty_set)) : Prop :=
  omap resolves tr = [] /\ omap connects tr = [].

Lemma disconnects_app t1 t2 :
  disconnects_only t1 -> disconnects_only t2 -> disconnects_only (t1 ++ t2)%list.
Proof. intros [H1 H2] [H3 H4]. split; rewrite omap_app; [by rewrite H1|by rewrite H2]. Qed.

Lemma disconnect_trace en k g :
  keeps_credential en -> disconnects_only (run en (ReconcileGatewayCredential None) k g).2.
Proof. intros Hen. apply (credential_trace en None k g Hen). Qed.

Lemma clear_then_disconnect en (e : error) k g :
  keeps_credential en ->
  disconnects_only (run en (do* call ManagerClearDefaults in
    do* ReconcileGatewayCredential None in gret (Some e)) k g).2.
Proof.
  intros Hen. cbn [call bind run].
  destruct (env_call en _ k ManagerClearDefaults g) as [u g1]. rewrite run_bind.
  pose proof (disconnect_trace en (S k) g1 Hen) as Hd.
  destruct (run en (ReconcileGatewayCredential None) (S k) g1) as [[x g2] tr].
  cbn [run snd] in *. rewrite app_nil_r. by apply (disconnects_app [_]).
Qed.

Lemma revoke_trace en k g : keeps_credential en -> disconnects_only (run en revoke k g).2.
Proof.
  intros Hen. unfold revoke. cbn [call bind run].
  destruct (env_call en _ k ManagerClearDefaults g) as [u g1]. rewrite run_bind.
  unfold revoke_profiles. cbn [lock unlock atomic bind run].
  destruct (GatewayProfileForAssignments ∅ ∅ true g1) as [x g2]. cbn [bind run].
  rewrite run_bind.
  match goal with |- context [run en (ReconcileGatewayCredential None) ?k' g2] =>
    pose proof (disconnect_trace en k' g2 Hen) as Hd;
    destruct (run en (ReconcileGatewayCredential None) k' g2) as [[e2 g3] tr] end.
  cbn [run snd] in *. rewrite app_nil_r. by apply (disconnects_app [_]).
Qed.

(** What a reconciliation may do with the credential known at its start. *)
Definition uses_authorized svc cfg g (tr : list (obs GwCall Empty_set)) : Prop :=
  (length (omap resolves tr) <= 1)%nat /\
  (forall b t, (b, t) ∈ omap resolves tr -> exists r, authorized svc cfg r b /\ known r g = false) /\
  (forall t, t ∈ omap connects tr -> exists r b, authorized svc cfg r b /\
     if known r g then t = gCredentialToken g else (b, Some t) ∈ omap resolves tr).

Lemma disconnects_authorized svc cfg g tr : disconnects_only tr -> uses_authorized svc cfg g tr.
Proof.
  intros [H1 H2]. unfold uses_authorized. rewrite H1, H2. split; [simpl; lia|].
  split; [by intros b t ?%not_elem_of_nil|by intros t ?%not_elem_of_nil].
Qed.

Lemma selected_authorized en svc cfg r b k g :
  keeps_credential en -> authorized svc cfg r b ->
  uses_authorized svc cfg g
    (run en (ReconcileGatewayCredential (Some (r, resolve_call b))) k g).2.
Proof.
  intros Hen Ha. destruct (credential_trace en (Some (r, b)) k g Hen) as [Hr Hc].
  change (request (Some (r, b))) with (Some (r, resolve_call b)) in *. cbv zeta in *.
  destruct (known r g) eqn:Ek.
  - unfold uses_authorized. rewrite Hr. split; [simpl; lia|].
    split; [by intros b' t ?%not_elem_of_nil|]. intros t Ht. exists r, b. rewrite Ek. auto.
  - destruct Hr as (l & Hl & Hlen & Hb). unfold uses_authorized. rewrite Hl in *. split; [done|]. split.
    + intros b' t Hin. rewrite (Hb b' t Hin). by exists r.
    + intros t Ht. exists r, b. rewrite Ek. auto.
Qed.

Lemma waiting_authorized en svc cfg au k g :
  keeps_credential en -> currentDiscordGatewayAuthority cfg svc = inl au ->
  uses_authorized svc cfg g (run en (reconcileWaitingDiscordGateway cfg au) k g).2.
Proof.
  intros Hen Hau. unfold reconcileWaitingDiscordGateway.
  destruct (selectDiscordWaitingGateway cfg au) as [sel|e] eqn:Es.
  - destruct (wsSelected sel) eqn:Ew; cbn [negb].
    + apply (selected_authorized en svc cfg _ (inr (wsBinding sel))); [done|].
      exists au. split; [done|]. by exists sel.
    + by apply disconnects_authorized, disconnect_trace.
  - by apply disconnects_authorized, clear_then_disconnect.
Qed.

Lemma uses_authorized_cons svc cfg g g1 (o : obs GwCall Empty_set) tr :
  resolves o = None -> connects o = None ->
  gCredentialReference g1 = gCredentialReference g -> gCredentialToken g1 = gCredentialToken g ->
  uses_authorized svc cfg g1 tr -> uses_authorized svc cfg g (o :: tr).
Proof.
  intros H1 H2 H3 H4 Hu. unfold uses_authorized, known in *. cbn [omap list_omap].
  rewrite H1, H2. by rewrite H3, H4 in Hu.
Qed.

Lemma profile_keeps_credential current mapped present g :
  let g' := (GatewayProfileForAssignments current mapped present g).2 in
  gCredentialReference g' = gCredentialReference g /\ gCredentialToken g' = gCredentialToken g.
Proof. unfold GatewayProfileForAssignments. cbv zeta. by destruct (each _ _ _) as [[]|]. Qed.

(** C25: the bot only ever connects to Discord with a credential its configuration
    authorizes. In every reconciliation with a runtime configuration, whatever
    the Control Panel, Discord and the rest of the bot answer, at most one
    secret is requested, and only that of the executing streams' binding or of
    the selected waiting binding; a credential already held under the same
    reference is not requested again; the client is told to connect only with
    the credential held under, or just received for, such a reference; and when
    the current authority is refused, the refusal is the answer and nothing is
    requested or connected. *)
Theorem gateway_uses_authorized_credential en svc cfg k g :
  keeps_credential en ->
  let '(err, g', tr) := run en (reconcileRuntimeGateway svc cfg) k g in
  uses_authorized svc cfg g tr /\
  (forall e, currentDiscordGatewayAuthority cfg svc = inr e -> err = Some e /\ disconnects_only tr).
Proof.
  intros Hen. unfold reconcileRuntimeGateway.
  destruct (currentDiscordGatewayAuthority cfg svc) as [au|e] eqn:Ea.
  2:{ rewrite run_bind. pose proof (revoke_trace en k g Hen) as Hr.
      destruct (run en revoke k g) as [[u g1] tr]. cbn [run snd] in *. rewrite app_nil_r.
      split; [by apply disconnects_authorized|]. by intros e' [= ->]. }
  cbn [call bind run]. pose proof (Hen _ k ManagerCurrentStreamID g) as [H1 H2].
  destruct (env_call en _ k ManagerCurrentStreamID g) as [localStreamID g1]. cbn [snd] in H1, H2.
  destruct (_ && bool_decide (gaCurrent au !! localStreamID = None)).
  { rewrite run_bind. pose proof (revoke_trace en (S k) g1 Hen) as Hr.
    destruct (run en revoke (S k) g1) as [[u g2] tr]. cbn [run snd] in *. rewrite app_nil_r.
    split; [|done]. by apply disconnects_authorized, (disconnects_app [_]). }
  cbn [lock unlock atomic bind run].
  pose proof (profile_for_assignments_ok (gaCurrent au) (gaMapped au) g1) as Hprof.
  pose proof (profile_keeps_credential (gaCurrent au) (gaMapped au) true g1) as [H3 H4].
  destruct (GatewayProfileForAssignments (gaCurrent au) (gaMapped au) true g1) as [[p ok] g2].
  cbn [snd fst bind run] in *.
  match goal with |- context [run en ?q (S k) g2] => assert (uses_authorized svc cfg g2 (run en q (S k) g2).2) as Hq end.
  { destruct (negb (prefer_current cfg au localStreamID)).
    - destruct (_ || _); [by apply waiting_authorized|].
      by apply disconnects_authorized, disconnect_trace.
    - destruct (negb ok || _) eqn:Eok; [by apply disconnects_authorized, clear_then_disconnect|].
      apply (selected_authorized en svc cfg _ (inl (gaBinding au))); [done|].
      exists au. split; [done|]. split; [|done]. bool_hyps. by apply Hprof. }
  match goal with |- context [run en ?q (S k) g2] => destruct (run en q (S k) g2) as [[err g3] tr] end.
  cbn [snd] in Hq. split; [|done]. eapply (uses_authorized_cons svc cfg g g2); try done; congruence.
Qed.
End CredentialFacts.

(** ** Witness: an executing stream whose credential is requested and used *)
Module Sample.
#[local] Existing Instance canonical_range.

Definition g0 : Gateway := mkGateway ∅ "" "" true None.

Definition ans X (e : GwCall X) : X :=
  match e with
  | VoiceReconcileGateway _ _ => None
  | ResolveRuntimeSecretForCurrentBinding _ => ("token", None)
  | ResolveRuntimeSecretForWaitingBinding _ => ("other", None)
  | FetchRuntimeConfig => (Authority.Sample.cfg, None)
  | CtxErr => None
  | RunReconciler _ _ => None
  | ManagerClearDefaults => tt
  | ManagerCurrentStreamID => "s1"
  | ManagerApplyRuntimeConfig _ => tt
  end.

Definition en : env Gateway GwCall :=
  Build_env (fun X _ e s => (ans X e, s)) (fun _ _ _ s => (false, s)).

Definition trace : list (obs GwCall Empty_set) :=
  (run en (reconcileRuntimeGateway "bot" Authority.Sample.cfg) 0 g0).2.

Lemma gateway_uses_authorized_credential_witness :
  omap connects trace = ["token"] /\
  exists r b, authorized "bot" Authority.Sample.cfg r b /\ (b, Some "token") ∈ omap resolves trace.
Proof.
  assert (keeps_credential en) as Hen by (intros X n e g; split; reflexivity).
  pose proof (gateway_uses_authorized_credential en "bot" Authority.Sample.cfg 0 g0 Hen) as Ht.
  assert (omap connects trace = ["token"]) as Hc by (vm_compute; reflexivity).
  split; [exact Hc|]. unfold trace in *.
  destruct (run en (reconcileRuntimeGateway "bot" Authority.Sample.cfg) 0 g0) as [[err g'] tr].
  cbn [snd] in *. destruct Ht as [(_ & _ & Hu) _].
  destruct (Hu "token") as (r & b & Ha & Hb); [rewrite Hc; apply list_elem_of_here|].
  exists r, b. split; [exact Ha|]. unfold known in Hb. rewrite andb_false_r in Hb. exact Hb.
Defined.
End Sample.
