(* ===== verification/DaveWatch.v ===== *)
(** * DaveWatch: the bounded recovery of the DAVE/MLS session

    [internal/davewatch/watchdog.go]: on every tick the watchdog looks at the
    health of the encrypted voice session and resends the key package or resets
    the session, each at most a fixed number of times per window.  [Watchdog] is
    its state, owned by the goroutine that ticks it; [WdCall] are the calls of
    the voice connection and of the two callbacks. *)

From S2P Require Import Prelude Conc Errors.

Open Scope go_scope.

(** ** Data *)

Record Health := mkHealth {
  hlInitialized : bool;
  hlOP26SentAt : Time;
  hlEpochEstablished : bool;
  hlOP30Received : bool;
  hlLastMissing : Z;
  hlMissingFirstSeen : Time;
  hlProposalFailedSince : Time }.

Record Event := mkEvent {
  evAction : string;
  evReason : string;
  evResult : string;
  evAttempt : Z;
  evLimit : Z;
  evErrorClass : string }.

Record Config := mkConfig {
  cfTickEvery : Duration;
  cfStuckTimeout : Duration;
  cfMissingTimeout : Duration;
  cfDivergedTimeout : Duration;
  cfResendLimit : Z;
  cfResendWindow : Duration;
  cfResetLimit : Z;
  cfResetWindow : Duration }.

Definition DefaultConfig : Config :=
  mkConfig (2 * Second) (10 * Second) (15 * Second) (5 * Second) 3 Minute 3 (2 * Minute).

(** [wdReports]: is there a report callback. *)
Record Watchdog := mkWatchdog {
  wdReports : bool;
  wdConfig : Config;
  wdResends : list Time;
  wdResets : list Time }.

Definition eta_Watchdog (w : Watchdog) : Watchdog :=
  mkWatchdog (wdReports w) (wdConfig w) (wdResends w) (wdResets w).
#[export] Instance set_wdResends : Setter wdResends := ltac:(mk_setter eta_Watchdog).
#[export] Instance set_wdResets : Setter wdResets := ltac:(mk_setter eta_Watchdog).

Definition positive_or (value default : Z) : Z := if value <=? 0 then default else value.

(** [New] *)
Definition New (reports : bool) (config : Config) : Watchdog :=
  let d := DefaultConfig in
  mkWatchdog reports
    (mkConfig (positive_or (cfTickEvery config) (cfTickEvery d))
       (positive_or (cfStuckTimeout config) (cfStuckTimeout d))
       (positive_or (cfMissingTimeout config) (cfMissingTimeout d))
       (positive_or (cfDivergedTimeout config) (cfDivergedTimeout d))
       (positive_or (cfResendLimit config) (cfResendLimit d))
       (positive_or (cfResendWindow config) (cfResendWindow d))
       (positive_or (cfResetLimit config) (cfResetLimit d))
       (positive_or (cfResetWindow config) (cfResetWindow d))) [] [].

(** ** Operations *)

Inductive WdCall : Type -> Type :=
| ParticipantsPresent : WdCall bool
| RecoveryHealth : WdCall Health
| ResendKeyPackage : WdCall (option error)
| SoftReset : WdCall (option error)
| Report (event : Event) : WdCall unit.

Abbreviation wprog := (prog Watchdog WdCall Empty_set Empty_set).
Abbreviation wret := (@Ret Watchdog WdCall Empty_set Empty_set _).

(** [pruneOlderThan] *)
Definition pruneOlderThan (stamps : list Time) (cutoff : Time) : list Time :=
  filter (fun stamp => After stamp cutoff = true) stamps.

(** [emit] *)
Definition emit (event : Event) : wprog unit :=
  let* reports := read wdReports in
  if reports then call (Report event) else wret tt.

(** The stamps after the admission of [now], unless the limit is reached. *)
Definition admit_stamp (stamps : list Time) (window limit : Z) (now : Time) : list Time * bool :=
  let stamps := pruneOlderThan stamps (Add now (- window)) in
  if limit <=? Z.of_nat (length stamps) then (stamps, false) else ((stamps ++ [now])%list, true).

Definition reset_section (now : Time) (w : Watchdog) : (bool * Z) * Watchdog :=
  let '(stamps, ok) :=
    admit_stamp (wdResets w) (cfResetWindow (wdConfig w)) (cfResetLimit (wdConfig w)) now in
  ((ok, Z.of_nat (length stamps)), w <| wdResets := stamps |>).

Definition resend_section (now : Time) (w : Watchdog) : (bool * Z) * Watchdog :=
  let '(stamps, ok) :=
    admit_stamp (wdResends w) (cfResendWindow (wdConfig w)) (cfResendLimit (wdConfig w)) now in
  ((ok, Z.of_nat (length stamps)), w <| wdResends := stamps |>).

(** [tryReset] *)
Definition tryReset (now : Time) (reason : string) : wprog unit :=
  let* admitted := atomic (reset_section now) in
  let '(ok, attempt) := admitted in
  if negb ok then wret tt else
  let* limit := read (fun w => cfResetLimit (wdConfig w)) in
  let* err := call SoftReset in
  emit (match err with
        | Some _ => mkEvent "soft_reset" reason "failure" attempt limit "soft_reset_failed"
        | None => mkEvent "soft_reset" reason "success" attempt limit ""
        end).

(** [tryResend] *)
Definition tryResend (now : Time) (reason : string) : wprog unit :=
  let* admitted := atomic (resend_section now) in
  let '(ok, attempt) := admitted in
  if negb ok then wret tt else
  let* limit := read (fun w => cfResendLimit (wdConfig w)) in
  let* err := call ResendKeyPackage in
  match err with
  | Some _ =>
      do* emit (mkEvent "resend_key_package" reason "failure" attempt limit
                  "key_package_resend_failed") in
      tryReset now "welcome_resend_failed"
  | None => emit (mkEvent "resend_key_package" reason "success" attempt limit "")
  end.

(** What a tick decides from the health. *)
Inductive action := NoAction | Resend (reason : string) | Reset_ (reason : string).

Definition decide_action (config : Config) (health : Health) (now : Time) : action :=
  if negb (hlInitialized health) || IsZero (hlOP26SentAt health) then NoAction
  else if negb (IsZero (hlProposalFailedSince health))
          && (cfDivergedTimeout config <? Sub now (hlProposalFailedSince health))
  then Reset_ "epoch_diverged"
  else if negb (hlEpochEstablished health)
          && (cfStuckTimeout config <? Sub now (hlOP26SentAt health))
  then Resend "welcome_timeout"
  else if hlEpochEstablished health && (0 <? hlLastMissing health)
          && negb (IsZero (hlMissingFirstSeen health))
          && (cfMissingTimeout config <? Sub now (hlMissingFirstSeen health))
  then Reset_ "missing_ratchets"
  else NoAction.

(** [Tick]; the recovery and the presence callback are never nil, as [watchDAVE]
    gives both. *)
Definition Tick (now : Time) : wprog unit :=
  let* present := call ParticipantsPresent in
  if negb present then wret tt else
  let* health := call RecoveryHealth in
  let* config := read wdConfig in
  match decide_action config health now with
  | NoAction => wret tt
  | Resend reason => tryResend now reason
  | Reset_ reason => tryReset now reason
  end.

(** The ticks of [Run]: each tick with its trace. *)
Fixpoint watch (en : env Watchdog WdCall) (times : list Time) (k : nat) (w : Watchdog)
    : list (Time * list (obs WdCall Empty_set)) :=
  match times with
  | [] => []
  | now :: times =>
      let '(_, w', tr) := run en (Tick now) k w in
      (now, tr) :: watch en times (k + length tr) w'
  end.

(** ** The rate of recoveries *)

(** The stamps of a window of length [window] that opens after [s]. *)
Definition in_window (s window : Z) (stamps : list Time) : list Time :=
  filter (fun t : Time => s < t <= s + window) stamps.

(** The stamps after a cutoff. *)
Definition recent (cutoff : Z) (stamps : list Time) : list Time :=
  filter (fun t : Time => cutoff < t) stamps.

(** [stamps] holds the admissions of [hist] that are younger than a cutoff no
    later than [last - window], and no window holds more than [limit]. *)
Record limited (window limit last : Z) (hist stamps : list Time) : Prop := {
  li_past : forall t, t ∈ hist -> t <= last;
  li_recent : exists c, c <= last - window /\ stamps = recent c hist;
  li_bound : forall s, Z.of_nat (length (in_window s window hist)) <= limit }.

Lemma prune_recent c d hist : c <= d -> pruneOlderThan (recent c hist) d = recent d hist.
Proof.
  intros Hcd. unfold pruneOlderThan, recent, After. rewrite list_filter_filter.
  apply list_filter_iff. intros t. rewrite Z.ltb_lt. split; [tauto|]. intros Ht. split; [done|].
  by eapply Z.le_lt_trans.
Qed.

Lemma in_window_recent s window now hist :
  now <= s + window ->
  Z.of_nat (length (in_window s window hist)) <= Z.of_nat (length (recent (now - window) hist)).
Proof.
  intros Hn. unfold in_window, recent. induction hist as [|t l IH]; [done|].
  rewrite !filter_cons. destruct (decide (s < t <= s + window)), (decide (now - window < t));
    cbn [length]; lia.
Qed.

Lemma in_window_snoc s window hist now :
  in_window s window (hist ++ [now])%list =
  (in_window s window hist ++ if decide (s < now <= s + window) then [now] else [])%list.
Proof. unfold in_window. rewrite filter_app, filter_cons, filter_nil. by case_decide. Qed.

Lemma recent_snoc c hist now :
  c < now -> recent c (hist ++ [now])%list = (recent c hist ++ [now])%list.
Proof.
  intros Hc. unfold recent. rewrite filter_app, filter_cons, filter_nil. by rewrite decide_True.
Qed.

Lemma admit_limited window limit last now hist stamps :
  0 < window -> 0 < limit -> last <= now -> limited window limit last hist stamps ->
  let '(stamps', ok) := admit_stamp stamps window limit now in
  limited window limit now (if ok then hist ++ [now] else hist)%list stamps'.
Proof.
  intros Hw Hl Hnow [Hpast (c & Hc & ->) Hbound]. unfold admit_stamp, Add.
  rewrite prune_recent by lia. replace (now + - window) with (now - window) by lia.
  destruct (Z.leb_spec limit (Z.of_nat (length (recent (now - window) hist)))).
  - split; [intros t Ht; specialize (Hpast t Ht); lia| |done]. exists (now - window). split; [lia|done].
  - split.
    + intros t [Ht| ->%list_elem_of_singleton]%elem_of_app; [specialize (Hpast t Ht)|]; lia.
    + exists (now - window). split; [lia|]. rewrite recent_snoc by lia. done.
    + intros s. rewrite in_window_snoc, length_app.
      pose proof (in_window_recent s window now hist). pose proof (Hbound s).
      case_decide; cbn [length]; lia.
Qed.

(** ** Recoveries of a trace *)

Definition is_reset (o : obs WdCall Empty_set) : bool :=
  match o with OCall SoftReset _ => true | _ => false end.
Definition is_resend (o : obs WdCall Empty_set) : bool :=
  match o with OCall ResendKeyPackage _ => true | _ => false end.

(** The times, one per observation, and those of a sequence of ticks. *)
Definition count_of (p : obs WdCall Empty_set -> bool) (now : Time)
    (tr : list (obs WdCall Empty_set)) : list Time :=
  (fun _ => now) <$> filter (fun o => p o = true) tr.

Definition times_of (p : obs WdCall Empty_set -> bool)
    (ticks : list (Time * list (obs WdCall Empty_set))) : list Time :=
  ticks ≫= fun tick => count_of p tick.1 tick.2.

(** The watchdog's state belongs to its goroutine: calls do not change it. *)
Definition keeps_watchdog (en : env Watchdog WdCall) : Prop :=
  forall X n (e : WdCall X) w, (env_call en X n e w).2 = w.

Definition watch_ok (last : Time) (resets resends : list Time) (w : Watchdog) : Prop :=
  let c := wdConfig w in
  limited (cfResetWindow c) (cfResetLimit c) last resets (wdResets w) /\
  limited (cfResendWindow c) (cfResendLimit c) last resends (wdResends w).

Lemma count_app p now t1 t2 :
  count_of p now (t1 ++ t2) = (count_of p now t1 ++ count_of p now t2)%list.
Proof. unfold count_of. by rewrite filter_app, fmap_app. Qed.

Lemma emit_run en e k w :
  keeps_watchdog en ->
  let '(_, w', tr) := run en (emit e) k w in
  w' = w /\ forall now, count_of is_reset now tr = [] /\ count_of is_resend now tr = [].
Proof.
  intros Hen. unfold emit. cbn [bind read run]. destruct (wdReports w); cbn [call bind run]; [|done].
  pose proof (Hen _ k (Report e) w) as Hw. destruct (env_call en _ k (Report e) w) as [u w'].
  simpl in *. done.
Qed.

Lemma limited_later window limit last now hist stamps :
  last <= now -> limited window limit last hist stamps -> limited window limit now hist stamps.
Proof.
  intros Hl [Hp (c & Hc & Hs) Hb]. split; [|exists c; split; [lia|done]|done].
  intros t Ht. specialize (Hp t Ht). lia.
Qed.

Definition config_positive (c : Config) : Prop :=
  0 < cfResetWindow c /\ 0 < cfResetLimit c /\ 0 < cfResendWindow c /\ 0 < cfResendLimit c.

(** A method called at [now] keeps the watchdog within its limits. *)
Definition keeps_limits (en : env Watchdog WdCall) (now : Time) (p : wprog unit) : Prop :=
  forall k w last resets resends,
  config_positive (wdConfig w) -> last <= now -> watch_ok last resets resends w ->
  let '(_, w', tr) := run en p k w in
  wdConfig w' = wdConfig w /\
  watch_ok now (resets ++ count_of is_reset now tr) (resends ++ count_of is_resend now tr) w'.

Lemma keeps_quiet en now :
  keeps_limits en now (wret tt).
Proof.
  intros k w last resets resends _ Hl [H1 H2]. simpl. rewrite !app_nil_r.
  split; [done|]. split; by eapply limited_later.
Qed.

Lemma keeps_emit en now e : keeps_watchdog en -> keeps_limits en now (emit e).
Proof.
  intros Hen k w last resets resends Hc Hl Hok.
  pose proof (emit_run en e k w Hen) as He. destruct (run en (emit e) k w) as [[u w'] tr].
  destruct He as [-> He]. destruct (He now) as [-> ->].
  by apply (keeps_quiet en now k w last).
Qed.

Lemma keeps_bind en now (p q : wprog unit) :
  keeps_limits en now p -> keeps_limits en now q -> keeps_limits en now (do* p in q).
Proof.
  intros Hp Hq k w last resets resends Hc Hl Hok. rewrite run_bind.
  specialize (Hp k w last resets resends Hc Hl Hok).
  destruct (run en p k w) as [[u w1] t1]. destruct Hp as [Hcfg Hok1].
  rewrite <- Hcfg in Hc.
  specialize (Hq (k + length t1)%nat w1 now _ _ Hc (Z.le_refl _) Hok1).
  destruct (run en q (k + length t1) w1) as [[u2 w2] t2]. destruct Hq as [Hcfg2 Hok2].
  split; [congruence|]. by rewrite !count_app, !app_assoc.
Qed.

Lemma keeps_tryReset en now reason : keeps_watchdog en -> keeps_limits en now (tryReset now reason).
Proof.
  intros Hen k w last resets resends Hc Hl [Hr Hs]. unfold tryReset. cbn [atomic bind run].
  unfold reset_section.
  pose proof (admit_limited _ _ _ now _ _ (proj1 Hc) (proj1 (proj2 Hc)) Hl Hr) as Ha.
  destruct (admit_stamp _ _ _ now) as [stamps [|]]; cbn [negb bind run read call].
  2:{ simpl. rewrite !app_nil_r. split; [done|]. split; [done|by eapply limited_later]. }
  set (w1 := w <| wdResets := stamps |>).
  pose proof (Hen _ k SoftReset w1) as Hk. destruct (env_call en _ k SoftReset w1) as [err w2].
  cbn [snd] in Hk. subst w2. cbn [bind run].
  match goal with |- context [run en (emit ?e) ?k' w1] =>
    pose proof (keeps_emit en now e Hen k' w1 now (resets ++ [now])%list resends) as He;
    destruct (run en (emit e) k' w1) as [[u w3] tr] end.
  change (OCall SoftReset err :: tr) with ([OCall SoftReset err] ++ tr)%list.
  rewrite !count_app, !app_assoc, app_nil_r. apply He; [done|lia|].
  split; [done|by eapply limited_later].
Qed.

Lemma keeps_tryResend en now reason :
  keeps_watchdog en -> keeps_limits en now (tryResend now reason).
Proof.
  intros Hen k w last resets resends Hc Hl [Hr Hs]. unfold tryResend. cbn [atomic bind run].
  unfold resend_section. pose proof Hc as (_ & _ & Hw & Hlim).
  pose proof (admit_limited _ _ _ now _ _ Hw Hlim Hl Hs) as Ha.
  destruct (admit_stamp _ _ _ now) as [stamps [|]]; cbn [negb bind run read call].
  2:{ simpl. rewrite !app_nil_r. split; [done|]. split; [by eapply limited_later|done]. }
  set (w1 := w <| wdResends := stamps |>).
  pose proof (Hen _ k ResendKeyPackage w1) as Hk.
  destruct (env_call en _ k ResendKeyPackage w1) as [err w2]. cbn [snd] in Hk. subst w2.
  assert (watch_ok now resets (resends ++ [now]) w1) as Hok1
    by (split; [by eapply limited_later|done]).
  match goal with |- context [run en ?p ?k' w1] =>
    assert (keeps_limits en now p) as Hp end.
  { destruct err; [apply keeps_bind|]; auto using keeps_emit, keeps_tryReset. }
  match goal with |- context [run en ?p ?k' w1] =>
    specialize (Hp k' w1 now resets (resends ++ [now])%list Hc (Z.le_refl _) Hok1);
    destruct (run en p k' w1) as [[u w3] tr] end.
  change (OCall ResendKeyPackage err :: tr) with ([OCall ResendKeyPackage err] ++ tr)%list.
  rewrite !count_app, !app_assoc, app_nil_r. apply Hp.
Qed.

Lemma Tick_keeps en now : keeps_watchdog en -> keeps_limits en now (Tick now).
Proof.
  intros Hen k w last resets resends Hc Hl Hok. unfold Tick. cbn [call bind run].
  pose proof (Hen _ k ParticipantsPresent w) as H1.
  destruct (env_call en _ k ParticipantsPresent w) as [present w1]. cbn [snd] in H1. subst w1.
  match goal with |- context [run en ?p (S k) w] => assert (keeps_limits en now p) as Hp end.
  { destruct present; cbn [negb]; [|apply keeps_quiet].
    intros k2 w2 last2 resets2 resends2 Hc2 Hl2 Hok2. cbn [call bind run].
    pose proof (Hen _ k2 RecoveryHealth w2) as H2.
    destruct (env_call en _ k2 RecoveryHealth w2) as [health w3]. cbn [snd] in H2. subst w3.
    cbn [read bind run].
    match goal with |- context [run en ?p (S k2) w2] => assert (keeps_limits en now p) as Hp end.
    { destruct (decide_action _ _ _);
        auto using keeps_quiet, keeps_tryResend, keeps_tryReset. }
    specialize (Hp (S k2) w2 last2 resets2 resends2 Hc2 Hl2 Hok2).
    match goal with |- context [run en ?p (S k2) w2] =>
      destruct (run en p (S k2) w2) as [[u w4] tr] end.
    exact Hp. }
  specialize (Hp (S k) w last resets resends Hc Hl Hok).
  match goal with |- context [run en ?p (S k) w] => destruct (run en p (S k) w) as [[u w4] tr] end.
  exact Hp.
Qed.

Lemma watch_limited en times k w last resets resends :
  keeps_watchdog en -> config_positive (wdConfig w) -> StronglySorted Z.le (last :: times) ->
  watch_ok last resets resends w ->
  let ticks := watch en times k w in
  (forall s, Z.of_nat (length (in_window s (cfResetWindow (wdConfig w))
     (resets ++ times_of is_reset ticks))) <= cfResetLimit (wdConfig w)) /\
  (forall s, Z.of_nat (length (in_window s (cfResendWindow (wdConfig w))
     (resends ++ times_of is_resend ticks))) <= cfResendLimit (wdConfig w)).
Proof.
  intros Hen. revert k w last resets resends.
  induction times as [|now times IH]; intros k w last resets resends Hc Hsorted Hok.
  - destruct Hok as [[_ _ H1] [_ _ H2]]. simpl. rewrite !app_nil_r. done.
  - apply StronglySorted_inv in Hsorted as [Hsorted Hall].
    assert (last <= now) as Hl by (rewrite Forall_forall in Hall; apply Hall, list_elem_of_here).
    pose proof (Tick_keeps en now Hen k w last resets resends Hc Hl Hok) as Ht. cbn [watch].
    destruct (run en (Tick now) k w) as [[u w'] tr]. destruct Ht as [Hcfg Hok'].
    rewrite <- Hcfg in Hc |- *.
    specialize (IH (k + length tr)%nat w' now _ _ Hc Hsorted Hok'). cbv zeta in *.
    unfold times_of in *. cbn [mbind list_bind fst snd]. by rewrite !app_assoc.
Qed.

(** C35: recovery never floods the session. Whatever the health of the session and
    the outcome of every request, over any sequence of ticks the watchdog
    resets the session at most [ResetLimit] times and resends the key package
    at most [ResendLimit] times within any window of the configured length, at
    whatever moment the window opens; the limits hold with the defaults when the
    configuration leaves them out. *)
Theorem recoveries_rate_bounded en config reports times k :
  keeps_watchdog en -> StronglySorted Z.le times ->
  let w := New reports config in
  let ticks := watch en times k w in
  (forall s, Z.of_nat (length (in_window s (cfResetWindow (wdConfig w)) (times_of is_reset ticks)))
     <= cfResetLimit (wdConfig w)) /\
  (forall s, Z.of_nat (length (in_window s (cfResendWindow (wdConfig w)) (times_of is_resend ticks)))
     <= cfResendLimit (wdConfig w)).
Proof.
  intros Hen Hs w ticks.
  assert (config_positive (wdConfig w)) as Hc.
  { assert (forall v d, 0 < d -> 0 < positive_or v d) as Hp
      by (intros v d Hd; unfold positive_or; destruct (Z.leb_spec v 0); lia).
    unfold config_positive, w, New. simpl. repeat split; apply Hp; done. }
  assert (forall window limit last, 0 < limit -> limited window limit last [] []) as H0.
  { intros window limit last Hl. split; [by intros t ?%not_elem_of_nil| |].
    - exists (last - window). split; [lia|done].
    - intros s. simpl. lia. }
  destruct times as [|t0 times].
  { subst ticks. destruct Hc as (_ & H1 & _ & H2). split; intros s; apply Z.lt_le_incl; assumption. }
  apply (watch_limited en (t0 :: times) k w t0 [] []); [done|done| |].
  - constructor; [done|]. apply StronglySorted_inv in Hs as [_ Hs]. by constructor.
  - destruct Hc as (_ & ? & _ & ?). split; apply H0; done.
Qed.

(** ** Witness: a session that never recovers, ticked every two seconds *)
Module Sample.
Definition health : Health := mkHealth true 1 true true 0 0 1.

Definition en : env Watchdog WdCall :=
  Build_env (fun X _ (e : WdCall X) w =>
    (match e in WdCall Y return Y with
     | ParticipantsPresent => true
     | RecoveryHealth => health
     | ResendKeyPackage => None
     | SoftReset => None
     | Report _ => tt
     end, w)) (fun _ _ _ w => (false, w)).

Definition times : list Time :=
  (fun n => Z.of_nat n * (2 * Second)) <$> seq 1 90.

Definition w0 : Watchdog := New true (mkConfig 0 0 0 0 0 0 0 0).

Definition resets : list Time := times_of is_reset (watch en times 0 w0).

Lemma recoveries_rate_bounded_witness :
  length resets = 6%nat /\ 
  Z.of_nat (length (in_window 0 (cfResetWindow (wdConfig w0)) resets)) <= cfResetLimit (wdConfig w0).
Proof.
  assert (keeps_watchdog en) as Hen by (intros X n e w; reflexivity).
  assert (StronglySorted Z.le times) as Hs.
  { unfold times. apply Sorted_StronglySorted; [intros x y z; apply Z.le_trans|].
    vm_compute. repeat constructor; discriminate. }
  split; [vm_compute; reflexivity|].
  destruct (recoveries_rate_bounded en (mkConfig 0 0 0 0 0 0 0 0) true times 0 Hen Hs) as [Hr _].
  exact (Hr 0).
Defined.
End Sample.
