(* ===== verification/AudioForward.v ===== *)
(** * AudioForward: delivering Opus batches to the encoder

    [internal/audioforward]: the retry delays and the parent timeout of a
    forwarding request, the request with its retries, and the bounded batch
    queue in front of it.  Durations are [int64] nanoseconds and wrap; [FwCall]
    are the HTTP round trip and the sleep between attempts.  The endpoint is
    computed from the parsed base URL; the body of the request is in [Wire]. *)

From S2P Require Import Prelude Conc Errors Urls.

Open Scope go_scope.

(** ** Configuration and data *)

Record Config := mkConfig {
  cfTimeout : Duration;
  cfRetryMax : Z;
  cfRetryBaseDelay : Duration }.

Definition defaultForwardOpusRequestTimeout : Duration := 5 * Second.
Definition maxForwardOpusRequestTimeout : Duration := 30 * Second.

Record OpusPacket := mkOpusPacket {
  opSSRC : Z;
  opUserID : string;
  opJobGeneration : Z;
  opConnectionGeneration : Z;
  opSequence : Z;
  opTimestamp : Z;
  opReceivedAt : Time;
  opOpus : list Byte.byte }.

Definition eta_OpusPacket (r : OpusPacket) : OpusPacket :=
  mkOpusPacket (opSSRC r) (opUserID r) (opJobGeneration r) (opConnectionGeneration r)
    (opSequence r) (opTimestamp r) (opReceivedAt r) (opOpus r).
#[export] Instance set_opReceivedAt : Setter opReceivedAt := ltac:(mk_setter eta_OpusPacket).

(** [ingestRequest]; a [packetWire] is the packet with its receive time set and
    its payload in base64. *)
Record ingestRequest := mkIngest {
  irStreamID : string;
  irSource : string;
  irPackets : list OpusPacket }.

(** ** Delays *)

(** [delay *= 2], [n] times. *)
Fixpoint double (n : nat) (delay : Duration) : Duration :=
  match n with O => delay | S n => double n (dbl delay) end.

(** [retryDelay] *)
Definition retryDelay (base : Duration) (attempt : Z) : Duration :=
  if base <=? 0 then 0
  else
    let delay := double (Z.to_nat (attempt - 1)) base in
    if 30 * Second <? delay then 30 * Second else delay.

(** The loop of [ForwardOpusRequestTimeout]: [n] attempts from [attempt] on;
    [inl] returns from the function. *)
Fixpoint budget_loop (n : nat) (perAttempt base : Duration) (attempt : Z) (budget : Duration)
    : Duration + Duration :=
  match n with
  | O => inr budget
  | S n =>
      if wrap64 (maxForwardOpusRequestTimeout - budget) <=? perAttempt
      then inl maxForwardOpusRequestTimeout
      else
        let budget := wrap64 (budget + perAttempt) in
        match n with
        | O => inr budget
        | S _ =>
            let delay := retryDelay base attempt in
            if wrap64 (maxForwardOpusRequestTimeout - budget) <=? delay
            then inl maxForwardOpusRequestTimeout
            else budget_loop n perAttempt base (attempt + 1) (wrap64 (budget + delay))
        end
  end.

Definition attempts_of (config : Config) : Z :=
  if cfRetryMax config <=? 0 then 1 else cfRetryMax config.

Definition per_attempt (config : Config) : Duration :=
  if cfTimeout config <=? 0 then defaultForwardOpusRequestTimeout else cfTimeout config.

(** [ForwardOpusRequestTimeout] *)
Definition ForwardOpusRequestTimeout (config : Config) : Duration :=
  match budget_loop (Z.to_nat (attempts_of config)) (per_attempt config)
          (cfRetryBaseDelay config) 1 Second with
  | inl timeout => timeout
  | inr budget =>
      if budget <? defaultForwardOpusRequestTimeout then defaultForwardOpusRequestTimeout
      else if maxForwardOpusRequestTimeout <? budget then maxForwardOpusRequestTimeout
      else budget
  end.

(** ** The request *)

(** [Marshal] and [NewRequest] may fail; the context of the request is canceled
    after [timeout]. *)
Inductive FwCall : Type -> Type :=
| Marshal (request : ingestRequest) : FwCall (option error)
| NewRequest (endpoint : string) : FwCall (option error)
| Post (endpoint token : string) (timeout : option Duration) (request : ingestRequest)
    : FwCall (Z + error)
| Sleep (delay : Duration) : FwCall (option error)
| Now : FwCall Time.

Abbreviation fprog := (prog unit FwCall Empty_set Empty_set).
Abbreviation fret := (@Ret unit FwCall Empty_set Empty_set _).

Definition isRetryableStatus (status : Z) : bool :=
  (status =? 408) || (status =? 409) || (status =? 429) || (500 <=? status).

(** [sleep] *)
Definition sleep (delay : Duration) : fprog (option error) :=
  if delay <=? 0 then fret None else call (Sleep delay).

Definition errIngest (status : Z) : error :=
  ErrNew ("encoder audio ingest failed with status " ++ itoa status).

(** The outcome of one attempt: the answer of [ForwardOpus], or [lastErr]. *)
Definition attempt_outcome (answer : Z + error) : option error + error :=
  match answer with
  | inr err => inr err
  | inl status =>
      if (200 <=? status) && (status <? 300) then inl None
      else if isRetryableStatus status then inr (errIngest status)
      else inl (Some (errIngest status))
  end.

(** The loop of [ForwardOpus]. *)
Fixpoint forward_loop (n : nat) (config : Config) (endpoint token : string)
    (request : ingestRequest) (attempt : Z) (lastErr : option error) : fprog (option error) :=
  match n with
  | O => fret lastErr
  | S n =>
      let timeout := if 0 <? cfTimeout config then Some (cfTimeout config) else None in
      let* invalid := call (NewRequest endpoint) in
      match invalid with
      | Some e => fret (Some e)
      | None =>
      let* answer := call (Post endpoint token timeout request) in
      match attempt_outcome answer with
      | inl result => fret result
      | inr err =>
          match n with
          | O => forward_loop n config endpoint token request (attempt + 1) (Some err)
          | S _ =>
              let* failed := sleep (retryDelay (cfRetryBaseDelay config) attempt) in
              match failed with
              | Some e => fret (Some e)
              | None => forward_loop n config endpoint token request (attempt + 1) (Some err)
              end
          end
      end
      end
  end.

(** The packets on the wire: those with a payload, received now if unknown. *)
Fixpoint wire_packets (packets : list OpusPacket) : fprog (list OpusPacket) :=
  match packets with
  | [] => fret []
  | packet :: packets =>
      if bool_decide (opOpus packet = []) then wire_packets packets
      else
        let* packet :=
          if IsZero (opReceivedAt packet)
          then let* now := call Now in fret (packet <| opReceivedAt := now |>)
          else fret packet in
        let* rest := wire_packets packets in
        fret (packet :: rest)
  end.

(** [isLocalDevHost] of this package *)
Definition isLocalDevHost (host : string) : bool :=
  let normalized :=
    trim bracket (string_of_list_ascii (lower_bytes (list_ascii_of_string (TrimSpace host)))) in
  (normalized =s "localhost") || (normalized =s "127.0.0.1") || (normalized =s "host.docker.internal").

Section Endpoint.
Context `{URLParse} `{URLText}.

(** [audioEndpoint] *)
Definition audioEndpoint (baseURL streamID : string) : string + error :=
  match url_parse baseURL with
  | None => inr (ErrNew "encoder_audio_url must be an absolute URL")
  | Some parsed =>
      if (guScheme parsed =s "") || (guHost parsed =s "")
      then inr (ErrNew "encoder_audio_url must be an absolute URL")
      else if (guScheme parsed <>s "https") && (guScheme parsed <>s "http")
      then inr (ErrNew "encoder_audio_url scheme is not allowed")
      else if guUser parsed then inr (ErrNew "encoder_audio_url must not include credentials")
      else if (guRawQuery parsed <>s "") || (guFragment parsed <>s "")
      then inr (ErrNew "encoder_audio_url must not include query or fragment")
      else if (guScheme parsed =s "http") && negb (isLocalDevHost (guHostname parsed))
      then inr (ErrNew "encoder_audio_url must use https for remote hosts")
      else
        let pathPrefix := TrimRightSlash (EscapedPath (guPath parsed) (url_raw_path parsed)) in
        let rawPath := pathPrefix ++ "/streams/" ++ PathEscape streamID ++ "/audio/opus" in
        let path := TrimRightSlash (guPath parsed) ++ "/streams/" ++ streamID ++ "/audio/opus" in
        inl (url_text parsed (EscapedPath path rawPath))
  end.

(** [ForwardOpus] *)
Definition ForwardOpus (config : Config) (encoderAudioURL streamID source tokenOverride : string)
    (packets : list OpusPacket) : fprog (option error) :=
  if blank encoderAudioURL then fret (Some (ErrNew "encoder_audio_url is required"))
  else if blank streamID then fret (Some (ErrNew "stream_id is required"))
  else
  let source := if blank source then "discord-bot" else source in
  if bool_decide (packets = []) then fret None
  else
  let token := TrimSpace tokenOverride in
  if token =s "" then fret (Some (ErrNew "stream_ingest_token is required"))
  else
  match audioEndpoint encoderAudioURL streamID with
  | inr err => fret (Some err)
  | inl endpoint =>
      let* wire := wire_packets packets in
      if bool_decide (wire = []) then fret None
      else
        let request := mkIngest streamID source wire in
        let* failed := call (Marshal request) in
        match failed with
        | Some e => fret (Some e)
        | None => forward_loop (Z.to_nat (attempts_of config)) config endpoint token request 1 None
        end
  end.
End Endpoint.

(** ** The batch queue *)

(** The channel with its capacity. *)
Record BatchQueue := mkBatchQueue { bqCapacity : Z; bqBatches : list (list OpusPacket) }.

Definition NewBatchQueue (capacity : Z) : BatchQueue :=
  mkBatchQueue (if capacity <? 1 then 1 else capacity) [].

(** [Enqueue]; a batch is a value here, so the copy is the batch itself. *)
Definition Enqueue (batch : list OpusPacket) (q : BatchQueue) : bool * BatchQueue :=
  if bool_decide (batch = []) then (false, q)
  else if Z.of_nat (length (bqBatches q)) <? bqCapacity q
  then (true, mkBatchQueue (bqCapacity q) (bqBatches q ++ [batch])%list)
  else (false, q).

(** One turn of [Run].  The cancellation of the context is seen by the [select],
    after the batch was received, or after it was sent; with nothing queued a
    turn that is not canceled blocks. *)
Inductive cancellation := NotCanceled | AtSelect | BeforeSend | DuringSend.

Record turn := mkTurn {
  tnSent : option (list OpusPacket);
  tnResult : option (Z * option error);
  tnReturned : bool }.

Definition run_turn (canceled : cancellation) (send : list OpusPacket -> option error)
    (q : BatchQueue) : turn * BatchQueue :=
  match canceled, bqBatches q with
  | AtSelect, _ => (mkTurn None None true, q)
  | _, [] => (mkTurn None None false, q)
  | canceled, batch :: rest =>
      let q := mkBatchQueue (bqCapacity q) rest in
      match canceled with
      | BeforeSend => (mkTurn None None true, q)
      | DuringSend => (mkTurn (Some batch) None true, q)
      | _ => (mkTurn (Some batch) (Some (Z.of_nat (length batch), send batch)) false, q)
      end
  end.

(** The queue with its consumer: what producers had accepted, what was sent and
    what the result callback was told. *)
Record delivery := mkDelivery {
  dlQueue : BatchQueue;
  dlRunning : bool;
  dlAccepted : list (list OpusPacket);
  dlSent : list (list OpusPacket);
  dlResults : list (Z * option error) }.

Inductive queue_op :=
| OpEnqueue (batch : list OpusPacket)
| OpTurn (canceled : cancellation) (answer : option error).

Definition opt_list {A} (o : option A) : list A := match o with Some a => [a] | None => [] end.

Definition queue_step (d : delivery) (op : queue_op) : delivery :=
  match op with
  | OpEnqueue batch =>
      let '(ok, q) := Enqueue batch (dlQueue d) in
      mkDelivery q (dlRunning d) (dlAccepted d ++ if ok then [batch] else [])
        (dlSent d) (dlResults d)
  | OpTurn canceled answer =>
      if dlRunning d then
        let '(t, q) := run_turn canceled (fun _ => answer) (dlQueue d) in
        mkDelivery q (negb (tnReturned t)) (dlAccepted d)
          (dlSent d ++ opt_list (tnSent t)) (dlResults d ++ opt_list (tnResult t))
      else d
  end.

Definition queue_history (capacity : Z) (ops : list queue_op) : delivery :=
  fold_left queue_step ops (mkDelivery (NewBatchQueue capacity) true [] [] []).

(** ** The parent timeout *)

(** The delay without the width of [time.Duration]. *)
Definition ideal_delay (base : Duration) (attempt : Z) : Duration :=
  if base <=? 0 then 0 else Z.min (30 * Second) (base * 2 ^ (attempt - 1)).

(** Time for [n] attempts from [attempt] on, with the delays between them. *)
Fixpoint schedule (n : nat) (perAttempt base : Duration) (attempt : Z) : Duration :=
  match n with
  | O => 0
  | S O => perAttempt
  | S n => perAttempt + ideal_delay base attempt + schedule n perAttempt base (attempt + 1)
  end.

Lemma double_exact n delay :
  0 < delay -> delay * 2 ^ Z.of_nat n <= max_int64 -> double n delay = delay * 2 ^ Z.of_nat n.
Proof.
  revert delay. induction n as [|n IH]; intros delay Hpos Hle; [simpl; lia|].
  rewrite Nat2Z.inj_succ, Z.pow_succ_r in * by lia.
  assert (0 < 2 ^ Z.of_nat n) by (apply Z.pow_pos_nonneg; lia).
  cbn [double]. rewrite dbl_small by (zconst; nia).
  rewrite IH by lia. lia.
Qed.

Lemma retryDelay_exact base attempt :
  1 <= attempt -> base <= 0 \/ base * 2 ^ (attempt - 1) <= max_int64 ->
  retryDelay base attempt = ideal_delay base attempt.
Proof.
  intros Ha Hb. unfold retryDelay, ideal_delay. destruct (Z.leb_spec base 0); [done|].
  rewrite double_exact by (rewrite ?Z2Nat.id; lia). rewrite Z2Nat.id by lia.
  destruct (Z.ltb_spec (30 * Second) (base * 2 ^ (attempt - 1))); lia.
Qed.

Lemma ideal_delay_nonneg base attempt : 0 <= ideal_delay base attempt.
Proof.
  unfold ideal_delay. destruct (Z.leb_spec base 0); [done|].
  pose proof (Z.pow_nonneg 2 (attempt - 1)). unfold Second. lia.
Qed.

Lemma schedule_nonneg n perAttempt base attempt :
  0 <= perAttempt -> 0 <= schedule n perAttempt base attempt.
Proof.
  intros Hp. revert attempt. induction n as [|[|n] IH]; intros attempt; [done|done|].
  pose proof (ideal_delay_nonneg base attempt). specialize (IH (attempt + 1)).
  change (0 <= perAttempt + ideal_delay base attempt + schedule (S n) perAttempt base (attempt + 1)).
  lia.
Qed.

(** The next delay does not overflow when the current one is below the cap. *)
Lemma next_delay_fits base attempt :
  1 <= attempt -> ideal_delay base attempt < 30 * Second ->
  base <= 0 \/ base * 2 ^ (attempt + 1 - 1) <= max_int64.
Proof.
  unfold ideal_delay. intros Ha. destruct (Z.leb_spec base 0); [by left|]. intros Hd. right.
  replace (attempt + 1 - 1) with (Z.succ (attempt - 1)) by lia.
  rewrite Z.pow_succ_r by lia. unfold Second in *. zconst. lia.
Qed.

Lemma budget_loop_exact n perAttempt base attempt budget :
  1 <= attempt -> 0 < perAttempt <= max_int64 ->
  base <= 0 \/ base * 2 ^ (attempt - 1) <= max_int64 ->
  0 <= budget < maxForwardOpusRequestTimeout ->
  match budget_loop n perAttempt base attempt budget with
  | inl t => t = maxForwardOpusRequestTimeout /\
      maxForwardOpusRequestTimeout <= budget + schedule n perAttempt base attempt
  | inr t => t = budget + schedule n perAttempt base attempt
  end.
Proof.
  revert attempt budget. induction n as [|n IH]; intros attempt budget Ha Hp Hb Hbud;
    [simpl; lia|].
  pose proof (ideal_delay_nonneg base attempt) as Hd0.
  pose proof (schedule_nonneg n perAttempt base (attempt + 1)) as Hs0.
  unfold maxForwardOpusRequestTimeout, Second in *. cbn [budget_loop].
  rewrite wrap64_small by (unfold maxForwardOpusRequestTimeout, Second; zconst; lia).
  unfold maxForwardOpusRequestTimeout, Second.
  destruct (Z.leb_spec (30 * 1000000000 - budget) perAttempt) as [Hge|Hlt].
  { split; [done|]. destruct n; [simpl; lia|]. change (schedule (S (S n)) perAttempt base attempt)
      with (perAttempt + ideal_delay base attempt + schedule (S n) perAttempt base (attempt + 1)).
    lia. }
  rewrite (wrap64_small (budget + perAttempt)) by (zconst; lia).
  destruct n as [|n]; [simpl; lia|]. rewrite retryDelay_exact by done.
  change (schedule (S (S n)) perAttempt base attempt)
    with (perAttempt + ideal_delay base attempt + schedule (S n) perAttempt base (attempt + 1)).
  rewrite wrap64_small by (zconst; lia).
  destruct (Z.leb_spec (30 * 1000000000 - (budget + perAttempt)) (ideal_delay base attempt));
    [split; [done|lia]|].
  rewrite wrap64_small by (zconst; lia).
  specialize (IH (attempt + 1) (budget + perAttempt + ideal_delay base attempt)).
  assert (ideal_delay base attempt < 30 * Second) as Hd by (unfold Second; lia).
  specialize (IH ltac:(lia) Hp (next_delay_fits _ _ Ha Hd) ltac:(lia)).
  destruct budget_loop; lia.
Qed.

(** The timeout of a whole forwarding request leaves room for every attempt.
    For every configuration of [time.Duration] values it is one second plus the
    sum of the attempts' own timeouts and of the delays between them, limited to
    between five and thirty seconds; no product or sum of the computation ever
    overflows, however many attempts are configured. *)
Theorem ForwardOpusRequestTimeout_closed_form config :
  cfTimeout config <= max_int64 -> cfRetryBaseDelay config <= max_int64 ->
  ForwardOpusRequestTimeout config =
  Z.max (5 * Second)
    (Z.min (30 * Second)
       (Second + schedule (Z.to_nat (attempts_of config)) (per_attempt config)
                   (cfRetryBaseDelay config) 1)).
Proof.
  intros Ht Hb.
  assert (0 < per_attempt config <= max_int64) as Hp.
  { unfold per_attempt. destruct (Z.leb_spec (cfTimeout config) 0);
      [unfold defaultForwardOpusRequestTimeout, Second; zconst|]; lia. }
  pose proof (budget_loop_exact (Z.to_nat (attempts_of config)) (per_attempt config)
    (cfRetryBaseDelay config) 1 Second) as Hl.
  unfold ForwardOpusRequestTimeout, maxForwardOpusRequestTimeout, defaultForwardOpusRequestTimeout in *.
  unfold Second in *.
  destruct budget_loop as [t|t].
  - destruct Hl as [-> Hl]; [lia|done|right; rewrite Z.mul_1_r; lia|lia|]. lia.
  - rewrite Hl by (try done; try lia; right; rewrite Z.mul_1_r; lia).
    repeat match goal with |- context [?a <? ?b] => destruct (Z.ltb_spec a b) end; lia.
Qed.

(** ** The attempts of a request *)

(** The answers of the encoder and the requests it was sent, in order. *)
Definition answer_of {X} (e : FwCall X) : X -> list (Z + error) :=
  match e in FwCall Y return Y -> list (Z + error) with
  | Post _ _ _ _ => fun answer => [answer]
  | _ => fun _ => []
  end.

Definition answers (tr : list (obs FwCall Empty_set)) : list (Z + error) :=
  tr ≫= fun o => match o with OCall e x => answer_of e x | _ => [] end.

Definition post_of {X} (e : FwCall X) : list (string * string * ingestRequest) :=
  match e with
  | Post endpoint token _ request => [(endpoint, token, request)]
  | _ => []
  end.

Definition posts (tr : list (obs FwCall Empty_set)) : list (string * string * ingestRequest) :=
  tr ≫= fun o => match o with OCall e _ => post_of e | _ => [] end.

Lemma answers_app tr1 tr2 : answers (tr1 ++ tr2) = (answers tr1 ++ answers tr2)%list.
Proof. apply bind_app. Qed.

Lemma posts_app tr1 tr2 : posts (tr1 ++ tr2) = (posts tr1 ++ posts tr2)%list.
Proof. apply bind_app. Qed.

Lemma answers_cons X (e : FwCall X) x tr : answers (OCall e x :: tr) = (answer_of e x ++ answers tr)%list.
Proof. done. Qed.

Lemma posts_cons X (e : FwCall X) x tr : posts (OCall e x :: tr) = (post_of e ++ posts tr)%list.
Proof. done. Qed.

Definition accepted (answer : Z + error) : Prop := attempt_outcome answer = inl None.
Definition retried (answer : Z + error) : Prop := exists e, attempt_outcome answer = inr e.

(** What a request came to, from its answers in order. *)
Definition outcome (result : option error) (l : list (Z + error)) : Prop :=
  match result with
  | None => exists l' a, l = (l' ++ [a])%list /\ Forall retried l' /\ accepted a
  | Some _ => Forall (fun a => ~ accepted a) l
  end.

Lemma outcome_cons result a l : retried a -> outcome result l -> outcome result (a :: l).
Proof.
  intros [e Ha]. destruct result as [e'|]; simpl.
  - intros Hl. constructor; [|done]. unfold accepted. congruence.
  - intros (l' & x & -> & Hl & Hx). exists (a :: l'), x. split; [done|]. split; [|done].
    constructor; [by exists e|done].
Qed.

Lemma run_sleep en delay k s :
  let '(_, _, tr) := run en (sleep delay) k s in answers tr = [] /\ posts tr = [].
Proof.
  unfold sleep. destruct (delay <=? 0); [done|]. simpl.
  by destruct (env_call en _ k (Sleep delay) s).
Qed.

Lemma forward_loop_outcome en n config endpoint token request attempt lastErr k s :
  (0 < n)%nat \/ lastErr <> None ->
  let '(result, _, tr) :=
    run en (forward_loop n config endpoint token request attempt lastErr) k s in
  (length (posts tr) <= n)%nat /\
  Forall (eq (endpoint, token, request)) (posts tr) /\
  outcome result (answers tr).
Proof.
  revert attempt lastErr k s. induction n as [|n IH]; intros attempt lastErr k s Hn.
  { destruct Hn as [Hn|Hn]; [lia|]. destruct lastErr; [|done]. simpl. by repeat split. }
  cbn [forward_loop bind call run].
  destruct (env_call en _ k (NewRequest endpoint) s) as [[e|] s1]; [simpl; repeat split; [lia|done|done]|].
  cbn [bind call run].
  destruct (env_call en _ _ (Post endpoint token _ request) s1) as [answer s2].
  cbn [bind run].
  destruct (attempt_outcome answer) as [[e|]|e] eqn:Ho; cbn [run].
  - simpl. split; [lia|]. split; [by repeat constructor|]. repeat constructor. unfold accepted. congruence.
  - simpl. split; [lia|]. split; [by repeat constructor|]. by exists [], answer.
  - assert (retried answer) as Hr by (by exists e).
    assert (forall k' s', let '(result, _, tr) := run en (forward_loop n config endpoint token request
        (attempt + 1) (Some e)) k' s' in
      (length (posts tr) <= n)%nat /\ Forall (eq (endpoint, token, request)) (posts tr) /\
      outcome result (answers tr)) as IH' by (intros; apply IH; by right).
    clear IH. destruct n as [|n'].
    + simpl. split; [lia|]. split; [by repeat constructor|]. apply (outcome_cons (Some e)); [done|]. constructor.
    + rewrite run_bind. set (delay := retryDelay _ _).
      pose proof (run_sleep en delay (S (S k)) s2) as Hsl.
      destruct (run en (sleep delay) (S (S k)) s2) as [[failed s3] tr1].
      destruct Hsl as [Ha Hp]. destruct failed as [e'|].
      * cbn [run]. rewrite !answers_cons, !posts_cons, app_nil_r, Ha, Hp.
        split; [simpl; lia|]. split; [by repeat constructor|].
        apply (outcome_cons (Some e')); [done|]. constructor.
      * specialize (IH' (S (S k) + length tr1)%nat s3).
        destruct (run en (forward_loop _ _ _ _ _ _ _) _ s3) as [[result s4] tr2].
        rewrite !answers_cons, !posts_cons, answers_app, posts_app, Ha, Hp. simpl.
        destruct IH' as (Hl & Hf & Hout). split; [lia|]. split; [by constructor|].
        by apply outcome_cons.
Qed.

(** A packet on the wire for a packet of the batch. *)
Definition has_payload (packet : OpusPacket) : bool := negb (bool_decide (opOpus packet = [])).

Definition wire_of (packet wire : OpusPacket) : Prop :=
  if IsZero (opReceivedAt packet) then exists now, wire = packet <| opReceivedAt := now |>
  else wire = packet.

Lemma wire_packets_spec en packets k s :
  let '(wire, _, tr) := run en (wire_packets packets) k s in
  Forall2 wire_of (filter has_payload packets) wire /\ answers tr = [] /\ posts tr = [].
Proof.
  revert k s. induction packets as [|p packets IH]; intros k s; [by repeat constructor|].
  cbn [wire_packets]. case_bool_decide as Hp.
  { rewrite filter_cons_False; [by apply IH|]. unfold has_payload. rewrite bool_decide_true by done. simpl. tauto. }
  rewrite filter_cons_True by (unfold has_payload; rewrite bool_decide_false by done; exact I).
  destruct (IsZero (opReceivedAt p)) eqn:Hz; cbn [bind call run].
  - destruct (env_call en _ k Now s) as [now s1]. cbn [bind run]. rewrite run_bind.
    specialize (IH (S k) s1). destruct (run en (wire_packets packets) (S k) s1) as [[wire s2] tr].
    destruct IH as (Hw & Ha & Hps). cbn [run]. rewrite app_nil_r, answers_cons, posts_cons.
    rewrite Ha, Hps. split; [|done]. constructor; [|done]. unfold wire_of. rewrite Hz. by exists now.
  - rewrite run_bind. specialize (IH k s).
    destruct (run en (wire_packets packets) k s) as [[wire s2] tr].
    destruct IH as (Hw & Ha & Hps). cbn [run]. rewrite app_nil_r.
    split; [|done]. constructor; [|done]. unfold wire_of. by rewrite Hz.
Qed.

(** What one request of a batch carries. *)
Definition carries (endpoint : string + error) (token streamID source : string)
    (packets : list OpusPacket) (p : string * string * ingestRequest) : Prop :=
  endpoint = inl p.1.1 /\ p.1.2 = TrimSpace token /\ irStreamID p.2 = streamID /\
  irSource p.2 = (if blank source then "discord-bot" else source) /\
  Forall2 wire_of (filter has_payload packets) (irPackets p.2).

(** The answer of a batch that needs no request: one that lacks a field or has a bad
    address, or that has nothing to send. *)
Definition without_request `{URLParse} `{URLText} (url streamID token : string) (packets : list OpusPacket)
    : option (option error) :=
  if blank url then Some (Some (ErrNew "encoder_audio_url is required"))
  else if blank streamID then Some (Some (ErrNew "stream_id is required"))
  else if bool_decide (packets = []) then Some None
  else if blank token then Some (Some (ErrNew "stream_ingest_token is required"))
  else match audioEndpoint url streamID with
       | inr err => Some (Some err)
       | inl _ => if bool_decide (filter has_payload packets = []) then Some None else None
       end.


(** ** The queue delivers in order *)

(** The batches sent, those waiting, and the one that was taken when the
    consumer saw the cancellation. *)
Definition queue_inv (capacity : Z) (d : delivery) : Prop :=
  bqCapacity (dlQueue d) = Z.max 1 capacity /\
  Z.of_nat (length (bqBatches (dlQueue d))) <= Z.max 1 capacity /\
  (exists dropped, (length dropped <= 1)%nat /\
     (dlRunning d = true -> dropped = []) /\
     dlAccepted d = (dlSent d ++ dropped ++ bqBatches (dlQueue d))%list) /\
  (exists unreported, (length unreported <= 1)%nat /\
     (dlRunning d = true -> unreported = []) /\
     dlSent d = (take (length (dlResults d)) (dlSent d) ++ unreported)%list /\
     (dlResults d).*1 = (fun b => Z.of_nat (length b)) <$> take (length (dlResults d)) (dlSent d)).

Lemma enqueue_inv capacity d batch :
  queue_inv capacity d -> queue_inv capacity (queue_step d (OpEnqueue batch)).
Proof.
  intros (Hc & Hlen & (dr & Hdr & Hrun & Hacc) & Hres). unfold queue_inv, queue_step, Enqueue.
  case_bool_decide; [|destruct (Z.ltb_spec (Z.of_nat (length (bqBatches (dlQueue d)))) (bqCapacity (dlQueue d)))];
    simpl; (split; [done|]); (split; [rewrite ?length_app; simpl; lia|]); (split; [|done]);
    exists dr; rewrite ?app_nil_r, Hacc, <- ?app_assoc; by split_and!.
Qed.

Lemma take_snoc_inv {A B} (r : list A) (l : list B) x y :
  length r = length l -> take (length (r ++ [x])%list) (l ++ [y]) = (l ++ [y])%list.
Proof. intros Hl. apply take_ge. rewrite !length_app. simpl. lia. Qed.

Lemma turn_inv capacity d canceled answer :
  queue_inv capacity d -> queue_inv capacity (queue_step d (OpTurn canceled answer)).
Proof.
  intros Hd. pose proof Hd as (Hc & Hlen & (dr & Hdr & Hrun & Hacc) & (un & Hun & Hrun' & Hsent & Hres)).
  unfold queue_step. destruct (dlRunning d) eqn:Hr; [|done].
  specialize (Hrun eq_refl). specialize (Hrun' eq_refl). subst dr un. simpl in Hacc.
  rewrite app_nil_r in Hsent.
  assert (length (dlResults d) = length (dlSent d)) as Hl.
  { rewrite <- (length_fmap fst (dlResults d)), Hres, length_fmap. by rewrite <- Hsent. }
  unfold run_turn, queue_inv. destruct (bqBatches (dlQueue d)) as [|batch rest] eqn:Hq.
  - rewrite app_nil_r in Hacc.
    destruct canceled; simpl; rewrite Hq, !app_nil_r; (split; [done|]);
      (split; [simpl; lia|]);
      (split; [exists []; by rewrite app_nil_r|exists []; by rewrite app_nil_r]).
  - simpl in Hlen. destruct canceled; simpl; rewrite ?Hq, ?app_nil_r.
    + split; [done|]. split; [lia|]. split.
      * exists []. rewrite Hacc, <- app_assoc. done.
      * exists []. rewrite take_snoc_inv, app_nil_r by done.
        repeat split; [simpl; lia|]. rewrite !fmap_app, Hres, <- Hsent. done.
    + split; [done|]. split; [simpl; lia|]. split; [by exists []|]. exists []. by rewrite app_nil_r.
    + split; [done|]. split; [lia|]. split; [by exists [batch]|]. exists []. by rewrite app_nil_r.
    + split; [done|]. split; [lia|]. split.
      * exists []. rewrite Hacc, <- app_assoc. done.
      * exists [batch].
        rewrite take_app_le by lia. rewrite <- Hsent.
        split_and!; [done|done|done|]. by rewrite Hres, <- Hsent.
Qed.

(** The queue in front of the encoder is a bounded FIFO. Whatever producers
    enqueue and the consumer does, at most the configured number of batches (at
    least one) waits; every accepted batch is sent in the order of acceptance or
    is still waiting, except the one taken when the consumer sees the
    cancellation; and the result callback is told, in order, the size of every
    batch sent but the one whose sending was canceled. *)
Theorem batch_queue_fifo capacity ops : queue_inv capacity (queue_history capacity ops).
Proof.
  unfold queue_history. apply fold_left_ind.
  - unfold queue_inv, NewBatchQueue. simpl.
    split; [destruct (Z.ltb_spec capacity 1); lia|]. split; [lia|].
    split; (exists []; simpl; split_and!; [lia|done|done..]).
  - intros d [batch|canceled answer] _; [apply enqueue_inv|apply turn_inv].
Qed.

(** Without the parent timeout the delays themselves do wrap: from the 35th
    attempt on, with a base delay of one second, [ForwardOpus] does not sleep. *)
Lemma retry_delay_wraps : retryDelay Second 35 <= 0 /\ ideal_delay Second 35 = 30 * Second.
Proof. split; apply (bool_decide_unpack _); vm_compute; exact I. Qed.

(** Whatever the settings, the parent timeout stays between 5 and 30 seconds. *)
Lemma budget_loop_inl n perAttempt base attempt budget t :
  budget_loop n perAttempt base attempt budget = inl t -> t = maxForwardOpusRequestTimeout.
Proof.
  revert attempt budget. induction n as [|n IH]; intros attempt budget; cbn [budget_loop]; [done|].
  case_match; [by intros [= <-]|]. destruct n; [done|]. case_match; [by intros [= <-]|]. apply IH.
Qed.

Lemma ForwardOpusRequestTimeout_range config :
  5 * Second <= ForwardOpusRequestTimeout config <= 30 * Second.
Proof.
  unfold ForwardOpusRequestTimeout. destruct (budget_loop _ _ _ _ _) as [t|b] eqn:E.
  - apply budget_loop_inl in E as ->. unfold maxForwardOpusRequestTimeout, Second. lia.
  - unfold defaultForwardOpusRequestTimeout, maxForwardOpusRequestTimeout.
    destruct (Z.ltb_spec b (5 * Second)); [unfold Second; lia|].
    destruct (Z.ltb_spec (30 * Second) b); [unfold Second|]; lia.
Qed.

(** ** The endpoint *)

(** Where the escaped path of the base URL still is the escaped path without its
    trailing slashes, the id stays one segment of the endpoint. *)
Lemma audio_endpoint_segment `{URLParse} `{URLText} base streamID u endpoint :
  let prefix := TrimRightSlash (EscapedPath (guPath u) (url_raw_path u)) in
  url_parse base = Some u ->
  forallb valid_encoded_char (list_ascii_of_string prefix) = true ->
  unescape (list_ascii_of_string prefix) = Some (list_ascii_of_string (TrimRightSlash (guPath u))) ->
  audioEndpoint base streamID = inl endpoint ->
  endpoint = url_text u (prefix ++ "/streams/" ++ PathEscape streamID ++ "/audio/opus").
Proof.
  intros prefix Hu Hv He. unfold audioEndpoint. rewrite Hu. fold prefix.
  repeat case_match; try discriminate. intros [= <-]. unfold EscapedPath at 1.
  rewrite !list_ascii_app, !forallb_app, Hv, PathEscape_encoded, bool_decide_eq_true_2.
  - destruct prefix; done.
  - repeat apply unescape_app; done || apply unescape_PathEscape.
Qed.

Module Sample.
Definition config : Config := mkConfig (2 * Second) 3 Second.

(** A parser that takes the text for an [https] URL with one host. *)
#[local] Instance parse_sample : URLParse :=
  fun s => Some (mkGoURL "https" "e" false "e" "" (string_of_list_ascii (drop 9 (list_ascii_of_string s))) "" "" (fun _ => "")).
#[local] Instance text_sample : URLText :=
  {| url_raw_path _ := ""; url_text u path := guScheme u ++ "://" ++ guHost u ++ path |}.

Lemma ForwardOpusRequestTimeout_closed_form_witness :
  ForwardOpusRequestTimeout config = 10 * Second /\
  ForwardOpusRequestTimeout config =
  Z.max (5 * Second) (Z.min (30 * Second) (Second + schedule 3 (2 * Second) Second 1)).
Proof.
  split; [reflexivity|].
  apply (ForwardOpusRequestTimeout_closed_form config); discriminate.
Defined.

Definition packet (opus : list Byte.byte) : OpusPacket := mkOpusPacket 7 "u1" 1 1 40 960 0 opus.

(** An encoder that is overloaded once. *)
Definition en : env unit FwCall :=
  Build_env (fun X n (e : FwCall X) s =>
    (match e in FwCall Y return Y with
     | Marshal _ => None
     | NewRequest _ => None
     | Post _ _ _ _ => inl (if decide (n < 5)%nat then 503 else 204)
     | Sleep _ => None
     | Now => 77
     end, s)) (fun _ _ _ s => (false, s)).

(** A base path that ends in an escaped slash is no longer an encoding of the
    trimmed path: the endpoint falls back to the unescaped id. *)
Example escaped_slash_base :
  let text : URLText := {| url_raw_path _ := "/in%2F"; url_text _ path := path |} in
  let parse : URLParse :=
    fun _ => Some (mkGoURL "https" "e" false "e" "" "/in/" "" "" (fun _ => "")) in
  @audioEndpoint parse text "https://e/in%2F" "s/1" = inl "/in/streams/s/1/audio/opus".
Proof. vm_compute. reflexivity. Qed.

Definition forwarded := run en (ForwardOpus config "https://e/in/" "s/1" "" " t "
  [packet [Byte.x01]; packet []; packet [Byte.x02]]) 0 tt.


Definition history := queue_history 1
  [OpEnqueue [packet []]; OpEnqueue [packet []]; OpTurn NotCanceled None;
   OpEnqueue [packet [Byte.x01]; packet []]; OpTurn DuringSend None].

Lemma batch_queue_fifo_witness :
  dlResults history = [(1, None)] /\ length (dlSent history) = 2%nat /\ queue_inv 1 history.
Proof. split; [reflexivity|]. split; [reflexivity|]. exact (batch_queue_fifo 1 _). Defined.
End Sample.
