(* ===== verification/SdkState.v ===== *)
(** * SdkState: the Discord cache the client reads

    The part of discordgo's [State] that [internal/discord] looks at (guilds
    with their voice states and members, the bot's own user), and the pure
    readings of it: who is in a voice channel, and whose identity is verified
    ([voice_identity.go], [event_adapter.go], [voice_targets.go]).  The SDK
    stores no nil guild, voice state or member in its lists, so the elements are
    values; members and users that may be absent are options. *)

From S2P Require Import Prelude Types.

(** ** Data of the SDK *)

(** [discordgo.User]; the index of the default avatar is computed by the SDK
    from the discriminator or the id. *)
Record User := mkUser {
  usID : string;
  usUsername : string;
  usGlobalName : string;
  usAvatar : string;
  usDefaultAvatarIndex : Z;
  usBot : bool }.

(** [discordgo.Member] *)
Record Member := mkMember {
  meGuildID : string;
  meNick : string;
  meAvatar : string;
  meUser : option User }.

(** [discordgo.VoiceState] *)
Record VoiceState := mkVoiceState {
  vsGuildID : string;
  vsChannelID : string;
  vsUserID : string;
  vsMember : option Member }.

(** [discordgo.Guild] *)
Record Guild := mkGuild { guID : string; guVoiceStates : list VoiceState; guMembers : list Member }.

(** [discordgo.State] *)
Record SdkState := mkSdkState {
  sdTrackVoice : bool;
  sdUser : option User;
  sdGuilds : list Guild }.

(** ** Avatars ([discordgo], [AvatarURL]) *)

Definition EndpointCDN : string := "https://cdn.discordapp.com/".

Definition avatarURL (avatarHash defaultURL staticURL animatedURL size : string) : string :=
  let URL := if avatarHash =s "" then defaultURL
             else if HasPrefix avatarHash "a_" then animatedURL else staticURL in
  if size <>s "" then URL ++ "?size=" ++ size else URL.

Definition User_AvatarURL (u : User) (size : string) : string :=
  let base := EndpointCDN ++ "avatars/" ++ usID u ++ "/" ++ usAvatar u in
  avatarURL (usAvatar u)
    (EndpointCDN ++ "embed/avatars/" ++ itoa (usDefaultAvatarIndex u) ++ ".png")
    (base ++ ".png") (base ++ ".gif") size.

(** The member's user is present where the code asks for its avatar. *)
Definition Member_AvatarURL (m : Member) (u : User) (size : string) : string :=
  if meAvatar m =s "" then User_AvatarURL u size
  else
    let base := EndpointCDN ++ "guilds/" ++ meGuildID m ++ "/users/" ++ usID u
                ++ "/avatars/" ++ meAvatar m in
    avatarURL (meAvatar m) "" (base ++ ".png") (base ++ ".gif") size.

(** ** Identities *)

(** The first non-blank name, trimmed. *)
Fixpoint first_name (names : list string) : string :=
  match names with
  | [] => ""
  | [name] => TrimSpace name
  | name :: names => if blank name then first_name names else TrimSpace name
  end.

(** [verifiedVoiceMember]: the member if its identity is the event's, and
    whether there was a payload at all. *)
Definition verifiedVoiceMember (member : option Member) (guildID userID : string)
    : option Member * bool :=
  match member with
  | None => (None, false)
  | Some m =>
      match meUser m with
      | Some u =>
          if (usID u <>s userID) || ((meGuildID m <>s "") && (meGuildID m <>s guildID))
          then (None, true) else (Some m, true)
      | None => (None, true)
      end
  end.

Definition has_user (userID : string) (m : Member) : bool :=
  match meUser m with Some u => usID u =s userID | None => false end.

Fixpoint first_that {A} (p : A -> bool) (l : list A) : option A :=
  match l with [] => None | a :: l => if p a then Some a else first_that p l end.

(** [currentVoiceMemberLocked] *)
Definition currentVoiceMemberLocked (guild : Guild) (userID : string) (member : option Member)
    : option Member * bool :=
  match member with
  | Some _ => verifiedVoiceMember member (guID guild) userID
  | None =>
      match first_that (has_user userID) (guMembers guild) with
      | Some cached => verifiedVoiceMember (Some cached) (guID guild) userID
      | None => (None, false)
      end
  end.

Definition guild_of (state : SdkState) (guildID : string) : option Guild :=
  first_that (fun g => guID g =s guildID) (sdGuilds state).

(** [currentAutoStartMember]; [None] is a nil session or a nil [State]. *)
Definition currentAutoStartMember (state : option SdkState) (event : VoiceState)
    : option Member * bool :=
  match vsMember event, state with
  | Some _, _ => verifiedVoiceMember (vsMember event) (vsGuildID event) (vsUserID event)
  | None, None => (None, false)
  | None, Some state =>
      match guild_of state (vsGuildID event) with
      | None => (None, false)
      | Some guild =>
          let carries v := (vsUserID v =s vsUserID event) && bool_decide (is_Some (vsMember v)) in
          match first_that carries (guVoiceStates guild) with
          | Some v => currentVoiceMemberLocked guild (vsUserID event) (vsMember v)
          | None => currentVoiceMemberLocked guild (vsUserID event) None
          end
      end
  end.

(** [member != nil && !member.User.Bot], on a verified member. *)
Definition is_human (member : option Member) : bool :=
  match member with
  | Some m => match meUser m with Some u => negb (usBot u) | None => false end
  | None => false
  end.

(** [sessionUserID] *)
Definition sessionUserID (state : option SdkState) : string :=
  match state with
  | Some s => match sdUser s with Some u => usID u | None => "" end
  | None => ""
  end.

(** [currentTrackedVoiceChannel] *)
Definition currentTrackedVoiceChannel (state : option SdkState) (guildID userID : string)
    : string * bool :=
  match state with
  | None => ("", false)
  | Some s =>
      let guildID := TrimSpace guildID in
      let userID := TrimSpace userID in
      if negb (sdTrackVoice s) then ("", false)
      else if (guildID =s "") || (userID =s "") then ("", false)
      else
        match guild_of s guildID with
        | None => ("", false)
        | Some guild =>
            match first_that (fun v => vsUserID v =s userID) (guVoiceStates guild) with
            | Some v => (vsChannelID v, true)
            | None => ("", true)
            end
        end
  end.

(** ** Participants *)

(** [voiceParticipantFromState] *)
Definition voiceParticipantFromState (guildID : string) (v : VoiceState) : VoiceParticipant :=
  let userID := TrimSpace (vsUserID v) in
  match vsMember v with
  | None => mkVoiceParticipant userID "" "" false
  | Some member =>
      match meUser member with
      | None => mkVoiceParticipant userID "" "" false
      | Some user =>
          let username := first_name [meNick member; usGlobalName user; usUsername user] in
          let forAvatar :=
            if blank (meGuildID member)
            then mkMember (TrimSpace guildID) (meNick member) (meAvatar member) (meUser member)
            else member in
          let avatar := TrimSpace (Member_AvatarURL forAvatar user "128") in
          let avatar := if avatar =s "" then TrimSpace (User_AvatarURL user "128") else avatar in
          mkVoiceParticipant userID username avatar (usBot user)
      end
  end.

Definition by_user_id (p q : VoiceParticipant) : Prop := String.leb (vpUserID p) (vpUserID q) = true.
#[export] Instance by_user_id_dec p q : Decision (by_user_id p q).
Proof. unfold by_user_id. apply _. Defined.

(** The participants of a channel, without the bot itself. *)
Definition channel_participants (guild : Guild) (channelID selfUserID : string)
    : list VoiceParticipant :=
  let present :=
    filter (fun v : VoiceState => (vsChannelID v =s channelID) = true) (guVoiceStates guild) in
  let participants := voiceParticipantFromState (guID guild) <$> present in
  merge_sort by_user_id
    (filter (fun p : VoiceParticipant =>
       (vpUserID p <>s "") && (vpUserID p <>s selfUserID) = true) participants).

(** [snapshotVoiceParticipantsLocked] up to its revision: the routing fields and
    the participants, unless the cache does not know. *)
Definition snapshot_participants_of (state : option SdkState) (job : VoiceJob)
    : option (string * string * string * list VoiceParticipant) :=
  match state with
  | None => None
  | Some s =>
      let streamID := TrimSpace (jStreamID job) in
      let guildID := TrimSpace (jGuildID job) in
      let channelID := TrimSpace (jVoiceChannelID job) in
      if negb (sdTrackVoice s) then None
      else if (streamID =s "") || (guildID =s "") || (channelID =s "") then None
      else
        let selfUserID := match sdUser s with Some u => TrimSpace (usID u) | None => "" end in
        if selfUserID =s "" then None
        else
          match guild_of s guildID with
          | None => None
          | Some guild =>
              Some (streamID, guildID, channelID, channel_participants guild channelID selfUserID)
          end
  end.

(** [remoteVoiceParticipantPresent] on the cache: someone else is in the channel
    of the job. *)
Definition remote_present (state : option SdkState) (job : VoiceJob) : bool :=
  match state with
  | None => false
  | Some s =>
      if negb (sdTrackVoice s) then false
      else
        let selfUserID := match sdUser s with Some u => TrimSpace (usID u) | None => "" end in
        match guild_of s (jGuildID job) with
        | None => false
        | Some guild =>
            existsb (fun v => (vsChannelID v =s jVoiceChannelID job)
                       && (TrimSpace (vsUserID v) <>s "")
                       && (TrimSpace (vsUserID v) <>s selfUserID)) (guVoiceStates guild)
        end
  end.

(** ** Presence in the channel of a waiting target *)

(** A verified human other than the bot, present in the channel. *)
Definition human_in (guild : Guild) (channelID selfUserID : string) (v : VoiceState) : bool :=
  let userID := TrimSpace (vsUserID v) in
  (vsChannelID v =s channelID) && (userID <>s "") && (userID <>s selfUserID)
  && is_human (currentVoiceMemberLocked guild userID (vsMember v)).1.

(** [AutoStartVoicePresence] between its two checks. *)
Definition presence_of (state : SdkState) (target : AutoStartVoiceTarget) : bool * bool :=
  let selfUserID := match sdUser state with Some u => TrimSpace (usID u) | None => "" end in
  if sdTrackVoice state && (selfUserID <>s "") then
    match guild_of state (atGuildID target) with
    | None => (false, false)
    | Some guild =>
        (existsb (human_in guild (atVoiceChannelID target) selfUserID) (guVoiceStates guild), true)
    end
  else (false, false).

(** The event for the first human already in the target's channel. *)
Definition target_event (state : SdkState) (selfUserID : string) (target : AutoStartVoiceTarget)
    : option VoiceJoinEvent :=
  match guild_of state (atGuildID target) with
  | None => None
  | Some guild =>
      match first_that (human_in guild (atVoiceChannelID target) selfUserID) (guVoiceStates guild) with
      | None => None
      | Some v =>
          let userID := TrimSpace (vsUserID v) in
          let username :=
            match (currentVoiceMemberLocked guild userID (vsMember v)).1 with
            | Some m =>
                match meUser m with
                | Some u => first_name [meNick m; usGlobalName u; usUsername u]
                | None => ""
                end
            | None => ""
            end in
          Some (mkVoiceJoinEvent (Some (mkAuthority (atStreamID target) (atAssignmentEpoch target)))
                  true (atGuildID target) (atVoiceChannelID target) userID username)
      end
  end.

(** The events [syncAutoStartVoiceMembers] collects under the State lock. *)
Definition collect_events (state : SdkState) (selfUserID : string)
    (targets : list AutoStartVoiceTarget) : list VoiceJoinEvent :=
  omap (target_event state selfUserID) targets.

(** ** Identities are verified *)

Lemma first_that_Some {A} (p : A -> bool) l a : first_that p l = Some a -> a ∈ l /\ p a = true.
Proof.
  induction l as [|b l IH]; [done|]. simpl. destruct (p b) eqn:Hb.
  - intros [= <-]. split; [apply list_elem_of_here|done].
  - intros Ha%IH. destruct Ha. split; [by apply list_elem_of_further|done].
Qed.

Lemma first_that_None {A} (p : A -> bool) l : first_that p l = None <-> forall a, a ∈ l -> p a = false.
Proof.
  induction l as [|b l IH]; simpl; [split; [by intros _ a ?%not_elem_of_nil|done]|].
  destruct (p b) eqn:Hb.
  - split; [done|]. intros H. specialize (H b (list_elem_of_here _ _)). congruence.
  - rewrite IH. split; intros H a.
    + intros [->|Ha]%elem_of_cons; [done|by apply H].
    + intros Ha. apply H. by apply list_elem_of_further.
Qed.

(** A verified member is a member of this user in this guild. *)
Definition identifies (m : Member) (guildID userID : string) : Prop :=
  exists u, meUser m = Some u /\ usID u = userID /\ (meGuildID m = "" \/ meGuildID m = guildID).

Lemma verified_identifies member guildID userID m :
  (verifiedVoiceMember member guildID userID).1 = Some m ->
  member = Some m /\ identifies m guildID userID.
Proof.
  unfold verifiedVoiceMember. destruct member as [m'|]; [|done].
  destruct (meUser m') as [u|] eqn:Hu; [|done]. case_match; [done|]. intros [= <-]. split; [done|].
  bool_hyps. exists u. split; [done|]. split; [congruence|].
  apply andb_false_iff in H0 as [Hg|Hg]; apply negb_false_iff in Hg; bool_hyps; [by left|by right].
Qed.

Lemma current_identifies guild userID member m :
  (currentVoiceMemberLocked guild userID member).1 = Some m -> identifies m (guID guild) userID.
Proof.
  unfold currentVoiceMemberLocked. destruct member; [by intros [_ ?]%verified_identifies|].
  destruct (first_that _ _); [|done]. by intros [_ ?]%verified_identifies.
Qed.

(** Someone other than the bot, verified to be human, in the target's channel. *)
Definition human_present (state : SdkState) (selfUserID userID : string) (t : AutoStartVoiceTarget)
    : Prop :=
  exists guild v m u, guild_of state (atGuildID t) = Some guild /\ v ∈ guVoiceStates guild /\
    vsChannelID v = atVoiceChannelID t /\ TrimSpace (vsUserID v) = userID /\
    userID <> "" /\ userID <> selfUserID /\
    identifies m (guID guild) userID /\ meUser m = Some u /\ usBot u = false /\
    (currentVoiceMemberLocked guild userID (vsMember v)).1 = Some m.

Lemma human_in_present state guild t selfUserID v :
  guild_of state (atGuildID t) = Some guild -> v ∈ guVoiceStates guild ->
  human_in guild (atVoiceChannelID t) selfUserID v = true ->
  human_present state selfUserID (TrimSpace (vsUserID v)) t.
Proof.
  intros Hg Hv. unfold human_in, is_human.
  destruct (currentVoiceMemberLocked _ _ _).1 as [m|] eqn:Hm; intros Hh; bool_hyps; [|done].
  destruct (meUser m) as [u|] eqn:Hu; [|done]. bool_hyps.
  exists guild, v, m, u. split_and!; try done. by eapply current_identifies.
Qed.

Lemma present_human_in state guild t selfUserID userID :
  guild_of state (atGuildID t) = Some guild -> human_present state selfUserID userID t ->
  exists v, v ∈ guVoiceStates guild /\ human_in guild (atVoiceChannelID t) selfUserID v = true.
Proof.
  intros Hg (guild' & v & m & u & Hg' & Hv & Hc & Hid & He & Hs & _ & Hu & Hb & Hm).
  rewrite Hg in Hg'. injection Hg' as <-. exists v. split; [done|].
  unfold human_in. cbv zeta. rewrite Hc, Hid, Hm. simpl. rewrite Hu, Hb, String.eqb_refl.
  apply String.eqb_neq in He, Hs. by rewrite He, Hs.
Qed.

(** Auto-start is offered exactly for humans. The events collected for the
    waiting targets are, one per target and in their order, for the targets in
    whose channel someone is present whose identity the SDK's cache verifies as a
    member of that guild, who is no bot and not the client itself; each event
    carries the target's own stream, epoch and channel and that user. *)
Theorem collect_events_spec state selfUserID targets :
  Forall2 (fun t event =>
      veAuthority event = Some (mkAuthority (atStreamID t) (atAssignmentEpoch t)) /\
      veExistingPresence event = true /\ veGuildID event = atGuildID t /\
      veVoiceChannelID event = atVoiceChannelID t /\
      human_present state selfUserID (veUserID event) t)
    (filter (fun t => bool_decide (is_Some (target_event state selfUserID t)) = true) targets)
    (collect_events state selfUserID targets) /\
  forall t, is_Some (target_event state selfUserID t) <->
    exists userID, human_present state selfUserID userID t.
Proof.
  assert (forall t event, target_event state selfUserID t = Some event ->
      veAuthority event = Some (mkAuthority (atStreamID t) (atAssignmentEpoch t)) /\
      veExistingPresence event = true /\ veGuildID event = atGuildID t /\
      veVoiceChannelID event = atVoiceChannelID t /\
      human_present state selfUserID (veUserID event) t) as Hev.
  { intros t event. unfold target_event. destruct (guild_of state _) as [guild|] eqn:Hg; [|done].
    destruct (first_that _ _) as [v|] eqn:Hv; [|done]. intros [= <-]. simpl.
    apply first_that_Some in Hv as [Hin Hh]. split_and!; try done. by eapply human_in_present. }
  split.
  - unfold collect_events. induction targets as [|t targets IH]; [constructor|].
    rewrite filter_cons. simpl. destruct (target_event state selfUserID t) as [event|] eqn:He.
    + rewrite decide_True by (by apply bool_decide_eq_true_2). constructor; [by apply Hev|done].
    + rewrite decide_False by (rewrite bool_decide_eq_false_2; [done|by intros []]). done.
  - intros t. split.
    + intros [event He]. exists (veUserID event). by apply Hev.
    + intros [userID Hp]. unfold target_event. pose proof Hp as (guild & _ & _ & _ & Hg & _).
      rewrite Hg. destruct (present_human_in _ _ _ _ _ Hg Hp) as (v & Hv & Hh).
      destruct (first_that _ _) as [v'|] eqn:Hf; [by eexists|].
      rewrite first_that_None in Hf. specialize (Hf v Hv). congruence.
Qed.
