(* ===== verification/DiscordClient.v ===== *)
(** * DiscordClient: the state of the Discord client and its voice connection

    [RealClient] of [internal/discord/client.go] as one record: the fields
    guarded by [c.mu] under their Go names, and the heap they point into
    (channels, contexts, batch queues, the SDK's State per session).  This file
    holds the data, the connection to the Gateway ([gateway.go], [client.go]) and
    the voice connection ([voice.go], [status.go]); sessions, voice connections
    and channels are the numbers of their pointers. *)

From S2P Require Import Prelude Conc Errors Types Secrets SdkState DaveWatch AudioForward.

Open Scope go_scope.

(** ** Data *)

(** An [EventSink], and the optional interfaces it implements. *)
Record Sink := mkSink {
  skActiveSpeakerState : bool;     (* ActiveSpeakerStateSink *)
  skParticipantSnapshot : bool }.  (* ParticipantSnapshotSink *)

(** [pendingAutoStartJoin] *)
Record pendingAutoStartJoin := mkPendingJoin {
  pjStreamID : string;
  pjAssignmentEpoch : string;
  pjGuildID : string;
  pjVoiceChannelID : string;
  pjUserID : string }.

#[export] Instance pendingAutoStartJoin_eq_dec : EqDecision pendingAutoStartJoin.
Proof. solve_decision. Defined.

Definition pending_key (p : pendingAutoStartJoin) : string * string * string * string * string :=
  (pjStreamID p, pjAssignmentEpoch p, pjGuildID p, pjVoiceChannelID p, pjUserID p).

#[export] Instance pendingAutoStartJoin_countable : Countable pendingAutoStartJoin.
Proof.
  refine (inj_countable' pending_key
    (fun t => let '(a, b, c, d, e) := t in mkPendingJoin a b c d e) _).
  by intros [].
Defined.

(** [Status]; the two ages are computed by [normalizeStatus], times are kept as
    times and formatted (RFC 3339) when the status is read. *)
Record Status := mkStatus {
  suConnected : bool;
  suVoiceConnected : bool;
  suCurrentGuildID : string;
  suCurrentVoiceID : string;
  suAudioForwardEnabled : bool;
  suAudioForwardActive : bool;
  suCaptionAudioForwardActive : bool;
  suAudioReceiving : bool;
  suLastAudioAt : option Time;
  suAudioPacketsReceived : Z;
  suAudioPacketsForwarded : Z;
  suAudioForwardErrors : Z;
  suAudioForwardQueueDrops : Z;
  suCaptionPacketsForwarded : Z;
  suCaptionForwardErrors : Z;
  suCaptionForwardQueueDrops : Z;
  suGatewayReconnectCount : Z;
  suVoiceDisconnectCount : Z;
  suDAVEInitialized : bool;
  suDAVEReady : bool;
  suDAVEWelcomeReceived : bool;
  suDAVERosterSize : Z;
  suDAVERatchetsMissing : Z;
  suDAVEKeyPackageResends : Z;
  suDAVESoftResets : Z;
  suDAVERecoveryErrors : Z;
  suDAVELastRecoveryReason : string;
  suLastForwardAt : option Time;
  suLastForwardError : string;
  suLastCaptionForwardError : string;
  suLastError : string }.

Definition eta_Status (r : Status) : Status :=
  mkStatus
    (suConnected r) (suVoiceConnected r) (suCurrentGuildID r) (suCurrentVoiceID r)
    (suAudioForwardEnabled r) (suAudioForwardActive r) (suCaptionAudioForwardActive r)
    (suAudioReceiving r) (suLastAudioAt r) (suAudioPacketsReceived r)
    (suAudioPacketsForwarded r) (suAudioForwardErrors r) (suAudioForwardQueueDrops r)
    (suCaptionPacketsForwarded r) (suCaptionForwardErrors r) (suCaptionForwardQueueDrops r)
    (suGatewayReconnectCount r) (suVoiceDisconnectCount r) (suDAVEInitialized r)
    (suDAVEReady r) (suDAVEWelcomeReceived r) (suDAVERosterSize r)
    (suDAVERatchetsMissing r) (suDAVEKeyPackageResends r) (suDAVESoftResets r)
    (suDAVERecoveryErrors r) (suDAVELastRecoveryReason r) (suLastForwardAt r)
    (suLastForwardError r) (suLastCaptionForwardError r) (suLastError r).

#[export] Instance set_suConnected : Setter suConnected := ltac:(mk_setter eta_Status).
#[export] Instance set_suVoiceConnected : Setter suVoiceConnected := ltac:(mk_setter eta_Status).
#[export] Instance set_suCurrentGuildID : Setter suCurrentGuildID := ltac:(mk_setter eta_Status).
#[export] Instance set_suCurrentVoiceID : Setter suCurrentVoiceID := ltac:(mk_setter eta_Status).
#[export] Instance set_suAudioForwardEnabled : Setter suAudioForwardEnabled := ltac:(mk_setter eta_Status).
#[export] Instance set_suAudioForwardActive : Setter suAudioForwardActive := ltac:(mk_setter eta_Status).
#[export] Instance set_suCaptionAudioForwardActive : Setter suCaptionAudioForwardActive := ltac:(mk_setter eta_Status).
#[export] Instance set_suAudioReceiving : Setter suAudioReceiving := ltac:(mk_setter eta_Status).
#[export] Instance set_suLastAudioAt : Setter suLastAudioAt := ltac:(mk_setter eta_Status).
#[export] Instance set_suAudioPacketsReceived : Setter suAudioPacketsReceived := ltac:(mk_setter eta_Status).
#[export] Instance set_suAudioPacketsForwarded : Setter suAudioPacketsForwarded := ltac:(mk_setter eta_Status).
#[export] Instance set_suAudioForwardErrors : Setter suAudioForwardErrors := ltac:(mk_setter eta_Status).
#[export] Instance set_suAudioForwardQueueDrops : Setter suAudioForwardQueueDrops := ltac:(mk_setter eta_Status).
#[export] Instance set_suCaptionPacketsForwarded : Setter suCaptionPacketsForwarded := ltac:(mk_setter eta_Status).
#[export] Instance set_suCaptionForwardErrors : Setter suCaptionForwardErrors := ltac:(mk_setter eta_Status).
#[export] Instance set_suCaptionForwardQueueDrops : Setter suCaptionForwardQueueDrops := ltac:(mk_setter eta_Status).
#[export] Instance set_suGatewayReconnectCount : Setter suGatewayReconnectCount := ltac:(mk_setter eta_Status).
#[export] Instance set_suVoiceDisconnectCount : Setter suVoiceDisconnectCount := ltac:(mk_setter eta_Status).
#[export] Instance set_suDAVEInitialized : Setter suDAVEInitialized := ltac:(mk_setter eta_Status).
#[export] Instance set_suDAVEReady : Setter suDAVEReady := ltac:(mk_setter eta_Status).
#[export] Instance set_suDAVEWelcomeReceived : Setter suDAVEWelcomeReceived := ltac:(mk_setter eta_Status).
#[export] Instance set_suDAVERosterSize : Setter suDAVERosterSize := ltac:(mk_setter eta_Status).
#[export] Instance set_suDAVERatchetsMissing : Setter suDAVERatchetsMissing := ltac:(mk_setter eta_Status).
#[export] Instance set_suDAVEKeyPackageResends : Setter suDAVEKeyPackageResends := ltac:(mk_setter eta_Status).
#[export] Instance set_suDAVESoftResets : Setter suDAVESoftResets := ltac:(mk_setter eta_Status).
#[export] Instance set_suDAVERecoveryErrors : Setter suDAVERecoveryErrors := ltac:(mk_setter eta_Status).
#[export] Instance set_suDAVELastRecoveryReason : Setter suDAVELastRecoveryReason := ltac:(mk_setter eta_Status).
#[export] Instance set_suLastForwardAt : Setter suLastForwardAt := ltac:(mk_setter eta_Status).
#[export] Instance set_suLastForwardError : Setter suLastForwardError := ltac:(mk_setter eta_Status).
#[export] Instance set_suLastCaptionForwardError : Setter suLastCaptionForwardError := ltac:(mk_setter eta_Status).
#[export] Instance set_suLastError : Setter suLastError := ltac:(mk_setter eta_Status).

Definition zeroStatus : Status :=
  mkStatus false false "" "" false false false false None 0 0 0 0 0 0 0 0 0 false false false 0 0
    0 0 0 "" None "" "" "".

(** [RealClient].  [clCfg] is the Bot token; a nil map is the empty map here, the
    code makes a map before it writes to one.  [hxStopped] are the
    closed stop channels, [hxStoppedTwice] that one was closed again, which panics;
    [hxClosed] are the other closed channels, each closed by the goroutine that
    owns it. *)
Record RealClient := mkClient {
  clCfg : string;
  clSession : option nat;
  clVoice : option nat;
  clSink : option Sink;
  clAutoStartTargets : list AutoStartVoiceTarget;
  clUnknownAutoStartJoins : gmap pendingAutoStartJoin nat;
  clForward : option nat;
  clSource : string;
  clAudioStop : option nat;
  clAudioDone : option nat;
  clDaveCancel : option nat;
  clSsrcUsers : gmap Z string;
  clAudioSpeakers : gmap string Time;
  clParticipantSnapshotNext : Z;
  clStatus : Status;
  clJob : VoiceJob;
  clVoiceGeneration : Z;
  hxClock : Time;
  hxNext : nat;
  hxClosed : gset nat;
  hxCanceled : gset nat;
  hxStopped : gset nat;
  hxStoppedTwice : bool;
  hxStates : gmap nat SdkState;
  hxQueues : gmap nat BatchQueue }.

Definition eta_client (r : RealClient) : RealClient :=
  mkClient
    (clCfg r) (clSession r) (clVoice r) (clSink r) (clAutoStartTargets r)
    (clUnknownAutoStartJoins r) (clForward r) (clSource r) (clAudioStop r) (clAudioDone r)
    (clDaveCancel r) (clSsrcUsers r) (clAudioSpeakers r) (clParticipantSnapshotNext r)
    (clStatus r) (clJob r) (clVoiceGeneration r) (hxClock r) (hxNext r) (hxClosed r)
    (hxCanceled r) (hxStopped r) (hxStoppedTwice r) (hxStates r) (hxQueues r).

#[export] Instance set_clCfg : Setter clCfg := ltac:(mk_setter eta_client).
#[export] Instance set_clSession : Setter clSession := ltac:(mk_setter eta_client).
#[export] Instance set_clVoice : Setter clVoice := ltac:(mk_setter eta_client).
#[export] Instance set_clSink : Setter clSink := ltac:(mk_setter eta_client).
#[export] Instance set_clAutoStartTargets : Setter clAutoStartTargets := ltac:(mk_setter eta_client).
#[export] Instance set_clUnknownAutoStartJoins : Setter clUnknownAutoStartJoins := ltac:(mk_setter eta_client).
#[export] Instance set_clForward : Setter clForward := ltac:(mk_setter eta_client).
#[export] Instance set_clSource : Setter clSource := ltac:(mk_setter eta_client).
#[export] Instance set_clAudioStop : Setter clAudioStop := ltac:(mk_setter eta_client).
#[export] Instance set_clAudioDone : Setter clAudioDone := ltac:(mk_setter eta_client).
#[export] Instance set_clDaveCancel : Setter clDaveCancel := ltac:(mk_setter eta_client).
#[export] Instance set_clSsrcUsers : Setter clSsrcUsers := ltac:(mk_setter eta_client).
#[export] Instance set_clAudioSpeakers : Setter clAudioSpeakers := ltac:(mk_setter eta_client).
#[export] Instance set_clParticipantSnapshotNext : Setter clParticipantSnapshotNext := ltac:(mk_setter eta_client).
#[export] Instance set_clStatus : Setter clStatus := ltac:(mk_setter eta_client).
#[export] Instance set_clJob : Setter clJob := ltac:(mk_setter eta_client).
#[export] Instance set_clVoiceGeneration : Setter clVoiceGeneration := ltac:(mk_setter eta_client).
#[export] Instance set_hxClock : Setter hxClock := ltac:(mk_setter eta_client).
#[export] Instance set_hxNext : Setter hxNext := ltac:(mk_setter eta_client).
#[export] Instance set_hxClosed : Setter hxClosed := ltac:(mk_setter eta_client).
#[export] Instance set_hxCanceled : Setter hxCanceled := ltac:(mk_setter eta_client).
#[export] Instance set_hxStopped : Setter hxStopped := ltac:(mk_setter eta_client).
#[export] Instance set_hxStoppedTwice : Setter hxStoppedTwice := ltac:(mk_setter eta_client).
#[export] Instance set_hxStates : Setter hxStates := ltac:(mk_setter eta_client).
#[export] Instance set_hxQueues : Setter hxQueues := ltac:(mk_setter eta_client).

(** [DAVEHealth] of the SDK, as far as the client reads it. *)
Record DaveHealth := mkDaveHealth {
  dhInitialized : bool;
  dhOP26SentAt : Time;
  dhEpochEstablished : bool;
  dhOP30Received : bool;
  dhLastRosterSize : Z;
  dhLastMissing : Z;
  dhMissingFirstSeen : Time;
  dhProposalFailedSince : Time }.

(** Errors of the SDK's REST calls: a rate limit with the wait it carries, and an
    error response with its status, API code and parsed [Retry-After] header. *)
Inductive SdkError :=
| RateLimitError (retryAfter : option Duration)
| RESTError (status : option Z) (apiCode : option Z) (retryAfter : Duration)
| OtherError (e : error).

(** A packet of the SDK. *)
Record Packet := mkPacket { pkSSRC : Z; pkSequence : Z; pkTimestamp : Z; pkOpus : list Byte.byte }.

(** What the [select] of the forwarding loop receives. *)
Inductive forward_input :=
| InStopped
| InTick (now : Time)
| InClosed
| InPacket (packet : Packet).

Inductive SinkEvent :=
| VoiceUserJoined (event : VoiceJoinEvent)
| ParticipantChanged (event : ParticipantEvent)
| ParticipantsSynced (snapshot : ParticipantSnapshot)
| ChatMessageReceived (event : ChatMessageEvent)
| ActiveSpeakerDetected (streamID userID : string)
| ActiveSpeakerStateChanged (streamID userID : string) (speaking : bool)
| DiscordConnected
| DiscordDisconnected (reason : string).

(** Calls that leave the client: the SDK, the event sink, the audio forwarder,
    and what the runtime lets the forwarding loop receive. *)
Inductive DcCall : Type -> Type :=
| NewSession (token : string) : DcCall (nat + error)
| OpenSession (session : nat) : DcCall (option error)
| CloseSession (session : nat) : DcCall (option error)
| ChannelVoiceJoin (session : option nat) (guildID channelID : string) : DcCall (nat + error)
| AddVoiceHandler (voice : nat) : DcCall unit
| DisconnectVoice (voice : nat) : DcCall (option error)
| DAVEHealth (voice : nat) : DcCall DaveHealth
| ResendDAVEKeyPackage (voice : nat) : DcCall (option error)
| SoftResetDAVE (voice : nat) : DcCall (option error)
| SSRCUserID (voice : nat) (ssrc : Z) : DcCall string
| SendComplex (session : nat) (channelID content : string) : DcCall (option string + SdkError)
| ForwardBatch (forwarder : nat) (url streamID source token : string) (batch : list OpusPacket)
    : DcCall (option error)
| ToSink (sink : Sink) (event : SinkEvent) : DcCall unit
| SelectInput (stop : nat) : DcCall forward_input
| SelectDone (ctx queue : nat) : DcCall bool  (* which ready case the [select] takes *)
| NextTick (ctx : nat) : DcCall (option Time).

Inductive ClMutex := gatewayMu | speakerDispatchMu | participantSyncMu.

#[export] Instance ClMutex_eq_dec : EqDecision ClMutex.
Proof. solve_decision. Defined.

Definition mutex_code (mu : ClMutex) : bool * bool :=
  match mu with
  | gatewayMu => (false, false) | speakerDispatchMu => (false, true)
  | participantSyncMu => (true, false)
  end.

Definition mutex_decode (c : bool * bool) : ClMutex :=
  match c with
  | (false, false) => gatewayMu | (false, true) => speakerDispatchMu | _ => participantSyncMu
  end.

#[export] Instance ClMutex_countable : Countable ClMutex.
Proof. refine (inj_countable' mutex_code mutex_decode _). by intros []. Defined.

(** [discordgo.VoiceStateUpdate] and [VoiceSpeakingUpdate]. *)
Record VoiceStateUpdate := mkVoiceStateUpdate {
  vuState : VoiceState;
  vuBeforeUpdate : option VoiceState }.

Record VoiceSpeakingUpdate := mkSpeakingUpdate { spSSRC : Z; spUserID : string; spSpeaking : bool }.

(** [discordgo.Message]; [None] is a message without a creation time. *)
Record Message := mkMessage {
  msID : string;
  msChannelID : string;
  msGuildID : string;
  msContent : string;
  msTimestamp : option Time;
  msMember : option Member;
  msAuthor : option User }.

(** The locals of the forwarding loop. *)
Record Forwarding := mkForwarding {
  fwJob : VoiceJob;
  fwGeneration : Z;
  fwStop : nat;
  fwDone : nat;
  fwRunCtx : nat;
  fwMonitorDone : nat;
  fwTargets : list nat;  (* closed when a target's goroutine is done *)
  fwEncoderQueue : option nat;
  fwCaptionQueue : option nat;
  fwEncoderBatch : list OpusPacket;
  fwCaptionBatch : list OpusPacket;
  fwLastEncoderFlush : Time;
  fwLastCaptionFlush : Time;
  fwFallbackUserID : string;
  fwFallbackCheckedAt : Time;
  fwUnresolved : gmap Z (list OpusPacket);
  fwUnresolvedSince : gmap Z Time }.

Definition eta_forwarding (r : Forwarding) : Forwarding :=
  mkForwarding (fwJob r) (fwGeneration r) (fwStop r) (fwDone r) (fwRunCtx r) (fwMonitorDone r)
    (fwTargets r)
    (fwEncoderQueue r) (fwCaptionQueue r) (fwEncoderBatch r) (fwCaptionBatch r)
    (fwLastEncoderFlush r) (fwLastCaptionFlush r) (fwFallbackUserID r) (fwFallbackCheckedAt r)
    (fwUnresolved r) (fwUnresolvedSince r).
#[export] Instance set_fwEncoderBatch : Setter fwEncoderBatch := ltac:(mk_setter eta_forwarding).
#[export] Instance set_fwCaptionBatch : Setter fwCaptionBatch := ltac:(mk_setter eta_forwarding).
#[export] Instance set_fwLastEncoderFlush : Setter fwLastEncoderFlush := ltac:(mk_setter eta_forwarding).
#[export] Instance set_fwLastCaptionFlush : Setter fwLastCaptionFlush := ltac:(mk_setter eta_forwarding).
#[export] Instance set_fwFallbackUserID : Setter fwFallbackUserID := ltac:(mk_setter eta_forwarding).
#[export] Instance set_fwFallbackCheckedAt : Setter fwFallbackCheckedAt := ltac:(mk_setter eta_forwarding).
#[export] Instance set_fwUnresolved : Setter fwUnresolved := ltac:(mk_setter eta_forwarding).
#[export] Instance set_fwUnresolvedSince : Setter fwUnresolvedSince := ltac:(mk_setter eta_forwarding).

(** [opusForwardTarget] *)
Record opusForwardTarget := mkTarget {
  tgCaption : bool;
  tgURL : string;
  tgToken : string;
  tgBatches : nat }.

(** Entry points ([E..]) and goroutines ([G..]); the SDK passes its session with
    every event. *)
Inductive ClLabel :=
| EConnect
| EReconcileGateway (token : string) (selected : bool)
| EJoinVoice (job : VoiceJob)
| ELeaveVoice (streamID : string)
| ESetEventSink (sink : option Sink)
| ESetAudioForwarder (forwarder : option nat) (source : string)
| ESetAutoStartVoiceTargets (targets : list AutoStartVoiceTarget)
| EAutoStartVoicePresence (target : AutoStartVoiceTarget)
| ESnapshotVoiceParticipants (job : VoiceJob)
| ESendMessage (message : OutboundMessage)
| EStatus
| EOnGatewayDisconnect (session : nat)
| EOnReady (session : nat)
| EOnGatewayResumed (session : nat)
| EOnGuildCreate (session : nat) (guildID : option string)
| EOnVoiceStateUpdate (session : nat) (event : option VoiceStateUpdate)
| EOnMemberIdentity (session : nat) (member : option Member)
| EOnMessageCreate (session : nat) (message : option Message)
| EOnVoiceSpeakingUpdate (voice : nat) (event : option VoiceSpeakingUpdate)
| ESdkState (session : nat) (state : SdkState)
| GWatchDAVE (ctx : nat) (job : VoiceJob) (voice : nat) (generation : Z)
| GWatchTick (ctx : nat) (job : VoiceJob) (voice : nat) (generation : Z) (w : Watchdog)
| GForwardOpus (job : VoiceJob) (generation : Z) (stop done : nat) (forwarder : nat) (source : string)
| GForwardLoop (f : Forwarding)
| GRunTarget (ctx : nat) (job : VoiceJob) (generation : Z) (forwarder : nat) (source : string)
    (target : opusForwardTarget) (done : nat)
| GTargetLoop (ctx : nat) (job : VoiceJob) (generation : Z) (forwarder : nat) (source : string)
    (target : opusForwardTarget) (done : nat)
| GStopMonitor (stop monitorDone ctx : nat).

Abbreviation cprog := (prog RealClient DcCall ClLabel ClMutex).
Abbreviation ret := (@Ret RealClient DcCall ClLabel ClMutex _).

Definition new_ref (c : RealClient) : nat * RealClient := (hxNext c, c <| hxNext ::= S |>).

(** [close(c.audioStop)] *)
Definition close_stop (ch : nat) (c : RealClient) : RealClient :=
  c <| hxStoppedTwice ::= orb (bool_decide (ch ∈ hxStopped c)) |> <| hxStopped ::= union {[ch]} |>.

(** The close of a channel by the goroutine that owns it. *)
Definition close_chan (ch : nat) (c : RealClient) : RealClient := c <| hxClosed ::= union {[ch]} |>.

Definition cancel_ctx (ctx : nat) (c : RealClient) : RealClient := c <| hxCanceled ::= union {[ctx]} |>.

Definition closed (ch : nat) (c : RealClient) : bool := bool_decide (ch ∈ hxClosed c).
Definition stopped (ch : nat) (c : RealClient) : bool := bool_decide (ch ∈ hxStopped c).
Definition canceled (ctx : nat) (c : RealClient) : bool := bool_decide (ctx ∈ hxCanceled c).

Definition upd_opt {A B} (f : A -> B -> B) (o : option A) (b : B) : B :=
  match o with Some a => f a b | None => b end.

(** [session.State] of a session, [None] for a nil session. *)
Definition state_of (session : option nat) (c : RealClient) : option SdkState :=
  s ← session; hxStates c !! s.

(** [session != nil && session != c.session] *)
Definition stale_session (session : option nat) (c : RealClient) : bool :=
  match session with
  | None => false
  | Some s => negb (bool_decide (clSession c = Some s))
  end.

Definition to_sink (sink : option Sink) (event : SinkEvent) : cprog unit :=
  match sink with Some s => call (ToSink s event) | None => ret tt end.

Definition upd_status (f : Status -> Status) (c : RealClient) : RealClient := c <| clStatus ::= f |>.

Section Client.
Context `{NetURL}.

(** ** Status ([status.go]) *)

(** [setLastError] *)
Definition setLastError (value : string) (c : RealClient) : RealClient :=
  upd_status (fun s =>
    s <| suLastError := SanitizeOperationalError value "discord operation failed" |>) c.

(** [normalizeStatus]: the status as read, with the age of the last audio and of
    the last delivery. *)
Definition normalizeStatus (status : Status) (now : Time)
    : Status * option Duration * option Duration :=
  let age t := Z.max (Sub now t) 0 in
  let audio := age <$> suLastAudioAt status in
  let status :=
    match audio with
    | Some a => status <| suAudioReceiving := suAudioReceiving status && (a <=? 5 * Second) |>
    | None => status
    end in
  (status, audio, age <$> suLastForwardAt status).

(** [Status] *)
Definition ReadStatus : cprog (Status * option Duration * option Duration) :=
  let* x := read (fun c => (clStatus c, clVoice c)) in
  let '(status, voice) := x in
  let* status :=
    match voice with
    | None => ret status
    | Some v =>
        let* health := call (DAVEHealth v) in
        ret (status <| suDAVEInitialized := dhInitialized health |>
                    <| suDAVEReady := dhEpochEstablished health |>
                    <| suDAVEWelcomeReceived := dhOP30Received health |>
                    <| suDAVERosterSize := dhLastRosterSize health |>
                    <| suDAVERatchetsMissing := dhLastMissing health |>)
    end in
  let* now := read hxClock in
  ret (normalizeStatus status now).

(** ** The Gateway connection *)

Definition connected_section (c : RealClient) : option Sink * RealClient :=
  (clSink c, upd_status (fun s => s <| suConnected := true |> <| suLastError := "" |>) c).

(** [connectGateway] *)
Definition connectGateway : cprog (option error) :=
  let* x := read (fun c => (suConnected (clStatus c), clSession c)) in
  let '(alreadyConnected, session) := x in
  if alreadyConnected : bool then ret None else
  match session with
  | None => ret (Some (ErrNew "Discord Gateway is not selected"))
  | Some s =>
      let* err := call (OpenSession s) in
      match err with
      | Some e => do* modify (setLastError (Error e)) in ret (Some e)
      | None =>
          let* sink := atomic connected_section in
          do* to_sink sink DiscordConnected in
          ret None
      end
  end.

(** [Connect] *)
Definition Connect : cprog (option error) :=
  do* lock gatewayMu in
  let* err := connectGateway in
  do* unlock gatewayMu in
  ret err.

(** ** The voice connection ([voice.go]) *)

Definition waitForOpusForwardStop (done : option nat) : cprog unit :=
  match done with
  | None => ret tt
  | Some done => let* _ := wait (Some (2 * Second)) (closed done) in ret tt
  end.

Definition current_voice_job (job : VoiceJob) (generation : Z) (c : RealClient) : bool :=
  (clVoiceGeneration c =? generation) && sameVoiceJob (clJob c) job && suVoiceConnected (clStatus c).

(** [connectionGenerationForJob] *)
Definition connectionGenerationForJob (job : VoiceJob) (generation : Z) (c : RealClient) : Z :=
  if negb (current_voice_job job generation c) then 0 else generation.

(** [isCurrentVoiceJob] *)
Definition isCurrentVoiceJob (job : VoiceJob) (generation : Z) (c : RealClient) : bool :=
  current_voice_job job generation c.

(** The fields of the status that a lost voice connection resets. *)
Definition voice_lost (s : Status) : Status :=
  s <| suVoiceConnected := false |> <| suAudioReceiving := false |>
    <| suAudioForwardActive := false |> <| suCaptionAudioForwardActive := false |>
    <| suCurrentGuildID := "" |> <| suCurrentVoiceID := "" |>.

Definition dave_unknown (s : Status) : Status :=
  s <| suDAVEInitialized := false |> <| suDAVEReady := false |> <| suDAVEWelcomeReceived := false |>
    <| suDAVERosterSize := 0 |> <| suDAVERatchetsMissing := 0 |>.

(** The section of [LeaveVoice]: the connection and the forwarding to wait for;
    [None] when another stream holds the job. *)
Definition leave_section (streamID : string) (c : RealClient)
    : option (option nat * option nat) * RealClient :=
  if (jStreamID (clJob c) <>s "") && (streamID <>s "") && (jStreamID (clJob c) <>s streamID)
  then (None, c)
  else
    (Some (clVoice c, clAudioDone c),
     upd_opt cancel_ctx (clDaveCancel c) (upd_opt close_stop (clAudioStop c) c)
       <| clAudioStop := None |> <| clAudioDone := None |> <| clDaveCancel := None |>
       <| clVoice := None |> <| clVoiceGeneration ::= succ_u64 |> <| clJob := zeroVoiceJob |>
       <| clSsrcUsers := ∅ |> <| clAudioSpeakers := ∅ |>
       <| clStatus ::= fun s => dave_unknown (voice_lost s) |>).

(** [LeaveVoice] *)
Definition LeaveVoice (streamID : string) : cprog (option error) :=
  do* lock speakerDispatchMu in
  let* found := atomic (leave_section streamID) in
  do* unlock speakerDispatchMu in
  match found with
  | None => ret (Some (ErrNew "stream_id does not match current voice job"))
  | Some (voice, audioDone) =>
      let* disconnectErr :=
        match voice with Some v => call (DisconnectVoice v) | None => ret None end in
      do* waitForOpusForwardStop audioDone in
      match disconnectErr with
      | Some e => do* modify (setLastError (Error e)) in ret (Some e)
      | None => ret None
      end
  end.

(** [markVoiceDisconnectedLocked] up to the callback: was a connection lost, and
    the sink to tell. *)
Definition mark_section (closeAudioStop : bool) (c : RealClient)
    : (bool * option Sink) * RealClient :=
  let wasConnected := suVoiceConnected (clStatus c) in
  let daveCancel := clDaveCancel c in
  let c := if closeAudioStop
           then upd_opt close_stop (clAudioStop c) c <| clAudioStop := None |> else c in
  let c := upd_opt cancel_ctx daveCancel c in
  let c := c <| clDaveCancel := None |> <| clVoice := None |> <| clSsrcUsers := ∅ |>
             <| clAudioSpeakers := ∅ |> <| clStatus ::= voice_lost |> in
  let c := if wasConnected
           then upd_status (fun s => s <| suVoiceDisconnectCount ::= succ_i64 |>) c else c in
  ((wasConnected, clSink c), c).

Definition mark_callback (reason : string) (marked : bool * option Sink) : cprog unit :=
  if marked.1 then to_sink marked.2 (DiscordDisconnected reason) else ret tt.

(** [markVoiceDisconnected] *)
Definition markVoiceDisconnected (reason : string) (closeAudioStop : bool) : cprog unit :=
  do* lock speakerDispatchMu in
  let* marked := atomic (mark_section closeAudioStop) in
  do* mark_callback reason marked in
  unlock speakerDispatchMu.

(** [markVoiceDisconnectedForJob] *)
Definition mark_for_job_section (closeAudioStop : bool) (job : VoiceJob) (generation : Z)
    (c : RealClient) : option (bool * option Sink) * RealClient :=
  if negb (current_voice_job job generation c) then (None, c)
  else let '(marked, c) := mark_section closeAudioStop c in (Some marked, c).

Definition markVoiceDisconnectedForJob (reason : string) (closeAudioStop : bool) (job : VoiceJob)
    (generation : Z) : cprog unit :=
  do* lock speakerDispatchMu in
  let* marked := atomic (mark_for_job_section closeAudioStop job generation) in
  do* match marked with Some m => mark_callback reason m | None => ret tt end in
  unlock speakerDispatchMu.

(** What [JoinVoice] keeps from its section. *)
Record joined := mkJoined {
  jnOldAudioDone : option nat;
  jnOldVoice : option nat;
  jnGeneration : Z;
  jnAudioStop : nat;
  jnDaveCtx : nat;
  jnForwarding : option (nat * nat);  (* the forwarder and the new [audioDone] *)
  jnSource : string }.

(** The section of [JoinVoice]; the channel of received packets is never nil
    here, the code has just made it. *)
Definition join_section (voice : nat) (job : VoiceJob) (c : RealClient) : joined * RealClient :=
  let oldAudioDone := clAudioDone c in
  let oldVoice := clVoice c in
  let c := upd_opt cancel_ctx (clDaveCancel c) (upd_opt close_stop (clAudioStop c) c) in
  let '(audioStop, c) := new_ref c in
  let '(daveCtx, c) := new_ref c in
  let generation := succ_u64 (clVoiceGeneration c) in
  let encoder := bool_decide (is_Some (clForward c)) && negb (blank (jEncoderAudioURL job)) in
  let caption := bool_decide (is_Some (clForward c)) && negb (blank (jCaptionAudioURL job)) in
  let c := c <| clVoice := Some voice |> <| clJob := job |> <| clVoiceGeneration := generation |>
             <| clAudioStop := Some audioStop |> <| clAudioDone := None |>
             <| clDaveCancel := Some daveCtx |> <| clSsrcUsers := ∅ |> <| clAudioSpeakers := ∅ |>
             <| clStatus ::= fun s =>
                  dave_unknown s <| suVoiceConnected := true |> <| suCurrentGuildID := jGuildID job |>
                    <| suCurrentVoiceID := jVoiceChannelID job |>
                    <| suAudioForwardActive := encoder |> <| suCaptionAudioForwardActive := caption |>
                    <| suDAVELastRecoveryReason := "" |> <| suLastError := "" |> |> in
  match clForward c with
  | Some forwarder =>
      if encoder || caption then
        let '(audioDone, c) := new_ref c in
        (mkJoined oldAudioDone oldVoice generation audioStop daveCtx (Some (forwarder, audioDone))
           (clSource c), c <| clAudioDone := Some audioDone |>)
      else (mkJoined oldAudioDone oldVoice generation audioStop daveCtx None (clSource c), c)
  | None => (mkJoined oldAudioDone oldVoice generation audioStop daveCtx None (clSource c), c)
  end.

Definition errVoiceTarget : error := ErrNew "stream_id, guild_id and voice_channel_id are required".

(** [JoinVoice] *)
Definition JoinVoice (job : VoiceJob) : cprog (option error) :=
  if blank (jGuildID job) || blank (jVoiceChannelID job) || blank (jStreamID job)
  then ret (Some errVoiceTarget)
  else
  do* lock gatewayMu in
  let* err := connectGateway in
  match err with
  | Some e => do* unlock gatewayMu in ret (Some e)
  | None =>
  let* session := read clSession in
  let* voice := call (ChannelVoiceJoin session (jGuildID job) (jVoiceChannelID job)) in
  match voice with
  | inr e =>
      do* modify (setLastError (Error e)) in
      do* unlock gatewayMu in
      ret (Some e)
  | inl voice =>
      do* call (AddVoiceHandler voice) in
      do* lock speakerDispatchMu in
      let* j := atomic (join_section voice job) in
      do* unlock speakerDispatchMu in
      do* match jnOldVoice j with
          | Some old =>
              if Nat.eqb old voice then ret tt
              else let* _ := call (DisconnectVoice old) in ret tt
          | None => ret tt
          end in
      do* waitForOpusForwardStop (jnOldAudioDone j) in
      do* spawn (GWatchDAVE (jnDaveCtx j) job voice (jnGeneration j)) in
      do* match jnForwarding j with
          | Some (forwarder, audioDone) =>
              spawn (GForwardOpus job (jnGeneration j) (jnAudioStop j) audioDone forwarder (jnSource j))
          | None => ret tt
          end in
      do* unlock gatewayMu in
      ret None
  end
  end.

(** ** Reconciliation of the Gateway ([client.go]) *)

Definition SetEventSink (sink : option Sink) (c : RealClient) : RealClient := c <| clSink := sink |>.

(** [SetAudioForwarder] *)
Definition SetAudioForwarder (forwarder : option nat) (source : string) (c : RealClient) : RealClient :=
  upd_status (fun s => s <| suAudioForwardEnabled := bool_decide (is_Some forwarder) |>)
    (c <| clForward := forwarder |> <| clSource := source |>).

Definition detach_section (c : RealClient) : RealClient :=
  upd_status (fun s => s <| suConnected := false |>) (c <| clSession := None |> <| clCfg := "" |>).

Definition revoke_section (c : RealClient) : option nat * RealClient :=
  (clSession c, detach_section c <| clUnknownAutoStartJoins := ∅ |>).

(** [revokeGateway] *)
Definition revokeGateway : cprog (option error) :=
  let* old := atomic revoke_section in
  let* voiceErr := LeaveVoice "" in
  let* gatewayErr := match old with Some s => call (CloseSession s) | None => ret None end in
  if bool_decide (is_Some voiceErr) || bool_decide (is_Some gatewayErr)
  then ret (Some (ErrNew "Discord Gateway revocation failed")) else ret None.

(** [ReconcileGateway] of the client; the configuration is its Bot token. *)
Definition reconcile_gateway (token : string) : cprog (option error) :=
  let* x := read (fun c => (clSession c, jStreamID (clJob c) <>s "", clCfg c =s token)) in
  let '(old, active, same) := x in
  if active : bool then ret None
  else if blank token then ret (Some (ErrNew "selected Bot credential unavailable"))
  else if bool_decide (is_Some old) && same then connectGateway
  else
  let* closeErr := match old with Some s => call (CloseSession s) | None => ret None end in
  match closeErr with
  | Some _ => ret (Some (ErrNew "Discord Gateway close failed"))
  | None =>
      do* modify detach_section in
      let* session := call (NewSession ("Bot " ++ token)) in
      match session with
      | inr _ => ret (Some (ErrNew "Discord Gateway configuration failed"))
      | inl s =>
          do* modify (fun c => c <| clSession := Some s |> <| clCfg := token |>) in
          connectGateway
      end
  end.

Definition ReconcileGateway (token : string) (selected : bool) : cprog (option error) :=
  do* lock gatewayMu in
  let* err := if selected then reconcile_gateway token else revokeGateway in
  do* unlock gatewayMu in
  ret err.

(** The client before it is selected ([NewDormantRealClient]). *)
Definition dormant : RealClient :=
  mkClient "" None None None [] ∅ None "" None None None ∅ ∅ 0 zeroStatus zeroVoiceJob 0
    0 0 ∅ ∅ ∅ false ∅ ∅.

(** [NewRealClient] *)
Definition NewRealClient (token : string) : cprog (option error) :=
  if blank token then ret (Some (ErrNew "Discord bot runtime secret is required"))
  else
    let* session := call (NewSession ("Bot " ++ token)) in
    match session with
    | inr e => ret (Some e)
    | inl s => do* modify (fun _ => dormant <| clSession := Some s |> <| clCfg := token |>) in ret None
    end.
End Client.
