(* ===== verification/DiscordEvents.v ===== *)
(** * DiscordEvents: what the client does with Gateway events

    The handlers of [gateway.go] and [event_adapter.go], the auto-start targets
    of [voice_targets.go] with the joins of unknown identity of
    [voice_identity.go], the participant snapshots, chat messages and
    [message.go].  Diagnostics that only log are left out. *)

From Stdlib Require Import SpecFloat.
From S2P Require Import Prelude Conc Errors Types Secrets Floats SdkState AudioForward DiscordClient.

Open Scope go_scope.

(** ** Auto-start targets ([voice_targets.go]) *)

Definition target_key (t : AutoStartVoiceTarget) : string :=
  atStreamID t ++ NUL ++ atGuildID t ++ NUL ++ atVoiceChannelID t.

Definition trim_target (t : AutoStartVoiceTarget) : AutoStartVoiceTarget :=
  mkAutoStartVoiceTarget (atAssignmentEpoch t) (TrimSpace (atStreamID t)) (TrimSpace (atGuildID t))
    (TrimSpace (atVoiceChannelID t)).

(** The loop of [SetAutoStartVoiceTargets]: the keys seen and the targets kept. *)
Definition normalize_step (acc : gset string * list AutoStartVoiceTarget) (t : AutoStartVoiceTarget)
    : gset string * list AutoStartVoiceTarget :=
  let '(seen, normalized) := acc in
  let t := trim_target t in
  if (atStreamID t =s "") || (atGuildID t =s "") || (atVoiceChannelID t =s "") then acc
  else if bool_decide (target_key t ∈ seen) then acc
  else ({[target_key t]} ∪ seen, (normalized ++ [t])%list).

Definition normalize_targets (targets : list AutoStartVoiceTarget) : list AutoStartVoiceTarget :=
  (fold_left normalize_step targets (∅, [])).2.

Definition pending_matches (key : pendingAutoStartJoin) (t : AutoStartVoiceTarget) : bool :=
  (pjStreamID key =s atStreamID t) && (pjAssignmentEpoch key =s atAssignmentEpoch t)
  && (pjGuildID key =s atGuildID t) && (pjVoiceChannelID key =s atVoiceChannelID t).

(** The joins of unknown identity that still belong to a target of the current
    session. *)
Definition retain_unknown (session : option nat) (targets : list AutoStartVoiceTarget)
    (joins : gmap pendingAutoStartJoin nat) : gmap pendingAutoStartJoin nat :=
  filter (fun kv : pendingAutoStartJoin * nat =>
            bool_decide (session = Some kv.2) && existsb (pending_matches kv.1) targets = true) joins.

Definition set_targets_section (targets : list AutoStartVoiceTarget) (c : RealClient)
    : option nat * RealClient :=
  let normalized := normalize_targets targets in
  (clSession c,
   c <| clAutoStartTargets := normalized |>
     <| clUnknownAutoStartJoins ::= retain_unknown (clSession c) normalized |>).

(** [autoStartPresenceCurrentLocked] *)
Definition autoStartPresenceCurrent (session : option nat) (target : AutoStartVoiceTarget)
    (c : RealClient) : bool :=
  bool_decide (is_Some session) && bool_decide (session = clSession c)
  && suConnected (clStatus c) && (jStreamID (clJob c) =s "")
  && bool_decide (target ∈ clAutoStartTargets c).

(** [AutoStartVoicePresence]: present, and known. *)
Definition AutoStartVoicePresence (target : AutoStartVoiceTarget) : cprog (bool * bool) :=
  let* x := read (fun c => (clSession c, autoStartPresenceCurrent (clSession c) target c)) in
  let '(session, current) := x in
  if negb current then ret (false, false) else
  let* seen := read (fun c => option_map (fun s => presence_of s target) (state_of session c)) in
  match seen with
  | None => ret (false, false)
  | Some presence =>
      let* current := read (autoStartPresenceCurrent session target) in
      if current then ret presence else ret (false, false)
  end.

(** [autoStartAuthorityCurrent] *)
Definition autoStartAuthorityCurrent (session : option nat) (authority : option AutoStartAuthority)
    (c : RealClient) : bool :=
  if stale_session session c then false
  else
    match authority with
    | None => true
    | Some a =>
        existsb (fun t => (atStreamID t =s auStreamID a)
                   && (atAssignmentEpoch t =s auAssignmentEpoch a)) (clAutoStartTargets c)
    end.

(** [resolveAutoStartPresence]: a join of unknown identity that is now verified
    is a new join, not a presence. *)
Definition resolveAutoStartPresence (session : option nat) (event : VoiceJoinEvent) (c : RealClient)
    : VoiceJoinEvent * RealClient :=
  match veAuthority event with
  | None => (event, c)
  | Some a =>
      if negb (bool_decide (session = clSession c)) then (event, c)
      else
        let key := mkPendingJoin (auStreamID a) (auAssignmentEpoch a) (veGuildID event)
                     (veVoiceChannelID event) (veUserID event) in
        (* a missing entry reads as the nil session *)
        if bool_decide (clUnknownAutoStartJoins c !! key = session) then
          (mkVoiceJoinEvent (veAuthority event) false (veGuildID event) (veVoiceChannelID event)
             (veUserID event) (veUsername event),
           c <| clUnknownAutoStartJoins ::= delete key |>)
        else (event, c)
  end.

(** The delivery loop of [syncAutoStartVoiceMembers]. *)
Fixpoint deliver_joins (session : option nat) (sink : Sink) (events : list VoiceJoinEvent)
    : cprog unit :=
  match events with
  | [] => ret tt
  | event :: events =>
      let* event := atomic (resolveAutoStartPresence session event) in
      let* current := read (autoStartAuthorityCurrent session (veAuthority event)) in
      do* if current then call (ToSink sink (VoiceUserJoined event)) else ret tt in
      deliver_joins session sink events
  end.

(** [syncAutoStartVoiceMembers] *)
Definition syncAutoStartVoiceMembers (session : option nat) : cprog unit :=
  let* x := read (fun c => (stale_session session c, clAutoStartTargets c, clSink c,
                            suConnected (clStatus c), clSession c)) in
  let '(stale, targets, sink, connected, current) := x in
  if stale : bool then ret tt else
  let session := match session with Some s => Some s | None => current end in
  let* tracked := read (fun c => from_option sdTrackVoice false (state_of session c)) in
  match sink with
  | None => ret tt
  | Some sink =>
      if negb connected || negb tracked || bool_decide (targets = []) then ret tt else
      let* selfUserID := read (fun c => sessionUserID (state_of session c)) in
      if selfUserID =s "" then ret tt else
      let* events := read (fun c =>
        from_option (fun s => collect_events s selfUserID targets) [] (state_of session c)) in
      deliver_joins session sink events
  end.

(** [SetAutoStartVoiceTargets] *)
Definition SetAutoStartVoiceTargets (targets : list AutoStartVoiceTarget) : cprog unit :=
  let* session := atomic (set_targets_section targets) in
  syncAutoStartVoiceMembers session.

(** ** Joins of unknown identity ([voice_identity.go]) *)

Definition maxUnknownAutoStartJoins : Z := 256.

(** One target of [rememberUnknownAutoStartJoin]. *)
Definition remember_step (session : nat) (event : VoiceState) (c : RealClient)
    (t : AutoStartVoiceTarget) : RealClient :=
  if bool_decide (t ∈ clAutoStartTargets c) && (atGuildID t =s vsGuildID event)
     && (atVoiceChannelID t =s vsChannelID event)
     && (mlen (clUnknownAutoStartJoins c) <? maxUnknownAutoStartJoins)
  then
    let key := mkPendingJoin (atStreamID t) (atAssignmentEpoch t) (atGuildID t) (atVoiceChannelID t)
                 (vsUserID event) in
    c <| clUnknownAutoStartJoins ::= <[key := session]> |>
  else c.

(** [rememberUnknownAutoStartJoin] *)
Definition rememberUnknownAutoStartJoin (session : option nat) (event : VoiceState)
    (observed : list AutoStartVoiceTarget) (c : RealClient) : RealClient :=
  match session with
  | None => c
  | Some s =>
      if negb (bool_decide (clSession c = Some s)) then c
      else fold_left (remember_step s event) observed c
  end.

(** [discardObsoleteAutoStartJoins] *)
Definition discardObsoleteAutoStartJoins (session : option nat) (guildID channelID userID : string)
    (rejectedIdentity : bool) (c : RealClient) : RealClient :=
  if negb (bool_decide (session = clSession c)) then c
  else
    c <| clUnknownAutoStartJoins ::= filter (fun kv : pendingAutoStartJoin * nat =>
           (pjGuildID kv.1 =s guildID) && (pjUserID kv.1 =s userID)
           && (rejectedIdentity || (pjVoiceChannelID kv.1 <>s channelID)) = false) |>.

(** [onAutoStartMemberIdentity], the handler of added and updated members. *)
Definition onAutoStartMemberIdentity (session : option nat) (member : option Member) : cprog unit :=
  match member with
  | None => ret tt
  | Some m =>
      match meUser m with
      | None => ret tt
      | Some u =>
          if blank (meGuildID m) || blank (usID u) then ret tt else
          do* if usBot u
              then modify (discardObsoleteAutoStartJoins session (meGuildID m) "" (usID u) true)
              else ret tt in
          syncAutoStartVoiceMembers session
      end
  end.

(** ** Participants and chat ([event_adapter.go]) *)

(** [snapshotVoiceParticipantsLocked] *)
Definition snapshot_section (session : option nat) (job : VoiceJob) (c : RealClient)
    : option ParticipantSnapshot * RealClient :=
  match snapshot_participants_of (state_of session c) job with
  | None => (None, c)
  | Some (streamID, guildID, channelID, participants) =>
      let revision := succ_u64 (clParticipantSnapshotNext c) in
      (Some (mkParticipantSnapshot streamID guildID channelID participants revision),
       c <| clParticipantSnapshotNext := revision |>)
  end.

(** [SnapshotVoiceParticipants] *)
Definition SnapshotVoiceParticipants (job : VoiceJob) : cprog (option ParticipantSnapshot) :=
  do* lock participantSyncMu in
  let* x := read (fun c => (clJob c, clSession c)) in
  let '(current, session) := x in
  let* snapshot :=
    if negb (sameVoiceJob current job) then ret None
    else atomic (snapshot_section session current) in
  do* unlock participantSyncMu in
  ret snapshot.

(** [syncVoiceParticipants] under its gate. *)
Definition sync_participants_gated (session : option nat) (expected : VoiceJob) : cprog unit :=
  let* x := read (fun c => (stale_session session c, clJob c, clSink c, clSession c)) in
  let '(stale, job, sink, current) := x in
  if stale : bool then ret tt else
  let session := match session with Some s => Some s | None => current end in
  if negb (sameVoiceJob job expected) then ret tt else
  match sink with
  | None => ret tt
  | Some sink =>
      if negb (skParticipantSnapshot sink) then ret tt else
      let* snapshot := atomic (snapshot_section session job) in
      match snapshot with
      | None => ret tt
      | Some s => call (ToSink sink (ParticipantsSynced s))
      end
  end.

Definition syncVoiceParticipants (session : option nat) (expected : VoiceJob) : cprog unit :=
  do* lock participantSyncMu in
  do* sync_participants_gated session expected in
  unlock participantSyncMu.

(** [syncCurrentVoiceParticipants] *)
Definition syncCurrentVoiceParticipants (session : option nat) : cprog unit :=
  let* job := read clJob in
  if blank (jStreamID job) then ret tt else syncVoiceParticipants session job.

(** [discordMessageDisplayName] *)
Definition discordMessageDisplayName (m : Message) : string :=
  match msAuthor m with
  | None => ""
  | Some author =>
      let nickname := match msMember m with Some mb => TrimSpace (meNick mb) | None => "" end in
      if nickname <>s "" then nickname else first_name [usGlobalName author; usUsername author]
  end.

Definition chat_event (job : VoiceJob) (m : Message) (author : User) (content : string) (now : Time)
    : ChatMessageEvent :=
  mkChatMessageEvent (jStreamID job) (jGuildID job) (jTextChannelID job) (msID m) (usID author)
    (discordMessageDisplayName m) (TrimSpace (User_AvatarURL author "128")) (usBot author) content
    (default now (msTimestamp m)).

(** [onMessageCreate] *)
Definition onMessageCreate (session : option nat) (message : option Message) : cprog unit :=
  match message with
  | None => ret tt
  | Some m =>
      match msAuthor m with
      | None => ret tt
      | Some author =>
          let* selfUserID := read (fun c => sessionUserID (state_of session c)) in
          if usID author =s selfUserID then ret tt else
          let* x := read (fun c => (stale_session session c, clJob c, clSink c)) in
          let '(stale, job, sink) := x in
          if stale : bool then ret tt else
          match sink with
          | None => ret tt
          | Some sink =>
              if blank (jStreamID job) || blank (jTextChannelID job) then ret tt
              else if (msChannelID m <>s jTextChannelID job) || (msGuildID m <>s jGuildID job)
              then ret tt
              else
              let content := TrimSpace (msContent m) in
              if content =s "" then ret tt else
              let* now := read hxClock in
              call (ToSink sink (ChatMessageReceived (chat_event job m author content now)))
          end
      end
  end.

(** ** Gateway events ([gateway.go]) *)

Definition gateway_lost_section (session : option nat) (c : RealClient)
    : (bool * option Sink) * RealClient :=
  if stale_session session c then ((false, None), c)
  else ((true, clSink c),
        upd_status (fun s => s <| suConnected := false |>) (c <| clUnknownAutoStartJoins := ∅ |>)).

(** [onGatewayDisconnect] *)
Definition onGatewayDisconnect (session : option nat) : cprog unit :=
  let* x := atomic (gateway_lost_section session) in
  to_sink x.2 (DiscordDisconnected "gateway_disconnect").

Definition gateway_up_section (resumed : bool) (session : option nat) (c : RealClient)
    : (bool * option Sink) * RealClient :=
  if stale_session session c then ((false, None), c)
  else
    ((true, clSink c),
     upd_status (fun s =>
       let s := s <| suConnected := true |> <| suLastError := "" |> in
       if resumed then s <| suGatewayReconnectCount ::= succ_i64 |> else s) c).

(** [onReady] and [onGatewayResumed] *)
Definition onGatewayUp (resumed : bool) (session : option nat) : cprog unit :=
  let* x := atomic (gateway_up_section resumed session) in
  let '(ok, sink) := x in
  if negb ok then ret tt else
  do* to_sink sink DiscordConnected in
  do* syncCurrentVoiceParticipants session in
  syncAutoStartVoiceMembers session.

Definition onReady : option nat -> cprog unit := onGatewayUp false.
Definition onGatewayResumed : option nat -> cprog unit := onGatewayUp true.

(** [onGuildCreate] *)
Definition onGuildCreate (session : option nat) (guildID : option string) : cprog unit :=
  match guildID with
  | None => ret tt
  | Some guildID =>
      let* x := read (fun c => (stale_session session c, clJob c)) in
      let '(stale, job) := x in
      if stale : bool then ret tt else
      do* syncAutoStartVoiceMembers session in
      if blank (jStreamID job) || (guildID <>s jGuildID job) then ret tt
      else syncVoiceParticipants session job
  end.

(** What [onVoiceStateUpdate] reads under the client's lock. *)
Record voice_view := mkVoiceView {
  vvJob : VoiceJob;
  vvSink : option Sink;
  vvTargets : list AutoStartVoiceTarget;
  vvConnected : bool }.

(** What [onVoiceStateUpdate] knows of an event when it decides. *)
Record voice_facts := mkFacts {
  vfEvent : VoiceState;
  vfBefore : option VoiceState;
  vfSelfUserID : string;
  vfCurrentChannelID : string;
  vfCurrentKnown : bool }.

Definition new_join (f : voice_facts) : bool :=
  match vfBefore f with
  | None => true
  | Some before => vsChannelID before <>s vsChannelID (vfEvent f)
  end.

(** [currentStateAcceptsJoin] *)
Definition accepts_join (job : VoiceJob) (f : voice_facts) : bool :=
  ((jStreamID job =s "") && (vfCurrentChannelID f =s ""))
  || negb (vfCurrentKnown f) || (vfCurrentChannelID f =s vsChannelID (vfEvent f)).

(** A join of somebody else, seen by a connected client. *)
Definition joins (view : voice_view) (f : voice_facts) : bool :=
  vvConnected view && (vfSelfUserID f <>s "") && bool_decide (is_Some (vvSink view))
  && (vsChannelID (vfEvent f) <>s "") && (vsUserID (vfEvent f) <>s "")
  && (vsUserID (vfEvent f) <>s vfSelfUserID f)
  && new_join f && accepts_join (vvJob view) f.

(** The candidates of a join: one event per matching target. *)
Fixpoint offer_join (session : option nat) (sink : Sink) (event : VoiceState)
    (targets : list AutoStartVoiceTarget) : cprog unit :=
  match targets with
  | [] => ret tt
  | t :: targets =>
      do* (if (atGuildID t =s vsGuildID event) && (atVoiceChannelID t =s vsChannelID event) then
             let authority := Some (mkAuthority (atStreamID t) (atAssignmentEpoch t)) in
             let* current := read (autoStartAuthorityCurrent session authority) in
             if current then
               call (ToSink sink (VoiceUserJoined
                 (mkVoiceJoinEvent authority false (vsGuildID event) (vsChannelID event)
                    (vsUserID event) "")))
             else ret tt
           else ret tt) in
      offer_join session sink event targets
  end.

(** A join without any target, while a job is active. *)
Definition offer_untargeted (session : option nat) (sink : Sink) (event : VoiceState)
    (view : voice_view) : cprog unit :=
  if bool_decide (vvTargets view = []) && (jStreamID (vvJob view) <>s "") then
    let* current := read (autoStartAuthorityCurrent session None) in
    if current then
      call (ToSink sink (VoiceUserJoined
        (mkVoiceJoinEvent None false (vsGuildID event) (vsChannelID event) (vsUserID event) "")))
    else ret tt
  else ret tt.

(** What the event says about the participants of the active job. *)
Inductive decision :=
| Ignored
| SelfDisconnected
| ParticipantJoined (event : ParticipantEvent)
| ParticipantLeft (event : ParticipantEvent).

Definition before_in (f : voice_facts) (channelID : string) : bool :=
  match vfBefore f with Some before => vsChannelID before =s channelID | None => false end.

Definition decide_participant (view : voice_view) (f : voice_facts) : decision :=
  let job := vvJob view in
  let event := vfEvent f in
  let target := jVoiceChannelID job in
  if (jStreamID job =s "") || (vsGuildID event <>s jGuildID job) then Ignored
  else if (vsUserID event =s vfSelfUserID f) && before_in f target
          && (vsChannelID event <>s target)
          && (negb (vfCurrentKnown f) || (vfCurrentChannelID f <>s target))
  then SelfDisconnected
  else if negb (bool_decide (is_Some (vvSink view))) then Ignored
  else if vsUserID event =s vfSelfUserID f then Ignored
  else if vsChannelID event =s target then
    if vfCurrentKnown f && (vfCurrentChannelID f <>s target) then Ignored
    else
      let p := voiceParticipantFromState (jGuildID job) event in
      ParticipantJoined (mkParticipantEvent (jStreamID job) (jGuildID job) target (vsUserID event)
        (vpUsername p) (vpAvatarURL p) (vpIsBot p) true)
  else if before_in f target then
    if vfCurrentKnown f && (vfCurrentChannelID f =s target) then Ignored
    else ParticipantLeft (mkParticipantEvent (jStreamID job) (jGuildID job) target (vsUserID event)
           "" "" false false)
  else Ignored.

(** The auto-start part of [onVoiceStateUpdate]. *)
Definition offer_auto_start (session : option nat) (view : voice_view) (f : voice_facts)
    (member : option Member) (identityKnown : bool) : cprog unit :=
  let event := vfEvent f in
  let human := is_human member in
  do* modify (discardObsoleteAutoStartJoins session (vsGuildID event) (vsChannelID event)
                (vsUserID event) (identityKnown && (negb human || new_join f))) in
  do* (if joins view f && negb identityKnown then
         do* modify (rememberUnknownAutoStartJoin session event (vvTargets view)) in
         syncAutoStartVoiceMembers session
       else ret tt) in
  do* (if human && negb (new_join f) then syncAutoStartVoiceMembers session else ret tt) in
  match vvSink view with
  | Some sink =>
      if joins view f && human then
        do* offer_join session sink event (vvTargets view) in
        offer_untargeted session sink event view
      else ret tt
  | None => ret tt
  end.

(** [onVoiceStateUpdate] *)
Definition onVoiceStateUpdate (session : option nat) (event : option VoiceStateUpdate) : cprog unit :=
  match event with
  | None => ret tt
  | Some update =>
      let event := vuState update in
      let* current := read (fun c =>
        currentTrackedVoiceChannel (state_of session c) (vsGuildID event) (vsUserID event)) in
      let* x := read (fun c => (stale_session session c,
        mkVoiceView (clJob c) (clSink c) (clAutoStartTargets c) (suConnected (clStatus c)))) in
      let '(stale, view) := x in
      if stale : bool then ret tt else
      let* selfUserID := read (fun c => sessionUserID (state_of session c)) in
      let* identity := read (fun c => currentAutoStartMember (state_of session c) event) in
      let f := mkFacts event (vuBeforeUpdate update) selfUserID current.1 current.2 in
      do* offer_auto_start session view f identity.1 identity.2 in
      match decide_participant view f with
      | Ignored => ret tt
      | SelfDisconnected => markVoiceDisconnected "voice_state_disconnected" true
      | ParticipantJoined e | ParticipantLeft e => to_sink (vvSink view) (ParticipantChanged e)
      end
  end.

(** ** Messages ([message.go]) *)

(** [SendMessageError]: a code, whether a retry may help, and the wait before it. *)
Record send_error := mkSendError {
  seCode : string;
  seRetryable : bool;
  seRetryAfter : Duration }.

(** [retryAfterFromRESTError], of the header's text; [None] is an error without a
    response.  It is the wait a [RESTError] carries. *)
Definition retryAfterFromRESTError `{FloatConversion} (header : option string) : Duration :=
  match header with
  | None => 0
  | Some raw =>
      match ParseFloat (TrimSpace raw) with
      | None => 0
      | Some seconds =>
          if SFleb seconds (S754_zero false) then 0 else int_of_float (fmul seconds (float64 Second))
      end
  end.

(** [NaN] is no error of the parser and not below zero: the wait is then what the
    conversion of the platform makes of it. *)
Example retry_after_samples `{FloatConversion} :
  retryAfterFromRESTError (Some " 0.25 ") = 250 * Millisecond /\
  retryAfterFromRESTError (Some "-3") = 0 /\ retryAfterFromRESTError (Some "soon") = 0 /\
  retryAfterFromRESTError (Some "NaN") = int_overflow S754_nan.
Proof. vm_compute. done. Qed.

(** [classifyMessageSendError] *)
Definition classifyMessageSendError (err : SdkError) : send_error :=
  match err with
  | RateLimitError retryAfter => mkSendError SendMessageCodeRateLimited true (default 0 retryAfter)
  | RESTError status apiCode retryAfter =>
      let status := default 0 status in
      let apiCode := default 0 apiCode in
      if apiCode =? 50013 then mkSendError SendMessageCodeMissingPermissions false 0
      else if apiCode =? 50001 then mkSendError SendMessageCodeMissingAccess false 0
      else if apiCode =? 10003 then mkSendError SendMessageCodeChannelNotFound false 0
      else if status =? 429 then mkSendError SendMessageCodeRateLimited true retryAfter
      else if 500 <=? status then mkSendError SendMessageCodeUnavailable true 0
      else if status =? 403 then mkSendError SendMessageCodeMissingPermissions false 0
      else if status =? 401 then mkSendError SendMessageCodeAuthenticationFailed false 0
      else if status =? 404 then mkSendError SendMessageCodeChannelNotFound false 0
      else mkSendError SendMessageCodeRequestRejected false 0
  | OtherError _ => mkSendError SendMessageCodeUnavailable true 0
  end.

Section Messages.
Context `{NetURL}.

(** [SendMessage] *)
Definition SendMessage (message : OutboundMessage) : cprog (string + send_error) :=
  let channelID := TrimSpace (omChannelID message) in
  if (channelID =s "") || blank (omContent message)
  then ret (inr (mkSendError SendMessageCodeInvalidRequest false 0))
  else
  let* session := read clSession in
  match session with
  | None => ret (inr (mkSendError SendMessageCodeUnavailable true 0))
  | Some s =>
      let* sent := call (SendComplex s channelID (omContent message)) in
      match sent with
      | inr err =>
          do* modify (setLastError "discord message send failed") in
          ret (inr (classifyMessageSendError err))
      | inl (Some id) =>
          if blank id then
            do* modify (setLastError "discord message response was invalid") in
            ret (inr (mkSendError SendMessageCodeUnavailable true 0))
          else ret (inl id)
      | inl None =>
          do* modify (setLastError "discord message response was invalid") in
          ret (inr (mkSendError SendMessageCodeUnavailable true 0))
      end
  end.
End Messages.
