(* ===== verification/Noop.v ===== *)
(** * Noop: the development client

    [NoopClient] of [internal/discord/noop.go] and [message.go], the client of a
    manager that is given none, and [buildDiscordClient] of
    [cmd/discord-bot/main.go], which chooses it for a dry run.  Its methods
    answer without a connection but keep the contract of a voice client. *)

From S2P Require Import Prelude Conc Errors Types SdkState DaveWatch AudioForward DiscordClient DiscordEvents.

Open Scope go_scope.

Record NoopClient := mkNoop { npStatus : Status; npJob : VoiceJob; npSink : bool }.

Definition eta_Noop (r : NoopClient) : NoopClient := mkNoop (npStatus r) (npJob r) (npSink r).
#[export] Instance set_npStatus : Setter npStatus := ltac:(mk_setter eta_Noop).
#[export] Instance set_npJob : Setter npJob := ltac:(mk_setter eta_Noop).
#[export] Instance set_npSink : Setter npSink := ltac:(mk_setter eta_Noop).

Inductive NoopCall : Type -> Type :=
| NoopConnected : NoopCall unit  (* [DiscordConnected] of the sink *)
| NoopNow : NoopCall Time.

Abbreviation nprog := (prog NoopClient NoopCall Empty_set Empty_set).
Abbreviation nret := (@Ret NoopClient NoopCall Empty_set Empty_set _).

(** [SetEventSink] *)
Definition SetEventSink (sink : bool) (c : NoopClient) : NoopClient := c <| npSink := sink |>.

(** [Connect] *)
Definition Connect : nprog (option error) :=
  let* sink := atomic (fun c => (npSink c, c <| npStatus ::= (fun s => s <| suConnected := true |>) |>)) in
  if (sink : bool) then do* call NoopConnected in nret None else nret None.

(** [JoinVoice] *)
Definition JoinVoice (job : VoiceJob) : nprog (option error) :=
  if blank (jGuildID job) || blank (jVoiceChannelID job) || blank (jStreamID job)
  then nret (Some (ErrNew "stream_id, guild_id and voice_channel_id are required"))
  else
    let* err := Connect in
    match err with
    | Some e => nret (Some e)
    | None =>
        do* modify (fun c =>
          c <| npJob := job |>
            <| npStatus ::= (fun s => s <| suVoiceConnected := true |> <| suCurrentGuildID := jGuildID job |>
                                      <| suCurrentVoiceID := jVoiceChannelID job |>) |>) in
        nret None
    end.

(** [LeaveVoice] *)
Definition leave_section (streamID : string) (c : NoopClient) : option error * NoopClient :=
  if (jStreamID (npJob c) <>s "") && (streamID <>s "") && (jStreamID (npJob c) <>s streamID)
  then (Some (ErrNew "stream_id does not match current voice job"), c)
  else (None, c <| npJob := zeroVoiceJob |>
                <| npStatus ::= (fun s => s <| suVoiceConnected := false |> <| suCurrentGuildID := "" |>
                                          <| suCurrentVoiceID := "" |>) |>).

Definition LeaveVoice (streamID : string) : nprog (option error) := atomic (leave_section streamID).

(** [Status] *)
Definition ReadStatus : nprog (Status * option Duration * option Duration) :=
  let* status := read npStatus in
  let* now := call NoopNow in
  nret (normalizeStatus status now).

(** [SendMessage]; is the context still live? *)
Definition SendMessage (live : bool) (message : OutboundMessage) : string + send_error :=
  if negb live then inr (mkSendError SendMessageCodeUnavailable true 0)
  else if blank (omChannelID message) || blank (omContent message)
  then inr (mkSendError SendMessageCodeInvalidRequest false 0)
  else inl "noop-message".

(** [buildDiscordClient] for the answer of [NewRealClient] *)
Inductive built (C : Type) := BuiltNoop | BuiltReal (client : C).
Arguments BuiltNoop {C}.
Arguments BuiltReal {C}.

Definition buildDiscordClient {C} (botToken : string) (newRealClient : C + error) (allowDryRun : bool)
    : built C + error :=
  if botToken =s "" then
    if allowDryRun then inl BuiltNoop else inr (ErrNew "Discord bot token is required in this environment")
  else
    match newRealClient with
    | inl client => inl (BuiltReal client)
    | inr err => if allowDryRun then inl BuiltNoop else inr err
    end.

(** ** The contract of a voice client *)

(** The voice fields of the status name the current job. *)
Definition noop_ok (c : NoopClient) : Prop :=
  if suVoiceConnected (npStatus c)
  then suConnected (npStatus c) = true /\ jStreamID (npJob c) <> "" /\
       suCurrentGuildID (npStatus c) = jGuildID (npJob c) /\
       suCurrentVoiceID (npStatus c) = jVoiceChannelID (npJob c)
  else npJob c = zeroVoiceJob /\ suCurrentGuildID (npStatus c) = "" /\ suCurrentVoiceID (npStatus c) = "".

(** Nothing else happens between the sections of a method. *)
Definition alone (en : env NoopClient NoopCall) : Prop := forall X n e s, (env_call en X n e s).2 = s.

(** A join of a complete job is in force when it returns, with the sink told of
    the connection; an incomplete one does nothing. *)
Theorem noop_join en job n c :
  alone en -> noop_ok c ->
  let '(err, c', tr) := run en (JoinVoice job) n c in
  noop_ok c' /\
  match err with
  | None => npJob c' = job /\ suVoiceConnected (npStatus c') = true /\
      length tr = (if npSink c then 1 else 0)%nat
  | Some _ => c' = c /\ tr = [] /\ (blank (jGuildID job) || blank (jVoiceChannelID job) || blank (jStreamID job)) = true
  end.
Proof.
  intros Ha Hc. unfold JoinVoice. destruct (_ || _ || _) eqn:Eb; [by split|].
  apply orb_false_iff in Eb as [_ Es].
  assert (jStreamID job <> "") as Hs by (intros E; by rewrite E in Es).
  unfold Connect. cbn [bind atomic run]. destruct (npSink c) eqn:Ek; cbn [bind call modify run].
  - pose proof (Ha _ n NoopConnected (c <| npStatus ::= (fun s => s <| suConnected := true |>) |>)) as He.
    destruct (env_call en _ n NoopConnected _) as [[] c1]. cbn [snd] in He. subst c1. cbn. done.
  - cbn. done.
Qed.

(** Leaving with the id of the job, or with none, ends it; another id is refused. *)
Theorem noop_leave id c :
  noop_ok c ->
  let '(err, c') := leave_section id c in
  noop_ok c' /\
  if (jStreamID (npJob c) =s "") || (id =s "") || (jStreamID (npJob c) =s id)
  then err = None /\ npJob c' = zeroVoiceJob /\ suVoiceConnected (npStatus c') = false
  else err <> None /\ c' = c.
Proof.
  intros Hc. unfold leave_section.
  destruct (jStreamID (npJob c) =s ""), (id =s ""), (jStreamID (npJob c) =s id); cbn; done.
Qed.

(** A product build never falls back to this client. *)
Lemma no_dry_run {C} token (made : C + error) built :
  buildDiscordClient token made false = inl built -> exists client, made = inl client /\ built = BuiltReal client.
Proof. unfold buildDiscordClient. repeat case_match; intros; simplify_eq; eauto. Qed.

Module Sample.
Definition no_status : Status :=
  mkStatus false false "" "" false false false false None 0 0 0 0 0 0 0 0 0 false false false 0 0 0 0 0 ""
    None "" "" "".

Definition start : NoopClient := mkNoop no_status zeroVoiceJob true.
Definition job : VoiceJob := mkVoiceJob "g" "v" "" 0 "s" "" "" "" "" "" "" 0 0 0 false 1.
Definition quiet : env NoopClient NoopCall :=
  {| env_call X _ e c := (match e in NoopCall X return X with NoopConnected => tt | NoopNow => 0 end, c);
     env_wait _ _ test c := (test c, c) |}.

(** A job is joined, another stream cannot end it, its own can. *)
Example lifecycle :
  let '(joined, c, _) := run quiet (JoinVoice job) 0 start in
  joined = None /\ noop_ok c /\ (leave_section "t" c).2 = c /\ (leave_section "s" c).1 = None /\
  (run quiet (JoinVoice zeroVoiceJob) 0 start).1.2 = start.
Proof. vm_compute. done. Qed.
End Sample.
