(* ===== verification/SpeakerForward.v ===== *)
(** * SpeakerForward: speakers, Opus forwarding and the DAVE watchdog's host

    [audio_speakers.go]: which users are speaking, told to the sink under the
    dispatch gate; [audio_forward.go]: the loop that batches received packets
    for the encoder and for captions, with the goroutines that deliver the
    batches; [dave_adapter.go]: the watchdog of [DaveWatch] run inside the
    client. *)

From S2P Require Import Prelude Conc Errors Types Secrets SdkState DaveWatch AudioForward.
From S2P Require Import DiscordClient DiscordEvents.

Open Scope go_scope.

(** ** Active speakers ([audio_speakers.go]) *)

Definition audioSpeakerIdleTimeout : Duration := 1250 * Millisecond.

(** The section of [dispatchActiveSpeakerState]: the stream and the sink to tell. *)
Definition dispatch_section (job : VoiceJob) (generation : Z) (userID : string) (speaking : bool)
    (c : RealClient) : option (string * Sink) :=
  if negb (current_voice_job job generation c) then None
  else if negb (Bool.eqb (bool_decide (is_Some (clAudioSpeakers c !! userID))) speaking) then None
  else
    match clSink c with
    | Some sink => if jStreamID (clJob c) =s "" then None else Some (jStreamID (clJob c), sink)
    | None => None
    end.

(** [dispatchActiveSpeakerState] *)
Definition dispatchActiveSpeakerState (job : VoiceJob) (generation : Z) (userID : string)
    (speaking : bool) : cprog unit :=
  let userID := TrimSpace userID in
  if userID =s "" then ret tt else
  do* lock speakerDispatchMu in
  let* target := read (dispatch_section job generation userID speaking) in
  do* match target with
      | None => ret tt
      | Some (streamID, sink) =>
          if skActiveSpeakerState sink then
            call (ToSink sink (ActiveSpeakerStateChanged streamID userID speaking))
          else if speaking then call (ToSink sink (ActiveSpeakerDetected streamID userID))
          else ret tt
      end in
  unlock speakerDispatchMu.

(** The section of [onVoiceSpeakingUpdate]. *)
Definition speaking_section (voice : nat) (event : VoiceSpeakingUpdate) (c : RealClient)
    : option (VoiceJob * Z) * RealClient :=
  if negb (bool_decide (clVoice c = Some voice)) || negb (suVoiceConnected (clStatus c))
  then (None, c)
  else
    let userID := spUserID event in
    let c := if negb (spSSRC event =? 0) && (userID <>s "")
             then c <| clSsrcUsers ::= <[spSSRC event mod 2 ^ 32 := userID]> |> else c in
    let c := if userID <>s "" then
               if spSpeaking event
               then c <| clAudioSpeakers ::= <[userID := hxClock c]> |>
               else c <| clAudioSpeakers ::= delete userID |>
             else c in
    (Some (clJob c, clVoiceGeneration c), c).

(** [onVoiceSpeakingUpdate] *)
Definition onVoiceSpeakingUpdate (voice : nat) (event : option VoiceSpeakingUpdate) : cprog unit :=
  match event with
  | None => ret tt
  | Some event =>
      let* current := atomic (speaking_section voice event) in
      match current with
      | None => ret tt
      | Some (job, generation) =>
          dispatchActiveSpeakerState job generation (spUserID event) (spSpeaking event)
      end
  end.

(** The section of [recordAudioSpeakerActivity]: is this the start of speaking. *)
Definition activity_section (job : VoiceJob) (generation : Z) (userID : string) (now : Time)
    (c : RealClient) : bool * RealClient :=
  if negb (current_voice_job job generation c) then (false, c)
  else (negb (bool_decide (is_Some (clAudioSpeakers c !! userID))),
        c <| clAudioSpeakers ::= <[userID := now]> |>).

(** [recordAudioSpeakerActivity] *)
Definition recordAudioSpeakerActivity (job : VoiceJob) (generation : Z) (userID : string)
    (now : Time) : cprog unit :=
  let userID := TrimSpace userID in
  if userID =s "" then ret tt else
  let* starts := atomic (activity_section job generation userID now) in
  if starts then dispatchActiveSpeakerState job generation userID true else ret tt.

Definition idle (now : Time) (lastAudioAt : Time) : bool :=
  negb (After (Add lastAudioAt audioSpeakerIdleTimeout) now).

Fixpoint dispatch_expired (job : VoiceJob) (generation : Z) (expired : list string) : cprog unit :=
  match expired with
  | [] => ret tt
  | userID :: expired =>
      do* dispatchActiveSpeakerState job generation userID false in
      dispatch_expired job generation expired
  end.

(** [userForSSRC]: the first section, and the one that remembers the answer of
    the SDK. *)
Definition known_user (ssrc generation : Z) (c : RealClient) : option (string * option nat) :=
  if negb (clVoiceGeneration c =? generation) || negb (suVoiceConnected (clStatus c)) then None
  else Some (TrimSpace (mread "" (clSsrcUsers c) ssrc), clVoice c).

Definition remember_user_section (ssrc generation : Z) (voice : nat) (userID : string)
    (c : RealClient) : string * RealClient :=
  if negb (bool_decide (clVoice c = Some voice)) || negb (clVoiceGeneration c =? generation)
     || negb (suVoiceConnected (clStatus c)) then ("", c)
  else
    let current := TrimSpace (mread "" (clSsrcUsers c) ssrc) in
    if current <>s "" then (current, c) else (userID, c <| clSsrcUsers ::= <[ssrc := userID]> |>).

(** [resolveSSRCUserID], on a connection that exists. *)
Definition resolveSSRCUserID (voice : nat) (ssrc : Z) : cprog string :=
  if ssrc =? 0 then ret ""
  else let* userID := call (SSRCUserID voice ssrc) in ret (TrimSpace userID).

(** [userForSSRC] *)
Definition userForSSRC (ssrc generation : Z) : cprog string :=
  let* known := read (known_user ssrc generation) in
  match known with
  | None => ret ""
  | Some (userID, voice) =>
      match voice with
      | Some v =>
          if userID <>s "" then ret userID else
          let* userID := resolveSSRCUserID v ssrc in
          if userID =s "" then ret "" else atomic (remember_user_section ssrc generation v userID)
      | None => ret userID
      end
  end.

(** The loop of [uniqueHumanVoiceParticipant]. *)
Fixpoint unique_human (userID : string) (participants : list VoiceParticipant) : string :=
  match participants with
  | [] => userID
  | p :: participants =>
      let candidate := TrimSpace (vpUserID p) in
      if vpIsBot p || (candidate =s "") then unique_human userID participants
      else if userID <>s "" then "" else unique_human candidate participants
  end.

(** [uniqueHumanVoiceParticipant] *)
Definition uniqueHumanVoiceParticipant (job : VoiceJob) : cprog string :=
  let* snapshot := SnapshotVoiceParticipants job in
  match snapshot with
  | None => ret ""
  | Some s => ret (unique_human "" (psParticipants s))
  end.

(** ** Opus forwarding ([audio_forward.go]) *)

Definition opusForwardQueueBatches : Z := 64.
Definition opusEncoderBatchPackets : Z := 50.
Definition opusEncoderFlushInterval : Duration := 100 * Millisecond.

(** [time.Duration(ms) * time.Millisecond] *)
Definition millis (ms : Z) : Duration := wrap64 (ms * Millisecond).

Definition captionBatchMax (job : VoiceJob) : Z :=
  let n := jCaptionAudioMaxBatchPackets job in
  let n := if n <=? 0 then 5 else n in
  if 100 <? n then 100 else n.

Definition captionFlush (job : VoiceJob) : Duration :=
  let d := millis (jCaptionAudioFlushMS job) in
  let d := if d <=? 0 then 100 * Millisecond else d in
  if Second <? d then Second else d.

(** [unresolvedSSRCBufferWindow] *)
Definition unresolvedSSRCBufferWindow (job : VoiceJob) : Duration :=
  let window := millis (jUnresolvedSSRCBufferMS job) in
  if (window <? 0) || ((window =? 0) && negb (jUnresolvedSSRCBufferMSSet job)) then Second
  else window.

Section Forwarding.
Context `{NetURL} `{MapRange}.

(** The section of [expireIdleAudioSpeakers]: the users that fell silent. *)
Definition expire_section (job : VoiceJob) (generation : Z) (now : Time) (c : RealClient)
    : list string * RealClient :=
  if negb (current_voice_job job generation c) then ([], c)
  else
    (fst <$> filter (fun kv : string * Time => idle now kv.2 = true) (map_range (clAudioSpeakers c)),
     c <| clAudioSpeakers ::= filter (fun kv : string * Time => idle now kv.2 = false) |>).

(** [expireIdleAudioSpeakers] *)
Definition expireIdleAudioSpeakers (job : VoiceJob) (generation : Z) (now : Time) : cprog unit :=
  let* expired := atomic (expire_section job generation now) in
  dispatch_expired job generation expired.

(** [recordAudioPacketReceived] *)
Definition recordAudioPacketReceived (job : VoiceJob) (generation : Z) (now : Time) (c : RealClient)
    : bool * RealClient :=
  if negb (current_voice_job job generation c) then (false, c)
  else (true, upd_status (fun s =>
          s <| suAudioReceiving := true |> <| suLastAudioAt := Some now |>
            <| suAudioPacketsReceived ::= succ_i64 |>) c).

(** [opusForwardRequestTimeout]; the timeout the forwarder asks for, if it is a
    provider of one. *)
Definition opusForwardRequestLimit : Duration := 5 * Second.

Definition opusForwardRequestTimeout (provider : option Duration) : Duration :=
  match provider with
  | Some timeout => if 0 <? timeout then timeout else opusForwardRequestLimit
  | None => opusForwardRequestLimit
  end.

(** [setForwardError] and [setCaptionForwardError] *)
Definition setForwardError (value : string) (c : RealClient) : RealClient :=
  let safe := SanitizeOperationalError value "discord audio forward failed" in
  upd_status (fun s => s <| suAudioForwardErrors ::= succ_i64 |> <| suLastForwardError := safe |>
                         <| suLastError := safe |>) c.

Definition setCaptionForwardError (value : string) (c : RealClient) : RealClient :=
  let safe := SanitizeOperationalError value "discord caption audio forward failed" in
  upd_status (fun s => s <| suCaptionForwardErrors ::= succ_i64 |> <| suLastCaptionForwardError := safe |>
                         <| suLastError := safe |>) c.

(** [setForwardErrorForJob] *)
Definition setForwardErrorForJob (job : VoiceJob) (generation : Z) (caption : bool) (value : string)
    (c : RealClient) : bool * RealClient :=
  if negb (current_voice_job job generation c) then (false, c)
  else
    (true, upd_status (fun s =>
       if caption then
         let safe := SanitizeOperationalError value "discord caption audio forward failed" in
         s <| suCaptionForwardErrors ::= succ_i64 |> <| suLastCaptionForwardError := safe |>
           <| suLastError := safe |>
       else
         let safe := SanitizeOperationalError value "discord audio forward failed" in
         s <| suAudioForwardErrors ::= succ_i64 |> <| suLastForwardError := safe |>
           <| suLastError := safe |>) c).

(** [recordForwardQueueDropForJob] *)
Definition recordForwardQueueDropForJob (job : VoiceJob) (generation : Z) (caption : bool)
    (packetCount : Z) (c : RealClient) : bool * RealClient :=
  if negb (current_voice_job job generation c) then (false, c)
  else
    (true, upd_status (fun s =>
       if caption then
         let safe := SanitizeOperationalError "discord caption audio forward queue full"
                       "discord caption audio forward failed" in
         s <| suCaptionForwardQueueDrops ::= fun n => wrap64 (n + packetCount) |>
           <| suCaptionForwardErrors ::= succ_i64 |> <| suLastCaptionForwardError := safe |>
           <| suLastError := safe |>
       else
         let safe := SanitizeOperationalError "discord audio forward queue full"
                       "discord audio forward failed" in
         s <| suAudioForwardQueueDrops ::= fun n => wrap64 (n + packetCount) |>
           <| suAudioForwardErrors ::= succ_i64 |> <| suLastForwardError := safe |>
           <| suLastError := safe |>) c).

(** *** The goroutine of a target *)

(** The result callback of [runOpusForwardTarget]. *)
Definition delivered_section (job : VoiceJob) (generation : Z) (caption : bool) (count : Z)
    (c : RealClient) : RealClient :=
  if negb (current_voice_job job generation c) then c
  else upd_status (fun s =>
    if caption then
      s <| suCaptionPacketsForwarded ::= fun n => wrap64 (n + count) |>
        <| suLastCaptionForwardError := "" |>
    else
      s <| suAudioPacketsForwarded ::= fun n => wrap64 (n + count) |>
        <| suLastForwardAt := Some (hxClock c) |> <| suLastForwardError := "" |>) c.

(** [BatchQueue.Run] receives: the context's end or the oldest batch. *)
Definition receive_section (ctx queue : nat) (preferDone : bool) (c : RealClient)
    : (bool * option (list OpusPacket)) * RealClient :=
  if canceled ctx c && preferDone then ((true, None), c)
  else
    match hxQueues c !! queue with
    | Some q =>
        match bqBatches q with
        | batch :: rest =>
            ((canceled ctx c, Some batch),
             c <| hxQueues ::= <[queue := mkBatchQueue (bqCapacity q) rest]> |>)
        | [] => ((canceled ctx c, None), c)
        end
    | None => ((canceled ctx c, None), c)
    end.

Definition queue_ready (queue : nat) (c : RealClient) : bool :=
  match hxQueues c !! queue with Some q => negb (bool_decide (bqBatches q = [])) | None => false end.

(** One turn of [BatchQueue.Run] with the callbacks of [runOpusForwardTarget];
    [done.Done()] is the close of the target's channel. *)
Definition target_turn (ctx : nat) (job : VoiceJob) (generation : Z) (forwarder : nat)
    (source : string) (target : opusForwardTarget) (done : nat) : cprog (option ClLabel) :=
  let queue := tgBatches target in
  let finish := do* modify (close_chan done) in ret None in
  let* _ := wait None (fun c => canceled ctx c || queue_ready queue c) in
  let* preferDone := call (SelectDone ctx queue) in
  let* x := atomic (receive_section ctx queue preferDone) in
  match x with
  | (true, _) => finish
  | (false, None) => ret (Some (GTargetLoop ctx job generation forwarder source target done))
  | (false, Some batch) =>
      let* err := call (ForwardBatch forwarder (tgURL target) (jStreamID job) source (tgToken target) batch) in
      let* stopped := read (canceled ctx) in
      if stopped : bool then finish else
      do* match err with
          | Some e =>
              let* _ := atomic (setForwardErrorForJob job generation (tgCaption target) (Error e)) in
              ret tt
          | None =>
              modify (delivered_section job generation (tgCaption target) (Z.of_nat (length batch)))
          end in
      ret (Some (GTargetLoop ctx job generation forwarder source target done))
  end.

(** *** The batches *)

Definition enqueue_section (queue : nat) (batch : list OpusPacket) (c : RealClient)
    : bool * RealClient :=
  match hxQueues c !! queue with
  | Some q => let '(ok, q) := Enqueue batch q in (ok, c <| hxQueues ::= <[queue := q]> |>)
  | None => (false, c)
  end.

(** [enqueueOpusForwardBatch] *)
Definition enqueueOpusForwardBatch (job : VoiceJob) (generation : Z) (caption : bool)
    (queue : option nat) (batch : list OpusPacket) : cprog unit :=
  match queue with
  | None => ret tt
  | Some queue =>
      if bool_decide (batch = []) then ret tt else
      let* current := read (isCurrentVoiceJob job generation) in
      if negb current then ret tt else
      let* ok := atomic (enqueue_section queue batch) in
      if ok : bool then ret tt
      else
        let* _ := atomic (recordForwardQueueDropForJob job generation caption
                            (Z.of_nat (length batch))) in
        ret tt
  end.

(** [flush] *)
Definition flush (isCaption : bool) (f : Forwarding) : cprog Forwarding :=
  let job := fwJob f in
  let batch := if isCaption then fwCaptionBatch f else fwEncoderBatch f in
  let f := if isCaption then f <| fwCaptionBatch := [] |> else f <| fwEncoderBatch := [] |> in
  if bool_decide (batch = []) then ret f
  else if isCaption then
    if blank (jCaptionAudioToken job) then
      let* _ := atomic (setForwardErrorForJob job (fwGeneration f) true "caption_audio_token is required") in
      ret f
    else
      do* enqueueOpusForwardBatch job (fwGeneration f) true (fwCaptionQueue f) batch in
      ret f
  else
    do* enqueueOpusForwardBatch job (fwGeneration f) false (fwEncoderQueue f) batch in
    ret f.

Definition appendEncoderPacket (packet : OpusPacket) (f : Forwarding) : Forwarding :=
  if blank (jEncoderAudioURL (fwJob f)) then f
  else f <| fwEncoderBatch ::= fun b => (b ++ [packet])%list |>.

Definition appendCaptionPacket (packet : OpusPacket) (f : Forwarding) : Forwarding :=
  if blank (jCaptionAudioURL (fwJob f)) then f
  else f <| fwCaptionBatch ::= fun b => (b ++ [packet])%list |>.

(** [resolveFallbackUser] *)
Definition resolveFallbackUser (now : Time) (f : Forwarding) : cprog (string * Forwarding) :=
  if negb (IsZero (fwFallbackCheckedAt f))
     && (Sub now (fwFallbackCheckedAt f) <? 250 * Millisecond)
  then ret (fwFallbackUserID f, f)
  else
    let* userID := uniqueHumanVoiceParticipant (fwJob f) in
    ret (userID, f <| fwFallbackCheckedAt := now |> <| fwFallbackUserID := userID |>).

(** The user of a packet: known to the client, or the only human of the channel. *)
Definition resolve_user (ssrc : Z) (now : Time) (f : Forwarding) : cprog (string * Forwarding) :=
  let* userID := userForSSRC ssrc (fwGeneration f) in
  if userID =s "" then resolveFallbackUser now f else ret (userID, f).

Definition set_user (userID : string) (p : OpusPacket) : OpusPacket :=
  mkOpusPacket (opSSRC p) userID (opJobGeneration p) (opConnectionGeneration p) (opSequence p)
    (opTimestamp p) (opReceivedAt p) (opOpus p).

Definition unresolved_age (now : Time) (ssrc : Z) (f : Forwarding) : Duration :=
  Sub now (mread zeroTime (fwUnresolvedSince f) ssrc).

(** One source of [flushExpiredUnresolved], once its user is known to be [userID]. *)
Definition flush_source (force : bool) (now : Time) (ssrc : Z) (buffered : list OpusPacket)
    (userID : string) (f : Forwarding) : cprog Forwarding :=
  if (userID =s "") && negb force
     && (unresolved_age now ssrc f <? unresolvedSSRCBufferWindow (fwJob f))
  then ret f
  else
    do* (if userID <>s "" then recordAudioSpeakerActivity (fwJob f) (fwGeneration f) userID now
         else ret tt) in
    ret (fold_left (fun f p => appendCaptionPacket (set_user userID p) f) buffered f
           <| fwUnresolved ::= delete ssrc |> <| fwUnresolvedSince ::= delete ssrc |>).

Fixpoint flush_sources (force : bool) (now : Time) (sources : list (Z * list OpusPacket))
    (f : Forwarding) : cprog Forwarding :=
  match sources with
  | [] => ret f
  | (ssrc, buffered) :: sources =>
      let* x := resolve_user ssrc now f in
      let '(userID, f) := x in
      let* f := flush_source force now ssrc buffered userID f in
      flush_sources force now sources f
  end.

(** [flushExpiredUnresolved] *)
Definition flushExpiredUnresolved (now : Time) (force : bool) (f : Forwarding) : cprog Forwarding :=
  flush_sources force now (map_range (fwUnresolved f)) f.

(** *** The loop of [forwardOpus] *)

Fixpoint wait_targets (dones : list nat) : cprog unit :=
  match dones with
  | [] => ret tt
  | done :: dones => let* _ := wait None (closed done) in wait_targets dones
  end.

(** The deferred calls, and the close of [audioDone] by the goroutine. *)
Definition forward_end (f : Forwarding) : cprog (option ClLabel) :=
  do* modify (close_chan (fwMonitorDone f)) in
  do* modify (cancel_ctx (fwRunCtx f)) in
  do* wait_targets (fwTargets f) in
  do* modify (close_chan (fwDone f)) in
  ret None.

Definition flush_if (due isCaption : bool) (now : Time) (f : Forwarding) : cprog Forwarding :=
  if due then
    let* f := flush isCaption f in
    ret (if isCaption then f <| fwLastCaptionFlush := now |> else f <| fwLastEncoderFlush := now |>)
  else ret f.

(** A tick. *)
Definition forward_tick (now : Time) (f : Forwarding) : cprog (option ClLabel) :=
  let job := fwJob f in
  let* current := read (isCurrentVoiceJob job (fwGeneration f)) in
  if negb current then forward_end f else
  let* f := flushExpiredUnresolved now false f in
  let* f := flush_if (captionFlush job <=? Sub now (fwLastCaptionFlush f)) true now f in
  let* f := flush_if (opusEncoderFlushInterval <=? Sub now (fwLastEncoderFlush f)) false now f in
  do* expireIdleAudioSpeakers job (fwGeneration f) now in
  ret (Some (GForwardLoop f)).

(** The caption side of a packet: buffered while its user is unknown. *)
Definition caption_packet (now : Time) (userID : string) (packet : OpusPacket) (f : Forwarding)
    : cprog Forwarding :=
  let ssrc := opSSRC packet in
  if blank (jCaptionAudioURL (fwJob f)) then ret f
  else if (userID =s "") && (0 <? unresolvedSSRCBufferWindow (fwJob f)) then
    let buffered := mread [] (fwUnresolved f) ssrc in
    if Z.of_nat (length buffered) <? 50 then
      let f := f <| fwUnresolved ::= <[ssrc := (buffered ++ [packet])%list]> |> in
      ret (if IsZero (mread zeroTime (fwUnresolvedSince f) ssrc)
           then f <| fwUnresolvedSince ::= <[ssrc := now]> |> else f)
    else ret f
  else
    let* f := flushExpiredUnresolved now false f in
    ret (appendCaptionPacket packet f).

(** A received packet. *)
Definition forward_packet (packet : Packet) (f : Forwarding) : cprog (option ClLabel) :=
  let job := fwJob f in
  if bool_decide (pkOpus packet = []) then ret (Some (GForwardLoop f)) else
  let* current := read (isCurrentVoiceJob job (fwGeneration f)) in
  if negb current then forward_end f else
  let* now := read hxClock in
  let* x := resolve_user (pkSSRC packet) now f in
  let '(userID, f) := x in
  do* recordAudioSpeakerActivity job (fwGeneration f) userID now in
  let* recorded := atomic (recordAudioPacketReceived job (fwGeneration f) now) in
  if negb recorded then forward_end f else
  let forwarded := mkOpusPacket (pkSSRC packet) userID (jJobGeneration job) (fwGeneration f)
                     (pkSequence packet) (pkTimestamp packet) now (pkOpus packet) in
  let f := appendEncoderPacket forwarded f in
  let* f := caption_packet now userID forwarded f in
  let* f := flush_if (captionBatchMax job <=? Z.of_nat (length (fwCaptionBatch f))) true now f in
  let* f := flush_if (opusEncoderBatchPackets <=? Z.of_nat (length (fwEncoderBatch f))) false now f in
  ret (Some (GForwardLoop f)).

(** One turn of the [select] of [forwardOpus]. *)
Definition forward_turn (f : Forwarding) : cprog (option ClLabel) :=
  let* input := call (SelectInput (fwStop f)) in
  match input with
  | InStopped => forward_end f
  | InTick now => forward_tick now f
  | InClosed =>
      do* markVoiceDisconnectedForJob "opus_recv_closed" false (fwJob f) (fwGeneration f) in
      forward_end f
  | InPacket packet => forward_packet packet f
  end.

(** [newOpusForwardTarget] and the start of its goroutine. *)
Definition new_queue_section (c : RealClient) : (nat * nat) * RealClient :=
  let '(queue, c) := new_ref c in
  let '(done, c) := new_ref c in
  ((queue, done), c <| hxQueues ::= <[queue := NewBatchQueue opusForwardQueueBatches]> |>).

Definition start_target (ctx : nat) (job : VoiceJob) (generation : Z) (forwarder : nat)
    (source : string) (caption : bool) (url token : string) : cprog (option (nat * nat)) :=
  if blank url then ret None
  else
    let* x := atomic new_queue_section in
    let '(queue, done) := x in
    do* spawn (GRunTarget ctx job generation forwarder source (mkTarget caption url token queue) done) in
    ret (Some (queue, done)).

(** [forwardOpus] up to its loop. *)
Definition forwardOpus (job : VoiceJob) (generation : Z) (stop done forwarder : nat) (source : string)
    : cprog (option ClLabel) :=
  let* ctx := atomic new_ref in
  let* monitorDone := atomic new_ref in
  do* spawn (GStopMonitor stop monitorDone ctx) in
  let* encoder := start_target ctx job generation forwarder source false (jEncoderAudioURL job)
                    (jStreamIngestToken job) in
  let* caption := start_target ctx job generation forwarder source true (jCaptionAudioURL job)
                    (jCaptionAudioToken job) in
  let* now := read hxClock in
  ret (Some (GForwardLoop (mkForwarding job generation stop done ctx monitorDone
    (omap (option_map snd) [encoder; caption]) (option_map fst encoder) (option_map fst caption)
    [] [] now now "" zeroTime ∅ ∅))).

(** The monitor cancels the context when the stop channel is closed. *)
Definition stop_monitor (stop monitorDone ctx : nat) : cprog (option ClLabel) :=
  let* _ := wait None (fun c => stopped stop c || closed monitorDone c) in
  let* halt := read (stopped stop) in
  do* if halt then modify (cancel_ctx ctx) else ret tt in
  ret None.
End Forwarding.

(** ** The host of the DAVE watchdog ([dave_adapter.go]) *)

Definition current_voice (job : VoiceJob) (voice : nat) (generation : Z) (c : RealClient) : bool :=
  bool_decide (clVoice c = Some voice) && (clVoiceGeneration c =? generation)
  && sameVoiceJob (clJob c) job.

(** [remoteVoiceParticipantPresent] *)
Definition remoteVoiceParticipantPresent (job : VoiceJob) (voice : nat) (generation : Z) : cprog bool :=
  let* x := read (fun c => (current_voice job voice generation c, clSession c)) in
  let '(current, session) := x in
  if negb current then ret false
  else read (fun c => remote_present (state_of session c) job).

(** [recordDAVERecovery] *)
Definition recordDAVERecovery (job : VoiceJob) (voice : nat) (generation : Z) (event : DaveWatch.Event)
    (c : RealClient) : RealClient :=
  if negb (current_voice job voice generation c) then c
  else upd_status (fun s =>
    let s := if evAction event =s "resend_key_package" then s <| suDAVEKeyPackageResends ::= succ_i64 |>
             else if evAction event =s "soft_reset" then s <| suDAVESoftResets ::= succ_i64 |> else s in
    let s := s <| suDAVELastRecoveryReason := evReason event |> in
    if evResult event <>s "success" then s <| suDAVERecoveryErrors ::= succ_i64 |> else s) c.

Definition dave_health (h : DaveHealth) : Health :=
  mkHealth (dhInitialized h) (dhOP26SentAt h) (dhEpochEstablished h) (dhOP30Received h)
    (dhLastMissing h) (dhMissingFirstSeen h) (dhProposalFailedSince h).

(** What the watchdog asks, answered by the client and the voice connection. *)
Definition dave_handler (job : VoiceJob) (voice : nat) (generation : Z) X (e : WdCall X) : cprog X :=
  match e with
  | ParticipantsPresent => remoteVoiceParticipantPresent job voice generation
  | RecoveryHealth => let* h := call (DAVEHealth voice) in ret (dave_health h)
  | ResendKeyPackage => call (ResendDAVEKeyPackage voice)
  | SoftReset => call (SoftResetDAVE voice)
  | Report event => modify (recordDAVERecovery job voice generation event)
  end.

(** [watchDAVE]: the watchdog with the default limits, ticked until its context
    is canceled. *)
Definition watchDAVE (ctx : nat) (job : VoiceJob) (voice : nat) (generation : Z)
    : cprog (option ClLabel) :=
  ret (Some (GWatchTick ctx job voice generation
               (DaveWatch.New true (DaveWatch.mkConfig 0 0 0 0 0 0 0 0)))).

Definition watch_tick (ctx : nat) (job : VoiceJob) (voice : nat) (generation : Z) (w : Watchdog)
    : cprog (option ClLabel) :=
  let* tick := call (NextTick ctx) in
  match tick with
  | None => ret None
  | Some now =>
      let* x := embed (dave_handler job voice generation) (DaveWatch.Tick now) w in
      ret (Some (GWatchTick ctx job voice generation x.2))
  end.
