(* ===== verification/DiscordPool.v ===== *)
(** * DiscordPool: the Discord client under every interleaving

    [client_code] maps each entry point and goroutine of the client to its text;
    [clients] is the set of pools reachable when the SDK and the job manager call
    entry points at any time and goroutines interleave node by node.
    [DiscordGates] and [DiscordInvariant] hold what is true of all of them. *)

From S2P Require Import Prelude Conc Gate Errors Types Secrets SdkState DaveWatch AudioForward.
From S2P Require Import DiscordClient DiscordEvents SpeakerForward.

Open Scope go_scope.

Section Code.
Context `{NetURL} `{MapRange}.

Definition done {A} (p : cprog A) : cprog (option ClLabel) := let* _ := p in ret None.

Definition client_code (l : ClLabel) : cprog (option ClLabel) :=
  match l with
  | EConnect => done Connect
  | EReconcileGateway token selected => done (ReconcileGateway token selected)
  | EJoinVoice job => done (JoinVoice job)
  | ELeaveVoice streamID => done (LeaveVoice streamID)
  | ESetEventSink sink => done (modify (SetEventSink sink))
  | ESetAudioForwarder forwarder source => done (modify (SetAudioForwarder forwarder source))
  | ESetAutoStartVoiceTargets targets => done (SetAutoStartVoiceTargets targets)
  | EAutoStartVoicePresence target => done (AutoStartVoicePresence target)
  | ESnapshotVoiceParticipants job => done (SnapshotVoiceParticipants job)
  | ESendMessage message => done (SendMessage message)
  | EStatus => done ReadStatus
  | EOnGatewayDisconnect session => done (onGatewayDisconnect (Some session))
  | EOnReady session => done (onReady (Some session))
  | EOnGatewayResumed session => done (onGatewayResumed (Some session))
  | EOnGuildCreate session guildID => done (onGuildCreate (Some session) guildID)
  | EOnVoiceStateUpdate session event => done (onVoiceStateUpdate (Some session) event)
  | EOnMemberIdentity session member => done (onAutoStartMemberIdentity (Some session) member)
  | EOnMessageCreate session message => done (onMessageCreate (Some session) message)
  | EOnVoiceSpeakingUpdate voice event => done (onVoiceSpeakingUpdate voice event)
  | ESdkState session state => done (modify (fun c => c <| hxStates ::= <[session := state]> |>))
  | GWatchDAVE ctx job voice generation => watchDAVE ctx job voice generation
  | GWatchTick ctx job voice generation w => watch_tick ctx job voice generation w
  | GForwardOpus job generation stop done forwarder source =>
      forwardOpus job generation stop done forwarder source
  | GForwardLoop f => forward_turn f
  | GRunTarget ctx job generation forwarder source target done
  | GTargetLoop ctx job generation forwarder source target done =>
      target_turn ctx job generation forwarder source target done
  | GStopMonitor stop monitorDone ctx => stop_monitor stop monitorDone ctx
  end.

(** What the outside may start; the other goroutines are started by [spawn]. *)
Definition client_entry (l : ClLabel) : Prop :=
  match l with
  | GWatchDAVE _ _ _ _ | GWatchTick _ _ _ _ _ | GForwardOpus _ _ _ _ _ _ | GForwardLoop _
  | GRunTarget _ _ _ _ _ _ _ | GTargetLoop _ _ _ _ _ _ _ | GStopMonitor _ _ _ => False
  | _ => True
  end.

Definition client_advance (d : Duration) (c : RealClient) : RealClient := c <| hxClock ::= Z.add d |>.

Definition clients (s0 : RealClient) (p : pool RealClient DcCall ClLabel ClMutex _ _) : Prop :=
  reachable client_code client_entry hxClock client_advance s0 p.
End Code.

(** ** A concrete history: a job with one speaking participant *)
Module History.
#[export] Existing Instance canonical_range.

(** Addresses are their own text and carry no user. *)
#[export] Instance plain_urls : NetURL :=
  {| URL := string; url_Parse := Some; url_User := fun _ => None;
     url_SetUserPassword := fun u _ _ => u; url_String := fun u => u |}.

Definition job : VoiceJob :=
  mkVoiceJob "guild" "voice" "text" 1 "stream" "https://encoder" "" "" "ingest" "" "" 0 0 0 false 1.

Definition bot : User := mkUser "bot" "Bot" "" "" 0 true.
Definition alice : User := mkUser "u1" "alice" "Alice" "" 0 false.
Definition alice_member : Member := mkMember "guild" "" "" (Some alice).
Definition in_voice : VoiceState := mkVoiceState "guild" "voice" "u1" (Some alice_member).

Definition state : SdkState :=
  mkSdkState true (Some bot) [mkGuild "guild" [in_voice] [alice_member]].

(** Every call succeeds: session 1, voice connection 2. *)
Definition ans X (e : DcCall X) : X :=
  match e in DcCall Y return Y with
  | NewSession _ => inl 1%nat
  | OpenSession _ | CloseSession _ | DisconnectVoice _ | ResendDAVEKeyPackage _ | SoftResetDAVE _ => None
  | ChannelVoiceJoin _ _ _ => inl 2%nat
  | AddVoiceHandler _ => tt
  | DAVEHealth _ => mkDaveHealth true 0 true true 1 0 0 0
  | SSRCUserID _ _ => "u1"
  | SendComplex _ _ _ => inl (Some "m1")
  | ForwardBatch _ _ _ _ _ _ => None
  | ToSink _ _ => tt
  | SelectInput _ => InStopped
  | SelectDone _ _ => true
  | NextTick _ => None
  end.

Definition start : RealClient := dormant <| clSink := Some (mkSink true true) |>.

Definition step (n : nat) (l : ClLabel) (Hl : client_entry l) : list (choice (L := ClLabel) client_entry) :=
  CEntry client_entry l Hl :: repeat (CNode client_entry 0) n.

Definition run_history (h : list (choice (L := ClLabel) client_entry)) :=
  sched client_code client_entry hxClock client_advance (fun X e => Some (ans X e)) h (Pool start ∅ []).

Definition connect : list (choice (L := ClLabel) client_entry) :=
  (step 20 (EReconcileGateway "token" true) I ++ step 5 (ESdkState 1 state) I)%list.

(** The join up to its call, the whole join, and a speaking event up to its
    callback. *)
Definition joining := run_history (connect ++ step 3 (EJoinVoice job) I).
Definition joined_pool := run_history (connect ++ step 40 (EJoinVoice job) I).
Definition speaking :=
  run_history (connect ++ step 40 (EJoinVoice job) I
               ++ step 3 (EOnVoiceSpeakingUpdate 2 (Some (mkSpeakingUpdate 7 "u1" true))) I).
Definition syncing := run_history (connect ++ step 40 (EJoinVoice job) I ++ step 6 (EOnGuildCreate 1 (Some "guild")) I).

Lemma history_reachable h : clients start (run_history h).
Proof. apply sched_reachable. Qed.

(** What the first goroutine of a pool is about to call. *)
Definition next_sink (p : pool RealClient DcCall ClLabel ClMutex _ _) : option (Sink * SinkEvent) :=
  match p_threads p with
  | Running (Call e _) :: _ => match e with ToSink sink event => Some (sink, event) | _ => None end
  | _ => None
  end.

Definition next_join (p : pool RealClient DcCall ClLabel ClMutex _ _)
    : option (option nat * string * string) :=
  match p_threads p with
  | Running (Call e _) :: _ => match e with ChannelVoiceJoin s g c => Some (s, g, c) | _ => None end
  | _ => None
  end.

Lemma next_sink_thread p sink event :
  next_sink p = Some (sink, event) ->
  exists k, p_threads p !! 0%nat = Some (Running (Call (ToSink sink event) k)).
Proof.
  unfold next_sink. destruct (p_threads p) as [|[[| |X e k| | | |]|] l]; try done.
  destruct e; try done. intros [= -> ->]. by exists k.
Qed.

Lemma next_join_thread p s g c :
  next_join p = Some (s, g, c) ->
  exists k, p_threads p !! 0%nat = Some (Running (Call (ChannelVoiceJoin s g c) k)).
Proof.
  unfold next_join. destruct (p_threads p) as [|[[| |X e k| | | |]|] l]; try done.
  destruct e; try done. intros [= -> -> ->]. by exists k.
Qed.
End History.
