(* ===== verification/DiscordGates.v ===== *)
(** * DiscordGates: what the client's three mutexes serialise

    [speakerDispatchMu], [participantSyncMu] and [gatewayMu] are held across
    calls that leave the client.  Each is a gate of [Gate] over the part of the
    state it protects, and the calls issued under it agree with that part of the
    current state in every interleaving.  [Calm] is what a gate must satisfy for
    the text that concerns none of them; [code_free] reduces a gate to the few
    operations that take one. *)

From S2P Require Import Prelude Conc Gate Errors Types Secrets SdkState DaveWatch AudioForward.
From S2P Require Import DiscordClient DiscordEvents SpeakerForward DiscordPool.

Open Scope go_scope.

(** ** Text that concerns no gate *)

(** The fields the gates protect. *)
Definition core (c : RealClient) : VoiceJob * Z * bool * option nat * bool * Z :=
  (clJob c, clVoiceGeneration c, suVoiceConnected (clStatus c), clSession c,
   suConnected (clStatus c), clParticipantSnapshotNext c).

(** A call that no gate restricts. *)
Definition calm_call {X} (e : DcCall X) : Prop :=
  match e with
  | ToSink _ (ActiveSpeakerStateChanged _ _ _) | ToSink _ (ActiveSpeakerDetected _ _)
  | ToSink _ (ParticipantsSynced _) | ChannelVoiceJoin _ _ _ | OpenSession _ => False
  | _ => True
  end.

Definition any_label (l : ClLabel) : Prop := True.

#[export] Hint Unfold remember_user_section known_user setLastError enqueue_section
  recordForwardQueueDropForJob setForwardErrorForJob receive_section delivered_section
  recordAudioPacketReceived activity_section speaking_section expire_section recordDAVERecovery
  new_queue_section new_ref upd_status : gate.

Class Calm {V} (I : RealClient -> Prop) (view : RealClient -> V)
    (G : forall X, option V -> DcCall X -> Prop) : Prop := {
  calm_section : forall c c', core c' = core c -> I c -> I c' /\ view c' = view c;
  calm_permitted : forall X h (e : DcCall X), calm_call e -> G X h e }.

Section Calm.
Context `{NetURL} `{MapRange} {V : Type} (I : RealClient -> Prop) (view : RealClient -> V).
Context (gate : ClMutex) (G : forall X, option V -> DcCall X -> Prop) `{!Calm I view G}.

Abbreviation cstill := (still I view gate G any_label).
Abbreviation cfree := (free I view gate G any_label).

(** Closes what [still_walk] leaves of calm text: sections by cases on their
    guards, calls by their constructor. *)
Ltac calm :=
  still_walk;
  try first
    [ apply calm_permitted; exact Logic.I
    | apply calm_section; [|assumption]; autounfold with gate; repeat (case_match; simpl; try reflexivity); reflexivity ].

Lemma calm_setLastError value : cstill (modify (setLastError value)).
Proof using Calm0. calm. Qed.

Lemma calm_to_sink sink event :
  calm_call (ToSink (mkSink true true) event) -> cstill (to_sink sink event).
Proof using Calm0.
  intros He. unfold to_sink. still_walk. apply calm_permitted. by destruct event.
Qed.

Lemma calm_ReadStatus : cstill ReadStatus.
Proof using Calm0. unfold ReadStatus. calm. Qed.

Lemma calm_wait_stop o : cstill (waitForOpusForwardStop o).
Proof using Calm0. unfold waitForOpusForwardStop. calm. Qed.

Lemma calm_mark_callback reason marked : cstill (mark_callback reason marked).
Proof using Calm0. unfold mark_callback, to_sink. calm. Qed.

Lemma calm_presence target : cstill (AutoStartVoicePresence target).
Proof using Calm0. unfold AutoStartVoicePresence. calm. Qed.

Lemma resolve_core session event c : core (resolveAutoStartPresence session event c).2 = core c.
Proof. unfold resolveAutoStartPresence. repeat (case_match; simpl; try reflexivity). Qed.

Lemma calm_deliver session sink events : cstill (deliver_joins session sink events).
Proof using Calm0.
  induction events as [|event events IH]; cbn [deliver_joins]; [done|].
  still_walk; [apply calm_section; [apply resolve_core|done]|by apply calm_permitted].
Qed.

Lemma calm_sync_targets session : cstill (syncAutoStartVoiceMembers session).
Proof using Calm0. unfold syncAutoStartVoiceMembers. still_walk; apply calm_deliver. Qed.

Lemma calm_set_targets targets : cstill (SetAutoStartVoiceTargets targets).
Proof using Calm0.
  unfold SetAutoStartVoiceTargets. apply still_bind; [calm|]. intros. apply calm_sync_targets.
Qed.

Lemma discard_core session g ch u r c : core (discardObsoleteAutoStartJoins session g ch u r c) = core c.
Proof. unfold discardObsoleteAutoStartJoins. by case_match. Qed.

Lemma remember_core session event observed c :
  core (rememberUnknownAutoStartJoin session event observed c) = core c.
Proof.
  unfold rememberUnknownAutoStartJoin. destruct session as [s|]; [|done]. case_match; [done|].
  apply fold_left_ind; [done|]. intros c' t _ <-. unfold remember_step. by case_match.
Qed.

Lemma calm_member session member : cstill (onAutoStartMemberIdentity session member).
Proof using Calm0.
  unfold onAutoStartMemberIdentity. still_walk; try apply calm_sync_targets.
  apply calm_section; [apply discard_core|done].
Qed.

Lemma calm_message session message : cstill (onMessageCreate session message).
Proof using Calm0. unfold onMessageCreate. calm. Qed.

Lemma calm_send message : cstill (SendMessage message).
Proof using Calm0. unfold SendMessage. calm. Qed.

Lemma calm_offer session sink event targets : cstill (offer_join session sink event targets).
Proof using Calm0.
  induction targets as [|t targets IH]; cbn [offer_join]; [done|]. calm.
Qed.

Lemma calm_offer_auto_start session view' f member known :
  cstill (offer_auto_start session view' f member known).
Proof using Calm0.
  unfold offer_auto_start. still_walk; try apply calm_sync_targets; try apply calm_offer.
  - apply calm_section; [apply discard_core|done].
  - apply calm_section; [apply remember_core|done].
  - unfold offer_untargeted. calm.
Qed.

Lemma calm_userForSSRC ssrc generation : cstill (userForSSRC ssrc generation).
Proof using Calm0. unfold userForSSRC, resolveSSRCUserID. calm. Qed.

Lemma calm_enqueue job generation caption queue batch :
  cstill (enqueueOpusForwardBatch job generation caption queue batch).
Proof using Calm0.
  unfold enqueueOpusForwardBatch. calm.
Qed.

Lemma calm_flush caption f : cstill (flush caption f).
Proof using Calm0. unfold flush. still_walk; try apply calm_enqueue; calm. Qed.

Lemma calm_flush_if due caption now f : cstill (flush_if due caption now f).
Proof using Calm0. unfold flush_if. still_walk; apply calm_flush. Qed.

Lemma calm_wait_targets dones : cstill (wait_targets dones).
Proof using Calm0. induction dones; cbn [wait_targets]; [done|]. still_walk. Qed.

Lemma calm_forward_end f : cstill (forward_end f).
Proof using Calm0. unfold forward_end. still_walk; try apply calm_wait_targets; calm. Qed.

Lemma calm_target_turn ctx job generation forwarder source target d :
  cstill (target_turn ctx job generation forwarder source target d).
Proof using Calm0.
  unfold target_turn. calm.
Qed.

Lemma calm_forwardOpus job generation stop d forwarder source :
  cstill (forwardOpus job generation stop d forwarder source).
Proof using Calm0. unfold forwardOpus, start_target. calm. Qed.

Lemma calm_stop_monitor stop monitorDone ctx : cstill (stop_monitor stop monitorDone ctx).
Proof using Calm0. unfold stop_monitor. calm. Qed.

(** *** The client's text, given the operations that take a gate *)

Class GateBase : Prop := {
  gb_dispatch : forall job generation userID speaking,
    cfree (dispatchActiveSpeakerState job generation userID speaking);
  gb_snapshot : forall job, cfree (SnapshotVoiceParticipants job);
  gb_sync : forall session job, cfree (syncVoiceParticipants session job);
  gb_mark : forall reason stop, cfree (markVoiceDisconnected reason stop);
  gb_mark_job : forall reason stop job generation,
    cfree (markVoiceDisconnectedForJob reason stop job generation);
  gb_connect : cfree Connect;
  gb_reconcile : forall token selected, cfree (ReconcileGateway token selected);
  gb_join : forall job, cfree (JoinVoice job);
  gb_leave : forall streamID, cfree (LeaveVoice streamID);
  gb_lost : forall session, cfree (atomic (gateway_lost_section (Some session)));
  gb_up : forall resumed session, cfree (atomic (gateway_up_section resumed (Some session))) }.

Context {GB : GateBase}.

(** Composite text: calm parts by [calm], the rest by the instance's fields. *)
Ltac composite :=
  free_walk; try (apply still_free; calm; fail).

Lemma free_record job generation userID now :
  cfree (recordAudioSpeakerActivity job generation userID now).
Proof using Calm0 GB. unfold recordAudioSpeakerActivity. composite; apply gb_dispatch. Qed.

Lemma free_speaking voice event : cfree (onVoiceSpeakingUpdate voice event).
Proof using Calm0 GB. unfold onVoiceSpeakingUpdate. composite; apply gb_dispatch. Qed.

Lemma free_dispatch_expired job generation expired : cfree (dispatch_expired job generation expired).
Proof using Calm0 GB.
  induction expired; cbn [dispatch_expired]; [by apply still_free|].
  apply free_bind; [apply gb_dispatch|done].
Qed.

Lemma free_expire job generation now : cfree (expireIdleAudioSpeakers job generation now).
Proof using Calm0 GB.
  unfold expireIdleAudioSpeakers. composite. apply free_dispatch_expired.
Qed.

Lemma free_resolve_user ssrc now f : cfree (resolve_user ssrc now f).
Proof using Calm0 GB.
  unfold resolve_user, resolveFallbackUser, uniqueHumanVoiceParticipant.
  apply free_bind; [apply still_free, calm_userForSSRC|intros]. composite. apply gb_snapshot.
Qed.

Lemma free_flush_expired now force f : cfree (flushExpiredUnresolved now force f).
Proof using Calm0 GB.
  unfold flushExpiredUnresolved. generalize (map_range (fwUnresolved f)). intros sources.
  revert f. induction sources as [|[ssrc buffered] sources IH]; intros f; cbn [flush_sources];
    [by apply still_free|].
  apply free_bind; [apply free_resolve_user|intros [userID f']].
  apply free_bind; [|intros; apply IH]. unfold flush_source. composite. apply free_record.
Qed.

Lemma free_forward_tick now f : cfree (forward_tick now f).
Proof using Calm0 GB.
  unfold forward_tick. composite;
    first [apply still_free, calm_forward_end|apply free_flush_expired
          |apply still_free, calm_flush_if|apply free_expire].
Qed.

Lemma free_forward_packet packet f : cfree (forward_packet packet f).
Proof using Calm0 GB.
  unfold forward_packet, caption_packet. composite;
    first [apply still_free, calm_forward_end|apply free_flush_expired|apply free_resolve_user
          |apply still_free, calm_flush_if|apply free_record].
Qed.

Lemma free_forward_turn f : cfree (forward_turn f).
Proof using Calm0 GB.
  unfold forward_turn. composite;
    first [apply still_free, calm_forward_end|apply free_forward_tick|apply free_forward_packet
          |apply gb_mark_job].
Qed.

Lemma calm_watch_tick ctx job voice generation w : cstill (watch_tick ctx job voice generation w).
Proof using Calm0.
  unfold watch_tick. still_walk; [by apply calm_permitted|].
  apply still_embed. intros X []; cbn [dave_handler]; unfold remoteVoiceParticipantPresent; calm.
Qed.

Lemma free_sync_current session : cfree (syncCurrentVoiceParticipants session).
Proof using Calm0 GB. unfold syncCurrentVoiceParticipants. composite. apply gb_sync. Qed.

Lemma free_gateway_up resumed session : cfree (onGatewayUp resumed (Some session)).
Proof using Calm0 GB.
  unfold onGatewayUp. apply free_bind; [apply gb_up|intros [ok sink]]. composite;
    first [apply free_sync_current|apply still_free, calm_sync_targets
          |apply still_free, calm_to_sink; exact Logic.I].
Qed.

Lemma free_voice_state session event : cfree (onVoiceStateUpdate session event).
Proof using Calm0 GB.
  unfold onVoiceStateUpdate. composite;
    first [apply still_free, calm_offer_auto_start|apply gb_mark|apply still_free, calm_to_sink; exact Logic.I].
Qed.

Lemma free_gateway_lost session : cfree (onGatewayDisconnect (Some session)).
Proof using Calm0 GB.
  unfold onGatewayDisconnect. apply free_bind; [apply gb_lost|intros].
  apply still_free, calm_to_sink. exact Logic.I.
Qed.

Lemma free_guild_create session guildID : cfree (onGuildCreate (Some session) guildID).
Proof using Calm0 GB.
  unfold onGuildCreate. composite; first [apply gb_sync|apply still_free, calm_sync_targets].
Qed.

Lemma code_free l : cfree (client_code l).
Proof using Calm0 GB.
  destruct l; cbn [client_code]; unfold DiscordPool.done;
    try (apply free_bind; [|intros; by apply still_free]);
    first
      [ apply gb_connect | apply gb_reconcile | apply gb_join | apply gb_leave | apply gb_snapshot
      | apply free_gateway_lost | apply free_gateway_up | apply free_guild_create
      | apply free_voice_state | apply free_speaking | apply free_forward_turn
      | apply still_free;
        first [ apply calm_set_targets | apply calm_presence | apply calm_send | apply calm_ReadStatus
              | apply calm_member | apply calm_message | apply calm_watch_tick | apply calm_forwardOpus
              | apply calm_target_turn | apply calm_stop_monitor | exact Logic.I | calm; fail ] ].
Qed.

(** In every reachable pool a call is permitted by what its goroutine knows,
    which is true of the current state. *)
Lemma client_call s0 p X (e : DcCall X) k :
  (forall c d, I c -> I (client_advance d c) /\ view (client_advance d c) = view c) ->
  I s0 -> clients s0 p -> Running (Call e k) ∈ p_threads p ->
  I (p_state p) /\ exists h, G X h e /\ knows view h (p_state p).
Proof using Calm0 GB.
  intros Ht Hs0 Hr Hin.
  eapply (gated_call I view gate G any_label client_code hxClock); try done.
  - intros l _. apply free_ends; [by intros []|]. apply code_free.
  - intros d c _ Hc. by apply Ht.
Qed.

Lemma client_exclusive s0 p i j X (e : DcCall X) k Y (e' : DcCall Y) k' :
  (forall c d, I c -> I (client_advance d c) /\ view (client_advance d c) = view c) ->
  I s0 -> clients s0 p ->
  p_threads p !! i = Some (Running (Call e k)) -> p_threads p !! j = Some (Running (Call e' k')) ->
  (forall h, G X h e -> is_Some h) -> (forall h, G Y h e' -> is_Some h) -> i = j.
Proof using Calm0 GB.
  intros Ht Hs0 Hr Hi Hj He He'.
  eapply (gated_exclusive I view gate G any_label client_code hxClock _ client_entry client_advance
    _ _ s0 p i j X e k Y e' k'); done.
  Unshelve.
  - intros l _. apply free_ends; [by intros []|]. apply code_free.
  - done.
  - intros d c _ Hc. by apply Ht.
Qed.
End Calm.

(** ** The speaker dispatch gate: the voice job *)
Section Speakers.
Context `{NetURL} `{MapRange}.

Definition voice_view (c : RealClient) : VoiceJob * Z * bool :=
  (clJob c, clVoiceGeneration c, suVoiceConnected (clStatus c)).

(** A speaker callback is made knowing the connected job of its stream. *)
Definition speaker_call X (h : option (VoiceJob * Z * bool)) (e : DcCall X) : Prop :=
  match e with
  | ToSink _ (ActiveSpeakerStateChanged streamID _ _) | ToSink _ (ActiveSpeakerDetected streamID _) =>
      exists job generation,
        h = Some (job, generation, true) /\ jStreamID job = streamID /\ streamID <> ""
  | _ => True
  end.

Definition any_state (c : RealClient) : Prop := True.

#[local] Instance speakers_calm : Calm any_state voice_view speaker_call.
Proof.
  split.
  - intros c c' Hc _. split; [done|]. unfold core, voice_view in *. congruence.
  - intros X h []; try done. by destruct event.
Qed.

Abbreviation vstill := (still any_state voice_view speakerDispatchMu speaker_call any_label).
Abbreviation vfree := (free any_state voice_view speakerDispatchMu speaker_call any_label).

(** Sections and calls that do not concern this gate. *)
Ltac quiet :=
  still_walk; try (split; [done|]; autounfold with gate; repeat (case_match; simpl; try reflexivity);
                   reflexivity); try exact Logic.I.

Lemma vstill_connect : vstill connectGateway.
Proof. unfold connectGateway, to_sink. quiet. Qed.

Lemma held_true {X} v (f : RealClient -> X * RealClient) :
  held any_state voice_view speakerDispatchMu speaker_call any_label v (atomic f).
Proof. by apply held_atomic. Qed.

Lemma vfree_leave streamID : vfree (LeaveVoice streamID).
Proof.
  unfold LeaveVoice. apply free_lock. intros s _. closing_walk; [apply held_true|..];
    apply still_free; quiet; apply calm_wait_stop, speakers_calm.
Qed.

Lemma vheld_callback v reason marked :
  held any_state voice_view speakerDispatchMu speaker_call any_label v (mark_callback reason marked).
Proof. apply held_still, calm_mark_callback, speakers_calm. Qed.

Lemma vfree_mark reason stop : vfree (markVoiceDisconnected reason stop).
Proof.
  unfold markVoiceDisconnected. apply free_lock. intros s _.
  closing_walk; [apply held_true|apply vheld_callback].
Qed.

Lemma vfree_mark_job reason stop job generation :
  vfree (markVoiceDisconnectedForJob reason stop job generation).
Proof.
  unfold markVoiceDisconnectedForJob. apply free_lock. intros s _.
  closing_walk; [apply held_true|]. case_match; [apply vheld_callback|by apply held_still].
Qed.

(** The callback is made with what the section saw. *)
Lemma vfree_dispatch job generation userID speaking :
  vfree (dispatchActiveSpeakerState job generation userID speaking).
Proof.
  unfold dispatchActiveSpeakerState. cbv zeta. case_match; [by apply still_free|].
  apply free_lock. intros s _. unfold closing. cbn [bind read hsafe]. intros c _ Hk.
  split; [by split|]. cbn [fst snd fmap option_fmap option_map const].
  set (target := dispatch_section _ _ _ _ c).
  assert (forall streamID sink, target = Some (streamID, sink) ->
    exists job generation, voice_view c = (job, generation, true) /\
      jStreamID job = streamID /\ streamID <> "") as Ht.
  { intros streamID sink. unfold target, dispatch_section, current_voice_job.
    repeat case_match; try done. intros [= <- <-]. bool_hyps.
    exists (clJob c), (clVoiceGeneration c). unfold voice_view. split_and!; congruence. }
  apply hsafe_bind. destruct target as [[streamID sink]|].
  2:{ apply closing_unlock. }
  destruct (Ht streamID sink eq_refl) as (j & g & Hv & Hj).
  repeat case_match; cbn [call hsafe];
    try (split; [|intros _]; [by exists j, g; rewrite Hv|]); apply closing_unlock.
Qed.

Lemma vfree_join job : vfree (JoinVoice job).
Proof.
  unfold JoinVoice. free_walk;
    try (apply still_free; first [apply vstill_connect|apply calm_wait_stop, speakers_calm|quiet; fail]);
    try apply held_true.
  all: free_walk; try (apply still_free; first [apply calm_wait_stop, speakers_calm|quiet; fail]).
Qed.

Lemma vfree_reconcile token selected : vfree (ReconcileGateway token selected).
Proof.
  unfold ReconcileGateway, reconcile_gateway, revokeGateway. free_walk;
    try (apply still_free; first [apply vstill_connect|quiet; fail]); apply vfree_leave.
Qed.

#[local] Instance speakers_base : GateBase any_state voice_view speakerDispatchMu speaker_call.
Proof.
  split; intros; try (apply still_free; unfold SnapshotVoiceParticipants, syncVoiceParticipants,
    sync_participants_gated, Connect, snapshot_section, gateway_lost_section, gateway_up_section; quiet;
    try apply vstill_connect; fail).
  - apply vfree_dispatch.
  - apply vfree_mark.
  - apply vfree_mark_job.
  - apply vfree_reconcile.
  - apply vfree_join.
  - apply vfree_leave.
Qed.

(** The stream a speaker callback is about. *)
Definition speaker_stream (event : SinkEvent) : option string :=
  match event with
  | ActiveSpeakerStateChanged streamID _ _ | ActiveSpeakerDetected streamID _ => Some streamID
  | _ => None
  end.

(** C9: active-speaker callbacks are serialised with voice job transitions. In
    every interleaving of the client's handlers and goroutines, whenever a
    speaker callback is about to be made the client is connected to the very job
    of the callback's stream (joining, leaving and losing the voice connection
    wait until the callback has returned), and no other speaker callback is about
    to be made. *)
Theorem speaker_callbacks_serialised s0 p i sink event k streamID :
  clients s0 p -> p_threads p !! i = Some (Running (Call (ToSink sink event) k)) ->
  speaker_stream event = Some streamID ->
  suVoiceConnected (clStatus (p_state p)) = true /\ jStreamID (clJob (p_state p)) = streamID /\
  forall j sink' event' k', p_threads p !! j = Some (Running (Call (ToSink sink' event') k')) ->
    is_Some (speaker_stream event') -> j = i.
Proof.
  intros Hp Hi He.
  destruct (client_call any_state voice_view speakerDispatchMu speaker_call s0 p _ (ToSink sink event) k)
    as [_ (h & Hg & Hk)]; [done|done|done|by eapply list_elem_of_lookup_2|].
  assert (exists job generation, h = Some (job, generation, true) /\ jStreamID job = streamID /\
    streamID <> "") as (job & generation & -> & Hj & _)
    by (destruct event; simpl in *; try done; injection He as <-; exact Hg).
  specialize (Hk _ eq_refl). unfold voice_view in Hk. injection Hk as Hjob _ Hc.
  split; [done|]. split; [congruence|].
  intros j sink' event' k' Hj' [streamID' He'].
  eapply (client_exclusive any_state voice_view speakerDispatchMu speaker_call); [done|done|done|exact Hj'|exact Hi|..];
    intros h'; destruct event'; try done; destruct event; try done; by intros (? & ? & -> & _).
Qed.
End Speakers.

(** ** The participant gate: the revision of the last snapshot *)
Section Snapshots.
Context `{NetURL} `{MapRange}.

Definition snapshot_call X (h : option Z) (e : DcCall X) : Prop :=
  match e with
  | ToSink _ (ParticipantsSynced snapshot) => h = Some (psRevision snapshot)
  | _ => True
  end.

#[local] Instance snapshots_calm : Calm any_state clParticipantSnapshotNext snapshot_call.
Proof.
  split.
  - intros c c' Hc _. split; [done|]. unfold core in *. congruence.
  - intros X h []; try done. by destruct event.
Qed.

Abbreviation sstill := (still any_state clParticipantSnapshotNext participantSyncMu snapshot_call any_label).
Abbreviation sfree := (free any_state clParticipantSnapshotNext participantSyncMu snapshot_call any_label).

Ltac quiet :=
  still_walk; try (split; [done|]; autounfold with gate; repeat (case_match; simpl; try reflexivity);
                   reflexivity); try exact Logic.I.

Lemma leave_next streamID c :
  clParticipantSnapshotNext (leave_section streamID c).2 = clParticipantSnapshotNext c.
Proof.
  unfold leave_section. case_match; [done|]. by destruct (clDaveCancel c), (clAudioStop c).
Qed.

Lemma join_next voice job c :
  clParticipantSnapshotNext (join_section voice job c).2 = clParticipantSnapshotNext c.
Proof.
  unfold join_section, new_ref. destruct (clDaveCancel c), (clAudioStop c); simpl;
    (destruct (clForward c); [case_match|]); done.
Qed.

Lemma mark_next stop c : clParticipantSnapshotNext (mark_section stop c).2 = clParticipantSnapshotNext c.
Proof.
  unfold mark_section, upd_status.
  destruct stop, (clDaveCancel c), (clAudioStop c), (suVoiceConnected (clStatus c)); reflexivity.
Qed.

Lemma sstill_leave streamID : sstill (LeaveVoice streamID).
Proof.
  unfold LeaveVoice. still_walk.
  all: lazymatch goal with
       | |- context [leave_section] => split; [done|apply leave_next]
       | |- still _ _ _ _ _ _ => apply calm_wait_stop, snapshots_calm
       | |- _ /\ _ => split; [done|reflexivity]
       | |- _ => exact Logic.I
       end.
Qed.

Lemma sstill_connect : sstill connectGateway.
Proof. unfold connectGateway, to_sink. quiet. Qed.

Lemma sstill_join job : sstill (JoinVoice job).
Proof.
  unfold JoinVoice. still_walk.
  all: lazymatch goal with
       | |- context [join_section] => split; [done|apply join_next]
       | |- still _ _ _ _ _ connectGateway => apply sstill_connect
       | |- still _ _ _ _ _ _ => apply calm_wait_stop, snapshots_calm
       | |- _ /\ _ => split; [done|reflexivity]
       | |- _ => exact Logic.I
       end.
Qed.

Lemma sstill_mark reason stop : sstill (markVoiceDisconnected reason stop).
Proof.
  unfold markVoiceDisconnected. still_walk; [split; [done|apply mark_next]|].
  apply calm_mark_callback, snapshots_calm.
Qed.

Lemma sstill_mark_job reason stop job generation :
  sstill (markVoiceDisconnectedForJob reason stop job generation).
Proof.
  unfold markVoiceDisconnectedForJob, mark_for_job_section. still_walk;
    try apply calm_mark_callback, snapshots_calm; try done.
  split; [done|]. case_match; [done|]. pose proof (mark_next stop s) as Hm.
  by destruct (mark_section stop s).
Qed.

Lemma sheld_snapshot v session job :
  hsafe any_state clParticipantSnapshotNext participantSyncMu snapshot_call any_label
    (fun h r => match r with Some s => h = Some (psRevision s) | None => is_Some h end) (Some v)
    (atomic (snapshot_section session job)).
Proof.
  intros c _ _. split; [by split|]. unfold snapshot_section.
  destruct (snapshot_participants_of _ _) as [[[[? ?] ?] ?]|]; simpl; [done|by eexists].
Qed.

Lemma sfree_snapshot job : sfree (SnapshotVoiceParticipants job).
Proof.
  unfold SnapshotVoiceParticipants. apply free_lock. intros s _. closing_walk.
  - apply held_still, still_read.
  - case_match; [by apply held_still|by apply held_atomic].
  - by apply still_free.
Qed.

Lemma sfree_sync session job : sfree (syncVoiceParticipants session job).
Proof.
  unfold syncVoiceParticipants. apply free_lock. intros s _. closing_walk.
  unfold sync_participants_gated. apply held_bind; [apply held_still, still_read|].
  intros v [[[stale job'] sink] current]. cbv zeta.
  destruct stale; [apply held_still, still_ret|]. destruct (negb _); [by apply held_still|].
  destruct sink as [sink|]; [|apply held_still, still_ret]. destruct (negb _); [by apply held_still|].
  eapply hsafe_seq; [apply sheld_snapshot|]. intros h [snap|] Hh; [|exact Hh].
  subst h. split; [done|]. intros x. by eexists.
Qed.

Lemma gateway_next resumed session c :
  clParticipantSnapshotNext (gateway_up_section resumed session c).2 = clParticipantSnapshotNext c.
Proof. unfold gateway_up_section, upd_status. by case_match. Qed.

Lemma gateway_lost_next session c :
  clParticipantSnapshotNext (gateway_lost_section session c).2 = clParticipantSnapshotNext c.
Proof. unfold gateway_lost_section, upd_status. by case_match. Qed.

Lemma sstill_reconcile token selected : sstill (ReconcileGateway token selected).
Proof.
  unfold ReconcileGateway, reconcile_gateway, revokeGateway. still_walk.
  all: lazymatch goal with
       | |- still _ _ _ _ _ connectGateway => apply sstill_connect
       | |- still _ _ _ _ _ _ => apply sstill_leave
       | |- _ /\ _ => split; [done|reflexivity]
       | |- _ => exact Logic.I
       end.
Qed.

#[local] Instance snapshots_base : GateBase any_state clParticipantSnapshotNext participantSyncMu snapshot_call.
Proof.
  split; intros.
  - apply still_free. unfold dispatchActiveSpeakerState. quiet.
  - apply sfree_snapshot.
  - apply sfree_sync.
  - apply still_free, sstill_mark.
  - apply still_free, sstill_mark_job.
  - apply still_free. unfold Connect. still_walk. apply sstill_connect.
  - apply still_free, sstill_reconcile.
  - apply still_free, sstill_join.
  - apply still_free, sstill_leave.
  - apply still_free, still_atomic. split; [done|apply gateway_lost_next].
  - apply still_free, still_atomic. split; [done|apply gateway_next].
Qed.

(** C24: participant snapshots reach the sink one at a time and in the order of
    their revisions. In every interleaving, a snapshot about to be delivered is
    the newest one ever produced, and no other snapshot is about to be delivered;
    so no older view of the channel can follow a newer one. *)
Theorem snapshots_delivered_in_order s0 p i sink snapshot k :
  clients s0 p ->
  p_threads p !! i = Some (Running (Call (ToSink sink (ParticipantsSynced snapshot)) k)) ->
  psRevision snapshot = clParticipantSnapshotNext (p_state p) /\
  forall j sink' snapshot' k',
    p_threads p !! j = Some (Running (Call (ToSink sink' (ParticipantsSynced snapshot')) k')) -> j = i.
Proof.
  intros Hp Hi.
  destruct (client_call any_state clParticipantSnapshotNext participantSyncMu snapshot_call s0 p _
    (ToSink sink (ParticipantsSynced snapshot)) k)
    as [_ (h & Hg & Hk)]; [done|done|done|by eapply list_elem_of_lookup_2|].
  split; [by rewrite (Hk _ Hg)|]. intros j sink' snapshot' k' Hj.
  eapply (client_exclusive any_state clParticipantSnapshotNext participantSyncMu snapshot_call);
    [done|done|done|exact Hj|exact Hi|..]; intros h' Hh'; simpl in Hh'; by rewrite Hh'.
Qed.
End Snapshots.

(** ** The Gateway gate: the selected session *)
Section Gateway.
Context `{NetURL} `{MapRange}.

(** A session is opened, and a voice channel joined, only through the session
    that is selected. *)
Definition gateway_call X (h : option (option nat)) (e : DcCall X) : Prop :=
  match e with
  | OpenSession s => h = Some (Some s)
  | ChannelVoiceJoin session _ _ => is_Some session /\ h = Some session
  | _ => True
  end.

Definition connected_ok (c : RealClient) : Prop :=
  suConnected (clStatus c) = true -> is_Some (clSession c).

#[local] Instance gateway_calm : Calm connected_ok clSession gateway_call.
Proof.
  split.
  - intros c c' Hc HI. unfold core, connected_ok in *. injection Hc as _ _ _ Hs Hcn _.
    by rewrite Hs, Hcn.
  - by intros X h [].
Qed.

Abbreviation gstill := (still connected_ok clSession gatewayMu gateway_call any_label).
Abbreviation gfree := (free connected_ok clSession gatewayMu gateway_call any_label).
Abbreviation gheld := (held connected_ok clSession gatewayMu gateway_call any_label).
Abbreviation gsafe := (hsafe connected_ok clSession gatewayMu gateway_call any_label).

(** Sections that touch neither the session nor the connection. *)
Lemma gframe (c c' : RealClient) :
  clSession c' = clSession c -> suConnected (clStatus c') = suConnected (clStatus c) ->
  connected_ok c -> connected_ok c' /\ clSession c' = clSession c.
Proof. unfold connected_ok. by intros -> ->. Qed.

Lemma leave_frame streamID c :
  clSession (leave_section streamID c).2 = clSession c /\
  suConnected (clStatus (leave_section streamID c).2) = suConnected (clStatus c).
Proof. unfold leave_section. case_match; [done|]. by destruct (clDaveCancel c), (clAudioStop c). Qed.

Lemma join_frame voice job c :
  clSession (join_section voice job c).2 = clSession c /\
  suConnected (clStatus (join_section voice job c).2) = suConnected (clStatus c).
Proof.
  unfold join_section, new_ref. destruct (clDaveCancel c), (clAudioStop c); simpl;
    (destruct (clForward c); [case_match|]); done.
Qed.

Lemma mark_frame stop c :
  clSession (mark_section stop c).2 = clSession c /\
  suConnected (clStatus (mark_section stop c).2) = suConnected (clStatus c).
Proof.
  unfold mark_section, upd_status.
  destruct stop, (clDaveCancel c), (clAudioStop c), (suVoiceConnected (clStatus c)); by split.
Qed.

Lemma gstill_leave streamID : gstill (LeaveVoice streamID).
Proof.
  unfold LeaveVoice. still_walk.
  all: lazymatch goal with
       | |- still _ _ _ _ _ _ => apply calm_wait_stop, gateway_calm
       | |- _ /\ _ => apply gframe; [..|done]; try apply leave_frame; reflexivity
       | |- _ => exact Logic.I
       end.
Qed.

Lemma gstill_mark reason stop : gstill (markVoiceDisconnected reason stop).
Proof.
  unfold markVoiceDisconnected. still_walk; [|apply calm_mark_callback, gateway_calm].
  apply gframe; [..|done]; apply mark_frame.
Qed.

Lemma gstill_mark_job reason stop job generation :
  gstill (markVoiceDisconnectedForJob reason stop job generation).
Proof.
  unfold markVoiceDisconnectedForJob, mark_for_job_section. still_walk;
    try apply calm_mark_callback, gateway_calm.
  apply gframe; [..|done]; (case_match; [done|]; pose proof (mark_frame stop s) as [? ?];
    by destruct (mark_section stop s)).
Qed.

(** [connectGateway] opens the selected session, and succeeds only with one. *)
Lemma connect_selected session :
  gsafe (fun h err => h = Some session /\ (err = None -> is_Some session)) (Some session) connectGateway.
Proof.
  unfold connectGateway. cbn [bind read hsafe]. intros c Hc Hk. specialize (Hk _ eq_refl).
  split; [by split|]. cbn [fst snd fmap option_fmap option_map const]. rewrite Hk.
  destruct (suConnected (clStatus c)) eqn:Hcn.
  { split; [done|]. intros _. rewrite <- Hk. by apply Hc. }
  destruct session as [s|]; [|done]. cbn [bind call hsafe]. split; [done|].
  intros [e|].
  - cbn [bind modify hsafe fst snd]. intros c' Hc' Hk'. split; [by split|].
    simpl. by rewrite (Hk' _ eq_refl).
  - cbn [bind atomic hsafe]. intros c' Hc' Hk'. specialize (Hk' _ eq_refl).
    split; [split; [|done]|].
    { intros _. simpl. by rewrite Hk'. }
    simpl. rewrite Hk'. unfold to_sink. case_match; simpl; [|done]. by split; [|intros].
Qed.

Lemma gfree_connect : gfree Connect.
Proof.
  unfold Connect. apply free_lock. intros s _. closing_walk; [|by apply still_free].
  eapply hsafe_mono; [|apply connect_selected]. by intros h err [-> _].
Qed.

Lemma gfree_join job : gfree (JoinVoice job).
Proof.
  unfold JoinVoice. case_match; [by apply still_free|]. apply free_lock. intros s _.
  unfold closing. eapply hsafe_seq; [apply connect_selected|]. intros h [e|] [-> Hs].
  { change (closing connected_ok clSession gatewayMu gateway_call any_label (clSession s)
      (bind (unlock gatewayMu) (fun _ => ret (Some e)))). closing_walk. by apply still_free. }
  specialize (Hs eq_refl). apply hsafe_read_seq. intros c Hc Hk. rewrite (Hk _ eq_refl).
  apply hsafe_call_seq; [done|]. intros voice.
  match goal with |- hsafe ?I ?v ?g ?G ?L _ (Some ?x) ?p => change (closing I v g G L x p) end.
  closing_walk.
  all: lazymatch goal with
       | |- free _ _ _ _ _ _ => by apply still_free
       | |- _ => apply held_still
       end.
  all: still_walk.
  all: lazymatch goal with
       | |- context [join_section] => apply gframe; [..|done]; apply join_frame
       | |- still _ _ _ _ _ _ => apply calm_wait_stop, gateway_calm
       | |- _ /\ _ => apply gframe; [..|done]; reflexivity
       | |- _ => exact Logic.I
       end.
Qed.

Lemma gheld_connect session : gheld session connectGateway.
Proof. eapply hsafe_mono; [|apply connect_selected]. intros h err [-> _]. by eexists. Qed.

(** A section after which no session is connected, or one is selected. *)
Lemma gheld_modify v f :
  (forall c, suConnected (clStatus (f c)) = false \/ is_Some (clSession (f c))) -> gheld v (modify f).
Proof.
  intros Hf. apply held_modify. intros c _ _ Hc. destruct (Hf c) as [Hd|]; [congruence|done].
Qed.

Lemma gheld_reconcile v token : gheld v (reconcile_gateway token).
Proof.
  unfold reconcile_gateway.
  apply held_bind; [apply held_still, still_read|]. intros v1 [[old active] same].
  destruct active; [by apply held_still|]. case_match; [by apply held_still|].
  case_match; [apply gheld_connect|].
  apply held_bind; [apply held_still; by still_walk|]. intros v2 [e|]; [by apply held_still|].
  apply held_bind; [apply gheld_modify; by left|]. intros v3 _.
  apply held_bind; [by apply held_still|]. intros v4 [s|e]; [|by apply held_still].
  apply held_bind; [apply gheld_modify; right; by eexists|]. intros v5 _. apply gheld_connect.
Qed.

Lemma gheld_revoke v : gheld v revokeGateway.
Proof.
  unfold revokeGateway. apply held_bind; [by apply held_atomic|]. intros v1 old.
  apply held_bind; [apply held_still, gstill_leave|]. intros v2 voiceErr.
  apply held_bind; [by apply held_still; still_walk|]. intros v3 gatewayErr.
  case_match; by apply held_still.
Qed.

Lemma gfree_reconcile token selected : gfree (ReconcileGateway token selected).
Proof.
  unfold ReconcileGateway. apply free_lock. intros s _. closing_walk; [|by apply still_free].
  destruct selected; [apply gheld_reconcile|apply gheld_revoke].
Qed.

Lemma up_frame resumed session c :
  connected_ok c ->
  connected_ok (gateway_up_section resumed (Some session) c).2 /\
  clSession (gateway_up_section resumed (Some session) c).2 = clSession c.
Proof.
  intros Hc. unfold gateway_up_section, stale_session. case_bool_decide as Hs; simpl; [|done].
  split; [|done]. intros _. simpl. by rewrite Hs.
Qed.

#[local] Instance gateway_base : GateBase connected_ok clSession gatewayMu gateway_call.
Proof.
  split; intros.
  - apply still_free. unfold dispatchActiveSpeakerState. by still_walk.
  - apply still_free. unfold SnapshotVoiceParticipants. still_walk.
    apply gframe; [..|done]; unfold snapshot_section; by repeat case_match.
  - apply still_free. unfold syncVoiceParticipants, sync_participants_gated. still_walk; try done.
    apply gframe; [..|done]; unfold snapshot_section; by repeat case_match.
  - apply still_free, gstill_mark.
  - apply still_free, gstill_mark_job.
  - apply gfree_connect.
  - apply gfree_reconcile.
  - apply gfree_join.
  - apply still_free, gstill_leave.
  - apply still_free, still_atomic. intros c Hc. unfold gateway_lost_section. by case_match.
  - apply still_free, still_atomic. intros c. apply up_frame.
Qed.

(** C10: a voice channel is joined only through the Gateway session that is
    selected at that moment. In every interleaving, from a client that is not
    connected without a session: a session about to be opened is the selected
    one, and a voice join about to be made goes through the selected session,
    which exists; revoking or replacing the session waits until the join is
    done. *)
Theorem voice_join_uses_selected_session s0 p X (e : DcCall X) k :
  connected_ok s0 -> clients s0 p -> Running (Call e k) ∈ p_threads p ->
  connected_ok (p_state p) /\
  match e with
  | ChannelVoiceJoin session _ _ => is_Some session /\ clSession (p_state p) = session
  | OpenSession session => clSession (p_state p) = Some session
  | _ => True
  end.
Proof.
  intros Hs0 Hp Hi.
  destruct (client_call connected_ok clSession gatewayMu gateway_call s0 p _ e k)
    as [HI (h & Hg & Hk)]; [done|done|done|done|].
  split; [done|]. destruct e; try done; simpl in Hg.
  - by apply Hk.
  - destruct Hg as [Hs ->]. split; [done|]. by apply Hk.
Qed.
End Gateway.

(** ** Witnesses: the history of [DiscordPool] *)
Module Sample.
Import History.

Lemma speaker_callbacks_serialised_witness :
  next_sink speaking = Some (mkSink true true, ActiveSpeakerStateChanged "stream" "u1" true) /\
  suVoiceConnected (clStatus (p_state speaking)) = true.
Proof.
  assert (next_sink speaking = Some (mkSink true true, ActiveSpeakerStateChanged "stream" "u1" true))
    as Hn by (vm_compute; reflexivity).
  split; [exact Hn|]. destruct (next_sink_thread _ _ _ Hn) as [k Hk].
  exact (proj1 (speaker_callbacks_serialised start speaking 0 _ _ k "stream" (history_reachable _) Hk eq_refl)).
Defined.

Definition snapshot : ParticipantSnapshot :=
  mkParticipantSnapshot "stream" "guild" "voice"
    [mkVoiceParticipant "u1" "Alice" "https://cdn.discordapp.com/embed/avatars/0.png?size=128" false] 1.

Lemma snapshots_delivered_in_order_witness :
  next_sink syncing = Some (mkSink true true, ParticipantsSynced snapshot) /\
  psRevision snapshot = clParticipantSnapshotNext (p_state syncing).
Proof.
  assert (next_sink syncing = Some (mkSink true true, ParticipantsSynced snapshot)) as Hn
    by (vm_compute; reflexivity).
  split; [exact Hn|]. destruct (next_sink_thread _ _ _ Hn) as [k Hk].
  exact (proj1 (snapshots_delivered_in_order start syncing 0 _ snapshot k (history_reachable _) Hk)).
Defined.

Lemma voice_join_uses_selected_session_witness :
  next_join joining = Some (Some 1%nat, "guild", "voice") /\ clSession (p_state joining) = Some 1%nat.
Proof.
  assert (next_join joining = Some (Some 1%nat, "guild", "voice")) as Hn by (vm_compute; reflexivity).
  split; [exact Hn|]. destruct (next_join_thread _ _ _ _ Hn) as [k Hk].
  assert (connected_ok start) as H0 by (intros H; discriminate H).
  exact (proj2 (proj2 (voice_join_uses_selected_session start joining _ _ k H0 (history_reachable _)
    (list_elem_of_lookup_2 _ _ _ Hk)))).
Defined.
End Sample.
