(* ===== verification/DiscordInvariant.v ===== *)
(** * DiscordInvariant: the state of the Discord client stays well formed

    [client_ok] is kept by every section of every handler and goroutine, so it
    holds in every reachable pool, whatever the interleaving. *)

From S2P Require Import Prelude Conc Errors Types Secrets SdkState DaveWatch AudioForward.
From S2P Require Import DiscordClient DiscordEvents SpeakerForward DiscordPool.

Open Scope go_scope.

(** What [JoinVoice] requires of a job. *)
Definition joinable (job : VoiceJob) : Prop :=
  blank (jGuildID job) = false /\ blank (jVoiceChannelID job) = false /\ blank (jStreamID job) = false.

(** Nothing is left of a lost voice connection. *)
Definition voice_gone (c : RealClient) : Prop :=
  clVoice c = None /\ clSsrcUsers c = ∅ /\ clAudioSpeakers c = ∅ /\
  suAudioReceiving (clStatus c) = false /\ suAudioForwardActive (clStatus c) = false /\
  suCaptionAudioForwardActive (clStatus c) = false /\
  suCurrentGuildID (clStatus c) = "" /\ suCurrentVoiceID (clStatus c) = "".

(** A voice connection is that of its job. *)
Definition voice_joined (c : RealClient) : Prop :=
  is_Some (clVoice c) /\ joinable (clJob c) /\
  suCurrentGuildID (clStatus c) = jGuildID (clJob c) /\
  suCurrentVoiceID (clStatus c) = jVoiceChannelID (clJob c).

Definition errors_clean (s : Status) : Prop :=
  sensitive (suLastError s) = false /\ sensitive (suLastForwardError s) = false /\
  sensitive (suLastCaptionForwardError s) = false.

Record client_ok (c : RealClient) : Prop := {
  ck_once : hxStoppedTwice c = false;
  ck_open : forall ch, clAudioStop c = Some ch -> (ch ∉ hxStopped c) /\ (ch < hxNext c)%nat;
  ck_fresh : forall ch, ch ∈ hxStopped c -> (ch < hxNext c)%nat;
  ck_gone : suVoiceConnected (clStatus c) = false -> voice_gone c;
  ck_joined : suVoiceConnected (clStatus c) = true -> voice_joined c;
  ck_unknown : mlen (clUnknownAutoStartJoins c) <= maxUnknownAutoStartJoins;
  ck_errors : errors_clean (clStatus c) }.

(** Splits the invariant field by field; fields whose components are untouched
    close by conversion. *)
Ltac keep :=
  let H := fresh in
  intros H; destruct H as [? ? ? ? ? ? ?]; split; simpl in *; try assumption.

Create HintDb inv.

Ltac rekeep := match goal with H : client_ok _ |- client_ok _ => revert H; by keep end.

Section Invariant.
Context `{NetURL} `{MapRange}.

Abbreviation isafe := (@safe RealClient DcCall ClLabel ClMutex client_ok (fun _ _ => True) (fun _ => True) _).

Lemma dormant_ok : client_ok dormant.
Proof. by split; simpl; unfold voice_gone, errors_clean; try done; set_solver. Qed.

Lemma ok_setLastError value c : client_ok c -> client_ok (setLastError value c).
Proof.
  keep. unfold errors_clean in *. simpl. destruct_and?. split_and?; try done.
  by apply sanitized_not_sensitive.
Qed.

(** A section whose guard found the job connected. *)
Lemma connected_job job generation c :
  negb (current_voice_job job generation c) = false -> suVoiceConnected (clStatus c) = true.
Proof. unfold current_voice_job. intros. by bool_hyps. Qed.

(** Closes the obligations of a section by cases on its guards. *)
Ltac sections :=
  autounfold with inv; repeat (case_match; simpl);
  first [done | keep; try (intros; congruence);
         try (unfold errors_clean in *; simpl; destruct_and?; split_and?;
              by auto using sanitized_not_sensitive) ].

Lemma ok_connected c : client_ok c -> client_ok (connected_section c).2.
Proof. unfold connected_section, upd_status. keep. unfold errors_clean in *. by destruct_and?. Qed.

Lemma ok_setAudioForwarder f src c : client_ok c -> client_ok (SetAudioForwarder f src c).
Proof. unfold SetAudioForwarder, upd_status. by keep. Qed.

Lemma ok_detach c : client_ok c -> client_ok (detach_section c).
Proof. unfold detach_section, upd_status. by keep. Qed.

Lemma ok_revoke c : client_ok c -> client_ok (revoke_section c).2.
Proof. unfold revoke_section, detach_section, upd_status. by keep. Qed.

Lemma close_stop_ok c : client_ok c -> 
  let c' := upd_opt close_stop (clAudioStop c) c in
  hxStoppedTwice c' = false /\ forall ch, ch ∈ hxStopped c' -> (ch < hxNext c)%nat.
Proof.
  intros Hc. destruct (clAudioStop c) as [ch|] eqn:Hs; simpl.
  - destruct (ck_open c Hc ch Hs) as [Hn Hl]. rewrite bool_decide_false by done.
    split; [apply Hc|]. intros ch' [->%elem_of_singleton|Hin]%elem_of_union; [done|by apply (ck_fresh c)].
  - split; [apply Hc|apply (ck_fresh c Hc)].
Qed.

Lemma errors_same s s' :
  suLastError s' = suLastError s -> suLastForwardError s' = suLastForwardError s ->
  suLastCaptionForwardError s' = suLastCaptionForwardError s -> errors_clean s -> errors_clean s'.
Proof. unfold errors_clean. by intros -> -> ->. Qed.

(** A section that ends the voice connection. *)
Lemma ok_gone c c' :
  client_ok c -> suVoiceConnected (clStatus c') = false -> voice_gone c' ->
  hxStoppedTwice c' = false -> (forall ch, ch ∈ hxStopped c' -> (ch < hxNext c')%nat) ->
  (clAudioStop c' = None \/
   clAudioStop c' = clAudioStop c /\ hxStopped c' = hxStopped c /\ hxNext c' = hxNext c) ->
  clUnknownAutoStartJoins c' = clUnknownAutoStartJoins c ->
  errors_clean (clStatus c') -> client_ok c'.
Proof.
  intros Hc Hv Hg Ht Hf Hs Hu He. split; try done; [|congruence|by rewrite Hu; apply Hc].
  intros ch Hch. destruct Hs as [Hs|(Hs & Hst & Hn)]; [congruence|].
  rewrite Hst, Hn. apply (ck_open c Hc). congruence.
Qed.

Lemma ok_leave streamID c : client_ok c -> client_ok (leave_section streamID c).2.
Proof.
  intros Hc. unfold leave_section. case_match; [done|]. simpl.
  pose proof (close_stop_ok c Hc) as [Ht Hf]. pose proof (ck_errors c Hc) as He.
  apply (ok_gone c); [done|destruct (clDaveCancel c), (clAudioStop c)..];
    try (by left); try done; by eapply errors_same, He.
Qed.

Lemma ok_mark stop c : client_ok c -> client_ok (mark_section stop c).2.
Proof.
  intros Hc. unfold mark_section, upd_status. cbv zeta.
  pose proof (close_stop_ok c Hc) as [Ht Hf]. pose proof (ck_errors c Hc) as He.
  pose proof (ck_once c Hc). pose proof (ck_fresh c Hc).
  apply (ok_gone c);
    [done|destruct stop, (clDaveCancel c), (clAudioStop c) eqn:?, (suVoiceConnected (clStatus c))..];
    try done; try (by left); try (by right; simpl; split_and!; congruence); by eapply errors_same, He.
Qed.

Lemma ok_mark_job stop job generation c : client_ok c -> client_ok (mark_for_job_section stop job generation c).2.
Proof.
  intros Hc. unfold mark_for_job_section. case_match; [done|].
  pose proof (ok_mark stop c Hc). by destruct (mark_section stop c).
Qed.

Lemma ok_voice_join voice job c : joinable job -> client_ok c -> client_ok (join_section voice job c).2.
Proof.
  intros Hj Hc. pose proof (close_stop_ok c Hc) as [Ht Hf]. pose proof (ck_errors c Hc) as He.
  pose proof (ck_unknown c Hc) as Hu. unfold join_section, new_ref.
  assert (forall c', hxStoppedTwice c' = false -> (exists ch, clAudioStop c' = Some ch /\ (ch ∉ hxStopped c') /\ (ch < hxNext c')%nat) ->
    (forall ch, ch ∈ hxStopped c' -> (ch < hxNext c')%nat) -> suVoiceConnected (clStatus c') = true ->
    voice_joined c' -> clUnknownAutoStartJoins c' = clUnknownAutoStartJoins c ->
    errors_clean (clStatus c') -> client_ok c') as Hok.
  { intros c' H1 (ch & Hch & Hn & Hl) H2 H3 H4 H5 H6. split; try done; [|congruence|by rewrite H5].
    intros ch'. rewrite Hch. by intros [= <-]. }
  assert (hxNext (upd_opt close_stop (clAudioStop c) c) ∉ hxStopped (upd_opt close_stop (clAudioStop c) c)) as Hfresh
    by (intros Hin; apply Hf in Hin; destruct (clAudioStop c); simpl in Hin; lia).
  destruct (clDaveCancel c), (clAudioStop c) as [ch|]; simpl in *;
    (destruct (clForward c); [case_match|]); apply Hok; simpl; try done;
    try (eexists; split_and!; [done|exact Hfresh|simpl; lia]);
    try (intros ch' Hch'; apply Hf in Hch'; simpl; lia);
    try (unfold voice_joined; simpl; split_and!; [by eexists|done..]);
    (unfold errors_clean in *; simpl; by destruct_and?).
Qed.

Lemma ok_targets targets c : client_ok c -> client_ok (set_targets_section targets c).2.
Proof.
  keep. etrans; [|eassumption]. apply mlen_filter.
Qed.

Lemma ok_resolve session event c : client_ok c -> client_ok (resolveAutoStartPresence session event c).2.
Proof.
  unfold resolveAutoStartPresence. repeat (case_match; try done). simpl.
  keep. etrans; [apply mlen_delete|done].
Qed.

Lemma ok_discard session g ch u r c :
  client_ok c -> client_ok (discardObsoleteAutoStartJoins session g ch u r c).
Proof.
  unfold discardObsoleteAutoStartJoins. case_match; [done|]. keep. etrans; [apply mlen_filter|done].
Qed.

Lemma ok_remember session event observed c :
  client_ok c -> client_ok (rememberUnknownAutoStartJoin session event observed c).
Proof.
  intros Hc. unfold rememberUnknownAutoStartJoin. destruct session as [s|]; [|done]. case_match; [done|].
  apply fold_left_ind; [done|]. intros c' t _. unfold remember_step. case_match; [|done].
  bool_hyps. keep. etrans; [apply mlen_insert|]. unfold maxUnknownAutoStartJoins in *. lia.
Qed.

Lemma ok_snapshot session job c : client_ok c -> client_ok (snapshot_section session job c).2.
Proof. unfold snapshot_section. repeat (case_match; try done). by keep. Qed.

Lemma ok_lost session c : client_ok c -> client_ok (gateway_lost_section session c).2.
Proof. unfold gateway_lost_section, upd_status. case_match; [done|]. by keep. Qed.

Lemma ok_up resumed session c : client_ok c -> client_ok (gateway_up_section resumed session c).2.
Proof.
  unfold gateway_up_section, upd_status. case_match; [done|].
  destruct resumed; keep; unfold errors_clean in *; by destruct_and?.
Qed.

(** Sections that act on a connected client only. *)
Ltac guarded :=
  let Hc := fresh in
  autounfold with inv; intros Hc; try (destruct (negb (current_voice_job _ _ _)) eqn:?; [done|]);
  try (match goal with H : negb (current_voice_job _ _ _) = false |- _ => apply connected_job in H end);
  repeat (case_match; try done); bool_hyps; revert Hc; keep; try (intros; congruence);
  try (unfold errors_clean in *; simpl; destruct_and?; split_and?; by auto using sanitized_not_sensitive).

#[local] Hint Unfold speaking_section activity_section remember_user_section expire_section
  recordAudioPacketReceived setForwardErrorForJob recordForwardQueueDropForJob delivered_section
  receive_section enqueue_section recordDAVERecovery upd_status : inv.

Lemma ok_activity job generation userID now c :
  client_ok c -> client_ok (activity_section job generation userID now c).2.
Proof. guarded. Qed.

Lemma ok_remember_user ssrc generation voice userID c :
  client_ok c -> client_ok (remember_user_section ssrc generation voice userID c).2.
Proof. guarded. Qed.

Lemma ok_expire job generation now c : client_ok c -> client_ok (expire_section job generation now c).2.
Proof. guarded. Qed.

Lemma ok_received job generation now c :
  client_ok c -> client_ok (recordAudioPacketReceived job generation now c).2.
Proof. guarded. Qed.

Lemma ok_forward_error job generation caption value c :
  client_ok c -> client_ok (setForwardErrorForJob job generation caption value c).2.
Proof. guarded. Qed.

Lemma ok_drop job generation caption n c :
  client_ok c -> client_ok (recordForwardQueueDropForJob job generation caption n c).2.
Proof. guarded. Qed.

Lemma ok_delivered job generation caption n c :
  client_ok c -> client_ok (delivered_section job generation caption n c).
Proof. guarded. Qed.

Lemma ok_receive ctx queue preferDone c : client_ok c -> client_ok (receive_section ctx queue preferDone c).2.
Proof. guarded. Qed.

Lemma ok_enqueue queue batch c : client_ok c -> client_ok (enqueue_section queue batch c).2.
Proof. guarded. Qed.

Lemma ok_speaking voice event c : client_ok c -> client_ok (speaking_section voice event c).2.
Proof.
  intros Hc. unfold speaking_section. case_match; [done|]. bool_hyps.
  repeat case_match; revert Hc; keep; intros; congruence.
Qed.

Lemma ok_recovery job voice generation event c :
  client_ok c -> client_ok (recordDAVERecovery job voice generation event c).
Proof.
  intros Hc. unfold recordDAVERecovery. case_match; [done|]. bool_hyps. unfold upd_status.
  revert Hc; repeat case_match; keep.
Qed.

Lemma ok_new_ref c : client_ok c -> client_ok (new_ref c).2.
Proof.
  keep.
  - intros ch Hch. destruct (ck_open0 ch Hch). split; [done|lia].
  - intros ch Hch. specialize (ck_fresh0 ch Hch). lia.
Qed.

Lemma ok_new_queue c : client_ok c -> client_ok (new_queue_section c).2.
Proof.
  keep.
  - intros ch Hch. destruct (ck_open0 ch Hch). split; [done|lia].
  - intros ch Hch. specialize (ck_fresh0 ch Hch). lia.
Qed.

#[local] Hint Resolve ok_setLastError ok_connected ok_setAudioForwarder ok_detach ok_revoke ok_leave
  ok_mark ok_mark_job ok_targets ok_resolve ok_discard ok_remember ok_snapshot ok_lost ok_up
  ok_activity ok_remember_user ok_expire ok_received ok_forward_error ok_drop ok_delivered
  ok_receive ok_enqueue ok_speaking ok_recovery ok_new_ref ok_new_queue : inv.

(** *** The methods *)

Ltac walk := go_walk; eauto with inv nocore.

Lemma safe_connectGateway : isafe (fun _ => True) connectGateway.
Proof. unfold connectGateway, to_sink. walk. Qed.

Lemma safe_wait_stop o : isafe (fun _ => True) (waitForOpusForwardStop o).
Proof. unfold waitForOpusForwardStop. walk. Qed.
#[local] Hint Resolve safe_connectGateway safe_wait_stop : go.

Lemma safe_leave streamID : isafe (fun _ => True) (LeaveVoice streamID).
Proof. unfold LeaveVoice. walk. Qed.
#[local] Hint Resolve safe_leave : go.

Lemma safe_join_voice job : isafe (fun _ => True) (JoinVoice job).
Proof.
  unfold JoinVoice. destruct (blank (jGuildID job) || _ || _) eqn:Hb; [done|].
  assert (joinable job) as Hj by (unfold joinable; bool_hyps; by split_and!).
  walk. by apply ok_voice_join.
Qed.

Lemma safe_mark reason stop : isafe (fun _ => True) (markVoiceDisconnected reason stop).
Proof. unfold markVoiceDisconnected, mark_callback, to_sink. walk. Qed.

Lemma safe_mark_job reason stop job generation :
  isafe (fun _ => True) (markVoiceDisconnectedForJob reason stop job generation).
Proof. unfold markVoiceDisconnectedForJob, mark_callback, to_sink. walk. Qed.

Lemma safe_deliver_joins session sink events : isafe (fun _ => True) (deliver_joins session sink events).
Proof. induction events; cbn [deliver_joins]; walk. Qed.
#[local] Hint Resolve safe_mark safe_mark_job safe_deliver_joins : go.

Lemma safe_sync_targets session : isafe (fun _ => True) (syncAutoStartVoiceMembers session).
Proof. unfold syncAutoStartVoiceMembers. walk. Qed.
#[local] Hint Resolve safe_sync_targets : go.

Lemma safe_sync session job : isafe (fun _ => True) (syncVoiceParticipants session job).
Proof. unfold syncVoiceParticipants, sync_participants_gated. walk. Qed.
#[local] Hint Resolve safe_sync : go.

Lemma safe_offer session sink event targets : isafe (fun _ => True) (offer_join session sink event targets).
Proof. induction targets; cbn [offer_join]; walk. Qed.
#[local] Hint Resolve safe_offer : go.

Lemma safe_snapshot job : isafe (fun _ => True) (SnapshotVoiceParticipants job).
Proof. unfold SnapshotVoiceParticipants. walk. Qed.
#[local] Hint Resolve safe_snapshot : go.

Lemma safe_dispatch job generation userID speaking :
  isafe (fun _ => True) (dispatchActiveSpeakerState job generation userID speaking).
Proof. unfold dispatchActiveSpeakerState. walk. Qed.
#[local] Hint Resolve safe_dispatch : go.

Lemma safe_expired job generation expired : isafe (fun _ => True) (dispatch_expired job generation expired).
Proof. induction expired; cbn [dispatch_expired]; walk. Qed.
#[local] Hint Resolve safe_expired : go.

Lemma safe_record job generation userID now :
  isafe (fun _ => True) (recordAudioSpeakerActivity job generation userID now).
Proof. unfold recordAudioSpeakerActivity. walk. Qed.
#[local] Hint Resolve safe_record : go.

Lemma safe_resolve ssrc now f : isafe (fun _ => True) (resolve_user ssrc now f).
Proof.
  unfold resolve_user, userForSSRC, resolveSSRCUserID, resolveFallbackUser, uniqueHumanVoiceParticipant.
  walk.
Qed.
#[local] Hint Resolve safe_resolve : go.

Lemma safe_flush_sources force now sources f : isafe (fun _ => True) (flush_sources force now sources f).
Proof.
  revert f. induction sources as [|[ssrc buffered] sources IH]; intros f; cbn [flush_sources]; [done|].
  unfold flush_source. walk.
Qed.
#[local] Hint Resolve safe_flush_sources : go.

Lemma safe_flush_if due caption now f : isafe (fun _ => True) (flush_if due caption now f).
Proof. unfold flush_if, flush, enqueueOpusForwardBatch. walk. Qed.
#[local] Hint Resolve safe_flush_if : go.

Lemma safe_wait_targets dones : isafe (fun _ => True) (wait_targets dones).
Proof. induction dones; cbn [wait_targets]; walk. Qed.
#[local] Hint Resolve safe_wait_targets : go.

Lemma safe_forward_end f : isafe (fun _ => True) (forward_end f).
Proof. unfold forward_end. walk; rekeep. Qed.
#[local] Hint Resolve safe_forward_end : go.

Lemma safe_forward_turn f : isafe (fun _ => True) (forward_turn f).
Proof.
  unfold forward_turn, forward_tick, forward_packet, caption_packet, flushExpiredUnresolved,
    expireIdleAudioSpeakers. walk.
Qed.

Lemma safe_embed {S2 A} {F : Type -> Type} (handle : forall X, F X -> cprog X)
    (p : prog S2 F Empty_set Empty_set A) s2 :
  (forall X (e : F X), isafe (fun _ => True) (handle X e)) -> isafe (fun _ => True) (embed handle p s2).
Proof.
  intros Hh. revert s2. induction p as [a|X f k IH|X e k IH|d c k IH|[]|[]|[]]; intros s2; cbn [embed].
  - done.
  - destruct (f s2). apply IH.
  - apply safe_seq_rule; [apply Hh|]. intros x. apply IH.
  - intros b. apply IH.
Qed.

Lemma safe_client_code l : isafe (fun _ => True) (client_code l).
Proof.
  destruct l; cbn [client_code]; unfold DiscordPool.done, Connect, ReconcileGateway, reconcile_gateway,
    revokeGateway, SetAutoStartVoiceTargets, AutoStartVoicePresence, SendMessage, ReadStatus,
    onGatewayDisconnect, onReady, onGatewayResumed, onGatewayUp, onGuildCreate, onVoiceStateUpdate,
    offer_auto_start, offer_untargeted, onAutoStartMemberIdentity, onMessageCreate,
    onVoiceSpeakingUpdate, syncCurrentVoiceParticipants, watchDAVE, forwardOpus, start_target, target_turn,
    stop_monitor, to_sink;
    lazymatch goal with |- safe _ _ _ _ (forward_turn _) => apply safe_forward_turn | _ => idtac end;
    try (walk; try apply safe_join_voice; try rekeep; fail).
  unfold watch_tick. walk. apply safe_embed. intros X []; cbn [dave_handler];
    unfold remoteVoiceParticipantPresent; walk.
Qed.
End Invariant.

Section Properties.
Context `{NetURL} `{MapRange}.

(** C3: the Discord client's state stays well formed in every interleaving of SDK
    events, calls of the job manager and the client's goroutines. The stop
    channel of the audio goroutine in use is open, and no stop channel is ever
    closed twice; a client without a voice connection has no connection, no known
    or active speaker, no audio status and no current channel; a client with one
    has a complete job, whose guild and channel the status shows; at most 256
    joins of unknown identity are kept; and no error text in the status holds a
    word that may reveal a credential. *)
Theorem client_invariant s0 p : client_ok s0 -> clients s0 p -> client_ok (p_state p).
Proof.
  intros Hs0 Hp.
  apply (pool_invariant client_code client_entry hxClock client_advance client_ok (fun _ _ => True)
           (fun _ => True)) with (s0 := s0); try done.
  - intros l _. eapply safe_mono; [|apply safe_client_code]. by intros [l'|].
  - intros d s _. by keep.
Qed.

(** The session of a Gateway event. *)
Definition event_session (l : ClLabel) : option nat :=
  match l with
  | EOnGatewayDisconnect s | EOnReady s | EOnGatewayResumed s | EOnGuildCreate s _
  | EOnVoiceStateUpdate s _ | EOnMemberIdentity s _ | EOnMessageCreate s _ => Some s
  | _ => None
  end.

(** C23: a Gateway session that was revoked or replaced cannot act any more.
    Whatever event the SDK still delivers for it, the handler ends without a
    call, without starting anything and without changing the client's state. *)
Theorem replaced_session_is_ignored en n l s c :
  event_session l = Some s -> clSession c <> Some s -> run en (client_code l) n c = (None, c, []).
Proof.
  intros Hl Hs.
  assert (stale_session (Some s) c = true) as Hst by (simpl; by rewrite bool_decide_false).
  assert (forall g ch u r, discardObsoleteAutoStartJoins (Some s) g ch u r c = c) as Hd
    by (intros; unfold discardObsoleteAutoStartJoins; by rewrite bool_decide_false by done).
  destruct l; try done; injection Hl as ->; cbn [client_code]; unfold DiscordPool.done.
  - unfold onGatewayDisconnect, gateway_lost_section. cbn [bind atomic run]. by rewrite Hst.
  - unfold onReady, onGatewayUp, gateway_up_section. cbn [bind atomic run]. by rewrite Hst.
  - unfold onGatewayResumed, onGatewayUp, gateway_up_section. cbn [bind atomic run]. by rewrite Hst.
  - unfold onGuildCreate. destruct guildID as [g|]; [|done]. cbn [bind read run]. by rewrite Hst.
  - unfold onVoiceStateUpdate. destruct event as [e|]; [|done]. cbn [bind read run]. by rewrite Hst.
  - unfold onAutoStartMemberIdentity. destruct member as [m|]; [|done].
    destruct (meUser m) as [u|]; [|done]. destruct (blank (meGuildID m) || blank (usID u)); [done|].
    unfold syncAutoStartVoiceMembers. destruct (usBot u); cbn [bind modify read run];
      rewrite ?Hd, Hst; done.
  - unfold onMessageCreate. destruct message as [m|]; [|done]. destruct (msAuthor m) as [a|]; [|done].
    cbn [bind read run]. case_match; [done|]. cbn [bind read run]. by rewrite Hst.
Qed.
End Properties.

(** ** Witness: the joined client of [DiscordPool] *)
Module Sample.
Import History.

Lemma client_invariant_witness :
  client_ok start /\ suVoiceConnected (clStatus (p_state joined_pool)) = true /\
  voice_joined (p_state joined_pool).
Proof.
  assert (client_ok start) as H0
    by (split; simpl; try done; unfold errors_clean, voice_gone; try done; set_solver).
  assert (suVoiceConnected (clStatus (p_state joined_pool)) = true) as Hc by (vm_compute; reflexivity).
  split; [exact H0|]. split; [exact Hc|].
  exact (ck_joined _ (client_invariant start joined_pool H0 (history_reachable _)) Hc).
Defined.

(** Session 9 is not the selected one. *)
Lemma replaced_session_is_ignored_witness :
  clSession (p_state joined_pool) = Some 1%nat /\
  run (Build_env (fun X _ e c => (ans X e, c)) (fun _ _ _ c => (true, c)))
    (client_code (EOnGatewayDisconnect 9)) 0 (p_state joined_pool) = (None, p_state joined_pool, []).
Proof.
  split; [vm_compute; reflexivity|].
  apply (replaced_session_is_ignored _ _ _ 9%nat); [reflexivity|]. vm_compute. discriminate.
Defined.
End Sample.
