(* ===== verification/ClientLocks.v ===== *)
(** * ClientLocks: the Discord client's mutexes are always released

    The client takes [gatewayMu] before [speakerDispatchMu] and never the other
    way round, takes [participantSyncMu] alone, releases what it takes on every
    path, and waits under a mutex only with a timer.  [client_mutex_served] is
    the liveness that follows. *)

From S2P Require Import Prelude Conc Gate LockOrder Errors Types Secrets SdkState DaveWatch.
From S2P Require Import AudioForward DiscordClient DiscordEvents SpeakerForward DiscordPool.

Open Scope go_scope.

(** The order in which the client takes its mutexes. *)
Definition client_rank (mu : ClMutex) : nat :=
  match mu with gatewayMu => 0 | participantSyncMu => 1 | speakerDispatchMu => 2 end.

(** Waits under a mutex have a timer. *)
Definition with_timer (d : option Duration) : Prop := is_Some d.

Definition any_call X (hs : gset ClMutex) (e : DcCall X) : Prop := True.

Section ClientLocks.
Context `{NetURL} `{MapRange}.

Abbreviation ord := (balanced client_rank with_timer any_call).
Abbreviation may := (below client_rank).

(** *** Text that takes no mutex *)

Lemma ord_to_sink hs sink event : ord hs (to_sink sink event).
Proof. unfold to_sink. order_walk. Qed.

Lemma ord_connectGateway hs : ord hs connectGateway.
Proof. unfold connectGateway. order_walk. apply ord_to_sink. Qed.

Lemma ord_wait_stop hs o : ord hs (waitForOpusForwardStop o).
Proof. unfold waitForOpusForwardStop. order_walk. Qed.

Lemma ord_mark_callback hs reason marked : ord hs (mark_callback reason marked).
Proof. unfold mark_callback. order_walk. apply ord_to_sink. Qed.

#[local] Hint Resolve ord_to_sink ord_connectGateway ord_wait_stop ord_mark_callback : order.

Lemma ord_ReadStatus hs : ord hs ReadStatus.
Proof. unfold ReadStatus. order_walk. Qed.

Lemma ord_presence hs target : ord hs (AutoStartVoicePresence target).
Proof. unfold AutoStartVoicePresence. order_walk. Qed.

Lemma ord_deliver hs session sink events : ord hs (deliver_joins session sink events).
Proof. induction events; cbn [deliver_joins]; order_walk. Qed.

Lemma ord_sync_targets hs session : ord hs (syncAutoStartVoiceMembers session).
Proof. unfold syncAutoStartVoiceMembers. order_walk; apply ord_deliver. Qed.

#[local] Hint Resolve ord_sync_targets : order.

Lemma ord_set_targets hs targets : ord hs (SetAutoStartVoiceTargets targets).
Proof. unfold SetAutoStartVoiceTargets. order_walk. Qed.

Lemma ord_member hs session member : ord hs (onAutoStartMemberIdentity session member).
Proof. unfold onAutoStartMemberIdentity. order_walk. Qed.

Lemma ord_message hs session message : ord hs (onMessageCreate session message).
Proof. unfold onMessageCreate. order_walk. Qed.

Lemma ord_send hs message : ord hs (SendMessage message).
Proof. unfold SendMessage. order_walk. Qed.

Lemma ord_offer hs session sink event targets : ord hs (offer_join session sink event targets).
Proof. induction targets; cbn [offer_join]; order_walk. Qed.

Lemma ord_offer_auto_start hs session view f member known :
  ord hs (offer_auto_start session view f member known).
Proof. unfold offer_auto_start, offer_untargeted. order_walk; apply ord_offer. Qed.

Lemma ord_userForSSRC hs ssrc generation : ord hs (userForSSRC ssrc generation).
Proof. unfold userForSSRC, resolveSSRCUserID. order_walk. Qed.

Lemma ord_enqueue hs job generation caption queue batch :
  ord hs (enqueueOpusForwardBatch job generation caption queue batch).
Proof. unfold enqueueOpusForwardBatch. order_walk. Qed.

#[local] Hint Resolve ord_enqueue : order.

Lemma ord_flush hs caption f : ord hs (flush caption f).
Proof. unfold flush. order_walk. Qed.

#[local] Hint Resolve ord_flush : order.

Lemma ord_flush_if hs due caption now f : ord hs (flush_if due caption now f).
Proof. unfold flush_if. order_walk. Qed.

#[local] Hint Resolve ord_presence ord_set_targets ord_member ord_message ord_send ord_ReadStatus
  ord_offer_auto_start ord_userForSSRC ord_flush_if : order.

(** *** Text that waits without a timer holds no mutex *)

Lemma ord_wait_targets dones : ord ∅ (wait_targets dones).
Proof. induction dones; cbn [wait_targets]; order_walk. Qed.

Lemma ord_forward_end f : ord ∅ (forward_end f).
Proof. unfold forward_end. order_walk. apply ord_wait_targets. Qed.

Lemma ord_target_turn ctx job generation forwarder source target d :
  ord ∅ (target_turn ctx job generation forwarder source target d).
Proof. unfold target_turn. order_walk. Qed.

Lemma ord_forwardOpus job generation stop d forwarder source :
  ord ∅ (forwardOpus job generation stop d forwarder source).
Proof. unfold forwardOpus, start_target. order_walk. Qed.

Lemma ord_stop_monitor stop monitorDone ctx : ord ∅ (stop_monitor stop monitorDone ctx).
Proof. unfold stop_monitor. order_walk. Qed.

Lemma ord_watch_tick ctx job voice generation w : ord ∅ (watch_tick ctx job voice generation w).
Proof.
  unfold watch_tick. order_walk. apply balanced_embed; [|by left].
  intros X []; cbn [dave_handler]; unfold remoteVoiceParticipantPresent; order_walk.
Qed.

(** *** Text that takes a mutex *)

Lemma ord_dispatch job generation userID speaking :
  ord ∅ (dispatchActiveSpeakerState job generation userID speaking).
Proof. unfold dispatchActiveSpeakerState. order_walk. Qed.

Lemma ord_snapshot hs job : may hs participantSyncMu -> ord hs (SnapshotVoiceParticipants job).
Proof. intros Hb. unfold SnapshotVoiceParticipants. order_walk. Qed.

Lemma ord_sync hs session job : may hs participantSyncMu -> ord hs (syncVoiceParticipants session job).
Proof. intros Hb. unfold syncVoiceParticipants, sync_participants_gated. order_walk. Qed.

Lemma ord_mark hs reason stop : may hs speakerDispatchMu -> ord hs (markVoiceDisconnected reason stop).
Proof. intros Hb. unfold markVoiceDisconnected. order_walk. Qed.

Lemma ord_mark_job hs reason stop job generation :
  may hs speakerDispatchMu -> ord hs (markVoiceDisconnectedForJob reason stop job generation).
Proof. intros Hb. unfold markVoiceDisconnectedForJob. order_walk. Qed.

Lemma ord_leave hs streamID : may hs speakerDispatchMu -> ord hs (LeaveVoice streamID).
Proof. intros Hb. unfold LeaveVoice. order_walk. Qed.

Lemma ord_connect hs : may hs gatewayMu -> ord hs Connect.
Proof. intros Hb. unfold Connect. order_walk. Qed.

Lemma ord_join hs job : may hs gatewayMu -> may hs speakerDispatchMu -> ord hs (JoinVoice job).
Proof. intros Hb Hs. unfold JoinVoice. order_walk.
Qed.

Lemma ord_reconcile hs token selected :
  may hs gatewayMu -> may hs speakerDispatchMu -> ord hs (ReconcileGateway token selected).
Proof.
  intros Hb Hs. unfold ReconcileGateway, reconcile_gateway, revokeGateway. order_walk.
  apply ord_leave. below_solve.
Qed.

#[local] Hint Resolve ord_dispatch : order.
#[local] Hint Extern 1 (balanced _ _ _ ∅ (SnapshotVoiceParticipants _)) => apply ord_snapshot, below_empty : order.

Lemma ord_record job generation userID now : ord ∅ (recordAudioSpeakerActivity job generation userID now).
Proof. unfold recordAudioSpeakerActivity. order_walk. Qed.

Lemma ord_expire job generation now : ord ∅ (expireIdleAudioSpeakers job generation now).
Proof.
  unfold expireIdleAudioSpeakers. order_walk.
  match goal with |- ord ∅ (dispatch_expired _ _ ?l) => induction l; cbn [dispatch_expired]; order_walk end.
Qed.

Lemma ord_resolve_user ssrc now f : ord ∅ (resolve_user ssrc now f).
Proof. unfold resolve_user, resolveFallbackUser, uniqueHumanVoiceParticipant. order_walk. Qed.

#[local] Hint Resolve ord_record ord_expire ord_resolve_user ord_forward_end : order.

Lemma ord_flush_expired now force f : ord ∅ (flushExpiredUnresolved now force f).
Proof.
  unfold flushExpiredUnresolved. generalize (map_range (fwUnresolved f)). intros sources.
  revert f. induction sources as [|[ssrc buffered] sources IH]; intros f; cbn [flush_sources]; [done|].
  unfold flush_source. order_walk.
Qed.

#[local] Hint Resolve ord_flush_expired : order.

Lemma ord_forward_turn f : ord ∅ (forward_turn f).
Proof.
  unfold forward_turn, forward_tick, forward_packet, caption_packet. order_walk.
  all: apply ord_mark_job, below_empty.
Qed.

#[local] Hint Resolve ord_watch_tick ord_forwardOpus ord_target_turn ord_stop_monitor ord_forward_turn : order.

Lemma ord_sync_current session : ord ∅ (syncCurrentVoiceParticipants session).
Proof. unfold syncCurrentVoiceParticipants. order_walk. apply ord_sync, below_empty. Qed.

#[local] Hint Resolve ord_sync_current : order.

Lemma ord_gateway_up resumed session : ord ∅ (onGatewayUp resumed session).
Proof. unfold onGatewayUp. order_walk. Qed.

Lemma ord_voice_state session event : ord ∅ (onVoiceStateUpdate session event).
Proof. unfold onVoiceStateUpdate. order_walk. all: apply ord_mark, below_empty. Qed.

Lemma ord_guild_create session guildID : ord ∅ (onGuildCreate session guildID).
Proof. unfold onGuildCreate. order_walk. all: apply ord_sync, below_empty. Qed.

Lemma ord_speaking voice event : ord ∅ (onVoiceSpeakingUpdate voice event).
Proof. unfold onVoiceSpeakingUpdate. order_walk. Qed.

Lemma ord_code l : ord ∅ (client_code l).
Proof.
  destruct l; cbn [client_code]; unfold DiscordPool.done, onReady, onGatewayResumed, onGatewayDisconnect,
    watchDAVE; order_walk;
    first [apply ord_connect|apply ord_reconcile|apply ord_join|apply ord_leave|apply ord_gateway_up
          |apply ord_voice_state|apply ord_guild_create|apply ord_speaking];
    apply below_empty.
Qed.

Lemma client_code_ordered l :
  ordered client_rank with_timer any_call LockOrder.ends ∅ (client_code l).
Proof. eapply ordered_mono; [|apply ord_code]. by intros hs a ->. Qed.

Lemma client_rank_le mu : (client_rank mu <= 2)%nat.
Proof. destruct mu; simpl; lia. Qed.

(** The client left to itself: time passes and its goroutines run on, and
    nothing new is asked of it. *)
Definition client_progress (p p' : pool RealClient DcCall ClLabel ClMutex _ _) : Prop :=
  rtc (progress client_code hxClock client_advance) p p'.

(** C8: no goroutine of the client waits for a mutex for ever. In every
    interleaving, from any pool in which a goroutine waits for [gatewayMu],
    [participantSyncMu] or [speakerDispatchMu], that goroutine can get it with
    nothing new asked of the client: time passes and the goroutines that hold
    mutexes run on to their release, provided the calls they make return
    ([ans]). *)
Theorem client_mutex_served (ans : forall X, DcCall X -> X) s0 p mu k :
  clients s0 p -> Running (Lock mu k) ∈ p_threads p ->
  exists p', client_progress p p' /\ (mu ∈ p_held p') /\ Running k ∈ p_threads p'.
Proof.
  intros Hr Hin. eapply (lock_served client_rank with_timer any_call); try done.
  - apply client_code_ordered.
  - apply client_rank_le.
  - intros d s. simpl. lia.
Qed.
End ClientLocks.

(** ** Witness: a replacement of the Gateway while a voice join holds its mutex *)
Module Sample.
Import History.

Definition contended := run_history (connect ++ step 3 (EJoinVoice job) I ++ step 0 (EReconcileGateway "other" true) I).

Definition next_lock (p : pool RealClient DcCall ClLabel ClMutex _ _) : option ClMutex :=
  match p_threads p with Running (Lock mu _) :: _ => Some mu | _ => None end.

Lemma next_lock_thread p mu : next_lock p = Some mu -> exists k, Running (Lock mu k) ∈ p_threads p.
Proof.
  unfold next_lock. destruct (p_threads p) as [|[[| | | |mu' k| |]|] l]; try done.
  intros [= ->]. exists k. apply list_elem_of_here.
Qed.

Lemma client_mutex_served_witness :
  next_lock contended = Some gatewayMu /\ (gatewayMu ∈ p_held contended) /\
  exists k p', client_progress contended p' /\ (gatewayMu ∈ p_held p') /\ Running k ∈ p_threads p'.
Proof.
  assert (next_lock contended = Some gatewayMu) as Hn by (vm_compute; reflexivity).
  split; [exact Hn|]. split; [apply (bool_decide_eq_true_1 (gatewayMu ∈ p_held contended)); vm_compute; reflexivity|].
  destruct (next_lock_thread _ _ Hn) as [k Hk]. exists k.
  exact (client_mutex_served ans start contended gatewayMu k (history_reachable _) Hk).
Defined.
End Sample.
