(* ===== verification/Goroutines.v ===== *)
(** * Goroutines: the manager under every interleaving

    [code] maps each entry point and goroutine to its text; [managers s0] is the
    set of pools reachable from [s0] when entry points are called at any time
    and goroutines interleave node by node.  [manager_ok] is the invariant of
    the shared state that every section keeps. *)

From S2P Require Import Prelude Conc Errors Types RetryQueue Manager AutoStopState.
From S2P Require Import WorkerReporting Participants AutoStart AutoStop VoiceDefaults Lifecycle.
From S2P Require Import Notification.

Open Scope go_scope.

Section Code.
Context `{MapRange} (sum256 : string -> string).

Definition done {A} (p : mprog A) : mprog (option label) := do* p in ret None.

Definition code (l : label) : mprog (option label) :=
  match l with
  | EStart job => done (Start job)
  | EStop streamID => done (Stop streamID)
  | EDiscordConnected => done DiscordConnected
  | EDiscordDisconnected reason => done (DiscordDisconnected reason)
  | EParticipantChanged event => done (ParticipantChanged event)
  | EParticipantsSynced snapshot => done (ParticipantsSynced snapshot)
  | EActiveSpeakerStateChanged streamID userID speaking =>
      done (ActiveSpeakerStateChanged streamID userID speaking)
  | ESetActiveSpeaker streamID userID => done (SetActiveSpeaker streamID userID)
  | EChatMessageReceived event => done (ChatMessageReceived event)
  | EVoiceUserJoined event => done (VoiceUserJoined event)
  | ESetVoiceDefaults defaults => done (modify (SetVoiceDefaults defaults))
  | ESetStreamVoiceDefaults defaults => done (SetStreamVoiceDefaults defaults)
  | ESetExecutionAuthorityStreams streams =>
      done (modify (SetExecutionAuthorityStreams streams))
  | ESetReconnectPolicy policy => done (modify (SetReconnectPolicy policy))
  | ESetStreamStarter starter => done (modify (SetStreamStarter starter))
  | ESetStreamStopper stopper => done (modify (SetStreamStopper stopper))
  | ESetAutoStartRefresher refresher => done (modify (SetAutoStartRefresher refresher))
  | ENotifyYouTubeLive ctx streamID eventID channelID watchURL =>
      done (NotifyYouTubeLive sum256 ctx streamID eventID channelID watchURL)
  | ECancelRequest ctx => done (modify (cancelContext ctx))
  | GQueueLoop queue => queueLoop queue
  | GKeepSynced ctx job generation => keepVoiceParticipantsSynced ctx job generation
  | GKeepTick ctx job generation interval => keep_tick ctx job generation interval
  | GAutoStopWhenEmpty streamID observation stopper delay =>
      autoStopWhenEmpty streamID observation stopper delay
  | GRejoin job policy generation => rejoinVoiceWithBackoff job policy generation
  | GAutoStart streamID retryCtx retry starter refresher event =>
      autoStartGoroutine streamID retryCtx retry starter refresher event
  | GReconcileRejoin sourceStreamID => reconcileAutoStopRejoin sourceStreamID
  end.

(** The labels the outside may start; the others are started by [spawn]. *)
Definition is_entry (l : label) : Prop :=
  match l with
  | GQueueLoop _ | GKeepSynced _ _ _ | GKeepTick _ _ _ _ | GAutoStopWhenEmpty _ _ _ _
  | GRejoin _ _ _ | GAutoStart _ _ _ _ _ _ | GReconcileRejoin _ => False
  | _ => True
  end.

Definition advance (d : Duration) (m : Manager) : Manager := m <| hClock ::= Z.add d |>.

Definition managers (s0 : Manager) (p : pool Manager ExtCall label mutex _ _) : Prop :=
  reachable code is_entry hClock advance s0 p.
End Code.

(** ** The invariant *)

(** A job [Start] accepted: it names its stream, guild and voice channel. *)
Definition live_job (job : VoiceJob) : Prop :=
  blank (jStreamID job) = false /\ blank (jGuildID job) = false /\
  blank (jVoiceChannelID job) = false.

Record manager_ok (m : Manager) : Prop := {
  mo_current : mCurrent m = zeroVoiceJob \/ live_job (mCurrent m);
  mo_idle : jStreamID (mCurrent m) = "" ->
    mParticipants m = ∅ /\ mStopping m = false /\ mWorkerRetry m = None;
  mo_stopping : mStopping m = true -> mWorkerRetry m = None;
  mo_participants : forall k p, mParticipants m !! k = Some p -> pUserID p = k /\ blank k = false;
  mo_speakers : forall k b, mActiveSpeakers m !! k = Some b ->
    b = true /\ is_Some (mParticipants m !! k);
  mo_speaker : mActiveSpeaker m = "" \/ mActiveSpeakers m !! mActiveSpeaker m = Some true;
  mo_queues : forall q qu, hQueues m !! q = Some qu -> queue_wf qu;
  mo_worker : forall q, mWorkerRetry m = Some q -> is_Some (hQueues m !! q);
  mo_attempts : forall id n, mAutoStopAttempts m !! id = Some n ->
    0 <= n <= Z.of_nat (length (mAutoStopRetryDelays m));
  mo_receipts : mlen (mNotificationReceipts m) <= maxNotificationReceipts }.

(** Goroutines carry a live job, or the stream they start. *)
Definition label_ok (l : label) : Prop :=
  match l with
  | GRejoin job _ _ => live_job job
  | GAutoStart streamID _ _ _ _ _ => streamID <> ""
  | _ => True
  end.

(** Calls name what they act on. *)
Definition call_ok {X} (e : ExtCall X) : Prop :=
  match e with
  | JoinVoice job => live_job job
  | LeaveVoice streamID => streamID <> ""
  | StartStream _ streamID => streamID <> ""
  | SendMessage _ message => omChannelID message <> ""
  | _ => True
  end.

Abbreviation msafe :=
  (@safe Manager ExtCall label mutex manager_ok (fun _ e => call_ok e) label_ok _).

(** ** Sections that leave the invariant's fields alone *)

(** Splits the invariant field by field; fields whose components are untouched
    close by conversion. *)
Ltac keep :=
  let H := fresh in
  intros H; destruct H as [? ? ? ? ? ? ? ? ? ?]; split; simpl in *; try assumption.

Lemma ok_cancelContext c m : manager_ok m -> manager_ok (cancelContext c m).
Proof. keep. Qed.

Lemma ok_cancelSync m : manager_ok m -> manager_ok (cancelParticipantSync m).
Proof. unfold cancelParticipantSync. case_match; [apply ok_cancelContext|done]. Qed.

Lemma ok_restartSync m : manager_ok m -> manager_ok (restartParticipantSyncLocked m).2.
Proof. intros Hm%ok_cancelSync. revert Hm. unfold restartParticipantSyncLocked. simpl. keep. Qed.

Lemma ok_lastEvent t m : manager_ok m -> manager_ok (m <| mLastEventAt := t |>).
Proof. keep. Qed.

Lemma ok_generation f m : manager_ok m -> manager_ok (m <| mReconnectGeneration ::= f |>).
Proof. keep. Qed.

Lemma ok_pending f m : manager_ok m -> manager_ok (m <| mAutoStartPending ::= f |>).
Proof. keep. Qed.

Lemma ok_stopped f m : manager_ok m -> manager_ok (m <| mAutoStartStopped ::= f |>).
Proof. keep. Qed.

Lemma ok_intents f m : manager_ok m -> manager_ok (m <| mRejoinIntents ::= f |>).
Proof. keep. Qed.

Lemma ok_advance d m : 0 <= d -> manager_ok m -> manager_ok (advance d m).
Proof. intros _. keep. Qed.

(** ** Retry queues *)

Lemma ok_onQueue q f m :
  (forall qu, queue_wf qu -> queue_wf (f qu)) -> manager_ok m -> manager_ok (onQueue q f m).
Proof.
  intros Hf. keep.
  - intros q' qu. rewrite lookup_alter_Some.
    intros [(-> & qu0 & Hqu & ->)|[_ Hqu]]; [apply Hf|]; by eapply mo_queues0.
  - intros q' Hq'. specialize (mo_worker0 _ Hq'). by apply lookup_alter_is_Some.
Qed.

Lemma ok_newQueue m : manager_ok m -> manager_ok (newQueue m).2.
Proof.
  keep.
  - intros q qu [[_ <-]|[_ Hqu]]%lookup_insert_Some; [apply new_wf|by eapply mo_queues0].
  - intros q Hq. apply lookup_insert_is_Some'. right. by apply mo_worker0.
Qed.

Lemma getQueue_wf q m : manager_ok m -> queue_wf (getQueue q m).
Proof.
  intros Hm. unfold getQueue. destruct (hQueues m !! q) eqn:E; simpl; [|apply new_wf].
  by eapply mo_queues.
Qed.

(** ** Auto-stop and rejoin sections *)

Lemma ok_attempts_delete id m : manager_ok m -> manager_ok (m <| mAutoStopAttempts ::= delete id |>).
Proof. keep. intros k n [_ Hn]%lookup_delete_Some. by eapply mo_attempts0. Qed.

Lemma ok_attempts_insert id n m :
  0 <= n <= Z.of_nat (length (mAutoStopRetryDelays m)) ->
  manager_ok m -> manager_ok (m <| mAutoStopAttempts ::= insert id n |>).
Proof.
  intros Hn. keep. intros k n' [[<- <-]|[_ Hn']]%lookup_insert_Some; [done|by eapply mo_attempts0].
Qed.

Lemma ok_clearInFlight id g m : manager_ok m -> manager_ok (clearAutoStopInFlightLocked id g m).
Proof. unfold clearAutoStopInFlightLocked. repeat case_match; keep. Qed.

Lemma ok_invalidate id m : manager_ok m -> manager_ok (invalidateAutoStopLocked id m).
Proof.
  unfold invalidateAutoStopLocked. cbv zeta. case_match; [done|].
  intros Hm%(ok_attempts_delete (TrimSpace id)). revert Hm. keep.
Qed.

Lemma ok_cancelAutoStop id m : manager_ok m -> manager_ok (cancelAutoStopLocked id m).
Proof.
  intros Hm. unfold cancelAutoStopLocked. cbv zeta. case_match; [done|].
  apply ok_invalidate. case_match; [|done]. revert Hm. keep.
Qed.

Lemma ok_finishAutoStop id g m : manager_ok m -> manager_ok (finishAutoStopLocked id g m).
Proof.
  intros Hm%(ok_clearInFlight id g). unfold finishAutoStopLocked. cbv zeta. case_match; [done|].
  apply (ok_attempts_delete id) in Hm. revert Hm. keep.
Qed.

Lemma ok_recordIntent s g v m : manager_ok m -> manager_ok (recordAutoStopRejoinIntentLocked s g v m).
Proof. unfold recordAutoStopRejoinIntentLocked. repeat case_match; keep. Qed.

Lemma ok_updateAutoStop job now source rev m :
  manager_ok m -> manager_ok (updateAutoStopForParticipantSetLocked job now source rev m).2.
Proof.
  intros Hm. unfold updateAutoStopForParticipantSetLocked. case_match; simpl.
  { apply ok_cancelAutoStop. case_match; [by apply ok_recordIntent|done]. }
  case_match; simpl; [|done]. case_match; simpl; [done|].
  apply (ok_attempts_insert (jStreamID job) 0) in Hm; [|lia]. revert Hm. keep.
Qed.

(** ** Auto-start sections *)

Lemma ok_cancelRetry id m : manager_ok m -> manager_ok (cancelAutoStartRetryLocked id m).
Proof. unfold cancelAutoStartRetryLocked. case_match; keep. Qed.

Lemma fold_ok {X} (f : Manager -> X -> Manager) l m :
  (forall m x, manager_ok m -> manager_ok (f m x)) -> manager_ok m -> manager_ok (fold_left f l m).
Proof. intros Hf. revert m. induction l as [|x l IH]; simpl; auto. Qed.

Lemma ok_shouldLog key now m : manager_ok m -> manager_ok (shouldLogAutoStartLocked key now m).2.
Proof. unfold shouldLogAutoStartLocked. case_match; keep. Qed.

Lemma ok_finishRetry id r m : manager_ok m -> manager_ok (finishAutoStartRetry id r m).
Proof.
  intros Hm. unfold finishAutoStartRetry. cbv zeta. apply ok_cancelContext.
  case_match; [|done]. case_match; revert Hm; keep.
Qed.

Lemma ok_noteCapacity id r e m : manager_ok m -> manager_ok (noteAutoStartCapacityResult id r e m).
Proof. unfold noteAutoStartCapacityResult. case_match; keep. Qed.

Section Sections.
Context `{MapRange}.

Lemma ok_cancelAllRetries m : manager_ok m -> manager_ok (cancelAllAutoStartRetriesLocked m).
Proof. apply fold_ok. intros. by apply ok_cancelRetry. Qed.

Lemma ok_presence id r p k m : manager_ok m -> manager_ok (presence_section id r p k m).2.
Proof.
  intros Hm. unfold presence_section. case_match; simpl; [done|]. case_match; simpl; [|done].
  by apply ok_pending, ok_cancelRetry.
Qed.

Lemma ok_join event now m : manager_ok m -> manager_ok (join_section event now m).2.
Proof.
  intros Hm. unfold join_section. cbv zeta. repeat case_match; simpl; try done;
    auto using ok_cancelAutoStop, ok_recordIntent; revert Hm; keep.
Qed.

Lemma ok_reserve id event now m : manager_ok m -> manager_ok (reserve_section id event now m).2.
Proof.
  intros Hm. unfold reserve_section.
  case_match; simpl; [done|]. case_match; simpl; [by apply ok_shouldLog|].
  case_match; simpl; [|by apply ok_shouldLog]. case_match; simpl; [done|].
  repeat case_match; simpl; try done; revert Hm; keep.
Qed.

(** ** Voice defaults *)

Lemma ok_set_stream_defaults defaults m :
  manager_ok m -> manager_ok (set_stream_defaults defaults m).2.
Proof.
  intros Hm. unfold set_stream_defaults. simpl.
  apply fold_ok.
  { intros m' [id st] Hm'. unfold prune_stopped_entry. repeat case_match; try done.
    revert Hm'. keep. }
  apply fold_ok.
  { intros m' id Hm'. unfold prune_retry. cbv zeta. case_match; [by apply ok_cancelRetry|done]. }
  apply ok_pending. unfold retain_epochs. repeat case_match; revert Hm; keep.
Qed.

(** ** Reports *)

Lemma ok_recordFailure e s now m : manager_ok m -> manager_ok (record_failure_locked e s now m).
Proof. unfold record_failure_locked. cbv zeta. case_match; keep. Qed.

Lemma ok_queue_enqueue q r m : manager_ok m -> manager_ok (queue_enqueue q r m).2.
Proof.
  intros Hm. unfold queue_enqueue.
  pose proof (enqueue_wf (hClock m) r _ (getQueue_wf q m Hm)) as Hwf.
  destruct (enqueue _ _ _) as [b qu]. simpl in *. by apply ok_onQueue.
Qed.

Lemma ok_queue_next q now m : manager_ok m -> manager_ok (queue_next q now m).2.
Proof.
  intros Hm. unfold queue_next.
  pose proof (next_wf now (hClock m) _ (getQueue_wf q m Hm)) as Hwf.
  destruct (next _ _ _) as [r qu]. simpl in *. by apply ok_onQueue.
Qed.

(** The reports the loop is handed have attempts left. *)
Lemma queue_next_attempts q now m r :
  manager_ok m -> (queue_next q now m).1 = NextReady r -> 0 <= rAttempts r.
Proof.
  intros Hm. unfold queue_next.
  destruct (next now (hClock m) (getQueue q m)) as [res qu] eqn:E. simpl. intros ->.
  pose proof (getQueue_wf q m Hm) as Hwf.
  destruct (next_ready _ _ _ _ _ Hwf E) as (Hr & _).
  by destruct (wf_attempts _ Hwf _ _ Hr).
Qed.

(** ** Participants and speakers *)

Lemma merge_userID userID n a b now old : pUserID (merge_participant userID n a b now old) = userID.
Proof. by destruct old. Qed.

Lemma anyActiveSpeaker_spec active :
  anyActiveSpeaker active = "" \/ active !! anyActiveSpeaker active = Some true.
Proof.
  unfold anyActiveSpeaker. destruct (list_find _ _) as [[i [k b]]|] eqn:E; [|by left]. right.
  apply list_find_Some in E as (Hin & Hb & _). simpl in Hb. subst.
  apply elem_of_range. by eapply list_elem_of_lookup_2.
Qed.

Lemma snapshot_participants_ok now old items :
  forall k p, snapshot_participants now old items !! k = Some p -> pUserID p = k /\ blank k = false.
Proof.
  unfold snapshot_participants. apply (fold_left_ind
    (fun acc => forall k p, acc !! k = Some p -> pUserID p = k /\ blank k = false)).
  - intros k p. by rewrite lookup_empty.
  - intros acc item _ IH k p. cbv zeta. case_match eqn:E; [by apply IH|].
    intros [[<- <-]|[_ Hp]]%lookup_insert_Some; [|by apply IH].
    rewrite merge_userID, blank_TrimSpace. auto.
Qed.

Lemma ok_revision m : manager_ok m -> manager_ok (m <| mParticipantStateRevision ::= succ_u64 |>).
Proof. keep. Qed.

Lemma ok_drop_speaker u m : manager_ok m -> manager_ok (drop_speaker u m).
Proof.
  assert (forall k b, delete u (mActiveSpeakers m) !! k = Some b -> mActiveSpeakers m !! k = Some b)
    as Hd by (intros k b [_ Hb]%lookup_delete_Some; done).
  unfold drop_speaker. cbv zeta. case_match eqn:E; keep; simpl.
  - intros k b Hb%Hd. by eapply mo_speakers0.
  - apply anyActiveSpeaker_spec.
  - intros k b Hb%Hd. by eapply mo_speakers0.
  - destruct mo_speaker0 as [?|Hs]; [by left|]. right.
    simpl in E. bool_hyps. by rewrite lookup_delete_ne by congruence.
Qed.

Lemma drop_speaker_absent u m : mActiveSpeakers (drop_speaker u m) !! u = None.
Proof. unfold drop_speaker. cbv zeta. case_match; apply lookup_delete_eq. Qed.

Lemma drop_speaker_delete u m :
  drop_speaker u (m <| mParticipants ::= delete u |>)
  = (drop_speaker u m) <| mParticipants ::= delete u |>.
Proof. unfold drop_speaker. simpl. case_match; reflexivity. Qed.

Lemma ok_delete_participant u m :
  mActiveSpeakers m !! u = None -> manager_ok m ->
  manager_ok (m <| mParticipants ::= delete u |>).
Proof.
  intros Hu. keep.
  - intros Hi. destruct (mo_idle0 Hi) as (-> & ? & ?). by rewrite delete_empty.
  - intros k p [_ Hp]%lookup_delete_Some. by apply mo_participants0.
  - intros k b Hk. destruct (mo_speakers0 k b Hk) as [-> Hp]. split; [done|].
    rewrite lookup_delete_ne; [done|]. intros <-. congruence.
Qed.

Lemma ok_insert_participant u p m :
  jStreamID (mCurrent m) <> "" -> pUserID p = u -> blank u = false -> manager_ok m ->
  manager_ok (m <| mParticipants ::= insert u p |>).
Proof.
  intros Hc Hu Hb. keep.
  - done.
  - intros k p' [[<- <-]|[_ Hp]]%lookup_insert_Some; [done|by apply mo_participants0].
  - intros k b Hk. destruct (mo_speakers0 k b Hk) as [-> Hp]. split; [done|].
    apply lookup_insert_is_Some'. by right.
Qed.

Lemma ok_participant_section event m :
  blank (peUserID event) = false -> manager_ok m -> manager_ok (participant_section event m).2.
Proof.
  intros Hb Hm. unfold participant_section. case_match eqn:E; [done|]. bool_hyps. cbv zeta.
  assert (forall o m', manager_ok m' ->
    manager_ok (let m' := m' <| mLastEventAt := hClock m |> <| mParticipantStateRevision ::= succ_u64 |> in
      let '(stop, m'') := updateAutoStopForParticipantSetLocked (mCurrent m') (hClock m) "voice_event"
                        (mParticipantSnapshotRevision m') m' in
      (Some (current_report m', o : option string, schedule_of m'' stop), m'')).2) as Hrest.
  { intros o m' Hm'. cbv zeta.
    match goal with |- context [updateAutoStopForParticipantSetLocked ?j ?t ?s ?r ?x] =>
      pose proof (ok_updateAutoStop j t s r x) as Hu;
      destruct (updateAutoStopForParticipantSetLocked j t s r x) end.
    simpl in *. apply Hu. by apply ok_revision, ok_lastEvent. }
  destruct (pePresent event).
  - apply Hrest. apply (ok_insert_participant (peUserID event)); try done.
    apply merge_userID.
  - apply Hrest. rewrite drop_speaker_delete. apply ok_delete_participant.
    + apply drop_speaker_absent.
    + by apply ok_drop_speaker.
Qed.

Lemma ok_apply_snapshot snapshot now m :
  jStreamID (mCurrent m) <> "" -> manager_ok m -> manager_ok (apply_snapshot snapshot now m).
Proof.
  intros Hc Hm. unfold apply_snapshot. cbv zeta. apply ok_revision, ok_lastEvent.
  set (m1 := if _ <? _ then _ else m).
  assert (manager_ok m1 /\ jStreamID (mCurrent m1) <> "") as [Hm1 Hc1].
  { unfold m1. case_match; [|done]. split; [revert Hm; keep|done]. }
  clearbody m1. clear Hm Hc m.
  set (m2 := retain_speakers _).
  assert (forall k b, mActiveSpeakers m2 !! k = Some b -> b = true /\ is_Some (mParticipants m2 !! k))
    as Hsp.
  { intros k b. unfold m2, retain_speakers. simpl. rewrite range_delete_lookup.
    case_match eqn:E; [done|]. intros Hb. split; [by eapply mo_speakers|].
    destruct (_ !! k) eqn:Ep in E; [|done]. rewrite Ep. by eexists. }
  assert (manager_ok (m2 <| mActiveSpeaker := "" |>)) as Hm2.
  { revert Hm1. unfold m2, retain_speakers. keep; simpl.
    - by intros Hi%Hc1.
    - intros k p. apply snapshot_participants_ok.
    - by left. }
  clearbody m2. clear Hsp Hm1.
  case_match eqn:E; revert Hm2; keep.
  - right. unfold mread in E. destruct (mActiveSpeakers m2 !! _) as [[]|]; done.
  - apply anyActiveSpeaker_spec.
Qed.

Lemma ok_sync_section snapshot options m :
  psStreamID snapshot <> "" -> manager_ok m -> manager_ok (sync_section snapshot options m).2.
Proof.
  intros Hs Hm. unfold sync_section. cbv zeta. case_match eqn:E; [done|].
  case_match; [done|]. case_match; [by case_match|].
  assert (jStreamID (mCurrent m) <> "") as Hc by (bool_hyps; congruence).
  match goal with |- context [updateAutoStopForParticipantSetLocked ?j ?t ?s ?r ?x] =>
    pose proof (ok_updateAutoStop j t s r x) as Hu;
    destruct (updateAutoStopForParticipantSetLocked j t s r x) end.
  simpl in *. by apply Hu, ok_apply_snapshot.
Qed.

Lemma ok_set_speaker_section streamID userID sp pr m :
  manager_ok m -> manager_ok (set_speaker_section streamID userID sp pr m).2.
Proof.
  intros Hm. unfold set_speaker_section.
  case_match; [done|]. case_match; [done|]. case_match eqn:Hp; [|done]. cbv zeta.
  case_match; [done|]. case_match; [done|]. simpl.
  apply (ok_lastEvent _ (_ <| mParticipantStateRevision ::= succ_u64 |>)), ok_revision.
  destruct sp; [|by apply ok_drop_speaker].
  assert (manager_ok (m <| mActiveSpeakers := ∅ |> <| mActiveSpeaker := "" |>)) as He.
  { revert Hm. keep; [intros k b; by rewrite lookup_empty|by left]. }
  destruct pr; [revert Hm|revert He]; keep; simpl.
  - intros k b [[<- <-]|[_ Hb]]%lookup_insert_Some; [split; [done|by eexists]|by eapply mo_speakers0].
  - right. apply lookup_insert_eq.
  - intros k b [[<- <-]|[_ Hb]]%lookup_insert_Some; [split; [done|by eexists]|by eapply mo_speakers0].
  - right. apply lookup_insert_eq.
Qed.

Lemma ok_clear_speakers_section streamID m :
  manager_ok m -> manager_ok (clear_speakers_section streamID m).2.
Proof.
  intros Hm. unfold clear_speakers_section. repeat (case_match; [done|]). revert Hm. keep; simpl.
  - intros k b. by rewrite lookup_empty.
  - by left.
Qed.

(** ** Lifecycle *)

Lemma newQueue_some m : is_Some (hQueues (newQueue m).2 !! (newQueue m).1).
Proof. simpl. rewrite lookup_insert_eq. by eexists. Qed.

Lemma ok_setWorker q m :
  jStreamID (mCurrent m) <> "" -> mStopping m = false -> is_Some (hQueues m !! q) ->
  manager_ok m -> manager_ok (m <| mWorkerRetry := Some q |>).
Proof.
  intros Hc Hs Hq. keep; [done|congruence|]. by intros ? [= <-].
Qed.

Lemma ok_noWorker m : manager_ok m -> manager_ok (m <| mWorkerRetry := None |>).
Proof. keep; naive_solver. Qed.

Lemma ok_start_check job m : manager_ok m -> manager_ok (start_check job m).2.
Proof.
  intros Hm. unfold start_check. case_match; [done|]. case_match; [done|].
  cbv zeta. case_match; by apply ok_cancelAutoStop.
Qed.

Lemma live_nonempty job : live_job job -> jStreamID job <> "".
Proof. intros [Hb _]. by apply not_blank_nonempty. Qed.

Lemma ok_start_commit job epoch m :
  live_job job -> manager_ok m -> manager_ok (start_commit job epoch m).2.
Proof.
  intros Hj Hm%(ok_generation succ_i64). unfold start_commit. cbv zeta.
  apply ok_restartSync in Hm. revert Hm.
  destruct (restartParticipantSyncLocked _) as [ctx m1]. simpl. intros Hm.
  apply ok_cancelAllRetries. revert Hm. keep; simpl.
  - by right.
  - intros Hi. by apply live_nonempty in Hj.
  - done.
  - intros k p. by rewrite lookup_empty.
  - intros k b. by rewrite lookup_empty.
  - by left.
  - intros q qu [[_ <-]|[_ Hqu]]%lookup_insert_Some; [apply new_wf|by eapply mo_queues0].
  - intros q [= <-]. rewrite lookup_insert_eq. by eexists.
Qed.

Lemma ok_stop_begin streamID m : manager_ok m -> manager_ok (stop_begin streamID m).2.
Proof.
  intros Hm%ok_cancelAllRetries. unfold stop_begin. cbv zeta.
  set (m1 := cancelAllAutoStartRetriesLocked m) in *. clearbody m1.
  case_match eqn:Hc; [done|]. case_match; [done|]. case_match; [done|]. simpl.
  assert (jStreamID (mCurrent (invalidateAutoStopLocked (jStreamID (mCurrent m1)) m1)) <> "") as Hc'.
  { bool_hyps. unfold invalidateAutoStopLocked. cbv zeta. by case_match. }
  apply (ok_invalidate (jStreamID (mCurrent m1))) in Hm.
  revert Hm. keep; naive_solver.
Qed.

Lemma stop_begin_stream streamID m id q :
  (stop_begin streamID m).1 = inl (id, q) -> id <> "".
Proof.
  unfold stop_begin. cbv zeta. case_match eqn:Hc; [done|].
  case_match; [done|]. case_match; [done|]. simpl. intros [= <- _]. by bool_hyps.
Qed.

Lemma ok_new_worker m :
  jStreamID (mCurrent m) <> "" -> mStopping m = false -> manager_ok m ->
  manager_ok ((newQueue m).2 <| mWorkerRetry := Some (newQueue m).1 |>).
Proof.
  intros Hc Hs Hm. apply ok_setWorker; [done|done|apply newQueue_some|by apply ok_newQueue].
Qed.

Lemma restart_current m :
  mCurrent (restartParticipantSyncLocked m).2 = mCurrent m /\
  mStopping (restartParticipantSyncLocked m).2 = mStopping m.
Proof. unfold restartParticipantSyncLocked, cancelParticipantSync. simpl. by case_match. Qed.

Lemma ok_stop_failed id m : id <> "" -> manager_ok m -> manager_ok (stop_failed id m).2.
Proof.
  intros Hid Hm. unfold stop_failed. case_match eqn:E; [|done]. bool_hyps. cbv zeta.
  assert (manager_ok (m <| mStopping := false |>)) as Hm1 by (revert Hm; keep; naive_solver).
  destruct (restart_current (m <| mStopping := false |>)) as [Hc Hs].
  apply ok_restartSync in Hm1. revert Hm1 Hc Hs.
  destruct (restartParticipantSyncLocked _) as [ctx m1]. cbn [snd fst]. intros Hm1 Hc Hs.
  apply ok_new_worker; [rewrite Hc; simpl; congruence|by rewrite Hs|done].
Qed.

Lemma ok_stop_commit id m : manager_ok m -> manager_ok (stop_commit id m).2.
Proof.
  intros Hm. unfold stop_commit. cbv zeta. simpl.
  set (m1 := match mParticipantSyncCancel m with Some _ => _ | None => _ end).
  assert (manager_ok m1) as Hm1 by (unfold m1; case_match; revert Hm; keep).
  clearbody m1. revert Hm1. keep; simpl; try done.
  - by left.
  - by left.
Qed.

(** A new queue installed, then the sync loop restarted. *)
Lemma ok_install m :
  jStreamID (mCurrent m) <> "" -> mStopping m = false -> manager_ok m ->
  forall q m', newQueue m = (q, m') ->
  manager_ok (restartParticipantSyncLocked (m' <| mWorkerRetry := Some q |>)).2.
Proof.
  intros Hc Hs Hm q m' E. apply ok_restartSync.
  pose proof (ok_new_worker m Hc Hs Hm) as Hn. by rewrite E in Hn.
Qed.

Lemma ok_connected_section m : manager_ok m -> manager_ok (connected_section m).2.
Proof.
  intros Hm. unfold connected_section. cbv zeta.
  assert (manager_ok (m <| mLastEventAt := hClock m |> <| mDisconnected := false |>)) as Hm1
    by (revert Hm; keep).
  case_match eqn:E; [|by apply ok_noWorker]. simpl in E. bool_hyps.
  pose proof (fun Hc Hs => ok_install _ Hc Hs Hm1) as Hi.
  specialize (Hi ltac:(assumption) ltac:(assumption)).
  destruct (newQueue _) as [q m2]. specialize (Hi _ _ eq_refl).
  by destruct (restartParticipantSyncLocked _).
Qed.

Lemma ok_disconnected_section m : manager_ok m -> manager_ok (disconnected_section m).2.
Proof.
  intros Hm%ok_cancelAllRetries. unfold disconnected_section. cbv zeta.
  set (m1 := cancelAllAutoStartRetriesLocked m) in *. clearbody m1. simpl.
  match goal with |- manager_ok (?x <| mDisconnected := _ |> <| mWorkerRetry := _ |>
      <| mReconnectGeneration ::= _ |>) => set (m2 := x) end.
  assert (manager_ok m2) as Hm2 by (unfold m2; case_match; revert Hm; keep).
  clearbody m2. revert Hm2. keep; naive_solver.
Qed.

Lemma disconnected_job m :
  manager_ok m ->
  mCurrent (cancelAllAutoStartRetriesLocked m) = (disconnected_section m).1.1.1.1.1.
Proof. done. Qed.

Lemma ok_rejoin_check job g m : manager_ok m -> manager_ok (rejoin_check job g m).2.
Proof. unfold rejoin_check. case_match; keep. Qed.

Lemma ok_rejoin_failed job g m : manager_ok m -> manager_ok (rejoin_failed job g m).2.
Proof. unfold rejoin_failed. case_match; keep. Qed.

Lemma live_same job current :
  live_job job -> sameWorkerEventJob current job = true -> jStreamID current <> "".
Proof.
  intros [Hb _] Hs%same_job_key Hc. injection Hs as Hs _. rewrite Hc in Hs.
  unfold blank in Hb. rewrite <- Hs in Hb. done.
Qed.

Lemma ok_rejoin_joined job g m :
  live_job job -> manager_ok m -> manager_ok (rejoin_joined job g m).2.
Proof.
  intros Hj Hm. unfold rejoin_joined. case_match eqn:E; [|done]. bool_hyps. cbv zeta.
  assert (manager_ok (m <| mLastEventAt := hClock m |> <| mDisconnected := false |>)) as Hm1
    by (revert Hm; keep).
  pose proof (fun Hc Hs => ok_install _ Hc Hs Hm1) as Hi.
  specialize (Hi (live_same _ _ Hj ltac:(eassumption)) ltac:(assumption)).
  destruct (newQueue _) as [q m2]. specialize (Hi _ _ eq_refl).
  by destruct (restartParticipantSyncLocked _).
Qed.

(** ** Auto-stop goroutines *)

Lemma ok_retry_section id g m : manager_ok m -> manager_ok (retry_section id g m).2.
Proof.
  intros Hm. unfold retry_section. case_match; [done|]. cbv zeta.
  case_match eqn:E; simpl; [|by apply ok_finishAutoStop].
  apply lookup_lt_Some in E. apply ok_attempts_insert; [|done].
  assert (0 <= mint (mAutoStopAttempts m) id); [|lia].
  unfold mread. destruct (_ !! id) as [n|] eqn:En; simpl; [|lia].
  apply (mo_attempts m Hm) in En. lia.
Qed.

Lemma ok_request_section id g job rg m :
  manager_ok m -> manager_ok (request_section id g job rg m).2.
Proof. unfold request_section. case_match; keep. Qed.

Lemma ok_answered_section id g m : manager_ok m -> manager_ok (answered_section id g m).2.
Proof. intros Hm. unfold answered_section. simpl. by apply ok_clearInFlight. Qed.

Lemma ok_cancel_if_valid id g job rg m : manager_ok m -> manager_ok (cancel_if_valid id g job rg m).
Proof. unfold cancel_if_valid. case_match; auto using ok_cancelAutoStop. Qed.

Lemma ok_reconcile_section id m : manager_ok m -> manager_ok (reconcile_section id m).2.
Proof. unfold reconcile_section. case_match; keep. Qed.

Lemma ok_reconcile_turn id key i m :
  manager_ok m -> manager_ok (reconcile_turn_section id key i m).2.
Proof. unfold reconcile_turn_section. repeat case_match; keep. Qed.

Lemma ok_reconcile_exhausted id m : manager_ok m -> manager_ok (reconcile_exhausted id m).
Proof. unfold reconcile_exhausted. repeat case_match; keep. Qed.
End Sections.

(** ** Every method is safe *)

(** One step of the walk over a method's text; sections are left as goals. *)
Lemma safe_atomic {X} (Q : X -> Prop) (f : Manager -> X * Manager) :
  (forall m, manager_ok m -> manager_ok (f m).2 /\ Q (f m).1) -> msafe Q (atomic f).
Proof. intros Hf m Hm. by apply Hf. Qed.

Lemma safe_section {X} (f : Manager -> X * Manager) :
  (forall m, manager_ok m -> manager_ok (f m).2) -> msafe (fun _ => True) (atomic f).
Proof. intros Hf. apply safe_atomic. auto. Qed.

Lemma safe_modify (f : Manager -> Manager) :
  (forall m, manager_ok m -> manager_ok (f m)) -> msafe (fun _ => True) (modify f).
Proof. intros Hf m Hm. simpl. auto. Qed.

Lemma safe_read {X} (f : Manager -> X) : msafe (fun _ => True) (read f).
Proof. intros m Hm. simpl. auto. Qed.

Lemma safe_call {X} (e : ExtCall X) : call_ok e -> msafe (fun _ => True) (call e).
Proof. by split. Qed.

Lemma safe_wait d c : msafe (fun _ => True) (wait d c).
Proof. done. Qed.

Lemma safe_lock mu : msafe (fun _ => True) (lock mu).
Proof. done. Qed.

Lemma safe_unlock mu : msafe (fun _ => True) (unlock mu).
Proof. done. Qed.

Lemma safe_spawn l : label_ok l -> msafe (fun _ => True) (spawn l).
Proof. by split. Qed.

Lemma safe_ret {A} (a : A) : msafe (fun _ => True) (ret a).
Proof. done. Qed.

Lemma safe_seq {A B} (Q : B -> Prop) (p : mprog A) (k : A -> mprog B) :
  msafe (fun _ => True) p -> (forall a, msafe Q (k a)) -> msafe Q (bind p k).
Proof. intros Hp Hk. eapply safe_bind; [exact Hp|]. auto. Qed.

Create HintDb msafe.
#[local] Hint Resolve safe_read safe_wait safe_lock safe_unlock safe_ret : msafe.

Ltac walk :=
  repeat match goal with
  | |- msafe _ (bind (read (refreshWorkerRetryReport _ _)) _) => fail 1
  | |- msafe _ (match ?x with _ => _ end) => destruct x
  | |- msafe _ (bind _ _) => apply safe_seq; [|intros]
  | |- msafe _ (let _ := _ in _) => cbv zeta
  | |- msafe _ (read _) => apply safe_read
  | |- msafe _ (call _) => apply safe_call; try exact I
  | |- msafe _ (wait _ _) => apply safe_wait
  | |- msafe _ (lock _) => apply safe_lock
  | |- msafe _ (unlock _) => apply safe_unlock
  | |- msafe _ (ret _) => apply safe_ret
  | |- msafe _ (spawn _) => apply safe_spawn; try exact I
  | |- msafe _ (modify _) => apply safe_modify; intros
  | |- msafe _ (atomic _) => apply safe_section; intros
  | |- msafe _ _ => solve [eauto with msafe nocore]
  end.

Section Safe.
Context `{MapRange}.

Lemma safe_startQueue q : msafe (fun _ => True) (startQueue q).
Proof. unfold startQueue. walk. apply ok_onQueue; [|done]. by intros qu []. Qed.

Lemma mark_stopped_wf qu : queue_wf qu -> queue_wf (queue_mark_stopped qu).
Proof.
  intros Hq. unfold queue_mark_stopped. case_match eqn:E; [done|]. apply (stop_wf qu) in Hq.
  unfold queue_stop, queue_mark_stopped in Hq. rewrite E in Hq. by destruct Hq.
Qed.

Lemma safe_stopAndWait q : msafe (fun _ => True) (stopAndWait q).
Proof.
  unfold stopAndWait. walk; apply ok_onQueue; try done; try by intros qu [].
  apply mark_stopped_wf.
Qed.

#[local] Hint Resolve safe_startQueue safe_stopAndWait : msafe.

Lemma safe_stopAndWaitOpt q : msafe (fun _ => True) (stopAndWaitOpt q).
Proof. unfold stopAndWaitOpt. walk. Qed.

#[local] Hint Resolve safe_stopAndWaitOpt : msafe.

Lemma safe_recordFailure e s : msafe (fun _ => True) (recordWorkerPublishFailureAttempt e s).
Proof. unfold recordWorkerPublishFailureAttempt. walk. by apply ok_recordFailure. Qed.

Lemma safe_recordFailure1 e s : msafe (fun _ => True) (recordWorkerPublishFailure e s).
Proof. unfold recordWorkerPublishFailure. apply safe_recordFailure. Qed.

#[local] Hint Resolve safe_recordFailure safe_recordFailure1 : msafe.

Lemma safe_enqueueRetry r : msafe (fun _ => True) (enqueueWorkerEventRetry r).
Proof. unfold enqueueWorkerEventRetry. walk. by apply ok_queue_enqueue. Qed.

Lemma safe_supersede j g k : msafe (fun _ => True) (supersedeWorkerEventRetry j g k).
Proof.
  unfold supersedeWorkerEventRetry. walk; apply ok_onQueue; try done; auto with bot.
  intros qu Hq. unfold supersede_locked. case_match; auto with bot.
Qed.

Lemma safe_publishParticipants c r j ps : msafe (fun _ => True) (publishParticipants c r j ps).
Proof. unfold publishParticipants. walk. Qed.

Lemma safe_publishActiveSpeaker c r j u d s :
  msafe (fun _ => True) (publishActiveSpeaker c r j u d s).
Proof. unfold publishActiveSpeaker. walk. Qed.

Lemma safe_publishChatMessage c r j msg : msafe (fun _ => True) (publishChatMessage c r j msg).
Proof. unfold publishChatMessage. walk. Qed.

#[local] Hint Resolve safe_enqueueRetry safe_supersede safe_publishParticipants
  safe_publishActiveSpeaker safe_publishChatMessage : msafe.

Lemma safe_reportParticipants j ps sr g b :
  msafe (fun _ => True) (reportParticipantsIfCurrent j ps sr g b).
Proof. unfold reportParticipantsIfCurrent. walk. Qed.

Lemma safe_reportSpeaker j u d s sr g :
  msafe (fun _ => True) (reportActiveSpeakerIfCurrent j u d s sr g).
Proof. unfold reportActiveSpeakerIfCurrent. walk. Qed.

Lemma safe_chat e : msafe (fun _ => True) (ChatMessageReceived e).
Proof.
  unfold ChatMessageReceived. walk. unfold chat_accept. case_match; [done|]. by apply ok_lastEvent.
Qed.

#[local] Hint Resolve safe_reportParticipants safe_reportSpeaker : msafe.

Lemma refresh_attempts q r m r' rep :
  refreshWorkerRetryReport q r m = Some (r', rep) -> rAttempts r' = rAttempts r.
Proof.
  unfold refreshWorkerRetryReport. case_match; [done|]. intros [= <- _].
  repeat case_match; reflexivity.
Qed.

Lemma safe_deliver q r : 0 <= rAttempts r -> msafe (fun _ => True) (deliverWorkerEventRetry q r).
Proof.
  intros Hr. unfold deliverWorkerEventRetry, isCurrentWorkerRetryReport, publishWorkerRetryReport.
  cbv zeta. walk; try (apply ok_onQueue; auto with bot; done).
  eapply (safe_bind _ _ _ (fun o => match o with Some (r', _) => rAttempts r' = rAttempts r
                                            | None => True end)).
  { intros m Hm. split; [done|]. simpl.
    destruct (refreshWorkerRetryReport q r m) as [[r' rep]|] eqn:E; [|done].
    by eapply refresh_attempts. }
  intros [[r' rep]|] Hatt; walk; try (apply ok_onQueue; auto with bot; done).
  apply ok_onQueue; [|done]. intros qu Hq. apply requeue_wf; [simpl; lia|done].
Qed.

Lemma safe_queueLoop q : msafe (next_ok label_ok) (queueLoop q).
Proof.
  unfold queueLoop. apply safe_seq; [walk|]. intros now.
  assert (forall q, msafe (next_ok label_ok) (loop_woken q)) as Hwoken.
  { intros q'. unfold loop_woken, loop_exit. apply safe_seq; [walk|]. intros first.
    apply safe_seq; [|intros []; [apply safe_seq; [|done]; walk; apply ok_onQueue; [|done]; by intros qu []|done]].
    walk. case_match; simpl; [done|]. apply ok_onQueue; [|done]. by intros qu []. }
  eapply (safe_bind _ _ _ (fun r => forall rep, r = NextReady rep -> 0 <= rAttempts rep)).
  { apply safe_atomic. intros m Hm. split; [by apply ok_queue_next|].
    intros rep. by apply queue_next_attempts. }
  intros r Hr. destruct r as [rep|w|]; cbn [loop_choice].
  - apply safe_seq; [by apply safe_deliver, Hr|]. done.
  - destruct (0 <? w); cbv iota beta; (apply safe_seq; [walk|]); intros b; [by destruct b|done].
  - apply safe_seq; [walk|]. by intros _.
Qed.

(** *** Participants *)

Lemma safe_report a : msafe (fun _ => True) (report_participants a).
Proof. unfold report_participants. apply safe_reportParticipants. Qed.

Lemma safe_schedule id s : msafe (fun _ => True) (schedule_auto_stop id s).
Proof. unfold schedule_auto_stop. walk. Qed.

#[local] Hint Resolve safe_report safe_schedule : msafe.

Lemma safe_participantChanged e : msafe (fun _ => True) (ParticipantChanged e).
Proof.
  unfold ParticipantChanged. destruct (blank _) eqn:Hb; walk. by apply ok_participant_section.
Qed.

Lemma safe_participantsSynced s o : msafe (fun _ => True) (participantsSynced s o).
Proof.
  unfold participantsSynced. cbv zeta. destruct (_ || _) eqn:Hb; walk.
  apply ok_sync_section; [|done]. by bool_hyps.
Qed.

#[local] Hint Resolve safe_participantsSynced : msafe.

Lemma safe_ParticipantsSynced s : msafe (fun _ => True) (ParticipantsSynced s).
Proof. unfold ParticipantsSynced. walk. Qed.

#[local] Hint Resolve safe_ParticipantsSynced : msafe.

Lemma safe_hydrate j b : msafe (fun _ => True) (hydrateVoiceParticipants j b).
Proof. unfold hydrateVoiceParticipants. walk. Qed.

Lemma safe_hydrateGen j b g : msafe (fun _ => True) (hydrateVoiceParticipantsForGeneration j b g).
Proof. unfold hydrateVoiceParticipantsForGeneration. walk. Qed.

#[local] Hint Resolve safe_hydrate safe_hydrateGen : msafe.

Lemma safe_warmup c j g ds : msafe (fun _ => True) (sync_warmup c j g ds).
Proof.
  induction ds as [|d ds IH]; cbn [sync_warmup]; [walk|].
  apply safe_seq; [unfold waitForParticipantSync; walk|]. intros w.
  destruct (negb w); [walk|]. apply safe_seq; [walk|]. intros c'.
  destruct (negb c'); [walk|]. apply safe_seq; [walk|]. intros ok.
  destruct (negb ok); [walk|]. exact IH.
Qed.

Lemma safe_keepSynced c j g : msafe (next_ok label_ok) (keepVoiceParticipantsSynced c j g).
Proof.
  unfold keepVoiceParticipantsSynced. apply safe_seq; [walk|]. intros [|]; [|done].
  apply safe_seq; [walk|]. intros [ds i]. apply safe_seq; [apply safe_warmup|].
  intros ok. by case_match.
Qed.

Lemma safe_keepTick c j g i : msafe (next_ok label_ok) (keep_tick c j g i).
Proof.
  unfold keep_tick. apply safe_seq; [walk|]. intros [|]; [done|].
  apply safe_seq; [walk|]. by intros [|].
Qed.

(** *** Speakers *)

Lemma safe_setSpeaker s u sp pr : msafe (fun _ => True) (setSpeakerState s u sp pr).
Proof. unfold setSpeakerState. walk. by apply ok_set_speaker_section. Qed.

Lemma safe_clearSpeakers s : msafe (fun _ => True) (clearSpeakerStates s).
Proof. unfold clearSpeakerStates. walk. by apply ok_clear_speakers_section. Qed.

#[local] Hint Resolve safe_setSpeaker safe_clearSpeakers : msafe.

(** *** Auto-start *)

Lemma safe_retryValid id r : msafe (fun _ => True) (autoStartRetryStillValid id r).
Proof. unfold autoStartRetryStillValid. walk. by apply ok_presence. Qed.

#[local] Hint Resolve safe_retryValid : msafe.

Lemma safe_retryLoop c r st id ds :
  id <> "" -> msafe (fun _ => True) (retry_loop c r st id ds).
Proof.
  intros Hid. induction ds as [|d ds IH]; cbn [retry_loop]; walk; try exact IH; [done|].
  by apply ok_noteCapacity.
Qed.

Lemma reserve_stream id e now m c : (reserve_section id e now m).1 = Some c -> id <> "".
Proof.
  unfold reserve_section. case_match; [done|]. case_match eqn:E; [done|]. intros _.
  by bool_hyps.
Qed.

Lemma safe_join e : msafe (fun _ => True) (VoiceUserJoined e).
Proof.
  unfold VoiceUserJoined. cbv zeta. case_match; [walk|]. apply safe_seq; [walk|]. intros now.
  apply safe_seq; [walk; by apply ok_join|]. intros [[[id f] refresh]|]; [|walk].
  apply safe_seq; [walk|]. intros [|]; [walk|].
  eapply (safe_bind _ _ _ (fun r => match r with Some (id, _) => id <> "" | None => True end)).
  - apply safe_atomic. intros m Hm. case_match; [done|].
    match goal with |- context [reserve_section ?i ?e ?n ?m] =>
      pose proof (ok_reserve i e n m) as Hr; pose proof (reserve_stream i e n m) as Hs;
      destruct (reserve_section i e n m) as [[c|] m'] end; simpl in *; eauto.
  - intros [[id' [[c r] st]]|] Hid; [by apply safe_spawn|walk].
Qed.

#[local] Hint Resolve safe_retryLoop safe_join : msafe.

Lemma safe_autoStart id c r st f e :
  id <> "" -> msafe (next_ok label_ok) (autoStartGoroutine id c r st f e).
Proof.
  intros Hid. unfold autoStartGoroutine. apply safe_seq.
  { unfold auto_start_body, retryAutoStart, refresh_stale. walk; [done|]. by apply ok_noteCapacity. }
  intros _. apply safe_seq; [walk; by apply ok_finishRetry|]. done.
Qed.

(** *** Auto-stop *)

Lemma safe_scheduleReconcile id :
  msafe (fun _ => True) (scheduleAutoStopRejoinReconciliation id).
Proof. unfold scheduleAutoStopRejoinReconciliation. walk. by apply ok_reconcile_section. Qed.

Lemma safe_scheduleRetry id g st e o : msafe (fun _ => True) (scheduleAutoStopRetry id g st e o).
Proof.
  unfold scheduleAutoStopRetry. walk; [by apply ok_finishAutoStop|by apply ok_retry_section].
Qed.

Lemma safe_stopStream c st id : msafe (fun _ => True) (stopStreamWithContext c st id).
Proof. unfold stopStreamWithContext. walk. Qed.

#[local] Hint Resolve safe_scheduleReconcile safe_scheduleRetry safe_stopStream : msafe.

Lemma safe_autoStopRequest id o st j g : msafe (fun _ => True) (auto_stop_request id o st j g).
Proof.
  unfold auto_stop_request. walk;
    [by apply ok_request_section|by apply ok_answered_section|by apply ok_finishAutoStop].
Qed.

#[local] Hint Resolve safe_autoStopRequest : msafe.

(** A goroutine that ends after [p]. *)
Lemma safe_then_none {A} (p : mprog A) :
  msafe (fun _ => True) p -> msafe (next_ok label_ok) (do* p in ret None).
Proof. intros Hp. apply safe_seq; [exact Hp|done]. Qed.

Lemma safe_autoStopWhenEmpty id o st d : msafe (next_ok label_ok) (autoStopWhenEmpty id o st d).
Proof.
  unfold autoStopWhenEmpty. cbv zeta. apply safe_seq; [walk|]. intros _.
  apply safe_seq; [walk|]. intros [[[[j g] sr] cd]|]; [|done].
  apply safe_seq; [walk|]. intros [|]; cbv beta iota delta [negb]; [|apply safe_then_none; walk].
  apply safe_seq; [walk|]. intros [snap|].
  2:{ apply safe_then_none. walk. by apply ok_cancel_if_valid. }
  case_bool_decide.
  - apply safe_seq; [walk|]. intros _. apply safe_then_none. walk. by apply ok_cancel_if_valid.
  - apply safe_seq; [walk|]. intros [|]; cbv beta iota delta [negb]; [|done].
    case_match; apply safe_then_none; walk.
Qed.

Lemma safe_reconcileLoop id ds : msafe (fun _ => True) (reconcile_loop id ds).
Proof.
  induction ds as [|d ds IH]; cbn [reconcile_loop]; [walk|].
  apply safe_seq; [walk|]. intros _. apply safe_seq; [walk|].
  intros [[[key i]|] f]; [|walk]. apply safe_seq; [walk|]. intros [|]; [exact IH|].
  apply safe_seq; [walk; by apply ok_reconcile_turn|]. intros [| |e]; [walk|exact IH|walk].
Qed.

Lemma safe_reconcile id : msafe (next_ok label_ok) (reconcileAutoStopRejoin id).
Proof.
  unfold reconcileAutoStopRejoin. apply safe_seq; [walk|]. intros ds.
  apply safe_seq; [apply safe_reconcileLoop|]. intros b.
  apply safe_seq; [walk; by apply ok_reconcile_exhausted|]. intros _.
  apply safe_then_none. walk. revert H0. keep.
Qed.

(** *** Lifecycle *)

Lemma safe_Start job : msafe (fun _ => True) (Start job).
Proof.
  unfold Start. apply safe_seq; [walk|]. clear job. intros job.
  destruct (blank (jStreamID job)) eqn:E1; [walk|].
  destruct (blank (jGuildID job)) eqn:E2; [walk|].
  destruct (blank (jVoiceChannelID job)) eqn:E3; [walk|].
  walk; [by apply ok_start_check|done|by apply ok_start_commit].
Qed.

Lemma safe_Stop id : msafe (fun _ => True) (Stop id).
Proof.
  unfold Stop. eapply (safe_bind _ _ _ (fun r => match r with inl (id, _) => id <> "" | _ => True end)).
  { apply safe_atomic. intros m Hm. split; [by apply ok_stop_begin|].
    destruct (stop_begin id m).1 as [[id' q]|] eqn:E; [|done]. by eapply stop_begin_stream. }
  intros [[id' q]|e] Hid; [|walk].
  walk; [done|by apply ok_stop_failed|by apply ok_stop_commit].
Qed.

Lemma safe_connected : msafe (fun _ => True) DiscordConnected.
Proof. unfold DiscordConnected. walk. by apply ok_connected_section. Qed.

Lemma cancelRetry_current id m : mCurrent (cancelAutoStartRetryLocked id m) = mCurrent m.
Proof. unfold cancelAutoStartRetryLocked. by case_match. Qed.

Lemma cancelAllRetries_current m : mCurrent (cancelAllAutoStartRetriesLocked m) = mCurrent m.
Proof.
  unfold cancelAllAutoStartRetriesLocked.
  apply (fold_left_ind (fun m' => mCurrent m' = mCurrent m)); [done|].
  intros m' id _ <-. apply cancelRetry_current.
Qed.

Lemma disconnected_job_ok m :
  manager_ok m -> let '(job, _, _, _, _) := (disconnected_section m).1 in
  jStreamID job <> "" -> live_job job.
Proof.
  intros Hm. unfold disconnected_section. cbv zeta. simpl.
  rewrite cancelAllRetries_current. intros Hne.
  destruct (mo_current m Hm) as [Hz|]; [|done]. by rewrite Hz in Hne.
Qed.

Lemma safe_disconnected reason : msafe (fun _ => True) (DiscordDisconnected reason).
Proof.
  unfold DiscordDisconnected.
  eapply (safe_bind _ _ _ (fun r => let '(job, _, _, _, _) := r in jStreamID job <> "" -> live_job job)).
  { apply safe_atomic. intros m Hm. split; [by apply ok_disconnected_section|].
    by apply disconnected_job_ok. }
  intros [[[[job policy] st] q] g] Hj. apply safe_seq; [walk|]. intros _.
  case_match eqn:E; [|walk]. apply safe_spawn. apply Hj.
  unfold shouldRejoinVoice in E. apply andb_prop in E as [_ E]. case_match eqn:E'; [done|].
  by bool_hyps.
Qed.

Lemma safe_rejoinLoop n : forall job policy g a,
  live_job job -> msafe (fun _ => True) (rejoin_loop n job policy g a).
Proof.
  induction n as [|n IH]; intros job policy g a Hj; cbn [rejoin_loop]; [walk|]. cbv zeta.
  apply safe_seq; [walk|]. intros _. apply safe_seq; [walk; by apply ok_rejoin_check|].
  intros [|]; cbv beta iota delta [negb]; [|walk].
  apply safe_seq; [by apply safe_call|]. intros [e|].
  - apply safe_seq; [walk; by apply ok_rejoin_failed|].
    intros [|]; cbv beta iota; [by apply IH|walk].
  - walk. by apply ok_rejoin_joined.
Qed.

Lemma safe_rejoin job policy g :
  live_job job -> msafe (next_ok label_ok) (rejoinVoiceWithBackoff job policy g).
Proof. intros Hj. apply safe_then_none. by apply safe_rejoinLoop. Qed.

(** *** Notifications *)

Lemma mlen_prune_expired now m :
  mlen (mNotificationReceipts (prune_expired now m)) <= mlen (mNotificationReceipts m).
Proof.
  unfold prune_expired. simpl.
  apply (fold_left_ind (fun acc => mlen acc <= mlen (mNotificationReceipts m))); [lia|].
  intros acc kr _ IH. case_match; [|done]. etrans; [|exact IH]. apply mlen_delete_le.
Qed.

Lemma ok_fewer_receipts r m :
  mlen r <= mlen (mNotificationReceipts m) -> manager_ok m ->
  manager_ok (m <| mNotificationReceipts := r |>).
Proof. intros Hr. keep. lia. Qed.

Lemma ok_prune now m : manager_ok m -> manager_ok (pruneNotificationReceiptsLocked now m).
Proof.
  intros Hm. unfold pruneNotificationReceiptsLocked. cbv zeta.
  assert (manager_ok (prune_expired now m)) as Hm1.
  { apply (ok_fewer_receipts (mNotificationReceipts (prune_expired now m)) m); [|done].
    apply mlen_prune_expired. }
  generalize (size (mNotificationReceipts (prune_expired now m))) as n. intros n.
  revert Hm1. generalize (prune_expired now m) as m'. clear m Hm.
  induction n as [|n IH]; cbn [prune_oldest]; intros m Hm; [done|].
  case_match; [done|]. case_match; [|done]. case_match. apply IH.
  apply (ok_fewer_receipts (delete s (mNotificationReceipts m)) m); [apply mlen_delete_le|done].
Qed.

Lemma ok_notify_section sum256 s e c w m :
  manager_ok m -> manager_ok (notify_section sum256 s e c w m).2.
Proof.
  intros Hm. unfold notify_section. cbv zeta. case_match; [done|].
  apply (ok_prune (hClock m)) in Hm.
  set (m1 := pruneNotificationReceiptsLocked (hClock m) m) in *. clearbody m1.
  case_match; [by case_match|]. case_match eqn:E; [done|]. bool_hyps. revert Hm. keep.
  pose proof (mlen_insert_le (mNotificationReceipts m1) (sum256 e) (hNextRef m1)). lia.
Qed.

Lemma ok_notify_settle key r msg err m : manager_ok m -> manager_ok (notify_settle key r msg err m).
Proof.
  intros Hm. unfold notify_settle. destruct err as [e|]; [|revert Hm; keep].
  apply (ok_fewer_receipts (delete key (mNotificationReceipts m)) m) in Hm; [|apply mlen_delete_le].
  revert Hm. keep.
Qed.

Lemma notify_section_channel sum256 s e c w m r :
  (notify_section sum256 s e c w m).1 = BeginSend r -> c <> "".
Proof.
  unfold notify_section, validateLiveNotificationStateLocked. cbv zeta. intros Hb ->.
  rewrite orb_true_r in Hb. by repeat case_match.
Qed.

Lemma safe_notify sum256 ctx s e c w :
  msafe (fun _ => True) (NotifyYouTubeLive sum256 ctx s e c w).
Proof.
  unfold NotifyYouTubeLive. cbv zeta. do 3 (case_match; [walk|]).
  eapply (safe_bind _ _ _ (fun b => forall r, b = BeginSend r -> TrimSpace c <> "")).
  { apply safe_atomic. intros m Hm. split; [by apply ok_notify_section|].
    intros r. apply notify_section_channel. }
  intros [err|r|r] Hr; [walk|unfold await_receipt; walk|].
  apply safe_seq; [apply safe_call; by eapply Hr|]. intros [id err].
  walk; by apply ok_notify_settle.
Qed.

(** *** Every goroutine *)

Lemma safe_setDefaults defaults : msafe (fun _ => True) (SetStreamVoiceDefaults defaults).
Proof. unfold SetStreamVoiceDefaults. walk. by apply ok_set_stream_defaults. Qed.

#[local] Hint Resolve safe_Start safe_Stop safe_connected safe_disconnected
  safe_participantChanged safe_chat safe_notify safe_setDefaults safe_queueLoop
  safe_keepSynced safe_keepTick safe_autoStopWhenEmpty safe_autoStart safe_reconcile
  safe_rejoin : msafe.

Lemma code_safe sum256 l : label_ok l -> msafe (next_ok label_ok) (code sum256 l).
Proof.
  intros Hl. destruct l; cbn [code]; unfold done; try (solve [eauto with msafe nocore]);
    apply safe_then_none; unfold ActiveSpeakerStateChanged, SetActiveSpeaker;
    walk; revert H0; keep.
  all: intros id n Hn; simpl in Hn; by eapply mo_attempts0.
Qed.

Lemma entry_ok l : is_entry l -> label_ok l.
Proof. by destruct l. Qed.

Lemma managers_threads sum256 s0 p :
  manager_ok s0 -> managers sum256 s0 p ->
  pool_ok manager_ok (fun _ e => call_ok e) label_ok p.
Proof.
  intros Hs0 Hp.
  apply (pool_invariant (code sum256) is_entry hClock advance manager_ok (fun _ e => call_ok e)
           label_ok (code_safe sum256) entry_ok ok_advance s0 p Hs0 Hp).
Qed.

Lemma managers_ok sum256 s0 p :
  manager_ok s0 -> managers sum256 s0 p -> manager_ok (p_state p).
Proof. intros Hs0 Hp. apply (managers_threads _ _ _ Hs0 Hp). Qed.

Lemma new_manager_ok voice reporter now : manager_ok (NewManagerWithReporter voice reporter now).
Proof.
  split; simpl; try done.
  - by left.
  - by left.
Qed.
End Safe.

(** ** Properties of every reachable manager *)

Section Properties.
Context `{MapRange}.

(** C5: whatever the interleaving of Discord events, snapshots, starts, stops,
    reconnects and timers, the manager's participants are filed under their own
    non-blank id, every user marked as speaking is a current participant, and
    the highlighted speaker is none or one of the users speaking. *)
Theorem speakers_are_participants sum256 voice reporter now p :
  managers sum256 (NewManagerWithReporter voice reporter now) p ->
  let m := p_state p in
  (forall k q, mParticipants m !! k = Some q -> pUserID q = k /\ blank k = false) /\
  (forall k b, mActiveSpeakers m !! k = Some b -> b = true /\ is_Some (mParticipants m !! k)) /\
  (mActiveSpeaker m = "" \/ mActiveSpeakers m !! mActiveSpeaker m = Some true).
Proof.
  intros [_ _ _ Hp Hs Ha _ _ _ _]%managers_ok; [done|]. apply new_manager_ok.
Qed.

(** C4: between jobs nothing of the old job is left, and a stopping job takes
    no more reports: in every reachable state the current job is the zero value
    or names a stream, a guild and a voice channel; without a job there are no
    participants, no stop in progress and no retry queue; while a stop is in
    progress there is no retry queue either. *)
Theorem job_lifecycle_invariant sum256 voice reporter now p :
  managers sum256 (NewManagerWithReporter voice reporter now) p ->
  let m := p_state p in
  (mCurrent m = zeroVoiceJob \/ live_job (mCurrent m)) /\
  (jStreamID (mCurrent m) = "" ->
     mParticipants m = ∅ /\ mActiveSpeaker m = "" /\ mStopping m = false /\ mWorkerRetry m = None) /\
  (mStopping m = true -> mWorkerRetry m = None).
Proof.
  intros [Hc Hi Hst _ Hs Ha _ _ _ _]%managers_ok; [|apply new_manager_ok].
  split; [done|]. split; [|done]. intros Hid. destruct (Hi Hid) as (Hp & Hst' & Hw).
  split; [done|]. split; [|done].
  destruct Ha as [?|Ha]; [done|]. destruct (Hs _ _ Ha) as [_ [q Hq]].
  rewrite Hp in Hq. by rewrite lookup_empty in Hq.
Qed.

(** Bounded retry state under every interleaving: the retry queue in use
    exists, every retry queue is well formed (keyed by its reports' keys, newest
    report only, attempts left), an auto-stop has at most as many retries as
    there are configured delays, and at most 2048 notification receipts are
    kept. *)
Theorem bounded_retry_state sum256 voice reporter now p :
  managers sum256 (NewManagerWithReporter voice reporter now) p ->
  let m := p_state p in
  (forall q, mWorkerRetry m = Some q -> is_Some (hQueues m !! q)) /\
  (forall q qu, hQueues m !! q = Some qu -> queue_wf qu) /\
  (forall id n, mAutoStopAttempts m !! id = Some n ->
     0 <= n <= Z.of_nat (length (mAutoStopRetryDelays m))) /\
  mlen (mNotificationReceipts m) <= 2048.
Proof.
  intros [_ _ _ _ _ _ Hq Hw Ha Hr]%managers_ok; [done|]. apply new_manager_ok.
Qed.

(** The calls the manager is about to make, in any goroutine of any reachable
    pool, name what they act on: a voice channel is joined only for a job with
    stream, guild and voice channel, a stream is started or left only by a
    non-empty id, and a message is sent only to a non-empty channel. *)
Theorem calls_are_addressed sum256 voice reporter now p {X} (e : ExtCall X) k :
  managers sum256 (NewManagerWithReporter voice reporter now) p ->
  Running (Call e k) ∈ p_threads p -> call_ok e.
Proof.
  intros Hp Hin. destruct (managers_threads sum256 _ _ (new_manager_ok voice reporter now) Hp)
    as [_ Hts].
  rewrite Forall_forall in Hts. by destruct (Hts _ Hin).
Qed.
End Properties.

(** ** Witnesses: a job with one speaking participant *)
Module Sample.
#[local] Existing Instance canonical_range.

Definition job : VoiceJob :=
  mkVoiceJob "guild" "voice" "text" 1 "stream" "" "" "" "" "http://worker" "token" 0 0 0 false 1.

Definition snapshot : ParticipantSnapshot :=
  mkParticipantSnapshot "stream" "guild" "voice" [mkVoiceParticipant "u1" "Alice" "" false] 7.

(** Every call succeeds; Discord sees one participant. *)
Definition ans X (e : ExtCall X) : X :=
  match e in ExtCall Y return Y with
  | SnapshotVoiceParticipants _ => Some snapshot
  | e' => accept_all _ e'
  end.

Definition m0 : Manager :=
  NewManagerWithReporter (mkVoiceCaps true true true) (Some (mkReporterCaps true true true true)) 1000.

Definition sum (s : string) : string := s.

Definition first_thread (n : nat) : list (choice (L := label) is_entry) := repeat (CNode is_entry 0) n.

(** [Start], its goroutines, then a speaking event. *)
Definition schedule : list (choice (L := label) is_entry) :=
  (CEntry is_entry (EStart job) I :: first_thread 30
   ++ CEntry is_entry (EActiveSpeakerStateChanged "stream" "u1" true) I :: first_thread 30)%list.

Definition reached : pool Manager ExtCall label mutex _ _ :=
  sched (code sum) is_entry hClock advance (fun X e => Some (ans X e)) schedule (Pool m0 ∅ []).

Lemma reached_ok : managers sum m0 reached.
Proof. apply sched_reachable. Qed.

Lemma reached_speaker : mActiveSpeaker (p_state reached) = "u1".
Proof. vm_compute. reflexivity. Qed.

Lemma speakers_are_participants_witness :
  managers sum m0 reached /\ mActiveSpeaker (p_state reached) = "u1" /\
  mActiveSpeakers (p_state reached) !! mActiveSpeaker (p_state reached) = Some true.
Proof.
  split; [exact reached_ok|]. split; [exact reached_speaker|].
  destruct (speakers_are_participants sum _ _ _ _ reached_ok) as (_ & _ & [Hn|Hs]); [|exact Hs].
  rewrite reached_speaker in Hn. discriminate Hn.
Defined.

Lemma job_lifecycle_invariant_witness :
  managers sum m0 reached /\ jStreamID (mCurrent (p_state reached)) = "stream" /\
  live_job (mCurrent (p_state reached)).
Proof.
  assert (jStreamID (mCurrent (p_state reached)) = "stream") as E by (vm_compute; reflexivity).
  split; [exact reached_ok|]. split; [exact E|].
  destruct (job_lifecycle_invariant sum _ _ _ _ reached_ok) as ([Hz|Hl] & _); [|exact Hl].
  rewrite Hz in E. discriminate E.
Defined.

Lemma bounded_retry_state_witness :
  managers sum m0 reached /\ exists q, mWorkerRetry (p_state reached) = Some q /\
    is_Some (hQueues (p_state reached) !! q).
Proof.
  split; [exact reached_ok|].
  destruct (bounded_retry_state sum _ _ _ _ reached_ok) as (Hw & _).
  destruct (mWorkerRetry (p_state reached)) as [q|] eqn:E.
  - exists q. split; [reflexivity|]. apply Hw. reflexivity.
  - exfalso. revert E. vm_compute. discriminate.
Defined.

(** [Start] about to join the voice channel. *)
Definition joining : pool Manager ExtCall label mutex _ _ :=
  sched (code sum) is_entry hClock advance (fun X e => Some (ans X e)) (CEntry is_entry (EStart job) I :: first_thread 2)
    (Pool m0 ∅ []).

Lemma calls_are_addressed_witness :
  exists k, Running (Call (JoinVoice job) k) ∈ p_threads joining /\ live_job job.
Proof.
  assert (exists k, p_threads joining = [Running (Call (JoinVoice job) k)]) as [k Hk]
    by (eexists; reflexivity).
  assert (Running (Call (JoinVoice job) k) ∈ p_threads joining) as Hin
    by (rewrite Hk; apply list_elem_of_here).
  exists k. split; [exact Hin|].
  exact (calls_are_addressed sum _ _ _ joining (JoinVoice job) k (sched_reachable _ _ _ _ _ _ _) Hin).
Defined.
End Sample.
