(* ===== verification/Confirmation.v ===== *)
(** * Confirmation: an empty channel is confirmed before its stream is stopped

    [internal/jobs/auto_stop.go] stops a stream only after two looks at its
    voice channel.  The first timer of an empty channel carries an unconfirmed
    observation; a look that finds nobody starts a second timer whose observation
    is confirmed; only such a timer asks the Control Panel.  Here that is shown
    of every text of the manager: who may start a confirmed timer, and who may
    send the request. *)

From S2P Require Import Prelude Conc Errors Types RetryQueue Manager AutoStopState.
From S2P Require Import WorkerReporting Participants AutoStart AutoStop VoiceDefaults Lifecycle.
From S2P Require Import Notification Goroutines.

Open Scope go_scope.

(** The request names the stream. *)
Definition stops_stream (id : string) X (e : ExtCall X) : Prop :=
  match e with StopStream _ s | StopStreamContext _ _ s => s = id | _ => False end.

Definition confirmed_timer (l : label) : option string :=
  match l with
  | GAutoStopWhenEmpty id ob _ _ => if obEmptyRevalidationPassed ob then Some id else None
  | _ => None
  end.

(** What any text but that of a confirmed timer does: no request, no confirmed timer. *)
Definition unconfirmed X (e : ExtCall X) : Prop := is_stop X e = false.
Definition starts_unconfirmed (l : label) : Prop := confirmed_timer l = None.

Abbreviation usafe := (@safe Manager ExtCall label mutex (fun _ => True) unconfirmed starts_unconfirmed _).

Section Unconfirmed.
Context `{MapRange} (sum256 : string -> string).

Definition unconfirmed_stop (stop : stop_schedule) : Prop :=
  match stop with Some (_, ob, _) => obEmptyRevalidationPassed ob = false | None => True end.

Lemma updated_unconfirmed job now source revision m stop m' m1 :
  updateAutoStopForParticipantSetLocked job now source revision m = (stop, m') ->
  unconfirmed_stop (schedule_of m1 stop).
Proof.
  unfold updateAutoStopForParticipantSetLocked. cbv zeta. repeat case_match; by intros [= <- <-].
Qed.

Lemma usafe_schedule id stop : unconfirmed_stop stop -> usafe (fun _ => True) (schedule_auto_stop id stop).
Proof.
  destruct stop as [[[st ob] d]|]; [|done]. intros Hob. split; [|done].
  unfold starts_unconfirmed, confirmed_timer. simpl in Hob. by rewrite Hob.
Qed.
#[local] Hint Resolve usafe_schedule : go.

Ltac uwalk := go_walk; try reflexivity.

(** *** Reports *)

Lemma usafe_report j ps sr g b : usafe (fun _ => True) (reportParticipantsIfCurrent j ps sr g b).
Proof.
  unfold reportParticipantsIfCurrent, publishParticipants, recordWorkerPublishFailure,
    recordWorkerPublishFailureAttempt, enqueueWorkerEventRetry, supersedeWorkerEventRetry. uwalk.
Qed.

Lemma usafe_reportSpeaker j u n b sr g : usafe (fun _ => True) (reportActiveSpeakerIfCurrent j u n b sr g).
Proof.
  unfold reportActiveSpeakerIfCurrent, publishActiveSpeaker, recordWorkerPublishFailure,
    recordWorkerPublishFailureAttempt, enqueueWorkerEventRetry, supersedeWorkerEventRetry. uwalk.
Qed.

Lemma usafe_chat event : usafe (fun _ => True) (ChatMessageReceived event).
Proof.
  unfold ChatMessageReceived, publishChatMessage, recordWorkerPublishFailure,
    recordWorkerPublishFailureAttempt, enqueueWorkerEventRetry, supersedeWorkerEventRetry. uwalk.
Qed.

Lemma usafe_deliver q r : usafe (fun _ => True) (deliverWorkerEventRetry q r).
Proof.
  unfold deliverWorkerEventRetry, publishWorkerRetryReport, publishParticipants, publishActiveSpeaker,
    publishChatMessage, recordWorkerPublishFailureAttempt, isCurrentWorkerRetryReport. uwalk.
Qed.

#[local] Hint Resolve usafe_report usafe_reportSpeaker usafe_chat usafe_deliver : go.

(** *** Participants and speakers *)

Lemma usafe_participantChanged e : usafe (fun _ => True) (ParticipantChanged e).
Proof.
  unfold ParticipantChanged, report_participants. case_match; [done|].
  apply (safe_bind _ _ _ (fun o => match o with Some (_, _, stop) => unconfirmed_stop stop | None => True end)).
  - intros m _. split; [done|]. cbn [safe]. unfold participant_section.
    match goal with |- context [if ?c then _ else _] => destruct c end; [done|]. cbv zeta.
    match goal with |- context [let '(_, _) := ?x in _] => destruct x as [stopped m'] end.
    destruct (updateAutoStopForParticipantSetLocked _ _ _ _ _) as [stop m2] eqn:E.
    by eapply updated_unconfirmed.
  - intros [[[a stopped] stop]|]; [|done]. intros Hs. uwalk.
Qed.

Lemma usafe_synced s o : usafe (fun _ => True) (participantsSynced s o).
Proof.
  unfold participantsSynced, report_participants. cbv zeta. case_match; [done|].
  apply (safe_bind _ _ _ (fun x => match x with SyncApplied _ stop => unconfirmed_stop stop | _ => True end)).
  - intros m _. split; [done|]. cbn [safe]. unfold sync_section. cbv zeta.
    do 3 (match goal with |- context [if ?c then _ else _] => destruct c end; [by repeat case_match|]).
    destruct (updateAutoStopForParticipantSetLocked _ _ _ _ _) as [stop m2] eqn:E.
    by eapply updated_unconfirmed.
  - intros [| |a|a stop] Hs; uwalk.
Qed.

#[local] Hint Resolve usafe_participantChanged usafe_synced : go.

Lemma usafe_hydrate j b : usafe (fun _ => True) (hydrateVoiceParticipants j b).
Proof. unfold hydrateVoiceParticipants, ParticipantsSynced. uwalk. Qed.

Lemma usafe_hydrateFor j b g : usafe (fun _ => True) (hydrateVoiceParticipantsForGeneration j b g).
Proof. unfold hydrateVoiceParticipantsForGeneration. uwalk. Qed.

#[local] Hint Resolve usafe_hydrate usafe_hydrateFor : go.

Lemma usafe_warmup c j g ds : usafe (fun _ => True) (sync_warmup c j g ds).
Proof. induction ds; cbn [sync_warmup]; unfold waitForParticipantSync; uwalk. Qed.

Lemma usafe_setSpeaker s u b1 b2 : usafe (fun _ => True) (setSpeakerState s u b1 b2).
Proof. unfold setSpeakerState, report_participants. uwalk. Qed.

Lemma usafe_clearSpeakers s : usafe (fun _ => True) (clearSpeakerStates s).
Proof. unfold clearSpeakerStates, report_participants. uwalk. Qed.

#[local] Hint Resolve usafe_setSpeaker usafe_clearSpeakers : go.

(** *** Auto-start and rejoin *)

Lemma usafe_joined e : usafe (fun _ => True) (VoiceUserJoined e).
Proof. unfold VoiceUserJoined. uwalk. Qed.

#[local] Hint Resolve usafe_warmup usafe_joined : go.

Lemma usafe_retryLoop c r st s ds : usafe (fun _ => True) (retry_loop c r st s ds).
Proof. induction ds; cbn [retry_loop]; unfold autoStartRetryStillValid; uwalk. Qed.

#[local] Hint Resolve usafe_retryLoop : go.

Lemma usafe_autoStart s c r st rf e : usafe (fun _ => True) (auto_start_body s c r st rf e).
Proof.
  unfold auto_start_body, autoStartRetryStillValid, refresh_stale, retryAutoStart. uwalk.
Qed.

Lemma usafe_reconcileLoop s ds : usafe (fun _ => True) (reconcile_loop s ds).
Proof. induction ds; cbn [reconcile_loop]; uwalk. Qed.

#[local] Hint Resolve usafe_autoStart usafe_reconcileLoop : go.

(** *** Lifecycle *)

Lemma usafe_Start j : usafe (fun _ => True) (Start j).
Proof. unfold Start, stopAndWaitOpt, stopAndWait, startQueue. uwalk. Qed.

Lemma usafe_Stop s : usafe (fun _ => True) (Stop s).
Proof.
  unfold Stop, stopAndWaitOpt, stopAndWait, startQueue, scheduleAutoStopRejoinReconciliation. uwalk.
Qed.

Lemma usafe_rejoinLoop n : forall j p g a, usafe (fun _ => True) (rejoin_loop n j p g a).
Proof.
  induction n; intros; cbn [rejoin_loop]; unfold stopAndWaitOpt, stopAndWait, startQueue; uwalk.
Qed.

Lemma usafe_notify c s e ch w : usafe (fun _ => True) (NotifyYouTubeLive sum256 c s e ch w).
Proof. unfold NotifyYouTubeLive, await_receipt. uwalk. Qed.

#[local] Hint Resolve usafe_Start usafe_Stop usafe_rejoinLoop usafe_notify : go.

(** What a goroutine continues as. *)
Definition goes_on (next : option label) : Prop :=
  match next with Some l => starts_unconfirmed l | None => True end.

Definition timer (l : label) : bool := match l with GAutoStopWhenEmpty _ _ _ _ => true | _ => false end.

Lemma usafe_done {A} (p : mprog A) : usafe (fun _ => True) p -> usafe goes_on (Goroutines.done p).
Proof. intros Hp. by eapply safe_bind. Qed.

(** Steps to the end of a text, keeping what it returns. *)
Ltac uends :=
  repeat match goal with
  | |- safe _ _ _ goes_on (match ?x with _ => _ end) => destruct x
  | |- safe _ _ _ goes_on (bind _ _) =>
      apply (safe_bind _ _ _ (fun _ => True)); [solve [uwalk]|intros]
  | |- safe _ _ _ goes_on (let _ := _ in _) => cbv zeta
  | |- safe _ _ _ goes_on (Ret _) => cbn; done
  end.

(** Every text but that of a timer. *)
Lemma usafe_code l : timer l = false -> usafe goes_on (code sum256 l).
Proof.
  destruct l; try done; intros _; cbn [code]; try apply usafe_done;
    unfold ActiveSpeakerStateChanged, SetActiveSpeaker, DiscordConnected, DiscordDisconnected,
      stopAndWaitOpt, stopAndWait, startQueue, SetStreamVoiceDefaults, ParticipantsSynced;
    try (by uwalk).
  all: unfold queueLoop, loop_woken, loop_exit, keepVoiceParticipantsSynced, keep_tick,
    rejoinVoiceWithBackoff, autoStartGoroutine, reconcileAutoStopRejoin; try (by uends).
Qed.

(** ** What confirms a stop *)

(** A timer with a confirmed observation is started only by a timer of the same
    stream, in whose run an empty snapshot was read. *)
Definition start_justified (l : label) (tr : list (obs ExtCall label)) (l' : label) : Prop :=
  forall id, confirmed_timer l' = Some id ->
    (exists ob st d, l = GAutoStopWhenEmpty id ob st d) /\ saw_empty id tr.

(** A stop request is sent only by a confirmed timer of that stream, in a run that
    read an empty snapshot too. *)
Definition justified (l : label) (tr : list (obs ExtCall label)) (o : obs ExtCall label) : Prop :=
  match o with
  | OCall e _ => forall id, stops_stream id _ e -> confirmed_timer l = Some id /\ saw_empty id tr
  | OSpawn l' => start_justified l tr l'
  | OWait _ _ => True
  end.

Lemma unconfirmed_justified l tr segment :
  Forall (obs_ok unconfirmed starts_unconfirmed) segment -> Forall (justified l tr) segment.
Proof.
  intros Hseg. eapply Forall_impl; [exact Hseg|]. intros [X e r|d b|l'] Ho; cbn in *; [|done|].
  - intros id Hs. by destruct e.
  - intros id Hc. unfold starts_unconfirmed in Ho. congruence.
Qed.

(** What the text of one timer may send and start at all. *)
Definition own_stop id ob X (e : ExtCall X) : Prop :=
  forall id', stops_stream id' X e -> id' = id /\ obEmptyRevalidationPassed ob = true.
Definition own_timer (id : string) (l : label) : Prop :=
  forall id', confirmed_timer l = Some id' -> id' = id.

Lemma seen_justified id ob st d tr segment :
  saw_empty id tr -> Forall (obs_ok (own_stop id ob) (own_timer id)) segment ->
  Forall (justified (GAutoStopWhenEmpty id ob st d) tr) segment.
Proof.
  intros Hseen Hseg. eapply Forall_impl; [exact Hseg|]. intros [X e r|? b|l'] Ho; cbn in *; [|done|].
  - intros id' Hs. destruct (Ho id' Hs) as [-> ->]. done.
  - intros id' Hc. rewrite (Ho id' Hc). split; [by eexists _, _, _|done].
Qed.

Abbreviation own id ob := (@safe Manager ExtCall label mutex (fun _ => True) (own_stop id ob)
  (own_timer id) _ (fun _ => True)).

Lemma own_request id ob ob' st job g :
  obEmptyRevalidationPassed ob = true ->
  own id ob (auto_stop_request id ob' st job g).
Proof.
  intros Hp.
  assert (forall c, own id ob (stopStreamWithContext c st id)) as Hcall.
  { intros c. unfold stopStreamWithContext. case_match; (apply safe_call_rule; intros id' <-; done). }
  assert (forall g e, own id ob (scheduleAutoStopRetry id g st e ob')) as Hretry.
  { intros g' e. unfold scheduleAutoStopRetry. go_walk.
    intros id'. cbn. case_match; congruence. }
  unfold auto_stop_request, scheduleAutoStopRejoinReconciliation. go_walk;
    try apply Hcall; try apply Hretry; done.
Qed.

(** C11: an empty channel is confirmed before its stream is stopped. Take a client that
    can read the channel, and stays one, and a run of any entry point or goroutine
    of the manager, whatever else happens in between. The Control Panel is asked to stop a
    stream only by an empty-channel timer of that stream whose observation is
    already confirmed, and only after this run read a full view of the channel of
    the stream with nobody in it; and a timer with a confirmed observation is
    started only by a timer of the same stream whose own run read such an empty
    view. So no report of an empty channel, and no unknown or non-empty view,
    starts a confirmed timer or stops a stream: two empty views always precede
    the stop. *)
Theorem auto_stop_needs_confirmation en l k m :
  keeps_client en -> vcSnapshotSource (mVoice m) = true ->
  let '(next, _, tr) := run en (code sum256 l) k m in
  Forall (justified l tr) tr /\ (forall l', next = Some l' -> start_justified l tr l').
Proof.
  intros [Hc Hw] Hsrc. destruct (timer l) eqn:Et.
  2: { pose proof (run_safe (fun _ => True) unconfirmed starts_unconfirmed goes_on en _ k m
         (conj (fun _ _ _ _ _ => I) (fun _ _ _ _ _ => I)) I (usafe_code l Et)) as Hr.
       destruct (run en _ k m) as [[next s] tr]. destruct Hr as (Hn & _ & Hr).
       split; [by apply unconfirmed_justified|]. intros l' -> id Hid. cbn in Hn. congruence. }
  destruct l as [| | | | | | | | | | | | | | | | | | | | | |id ob st delay| | |]; try done. clear Et.
  cbn [code]. unfold autoStopWhenEmpty. cbv zeta. cbn [bind wait run].
  pose proof (Hw k (Some (Z.max 0 delay)) (fun _ => false) m) as Hv.
  destruct (env_wait en k _ _ m) as [b s1]. cbn [snd] in Hv. cbn [bind read run].
  destruct (autoStopStillValidLocked id (obAutoStopGeneration ob) s1) eqn:Evalid;
    cbn [negb bind run]; [|by repeat constructor].
  assert (jStreamID (mCurrent s1) = id) as Hcur.
  { unfold autoStopStillValidLocked in Evalid. bool_hyps. done. }
  cbn [bind read run]. rewrite Hv, Hsrc. cbn [negb bind call run].
  destruct (env_call en _ _ (SnapshotVoiceParticipants (mCurrent s1)) s1) as [[snap|] s2];
    cbn [bind modify run]; [|by repeat constructor].
  case_bool_decide as Hsnap.
  - match goal with |- context [run en (bind ?p ?g) ?k' s2] =>
      pose proof (run_safe (fun _ => True) unconfirmed starts_unconfirmed goes_on en (bind p g) k' s2
         (conj (fun _ _ _ _ _ => I) (fun _ _ _ _ _ => I)) I) as Hr;
      destruct (run en (bind p g) k' s2) as [[u s3] t3] end.
    destruct Hr as (Hn & _ & Hr); [by uends|].
    split; [|intros l' ->].
    + do 2 (constructor; [done|]). by apply unconfirmed_justified.
    + intros id' Hid. cbn in Hn. congruence.
  - cbn [bind read run].
    destruct (autoStopStillValidForJobLocked _ _ _ _ s2); cbn [negb bind run]; [|by repeat constructor].
    change (obEmptyRevalidationPassed (_ <| obParticipantStateRevision := _ |>))
      with (obEmptyRevalidationPassed ob).
    assert (forall t, saw_empty id (OWait (Some (Z.max 0 delay)) b
      :: OCall (SnapshotVoiceParticipants (mCurrent s1)) (Some snap) :: t)) as Hseen.
    { intros t. exists (mCurrent s1), snap. split; [apply list_elem_of_further, list_elem_of_here|].
      split; [done|]. by destruct (psParticipants snap). }
    destruct (obEmptyRevalidationPassed ob) eqn:Ep; cbn [negb].
    + rewrite run_bind.
      match goal with |- context [run en (auto_stop_request ?i ?o ?s ?j ?g) ?k' s2] =>
        pose proof (run_safe (fun _ => True) (own_stop id ob) (own_timer id) (fun _ => True) en
          (auto_stop_request i o s j g) k' s2
          (conj (fun _ _ _ _ _ => I) (fun _ _ _ _ _ => I)) I (own_request id ob o s j g Ep)) as Hr;
        destruct (run en (auto_stop_request i o s j g) k' s2) as [[u s3] t3] end.
      destruct Hr as (_ & _ & Hr). cbn [run]. split; [|done]. rewrite app_nil_r.
      do 2 (constructor; [done|]). by eapply seen_justified.
    + cbn [bind spawn run]. split; [|done]. repeat (constructor; [done|]). constructor; [|done].
      intros id' [= <-]. split; [by eexists _, _, _|apply Hseen].
Qed.
End Unconfirmed.

(** ** Witness: the last participant leaves *)
Module Sample.
Import AutoStop.Sample.
#[local] Existing Instance canonical_range.

Definition run_of (l : label) (k : nat) (m : Manager) :=
  run quiet_env (code (fun _ => "sum") l) k m.

Definition started (tr : list (obs ExtCall label)) : list label :=
  omap (fun o => match o with OSpawn l => Some l | _ => None end) tr.

Definition left : label :=
  EParticipantChanged (mkParticipantEvent "stream" "guild" "voice" "user" "" "" false false).
Definition r1 := run_of left 0 m0.
Definition first_timer : label := default left (last (started r1.2)).
Definition r2 := run_of first_timer 1 r1.1.2.
Definition second_timer : label := default left (last (started r2.2)).
Definition r3 := run_of second_timer 2 r2.1.2.

Lemma auto_stop_needs_confirmation_witness :
  confirmed_timer first_timer = None /\ calls is_stop r2.2 = 0 /\ saw_empty "stream" r2.2 /\
  confirmed_timer second_timer = Some "stream" /\ calls is_stop r3.2 = 1 /\ saw_empty "stream" r3.2.
Proof.
  assert (keeps_client quiet_env) as Hk by (split; reflexivity).
  assert (OSpawn second_timer ∈ r2.2) as Hin by (vm_compute; apply list_elem_of_further,
    list_elem_of_further, list_elem_of_here).
  assert (confirmed_timer second_timer = Some "stream") as Hc by (vm_compute; reflexivity).
  assert (calls is_stop r3.2 = 1) as Hs by (vm_compute; reflexivity).
  split; [vm_compute; reflexivity|]. split; [vm_compute; reflexivity|]. split; [|split; [exact Hc|]].
  - pose proof (auto_stop_needs_confirmation (fun _ => "sum") quiet_env first_timer 1 r1.1.2 Hk
      eq_refl) as H2.
    change (run quiet_env _ 1 r1.1.2) with r2 in H2.
    destruct r2 as [[next s] tr]. destruct H2 as [H2 _]. cbn [snd] in *.
    rewrite Forall_forall in H2. exact (proj2 (H2 _ Hin _ Hc)).
  - split; [exact Hs|].
    pose proof (auto_stop_needs_confirmation (fun _ => "sum") quiet_env second_timer 2 r2.1.2 Hk
      eq_refl) as H3.
    change (run quiet_env _ 2 r2.1.2) with r3 in H3.
    assert (exists err, OCall (StopStreamContext 1 1 "stream") err ∈ r3.2) as [err Hin3].
    { exists None. vm_compute. do 2 apply list_elem_of_further. apply list_elem_of_here. }
    destruct r3 as [[next s] tr]. destruct H3 as [H3 _]. cbn [snd] in *.
    rewrite Forall_forall in H3. exact (proj2 (H3 _ Hin3 "stream" eq_refl)).
Defined.
End Sample.
