(* ===== verification/ManagerLocks.v ===== *)
(** * ManagerLocks: the manager's report mutex is always released

    [participantReportMu] is the one mutex the job manager holds across calls
    (it serialises the Worker's reports).  The manager releases it on every
    path, never waits while it holds it, never takes it twice, and makes no call
    to the Discord client under it. *)

From S2P Require Import Prelude Conc LockOrder Errors Types RetryQueue Manager AutoStopState.
From S2P Require Import WorkerReporting Participants AutoStart AutoStop VoiceDefaults Lifecycle.
From S2P Require Import Notification Goroutines.

Open Scope go_scope.

Definition manager_rank (mu : mutex) : nat := 0.

Definition no_wait (d : option Duration) : Prop := False.

(** The calls that go to the Discord client. *)
Definition voice_call {X} (e : ExtCall X) : Prop :=
  match e with
  | JoinVoice _ | LeaveVoice _ | SnapshotVoiceParticipants _ | AutoStartVoicePresence _
  | SetAutoStartVoiceTargets _ | SendMessage _ _ => True
  | _ => False
  end.

Definition voice_unlocked X (hs : gset mutex) (e : ExtCall X) : Prop := voice_call e -> hs = ∅.

Section ManagerLocks.
Context `{MapRange}.

Abbreviation ord := (balanced manager_rank no_wait voice_unlocked).

Ltac mwalk :=
  order_walk;
  try lazymatch goal with
  | |- voice_unlocked _ ∅ _ => intros _; reflexivity
  | |- voice_unlocked _ _ _ => intros []
  end.

(** *** Reports *)

Lemma ord_publishParticipants hs ctx r j ps : ord hs (publishParticipants ctx r j ps).
Proof. unfold publishParticipants. mwalk. Qed.

Lemma ord_publishSpeaker hs ctx r j u n b : ord hs (publishActiveSpeaker ctx r j u n b).
Proof. unfold publishActiveSpeaker. mwalk. Qed.

Lemma ord_publishChat hs ctx r j msg : ord hs (publishChatMessage ctx r j msg).
Proof. unfold publishChatMessage. mwalk. Qed.

Lemma ord_failureAttempt hs e s : ord hs (recordWorkerPublishFailureAttempt e s).
Proof. unfold recordWorkerPublishFailureAttempt. mwalk. Qed.

Lemma ord_failure hs e s : ord hs (recordWorkerPublishFailure e s).
Proof. unfold recordWorkerPublishFailure, recordWorkerPublishFailureAttempt. mwalk. Qed.

Lemma ord_enqueue_retry hs r : ord hs (enqueueWorkerEventRetry r).
Proof. unfold enqueueWorkerEventRetry. mwalk. Qed.

Lemma ord_supersede hs j g k : ord hs (supersedeWorkerEventRetry j g k).
Proof. unfold supersedeWorkerEventRetry. mwalk. Qed.

Lemma ord_isCurrent hs q r : ord hs (isCurrentWorkerRetryReport q r).
Proof. unfold isCurrentWorkerRetryReport. mwalk. Qed.

#[local] Hint Resolve ord_publishParticipants ord_publishSpeaker ord_publishChat ord_failureAttempt
  ord_failure ord_enqueue_retry ord_supersede ord_isCurrent : order.

Lemma ord_publishRetry hs ctx r rep : ord hs (publishWorkerRetryReport ctx r rep).
Proof. unfold publishWorkerRetryReport. mwalk. Qed.

#[local] Hint Resolve ord_publishRetry : order.

Lemma ord_deliver_retry q rep : ord ∅ (deliverWorkerEventRetry q rep).
Proof. unfold deliverWorkerEventRetry. mwalk. Qed.

#[local] Hint Resolve ord_deliver_retry : order.

Lemma ord_queueLoop q : ord ∅ (queueLoop q).
Proof. unfold queueLoop, loop_woken, loop_exit. mwalk. Qed.

Lemma ord_reportParticipants j ps sr g b : ord ∅ (reportParticipantsIfCurrent j ps sr g b).
Proof. unfold reportParticipantsIfCurrent. mwalk. Qed.

Lemma ord_reportSpeaker j u n b sr g : ord ∅ (reportActiveSpeakerIfCurrent j u n b sr g).
Proof. unfold reportActiveSpeakerIfCurrent. mwalk. Qed.

Lemma ord_chat event : ord ∅ (ChatMessageReceived event).
Proof. unfold ChatMessageReceived. mwalk. Qed.

#[local] Hint Resolve ord_reportParticipants ord_reportSpeaker ord_chat ord_queueLoop : order.

(** *** Participants and speakers *)

Lemma ord_schedule id s : ord ∅ (schedule_auto_stop id s).
Proof. unfold schedule_auto_stop. mwalk. Qed.

Lemma ord_report a : ord ∅ (report_participants a).
Proof. unfold report_participants. mwalk. Qed.

#[local] Hint Resolve ord_schedule ord_report : order.

Lemma ord_participantChanged e : ord ∅ (ParticipantChanged e).
Proof. unfold ParticipantChanged, report_participants. mwalk. Qed.

Lemma ord_synced s o : ord ∅ (participantsSynced s o).
Proof. unfold participantsSynced, report_participants. mwalk. Qed.

#[local] Hint Resolve ord_participantChanged ord_synced : order.

Lemma ord_ParticipantsSynced s : ord ∅ (ParticipantsSynced s).
Proof. unfold ParticipantsSynced. mwalk. Qed.

#[local] Hint Resolve ord_ParticipantsSynced : order.

Lemma ord_hydrate j b : ord ∅ (hydrateVoiceParticipants j b).
Proof. unfold hydrateVoiceParticipants. mwalk. Qed.

Lemma ord_hydrateFor j b g : ord ∅ (hydrateVoiceParticipantsForGeneration j b g).
Proof. unfold hydrateVoiceParticipantsForGeneration. mwalk. Qed.

#[local] Hint Resolve ord_hydrate ord_hydrateFor : order.

Lemma ord_waitSync c d : ord ∅ (waitForParticipantSync c d).
Proof. unfold waitForParticipantSync. mwalk. Qed.

#[local] Hint Resolve ord_waitSync : order.

Lemma ord_warmup c j g ds : ord ∅ (sync_warmup c j g ds).
Proof. induction ds; cbn [sync_warmup]; mwalk. Qed.

#[local] Hint Resolve ord_warmup : order.

Lemma ord_setSpeaker s u b1 b2 : ord ∅ (setSpeakerState s u b1 b2).
Proof. unfold setSpeakerState. mwalk. Qed.

Lemma ord_clearSpeakers s : ord ∅ (clearSpeakerStates s).
Proof. unfold clearSpeakerStates. mwalk. Qed.

#[local] Hint Resolve ord_setSpeaker ord_clearSpeakers : order.

(** *** Auto-start and auto-stop *)

Lemma ord_retryValid s r : ord ∅ (autoStartRetryStillValid s r).
Proof. unfold autoStartRetryStillValid. mwalk. Qed.

#[local] Hint Resolve ord_retryValid : order.

Lemma ord_retryLoop c r st s ds : ord ∅ (retry_loop c r st s ds).
Proof. induction ds; cbn [retry_loop]; mwalk. Qed.

#[local] Hint Resolve ord_retryLoop : order.

Lemma ord_retryAutoStart c r st s : ord ∅ (retryAutoStart c r st s).
Proof. unfold retryAutoStart. mwalk. Qed.

Lemma ord_voiceUserJoined e : ord ∅ (VoiceUserJoined e).
Proof. unfold VoiceUserJoined. mwalk. Qed.

#[local] Hint Resolve ord_voiceUserJoined : order.

Lemma ord_refreshStale s r e err : ord ∅ (refresh_stale s r e err).
Proof. unfold refresh_stale. mwalk.
Qed.

#[local] Hint Resolve ord_retryAutoStart ord_voiceUserJoined ord_refreshStale : order.

Lemma ord_autoStart s c r st rf e : ord ∅ (autoStartGoroutine s c r st rf e).
Proof. unfold autoStartGoroutine, auto_start_body. mwalk. Qed.

Lemma ord_stopRetry s g st err o : ord ∅ (scheduleAutoStopRetry s g st err o).
Proof. unfold scheduleAutoStopRetry. mwalk. Qed.

Lemma ord_scheduleReconcile s : ord ∅ (scheduleAutoStopRejoinReconciliation s).
Proof. unfold scheduleAutoStopRejoinReconciliation. mwalk. Qed.

#[local] Hint Resolve ord_stopRetry ord_scheduleReconcile : order.

Lemma ord_stopRequest s o st j g : ord ∅ (auto_stop_request s o st j g).
Proof. unfold auto_stop_request, stopStreamWithContext. mwalk. Qed.

#[local] Hint Resolve ord_stopRequest : order.

Lemma ord_autoStop s o st d : ord ∅ (autoStopWhenEmpty s o st d).
Proof. unfold autoStopWhenEmpty. mwalk. Qed.

Lemma ord_reconcileLoop s ds : ord ∅ (reconcile_loop s ds).
Proof. induction ds; cbn [reconcile_loop]; mwalk. Qed.

#[local] Hint Resolve ord_reconcileLoop ord_autoStop ord_autoStart : order.

(** *** Lifecycle *)

Lemma ord_stopQueue q : ord ∅ (stopAndWaitOpt q).
Proof. unfold stopAndWaitOpt, stopAndWait. mwalk. Qed.

Lemma ord_startQueue q : ord ∅ (startQueue q).
Proof. unfold startQueue. mwalk. Qed.

#[local] Hint Resolve ord_stopQueue ord_startQueue : order.

Lemma ord_Start j : ord ∅ (Start j).
Proof. unfold Start. mwalk. Qed.

Lemma ord_Stop s : ord ∅ (Stop s).
Proof. unfold Stop. mwalk. Qed.

Lemma ord_connected : ord ∅ DiscordConnected.
Proof. unfold DiscordConnected. mwalk. Qed.

Lemma ord_disconnected r : ord ∅ (DiscordDisconnected r).
Proof. unfold DiscordDisconnected. mwalk. Qed.

Lemma ord_rejoinLoop n : forall j p g a, ord ∅ (rejoin_loop n j p g a).
Proof. induction n; intros; cbn [rejoin_loop]; mwalk. Qed.

Lemma ord_notify sum256 c s e ch w : ord ∅ (NotifyYouTubeLive sum256 c s e ch w).
Proof. unfold NotifyYouTubeLive, await_receipt. mwalk. Qed.

#[local] Hint Resolve ord_Start ord_Stop ord_connected ord_disconnected ord_rejoinLoop ord_notify : order.

Lemma manager_ord_code sum256 l : ord ∅ (code sum256 l).
Proof.
  destruct l; cbn [code]; unfold Goroutines.done, ActiveSpeakerStateChanged, SetActiveSpeaker,
    keepVoiceParticipantsSynced, keep_tick, rejoinVoiceWithBackoff, reconcileAutoStopRejoin,
    SetStreamVoiceDefaults; mwalk.
Qed.
End ManagerLocks.
