(* ===== verification/System.v ===== *)
(** * System: the Discord client and the job manager as one process

    [main] makes one [RealClient] and one [Manager], hands the client to the
    manager as its voice client and the manager to the client as its event sink.
    Here both run in one pool: a call of the manager to its voice client is the
    client's method, run by the calling goroutine, and an event the client tells
    its sink is the manager's method, run under whatever mutexes the client holds
    at that moment. *)

From S2P Require Import Prelude Conc LockOrder Compose Errors Types RetryQueue Manager AutoStopState.
From S2P Require Import WorkerReporting Participants AutoStart AutoStop VoiceDefaults Lifecycle.
From S2P Require Import Notification Goroutines Secrets SdkState DaveWatch AudioForward DiscordClient.
From S2P Require Import DiscordEvents SpeakerForward DiscordPool DiscordInvariant ClientLocks ManagerLocks.

Open Scope go_scope.

(** What the two components share: nothing but the process. *)
Record System := mkSystem { sysClient : RealClient; sysManager : Manager }.

(** Calls that leave the process, mutexes and goroutines of either component. *)
Inductive SysCall (X : Type) : Type :=
| FromClient (e : DcCall X)
| FromManager (e : ExtCall X).
Arguments FromClient {X}. Arguments FromManager {X}.

Abbreviation SysMutex := (ClMutex + mutex)%type.
Abbreviation SysLabel := (ClLabel + label)%type.
Abbreviation sprog := (prog System SysCall SysLabel SysMutex).

Definition put_client (c : RealClient) (s : System) : System := mkSystem c (sysManager s).
Definition put_manager (m : Manager) (s : System) : System := mkSystem (sysClient s) m.

Section System.
Context `{NetURL} `{MapRange} (sum256 : string -> string).

(** The manager's methods that are events of the client; none of them calls the
    client back ([sink_text_quiet]). *)
Definition sink_text (event : SinkEvent) : mprog unit :=
  match event with
  | DiscordClient.VoiceUserJoined event => AutoStart.VoiceUserJoined event
  | DiscordClient.ParticipantChanged event => Participants.ParticipantChanged event
  | DiscordClient.ParticipantsSynced snapshot => Participants.ParticipantsSynced snapshot
  | DiscordClient.ChatMessageReceived event => WorkerReporting.ChatMessageReceived event
  | DiscordClient.ActiveSpeakerDetected streamID userID =>
      do* SetActiveSpeaker streamID userID in Ret tt
  | DiscordClient.ActiveSpeakerStateChanged streamID userID speaking =>
      Participants.ActiveSpeakerStateChanged streamID userID speaking
  | DiscordClient.DiscordConnected => Lifecycle.DiscordConnected
  | DiscordClient.DiscordDisconnected reason => Lifecycle.DiscordDisconnected reason
  end.

Definition from_manager X (e : ExtCall X) : sprog X := Call (FromManager e) Ret.

(** An event of the client, run by the manager. *)
Definition sink_event (event : SinkEvent) : sprog unit :=
  inline sysManager put_manager inr inr from_manager (sink_text event).

(** What the client calls: its sink, or the outside. *)
Definition client_calls X (e : DcCall X) : sprog X :=
  match e in DcCall Y return sprog Y with
  | ToSink _ event => sink_event event
  | e => Call (FromClient e) Ret
  end.

Definition in_client {A} (p : cprog A) : sprog A :=
  inline sysClient put_client inl inl client_calls p.

(** [SendMessage] of the client, as the manager sees its errors. *)
Definition send_result (r : string + send_error) : string * option error :=
  match r with
  | inl messageID => (messageID, None)
  | inr e => ("", Some (SendMessageError (seCode e) (seRetryable e) (seRetryAfter e)))
  end.

(** What the manager calls: the client, or the outside. *)
Definition manager_calls X (e : ExtCall X) : sprog X :=
  match e in ExtCall Y return sprog Y with
  | Manager.JoinVoice job => in_client (DiscordClient.JoinVoice job)
  | Manager.LeaveVoice streamID => in_client (DiscordClient.LeaveVoice streamID)
  | Manager.SnapshotVoiceParticipants job => in_client (DiscordEvents.SnapshotVoiceParticipants job)
  | Manager.AutoStartVoicePresence target => in_client (DiscordEvents.AutoStartVoicePresence target)
  | Manager.SetAutoStartVoiceTargets targets => in_client (DiscordEvents.SetAutoStartVoiceTargets targets)
  | Manager.SendMessage _ message =>
      let* r := in_client (DiscordEvents.SendMessage message) in Ret (send_result r)
  | e => Call (FromManager e) Ret
  end.

Definition in_manager {A} (p : mprog A) : sprog A :=
  inline sysManager put_manager inr inr manager_calls p.

(** A goroutine goes on with a label of its own component. *)
Definition again {A B} (f : A -> B) (p : sprog (option A)) : sprog (option B) :=
  let* next := p in Ret (option_map f next).

Definition system_code (l : SysLabel) : sprog (option SysLabel) :=
  match l with
  | inl l => again inl (in_client (client_code l))
  | inr l => again inr (in_manager (code sum256 l))
  end.

(** What the outside may start: the SDK's callbacks, the Gateway's
    reconciliation, the HTTP API and the poller; not what the two components
    call of each other. *)
Definition system_entry (l : SysLabel) : Prop :=
  match l with
  | inl (EJoinVoice _ | ELeaveVoice _ | ESnapshotVoiceParticipants _ | EAutoStartVoicePresence _
        | ESetAutoStartVoiceTargets _ | ESendMessage _) => False
  | inr (EDiscordConnected | EDiscordDisconnected _ | EParticipantChanged _ | EParticipantsSynced _
        | EActiveSpeakerStateChanged _ _ _ | EChatMessageReceived _ | EVoiceUserJoined _) => False
  | inl l => client_entry l
  | inr l => is_entry l
  end.

(** Time passes for both. *)
Definition system_advance (d : Duration) (s : System) : System :=
  mkSystem (client_advance d (sysClient s)) (Goroutines.advance d (sysManager s)).

Definition system_clock (s : System) : Time := hxClock (sysClient s).

Definition systems (s0 : System) (p : pool System SysCall SysLabel SysMutex _ _) : Prop :=
  reachable system_code system_entry system_clock system_advance s0 p.

(** The process as [main] starts it. *)
Definition booted (reporter : option ReporterCaps) (now : Time) : System :=
  mkSystem (dormant <| clSink := Some (mkSink true true) |> <| hxClock := now |>)
    (NewManagerWithReporter (mkVoiceCaps true true true) reporter now).


(** ** Safety of the whole *)

(** What leaves the process: the client's SDK calls and audio batches, and the
    manager's reports and requests to the Control Panel; never an event for the
    sink, never a call to the voice client. *)
Definition outside_ok X (e : SysCall X) : Prop :=
  match e with
  | FromClient (ToSink _ _) => False
  | FromClient _ => True
  | FromManager e => ~ voice_call e /\ call_ok e
  end.

Record system_ok (s : System) : Prop := {
  so_client : client_ok (sysClient s);
  so_manager : manager_ok (sysManager s) }.

Definition system_label_ok (l : SysLabel) : Prop :=
  match l with inl _ => True | inr l => label_ok l end.

Abbreviation ssafe :=
  (@safe System SysCall SysLabel SysMutex system_ok outside_ok system_label_ok _).

(** The sink's methods do not call the client. *)
Lemma sink_text_quiet event :
  safe (fun _ : Manager => True) (fun X (e : ExtCall X) => ~ voice_call e) (fun _ : label => True)
    (fun _ => True) (sink_text event).
Proof.
  destruct event; cbn [sink_text];
    unfold AutoStart.VoiceUserJoined, Participants.ParticipantChanged, Participants.ParticipantsSynced,
      participantsSynced, report_participants, schedule_auto_stop, WorkerReporting.ChatMessageReceived,
      SetActiveSpeaker, clearSpeakerStates, Participants.ActiveSpeakerStateChanged, setSpeakerState,
      Lifecycle.DiscordConnected, Lifecycle.DiscordDisconnected, reportParticipantsIfCurrent,
      reportActiveSpeakerIfCurrent, publishParticipants, publishActiveSpeaker, publishChatMessage,
      recordWorkerPublishFailure, recordWorkerPublishFailureAttempt, enqueueWorkerEventRetry,
      supersedeWorkerEventRetry, stopAndWaitOpt, stopAndWait, startQueue;
    go_walk; auto.
  all: unfold report_participants, reportParticipantsIfCurrent, publishParticipants,
    recordWorkerPublishFailure, recordWorkerPublishFailureAttempt, enqueueWorkerEventRetry,
    supersedeWorkerEventRetry; go_walk; auto.
Qed.

Lemma sink_text_safe event :
  safe manager_ok (fun X (e : ExtCall X) => call_ok e) label_ok (fun _ => True) (sink_text event).
Proof.
  destruct event; cbn [sink_text].
  - by eapply safe_bind_inv, (code_safe id (EVoiceUserJoined event)).
  - by eapply safe_bind_inv, (code_safe id (EParticipantChanged event)).
  - by eapply safe_bind_inv, (code_safe id (EParticipantsSynced snapshot)).
  - by eapply safe_bind_inv, (code_safe id (EChatMessageReceived event)).
  - apply safe_seq_rule; [|done]. by eapply safe_bind_inv, (code_safe id (ESetActiveSpeaker streamID userID)).
  - by eapply safe_bind_inv, (code_safe id (EActiveSpeakerStateChanged streamID userID speaking)).
  - by eapply safe_bind_inv, (code_safe id EDiscordConnected).
  - by eapply safe_bind_inv, (code_safe id (EDiscordDisconnected reason)).
Qed.

Lemma sink_event_safe event : ssafe (fun _ => True) (sink_event event).
Proof.
  unfold sink_event. eapply safe_inline;
    [| | | |apply safe_both; [apply sink_text_safe|apply sink_text_quiet]].
  - by intros s [].
  - intros s s' Hs []. by split.
  - intros X e [Hok Hq]. by repeat split.
  - by intros l [Hl _].
Qed.

Lemma in_client_safe {A} (Q : A -> Prop) (p : cprog A) :
  safe client_ok (fun _ _ => True) (fun _ => True) Q p -> ssafe Q (in_client p).
Proof.
  apply safe_inline.
  - by intros s [].
  - intros s s' Hs []. by split.
  - intros X e _. destruct e; cbn [client_calls]; try (by repeat split). apply sink_event_safe.
  - done.
Qed.

Lemma client_op_safe {A} l (p : cprog A) :
  client_code l = DiscordPool.done p -> ssafe (fun _ => True) (in_client p).
Proof.
  intros Hl. apply in_client_safe. eapply safe_bind_inv.
  pose proof (safe_client_code l) as Hs. rewrite Hl in Hs. exact Hs.
Qed.

Lemma manager_calls_safe X (e : ExtCall X) : call_ok e -> ssafe (fun _ => True) (manager_calls X e).
Proof.
  intros He. destruct e; cbn [manager_calls];
    try (split; [split; [by intros []|exact He]|done]).
  - by apply (client_op_safe (EJoinVoice job)).
  - by apply (client_op_safe (ELeaveVoice streamID)).
  - by apply (client_op_safe (ESnapshotVoiceParticipants job)).
  - by apply (client_op_safe (EAutoStartVoicePresence target)).
  - by apply (client_op_safe (ESetAutoStartVoiceTargets targets)).
  - apply safe_seq_rule; [|done]. by apply (client_op_safe (ESendMessage message)).
Qed.

Lemma in_manager_safe {A} (Q : A -> Prop) (p : mprog A) :
  safe manager_ok (fun _ e => call_ok e) label_ok Q p -> ssafe Q (in_manager p).
Proof.
  apply safe_inline.
  - by intros s [].
  - intros s s' Hs []. by split.
  - apply manager_calls_safe.
  - done.
Qed.

Lemma system_code_safe l : system_label_ok l -> ssafe (next_ok system_label_ok) (system_code l).
Proof.
  intros Hl. destruct l as [l|l]; cbn [system_code]; unfold again.
  - eapply safe_bind; [apply in_client_safe, safe_client_code|]. by intros [l'|].
  - eapply safe_bind; [apply in_manager_safe, code_safe, Hl|]. intros [l'|] Hl'; exact Hl'.
Qed.

Lemma system_entry_ok l : system_entry l -> system_label_ok l.
Proof. destruct l as [l|l]; [done|]. by destruct l. Qed.

Lemma system_advance_ok d s : 0 <= d -> system_ok s -> system_ok (system_advance d s).
Proof.
  intros Hd [Hc Hm]. split; [|by apply ok_advance].
  destruct Hc as [? ? ? ? ? ? ?]. by split.
Qed.

Lemma booted_ok reporter now : system_ok (booted reporter now).
Proof.
  split; [|apply new_manager_ok]. simpl.
  destruct dormant_ok as [? ? ? ? ? ? ?]. by split.
Qed.

Lemma systems_ok s0 p :
  system_ok s0 -> systems s0 p -> pool_ok system_ok outside_ok system_label_ok p.
Proof.
  intros Hs0 Hp.
  apply (pool_invariant system_code system_entry system_clock system_advance system_ok outside_ok
           system_label_ok system_code_safe system_entry_ok system_advance_ok s0 p Hs0 Hp).
Qed.

(** ** The lock order of the whole *)

(** The client's mutexes come before the manager's. *)
Definition system_rank (mu : SysMutex) : nat :=
  match mu with inl mu => client_rank mu | inr _ => 3 end.

(** A goroutine may wait under a mutex: [DiscordConnected] and
    [DiscordDisconnected] wait for the old retry queue to end. *)
Definition may_wait (d : option Duration) : Prop := True.
Definition every_call (X : Type) (hs : gset SysMutex) (e : SysCall X) : Prop := True.

Abbreviation sord := (balanced system_rank may_wait every_call).

Lemma client_outer (hs : gset ClMutex) (mu : mutex) : below system_rank (set_map inl hs) (inr mu).
Proof. intros m (c & -> & _)%elem_of_map. simpl. pose proof (client_rank_le c). lia. Qed.

Lemma ord_sink_text event : balanced manager_rank no_wait voice_unlocked ∅ (sink_text event).
Proof.
  destruct event; cbn [sink_text].
  - apply ord_voiceUserJoined.
  - apply ord_participantChanged.
  - apply ord_ParticipantsSynced.
  - apply ord_chat.
  - apply balanced_seq; [|done]. unfold SetActiveSpeaker.
    case_match; [apply ord_clearSpeakers|apply ord_setSpeaker].
  - apply balanced_seq; [apply ord_setSpeaker|done].
  - apply ord_connected.
  - apply ord_disconnected.
Qed.

Lemma ord_sink_event (hs : gset ClMutex) event : sord (set_map inl hs) (sink_event event).
Proof.
  unfold sink_event, balanced. rewrite <- (right_id_L ∅ (∪) (set_map inl hs)).
  rewrite <- (set_map_empty (C := gset mutex) (D := gset SysMutex) inr).
  apply (ordered_inline _ _ _ _ _ manager_rank no_wait (fun _ _ _ => True) _ _ _ (set_map inl hs))
    with (Q := fun hs' _ => hs' = ∅).
  - by intros [] [].
  - apply client_outer.
  - intros m m'. unfold manager_rank. lia.
  - by intros d [].
  - by right.
  - intros X e hs' _. by apply balanced_call.
  - by intros hs' a ->.
  - eapply ordered_mono; [|eapply ordered_under; [|apply ord_sink_text]]; done.
Qed.

Lemma ord_client_calls (hs : gset ClMutex) X (e : DcCall X) : sord (set_map inl hs) (client_calls X e).
Proof. destruct e; cbn [client_calls]; try by split. apply ord_sink_event. Qed.

Lemma ord_in_client {A} (p : cprog A) :
  balanced client_rank with_timer ClientLocks.any_call ∅ p -> sord ∅ (in_client p).
Proof.
  intros Hp. unfold in_client, balanced. rewrite <- (left_id_L ∅ (∪) ∅).
  rewrite <- (set_map_empty (C := gset ClMutex) (D := gset SysMutex) inl) at 2.
  apply (ordered_inline _ _ _ _ _ client_rank with_timer ClientLocks.any_call _ _ _ ∅)
    with (Q := fun hs' _ => hs' = ∅); [| | | | | | |exact Hp].
  - by intros m m' [= ->].
  - intros m. apply below_empty.
  - done.
  - done.
  - by left.
  - intros X e hs _. rewrite (left_id_L ∅ (∪)). apply ord_client_calls.
  - intros hs a ->. by rewrite set_map_empty, (left_id_L ∅ (∪)).
Qed.

Lemma ord_manager_calls (hs : gset mutex) X (e : ExtCall X) :
  voice_unlocked X hs e -> sord (set_map inr hs) (manager_calls X e).
Proof.
  intros Hv. destruct e; cbn [manager_calls]; try (by split);
    rewrite (Hv I), set_map_empty.
  - apply ord_in_client, ord_join; apply below_empty.
  - apply ord_in_client, ord_leave, below_empty.
  - apply ord_in_client, ord_snapshot, below_empty.
  - apply ord_in_client, ord_presence.
  - apply ord_in_client, ord_set_targets.
  - apply balanced_seq; [apply ord_in_client, ord_send|done].
Qed.

Lemma ord_in_manager {A} (p : mprog A) :
  balanced manager_rank no_wait voice_unlocked ∅ p -> sord ∅ (in_manager p).
Proof.
  intros Hp. unfold in_manager, balanced. rewrite <- (left_id_L ∅ (∪) ∅).
  rewrite <- (set_map_empty (C := gset mutex) (D := gset SysMutex) inr) at 2.
  apply (ordered_inline _ _ _ _ _ manager_rank no_wait voice_unlocked _ _ _ ∅)
    with (Q := fun hs' _ => hs' = ∅); [| | | | | | |exact Hp].
  - by intros [] [].
  - intros m. apply below_empty.
  - intros m m'. unfold manager_rank. lia.
  - by intros d [].
  - by left.
  - intros X e hs Hv. rewrite (left_id_L ∅ (∪)). by apply ord_manager_calls.
  - intros hs a ->. by rewrite set_map_empty, (left_id_L ∅ (∪)).
Qed.

Lemma system_code_ordered l :
  ordered system_rank may_wait every_call LockOrder.ends ∅ (system_code l).
Proof.
  eapply (ordered_mono _ _ _ (fun hs' _ => hs' = ∅)); [done|].
  destruct l as [l|l]; cbn [system_code]; unfold again; apply balanced_seq; try done.
  - apply ord_in_client, ClientLocks.ord_code.
  - apply ord_in_manager, ManagerLocks.manager_ord_code.
Qed.

Lemma system_rank_le mu : (system_rank mu <= 3)%nat.
Proof. destruct mu as [mu|]; simpl; [|lia]. pose proof (client_rank_le mu). lia. Qed.

(** ** Properties of the process *)

(** C6: the two components, composed, keep their invariants, and what they
    assume of each other holds. In every reachable pool of the process, in which
    the client's events run the manager's methods and the manager's voice calls
    run the client's, both states are well formed; and a call about to leave the
    process is never an event for the sink nor a call to the voice client (those
    are always answered inside), so the manager's method run by an event never
    calls the client back, and what the manager asks of the outside names what it
    acts on. *)
Theorem system_invariant s0 p X (e : SysCall X) k :
  system_ok s0 -> systems s0 p -> Running (Call e k) ∈ p_threads p ->
  client_ok (sysClient (p_state p)) /\ manager_ok (sysManager (p_state p)) /\ outside_ok X e.
Proof.
  intros Hs0 Hp Hin. destruct (systems_ok _ _ Hs0 Hp) as [[Hc Hm] Hts].
  rewrite Forall_forall in Hts. destruct (Hts _ Hin) as [He _]. done.
Qed.

(** A goroutine of the pool that holds a mutex. *)
Definition holder (p : pool System SysCall SysLabel SysMutex _ _) (t : thread System SysCall SysLabel SysMutex) : Prop :=
  exists es h, ledger system_rank may_wait every_call p es /\ (h, t) ∈ es /\ h <> ∅.

(** C13: the mutexes of the two components, composed, are free of deadlock. The
    client's [gatewayMu], [participantSyncMu] and [speakerDispatchMu] are taken
    before the manager's [participantReportMu], also when an event told under the
    client's mutexes runs the manager's method; so in every reachable pool in
    which a goroutine waits for a mutex that is held, some goroutine that holds a
    mutex does not wait for one: there is no circle of goroutines that wait for
    each other. *)
Theorem system_no_circular_wait s0 p t :
  systems s0 p -> t ∈ p_threads p -> blocked (p_held p) t ->
  exists t', t' ∈ p_threads p /\ holder p t' /\ ~ blocked (p_held p) t'.
Proof.
  intros Hr Hin Hb.
  destruct (no_circular_wait system_rank may_wait every_call system_code system_clock system_code_ordered
    system_entry system_advance 3 system_rank_le s0 p t Hr Hin Hb) as (es & h & t' & Hl & Ht' & Hne & Hnb).
  exists t'. split; [|split; [by exists es, h|done]].
  rewrite (le_threads _ _ _ _ _ Hl). by apply (list_elem_of_fmap_2 snd) in Ht'.
Qed.
End System.

(** ** Witnesses: the Gateway is selected *)
Module Sample.
Import DiscordPool.History.

Definition sys_ans X (e : SysCall X) : X :=
  match e with FromClient e => History.ans X e | FromManager e => Goroutines.Sample.ans X e end.

Definition s0 : System := booted None 1000.

Abbreviation sys_choice := (choice (L := SysLabel) system_entry).

Definition reconcile : sys_choice := CEntry system_entry (inl (EReconcileGateway "token" true)) I.
Definition go (n : nat) : list sys_choice := repeat (CNode system_entry 0) n.

Definition run_system (h : list sys_choice) : pool System SysCall SysLabel SysMutex _ _ :=
  sched (system_code id) system_entry system_clock system_advance (fun X e => Some (sys_ans X e)) h (Pool s0 ∅ []).

Lemma run_system_reachable h : systems id s0 (run_system h).
Proof. apply sched_reachable. Qed.

(** The Gateway is selected, and a job of the HTTP API joins the voice channel:
    the manager's call is about to leave through the client. *)
Definition job : VoiceJob := Goroutines.Sample.job.

Definition joining : pool System SysCall SysLabel SysMutex _ _ :=
  run_system (reconcile :: go 30 ++ CEntry system_entry (inr (EStart job)) I :: go 5)%list.

Definition leaving (p : pool System SysCall SysLabel SysMutex _ _) : option (string * string) :=
  match p_threads p with
  | Running (Call (FromClient e) _) :: _ =>
      match e with ChannelVoiceJoin _ g c => Some (g, c) | _ => None end
  | _ => None
  end.

Lemma leaving_thread p g c :
  leaving p = Some (g, c) -> exists s k, Running (Call (FromClient (ChannelVoiceJoin s g c)) k) ∈ p_threads p.
Proof.
  unfold leaving. destruct (p_threads p) as [|[[| |X [e|e] k| | | |]|] l]; try done.
  destruct e; try done. intros [= -> ->]. eexists _, _. apply list_elem_of_here.
Qed.

Lemma system_invariant_witness :
  leaving joining = Some ("guild", "voice") /\ client_ok (sysClient (p_state joining)) /\
  manager_ok (sysManager (p_state joining)).
Proof.
  assert (leaving joining = Some ("guild", "voice")) as Hn by (vm_compute; reflexivity).
  split; [exact Hn|]. destruct (leaving_thread _ _ _ Hn) as (s & k & Hk).
  destruct (system_invariant id s0 joining _ _ _ (booted_ok None 1000) (run_system_reachable _) Hk) as (Hc & Hm & _).
  exact (conj Hc Hm).
Defined.

(** Two requests to select the Gateway: the second waits for the first. *)
Definition contended : pool System SysCall SysLabel SysMutex _ _ :=
  run_system (reconcile :: go 1 ++ [reconcile])%list.

Definition first_waits (p : pool System SysCall SysLabel SysMutex _ _) : bool :=
  match p_threads p with
  | Running (Lock mu _) :: _ => bool_decide (mu ∈ p_held p)
  | _ => false
  end.

Lemma first_waits_blocked p :
  first_waits p = true -> exists t, t ∈ p_threads p /\ blocked (p_held p) t.
Proof.
  unfold first_waits. destruct (p_threads p) as [|[[| | | |mu k| |]|] l]; try done.
  intros Hb%bool_decide_eq_true_1. exists (Running (Lock mu k)). split; [apply list_elem_of_here|].
  exists mu. split; [done|]. by exists k.
Qed.

Lemma system_no_circular_wait_witness :
  first_waits contended = true /\
  exists t', t' ∈ p_threads contended /\ holder contended t' /\ ~ blocked (p_held contended) t'.
Proof.
  assert (first_waits contended = true) as Hw by (vm_compute; reflexivity).
  split; [exact Hw|]. destruct (first_waits_blocked _ Hw) as (t & Ht & Hb).
  exact (system_no_circular_wait id s0 contended t (run_system_reachable _) Ht Hb).
Defined.
End Sample.
