(* ===== verification/JobMachine.v ===== *)
(** * JobMachine: the job manager refines a machine of one job

    What [internal/jobs/manager.go] promises to everything that carries a
    [reconnectGeneration]: an abstract machine [job_step] over the job, the stop
    in progress and the generation.  Every step of every interleaving of the
    manager is a step of the machine or leaves it alone, and in the machine a
    generation belongs to one job. *)

From S2P Require Import Prelude Conc Errors Types RetryQueue Manager AutoStopState.
From S2P Require Import WorkerReporting Participants AutoStart AutoStop VoiceDefaults Lifecycle.
From S2P Require Import Notification Goroutines.

Open Scope go_scope.

(** ** The machine *)

Record JobSpec := mkSpec {
  jsJob : VoiceJob;
  jsStopping : bool;
  jsGeneration : Z }.

Definition spec_of (m : Manager) : JobSpec :=
  mkSpec (mCurrent m) (mStopping m) (mReconnectGeneration m).

(** A job is installed under a new generation; a stop of a job begins under a
    new generation and fails or clears the job; a lost connection only takes a
    new generation. *)
Inductive job_step : JobSpec -> JobSpec -> Prop :=
| js_install old stopping job g :
    live_job job -> job_step (mkSpec old stopping g) (mkSpec job false (succ_i64 g))
| js_begin job g :
    jStreamID job <> "" -> job_step (mkSpec job false g) (mkSpec job true (succ_i64 g))
| js_fail job g : job_step (mkSpec job true g) (mkSpec job false g)
| js_clear job stopping g : job_step (mkSpec job stopping g) (mkSpec zeroVoiceJob false g)
| js_lost job stopping g :
    job_step (mkSpec job stopping g) (mkSpec job stopping (succ_i64 g)).

(** A step of the machine, or none. *)
Definition spec_moves (m m' : Manager) : Prop :=
  spec_of m' = spec_of m \/ job_step (spec_of m) (spec_of m').

Lemma spec_moves_refl m : spec_moves m m.
Proof. by left. Qed.

(** What the process sets on the manager from the outside. *)
Definition settings_of (m : Manager) :=
  (mStreamDefaults m, mExecutionAuthorityStreams m, mReconnectPolicy m, mStreamStarter m,
   mStreamStopper m, mAutoStartRefresher m).

Definition is_setting (l : label) : Prop :=
  match l with
  | ESetStreamVoiceDefaults _ | ESetExecutionAuthorityStreams _ | ESetReconnectPolicy _
  | ESetStreamStarter _ | ESetStreamStopper _ | ESetAutoStartRefresher _ => True
  | _ => False
  end.

#[export] Instance is_setting_dec l : Decision (is_setting l).
Proof. destruct l; simpl; apply _. Defined.

(** The other labels: the manager changes none of it by itself. *)
Definition working (l : label) : Prop := ~ is_setting l.

Definition handles_of (m : Manager) := (mStreamStarter m, mStreamStopper m, mAutoStartRefresher m).

Definition core_of (m : Manager) := (spec_of m, settings_of m).

Definition job_moves (m m' : Manager) : Prop :=
  settings_of m' = settings_of m /\ spec_moves m m'.

Lemma job_moves_core m m' : core_of m' = core_of m -> job_moves m m'.
Proof. intros [= H1 H2 H3 H4 H5 H6 H7 H8 H9]. split; [|left]; unfold settings_of, spec_of; congruence. Qed.

Lemma job_moves_refl m : job_moves m m.
Proof. by apply job_moves_core. Qed.

Lemma job_moves_from m m1 m' : core_of m1 = core_of m -> job_moves m1 m' -> job_moves m m'.
Proof.
  intros Hc [Hs Hm]. split; [|unfold spec_moves in *];
    [transitivity (settings_of m1); [done|]; by injection Hc; intros; unfold settings_of; congruence|].
  assert (spec_of m1 = spec_of m) as <- by (injection Hc; intros; unfold spec_of; congruence). done.
Qed.

Lemma job_moves_step m m' :
  settings_of m' = settings_of m -> job_step (spec_of m) (spec_of m') -> job_moves m m'.
Proof. split; [done|by right]. Qed.

Lemma fold_same {X O} (o : Manager -> O) (f : Manager -> X -> Manager) l m :
  (forall m x, o (f m x) = o m) -> o (fold_left f l m) = o m.
Proof. intros Hf. revert m. induction l as [|x l IH]; intros m; simpl; [done|]. by rewrite IH. Qed.

(** ** Sections that leave the machine alone *)

(** By cases on the guards of a section; the updates touch other fields. *)
Ltac same := cbv zeta; repeat (case_match; simpl; try done); simpl; try done.

Lemma core_cancelRetry id m : core_of (cancelAutoStartRetryLocked id m) = core_of m.
Proof. unfold cancelAutoStartRetryLocked. same. Qed.

Lemma core_cancelAutoStop id m : core_of (cancelAutoStopLocked id m) = core_of m.
Proof. unfold cancelAutoStopLocked, invalidateAutoStopLocked. same. Qed.

Lemma core_invalidate id m : core_of (invalidateAutoStopLocked id m) = core_of m.
Proof. unfold invalidateAutoStopLocked. same. Qed.

Lemma core_finish id g m : core_of (finishAutoStopLocked id g m) = core_of m.
Proof. unfold finishAutoStopLocked, clearAutoStopInFlightLocked. same. Qed.

Lemma core_clearInFlight id g m : core_of (clearAutoStopInFlightLocked id g m) = core_of m.
Proof. unfold clearAutoStopInFlightLocked. same. Qed.

Lemma core_recordIntent s g v m : core_of (recordAutoStopRejoinIntentLocked s g v m) = core_of m.
Proof. unfold recordAutoStopRejoinIntentLocked. same. Qed.

Lemma core_restart m : core_of (restartParticipantSyncLocked m).2 = core_of m.
Proof. unfold restartParticipantSyncLocked, cancelParticipantSync. simpl. by case_match. Qed.

Lemma core_updateAutoStop job now source rev m :
  core_of (updateAutoStopForParticipantSetLocked job now source rev m).2 = core_of m.
Proof.
  unfold updateAutoStopForParticipantSetLocked.
  case_match; simpl; [|by same]. rewrite core_cancelAutoStop. case_match; [apply core_recordIntent|done].
Qed.

Lemma core_finishRetry id r m : core_of (finishAutoStartRetry id r m) = core_of m.
Proof. unfold finishAutoStartRetry. same. Qed.

Lemma core_shouldLog key now m : core_of (shouldLogAutoStartLocked key now m).2 = core_of m.
Proof. unfold shouldLogAutoStartLocked. same. Qed.

Lemma core_recordFailure e s now m : core_of (record_failure_locked e s now m) = core_of m.
Proof. unfold record_failure_locked. same. Qed.

Section Sections.
Context `{MapRange}.

Lemma core_cancelAll m : core_of (cancelAllAutoStartRetriesLocked m) = core_of m.
Proof. apply fold_same. intros. apply core_cancelRetry. Qed.

Lemma core_queue_enqueue q r m : core_of (queue_enqueue q r m).2 = core_of m.
Proof. unfold queue_enqueue. by destruct (enqueue _ _ _). Qed.

Lemma core_queue_next q now m : core_of (queue_next q now m).2 = core_of m.
Proof. unfold queue_next. by destruct (next _ _ _). Qed.

Lemma core_drop_speaker u m : core_of (drop_speaker u m) = core_of m.
Proof. unfold drop_speaker. same. Qed.

Lemma core_prune now m : core_of (pruneNotificationReceiptsLocked now m) = core_of m.
Proof.
  unfold pruneNotificationReceiptsLocked. cbv zeta.
  transitivity (core_of (prune_expired now m)); [|done].
  generalize (size (mNotificationReceipts (prune_expired now m))) as n.
  generalize (prune_expired now m) as m1. clear m. intros m n. revert m.
  induction n as [|n IH]; intros m; cbn [prune_oldest]; [done|].
  case_match; [done|]. case_match; [|done]. case_match. by rewrite IH.
Qed.

Lemma core_participant_section event m : core_of (participant_section event m).2 = core_of m.
Proof.
  unfold participant_section. case_match; [done|]. cbv zeta.
  match goal with |- context [let '(_, _) := ?x in _] => set (mid := x) end.
  assert (core_of mid.2 = core_of m) as Hmid.
  { unfold mid. case_match; [done|]. simpl. by rewrite core_drop_speaker. }
  destruct mid as [stopped m1]. simpl in Hmid |- *.
  match goal with |- context [updateAutoStopForParticipantSetLocked ?j ?t ?s ?r ?x] =>
    pose proof (core_updateAutoStop j t s r x) as Hu;
    destruct (updateAutoStopForParticipantSetLocked j t s r x) end.
  simpl in *. by rewrite Hu.
Qed.

Lemma core_apply_snapshot snapshot now m : core_of (apply_snapshot snapshot now m) = core_of m.
Proof. unfold apply_snapshot, retain_speakers. same. Qed.

Lemma core_sync_section snapshot options m : core_of (sync_section snapshot options m).2 = core_of m.
Proof.
  unfold sync_section. cbv zeta. repeat (case_match; try done). simpl.
  match goal with H : updateAutoStopForParticipantSetLocked ?j ?t ?s ?r ?x = _ |- _ =>
    pose proof (core_updateAutoStop j t s r x) as Hu; rewrite H in Hu end.
  simpl in *. by rewrite Hu, core_apply_snapshot.
Qed.

Lemma core_set_speaker_section streamID userID sp pr m :
  core_of (set_speaker_section streamID userID sp pr m).2 = core_of m.
Proof.
  unfold set_speaker_section. cbv zeta. repeat (case_match; try done); simpl;
    (etrans; [|apply (core_drop_speaker userID)]; done).
Qed.

Lemma core_clear_speakers_section streamID m :
  core_of (clear_speakers_section streamID m).2 = core_of m.
Proof. unfold clear_speakers_section. same. Qed.

Lemma core_presence id r p k m : core_of (presence_section id r p k m).2 = core_of m.
Proof.
  unfold presence_section. case_match; [done|]. case_match; [|done]. simpl.
  etrans; [|apply (core_cancelRetry id)]. done.
Qed.

Lemma core_join event now m : core_of (join_section event now m).2 = core_of m.
Proof.
  unfold join_section. cbv zeta. repeat (case_match; try done); simpl;
    rewrite ?core_cancelAutoStop, ?core_recordIntent; done.
Qed.

Lemma core_reserve id event now m : core_of (reserve_section id event now m).2 = core_of m.
Proof.
  unfold reserve_section. cbv zeta. repeat (case_match; try done); simpl;
    try apply core_shouldLog; done.
Qed.

(** The waiting streams are a setting; machine and handles do not see them. *)
Lemma spec_set_stream_defaults defaults m :
  let m' := (set_stream_defaults defaults m).2 in spec_of m' = spec_of m /\ handles_of m' = handles_of m.
Proof.
  cbv zeta. assert (forall (A B : Manager), (spec_of A, handles_of A) = (spec_of B, handles_of B) ->
    spec_of A = spec_of B /\ handles_of A = handles_of B) as Hpair 
    by (intros A B Hp; split; [exact (f_equal fst Hp)|exact (f_equal snd Hp)]).
  apply Hpair. unfold set_stream_defaults. cbn [snd].
  etrans; [apply (fold_same (fun m => (spec_of m, handles_of m)))|].
  { intros m' [id st]. unfold prune_stopped_entry. same. }
  etrans; [apply (fold_same (fun m => (spec_of m, handles_of m)))|].
  { intros m' id. unfold prune_retry. cbv zeta. case_match; [|done].
    by pose proof (core_cancelRetry id m') as [= ? ? ? ? ? ? ? ? ?]; unfold spec_of, handles_of; congruence. }
  unfold prune_pending, retain_epochs. same.
Qed.

Lemma core_notify_section sum256 s e c w m : core_of (notify_section sum256 s e c w m).2 = core_of m.
Proof.
  unfold notify_section. cbv zeta. case_match; [done|].
  repeat case_match; simpl; by rewrite <- (core_prune (hClock m) m).
Qed.

Lemma core_notify_settle key r msg err m : core_of (notify_settle key r msg err m) = core_of m.
Proof. unfold notify_settle. by destruct err. Qed.

Lemma core_retry_section id g m : core_of (retry_section id g m).2 = core_of m.
Proof.
  unfold retry_section. cbv zeta. repeat (case_match; try done). simpl. apply core_finish.
Qed.

Lemma core_request_section id g job rg m : core_of (request_section id g job rg m).2 = core_of m.
Proof. unfold request_section. same. Qed.

Lemma core_answered_section id g m : core_of (answered_section id g m).2 = core_of m.
Proof. unfold answered_section. simpl. apply core_clearInFlight. Qed.

Lemma core_cancel_if_valid id g job rg m : core_of (cancel_if_valid id g job rg m) = core_of m.
Proof. unfold cancel_if_valid. case_match; [apply core_cancelAutoStop|done]. Qed.

Lemma core_reconcile_section id m : core_of (reconcile_section id m).2 = core_of m.
Proof. unfold reconcile_section. same. Qed.

Lemma core_reconcile_turn id key i m : core_of (reconcile_turn_section id key i m).2 = core_of m.
Proof. unfold reconcile_turn_section. same. Qed.

Lemma core_reconcile_exhausted id m : core_of (reconcile_exhausted id m) = core_of m.
Proof. unfold reconcile_exhausted. same. Qed.

Lemma core_noteCapacity id r e m : core_of (noteAutoStartCapacityResult id r e m) = core_of m.
Proof. unfold noteAutoStartCapacityResult. same. Qed.

(** ** Sections that are steps of the machine *)

Lemma moves_start_check job m : job_moves m (start_check job m).2.
Proof. apply job_moves_core. unfold start_check. same; apply core_cancelAutoStop. Qed.

Lemma moves_start_commit job epoch m : live_job job -> job_moves m (start_commit job epoch m).2.
Proof.
  intros Hj. unfold start_commit. cbv zeta.
  pose proof (core_restart (m <| mReconnectGeneration ::= succ_i64 |>)) as Hr.
  destruct (restartParticipantSyncLocked _) as [ctx m1]. simpl in Hr |- *.
  match goal with |- context [cancelAllAutoStartRetriesLocked ?x] => pose proof (core_cancelAll x) as Hc end.
  injection Hr as _ _ Hg Hd1 Hd2 Hd3 Hd4 Hd5 Hd6.
  injection Hc as Hc1 Hc2 Hc3 Hc4 Hc5 Hc6 Hc7 Hc8 Hc9. simpl in *.
  apply job_moves_step; unfold settings_of, spec_of; simpl; [congruence|].
  rewrite Hc1, Hc2, Hc3, Hg. by constructor.
Qed.

Lemma moves_stop_begin streamID m : job_moves m (stop_begin streamID m).2.
Proof.
  unfold stop_begin. cbv zeta. apply (job_moves_from m (cancelAllAutoStartRetriesLocked m));
    [apply core_cancelAll|]. set (m1 := cancelAllAutoStartRetriesLocked m). clearbody m1.
  case_match eqn:Hc; [by apply job_moves_core|]. case_match eqn:Hs; [by apply job_moves_core|].
  case_match; [by apply job_moves_core|]. simpl.
  pose proof (core_invalidate (jStreamID (mCurrent m1)) m1) as Hi.
  injection Hi as Hj _ Hg Hd1 Hd2 Hd3 Hd4 Hd5 Hd6.
  apply job_moves_step; unfold settings_of, spec_of; simpl; [congruence|].
  rewrite Hj, Hg, Hs. constructor. by bool_hyps.
Qed.

Lemma moves_stop_failed id m : job_moves m (stop_failed id m).2.
Proof.
  unfold stop_failed. case_match eqn:E; [|by apply job_moves_core]. bool_hyps. cbv zeta.
  pose proof (core_restart (m <| mStopping := false |>)) as Hr.
  destruct (restartParticipantSyncLocked _) as [ctx m1]. simpl in Hr.
  injection Hr as Hj Hs Hg Hd1 Hd2 Hd3 Hd4 Hd5 Hd6.
  apply job_moves_step; unfold settings_of, spec_of; simpl; [congruence|].
  rewrite Hj, Hs, Hg. rewrite H1. constructor.
Qed.

Lemma moves_stop_commit id m : job_moves m (stop_commit id m).2.
Proof.
  unfold stop_commit. cbv zeta. case_match; (apply job_moves_step; [done|apply js_clear]).
Qed.

(** A section that installs a queue and restarts the sync loop. *)
Lemma core_install m q m1 m2 ctx :
  newQueue m = (q, m1) -> restartParticipantSyncLocked (m1 <| mWorkerRetry := Some q |>) = (ctx, m2) ->
  core_of m2 = core_of m.
Proof.
  intros Hq Hr. pose proof (core_restart (m1 <| mWorkerRetry := Some q |>)) as Hs. rewrite Hr in Hs.
  injection Hq as _ <-. exact Hs.
Qed.

Lemma moves_connected m : job_moves m (connected_section m).2.
Proof.
  apply job_moves_core. unfold connected_section. cbv zeta. repeat (case_match; try done). simpl.
  etrans; [eapply core_install; eassumption|done].
Qed.

Lemma moves_rejoin_joined job g m : job_moves m (rejoin_joined job g m).2.
Proof.
  apply job_moves_core. unfold rejoin_joined. cbv zeta. repeat (case_match; try done). simpl.
  etrans; [eapply core_install; eassumption|done].
Qed.

Lemma moves_disconnected m : job_moves m (disconnected_section m).2.
Proof.
  unfold disconnected_section. cbv zeta. simpl.
  apply (job_moves_from m (cancelAllAutoStartRetriesLocked m)); [apply core_cancelAll|].
  set (m1 := cancelAllAutoStartRetriesLocked m). clearbody m1.
  case_match; (apply job_moves_step; [done|constructor]).
Qed.

End Sections.

Create HintDb spec.
#[local] Hint Resolve core_cancelRetry core_cancelAutoStop core_invalidate core_finish
  core_clearInFlight core_finishRetry core_recordFailure core_queue_enqueue core_queue_next
  core_participant_section core_sync_section core_set_speaker_section core_clear_speakers_section
  core_presence core_join core_notify_section
  core_notify_settle core_retry_section core_request_section core_answered_section
  core_cancel_if_valid core_reconcile_section core_reconcile_turn core_reconcile_exhausted
  core_noteCapacity : spec.
#[local] Hint Resolve moves_start_check moves_stop_begin moves_stop_failed moves_stop_commit
  moves_connected moves_rejoin_joined moves_disconnected : spec.

(** ** Every method *)

Abbreviation mmoves := (moves job_moves (fun _ _ => True) (fun _ => True) working (fun _ => True)).
Abbreviation mloops := (moves job_moves (fun _ _ => True) (fun _ => True) working (next_ok working)).

(** Walks over a method; sections that leave the machine alone, or are a step of
    it by a lemma, are closed. *)
Ltac machine :=
  moves_walk job_moves_refl;
  first [ by apply job_moves_core | apply job_moves_core; solve [eauto with spec nocore]
        | solve [eauto with spec nocore] | idtac ].

Section Methods.
Context `{MapRange}.

Lemma moves_startQueue q : mmoves (startQueue q).
Proof. unfold startQueue. machine. Qed.

Lemma moves_stopAndWaitOpt q : mmoves (stopAndWaitOpt q).
Proof. unfold stopAndWaitOpt, stopAndWait. machine. Qed.

Lemma moves_failure e s : mmoves (recordWorkerPublishFailure e s).
Proof. unfold recordWorkerPublishFailure, recordWorkerPublishFailureAttempt. machine. Qed.

Lemma moves_failure1 e s : mmoves (recordWorkerPublishFailureAttempt e s).
Proof. unfold recordWorkerPublishFailureAttempt. machine. Qed.

#[local] Hint Resolve moves_startQueue moves_stopAndWaitOpt moves_failure moves_failure1 : moves.

Lemma moves_enqueueRetry r : mmoves (enqueueWorkerEventRetry r).
Proof. unfold enqueueWorkerEventRetry. machine. Qed.

Lemma moves_supersede j g k : mmoves (supersedeWorkerEventRetry j g k).
Proof. unfold supersedeWorkerEventRetry. machine. Qed.

Lemma moves_publishParticipants c r j ps : mmoves (publishParticipants c r j ps).
Proof. unfold publishParticipants. machine. Qed.

Lemma moves_publishActiveSpeaker c r j u d s : mmoves (publishActiveSpeaker c r j u d s).
Proof. unfold publishActiveSpeaker. machine. Qed.

Lemma moves_publishChatMessage c r j msg : mmoves (publishChatMessage c r j msg).
Proof. unfold publishChatMessage. machine. Qed.

#[local] Hint Resolve moves_enqueueRetry moves_supersede moves_publishParticipants
  moves_publishActiveSpeaker moves_publishChatMessage : moves.

Lemma moves_reportParticipants j ps sr g b : mmoves (reportParticipantsIfCurrent j ps sr g b).
Proof. unfold reportParticipantsIfCurrent. machine. Qed.

Lemma moves_reportSpeaker j u d s sr g : mmoves (reportActiveSpeakerIfCurrent j u d s sr g).
Proof. unfold reportActiveSpeakerIfCurrent. machine. Qed.

#[local] Hint Resolve moves_reportParticipants moves_reportSpeaker : moves.

Lemma moves_chat e : mmoves (ChatMessageReceived e).
Proof. unfold ChatMessageReceived. machine. apply job_moves_core. unfold chat_accept. same. Qed.

Lemma moves_deliver q r : mmoves (deliverWorkerEventRetry q r).
Proof.
  unfold deliverWorkerEventRetry, isCurrentWorkerRetryReport, publishWorkerRetryReport. machine.
Qed.

#[local] Hint Resolve moves_deliver : moves.

Lemma moves_queueLoop q : mloops (queueLoop q).
Proof. unfold queueLoop, loop_woken, loop_exit. machine. all: apply job_moves_core; same. Qed.

Lemma moves_report a : mmoves (report_participants a).
Proof. unfold report_participants. machine. Qed.

Lemma moves_schedule id s : mmoves (schedule_auto_stop id s).
Proof. unfold schedule_auto_stop. machine. Qed.

#[local] Hint Resolve moves_report moves_schedule : moves.

Lemma moves_ParticipantChanged e : mmoves (ParticipantChanged e).
Proof. unfold ParticipantChanged. machine. Qed.

Lemma moves_participantsSynced s o : mmoves (participantsSynced s o).
Proof. unfold participantsSynced. machine. Qed.

#[local] Hint Resolve moves_participantsSynced : moves.

Lemma moves_ParticipantsSynced s : mmoves (ParticipantsSynced s).
Proof. unfold ParticipantsSynced. machine. Qed.

#[local] Hint Resolve moves_ParticipantsSynced : moves.

Lemma moves_hydrate j b : mmoves (hydrateVoiceParticipants j b).
Proof. unfold hydrateVoiceParticipants. machine. Qed.

Lemma moves_hydrateGen j b g : mmoves (hydrateVoiceParticipantsForGeneration j b g).
Proof. unfold hydrateVoiceParticipantsForGeneration. machine. Qed.

#[local] Hint Resolve moves_hydrate moves_hydrateGen : moves.

Lemma moves_warmup c j g ds : mmoves (sync_warmup c j g ds).
Proof.
  induction ds as [|d ds IH]; cbn [sync_warmup]; unfold waitForParticipantSync; machine; exact IH.
Qed.

#[local] Hint Resolve moves_warmup : moves.

Lemma moves_keepSynced c j g : mloops (keepVoiceParticipantsSynced c j g).
Proof. unfold keepVoiceParticipantsSynced, waitForParticipantSync. machine. Qed.

Lemma moves_keepTick c j g i : mloops (keep_tick c j g i).
Proof. unfold keep_tick, waitForParticipantSync. machine. Qed.

Lemma moves_setSpeaker s u sp pr : mmoves (setSpeakerState s u sp pr).
Proof. unfold setSpeakerState. machine. Qed.

Lemma moves_clearSpeakers s : mmoves (clearSpeakerStates s).
Proof. unfold clearSpeakerStates. machine. Qed.

Lemma moves_retryValid id r : mmoves (autoStartRetryStillValid id r).
Proof. unfold autoStartRetryStillValid. machine. Qed.

#[local] Hint Resolve moves_setSpeaker moves_clearSpeakers moves_retryValid : moves.

Lemma moves_retryLoop c r st id ds : mmoves (retry_loop c r st id ds).
Proof. induction ds as [|d ds IH]; cbn [retry_loop]; machine; exact IH. Qed.

Lemma moves_VoiceUserJoined e : mmoves (VoiceUserJoined e).
Proof.
  unfold VoiceUserJoined. machine. apply job_moves_core. case_match; [done|].
  match goal with |- context [reserve_section ?i ?e ?n ?m] =>
    pose proof (core_reserve i e n m) as Hr; destruct (reserve_section i e n m) as [[c|] m'] end;
  exact Hr.
Qed.

#[local] Hint Resolve moves_retryLoop moves_VoiceUserJoined : moves.

Lemma moves_autoStart id c r st f e : mloops (autoStartGoroutine id c r st f e).
Proof. unfold autoStartGoroutine, auto_start_body, retryAutoStart, refresh_stale. machine. Qed.

Lemma moves_scheduleReconcile id : mmoves (scheduleAutoStopRejoinReconciliation id).
Proof. unfold scheduleAutoStopRejoinReconciliation. machine. Qed.

Lemma moves_scheduleRetry id g st e o : mmoves (scheduleAutoStopRetry id g st e o).
Proof. unfold scheduleAutoStopRetry. machine. Qed.

Lemma moves_stopStream c st id : mmoves (stopStreamWithContext c st id).
Proof. unfold stopStreamWithContext. machine. Qed.

#[local] Hint Resolve moves_scheduleReconcile moves_scheduleRetry moves_stopStream : moves.

Lemma moves_autoStopRequest id o st j g : mmoves (auto_stop_request id o st j g).
Proof. unfold auto_stop_request. machine. Qed.

#[local] Hint Resolve moves_autoStopRequest : moves.

Lemma moves_autoStopWhenEmpty id o st d : mloops (autoStopWhenEmpty id o st d).
Proof. unfold autoStopWhenEmpty. machine. Qed.

Lemma moves_reconcileLoop id ds : mmoves (reconcile_loop id ds).
Proof. induction ds as [|d ds IH]; cbn [reconcile_loop]; machine; exact IH. Qed.

#[local] Hint Resolve moves_reconcileLoop : moves.

Lemma moves_reconcile id : mloops (reconcileAutoStopRejoin id).
Proof. unfold reconcileAutoStopRejoin. machine. Qed.

Lemma moves_Start job : mmoves (Start job).
Proof.
  unfold Start. machine. apply moves_start_commit. by split_and!.
Qed.

Lemma moves_Stop id : mmoves (Stop id).
Proof. unfold Stop. machine. Qed.

Lemma moves_DiscordConnected : mmoves DiscordConnected.
Proof. unfold DiscordConnected. machine. Qed.

Lemma moves_DiscordDisconnected reason : mmoves (DiscordDisconnected reason).
Proof. unfold DiscordDisconnected. machine. Qed.

Lemma moves_rejoinLoop n : forall job policy g a, mmoves (rejoin_loop n job policy g a).
Proof.
  induction n as [|n IH]; intros job policy g a; cbn [rejoin_loop]; machine; try apply IH.
  all: apply job_moves_core; unfold rejoin_check, rejoin_failed; same.
Qed.

#[local] Hint Resolve moves_rejoinLoop : moves.

Lemma moves_rejoin job policy g : mloops (rejoinVoiceWithBackoff job policy g).
Proof. unfold rejoinVoiceWithBackoff. machine. Qed.

Lemma moves_notify sum256 ctx s e c w : mmoves (NotifyYouTubeLive sum256 ctx s e c w).
Proof. unfold NotifyYouTubeLive, await_receipt. machine. Qed.

#[local] Hint Resolve moves_chat moves_queueLoop moves_ParticipantChanged moves_keepSynced
  moves_keepTick moves_autoStart moves_autoStopWhenEmpty moves_reconcile moves_Start moves_Stop
  moves_DiscordConnected moves_DiscordDisconnected moves_rejoin moves_notify : moves.

(** The manager by itself keeps its settings and steps with the machine. *)
Lemma working_moves sum256 l : working l -> mloops (code sum256 l).
Proof.
  intros Hl. destruct l; try (by destruct (Hl I)); cbn [code];
    unfold done, ActiveSpeakerStateChanged, SetActiveSpeaker; machine.
Qed.

Lemma moves_setDefaults defaults :
  moves spec_moves (fun _ _ => True) (fun _ => True) (fun _ => True) (fun _ => True) (SetStreamVoiceDefaults defaults).
Proof.
  unfold SetStreamVoiceDefaults. moves_walk spec_moves_refl. left. apply spec_set_stream_defaults.
Qed.

Lemma code_moves sum256 l :
  moves spec_moves (fun _ _ => True) (fun _ => True) (fun _ => True) (next_ok (fun _ => True)) (code sum256 l).
Proof.
  assert (forall o : option label, next_ok (fun _ => True) o) as Hok by by intros [].
  destruct (decide (is_setting l)) as [Hs|Hs].
  - destruct l; try done; cbn [code]; unfold done;
      (eapply moves_bind; [|intros; apply Hok]); try apply moves_setDefaults;
      apply moves_modify; intros m; by left.
  - eapply moves_mono; [| | | | |apply working_moves, Hs]; [by intros m m' []|done..|intros; apply Hok].
Qed.

Lemma advance_moves d m : job_moves m (advance d m).
Proof. by apply job_moves_core. Qed.

(** Every step of every interleaving is a step of the machine or none. *)
Lemma managers_move sum256 s0 p p' :
  managers sum256 s0 p -> pstep (code sum256) is_entry hClock advance p p' ->
  spec_moves (p_state p) (p_state p').
Proof.
  apply (pool_simulation _ _ _ _ _ (fun _ _ => True) (fun _ => True) (fun _ => True)); [by left|by intros; apply code_moves|done|by left].
Qed.
End Methods.

(** ** Generations *)

(** [k] new generations after [g]. *)
Definition later (g k : Z) : Z := if k =? 0 then g else wrap64 (g + k).

Lemma later_succ g k : 0 <= k -> succ_i64 (later g k) = later g (k + 1).
Proof.
  intros Hk. unfold later, succ_i64. destruct (Z.eqb_spec (k + 1) 0); [lia|].
  destruct (Z.eqb_spec k 0) as [->|Hne]; [f_equal; lia|].
  unfold wrap64. replace ((g + k + two63) mod two64 - two63 + 1 + two63)
    with ((g + k + two63) mod two64 + 1) by lia.
  rewrite Zplus_mod_idemp_l. do 2 f_equal. lia.
Qed.

Lemma later_same g k : 0 <= k < two64 -> later g k = g -> k = 0.
Proof.
  intros Hk. unfold later. destruct (Z.eqb_spec k 0) as [|Hne]; [done|]. unfold wrap64. intros He.
  pose proof (Z.div_mod (g + k + two63) two64) as Hd. zconst.
  assert (two64 * ((g + k + two63) / two64) = k) as Hm by lia.
  assert (0 < (g + k + two63) / two64 < 1) by nia. lia.
Qed.

(** What [n] steps of the machine do to a generation and its job. *)
Definition advanced (n : nat) (a b : JobSpec) : Prop :=
  exists k, 0 <= k <= Z.of_nat n /\ jsGeneration b = later (jsGeneration a) k /\
    (k = 0 -> jsJob b = jsJob a \/ jsJob b = zeroVoiceJob).

Lemma advanced_step n a b c : advanced n a b -> job_step b c -> advanced (S n) a c.
Proof.
  intros (k & Hk & Hg & Hj) Hstep.
  destruct Hstep; simpl in *;
    first [ exists k; split; [lia|]; split; [done|]; by tauto
          | exists (k + 1); split; [lia|]; split; [rewrite Hg; apply later_succ; lia|lia] ].
Qed.

Section Properties.
Context `{MapRange}.

(** C1: the job manager refines a machine of one job. In every interleaving each
    step of the manager either leaves job, stop flag and generation alone or is
    one of five: a complete job is installed under a new generation; the stop
    of a named job begins under a new generation; that stop fails and the same
    job goes on; the job is cleared; a lost connection takes a new generation.
    The machine starts without a job at generation zero. *)
Theorem manager_refines_job_machine sum256 voice reporter now p :
  managers sum256 (NewManagerWithReporter voice reporter now) p ->
  rtc job_step (mkSpec zeroVoiceJob false 0) (spec_of (p_state p)) /\
  forall p', pstep (code sum256) is_entry hClock advance p p' ->
    spec_of (p_state p') = spec_of (p_state p) \/ job_step (spec_of (p_state p)) (spec_of (p_state p')).
Proof.
  intros Hp. split; [|intros p'; by apply (managers_move sum256 _ p p' Hp)].
  revert p Hp. apply rtc_ind_r; [done|]. intros p1 p2 Hp1 Hs IH.
  destruct (managers_move sum256 _ _ _ Hp1 Hs) as [->|Hj]; [done|]. by eapply rtc_r.
Qed.

(** C2: a generation belongs to one job. If the manager's reconnect generation is
    the same before and after any sequence of fewer than 2{^64} steps, then the
    job is the same or was cleared: the fence that goroutines, retried reports
    and rejoins check never lets them act on another job, not even when the
    counter wraps around. *)
Theorem generation_fences_job sum256 voice reporter now p n p' :
  managers sum256 (NewManagerWithReporter voice reporter now) p ->
  nsteps (pstep (code sum256) is_entry hClock advance) n p p' -> Z.of_nat n < 2 ^ 64 ->
  jsGeneration (spec_of (p_state p')) = jsGeneration (spec_of (p_state p)) ->
  jsJob (spec_of (p_state p')) = jsJob (spec_of (p_state p)) \/
  jsJob (spec_of (p_state p')) = zeroVoiceJob.
Proof.
  cbn [jsGeneration jsJob spec_of]. intros Hp Hn Hlt Hg.
  assert (advanced n (spec_of (p_state p)) (spec_of (p_state p'))) as (k & Hk & Hgk & Hj).
  { clear Hlt Hg. revert p' Hn. induction n as [|n IH]; intros p' Hn.
    - inv Hn. exists 0. split_and!; [lia|lia|done|]. by left.
    - apply nsteps_inv_r in Hn as (p1 & Hn1 & Hs). pose proof (IH _ Hn1) as Ha.
      assert (managers sum256 (NewManagerWithReporter voice reporter now) p1) as Hp1.
      { unfold managers, reachable in *. etrans; [exact Hp|]. by eapply rtc_nsteps_2. }
      destruct (managers_move sum256 _ _ _ Hp1 Hs) as [->|Hstep]; [|by eapply advanced_step].
      destruct Ha as (k & Hk & ?). exists k. split; [lia|done]. }
  apply Hj. apply (later_same (mReconnectGeneration (p_state p))); [unfold two64; lia|].
  simpl in Hgk. by rewrite <- Hgk.
Qed.
End Properties.

(** ** Witnesses: the job of the history in [Goroutines] *)
Module Sample.
#[local] Existing Instance canonical_range.

Abbreviation reached := Goroutines.Sample.reached.
Abbreviation sum := Goroutines.Sample.sum.

Lemma manager_refines_job_machine_witness :
  managers sum Goroutines.Sample.m0 reached /\
  rtc job_step (mkSpec zeroVoiceJob false 0) (mkSpec Goroutines.Sample.job false 1).
Proof.
  split; [exact Goroutines.Sample.reached_ok|].
  destruct (manager_refines_job_machine sum _ _ _ _ Goroutines.Sample.reached_ok) as [Hr _].
  assert (spec_of (p_state reached) = mkSpec Goroutines.Sample.job false 1) as E
    by (vm_compute; reflexivity).
  rewrite <- E. exact Hr.
Defined.

(** A second later the generation still belongs to the job. *)
Lemma tick_step p d :
  0 <= d -> pstep (code sum) is_entry hClock advance p
    (Pool (advance d (p_state p)) (p_held p) (p_threads p)).
Proof. destruct p. apply s_tick. Qed.

Definition second_later : pool Manager ExtCall label mutex _ _ :=
  Pool (advance Second (p_state reached)) (p_held reached) (p_threads reached).

Lemma generation_fences_job_witness :
  jStreamID (mCurrent (p_state reached)) = "stream" /\
  (jsJob (spec_of (p_state second_later)) = jsJob (spec_of (p_state reached)) \/
   jsJob (spec_of (p_state second_later)) = zeroVoiceJob).
Proof.
  split; [vm_compute; reflexivity|].
  apply (generation_fences_job sum _ _ _ reached 1 second_later Goroutines.Sample.reached_ok).
  - apply nsteps_once. apply (tick_step reached Second). discriminate.
  - reflexivity.
  - vm_compute. reflexivity.
Defined.
End Sample.
