(* ===== verification/WorkerClient.v ===== *)
(** * WorkerClient: publishing events to the Worker

    [Reporter] of [internal/worker/client.go]: the payloads, the request with
    its context and bounded retries, and the classification of failures that
    [Errors] and the retry queue of the job manager rely on.  The state is the
    clock and the caller's context; [WkCall] are the HTTP request and its
    construction. *)

From S2P Require Import Prelude Conc Errors Types Urls.

Open Scope go_scope.

(** [url.Parse]: the scheme and the host of a URL. *)
Class ParseURL := parse_url : string -> option (string * string).

Record Config := mkConfig {
  cfURL : string;
  cfToken : string;
  cfTimeout : Duration;
  cfRetryDelays : option (list Duration) }.  (* [None] for a nil slice *)

(** The JSON bodies. *)
Record participantPayload := mkParticipantPayload {
  ppUserID : string;
  ppDisplayName : string;
  ppAvatarURL : string;
  ppIsBot : bool;
  ppSpeaking : bool }.

Inductive payload :=
| ParticipantsPayload (participants : list participantPayload) (jobGeneration : Z)
| ActiveSpeakerPayload (userID displayName : string) (speaking : bool) (jobGeneration : Z)
| ChatPayload (message : ChatMessage) (jobGeneration : Z).

(** The caller's context: live, canceled or past its deadline; the deadline of
    the publish is added to it. *)
Inductive ctx_state := Live | CtxCanceled | CtxExpired.

Record Clock := mkClock { ckNow : Time; ckCaller : ctx_state }.

Inductive WkCall : Type -> Type :=
| NewRequest (url : string) : WkCall (option error)
| Do (url token : string) (body : payload) : WkCall (Z + error).

Abbreviation wprog := (prog Clock WkCall Empty_set Empty_set).
Abbreviation wret := (@Ret Clock WkCall Empty_set Empty_set _).

(** [ctx.Err()] of the publish context. *)
Definition ctx_err (deadline : option Time) (s : Clock) : option error :=
  match ckCaller s with
  | CtxCanceled => Some Canceled
  | CtxExpired => Some DeadlineExceeded
  | Live =>
      match deadline with
      | Some d => if d <=? ckNow s then Some DeadlineExceeded else None
      | None => None
      end
  end.

Definition defaultRetryDelays : list Duration := [100 * Millisecond; 300 * Millisecond].

(** [withJob] *)
Definition withJob (c : Config) (job : VoiceJob) : Config :=
  mkConfig (jWorkerEventsURL job) (jWorkerEventsToken job) (cfTimeout c) (cfRetryDelays c).

(** [Enabled] *)
Definition Enabled (c : Config) : bool := negb (blank (cfURL c)) && negb (blank (cfToken c)).

Definition errCreate : error := ErrNew "worker event publish request could not be created".

Definition retryableStatus (status : Z) : bool :=
  (status =? 408) || (status =? 409) || (status =? 429) || (500 <=? status).

(** The error of an answer, [None] for a status in the 2xx range. *)
Definition failure (answer : Z + error) : option error :=
  match answer with
  | inr err => Some (PublishError 0 "transport" true (Some err))
  | inl status =>
      if (status <? 200) || (300 <=? status)
      then Some (PublishError status "http_status" (retryableStatus status) None) else None
  end.

(** May [post] try again after this answer? *)
Definition retryable (answer : Z + error) : bool :=
  match answer with
  | inr _ => true
  | inl status => ((status <? 200) || (300 <=? status)) && retryableStatus status
  end.

Section Reporter.
Context `{ParseURL}.

(** [Validate] *)
Definition Validate (c : Config) : option error :=
  if blank (cfURL c) then Some (ErrNew "worker_events_url is required")
  else if blank (cfToken c) then Some (ErrNew "worker_events_token is required")
  else
    match parse_url (cfURL c) with
    | None => Some (ErrNew "worker_events_url must be an absolute URL")
    | Some (scheme, host) =>
        if (scheme =s "") || (host =s "")
        then Some (ErrNew "worker_events_url must be an absolute URL")
        else if (scheme <>s "https") && (scheme <>s "http")
        then Some (ErrNew "worker_events_url scheme is not allowed")
        else None
    end.

(** [postOnce]: may it be retried, and its error. *)
Definition postOnce (deadline : option Time) (cfg : Config) (endpoint : string) (body : payload)
    : wprog (bool * option error) :=
  let* done := read (ctx_err deadline) in
  match done with
  | Some err => wret (false, Some (classifyContextError err))
  | None =>
  let url := joinURL (cfURL cfg) endpoint in
  let* invalid := call (NewRequest url) in
  match invalid with
  | Some _ => wret (false, Some errCreate)
  | None =>
  let* answer := call (Do url (cfToken cfg) body) in
  match answer with
  | inr err =>
      let* done := read (ctx_err deadline) in
      match done with
      | Some ctxErr => wret (false, Some (classifyContextError ctxErr))
      | None => wret (true, failure (inr err))
      end
  | inl status => wret (retryable (inl status), failure (inl status))
  end
  end
  end.

(** [waitForRetry] *)
Definition waitForRetry (deadline : option Time) (delay : Duration) : wprog (option error) :=
  let done s := match ctx_err deadline s with Some _ => true | None => false end in
  if delay <=? 0 then read (ctx_err deadline)
  else
    let* ended := wait (Some delay) done in
    if ended then read (ctx_err deadline) else wret None.

(** The loop of [post], over the delays that are left. *)
Fixpoint post_loop (deadline : option Time) (cfg : Config) (endpoint : string) (body : payload)
    (delays : list Duration) : wprog (option error) :=
  let* x := postOnce deadline cfg endpoint body in
  let '(again, failed) := x in
  match failed with
  | None => wret None
  | Some err =>
      if negb again then wret (Some err)
      else
        match delays with
        | [] => wret (Some err)
        | delay :: delays =>
            let* ended := waitForRetry deadline delay in
            match ended with
            | Some err => wret (Some (classifyContextError err))
            | None => post_loop deadline cfg endpoint body delays
            end
        end
  end.

(** [post]; the bodies above always have a JSON text. *)
Definition post (config : Config) (job : VoiceJob) (endpoint : string) (body : payload)
    : wprog (option error) :=
  let cfg := withJob config job in
  if blank (cfURL cfg) && blank (cfToken cfg) then wret None
  else
    match Validate cfg with
    | Some err => wret (Some err)
    | None =>
        let* now := read ckNow in
        let deadline := if 0 <? cfTimeout cfg then Some (Add now (cfTimeout cfg)) else None in
        post_loop deadline cfg endpoint body (default defaultRetryDelays (cfRetryDelays cfg))
    end.

(** ** The methods of [Reporter] *)

Definition participant_payload (p : Participant) : participantPayload :=
  mkParticipantPayload (pUserID p) (pUsername p) (pAvatarURL p) (pIsBot p) (pSpeaking p).

Definition stream_endpoint (job : VoiceJob) (event : string) : string :=
  "/streams/" ++ PathEscape (jStreamID job) ++ "/events/" ++ event.

(** [ParticipantsChangedContext] *)
Definition ParticipantsChangedContext (config : Config) (job : VoiceJob) (ps : list Participant)
    : wprog (option error) :=
  post config job (stream_endpoint job "participants")
    (ParticipantsPayload (participant_payload <$> ps) (jJobGeneration job)).

(** [ActiveSpeakerStateChangedContext] *)
Definition ActiveSpeakerStateChangedContext (config : Config) (job : VoiceJob)
    (userID displayName : string) (speaking : bool) : wprog (option error) :=
  post config job (stream_endpoint job "active-speaker")
    (ActiveSpeakerPayload userID displayName speaking (jJobGeneration job)).

(** [ActiveSpeakerChanged] *)
Definition ActiveSpeakerChanged (config : Config) (job : VoiceJob) (userID displayName : string)
    : wprog (option error) :=
  ActiveSpeakerStateChangedContext config job userID displayName true.

(** [ChatMessageReceivedContext] *)
Definition ChatMessageReceivedContext (config : Config) (job : VoiceJob) (message : ChatMessage)
    : wprog (option error) :=
  post config job (stream_endpoint job "overlay") (ChatPayload message (jJobGeneration job)).
End Reporter.

(** ** What a publish does *)

(** The requests of a trace, with their answers. *)
Definition request_of (o : obs WkCall Empty_set) : list (string * string * payload * (Z + error)) :=
  match o with
  | OCall e x =>
      match e in WkCall X return X -> _ with
      | Do url token body => fun answer => [(url, token, body, answer)]
      | NewRequest _ => fun _ => []
      end x
  | _ => []
  end.

Definition requests (tr : list (obs WkCall Empty_set)) := tr ≫= request_of.

Lemma requests_app tr1 tr2 : requests (tr1 ++ tr2) = (requests tr1 ++ requests tr2)%list.
Proof. apply bind_app. Qed.

(** The errors that come from the context. *)
Definition context_error (e : error) : Prop :=
  e = Canceled \/ e = PublishError 0 "timeout" true (Some DeadlineExceeded).

Lemma ctx_err_classified deadline s e :
  ctx_err deadline s = Some e -> context_error (classifyContextError e).
Proof.
  unfold ctx_err. intros Hs. repeat case_match; try done; injection Hs as <-;
    (by left) || (by right).
Qed.

(** An answer of the Worker is retried by the manager exactly when the client
    says so. *)
Lemma failure_status_retried status e :
  failure (inl status) = Some e -> shouldRetryWorkerPublish (Some e) = retryable (inl status).
Proof.
  unfold failure, retryable. case_match eqn:E; [|done]. by intros [= <-].
Qed.

Section Publish.
Context (en : env Clock WkCall) (deadline : option Time) (cfg : Config) (endpoint : string)
  (body : payload).

(** What the answers of a publish say of its result. *)
Record outcome (attempts : nat) (answers : list (Z + error)) (res : option error) : Prop := {
  oc_bound : (length answers <= attempts)%nat;
  oc_retried : Forall (fun a => retryable a = true) (removelast answers);
  oc_success : res = None -> exists status, last answers = Some (inl status) /\ 200 <= status < 300;
  oc_failure : forall e, res = Some e ->
    e = errCreate \/ context_error e \/ exists a, last answers = Some a /\ failure a = Some e }.

Definition sent (answers : list (Z + error)) :=
  (fun a => (joinURL (cfURL cfg) endpoint, cfToken cfg, body, a)) <$> answers.

(** One request: nothing was sent, or it was and the answer is the outcome. *)
Lemma postOnce_outcome n s :
  let '((again, failed), s', tr) := run en (postOnce deadline cfg endpoint body) n s in
  (requests tr = [] /\ again = false /\ exists e, failed = Some e /\ (e = errCreate \/ context_error e)) \/
  exists a, requests tr = sent [a] /\
    ((failed = failure a /\ again = retryable a) \/
     (again = false /\ exists e, failed = Some e /\ context_error e)).
Proof.
  unfold postOnce. cbn [bind read run]. destruct (ctx_err deadline s) as [e|] eqn:He.
  { left. cbn. split_and!; [done|done|]. eexists. split; [done|]. right. by eapply ctx_err_classified. }
  cbn [bind call run]. destruct (env_call en _ n _ s) as [[e|] s1].
  { left. cbn. split_and!; [done|done|]. eexists. split; [done|by left]. }
  cbn [bind call run]. destruct (env_call en _ (S n) _ s1) as [[status|err] s2].
  { cbn [run]. right. exists (inl status). split; [done|]. by left. }
  cbn [bind read run]. destruct (ctx_err deadline s2) as [e|] eqn:He2; cbn [run]; right;
    exists (inr err); (split; [done|]).
  - right. split; [done|]. eexists. split; [done|]. by eapply ctx_err_classified.
  - by left.
Qed.

Lemma waitForRetry_quiet delay n s :
  let '(ended, s', tr) := run en (waitForRetry deadline delay) n s in
  requests tr = [] /\ forall e, ended = Some e -> context_error (classifyContextError e).
Proof.
  unfold waitForRetry. cbv zeta. destruct (delay <=? 0); cbn [bind read wait run].
  - split; [done|]. intros e. apply ctx_err_classified.
  - destruct (env_wait en n _ _ s) as [[|] s1]; cbn [run].
    + split; [done|]. intros e. apply ctx_err_classified.
    + done.
Qed.

Lemma failure_none a : failure a = None -> exists status, a = inl status /\ 200 <= status < 300.
Proof.
  unfold failure. destruct a as [status|]; [|done]. case_match; [done|]. intros _.
  exists status. bool_hyps. split; [done|lia].
Qed.

Lemma outcome_again k a answers res :
  retryable a = true -> answers <> [] -> outcome k answers res -> outcome (S k) (a :: answers) res.
Proof.
  intros Ha Hne [Hb Hr Hs Hf]. destruct answers as [|b answers]; [done|].
  split; [simpl in *; lia|by constructor|exact Hs|exact Hf].
Qed.

Lemma outcome_one k a res :
  (res = failure a \/ exists e, res = Some e /\ (e = errCreate \/ context_error e)) ->
  outcome (S k) [a] res.
Proof.
  intros Hres. split; [simpl; lia|constructor|..].
  - intros ->. destruct Hres as [Hf|(? & ? & _)]; [|done]. symmetry in Hf.
    apply failure_none in Hf as (status & -> & ?). by exists status.
  - intros e ->. destruct Hres as [Hf|(e' & [= <-] & He)]; [|tauto].
    right; right. by exists a.
Qed.

Lemma post_loop_outcome delays : forall n s,
  let '(res, s', tr) := run en (post_loop deadline cfg endpoint body delays) n s in
  exists answers, requests tr = sent answers /\ outcome (S (length delays)) answers res.
Proof.
  induction delays as [|delay delays IH]; intros n s; cbn [post_loop]; rewrite run_bind;
    pose proof (postOnce_outcome n s) as Hone;
    destruct (run en (postOnce deadline cfg endpoint body) n s) as [[[again failed] s1] tr1];
    destruct Hone as [(Htr & -> & e & -> & He)|(a & Htr & [[-> ->]|(-> & e & -> & He)])].
  all: cbn [negb run].
  all: try (exists []; rewrite requests_app, Htr; split; [done|];
    split; [simpl; lia|constructor|done|intros e' [= <-]; tauto]).
  all: try (exists [a]; rewrite requests_app, Htr; split; [done|]; apply outcome_one; right; by eauto).
  - destruct (failure a) as [e|] eqn:Hf; [destruct (retryable a)|]; cbn [negb run];
      (exists [a]; rewrite requests_app, Htr; split; [done|]; apply outcome_one; by left).
  - destruct (failure a) as [e|] eqn:Hf; [destruct (retryable a) eqn:Hr|]; cbn [negb run].
    2,3: exists [a]; rewrite requests_app, Htr; split; [done|]; apply outcome_one; by left.
    rewrite run_bind. pose proof (waitForRetry_quiet delay (n + length tr1) s1) as Hw.
    destruct (run en (waitForRetry deadline delay) _ s1) as [[ended s2] tr2]. destruct Hw as [Htr2 Hctx].
    destruct ended as [e'|].
    + cbn [run]. exists [a]. rewrite !requests_app, Htr, Htr2. split; [done|].
      apply outcome_one. right. eexists. split; [done|]. right. by apply Hctx.
    + specialize (IH (n + length tr1 + length tr2)%nat s2).
      destruct (run en (post_loop _ _ _ _ delays) _ s2) as [[res s3] tr3].
      destruct IH as (answers & Htr3 & Hoc). rewrite !requests_app, Htr, Htr2, Htr3.
      destruct answers as [|b answers].
      * exists [a]. split; [done|]. apply outcome_one.
        destruct Hoc as [_ _ Hs Hfl]. destruct res as [e'|]; [|by destruct (Hs eq_refl) as (? & ? & _)].
        right. exists e'. split; [done|].
        destruct (Hfl e' eq_refl) as [|[|(? & ? & _)]]; [by left|by right|done].
      * exists (a :: b :: answers). split; [done|]. by apply outcome_again.
Qed.
End Publish.

Section Properties.
Context `{ParseURL}.

(** C29: what a publish to the Worker does, against any server and any
    cancellation. A job with neither an events URL nor a token publishes nothing
    and succeeds; one whose URL or token is not valid gets that error without a
    request. Otherwise the same body is sent, to the job's URL with the job's
    token, at most once more than there are retry delays; every answer but the
    last is a transport failure or a status 408, 409, 429 or 5xx. The publish
    succeeds only on a 2xx answer; otherwise its error is that of the last
    answer, of the context (canceled, or a retryable timeout), or that no request
    could be made; and an error status is retried by the job manager exactly when
    it is one of the retryable ones. *)
Theorem publish_outcome en config job endpoint body n s :
  let cfg := withJob config job in
  let '(res, s', tr) := run en (post config job endpoint body) n s in
  if blank (jWorkerEventsURL job) && blank (jWorkerEventsToken job) then res = None /\ tr = []
  else
    match Validate cfg with
    | Some err => res = Some err /\ tr = []
    | None => exists answers,
        requests tr = sent cfg endpoint body answers /\
        outcome (S (length (default defaultRetryDelays (cfRetryDelays config)))) answers res /\
        forall status e, last answers = Some (inl status) -> failure (inl status) = Some e ->
          res = Some e -> shouldRetryWorkerPublish res = retryable (inl status)
    end.
Proof.
  cbv zeta. unfold post. cbv zeta.
  change (cfURL (withJob config job)) with (jWorkerEventsURL job).
  change (cfToken (withJob config job)) with (jWorkerEventsToken job).
  destruct (blank (jWorkerEventsURL job) && _); [done|].
  destruct (Validate (withJob config job)) as [err|]; [done|]. cbn [bind read run]. cbv zeta.
  match goal with |- context [run en (post_loop ?d ?c ?e ?b ?l) n s] =>
    pose proof (post_loop_outcome en d c e b l n s) as Ho;
    destruct (run en (post_loop d c e b l) n s) as [[res s'] tr] end.
  destruct Ho as (answers & Htr & Ho). exists answers. split; [done|]. split; [done|].
  intros status e _ Hf ->. by apply failure_status_retried.
Qed.
End Properties.

(** ** Witness: the Worker is busy twice, then accepts *)
Module Sample.
#[local] Instance worker_url : ParseURL := fun _ => Some ("https", "worker.example").

Definition config : Config := mkConfig "" "" (3 * Second) None.

Definition job : VoiceJob :=
  mkVoiceJob "g" "v" "t" 1 "stream 1" "" "" "" "" "https://worker.example/" "secret" 0 0 0 false 4.

Definition busy : env Clock WkCall :=
  Build_env
    (fun X n e s =>
       (match e in WkCall Y return Y with
        | NewRequest _ => None
        | Do _ _ _ => inl (if Nat.ltb n 6 then 503 else 204)
        end, s))
    (fun _ _ _ s => (false, s)).

Definition publish : wprog (option error) :=
  ActiveSpeakerStateChangedContext config job "u1" "Alice" true.

Lemma publish_outcome_witness :
  let '(res, _, tr) := run busy publish 0 (mkClock 1000 Live) in
  res = None /\
  exists answers,
    requests tr = (fun a => ("https://worker.example/streams/stream%201/events/active-speaker",
                             "secret", ActiveSpeakerPayload "u1" "Alice" true 4, a)) <$> answers /\
    (length answers <= 3)%nat.
Proof.
  pose proof (publish_outcome busy config job (stream_endpoint job "active-speaker")
    (ActiveSpeakerPayload "u1" "Alice" true 4) 0 (mkClock 1000 Live)) as Hp.
  change (post config job _ _) with publish in Hp.
  change (Validate (withJob config job)) with (@None error) in Hp.
  change (blank (jWorkerEventsURL job) && blank (jWorkerEventsToken job)) with false in Hp.
  destruct (run busy publish 0 (mkClock 1000 Live)) as [[res s'] tr] eqn:E.
  destruct Hp as (answers & Htr & Ho & _). split.
  - assert ((run busy publish 0 (mkClock 1000 Live)).1.1 = None) as Hr by (vm_compute; reflexivity).
    rewrite E in Hr. exact Hr.
  - exists answers. split; [exact Htr|]. exact (oc_bound _ _ _ Ho).
Defined.
End Sample.
