(* ===== verification/Rfc3339.v ===== *)
(** * Rfc3339: reading the times of the Control Panel

    [time.Parse] with the layout [time.RFC3339], which [time.Time.UnmarshalJSON]
    applies to a JSON string: the fields with their widths, a fraction after a
    point or a comma cut at nanoseconds, [Z] or an offset, and the day checked
    against its month.  [parse_format] is the round trip with
    [FormatRFC3339Nano] of [RuntimeConfig].  A time is the instant; the offset it
    was written with is not kept.  [decode_time] reads the text of a JSON string as
    [Json] gives it, after its escapes; [UnmarshalJSON] reads the bytes between the
    quotes and refuses a time written with an escape, which the Control Panel does
    not do. *)

From S2P Require Import Prelude Json RuntimeConfig.

(** ** The calendar *)

Definition is_leap (year : Z) : bool :=
  (year mod 4 =? 0) && (negb (year mod 100 =? 0) || (year mod 400 =? 0)).

(** [daysIn] *)
Definition days_in (month year : Z) : Z :=
  if month =? 2 then (if is_leap year then 29 else 28)
  else if (month =? 4) || (month =? 6) || (month =? 9) || (month =? 11) then 30 else 31.

(** Days from 0000-03-01, the inverse of [civil]. *)
Definition days_of_civil (year month day : Z) : Z :=
  let y := if month <=? 2 then year - 1 else year in
  let yoe := y mod 400 in
  let doy := (153 * (if month <=? 2 then month + 9 else month - 3) + 2) / 5 + day - 1 in
  y / 400 * 146097 + (yoe * 365 + yoe / 4 - yoe / 100 + doy).

(** [time.Date] in UTC *)
Definition Date (year month day hour min sec nsec : Z) : Time :=
  (((days_of_civil year month day - 306) * 86400) + hour * 3600 + min * 60 + sec) * Second + nsec.

(** ** The parser *)

Definition zdigit (a : ascii) : option Z := Z.of_N <$> digit_value a.

(** [getnum]: two digits, or one when that is allowed. *)
Definition getnum (fixed : bool) (l : list ascii) : option (Z * list ascii) :=
  match l with
  | a :: r =>
      d ← zdigit a;
      match r with
      | b :: r' =>
          match zdigit b with
          | Some e => Some (d * 10 + e, r')
          | None => if fixed then None else Some (d, r)
          end
      | [] => if fixed then None else Some (d, r)
      end
  | [] => None
  end.

Definition getyear (l : list ascii) : option (Z * list ascii) :=
  match l with
  | a :: b :: c :: d :: r =>
      a ← zdigit a; b ← zdigit b; c ← zdigit c; d ← zdigit d;
      Some (a * 1000 + b * 100 + c * 10 + d, r)
  | _ => None
  end.

Definition skip (prefix : ascii) (l : list ascii) : option (list ascii) :=
  match l with a :: r => if Ascii.eqb a prefix then Some r else None | [] => None end.

Definition commaOrPeriod (a : ascii) : bool := Ascii.eqb a "." || Ascii.eqb a ",".

(** [parseNanoseconds]: the digits cut to nine and scaled to nanoseconds. *)
Fixpoint nanoseconds (scale : nat) (l : list ascii) : Z * list ascii :=
  match l with
  | a :: r =>
      match zdigit a with
      | Some d =>
          match scale with
          | O => nanoseconds O r
          | S s => let '(n, rest) := nanoseconds s r in (d * 10 ^ Z.of_nat s + n, rest)
          end
      | None => (0, l)
      end
  | [] => (0, [])
  end.

Definition getfraction (l : list ascii) : Z * list ascii :=
  match l with
  | a :: b :: r =>
      if commaOrPeriod a then
        match zdigit b with Some _ => nanoseconds 9 (b :: r) | None => (0, l) end
      else (0, l)
  | _ => (0, l)
  end.

(** The zone: its offset in seconds. *)
Definition getzone (l : list ascii) : option (Z * list ascii) :=
  match l with
  | "Z"%char :: r => Some (0, r)
  | sign :: r =>
      '(hr, r) ← getnum true r;
      r ← skip ":" r;
      '(mm, r) ← getnum true r;
      if (24 <? hr) || (60 <? mm) then None
      else
        let offset := (hr * 60 + mm) * 60 in
        if Ascii.eqb sign "+" then Some (offset, r)
        else if Ascii.eqb sign "-" then Some (- offset, r) else None
  | [] => None
  end.

Definition Parse (l : list ascii) : option Time :=
  '(year, l) ← getyear l; l ← skip "-" l;
  '(month, l) ← getnum true l; l ← skip "-" l;
  '(day, l) ← getnum true l; l ← skip "T" l;
  '(hour, l) ← getnum false l; l ← skip ":" l;
  '(min, l) ← getnum true l; l ← skip ":" l;
  '(sec, l) ← getnum true l;
  let '(nsec, l) := getfraction l in
  '(offset, l) ← getzone l;
  if negb (bool_decide (l = [])) || (month <? 1) || (12 <? month) || (23 <? hour) || (59 <? min)
     || (59 <? sec) || (day <? 1) || (days_in month year <? day)
  then None
  else Some (Date year month day hour min sec nsec - offset * Second).

(** [time.Time.UnmarshalJSON] *)
Definition decode_time (v : json) (t : Time) : option Time :=
  match v with JString s => Parse (list_ascii_of_string s) | JNull => Some t | _ => None end.

Example parse_samples :
  decode_time (JString "0001-01-01T00:00:00Z") 7 = Some 0 /\
  (decode_time (JString "2024-02-29T23:59:60Z") 7 = None) /\
  (decode_time (JString "2023-02-29T00:00:00Z") 7 = None) /\
  decode_time (JString "2024-02-29T09:30:00.1234567899+09:00") 7 =
    decode_time (JString "2024-02-29T00:30:00.123456789Z") 0 /\
  decode_time JNull 7 = Some 7.
Proof. vm_compute. done. Qed.

(** ** Round trip *)

Fixpoint upto (n : nat) (z : Z) (f : Z -> bool) : bool :=
  match n with O => true | S n => f z && upto n (z + 1) f end.

Lemma upto_all n z f : upto (Z.to_nat n) z f = true -> forall x, z <= x < z + n -> f x = true.
Proof.
  intros Hf x Hx. assert (z <= x < z + Z.of_nat (Z.to_nat n)) as Hu by lia.
  clear Hx. revert z Hf Hu. generalize (Z.to_nat n) as k. clear n. intros k.
  induction k as [|k IH]; intros z Hf Hu; [lia|]. simpl in Hf. bool_hyps.
  destruct (decide (x = z)) as [->|]; [done|]. apply (IH (z + 1)); [done|lia].
Qed.

(** The days before a year of the era, which starts in March, and the year of a
    day: [civil]'s formula is monotone, so it is enough to see it at the first
    and the last day of each year. *)
Definition year_start (y : Z) : Z := 365 * y + y / 4 - y / 100 + y / 400.
Definition year_of (doe : Z) : Z := (doe - doe / 1460 + doe / 36524 - doe / 146096) / 365.

Lemma sub_div_mono k a b : 0 < k -> a <= b -> a - a / k <= b - b / k.
Proof.
  intros Hk Hab. pose proof (Z.div_mod a k). pose proof (Z.div_mod b k).
  pose proof (Z.mod_pos_bound a k Hk). pose proof (Z.mod_pos_bound b k Hk).
  pose proof (Z.div_le_mono a b k Hk Hab). destruct (decide (a / k = b / k)); nia.
Qed.

Lemma year_of_mono a b : 0 <= a <= b -> year_of a <= year_of b.
Proof.
  intros Hab. unfold year_of. apply Z.div_le_mono; [lia|].
  assert (forall n, n / 146096 = n / 36524 / 4) as Hd by (intros n; by rewrite Z.div_div).
  rewrite !Hd. pose proof (Z.div_le_mono a b 36524 ltac:(lia) ltac:(lia)).
  pose proof (sub_div_mono 4 (a / 36524) (b / 36524)).
  pose proof (sub_div_mono 1460 a b). lia.
Qed.

Lemma year_table y :
  0 <= y < 400 ->
  year_of (year_start y) = y /\ year_of (year_start (y + 1) - 1) = y /\
  year_start (y + 1) = year_start y + (if is_leap (y + 1) then 366 else 365).
Proof.
  intros Hy.
  assert (upto (Z.to_nat 400) 0 (fun y =>
    (year_of (year_start y) =? y) && (year_of (year_start (y + 1) - 1) =? y)
    && (year_start (y + 1) =? year_start y + (if is_leap (y + 1) then 366 else 365))) = true) as Hall
    by (vm_compute; reflexivity).
  pose proof (upto_all _ _ _ Hall y ltac:(lia)) as H. clear Hall. cbv beta in H.
  bool_hyps. split_and!; assumption.
Qed.

Lemma year_of_era doe :
  0 <= doe < 146097 ->
  0 <= year_of doe < 400 /\ year_start (year_of doe) <= doe < year_start (year_of doe + 1).
Proof.
  intros Hd. assert (0 <= year_of doe < 400) as Hy.
  { pose proof (year_of_mono 0 doe ltac:(lia)). pose proof (year_of_mono doe 146096 ltac:(lia)).
    change (year_of 0) with 0 in *. change (year_of 146096) with 399 in *. lia. }
  split; [done|]. destruct (year_table _ Hy) as (Hs & He & _).
  assert (forall y, 0 <= y -> 0 <= year_start y) as Hpos.
  { intros y Hn. unfold year_start. pose proof (Z.div_pos y 4 Hn). pose proof (Z.div_pos y 400 Hn).
    pose proof (Z.div_le_upper_bound y 100 y). lia. }
  split.
  - destruct (decide (year_of doe = 0)) as [->|Hz]; [change (year_start 0) with 0; lia|]. apply Z.nlt_ge. intros Hlt.
    destruct (year_table (year_of doe - 1) ltac:(lia)) as (_ & Hp & _). rewrite Z.sub_add in Hp.
    pose proof (year_of_mono doe (year_start (year_of doe) - 1) ltac:(lia)). lia.
  - destruct (decide (year_of doe = 399)) as [->|Hz]; [change (year_start (399 + 1)) with 146097; lia|].
    apply Z.nle_gt. intros Hle.
    destruct (year_table (year_of doe + 1) ltac:(lia)) as (Hn & _ & _).
    pose proof (year_of_mono (year_start (year_of doe + 1)) doe
      ltac:(split; [apply Hpos; lia|done])). lia.
Qed.

(** The months of a year that starts in March. *)
Lemma month_table doy :
  0 <= doy <= 365 ->
  let mp := (5 * doy + 2) / 153 in
  let month := if mp <? 10 then mp + 3 else mp - 9 in
  1 <= month <= 12 /\ (if month <=? 2 then month + 9 else month - 3) = mp /\
  (month <= 2 -> 306 <= doy) /\
  1 <= doy - (153 * mp + 2) / 5 + 1 <=
    (if month =? 2 then (if doy =? 365 then 29 else 28)
     else if (month =? 4) || (month =? 6) || (month =? 9) || (month =? 11) then 30 else 31).
Proof.
  intros Hd.
  assert (upto (Z.to_nat 366) 0 (fun doy =>
    let mp := (5 * doy + 2) / 153 in
    let month := if mp <? 10 then mp + 3 else mp - 9 in
    (1 <=? month) && (month <=? 12) && ((if month <=? 2 then month + 9 else month - 3) =? mp)
    && ((2 <? month) || (306 <=? doy)) && (1 <=? doy - (153 * mp + 2) / 5 + 1)
    && (doy - (153 * mp + 2) / 5 + 1 <=?
      (if month =? 2 then (if doy =? 365 then 29 else 28)
       else if (month =? 4) || (month =? 6) || (month =? 9) || (month =? 11) then 30 else 31))) = true)
    as Hall by (vm_compute; reflexivity).
  pose proof (upto_all _ _ _ Hall doy ltac:(lia)) as H. clear Hall. cbv beta zeta in H.
  cbv zeta. bool_hyps. split_and!; try done.
  match goal with H : _ || _ = true |- _ => apply orb_prop in H as [?%Z.ltb_lt|?%Z.leb_le] end; lia.
Qed.

(** Year, month and day of a day, within one era of 400 years. *)
Lemma civil_era doe :
  0 <= doe < 146097 ->
  let '(y, m, d) := civil doe in
  0 <= y <= 400 /\ 1 <= m <= 12 /\ 1 <= d <= days_in m y /\ days_of_civil y m d = doe /\
  (146037 <= doe \/ y <= 399).
Proof.
  intros Hd. unfold civil. rewrite (Z.div_small doe), (Z.mod_small doe) by lia.
  fold (year_of doe). destruct (year_of_era doe Hd) as [Hy Hr]. set (y := year_of doe) in *. clearbody y.
  destruct (year_table y Hy) as (_ & _ & Hlen). rewrite Hlen in Hr.
  assert (year_start y = 365 * y + y / 4 - y / 100) as Hs
    by (unfold year_start; rewrite (Z.div_small y 400) by done; lia).
  rewrite <- Hs. set (doy := doe - year_start y) in *.
  assert (0 <= doy <= 365) as Hdoy by (unfold doy; case_match; lia).
  pose proof (month_table doy Hdoy) as Hm. cbv zeta in Hm |- *.
  set (mp := (5 * doy + 2) / 153) in *. set (month := if mp <? 10 then mp + 3 else mp - 9) in *.
  assert (doe = year_start y + doy) as Hdoe by (unfold doy; lia).
  clearbody month mp doy. destruct Hm as (Hm & Hmp & Hlate & Hday).
  split_and!; try lia.
  - destruct (month <=? 2); lia.
  - destruct (month <=? 2); lia.
  - unfold days_in. destruct (Z.eqb_spec month 2) as [->|]; [|lia].
    change (2 <=? 2) with true. cbn iota in *. change (0 * 400) with 0. rewrite Z.add_0_r.
    destruct (Z.eqb_spec doy 365) as [He|]; [|destruct (is_leap (y + 1)); lia].
    assert (is_leap (y + 1) = true) as ->; [|lia]. by destruct (is_leap (y + 1)); [|lia].
  - unfold days_of_civil. rewrite Hmp.
    assert ((if month <=? 2 then y + 0 * 400 + (if month <=? 2 then 1 else 0) - 1
             else y + 0 * 400 + (if month <=? 2 then 1 else 0)) = y) as -> by (destruct (month <=? 2); lia).
    rewrite Z.mod_small, Z.div_small by done. lia.
  - destruct (Z.leb_spec month 2) as [Hle|]; [|lia]. destruct (decide (y = 399)) as [->|]; [|lia].
    left. specialize (Hlate Hle). change (year_start 399) with 145731 in *. lia.
Qed.

(** Eras repeat. *)
Lemma civil_shift era doe :
  0 <= doe < 146097 ->
  civil (era * 146097 + doe) = (let '(y, m, d) := civil doe in (y + era * 400, m, d)).
Proof.
  intros Hd. unfold civil.
  rewrite (Z.add_comm (era * 146097)), Z_div_plus_full, Z_mod_plus_full by lia.
  rewrite (Z.div_small doe), (Z.mod_small doe) by lia. f_equal. f_equal. ring.
Qed.

Lemma is_leap_shift y era : is_leap (y + era * 400) = is_leap y.
Proof.
  unfold is_leap.
  assert ((y + era * 400) mod 4 = y mod 4) as ->.
  { replace (y + era * 400) with (y + (era * 100) * 4) by lia. apply Z_mod_plus_full. }
  assert ((y + era * 400) mod 100 = y mod 100) as ->.
  { replace (y + era * 400) with (y + (era * 4) * 100) by lia. apply Z_mod_plus_full. }
  by rewrite Z_mod_plus_full.
Qed.

Lemma days_of_civil_shift y m d era :
  days_of_civil (y + era * 400) m d = era * 146097 + days_of_civil y m d.
Proof.
  unfold days_of_civil.
  replace (if m <=? 2 then y + era * 400 - 1 else y + era * 400)
    with ((if m <=? 2 then y - 1 else y) + era * 400) by (case_match; lia).
  rewrite Z_div_plus_full, Z_mod_plus_full by lia. lia.
Qed.

(** [civil] gives a valid date of the years 0 to 9999, from which the day is
    recovered. *)
Lemma civil_days n :
  0 <= n < 3652365 ->
  let '(y, m, d) := civil n in
  0 <= y <= 9999 /\ 1 <= m <= 12 /\ 1 <= d <= days_in m y /\ days_of_civil y m d = n.
Proof.
  intros Hn. set (era := n / 146097). set (doe := n mod 146097).
  assert (n = era * 146097 + doe) as Hs by (unfold era, doe; pose proof (Z.div_mod n 146097); lia).
  assert (0 <= doe < 146097) as Hd by (by apply Z.mod_pos_bound).
  rewrite Hs, civil_shift by done. pose proof (civil_era doe Hd) as Hc.
  destruct (civil doe) as [[y m] d]. destruct Hc as (Hy & Hm & Hday & Hback & Hlast).
  assert (0 <= era <= 24) as He by lia.
  split; [|split; [done|split]].
  - destruct (decide (era = 24)); lia.
  - unfold days_in in *. rewrite is_leap_shift. lia.
  - rewrite days_of_civil_shift. lia.
Qed.

(** The numbers of the text are read back. *)
Lemma zdigit_char n : (n < 10)%N -> zdigit (pretty_N_char n) = Some (Z.of_N n).
Proof.
  intros Hn.
  assert (upto (Z.to_nat 10) 0 (fun z => bool_decide (zdigit (pretty_N_char (Z.to_N z)) = Some z)) = true)
    as Hall by (vm_compute; reflexivity).
  pose proof (upto_all _ _ _ Hall (Z.of_N n) ltac:(lia)) as H. clear Hall. cbv beta in H.
  apply bool_decide_eq_true_1 in H. by rewrite N2Z.id in H.
Qed.

Lemma itoa_go y : 0 < y -> itoa y = pretty_N_go (Z.to_N y) "".
Proof. by destruct y. Qed.

(** The four digits of a year. *)
Lemma padded_year y :
  0 <= y <= 9999 ->
  let c k := pretty_N_char (Z.to_N (y / k mod 10)) in
  padded 4 y = String (c 1000) (String (c 100) (String (c 10) (String (c 1) ""))).
Proof.
  intros Hy. cbv zeta. unfold padded.
  destruct (decide (y = 0)) as [->|]; [done|]. rewrite itoa_go by lia.
  assert (exists x, y = Z.of_N x) as [x ->] by (exists (Z.to_N y); lia). rewrite N2Z.id.
  assert (forall k, (0 < k)%N -> Z.to_N (Z.of_N x / Z.of_N k mod 10) = (x `div` k) `mod` 10)%N as Hc.
  { intros k Hk. change 10%Z with (Z.of_N 10). by rewrite <- N2Z.inj_div, <- N2Z.inj_mod, N2Z.id. }
  pose proof (Hc 1000%N eq_refl) as H1000. pose proof (Hc 100%N eq_refl) as H100.
  pose proof (Hc 10%N eq_refl) as H10. pose proof (Hc 1%N eq_refl) as H1.
  cbn [Z.of_N] in H1000, H100, H10, H1. rewrite H1000, H100, H10, H1. clear H1000 H100 H10 H1 Hc.
  rewrite pretty_N_go_step by lia. rewrite N.div_1_r.
  destruct (decide (x < 10)%N).
  { rewrite (N.div_small x 10), (N.div_small x 100), (N.div_small x 1000) by lia. done. }
  rewrite pretty_N_go_step by (apply N.div_str_pos; lia). rewrite N.Div0.div_div. change (10 * 10)%N with 100%N.
  destruct (decide (x < 100)%N).
  { rewrite (N.div_small x 100), (N.div_small x 1000) by lia. done. }
  rewrite pretty_N_go_step by (apply N.div_str_pos; lia). rewrite N.Div0.div_div. change (100 * 10)%N with 1000%N.
  destruct (decide (x < 1000)%N).
  { rewrite (N.div_small x 1000) by lia. done. }
  rewrite pretty_N_go_step by (apply N.div_str_pos; lia). rewrite N.Div0.div_div.
  rewrite (N.div_small x (1000 * 10)) by lia. done.
Qed.

Lemma getyear_padded y rest :
  0 <= y <= 9999 -> getyear (list_ascii_of_string (padded 4 y) ++ rest) = Some (y, rest).
Proof.
  intros Hy. rewrite padded_year by done. cbn [list_ascii_of_string app getyear].
  assert (forall k, 0 <= y / k mod 10 < 10) as Hm by (intros k; by apply Z.mod_pos_bound).
  pose proof (Hm 1000). pose proof (Hm 100). pose proof (Hm 10). pose proof (Hm 1). clear Hm.
  rewrite !zdigit_char by lia. cbn [mbind option_bind]. rewrite !Z2N.id by lia. do 2 f_equal.
  assert (y / 100 = y / 10 / 10 /\ y / 1000 = y / 10 / 10 / 10) as [-> ->] by (by rewrite !Z.div_div).
  rewrite Z.div_1_r. pose proof (Z.div_mod y 10). pose proof (Z.div_mod (y / 10) 10).
  pose proof (Z.div_mod (y / 10 / 10) 10). rewrite (Z.mod_small (y / 10 / 10 / 10) 10); [lia|].
  split; [repeat (apply Z.div_pos; [|done]); lia|]. repeat (apply Z.div_lt_upper_bound; [done|]). lia.
Qed.

Lemma getnum_padded fixed n rest :
  0 <= n <= 99 -> getnum fixed (list_ascii_of_string (padded 2 n) ++ rest) = Some (n, rest).
Proof.
  intros Hn.
  assert (upto (Z.to_nat 100) 0 (fun n => match list_ascii_of_string (padded 2 n) with
    | [a; b] => bool_decide (getnum true [a; b] = Some (n, []))
    | _ => false end) = true) as Hall by (vm_compute; reflexivity).
  pose proof (upto_all _ _ _ Hall n ltac:(lia)) as H. clear Hall. cbv beta in H.
  destruct (list_ascii_of_string (padded 2 n)) as [|a [|b [|]]]; try done.
  apply bool_decide_eq_true_1 in H. cbn [app getnum] in *.
  destruct (zdigit a), (zdigit b); try done. cbn [mbind option_bind] in *. congruence.
Qed.

Lemma padded_digit n :
  0 <= n <= 9 -> exists a, list_ascii_of_string (padded 1 n) = [a] /\ zdigit a = Some n.
Proof.
  intros Hn.
  assert (upto (Z.to_nat 10) 0 (fun n => match list_ascii_of_string (padded 1 n) with
    | [a] => bool_decide (zdigit a = Some n) | _ => false end) = true) as Hall by (vm_compute; reflexivity).
  pose proof (upto_all _ _ _ Hall n ltac:(lia)) as H. clear Hall. cbv beta in H.
  destruct (list_ascii_of_string (padded 1 n)) as [|a [|]]; try done.
  apply bool_decide_eq_true_1 in H. by exists a.
Qed.

Lemma nanoseconds_fraction w n rest :
  0 <= n < 10 ^ Z.of_nat w -> no_digit rest ->
  nanoseconds w (list_ascii_of_string (fraction w n) ++ rest) = (n, rest).
Proof.
  intros Hn Hr. revert n Hn. induction w as [|w IH]; intros n Hn.
  - simpl in *. replace n with 0 by lia. destruct rest as [|a r]; [done|]. simpl in *.
    unfold zdigit. by rewrite Hr.
  - cbn [fraction]. destruct (Z.eqb_spec n 0) as [->|Hz].
    { destruct rest as [|a r]; [done|]. simpl in *. unfold zdigit. by rewrite Hr. }
    rewrite Nat2Z.inj_succ, Z.pow_succ_r in Hn by lia.
    assert (0 < 10 ^ Z.of_nat w) as Hp by (apply Z.pow_pos_nonneg; lia).
    assert (0 <= n / 10 ^ Z.of_nat w <= 9) as Hd.
    { split; [apply Z.div_pos; lia|]. assert (n / 10 ^ Z.of_nat w < 10); [|lia]. apply Z.div_lt_upper_bound; lia. }
    destruct (padded_digit _ Hd) as (a & Ha & Hza).
    rewrite list_ascii_app, Ha. cbn [app nanoseconds]. rewrite Hza.
    rewrite IH by (by apply Z.mod_pos_bound). f_equal. pose proof (Z.div_mod n (10 ^ Z.of_nat w)). lia.
Qed.

Lemma getfraction_format n rest :
  0 <= n < Second -> no_digit rest -> (forall a r, rest = a :: r -> commaOrPeriod a = false) ->
  getfraction (list_ascii_of_string (if n =? 0 then "" else "." ++ fraction 9 n) ++ rest) = (n, rest).
Proof.
  intros Hn Hr Hc. destruct (Z.eqb_spec n 0) as [->|Hz].
  { simpl. destruct rest as [|a [|b r]]; [done..|]. simpl. by rewrite (Hc a (b :: r)). }
  pose proof (nanoseconds_fraction 9 n rest Hn Hr) as H.
  change (10 ^ Z.of_nat 9) with Second in H.
  rewrite list_ascii_app. cbn [list_ascii_of_string app].
  assert (exists a r, list_ascii_of_string (fraction 9 n) = a :: r /\ is_Some (zdigit a)) as (a & r & Ha & [d Hd]).
  { cbn [fraction]. rewrite (proj2 (Z.eqb_neq n 0)) by done.
    destruct (padded_digit (n / 10 ^ Z.of_nat 8)) as (a & Ha & Hza).
    { change (10 ^ Z.of_nat 8) with 100000000. unfold Second in Hn.
      split; [apply Z.div_pos; lia|]. assert (n / 100000000 < 10); [|lia]. apply Z.div_lt_upper_bound; lia. }
    rewrite list_ascii_app, Ha. eexists _, _. split; [done|]. by rewrite Hza. }
  rewrite Ha in *. cbn [app] in *. unfold getfraction. change (commaOrPeriod ".") with true.
  cbn iota. by rewrite Hd.
Qed.

(** The times from year 1 to year 9999, the range of the format. *)
Definition max_time : Time := 3652059 * 86400 * Second.

Lemma date_of_parts t :
  let seconds := t / Second in
  let s := seconds mod 86400 in
  0 <= t < max_time ->
  let '(y, mo, d) := civil (seconds / 86400 + 306) in
  Date y mo d (s / 3600) (s / 60 mod 60) (s mod 60) (t mod Second) = t.
Proof.
  intros seconds s Ht.
  assert (0 <= seconds / 86400 + 306 < 3652365) as Hd.
  { unfold seconds, max_time in *. rewrite Z.div_div by (unfold Second; lia).
    assert (0 <= t / (Second * 86400) < 3652059); [|lia].
    split; [apply Z.div_pos; unfold Second; lia|apply Z.div_lt_upper_bound; unfold Second in *; lia]. }
  pose proof (civil_days _ Hd) as Hc. destruct (civil _) as [[y mo] d]. destruct Hc as (_ & _ & _ & Hc).
  unfold Date. rewrite Hc.
  assert (t = seconds * Second + t mod Second) as Hs
    by (unfold seconds; pose proof (Z.div_mod t Second); unfold Second in *; lia).
  assert (seconds = seconds / 86400 * 86400 + s) as Hs2
    by (unfold s; pose proof (Z.div_mod seconds 86400); lia).
  assert (s / 3600 * 3600 + s / 60 mod 60 * 60 + s mod 60 = s) as Hs3.
  { pose proof (Z.div_mod s 60). pose proof (Z.div_mod (s / 60) 60).
    assert (s / 60 / 60 = s / 3600) by (rewrite Z.div_div; done || lia). lia. }
  rewrite Hs at 2. unfold Second in *. lia.
Qed.

(** A time that was formatted is read back. *)
Lemma parse_format t :
  0 <= t < max_time -> Parse (list_ascii_of_string (FormatRFC3339Nano t)) = Some t.
Proof.
  intros Ht. pose proof (date_of_parts t Ht) as Hp. cbv zeta in Hp. unfold FormatRFC3339Nano.
  set (seconds := t / Second) in *. set (s := seconds mod 86400) in *.
  assert (0 <= s < 86400) as Hs by (by apply Z.mod_pos_bound).
  assert (0 <= s / 3600 <= 23) as Hh.
  { split; [apply Z.div_pos; lia|]. assert (s / 3600 < 24); [apply Z.div_lt_upper_bound|]; lia. }
  pose proof (Z.mod_pos_bound (s / 60) 60 ltac:(lia)) as Hm.
  pose proof (Z.mod_pos_bound s 60 ltac:(lia)) as Hsec.
  pose proof (Z.mod_pos_bound t Second ltac:(unfold Second; lia)) as Hn.
  assert (0 <= seconds / 86400 + 306 < 3652365) as Hd.
  { unfold seconds, max_time in *. rewrite Z.div_div by (unfold Second; lia).
    assert (0 <= t / (Second * 86400) < 3652059); [|lia].
    split; [apply Z.div_pos; unfold Second; lia|apply Z.div_lt_upper_bound; unfold Second in *; lia]. }
  pose proof (civil_days _ Hd) as Hc. destruct (civil _) as [[y mo] d]. destruct Hc as (Hy & Hmo & Hday & _).
  assert (days_in mo y <= 31) as Hmax by (unfold days_in; repeat case_match; lia).
  rewrite !list_ascii_app. unfold Parse.
  rewrite getyear_padded by lia. cbn [mbind option_bind list_ascii_of_string app skip Ascii.eqb Bool.eqb].
  rewrite getnum_padded by lia. cbn [mbind option_bind list_ascii_of_string app skip Ascii.eqb Bool.eqb].
  rewrite getnum_padded by lia. cbn [mbind option_bind list_ascii_of_string app skip Ascii.eqb Bool.eqb].
  rewrite getnum_padded by lia. cbn [mbind option_bind list_ascii_of_string app skip Ascii.eqb Bool.eqb].
  rewrite getnum_padded by lia. cbn [mbind option_bind list_ascii_of_string app skip Ascii.eqb Bool.eqb].
  rewrite getnum_padded by lia. cbn [mbind option_bind].
  rewrite getfraction_format; [|done|done|by intros ? ? [= <- <-]]. cbn [getzone mbind option_bind].
  match goal with |- (if ?c then _ else _) = _ => assert (c = false) as -> end.
  { rewrite !orb_false_iff, !Z.ltb_ge, bool_decide_eq_true_2 by done. simpl. lia. }
  f_equal. lia.
Qed.

(** A time in UTC as a JSON value. *)
Definition time_json (t : Time) : json := JString (FormatRFC3339Nano t).

Lemma decode_time_format t u :
  0 <= t < max_time -> decode_time (JString (FormatRFC3339Nano t)) u = Some t.
Proof. apply parse_format. Qed.
