(* ===== verification/StartRequest.v ===== *)
(** * StartRequest: the body of [POST /jobs/start]

    [internal/httpapi/start_job_request.go]: the legacy and the versioned
    request, their strict decoding from JSON, and the voice job they stand
    for. *)

From S2P Require Import Prelude Utf8 Json Types.

Inductive startJobRequestMode := startJobRequestLegacy | startJobRequestResolvedTargetV2.

Definition startJobCodeInvalidJSON := "invalid_json".
Definition startJobCodeUnsupportedSchemaVersion := "unsupported_schema_version".
Definition startJobCodeDiscordTargetInvalid := "discord_target_invalid".

(** [maxStartJobRequestBytes] *)
Definition maxStartJobRequestBytes : N := 2 ^ 20.

(** ** The requests *)

Record legacyStartJobRequest := mkLegacy {
  lGuildID : string;
  lVoiceChannelID : string;
  lTextChannelID : string;
  lStreamID : string;
  lEncoderAudioURL : string;
  lCaptionAudioURL : string;
  lCaptionAudioToken : string;
  lStreamIngestToken : string;
  lWorkerEventsURL : string;
  lWorkerEventsToken : string;
  lCaptionAudioFlushMS : Z;
  lCaptionAudioMaxBatchPackets : Z;
  lUnresolvedSSRCBufferMS : Z;
  lJobGeneration : Z }.

Definition eta_legacy (r : legacyStartJobRequest) : legacyStartJobRequest :=
  mkLegacy (lGuildID r) (lVoiceChannelID r) (lTextChannelID r) (lStreamID r) (lEncoderAudioURL r)
    (lCaptionAudioURL r) (lCaptionAudioToken r) (lStreamIngestToken r) (lWorkerEventsURL r)
    (lWorkerEventsToken r) (lCaptionAudioFlushMS r) (lCaptionAudioMaxBatchPackets r)
    (lUnresolvedSSRCBufferMS r) (lJobGeneration r).

#[export] Instance set_lGuildID : Setter lGuildID := ltac:(mk_setter eta_legacy).
#[export] Instance set_lVoiceChannelID : Setter lVoiceChannelID := ltac:(mk_setter eta_legacy).
#[export] Instance set_lTextChannelID : Setter lTextChannelID := ltac:(mk_setter eta_legacy).
#[export] Instance set_lStreamID : Setter lStreamID := ltac:(mk_setter eta_legacy).
#[export] Instance set_lEncoderAudioURL : Setter lEncoderAudioURL := ltac:(mk_setter eta_legacy).
#[export] Instance set_lCaptionAudioURL : Setter lCaptionAudioURL := ltac:(mk_setter eta_legacy).
#[export] Instance set_lCaptionAudioToken : Setter lCaptionAudioToken := ltac:(mk_setter eta_legacy).
#[export] Instance set_lStreamIngestToken : Setter lStreamIngestToken := ltac:(mk_setter eta_legacy).
#[export] Instance set_lWorkerEventsURL : Setter lWorkerEventsURL := ltac:(mk_setter eta_legacy).
#[export] Instance set_lWorkerEventsToken : Setter lWorkerEventsToken := ltac:(mk_setter eta_legacy).
#[export] Instance set_lCaptionAudioFlushMS : Setter lCaptionAudioFlushMS := ltac:(mk_setter eta_legacy).
#[export] Instance set_lCaptionAudioMaxBatchPackets : Setter lCaptionAudioMaxBatchPackets := ltac:(mk_setter eta_legacy).
#[export] Instance set_lUnresolvedSSRCBufferMS : Setter lUnresolvedSSRCBufferMS := ltac:(mk_setter eta_legacy).
#[export] Instance set_lJobGeneration : Setter lJobGeneration := ltac:(mk_setter eta_legacy).

Definition zeroLegacy : legacyStartJobRequest := mkLegacy "" "" "" "" "" "" "" "" "" "" 0 0 0 0.

Record resolvedDiscordTarget := mkResolved {
  rGuildID : string; rTextChannelID : string; rVoiceChannelID : string }.

Definition eta_resolved (r : resolvedDiscordTarget) : resolvedDiscordTarget :=
  mkResolved (rGuildID r) (rTextChannelID r) (rVoiceChannelID r).

#[export] Instance set_rGuildID : Setter rGuildID := ltac:(mk_setter eta_resolved).
#[export] Instance set_rTextChannelID : Setter rTextChannelID := ltac:(mk_setter eta_resolved).
#[export] Instance set_rVoiceChannelID : Setter rVoiceChannelID := ltac:(mk_setter eta_resolved).

Record discordTargetSnapshot := mkTarget { tRevision : Z; tResolved : resolvedDiscordTarget }.

Definition eta_target (r : discordTargetSnapshot) : discordTargetSnapshot :=
  mkTarget (tRevision r) (tResolved r).

#[export] Instance set_tRevision : Setter tRevision := ltac:(mk_setter eta_target).
#[export] Instance set_tResolved : Setter tResolved := ltac:(mk_setter eta_target).

Record optionalInt := mkOptional { oPresent : bool; oValue : Z }.

Record v2StartJobRequest := mkV2 {
  vSchemaVersion : Z;
  vStreamID : string;
  vJobGeneration : Z;
  vDiscordTarget : discordTargetSnapshot;
  vEncoderAudioURL : string;
  vCaptionAudioURL : string;
  vCaptionAudioToken : string;
  vStreamIngestToken : string;
  vWorkerEventsURL : string;
  vWorkerEventsToken : string;
  vCaptionAudioFlushMS : optionalInt;
  vCaptionAudioMaxBatchPackets : optionalInt;
  vUnresolvedSSRCBufferMS : optionalInt }.

Definition eta_v2 (r : v2StartJobRequest) : v2StartJobRequest :=
  mkV2 (vSchemaVersion r) (vStreamID r) (vJobGeneration r) (vDiscordTarget r) (vEncoderAudioURL r)
    (vCaptionAudioURL r) (vCaptionAudioToken r) (vStreamIngestToken r) (vWorkerEventsURL r)
    (vWorkerEventsToken r) (vCaptionAudioFlushMS r) (vCaptionAudioMaxBatchPackets r)
    (vUnresolvedSSRCBufferMS r).

#[export] Instance set_vSchemaVersion : Setter vSchemaVersion := ltac:(mk_setter eta_v2).
#[export] Instance set_vStreamID : Setter vStreamID := ltac:(mk_setter eta_v2).
#[export] Instance set_vJobGeneration : Setter vJobGeneration := ltac:(mk_setter eta_v2).
#[export] Instance set_vDiscordTarget : Setter vDiscordTarget := ltac:(mk_setter eta_v2).
#[export] Instance set_vEncoderAudioURL : Setter vEncoderAudioURL := ltac:(mk_setter eta_v2).
#[export] Instance set_vCaptionAudioURL : Setter vCaptionAudioURL := ltac:(mk_setter eta_v2).
#[export] Instance set_vCaptionAudioToken : Setter vCaptionAudioToken := ltac:(mk_setter eta_v2).
#[export] Instance set_vStreamIngestToken : Setter vStreamIngestToken := ltac:(mk_setter eta_v2).
#[export] Instance set_vWorkerEventsURL : Setter vWorkerEventsURL := ltac:(mk_setter eta_v2).
#[export] Instance set_vWorkerEventsToken : Setter vWorkerEventsToken := ltac:(mk_setter eta_v2).
#[export] Instance set_vCaptionAudioFlushMS : Setter vCaptionAudioFlushMS := ltac:(mk_setter eta_v2).
#[export] Instance set_vCaptionAudioMaxBatchPackets : Setter vCaptionAudioMaxBatchPackets := ltac:(mk_setter eta_v2).
#[export] Instance set_vUnresolvedSSRCBufferMS : Setter vUnresolvedSSRCBufferMS := ltac:(mk_setter eta_v2).

Definition zeroOptional : optionalInt := mkOptional false 0.
Definition zeroTarget : discordTargetSnapshot := mkTarget 0 (mkResolved "" "" "").
Definition zeroV2 : v2StartJobRequest :=
  mkV2 0 "" 0 zeroTarget "" "" "" "" "" "" zeroOptional zeroOptional zeroOptional.

(** ** Decoding *)

(** [optionalInt.UnmarshalJSON] *)
Definition UnmarshalOptional (v : json) (o : optionalInt) : option optionalInt :=
  match v with
  | JNull => None
  | _ => n ← decode_int v 0; Some (mkOptional true n)
  end.

Definition within (o : optionalInt) (minimum maximum : Z) : bool :=
  negb (oPresent o) || (minimum <=? oValue o) && (oValue o <=? maximum).

Definition orZero (o : optionalInt) : Z := if negb (oPresent o) then 0 else oValue o.

Definition legacy_fields : list (field legacyStartJobRequest) :=
  [on "guild_id" decode_string lGuildID;
   on "voice_channel_id" decode_string lVoiceChannelID;
   on "text_channel_id" decode_string lTextChannelID;
   on "stream_id" decode_string lStreamID;
   on "encoder_audio_url" decode_string lEncoderAudioURL;
   on "caption_audio_url" decode_string lCaptionAudioURL;
   on "caption_audio_token" decode_string lCaptionAudioToken;
   on "stream_ingest_token" decode_string lStreamIngestToken;
   on "worker_events_url" decode_string lWorkerEventsURL;
   on "worker_events_token" decode_string lWorkerEventsToken;
   on "caption_audio_flush_ms" decode_int lCaptionAudioFlushMS;
   on "caption_audio_max_batch_packets" decode_int lCaptionAudioMaxBatchPackets;
   on "unresolved_ssrc_buffer_ms" decode_int lUnresolvedSSRCBufferMS;
   on "job_generation" decode_uint64 lJobGeneration].

Definition resolved_fields : list (field resolvedDiscordTarget) :=
  [on "guild_id" decode_string rGuildID;
   on "text_channel_id" decode_string rTextChannelID;
   on "voice_channel_id" decode_string rVoiceChannelID].

Definition target_fields : list (field discordTargetSnapshot) :=
  [on "revision" decode_uint64 tRevision;
   on "resolved" (decode_struct resolved_fields) tResolved].

Definition v2_fields : list (field v2StartJobRequest) :=
  [on "schema_version" decode_uint64 vSchemaVersion;
   on "stream_id" decode_string vStreamID;
   on "job_generation" decode_uint64 vJobGeneration;
   on "discord_target" (decode_struct target_fields) vDiscordTarget;
   on "encoder_audio_url" decode_string vEncoderAudioURL;
   on "caption_audio_url" decode_string vCaptionAudioURL;
   on "caption_audio_token" decode_string vCaptionAudioToken;
   on "stream_ingest_token" decode_string vStreamIngestToken;
   on "worker_events_url" decode_string vWorkerEventsURL;
   on "worker_events_token" decode_string vWorkerEventsToken;
   on "caption_audio_flush_ms" UnmarshalOptional vCaptionAudioFlushMS;
   on "caption_audio_max_batch_packets" UnmarshalOptional vCaptionAudioMaxBatchPackets;
   on "unresolved_ssrc_buffer_ms" UnmarshalOptional vUnresolvedSSRCBufferMS].

(** [readStartJobRequestBody]: [None] is a read error. *)
Definition readStartJobRequestBody (body : option string) : option string :=
  body ← body;
  if (maxStartJobRequestBytes <? N.of_nat (strlen body))%N then None else Some body.

(** [decodeStrictJSON]: one value, no unknown field, nothing after it. *)
Definition decodeStrictJSON {A} (fields : list (field A)) (body : string) (zero : A) : option A :=
  v ← Unmarshal body; decode_struct fields v zero.

(** The value of a key of the envelope: the last member of that name. *)
Fixpoint envelope_get (kvs : list (string * json)) (key : string) : option json :=
  match kvs with
  | [] => None
  | (k, v) :: kvs =>
      match envelope_get kvs key with
      | Some v => Some v
      | None => if k =s key then Some v else None
      end
  end.

(** [validDiscordID] *)
Definition digit_char (a : ascii) : bool := match digit_value a with Some _ => true | None => false end.

Definition validDiscordID (value : string) : bool :=
  ((1 <=? strlen value) && (strlen value <=? 32))%nat && forallb digit_char (list_ascii_of_string value).

(** [discordTargetSnapshot.valid] *)
Definition target_valid (target : discordTargetSnapshot) : bool :=
  (0 <? tRevision target)
  && validDiscordID (rGuildID (tResolved target))
  && validDiscordID (rTextChannelID (tResolved target))
  && validDiscordID (rVoiceChannelID (tResolved target)).

Definition captionTuningValid (req : v2StartJobRequest) : bool :=
  within (vCaptionAudioFlushMS req) 10 1000
  && within (vCaptionAudioMaxBatchPackets req) 1 100
  && within (vUnresolvedSSRCBufferMS req) 0 5000.

Definition legacy_voiceJob (req : legacyStartJobRequest) : VoiceJob :=
  mkVoiceJob (lGuildID req) (lVoiceChannelID req) (lTextChannelID req) 0 (lStreamID req)
    (lEncoderAudioURL req) (lCaptionAudioURL req) (lCaptionAudioToken req) (lStreamIngestToken req)
    (lWorkerEventsURL req) (lWorkerEventsToken req) (lCaptionAudioFlushMS req)
    (lCaptionAudioMaxBatchPackets req) (lUnresolvedSSRCBufferMS req) false (lJobGeneration req).

Definition v2_voiceJob (req : v2StartJobRequest) : VoiceJob :=
  let resolved := tResolved (vDiscordTarget req) in
  mkVoiceJob (rGuildID resolved) (rVoiceChannelID resolved) (rTextChannelID resolved)
    (tRevision (vDiscordTarget req)) (vStreamID req) (vEncoderAudioURL req) (vCaptionAudioURL req)
    (vCaptionAudioToken req) (vStreamIngestToken req) (vWorkerEventsURL req) (vWorkerEventsToken req)
    (orZero (vCaptionAudioFlushMS req)) (orZero (vCaptionAudioMaxBatchPackets req))
    (orZero (vUnresolvedSSRCBufferMS req)) (oPresent (vUnresolvedSSRCBufferMS req))
    (vJobGeneration req).

(** A decoded request: the job and the mode, or the public error code. *)
Definition decoded : Type := (VoiceJob * startJobRequestMode) + string.

(** [decodeStartJobRequest] without a schema version *)
Definition decode_legacy (body : string) : decoded :=
  match decodeStrictJSON legacy_fields body zeroLegacy with
  | None => inr startJobCodeInvalidJSON
  | Some req => inl (legacy_voiceJob req, startJobRequestLegacy)
  end.

(** [decodeStartJobRequest] with schema version 2 *)
Definition decode_v2 (body : string) : decoded :=
  match decodeStrictJSON v2_fields body zeroV2 with
  | None => inr startJobCodeInvalidJSON
  | Some req =>
      if negb (vSchemaVersion req =? 2) || negb (target_valid (vDiscordTarget req))
      then inr startJobCodeDiscordTargetInvalid
      else if negb (captionTuningValid req) then inr startJobCodeInvalidJSON
      else inl (v2_voiceJob req, startJobRequestResolvedTargetV2)
  end.

Definition decodeStartJobRequest (body : option string) : decoded :=
  match readStartJobRequestBody body with
  | None => inr startJobCodeInvalidJSON
  | Some body =>
      match Unmarshal body with
      | Some (JObject envelope) =>
          match envelope_get envelope "schema_version" with
          | None => decode_legacy body
          | Some JNull => inr startJobCodeInvalidJSON
          | Some rawVersion =>
              match decode_uint64 rawVersion 0 with
              | None => inr startJobCodeInvalidJSON
              | Some version =>
                  if negb (version =? 2) then inr startJobCodeUnsupportedSchemaVersion
                  else decode_v2 body
              end
          end
      | _ => inr startJobCodeInvalidJSON
      end
  end.

Definition sample_v2 (target : string) : string :=
  quoted ("{'schema_version':2,'stream_id':'s1','job_generation':7,'discord_target':" ++ target ++
          ",'CAPTION_audio_flush_ms': 20, 'unresolved_ssrc_buffer_ms':0}").

Example decode_v2_sample :
  decodeStartJobRequest (Some (sample_v2
    "{'revision':3,'resolved':{'guild_id':'1','text_channel_id':'2','voice_channel_id':'3'}}")) =
  inl (mkVoiceJob "1" "3" "2" 3 "s1" "" "" "" "" "" "" 20 0 0 true 7, startJobRequestResolvedTargetV2).
Proof. vm_compute. reflexivity. Qed.

Example decode_v2_errors :
  decodeStartJobRequest (Some (sample_v2 "{'revision':3}")) = inr "discord_target_invalid" /\
  decodeStartJobRequest (Some (sample_v2 "{'preset':3}")) = inr "invalid_json" /\
  decodeStartJobRequest (Some (quoted "{'schema_version':1}")) = inr "unsupported_schema_version" /\
  decodeStartJobRequest (Some (quoted "{'schema_version':null}")) = inr "invalid_json" /\
  decodeStartJobRequest (Some (quoted "{'Schema_Version':2}")) = inr "invalid_json" /\
  decodeStartJobRequest (Some (quoted "{'GUILD_ID':'5'}")) =
    inl (zeroVoiceJob <| jGuildID := "5" |>, startJobRequestLegacy).
Proof. vm_compute. done. Qed.

(** ** The decoded jobs *)

Definition is_int64 (z : Z) : Prop := - 2 ^ 63 <= z < 2 ^ 63.
Definition is_uint64 (z : Z) : Prop := 0 <= z < 2 ^ 64.

(** What holds of the job of a decoded request, whatever its text. *)
Definition job_typed (mode : startJobRequestMode) (job : VoiceJob) : Prop :=
  is_uint64 (jJobGeneration job) /\ is_uint64 (jDiscordTargetRevision job) /\
  match mode with
  | startJobRequestLegacy =>
      jDiscordTargetRevision job = 0 /\ jUnresolvedSSRCBufferMSSet job = false /\
      is_int64 (jCaptionAudioFlushMS job) /\ is_int64 (jCaptionAudioMaxBatchPackets job) /\
      is_int64 (jUnresolvedSSRCBufferMS job)
  | startJobRequestResolvedTargetV2 =>
      0 < jDiscordTargetRevision job /\
      Forall (fun id => validDiscordID id = true)
        [jGuildID job; jTextChannelID job; jVoiceChannelID job] /\
      (jCaptionAudioFlushMS job = 0 \/ 10 <= jCaptionAudioFlushMS job <= 1000) /\
      (jCaptionAudioMaxBatchPackets job = 0 \/ 1 <= jCaptionAudioMaxBatchPackets job <= 100) /\
      0 <= jUnresolvedSSRCBufferMS job <= 5000 /\
      (jUnresolvedSSRCBufferMSSet job = false -> jUnresolvedSSRCBufferMS job = 0)
  end.

Lemma on_keeps {A T} name (decode : json -> T -> option T) (proj : A -> T) `{!Setter proj}
    (P : A -> Prop) (Q : T -> Prop) :
  (forall v x y, Q x -> decode v x = Some y -> Q y) ->
  (forall r x, P r -> Q x -> P (r <| proj := x |>)) -> (forall r, P r -> Q (proj r)) ->
  forall v x y, P x -> (on name decode proj).2 v x = Some y -> P y.
Proof.
  intros Hd Hset Hget v x y Hx. simpl. intros (z & Hz & [= <-])%bind_Some.
  apply Hset; [done|]. eapply Hd; [|exact Hz]. by apply Hget.
Qed.

(** Each field of a struct keeps a property of its ranges. *)
Ltac field_kept :=
  first [eapply (on_keeps _ _ _ _ is_int64); [intros ???; apply decode_int_range| |]; simpl; tauto
        |eapply (on_keeps _ _ _ _ is_uint64); [intros ???; apply decode_uint64_range| |]; simpl; tauto
        |eapply (on_keeps _ _ _ _ (fun _ => True)); [done| |]; simpl; tauto].
Ltac fields_kept := repeat (apply Forall_cons; split); [..|apply Forall_nil; done]; try field_kept.

Definition legacy_ranges (req : legacyStartJobRequest) : Prop :=
  is_uint64 (lJobGeneration req) /\ is_int64 (lCaptionAudioFlushMS req) /\
  is_int64 (lCaptionAudioMaxBatchPackets req) /\ is_int64 (lUnresolvedSSRCBufferMS req).

Definition v2_ranges (req : v2StartJobRequest) : Prop :=
  is_uint64 (vJobGeneration req) /\ is_uint64 (tRevision (vDiscordTarget req)).

Lemma legacy_typed body req :
  decodeStrictJSON legacy_fields body zeroLegacy = Some req -> legacy_ranges req.
Proof.
  unfold decodeStrictJSON. intros (v & _ & Hd)%bind_Some. revert Hd.
  apply decode_struct_keeps; [|vm_compute; intuition congruence].
  unfold legacy_ranges. fields_kept.
Qed.

Lemma target_ranges v x y :
  is_uint64 (tRevision x) -> decode_struct target_fields v x = Some y -> is_uint64 (tRevision y).
Proof. apply (decode_struct_keeps (fun t => is_uint64 (tRevision t))). fields_kept. Qed.

Lemma v2_typed body req :
  decodeStrictJSON v2_fields body zeroV2 = Some req -> v2_ranges req.
Proof.
  unfold decodeStrictJSON. intros (v & _ & Hd)%bind_Some. revert Hd.
  apply decode_struct_keeps; [|vm_compute; intuition congruence].
  unfold v2_ranges. fields_kept.
  eapply (on_keeps _ _ _ _ (fun t => is_uint64 (tRevision t))); [apply target_ranges| |]; simpl; tauto.
Qed.

Lemma within_orZero o lo hi :
  within o lo hi = true -> orZero o = 0 \/ lo <= orZero o <= hi.
Proof.
  unfold within, orZero. destruct (oPresent o); [|by left]. simpl.
  intros [?%Z.leb_le ?%Z.leb_le]%andb_true_iff. by right.
Qed.

Definition decoded_ok (d : decoded) : Prop :=
  match d with
  | inl (job, mode) => job_typed mode job
  | inr code => In code [startJobCodeInvalidJSON; startJobCodeUnsupportedSchemaVersion;
                         startJobCodeDiscordTargetInvalid]
  end.

Lemma decode_legacy_ok body : decoded_ok (decode_legacy body).
Proof.
  unfold decode_legacy. destruct (decodeStrictJSON _ _ _) as [req|] eqn:E; [|simpl; tauto].
  apply legacy_typed in E as (? & ? & ? & ?).
  split; [done|]. split; [by vm_compute; intuition congruence|done].
Qed.

Lemma decode_v2_ok body : decoded_ok (decode_v2 body).
Proof.
  unfold decode_v2. destruct (decodeStrictJSON _ _ _) as [req|] eqn:E; [|simpl; tauto].
  apply v2_typed in E as [Hgen Hrev].
  destruct (vSchemaVersion req =? 2); [|simpl; tauto].
  destruct (target_valid (vDiscordTarget req)) eqn:Et; [|simpl; tauto].
  destruct (captionTuningValid req) eqn:Ec; [|simpl; tauto]. cbn [negb orb].
  unfold target_valid, captionTuningValid in *.
  apply andb_true_iff in Et as [[[Hpos%Z.ltb_lt Hg]%andb_true_iff Ht]%andb_true_iff Hc].
  apply andb_true_iff in Ec as [[Hf Hb]%andb_true_iff Hu].
  apply within_orZero in Hf, Hb, Hu.
  split; [done|]. split; [done|]. split; [done|]. split; [by repeat constructor|].
  split; [done|]. split; [done|]. simpl. split; [lia|].
  unfold orZero. by intros ->.
Qed.

(** C30: Whatever the bytes of a start request, the decoder answers either one
    of its three public error codes or a job whose fields are in range: an
    unsigned 64-bit generation and revision; for a legacy request 64-bit
    tuning values and no revision; for a version 2 request a positive
    revision, three Discord ids of 1 to 32 digits, and caption tuning that is
    zero or within the bounds of the caption profile. *)
Theorem start_request_typed body : decoded_ok (decodeStartJobRequest body).
Proof.
  unfold decodeStartJobRequest.
  destruct (readStartJobRequestBody body) as [text|]; [|simpl; tauto].
  destruct (Unmarshal text) as [[| | | | | |envelope]|]; try (simpl; tauto).
  destruct (envelope_get envelope "schema_version") as [raw|]; [|apply decode_legacy_ok].
  assert (decoded_ok match decode_uint64 raw 0 with
            | None => inr startJobCodeInvalidJSON
            | Some version =>
                if negb (version =? 2) then inr startJobCodeUnsupportedSchemaVersion
                else decode_v2 text
            end) as Hv.
  { destruct (decode_uint64 raw 0); [|simpl; tauto]. case_match; [simpl; tauto|apply decode_v2_ok]. }
  destruct raw; try exact Hv. simpl. tauto.
Qed.

(** ** Round trip *)

(** The members of a document; empty optional ones are left out. *)
Definition omit_string (key s : string) : list (string * json) :=
  if s =s "" then [] else [(key, JString s)].
Definition omit_int (key : string) (z : Z) : list (string * json) :=
  if z =? 0 then [] else [(key, JInt z)].
Definition omit_optional (key : string) (o : optionalInt) : list (string * json) :=
  if oPresent o then [(key, JInt (oValue o))] else [].

Definition legacy_members (r : legacyStartJobRequest) : list (string * json) :=
  [("guild_id", JString (lGuildID r)); ("voice_channel_id", JString (lVoiceChannelID r))]
  ++ omit_string "text_channel_id" (lTextChannelID r)
  ++ ("stream_id", JString (lStreamID r))
  :: omit_string "encoder_audio_url" (lEncoderAudioURL r)
  ++ omit_string "caption_audio_url" (lCaptionAudioURL r)
  ++ omit_string "caption_audio_token" (lCaptionAudioToken r)
  ++ omit_string "stream_ingest_token" (lStreamIngestToken r)
  ++ omit_string "worker_events_url" (lWorkerEventsURL r)
  ++ omit_string "worker_events_token" (lWorkerEventsToken r)
  ++ omit_int "caption_audio_flush_ms" (lCaptionAudioFlushMS r)
  ++ omit_int "caption_audio_max_batch_packets" (lCaptionAudioMaxBatchPackets r)
  ++ omit_int "unresolved_ssrc_buffer_ms" (lUnresolvedSSRCBufferMS r)
  ++ [("job_generation", JInt (lJobGeneration r))].

Definition resolved_json (r : resolvedDiscordTarget) : json :=
  JObject [("guild_id", JString (rGuildID r)); ("text_channel_id", JString (rTextChannelID r));
           ("voice_channel_id", JString (rVoiceChannelID r))].

Definition target_json (t : discordTargetSnapshot) : json :=
  JObject [("revision", JInt (tRevision t)); ("resolved", resolved_json (tResolved t))].

Definition v2_members (r : v2StartJobRequest) : list (string * json) :=
  [("schema_version", JInt (vSchemaVersion r)); ("stream_id", JString (vStreamID r));
   ("job_generation", JInt (vJobGeneration r)); ("discord_target", target_json (vDiscordTarget r))]
  ++ omit_string "encoder_audio_url" (vEncoderAudioURL r)
  ++ omit_string "caption_audio_url" (vCaptionAudioURL r)
  ++ omit_string "caption_audio_token" (vCaptionAudioToken r)
  ++ omit_string "stream_ingest_token" (vStreamIngestToken r)
  ++ omit_string "worker_events_url" (vWorkerEventsURL r)
  ++ omit_string "worker_events_token" (vWorkerEventsToken r)
  ++ omit_optional "caption_audio_flush_ms" (vCaptionAudioFlushMS r)
  ++ omit_optional "caption_audio_max_batch_packets" (vCaptionAudioMaxBatchPackets r)
  ++ omit_optional "unresolved_ssrc_buffer_ms" (vUnresolvedSSRCBufferMS r)
  ++ [].

Section Members.
Context {A T} (fields : list (field A)) (key : string) (proj : A -> T) `{!Setter proj}.
Context (kvs : list (string * json)) (x r : A).

Lemma member_step decode v y :
  find_field fields key = Some (on key decode proj).2 -> decode v (proj x) = Some y ->
  decode_members fields kvs (x <| proj := y |>) = Some r ->
  decode_members fields ((key, v) :: kvs) x = Some r.
Proof. intros Hf Hd Hk. simpl. rewrite Hf. simpl. by rewrite Hd. Qed.

(** A member that may be left out. *)
Lemma omit_step decode zero y kv :
  kv = [] /\ y = zero \/ (exists v, kv = [(key, v)] /\ decode v zero = Some y) ->
  find_field fields key = Some (on key decode proj).2 -> proj x = zero -> x <| proj := zero |> = x ->
  decode_members fields kvs (x <| proj := y |>) = Some r ->
  decode_members fields (kv ++ kvs) x = Some r.
Proof.
  intros [[-> ->]|(v & -> & Hd)] Hf Hz He Hk; [by rewrite He in Hk|].
  eapply member_step; [done| |done]. by rewrite Hz.
Qed.
End Members.

Lemma omit_string_ok key s :
  omit_string key s = [] /\ s = "" \/
  exists v, omit_string key s = [(key, v)] /\ decode_string v "" = Some s.
Proof.
  unfold omit_string. destruct (String.eqb_spec s "") as [->|]; [by left|]. right. by eexists.
Qed.

Lemma omit_int_ok key z :
  is_int64 z ->
  omit_int key z = [] /\ z = 0 \/ exists v, omit_int key z = [(key, v)] /\ decode_int v 0 = Some z.
Proof.
  intros Hz. unfold omit_int. destruct (Z.eqb_spec z 0) as [->|]; [by left|]. right.
  eexists. split; [done|]. by apply decode_int_int.
Qed.

(** An optional integer as decoding makes it. *)
Definition optional_ok (o : optionalInt) : Prop :=
  is_int64 (oValue o) /\ (oPresent o = false -> oValue o = 0).

Lemma omit_optional_ok key o :
  optional_ok o ->
  omit_optional key o = [] /\ o = zeroOptional \/
  exists v, omit_optional key o = [(key, v)] /\ UnmarshalOptional v zeroOptional = Some o.
Proof.
  destruct o as [[] z]; intros [Hz Ho]; simpl in *; [right|left; by rewrite Ho].
  exists (JInt z). split; [done|].
  change (UnmarshalOptional (JInt z) zeroOptional) with
    (n ← decode_int (JInt z) 0; Some (mkOptional true n)).
  by rewrite decode_int_int.
Qed.

(** One field after the other: the record after each is written out. *)
Ltac updated :=
  cbv [set_field zeroLegacy zeroV2 set_lGuildID set_lVoiceChannelID set_lTextChannelID
    set_lStreamID set_lEncoderAudioURL set_lCaptionAudioURL set_lCaptionAudioToken
    set_lStreamIngestToken set_lWorkerEventsURL set_lWorkerEventsToken set_lCaptionAudioFlushMS
    set_lCaptionAudioMaxBatchPackets set_lUnresolvedSSRCBufferMS set_lJobGeneration lGuildID
    lVoiceChannelID lTextChannelID lStreamID lEncoderAudioURL lCaptionAudioURL lCaptionAudioToken
    lStreamIngestToken lWorkerEventsURL lWorkerEventsToken lCaptionAudioFlushMS
    lCaptionAudioMaxBatchPackets lUnresolvedSSRCBufferMS lJobGeneration set_vSchemaVersion
    set_vStreamID set_vJobGeneration set_vDiscordTarget set_vEncoderAudioURL set_vCaptionAudioURL
    set_vCaptionAudioToken set_vStreamIngestToken set_vWorkerEventsURL set_vWorkerEventsToken
    set_vCaptionAudioFlushMS set_vCaptionAudioMaxBatchPackets set_vUnresolvedSSRCBufferMS
    vSchemaVersion vStreamID vJobGeneration vDiscordTarget vEncoderAudioURL vCaptionAudioURL
    vCaptionAudioToken vStreamIngestToken vWorkerEventsURL vWorkerEventsToken vCaptionAudioFlushMS
    vCaptionAudioMaxBatchPackets vUnresolvedSSRCBufferMS].
Ltac known := match goal with H : ?P |- ?P => exact H end.
Ltac text p :=
  refine (member_step _ _ p _ _ _ decode_string _ _ _ _ _); [reflexivity|reflexivity|]; updated.
Ltac unsigned p :=
  refine (member_step _ _ p _ _ _ decode_uint64 _ _ _ _ _);
  [reflexivity|apply decode_uint64_int; known|]; updated.
Ltac omitted p decode zero by_rule :=
  refine (omit_step _ _ p _ _ _ decode zero _ _ _ _ _ _ _);
  [by_rule|reflexivity|reflexivity|reflexivity|]; updated.
Ltac omitted_text p := omitted p decode_string "" ltac:(apply omit_string_ok).
Ltac omitted_int p := omitted p decode_int 0 ltac:(apply omit_int_ok; known).
Ltac omitted_optional p :=
  omitted p UnmarshalOptional zeroOptional ltac:(apply omit_optional_ok; known).

Lemma legacy_members_decode r :
  legacy_ranges r -> decode_members legacy_fields (legacy_members r) zeroLegacy = Some r.
Proof.
  destruct r. unfold legacy_ranges, legacy_members. updated. intros (? & ? & ? & ?). cbn [app].
  text lGuildID. text lVoiceChannelID. omitted_text lTextChannelID. text lStreamID.
  omitted_text lEncoderAudioURL. omitted_text lCaptionAudioURL. omitted_text lCaptionAudioToken.
  omitted_text lStreamIngestToken. omitted_text lWorkerEventsURL. omitted_text lWorkerEventsToken.
  omitted_int lCaptionAudioFlushMS. omitted_int lCaptionAudioMaxBatchPackets.
  omitted_int lUnresolvedSSRCBufferMS. unsigned lJobGeneration. reflexivity.
Qed.

Lemma target_decode t :
  is_uint64 (tRevision t) -> decode_struct target_fields (target_json t) zeroTarget = Some t.
Proof.
  destruct t as [revision [guild text voice]]. cbn [tRevision]. intros Ht.
  refine (member_step _ _ tRevision _ _ _ decode_uint64 _ _ _ _ _);
    [reflexivity|apply decode_uint64_int; known|].
  reflexivity.
Qed.

Lemma v2_members_decode r :
  v2_ranges r -> is_uint64 (vSchemaVersion r) ->
  Forall optional_ok [vCaptionAudioFlushMS r; vCaptionAudioMaxBatchPackets r; vUnresolvedSSRCBufferMS r] ->
  decode_members v2_fields (v2_members r) zeroV2 = Some r.
Proof.
  rewrite !Forall_cons. destruct r. unfold v2_ranges, v2_members. updated.
  intros [? ?] ? (? & ? & ? & _). cbn [app].
  unsigned vSchemaVersion. text vStreamID. unsigned vJobGeneration.
  refine (member_step _ _ vDiscordTarget _ _ _ (decode_struct target_fields) _ _ _ _ _);
    [reflexivity|apply target_decode; known|]; updated.
  omitted_text vEncoderAudioURL. omitted_text vCaptionAudioURL. omitted_text vCaptionAudioToken.
  omitted_text vStreamIngestToken. omitted_text vWorkerEventsURL. omitted_text vWorkerEventsToken.
  omitted_optional vCaptionAudioFlushMS. omitted_optional vCaptionAudioMaxBatchPackets.
  omitted_optional vUnresolvedSSRCBufferMS. reflexivity.
Qed.

(** The version in the envelope. *)
Lemma envelope_get_app l1 l2 key :
  envelope_get (l1 ++ l2) key =
  match envelope_get l2 key with Some v => Some v | None => envelope_get l1 key end.
Proof.
  induction l1 as [|[k v] l1 IH]; simpl; [by case_match|]. rewrite IH. by case_match.
Qed.

Lemma envelope_get_omit_string k s key : k <> key -> envelope_get (omit_string k s) key = None.
Proof. intros Hk. unfold omit_string. case_match; [done|]. simpl. by apply String.eqb_neq in Hk as ->. Qed.
Lemma envelope_get_omit_int k z key : k <> key -> envelope_get (omit_int k z) key = None.
Proof. intros Hk. unfold omit_int. case_match; [done|]. simpl. by apply String.eqb_neq in Hk as ->. Qed.
Lemma envelope_get_omit_optional k o key : k <> key -> envelope_get (omit_optional k o) key = None.
Proof. intros Hk. unfold omit_optional. case_match; [|done]. simpl. by apply String.eqb_neq in Hk as ->. Qed.

Ltac no_other_version :=
  rewrite ?envelope_get_app; cbn [envelope_get];
  rewrite ?envelope_get_omit_string, ?envelope_get_omit_int, ?envelope_get_omit_optional by done.

Lemma legacy_unversioned r : envelope_get (legacy_members r) "schema_version" = None.
Proof. unfold legacy_members. cbn [app]. by repeat (no_other_version; cbn). Qed.

Lemma v2_versioned r : envelope_get (v2_members r) "schema_version" = Some (JInt (vSchemaVersion r)).
Proof. unfold v2_members. cbn [app]. by repeat (no_other_version; cbn). Qed.

(** The strings of a request are valid UTF-8. *)
Definition legacy_texts (r : legacyStartJobRequest) : list string :=
  [lGuildID r; lVoiceChannelID r; lTextChannelID r; lStreamID r; lEncoderAudioURL r;
   lCaptionAudioURL r; lCaptionAudioToken r; lStreamIngestToken r; lWorkerEventsURL r;
   lWorkerEventsToken r].

Definition v2_texts (r : v2StartJobRequest) : list string :=
  let resolved := tResolved (vDiscordTarget r) in
  [rGuildID resolved; rTextChannelID resolved; rVoiceChannelID resolved; vStreamID r;
   vEncoderAudioURL r; vCaptionAudioURL r; vCaptionAudioToken r; vStreamIngestToken r;
   vWorkerEventsURL r; vWorkerEventsToken r].

Definition member_clean (kv : string * json) : Prop := utf8_valid kv.1 /\ clean 2 kv.2.

Lemma omit_string_clean key s :
  utf8_valid key -> utf8_valid s -> Forall member_clean (omit_string key s).
Proof. intros ??. unfold omit_string. case_match; by repeat constructor. Qed.
Lemma omit_int_clean key z : utf8_valid key -> Forall member_clean (omit_int key z).
Proof. intros ?. unfold omit_int. case_match; by repeat constructor. Qed.
Lemma omit_optional_clean key o : utf8_valid key -> Forall member_clean (omit_optional key o).
Proof. intros ?. unfold omit_optional. case_match; by repeat constructor. Qed.

Lemma string_clean key s : utf8_valid key -> utf8_valid s -> member_clean (key, JString s).
Proof. done. Qed.

Ltac members_clean :=
  repeat first [apply Forall_app; split|apply Forall_cons; split|apply Forall_nil; done];
  first [apply omit_string_clean|apply omit_int_clean|apply omit_optional_clean|apply string_clean
        |split; [|exact I]];
  first [known|vm_compute; reflexivity].

Lemma legacy_clean r :
  Forall utf8_valid (legacy_texts r) -> clean max_depth (JObject (legacy_members r)).
Proof.
  intros Ht. apply (clean_le 3); [apply Nat.leb_le; vm_compute; reflexivity|].
  change (Forall member_clean (legacy_members r)).
  unfold legacy_texts in Ht. rewrite !Forall_cons in Ht. destruct Ht as (?&?&?&?&?&?&?&?&?&?&_).
  unfold legacy_members. cbn [app]. members_clean.
Qed.

Lemma target_clean t :
  Forall utf8_valid [rGuildID (tResolved t); rTextChannelID (tResolved t); rVoiceChannelID (tResolved t)] ->
  clean 2 (target_json t).
Proof.
  rewrite !Forall_cons. intros (? & ? & ? & _).
  repeat first [apply Forall_cons; split|apply Forall_nil; done|split; [vm_compute; reflexivity|]];
    first [known|exact I].
Qed.

Lemma v2_clean r :
  Forall utf8_valid (v2_texts r) -> clean max_depth (JObject (v2_members r)).
Proof.
  intros Ht. apply (clean_le 3); [apply Nat.leb_le; vm_compute; reflexivity|].
  change (Forall member_clean (v2_members r)).
  assert (member_clean ("discord_target", target_json (vDiscordTarget r))).
  { split; [vm_compute; reflexivity|]. apply target_clean. unfold v2_texts in Ht.
    by apply (Forall_take _ 3%nat) in Ht. }
  unfold v2_texts in Ht. rewrite !Forall_cons in Ht. destruct Ht as (?&?&?&?&?&?&?&?&?&?&_).
  unfold v2_members. cbn [app].
  repeat first [known|apply Forall_cons; split]; members_clean.
Qed.

(** ** The documents *)
Inductive start_document :=
| LegacyDocument (r : legacyStartJobRequest)
| V2Document (r : v2StartJobRequest).

Definition document_text (doc : start_document) : string :=
  encode (JObject match doc with
                  | LegacyDocument r => legacy_members r
                  | V2Document r => v2_members r
                  end).

(** A document with valid texts and integers in range; a version 2 document has
    a valid target and tuning. *)
Definition document_ok (doc : start_document) : Prop :=
  match doc with
  | LegacyDocument r => Forall utf8_valid (legacy_texts r) /\ legacy_ranges r
  | V2Document r =>
      Forall utf8_valid (v2_texts r) /\ v2_ranges r /\ vSchemaVersion r = 2 /\
      Forall optional_ok [vCaptionAudioFlushMS r; vCaptionAudioMaxBatchPackets r; vUnresolvedSSRCBufferMS r] /\
      target_valid (vDiscordTarget r) = true /\ captionTuningValid r = true
  end.

Definition document_job (doc : start_document) : VoiceJob * startJobRequestMode :=
  match doc with
  | LegacyDocument r => (legacy_voiceJob r, startJobRequestLegacy)
  | V2Document r => (v2_voiceJob r, startJobRequestResolvedTargetV2)
  end.

Lemma decodeStrictJSON_text {A} (fields : list (field A)) kvs zero r :
  clean max_depth (JObject kvs) -> decode_members fields kvs zero = Some r ->
  decodeStrictJSON fields (encode (JObject kvs)) zero = Some r.
Proof. intros Hc Hd. unfold decodeStrictJSON. by rewrite json_roundtrip. Qed.

Lemma document_roundtrip doc :
  document_ok doc -> (N.of_nat (strlen (document_text doc)) <= maxStartJobRequestBytes)%N ->
  decodeStartJobRequest (Some (document_text doc)) = inl (document_job doc).
Proof.
  intros Hok Hlen. unfold decodeStartJobRequest, readStartJobRequestBody. cbn [mbind option_bind].
  rewrite (proj2 (N.ltb_ge _ _)) by done. destruct doc as [r|r]; simpl in Hok |- *.
  - destruct Hok as [Ht Hr]. unfold document_text. rewrite json_roundtrip by by apply legacy_clean.
    rewrite legacy_unversioned. unfold decode_legacy.
    by erewrite decodeStrictJSON_text by (apply legacy_clean || apply legacy_members_decode; done).
  - destruct Hok as (Ht & Hr & Hs & Ho & Hv & Hc).
    unfold document_text. rewrite json_roundtrip by by apply v2_clean.
    rewrite v2_versioned, Hs. unfold JInt at 1. cbn [decode_uint64].
    change (decode_v2 (encode (JObject (v2_members r))) = inl (v2_voiceJob r, startJobRequestResolvedTargetV2)).
    unfold decode_v2. erewrite decodeStrictJSON_text;
      [|by apply v2_clean|apply v2_members_decode; [done|by rewrite Hs|done]].
    by rewrite Hs, Hv, Hc.
Qed.

(** *** From a job *)

(** The caption tuning of a job; zero is left out. *)
Definition tuning (z : Z) : optionalInt := if z =? 0 then zeroOptional else mkOptional true z.

(** The request a job is sent with. *)
Definition request_of_job (mode : startJobRequestMode) (job : VoiceJob) : start_document :=
  match mode with
  | startJobRequestLegacy =>
      LegacyDocument (mkLegacy (jGuildID job) (jVoiceChannelID job) (jTextChannelID job) (jStreamID job)
        (jEncoderAudioURL job) (jCaptionAudioURL job) (jCaptionAudioToken job) (jStreamIngestToken job)
        (jWorkerEventsURL job) (jWorkerEventsToken job) (jCaptionAudioFlushMS job)
        (jCaptionAudioMaxBatchPackets job) (jUnresolvedSSRCBufferMS job) (jJobGeneration job))
  | startJobRequestResolvedTargetV2 =>
      V2Document (mkV2 2 (jStreamID job) (jJobGeneration job)
        (mkTarget (jDiscordTargetRevision job)
           (mkResolved (jGuildID job) (jTextChannelID job) (jVoiceChannelID job)))
        (jEncoderAudioURL job) (jCaptionAudioURL job) (jCaptionAudioToken job) (jStreamIngestToken job)
        (jWorkerEventsURL job) (jWorkerEventsToken job) (tuning (jCaptionAudioFlushMS job))
        (tuning (jCaptionAudioMaxBatchPackets job))
        (if jUnresolvedSSRCBufferMSSet job then mkOptional true (jUnresolvedSSRCBufferMS job) else zeroOptional))
  end.

Definition job_text (mode : startJobRequestMode) (job : VoiceJob) : string :=
  document_text (request_of_job mode job).

Definition job_texts (job : VoiceJob) : list string :=
  [jGuildID job; jTextChannelID job; jVoiceChannelID job; jStreamID job; jEncoderAudioURL job;
   jCaptionAudioURL job; jCaptionAudioToken job; jStreamIngestToken job; jWorkerEventsURL job;
   jWorkerEventsToken job].

Lemma orZero_tuning z : orZero (tuning z) = z.
Proof. unfold tuning. destruct (Z.eqb_spec z 0) as [->|]; done. Qed.

Lemma tuning_within z lo hi : z = 0 \/ lo <= z <= hi -> within (tuning z) lo hi = true.
Proof.
  unfold tuning, within. destruct (Z.eqb_spec z 0) as [->|]; [done|]. simpl. intros [|]; [lia|].
  apply andb_true_intro. split; apply Z.leb_le; lia.
Qed.

Lemma tuning_ok z : is_int64 z -> optional_ok (tuning z).
Proof. unfold tuning, optional_ok. destruct (z =? 0); [done|by split]. Qed.

Lemma small_int64 z : -1000 <= z <= 5000 -> is_int64 z.
Proof. unfold is_int64. lia. Qed.

Lemma request_of_job_ok mode job :
  job_typed mode job -> Forall utf8_valid (job_texts job) ->
  document_ok (request_of_job mode job) /\ document_job (request_of_job mode job) = (job, mode).
Proof.
  intros (Hgen & Hrev & Hmode) Ht. destruct mode; simpl.
  - destruct Hmode as (Hr0 & Hset & ? & ? & ?). split; [split; [|done]|].
    + unfold legacy_texts, job_texts in *. simpl. rewrite !Forall_cons in *. tauto.
    + destruct job; simpl in *. by subst.
  - destruct Hmode as (Hpos & Hids & Hf & Hb & Hu & Hset).
    assert (is_int64 (jUnresolvedSSRCBufferMS job)) as Hu64 by (apply small_int64; lia).
    split; [split_and!|].
    + unfold v2_texts, job_texts in *. simpl. done.
    + done.
    + done.
    + assert (is_int64 (jCaptionAudioFlushMS job)) as Hf64 by (apply small_int64; lia).
      assert (is_int64 (jCaptionAudioMaxBatchPackets job)) as Hb64 by (apply small_int64; lia).
      rewrite !Forall_cons. split; [exact (tuning_ok _ Hf64)|]. split; [exact (tuning_ok _ Hb64)|].
      split; [|by apply Forall_nil]. destruct (jUnresolvedSSRCBufferMSSet job); [|done].
      split; [exact Hu64|discriminate].
    + rewrite !Forall_cons in Hids. destruct Hids as (Hg & Htx & Hv & _). unfold target_valid. simpl.
      rewrite Hg, Htx, Hv. by rewrite (proj2 (Z.ltb_lt _ _)).
    + unfold captionTuningValid. simpl. rewrite !tuning_within by done. simpl.
      destruct (jUnresolvedSSRCBufferMSSet job); [|done]. unfold within. simpl.
      apply andb_true_intro. split; apply Z.leb_le; lia.
    + unfold v2_voiceJob. simpl. rewrite !orZero_tuning. destruct job as [????????????? buffer [] ?]; simpl in *.
      * done.
      * by rewrite Hset.
Qed.

(** C20: A start request carries its job without loss: the text written for a
    job, of either version and whatever its ids, addresses and tokens, is decoded
    to that very job as long as the text is at most 2^20 bytes, the limit of a
    start request, and a longer one is refused as invalid JSON.  The job is any
    one a request of the version can carry (its fields are in range) with texts
    in valid UTF-8. *)
Theorem start_request_roundtrip mode job :
  job_typed mode job -> Forall utf8_valid (job_texts job) ->
  decodeStartJobRequest (Some (job_text mode job)) =
  if (N.of_nat (strlen (job_text mode job)) <=? maxStartJobRequestBytes)%N
  then inl (job, mode) else inr startJobCodeInvalidJSON.
Proof.
  intros Hj Ht. destruct (N.leb_spec (N.of_nat (strlen (job_text mode job))) maxStartJobRequestBytes)
    as [Hlen|Hlen].
  - destruct (request_of_job_ok mode job Hj Ht) as [Hok Hjob].
    etrans; [by apply document_roundtrip|]. by rewrite Hjob.
  - unfold decodeStartJobRequest, readStartJobRequestBody.
    apply N.ltb_lt in Hlen. cbn [mbind option_bind]. by rewrite Hlen.
Qed.

Module Sample.
Definition job : VoiceJob :=
  mkVoiceJob "11" "33" "22" 5 ("s" ++ NUL ++ quoted "'é") "http://e" "" "secret\" "t1" "" "t2"
    10 0 0 true 18446744073709551615.

(** The round trip of a job with quotes, a NUL and a large generation. *)
Lemma start_request_roundtrip_witness :
  decodeStartJobRequest (Some (job_text startJobRequestResolvedTargetV2 job)) =
  inl (job, startJobRequestResolvedTargetV2).
Proof.
  rewrite (start_request_roundtrip startJobRequestResolvedTargetV2 job).
  - vm_compute. reflexivity.
  - split; [vm_compute; intuition congruence|]. split; [vm_compute; intuition congruence|].
    split; [reflexivity|]. split; [repeat constructor|]. simpl. split; [right; lia|].
    split; [left; reflexivity|]. split; [lia|discriminate].
  - repeat first [apply Forall_cons; split|apply Forall_nil; done]; vm_compute; reflexivity.
Defined.
End Sample.
