(* ===== verification/NodeConfig.v ===== *)
(** * NodeConfig: the node configuration file

    [internal/control/node_config.go] and [node_listener.go]: the line parser
    of the agent's YAML file, the checks of the listener credential, and the
    [Config] that [ConfigFromEnv] makes of them.  The file system is the record
    of what it answers; [contracts.ParseNodeListenerConfig], of another
    repository, is [ParseListener]. *)

From S2P Require Import Prelude Json Urls.

Record nodeAgentConfig := mkNode {
  naPanelURL : string;
  naNodeID : string;
  naNodeName : string;
  naNodeType : string;
  naAPIHost : string;
  naListenerCredential : string;
  naAPIPort : Z;
  naAPISSLEnabled : bool;
  naToken : string }.

Definition eta_node (r : nodeAgentConfig) : nodeAgentConfig :=
  mkNode (naPanelURL r) (naNodeID r) (naNodeName r) (naNodeType r) (naAPIHost r)
    (naListenerCredential r) (naAPIPort r) (naAPISSLEnabled r) (naToken r).

#[export] Instance set_naPanelURL : Setter naPanelURL := ltac:(mk_setter eta_node).
#[export] Instance set_naNodeID : Setter naNodeID := ltac:(mk_setter eta_node).
#[export] Instance set_naNodeName : Setter naNodeName := ltac:(mk_setter eta_node).
#[export] Instance set_naNodeType : Setter naNodeType := ltac:(mk_setter eta_node).
#[export] Instance set_naAPIHost : Setter naAPIHost := ltac:(mk_setter eta_node).
#[export] Instance set_naListenerCredential : Setter naListenerCredential := ltac:(mk_setter eta_node).
#[export] Instance set_naAPIPort : Setter naAPIPort := ltac:(mk_setter eta_node).
#[export] Instance set_naAPISSLEnabled : Setter naAPISSLEnabled := ltac:(mk_setter eta_node).
#[export] Instance set_naToken : Setter naToken := ltac:(mk_setter eta_node).

Definition zeroNode : nodeAgentConfig := mkNode "" "" "" "" "" "" 0 false "".

(** ** Lines *)

Definition newline : ascii := "010"%char.

(** The lines of a text; a last line without its end is one when not empty. *)
Fixpoint lines_acc (acc : list ascii) (l : list ascii) : list (list ascii) :=
  match l with
  | [] => match acc with [] => [] | _ => [rev acc] end
  | a :: r => if Ascii.eqb a newline then rev acc :: lines_acc [] r else lines_acc (a :: acc) r
  end.

Definition drop_cr (line : list ascii) : list ascii :=
  match rev line with
  | a :: r => if Ascii.eqb a "013" then rev r else line
  | [] => line
  end.

(** [bufio.MaxScanTokenSize] *)
Definition max_line : N := 65536.

(** The lines of [bufio.Scanner], or [bufio.ErrTooLong]. *)
Definition scan_lines (body : string) : option (list string) :=
  let ls := lines_acc [] (list_ascii_of_string body) in
  if existsb (fun l => (max_line <=? N.of_nat (length l))%N) ls then None
  else Some ((fun l => string_of_list_ascii (drop_cr l)) <$> ls).

Fixpoint last_char (s : string) : option ascii :=
  match s with
  | EmptyString => None
  | String a EmptyString => Some a
  | String _ r => last_char r
  end.

Fixpoint drop_last (s : string) : string :=
  match s with
  | EmptyString | String _ EmptyString => ""
  | String a r => String a (drop_last r)
  end.

(** [strings.Cut(s, ":")] *)
Fixpoint cut_colon (s : string) : option (string * string) :=
  match s with
  | EmptyString => None
  | String a r =>
      if Ascii.eqb a ":" then Some ("", r)
      else '(k, v) ← cut_colon r; Some (String a k, v)
  end.

Definition quote_char (a : ascii) : bool := Ascii.eqb a "'" || Ascii.eqb a "034".

(** [parseYAMLScalar]: a JSON string, or a text without its quotes. *)
Definition parseYAMLScalar (raw : string) : string :=
  let value := TrimSpace raw in
  match value with
  | String "034" _ =>
      match Unmarshal value with
      | Some (JString decoded) => decoded
      | _ => trim quote_char value
      end
  | _ => trim quote_char value
  end.

(** [strconv.Atoi] with its error dropped: 0 for what is no number, the nearest
    integer for one out of range. *)
Definition all_digits (l : list ascii) : option Z :=
  match l with
  | [] => None
  | _ => match take_digits 0 l with (n, []) => Some (Z.of_N n) | _ => None end
  end.

Definition Atoi (s : string) : Z :=
  let clamp z := Z.max (- two63) (Z.min (two63 - 1) z) in
  match list_ascii_of_string s with
  | "-"%char :: r => default 0 ((fun n => clamp (- n)) <$> all_digits r)
  | "+"%char :: r => default 0 (clamp <$> all_digits r)
  | l => default 0 (clamp <$> all_digits l)
  end.

(** The switch of [parseNodeAgentConfig]. *)
Definition set_key (key value : string) (cfg : nodeAgentConfig) : nodeAgentConfig :=
  if key =s "panel.url" then cfg <| naPanelURL := value |>
  else if key =s "node.id" then cfg <| naNodeID := value |>
  else if key =s "node.name" then cfg <| naNodeName := value |>
  else if key =s "node.type" then cfg <| naNodeType := value |>
  else if key =s "api.host" then cfg <| naAPIHost := value |>
  else if key =s "listener.credential" then cfg <| naListenerCredential := value |>
  else if key =s "api.port" then cfg <| naAPIPort := Atoi value |>
  else if key =s "api.ssl_enabled" then cfg <| naAPISSLEnabled := (ToLower value =s "true") |>
  else if key =s "auth.token" then cfg <| naToken := value |>
  else cfg.

(** One line: the section and the configuration so far. *)
Definition parse_line (st : string * nodeAgentConfig) (raw : string) : string * nodeAgentConfig :=
  let '(section, cfg) := st in
  let line := TrimSpace raw in
  if (line =s "") || HasPrefix line "#" then st
  else if negb (HasPrefix raw " ") && bool_decide (last_char line = Some ":"%char)
  then (drop_last line, cfg)
  else
    match cut_colon line with
    | None => st
    | Some (key, value) =>
        (section, set_key (section ++ "." ++ TrimSpace key) (parseYAMLScalar value) cfg)
    end.

Definition node_complete (cfg : nodeAgentConfig) : bool :=
  (naPanelURL cfg <>s "") && (naNodeID cfg <>s "") && (naNodeName cfg <>s "")
  && (naToken cfg <>s "") && (naAPIHost cfg <>s "")
  && (naListenerCredential cfg =s "node-listener.json") && (0 <? naAPIPort cfg).

(** [parseNodeAgentConfig]: the configuration or the error text. *)
Definition parseNodeAgentConfig (body : string) : nodeAgentConfig + string :=
  match scan_lines body with
  | None => inr "bufio.Scanner: token too long"
  | Some lines =>
      let cfg := (fold_left parse_line lines ("", zeroNode)).2 in
      if node_complete cfg then inl cfg
      else inr "missing panel.url, node.id, node.name, api host/port, listener.credential, or auth.token"
  end.

(** [nodeAPIURL], with [net.JoinHostPort] *)
Definition nodeAPIURL (host : string) (port : Z) (sslEnabled : bool) : string :=
  let host := TrimSpace host in
  if (host =s "") || (port <=? 0) then ""
  else
    (if sslEnabled then "https" else "http") ++ "://" ++
    (if Contains host ":" then "[" ++ host ++ "]" else host) ++ ":" ++ itoa port.

(** ** The listener credential *)

(** [os.FileInfo] *)
Record FileInfo := mkInfo {
  fiMode : N;  (* fs.FileMode *)
  fiSize : Z;
  fiModTime : Time }.

#[export] Instance FileInfo_eq_dec : EqDecision FileInfo.
Proof. solve_decision. Defined.

(** What the file system answers about the credential: [Lstat], [Open] with
    [Stat], [SameFile], and the first 4097 bytes. *)
Record listener_files := mkFiles {
  lfDirectory : string;          (* CREDENTIALS_DIRECTORY *)
  lfInfo : option FileInfo;
  lfOpen : bool;
  lfOpened : option FileInfo;
  lfSameFile : bool;
  lfBody : option string }.

(** [contracts.NodeListenerConfig] *)
Record NodeListenerConfig := mkListener {
  nlServiceType : string;
  nlBindAddress : string;
  nlConfigRevision : Z }.

Class ParseListener := parse_listener : string -> option NodeListenerConfig.

(** The parts of a path between its slashes. *)
Fixpoint path_parts (acc : list ascii) (l : list ascii) : list string :=
  match l with
  | [] => [string_of_list_ascii (rev acc)]
  | a :: r =>
      if Ascii.eqb a "/" then string_of_list_ascii (rev acc) :: path_parts [] r
      else path_parts (a :: acc) r
  end.

Definition rooted (p : string) : bool := HasPrefix p "/".

(** The parts [filepath.Clean] keeps, the last one first. *)
Fixpoint clean_parts (root : bool) (kept : list string) (parts : list string) : list string :=
  match parts with
  | [] => kept
  | part :: parts =>
      if (part =s "") || (part =s ".") then clean_parts root kept parts
      else if part =s ".." then
        match kept with
        | last :: kept' =>
            if last =s ".." then clean_parts root (part :: kept) parts else clean_parts root kept' parts
        | [] => clean_parts root (if root then [] else [part]) parts
        end
      else clean_parts root (part :: kept) parts
  end.

(** [filepath.Clean] *)
Definition Clean (p : string) : string :=
  let parts := rev (clean_parts (rooted p) [] (path_parts [] (list_ascii_of_string p))) in
  let joined := String.concat "/" parts in
  if rooted p then "/" ++ joined else if joined =s "" then "." else joined.

(** [filepath.Dir] *)
Definition Dir (p : string) : string :=
  let parts := path_parts [] (list_ascii_of_string p) in
  Clean (String.concat "/" (removelast parts) ++ (if (1 <? length parts)%nat then "/" else "")).

(** [filepath.Base] of a clean path *)
Definition Base (p : string) : string :=
  if (p =s "/") || (p =s ".") then p else List.last (path_parts [] (list_ascii_of_string p)) "".

Example clean_paths :
  (Clean "/a//b/./../c/" =s "/a/c") && (Clean "../x/../../y" =s "../../y") && (Clean "" =s ".")
  && (Clean "/../a" =s "/a") && (Dir "/etc/a/c.yml" =s "/etc/a") && (Dir "c.yml" =s ".")
  && (Dir "/c.yml" =s "/") && (Base "/etc/c.yml" =s "c.yml") = true.
Proof. reflexivity. Qed.

(** [fs.ModeSymlink] and [fs.ModeType]: directory, symbolic link, named pipe,
    socket, device, character device, irregular. *)
Definition ModeSymlink : N := 2 ^ 27.
Definition ModeType : N := 2 ^ 31 + ModeSymlink + 2 ^ 25 + 2 ^ 24 + 2 ^ 26 + 2 ^ 21 + 2 ^ 19.

Definition listener_info_ok (info : FileInfo) : bool :=
  ((N.land (fiMode info) ModeType =? 0) && (N.land (fiMode info) ModeSymlink =? 0)
   && (N.land (N.land (fiMode info) 511) 18 =? 0))%N
  && (1 <=? fiSize info) && (fiSize info <=? 4096).

(** [loadNodeListenerConfig] *)
Definition loadNodeListenerConfig `{ParseListener} (f : listener_files) (node : nodeAgentConfig)
    : NodeListenerConfig + string :=
  if (naListenerCredential node <>s "node-listener.json") || negb (rooted (TrimSpace (lfDirectory f)))
     || (Clean (TrimSpace (lfDirectory f)) <>s TrimSpace (lfDirectory f))
  then inr "the configured listener credential directory is required"
  else
    match lfInfo f with
    | None => inr "listener credential must be a bounded non-writable regular file"
    | Some info =>
        if negb (listener_info_ok info)
        then inr "listener credential must be a bounded non-writable regular file"
        else if negb (lfOpen f) then inr "open listener credential"
        else if negb (bool_decide (lfOpened f = Some info) && lfSameFile f)
        then inr "listener credential changed during open"
        else
          match lfBody f with
          | None => inr "read listener credential"
          | Some body =>
              if (4096 <? Z.of_nat (strlen body)) then inr "read listener credential"
              else
                match parse_listener body with
                | Some listener =>
                    if nlServiceType listener =s naNodeType node then inl listener
                    else inr "listener credential does not match the v2 Node configuration"
                | None => inr "listener credential does not match the v2 Node configuration"
                end
          end
    end.

(** ** The configuration of the Control Panel client *)

(** [control.Config] without the heartbeat interval. *)
Record Config := mkPanelConfig {
  pcControlPanelURL : string;
  pcToken : string;
  pcServiceID : string;
  pcServiceName : string;
  pcServicePublicURL : string;
  pcBindAddress : string;
  pcConfigRevision : Z;
  pcVersion : string;
  pcConfigError : string }.

(** What reading the node config file gives. *)
Inductive file_read := FileBody (body : string) | FileNotExist | FileError (text : string).

(** The environment of one reading. *)
Record node_env := mkNodeEnv {
  nePath : string;       (* AUTOSTREAM_NODE_CONFIG *)
  neFile : file_read;
  neListener : listener_files }.

(** [loadNodeAgentConfig]; a file that does not exist is told apart. *)
Definition loadNodeAgentConfig (f : file_read) : option (nodeAgentConfig + string) :=
  match f with
  | FileBody body => Some (parseNodeAgentConfig body)
  | FileNotExist => None
  | FileError text => Some (inr text)
  end.

Definition config_error (version text : string) : Config := mkPanelConfig "" "" "" "" "" "" 0 version text.

Definition quoted_type (expectedType : string) : string :=
  String "034" (expectedType ++ String "034" "").

(** [applyNodeConfigFromEnv] on the zero configuration with a version *)
Definition applyNodeConfigFromEnv `{ParseListener} (env : node_env) (version expectedType : string) : Config :=
  if blank (nePath env) then config_error version ""
  else
    match loadNodeAgentConfig (neFile env) with
    | None => config_error version ""
    | Some (inr err) => config_error version ("AUTOSTREAM_NODE_CONFIG: " ++ err)
    | Some (inl node) =>
        if (naNodeType node <>s "") && (expectedType <>s "") && (naNodeType node <>s expectedType)
        then config_error version ("AUTOSTREAM_NODE_CONFIG node.type must be " ++ quoted_type expectedType)
        else
          let '(bind, revision, err) :=
            match loadNodeListenerConfig (neListener env) node with
            | inl listener => (nlBindAddress listener, nlConfigRevision listener, "")
            | inr err => ("", 0, "node listener config: " ++ err)
            end in
          mkPanelConfig (naPanelURL node) (naToken node) (naNodeID node) (naNodeName node)
            (nodeAPIURL (naAPIHost node) (naAPIPort node) (naAPISSLEnabled node)) bind revision version err
    end.

(** [NodeConfigPendingFromEnv] *)
Definition NodeConfigPendingFromEnv (env : node_env) : bool :=
  if blank (nePath env) then false else match neFile env with FileNotExist => true | _ => false end.

(** [NodeRuntimeTokenFromEnv] *)
Definition NodeRuntimeTokenFromEnv (env : node_env) : string :=
  if blank (nePath env) then ""
  else match loadNodeAgentConfig (neFile env) with Some (inl node) => naToken node | _ => "" end.

Module Sample.
Definition lines (ls : list string) : string := quoted (String.concat (String newline "") ls).

(** A node file with a comment, a JSON string, quotes and a value with colons. *)
Example node_file :
  parseNodeAgentConfig (lines ["# node"; "panel:"; "  url: https://panel.example:8443"; "node:";
    "  id: 'n\u002d1'"; "  name: bot"; "  type: discord_bot"; "api:"; "  host: ::1"; "  port: 8080";
    "  ssl_enabled: TRUE"; "listener:"; "  credential: node-listener.json"; "auth:"; "  token:  t:1 "]) =
  inl (mkNode "https://panel.example:8443" "n-1" "bot" "discord_bot" "::1" "node-listener.json" 8080 true "t:1")
  /\ nodeAPIURL "::1" 8080 true = "https://[::1]:8080".
Proof. vm_compute. done. Qed.
End Sample.
