(* ===== verification/UpdaterIdentity.v ===== *)
(** * UpdaterIdentity: the identity the updater sees never changes

    [internal/httpapi/updater_identity.go]: the latch binds the first complete
    identity the environment gives and refuses any other from then on. *)

From S2P Require Import Prelude Conc Errors RuntimeConfig NodeConfig.

Open Scope go_scope.

Record UpdaterIdentity := mkIdentity {
  uiServiceID : string;
  uiServiceType : string;
  uiConfigRevision : Z }.

#[export] Instance UpdaterIdentity_eq_dec : EqDecision UpdaterIdentity.
Proof. solve_decision. Defined.

Definition zeroIdentity : UpdaterIdentity := mkIdentity "" "" 0.

Record UpdaterIdentityLatch := mkLatch {
  ulServiceType : string;
  ulIdentity : UpdaterIdentity;
  ulBound : bool }.

Definition NewUpdaterIdentityLatch (serviceType : string) : UpdaterIdentityLatch :=
  mkLatch (TrimSpace serviceType) zeroIdentity false.

Definition ErrUpdaterIdentityPending : error := ErrNew "updater identity is pending".
Definition ErrUpdaterIdentityDrift : error := ErrNew "updater identity drift detected".

Definition driftError (detail : string) : error :=
  Wrapped ("updater identity drift detected: " ++ detail) (Some ErrUpdaterIdentityDrift).

(** The section of [bind]. *)
Definition bind_section (candidate : UpdaterIdentity) (l : UpdaterIdentityLatch)
    : (UpdaterIdentity + error) * UpdaterIdentityLatch :=
  if negb (ulBound l) then (inl candidate, mkLatch (ulServiceType l) candidate true)
  else if bool_decide (ulIdentity l = candidate) then (inl (ulIdentity l), l)
  else (inr (driftError ("expected " ++ uiServiceType (ulIdentity l) ++ "/"
               ++ uiServiceID (ulIdentity l) ++ " revision " ++ itoa (uiConfigRevision (ulIdentity l)))), l).

(** The section of a pending node config. *)
Definition pending_section (l : UpdaterIdentityLatch) : error * UpdaterIdentityLatch :=
  (if ulBound l then driftError "authoritative node config became unavailable"
   else ErrUpdaterIdentityPending, l).

Section Resolve.
Context {E : Type -> Type} {L M : Type}.
(** [control.NodeConfigPendingFromEnv] and [control.ConfigFromEnv], two readings
    of the environment. *)
Context (nodeConfigPending : E bool) (configFromEnv : E Config).

Abbreviation latch_prog := (prog UpdaterIdentityLatch E L M).
Abbreviation lret := (@Ret UpdaterIdentityLatch E L M _).

Definition bind_identity (candidate : UpdaterIdentity) : latch_prog (UpdaterIdentity + error) :=
  if uiServiceID candidate =s "" then lret (inr (ErrNew "updater service id is required"))
  else atomic (bind_section candidate).

(** [ResolveFromEnv] *)
Definition ResolveFromEnv : latch_prog (UpdaterIdentity + error) :=
  let* serviceType := read ulServiceType in
  if serviceType <>s ServiceType
  then lret (inr (ErrNew ("updater service type must be " ++ quoted_type ServiceType)))
  else
    let* pending := call nodeConfigPending in
    if (pending : bool) then
      let* err := atomic pending_section in lret (inr err)
    else
      let* cfg := call configFromEnv in
      if negb (blank (pcConfigError cfg)) then lret (inr (ErrNew (pcConfigError cfg)))
      else if blank (pcServiceID cfg) then lret (inr ErrUpdaterIdentityPending)
      else bind_identity (mkIdentity (TrimSpace (pcServiceID cfg)) ServiceType (pcConfigRevision cfg)).
End Resolve.

(** ** The latch is written once *)

(** How the latch may change: it is bound once and for all. *)
Definition latched (l l' : UpdaterIdentityLatch) : Prop :=
  ulServiceType l' = ulServiceType l /\ (ulBound l = true -> l' = l).

#[export] Instance latched_preorder : PreOrder latched.
Proof.
  split; [done|]. intros a b c [H1 H2] [H3 H4]. split; [congruence|]. intros Ha.
  specialize (H2 Ha) as ->. by apply H4.
Qed.

Lemma bind_section_latched candidate l : latched l (bind_section candidate l).2.
Proof. unfold bind_section. destruct l as [t i []]; simpl; [by case_bool_decide|done]. Qed.

Lemma bind_section_answer candidate l id :
  (bind_section candidate l).1 = inl id ->
  ulBound (bind_section candidate l).2 = true /\ ulIdentity (bind_section candidate l).2 = id.
Proof.
  unfold bind_section. destruct l as [t i []]; simpl; [|by intros [= ->]].
  case_bool_decide; [|done]. by intros [= ->].
Qed.

Section Once.
Context {E : Type -> Type} {L M : Type} (nodeConfigPending : E bool) (configFromEnv : E Config).

(** An environment in which other goroutines only resolve. *)
Definition latching (en : env UpdaterIdentityLatch E) : Prop :=
  (forall X n (e : E X) s, latched s (env_call en X n e s).2) /\
  (forall n d c s, latched s (env_wait en n d c s).2).

Lemma resolve_latched en n s :
  latching en ->
  let '(res, s', _) := run en (@ResolveFromEnv E L M nodeConfigPending configFromEnv) n s in
  latched s s' /\ forall id, res = inl id -> ulBound s' = true /\ ulIdentity s' = id.
Proof.
  intros [Hc _]. unfold ResolveFromEnv. cbn [bind read run].
  destruct (ulServiceType s <>s ServiceType); cbn [run]; [done|]. cbn [bind call run].
  pose proof (Hc _ n nodeConfigPending s) as H1.
  destruct (env_call en bool n nodeConfigPending s) as [[] s1]; cbn [bind atomic run snd] in *.
  { by destruct (pending_section s1) as [err s2] eqn:Ep; injection Ep as <- <-. }
  pose proof (Hc _ (S n) configFromEnv s1) as H2.
  destruct (env_call en Config (S n) configFromEnv s1) as [cfg s2]. cbn [bind call run snd] in *.
  assert (latched s s2) as H3 by by etrans.
  destruct (negb (blank (pcConfigError cfg))); cbn [run]; [done|].
  destruct (blank (pcServiceID cfg)); cbn [run]; [done|].
  unfold bind_identity. destruct (uiServiceID _ =s ""); cbn [run]; [done|]. unfold atomic. cbn [run].
  pose proof (bind_section_latched (mkIdentity (TrimSpace (pcServiceID cfg)) ServiceType (pcConfigRevision cfg)) s2) as H4.
  pose proof (bind_section_answer (mkIdentity (TrimSpace (pcServiceID cfg)) ServiceType (pcConfigRevision cfg)) s2) as H5.
  destruct (bind_section _ s2) as [res s3]. cbn [fst snd run] in *. split; [by etrans|]. intros id ->. by apply H5.
Qed.

(** C38: Whatever the environment shows between and during two requests, and
    with other requests resolving at the same time, all identities the latch
    ever answers are the same: once bound, another service id or revision is
    refused as drift. *)
Theorem updater_identity_is_write_once en1 en2 n1 n2 s s' id1 id2 :
  latching en1 -> latching en2 ->
  let '(res1, s1, _) := run en1 (@ResolveFromEnv E L M nodeConfigPending configFromEnv) n1 s in
  latched s1 s' ->
  let '(res2, s2, _) := run en2 (@ResolveFromEnv E L M nodeConfigPending configFromEnv) n2 s' in
  res1 = inl id1 -> res2 = inl id2 -> id1 = id2.
Proof.
  intros Hen1 Hen2. pose proof (resolve_latched en1 n1 s Hen1) as H1.
  destruct (run en1 _ n1 s) as [[res1 s1] tr1]. intros Hs.
  pose proof (resolve_latched en2 n2 s' Hen2) as H2.
  destruct (run en2 _ n2 s') as [[res2 s2] tr2].
  intros Hr1 Hr2. destruct H1 as [_ H1], H2 as [Hl H2].
  destruct (H1 _ Hr1) as [Hb Hi], (H2 _ Hr2) as [_ Hi2].
  rewrite (proj2 Hs Hb) in Hl. rewrite (proj2 Hl Hb) in Hi2. congruence.
Qed.
End Once.

Module Sample.
Inductive Q : Type -> Type := Pending : Q bool | Env : Q Config.

(** A node whose config names the service [id] at a revision. *)
Definition node (id : string) (revision : Z) X (q : Q X) : X :=
  match q with
  | Pending => false
  | Env => mkPanelConfig "u" "t" id "n" "" "" revision "v" ""
  end.

Definition env_of (id : string) (revision : Z) : env UpdaterIdentityLatch Q :=
  {| env_call X _ q s := (node id revision X q, s); env_wait _ _ c s := (c s, s) |}.

Lemma env_of_latching id revision : latching (env_of id revision).
Proof. split; intros; simpl; reflexivity. Qed.

Definition resolve (id : string) (revision : Z) (l : UpdaterIdentityLatch) :=
  (run (env_of id revision) (@ResolveFromEnv Q Empty_set Empty_set Pending Env) 0 l).1.

Definition fresh : UpdaterIdentityLatch := NewUpdaterIdentityLatch "discord_bot".

(** The same identity is answered again, another one is drift. *)
Lemma updater_identity_is_write_once_witness :
  (resolve "bot-1" 3 fresh).1 = inl (mkIdentity "bot-1" "discord_bot" 3) /\
  (resolve "bot-1" 4 (resolve "bot-1" 3 fresh).2).1 =
    inr (driftError "expected discord_bot/bot-1 revision 3") /\
  (resolve " bot-1 " 3 (resolve "bot-1" 3 fresh).2).1 = inl (mkIdentity "bot-1" "discord_bot" 3) /\
  mkIdentity "bot-1" "discord_bot" 3 = mkIdentity "bot-1" "discord_bot" 3.
Proof.
  split; [vm_compute; reflexivity|]. split; [vm_compute; reflexivity|]. split; [vm_compute; reflexivity|].
  pose proof (@updater_identity_is_write_once Q Empty_set Empty_set Pending Env (env_of "bot-1" 3) (env_of " bot-1 " 3) 0 0
    fresh (resolve "bot-1" 3 fresh).2 (mkIdentity "bot-1" "discord_bot" 3) (mkIdentity "bot-1" "discord_bot" 3)
    (env_of_latching _ _) (env_of_latching _ _)) as H.
  exact (H ltac:(vm_compute; split; [reflexivity|intros; reflexivity])
    ltac:(vm_compute; reflexivity) ltac:(vm_compute; reflexivity)).
Defined.
End Sample.
