(* ===== verification/Durations.v ===== *)
(** * Durations: texts of durations and integers

    [time.ParseDuration] and [strconv.Atoi] as the process reads them from its
    environment and from runtime profiles: overflow checks and wrap-around at
    their width, fractions in double precision.  Texts of errors are left out; a
    malformed text is [None]. *)

From Stdlib Require Import SpecFloat.
From S2P Require Import Prelude Json Floats NodeConfig.

(** ** [time.ParseDuration] *)

(** [leadingInt]: the digits at the head, refused beyond [1<<63]. *)
Fixpoint leadingInt (x : Z) (l : list ascii) : option (Z * list ascii) :=
  match l with
  | [] => Some (x, [])
  | c :: r =>
      match digit_value c with
      | None => Some (x, l)
      | Some d =>
          if two63 / 10 <? x then None
          else
            let x := x * 10 + Z.of_N d in
            if two63 <? x then None else leadingInt x r
      end
  end.

(** [leadingFraction]: the digits after the point and the power of ten they are
    over; digits that do not fit are skipped. *)
Fixpoint leadingFraction (x scale : Z) (overflow : bool) (l : list ascii) : Z * Z * list ascii :=
  match l with
  | [] => (x, scale, [])
  | c :: r =>
      match digit_value c with
      | None => (x, scale, l)
      | Some d =>
          if overflow || (max_int64 / 10 <? x) then leadingFraction x scale true r
          else
            let y := x * 10 + Z.of_N d in
            if two63 <? y then leadingFraction x scale true r
            else leadingFraction y (scale * 10) false r
      end
  end.

(** The unit: everything up to the next digit or point. *)
Fixpoint take_unit (l : list ascii) : list ascii * list ascii :=
  match l with
  | [] => ([], [])
  | c :: r =>
      if Ascii.eqb c "." || bool_decide (is_Some (digit_value c)) then ([], l)
      else let '(u, r) := take_unit r in (c :: u, r)
  end.

Definition bytes (l : list N) : string := string_of_list_ascii (ascii_of_N <$> l).

(** [unitMap]; the micro sign and the Greek letter are both accepted. *)
Definition units : list (string * Z) :=
  [("ns", 1); ("us", 1000); (bytes [194; 181; 115]%N, 1000); (bytes [206; 188; 115]%N, 1000);
   ("ms", Millisecond); ("s", Second); ("m", Minute); ("h", 60 * Minute)].

Definition unitMap (u : string) : option Z :=
  (fun x => x.2.2) <$> list_find (fun kv : string * Z => kv.1 = u) units.

Lemma unitMap_in u unit : unitMap u = Some unit -> (u, unit) ∈ units.
Proof.
  unfold unitMap. destruct (list_find _ units) as [[i [k v]]|] eqn:E; [|done].
  apply list_find_Some in E as (Hi & Hk & _). simpl in *. intros [= <-]. subst.
  by eapply list_elem_of_lookup_2.
Qed.

(** [uint64(x)] of a positive double. *)
Definition truncate (x : spec_float) : Z :=
  match x with
  | S754_finite false m e => if 0 <=? e then Z.pos m * 2 ^ e else Z.pos m / 2 ^ (- e)
  | _ => 0
  end.

(** [float64(f) * (float64(unit) / scale)]; the scale is a product of tens, exact
    as a double as long as digits are taken. *)
Definition fraction_of (f scale unit : Z) : Z :=
  truncate (fmul (float64 f) (fdiv (float64 unit) (float64 scale))).

(** One turn of the loop: a number and its unit; the value in nanoseconds and the
    rest. *)
Definition parse_term (l : list ascii) : option (Z * list ascii) :=
  match l with
  | [] => None
  | c :: _ =>
  if negb (Ascii.eqb c "." || bool_decide (is_Some (digit_value c))) then None else
  match leadingInt 0 l with
  | None => None
  | Some (v, r) =>
      let pre := negb (Nat.eqb (length r) (length l)) in
      let '(f, scale, r', post) :=
        match r with
        | "."%char :: r0 =>
            let '(f, scale, r1) := leadingFraction 0 1 false r0 in
            (f, scale, r1, negb (Nat.eqb (length r1) (length r0)))
        | _ => (0, 1, r, false)
        end in
      if negb pre && negb post then None else
      let '(u, rest) := take_unit r' in
      match u with
      | [] => None
      | _ =>
          match unitMap (string_of_list_ascii u) with
          | None => None
          | Some unit =>
              if two63 / unit <? v then None
              else
                let v := v * unit in
                if 0 <? f then
                  let v := v + fraction_of f scale unit in
                  if two63 <? v then None else Some (v, rest)
                else Some (v, rest)
          end
      end
  end
  end.

(** The loop: [d] so far; each turn takes at least one byte. *)
Fixpoint parse_terms (fuel : nat) (d : Z) (l : list ascii) : option Z :=
  match l, fuel with
  | [], _ => Some d
  | _, O => None
  | _, S fuel =>
      match parse_term l with
      | None => None
      | Some (v, rest) =>
          let d := wrapu64 (d + v) in
          if two63 <? d then None else parse_terms fuel d rest
      end
  end.

(** [ParseDuration] *)
Definition ParseDuration (s : string) : option Duration :=
  let l := list_ascii_of_string s in
  let '(neg, l) :=
    match l with
    | "-"%char :: r => (true, r)
    | "+"%char :: r => (false, r)
    | _ => (false, l)
    end in
  if bool_decide (l = ["0"%char]) then Some 0
  else
    match l with
    | [] => None
    | _ =>
        match parse_terms (length l) 0 l with
        | None => None
        | Some d => if neg : bool then Some (- d) else if max_int64 <? d then None else Some d
        end
    end.

(** [strconv.Atoi]: [None] for what is no decimal integer or does not fit. *)
Definition Atoi (s : string) : option Z :=
  let fit z := if (min_int64 <=? z) && (z <=? max_int64) then Some z else None in
  match list_ascii_of_string s with
  | "-"%char :: r => n ← all_digits r; fit (- n)
  | "+"%char :: r => n ← all_digits r; fit n
  | l => n ← all_digits l; fit n
  end.

(** ** Facts *)

Lemma digit_value_range c d : digit_value c = Some d -> (d < 10)%N.
Proof.
  unfold digit_value. destruct ((48 <=? byteN c) && (byteN c <=? 57))%N eqn:E; [|done].
  intros [= <-]. apply andb_prop in E as [?%N.leb_le ?%N.leb_le]. lia.
Qed.

Lemma leadingInt_range l : forall x v r,
  0 <= x <= two63 -> leadingInt x l = Some (v, r) -> 0 <= v <= two63 /\ (length r <= length l)%nat.
Proof.
  induction l as [|c l IH]; cbn [leadingInt]; intros x v r Hx; [by intros [= <- <-]|].
  destruct (digit_value c) as [d|]; [|by intros [= <- <-]].
  case_match; [done|]. destruct (Z.ltb_spec two63 (x * 10 + Z.of_N d)); [done|].
  intros Hl. apply IH in Hl; [|lia]. simpl. lia.
Qed.

Lemma leadingFraction_range l : forall x scale o f s r,
  0 <= x <= two63 -> leadingFraction x scale o l = (f, s, r) ->
  0 <= f <= two63 /\ (length r <= length l)%nat.
Proof.
  induction l as [|c l IH]; cbn [leadingFraction]; intros x scale o f s r Hx; [by intros [= <- <- <-]|].
  destruct (digit_value c) as [d|]; [|by intros [= <- <- <-]].
  case_match; [intros Hl; apply IH in Hl; [simpl; lia|done]|].
  destruct (Z.ltb_spec two63 (x * 10 + Z.of_N d)); intros Hl;
    (apply IH in Hl; [simpl; lia|lia]).
Qed.

Lemma take_unit_length l u r : take_unit l = (u, r) -> (length u + length r = length l)%nat.
Proof.
  revert u r. induction l as [|c l IH]; cbn [take_unit]; intros u r; [by intros [= <- <-]|].
  case_match; [by intros [= <- <-]|]. destruct (take_unit l) as [u' r'] eqn:E.
  intros [= <- <-]. simpl. by rewrite (IH _ _ eq_refl).
Qed.

Lemma truncate_nonneg x : 0 <= truncate x.
Proof.
  destruct x as [| | |[] m e]; simpl; try lia. case_match; [|by apply Z.div_pos; lia].
  apply Z.mul_nonneg_nonneg; [lia|]. by apply Z.pow_nonneg.
Qed.

Lemma unitMap_pos u unit : unitMap u = Some unit -> 0 < unit.
Proof.
  intros Hin%unitMap_in. assert (Forall (fun kv => 0 < kv.2) units) as Hall by (by repeat constructor).
  rewrite Forall_forall in Hall. by specialize (Hall _ Hin).
Qed.

(** A turn takes at least one byte, and its value fits [1<<63]. *)
Lemma parse_term_spec l v rest :
  parse_term l = Some (v, rest) -> 0 <= v <= two63 /\ (length rest < length l)%nat.
Proof.
  unfold parse_term. destruct l as [|c0 l0]; [done|]. set (l := c0 :: l0). clearbody l.
  case_match; [done|]. destruct (leadingInt 0 l) as [[v0 r]|] eqn:El; [|done].
  apply leadingInt_range in El as [Hv0 Hr]; [|zconst; lia].
  destruct (match r with "."%char :: r0 => _ | _ => _ end) as [[[f scale] r'] post] eqn:Ef.
  assert (0 <= f /\ (length r' <= length l)%nat) as [Hf Hr'].
  { destruct r as [|c r]; [injection Ef as <- <- <- <-; lia|].
    destruct (decide (c = "."%char)) as [->|Hc].
    - destruct (leadingFraction 0 1 false r) as [[f1 s1] r1] eqn:E1.
      apply leadingFraction_range in E1; [|zconst; lia].
      injection Ef as <- <- <- <-. simpl in Hr. lia.
    - assert ((0, 1, c :: r, false) = (f, scale, r', post)) as [= <- <- <- <-]; [|lia].
      rewrite <- Ef. by destruct c as [[] [] [] [] [] [] [] []]. }
  destruct (negb (negb _) && negb post); [done|]. destruct (take_unit r') as [u rest'] eqn:Eu.
  apply take_unit_length in Eu. destruct u as [|c u]; [done|].
  destruct (unitMap _) as [unit|] eqn:Em; [|done]. apply unitMap_pos in Em.
  destruct (Z.ltb_spec (two63 / unit) v0); [done|].
  assert (v0 * unit <= two63) as Hv by (pose proof (Z.mul_div_le two63 unit Em); nia).
  pose proof (truncate_nonneg (fmul (float64 f) (fdiv (float64 unit) (float64 scale)))).
  fold (fraction_of f scale unit) in *.
  destruct (0 <? f).
  - destruct (Z.ltb_spec two63 (v0 * unit + fraction_of f scale unit)); [done|].
    intros [= <- <-]. simpl in Eu. split; [nia|lia].
  - intros [= <- <-]. simpl in Eu. split; [nia|lia].
Qed.

Lemma parse_terms_range fuel : forall d l r,
  0 <= d <= two63 -> parse_terms fuel d l = Some r -> 0 <= r <= two63.
Proof.
  induction fuel as [|fuel IH]; intros d l r Hd; destruct l as [|c l]; cbn [parse_terms]; try done;
    try (by intros [= <-]).
  destruct (parse_term (c :: l)) as [[v rest]|]; [|done].
  destruct (Z.ltb_spec two63 (wrapu64 (d + v))); [done|]. apply IH.
  pose proof (wrapu64_range (d + v)). lia.
Qed.

(** The fuel is enough: more does not change the result. *)
Lemma parse_terms_fuel n : forall fuel d l,
  (length l <= n)%nat -> (length l <= fuel)%nat -> parse_terms fuel d l = parse_terms n d l.
Proof.
  induction n as [|n IH]; intros fuel d l Hn Hf.
  - destruct l; [by destruct fuel|simpl in Hn; lia].
  - destruct l as [|c l]; [by destruct fuel|]. destruct fuel as [|fuel]; [simpl in Hf; lia|].
    cbn [parse_terms]. destruct (parse_term (c :: l)) as [[v rest]|] eqn:E; [|done].
    apply parse_term_spec in E as [_ Hl]. case_match; [done|]. apply IH; simpl in *; lia.
Qed.

(** A duration that parses fits an [int64]. *)
Lemma ParseDuration_range s d : ParseDuration s = Some d -> min_int64 <= d <= max_int64.
Proof.
  unfold ParseDuration. destruct (match list_ascii_of_string s with "-"%char :: r => _ | _ => _ end) as [neg l].
  case_match; [intros [= <-]; zconst; lia|]. destruct l as [|c l]; [done|].
  destruct (parse_terms _ 0 _) as [r|] eqn:E; [|done].
  apply parse_terms_range in E; [|zconst; lia]. destruct neg; [intros [= <-]; zconst; lia|].
  destruct (Z.ltb_spec max_int64 r); [done|]. intros [= <-]. zconst. lia.
Qed.

Example duration_seconds : ParseDuration "30s" = Some (30 * Second).
Proof. vm_compute. reflexivity. Qed.

Example duration_fraction : ParseDuration "-1.5h2m0.25s" = Some (- (90 * Minute + 2 * Minute + 250 * Millisecond)).
Proof. vm_compute. reflexivity. Qed.

Example duration_no_unit : ParseDuration "30" = None.
Proof. vm_compute. reflexivity. Qed.

(** ** Plain decimal texts *)

Lemma take_digits_le l : forall n v r, take_digits n l = (v, r) -> (n <= v)%N.
Proof.
  induction l as [|c l IH]; cbn [take_digits]; intros n v r; [intros [= <- <-]; lia|].
  destruct (digit_value c) as [d|]; [|intros [= <- <-]; lia]. intros Ht%IH. lia.
Qed.

Lemma leadingInt_digits l : forall x v r,
  take_digits x l = (v, r) -> Z.of_N x <= two63 ->
  leadingInt (Z.of_N x) l = if Z.of_N v <=? two63 then Some (Z.of_N v, r) else None.
Proof.
  induction l as [|c l IH]; cbn [take_digits leadingInt]; intros x v r.
  { intros [= <- <-] Hx. by rewrite (proj2 (Z.leb_le _ _) Hx). }
  destruct (digit_value c) as [d|] eqn:Ed; [|intros [= <- <-] Hx; by rewrite (proj2 (Z.leb_le _ _) Hx)].
  intros Ht Hx. pose proof (take_digits_le _ _ _ _ Ht). apply digit_value_range in Ed.
  pose proof (Z.mul_div_le two63 10 ltac:(lia)). pose proof (Z.mul_succ_div_gt two63 10 ltac:(lia)).
  destruct (Z.ltb_spec (two63 / 10) (Z.of_N x)); [by rewrite (proj2 (Z.leb_gt _ _)) by lia|].
  destruct (Z.ltb_spec two63 (Z.of_N x * 10 + Z.of_N d)); [by rewrite (proj2 (Z.leb_gt _ _)) by lia|].
  replace (Z.of_N x * 10 + Z.of_N d) with (Z.of_N (x * 10 + d)) by lia. apply IH; [done|lia].
Qed.

Lemma take_digits_print n rest : no_digit rest -> take_digits 0 (print_N n ++ rest) = (n, rest).
Proof.
  intros Hr. unfold print_N. rewrite digits_acc_app. cbn [app].
  rewrite (take_digits_acc _ n rest (print_N_fuel n)). by apply take_digits_delimited.
Qed.

(** The decimal text of [n] followed by a unit. *)
Definition with_unit (n : N) (u : string) : string :=
  string_of_list_ascii (print_N n ++ list_ascii_of_string u)%list.

Lemma print_N_digit_head n : exists c r, print_N n = c :: r /\ is_Some (digit_value c).
Proof.
  destruct (decide (n = 0)%N) as [->|Hn]; [by eexists _, _|].
  destruct (digits_acc_head (S (N.to_nat (N.log2 n))) n []) as (d & r & Hd & Hb);
    [split; [lia|apply print_N_fuel]|].
  exists (ascii_of_N (48 + d)), r. split; [exact Hd|]. exists d. apply digit_value_digit. lia.
Qed.

(** What a unit of [unitMap] looks like to the loop. *)
Definition plain_unit (u : string) : bool :=
  match list_ascii_of_string u with
  | [] => false
  | c :: _ =>
      bool_decide (digit_value c = None) && negb (Ascii.eqb c ".") && negb (Ascii.eqb c "e")
      && negb (Ascii.eqb c "E")
      && bool_decide (take_unit (list_ascii_of_string u) = (list_ascii_of_string u, []))
  end.

Lemma unit_shape u unit :
  unitMap u = Some unit ->
  exists c r, list_ascii_of_string u = c :: r /\ delimited (c :: r) /\ take_unit (c :: r) = (c :: r, []).
Proof.
  intros Hin%unitMap_in.
  assert (Forall (fun kv => plain_unit kv.1 = true) units) as Hall by (by repeat constructor).
  rewrite Forall_forall in Hall. specialize (Hall _ Hin). simpl in Hall. unfold plain_unit in Hall.
  destruct (list_ascii_of_string u) as [|c r] eqn:E; [done|]. exists c, r. split; [done|].
  bool_hyps. split; [|done]. by split_and!; [|apply Ascii.eqb_neq..].
Qed.

(** A plain decimal number and a unit is read exactly: for every unit and
    every number for which the duration fits an [int64]; beyond that it is
    refused, never wrapped around. *)
Theorem ParseDuration_whole n u unit :
  unitMap u = Some unit ->
  ParseDuration (with_unit n u) =
  if Z.of_N n * unit <=? max_int64 then Some (Z.of_N n * unit) else None.
Proof.
  intros Hu. destruct (unit_shape u unit Hu) as (cu & ru & Eu & Hd & Ht).
  pose proof (unitMap_pos _ _ Hu) as Hpos. unfold ParseDuration, with_unit.
  rewrite list_ascii_of_string_of_list_ascii, Eu.
  destruct (print_N_digit_head n) as (c & r & Ec & [dc Hdc]).
  pose proof (take_digits_print n _ (delimited_no_digit _ Hd)) as Htd. rewrite Ec in *. cbn [app] in *.
  replace (match c with "-"%char => _ | "+"%char => _ | _ => _ end) with (false, c :: r ++ cu :: ru)%list
    by (by destruct c as [[] [] [] [] [] [] [] []]).
  rewrite bool_decide_eq_false_2 by (by destruct r).
  cbn [length parse_terms]. unfold parse_term.
  rewrite (bool_decide_eq_true_2 (is_Some (digit_value c))) by (by eexists). rewrite orb_true_r. cbn [negb].
  change 0 with (Z.of_N 0) at 1. rewrite (leadingInt_digits _ _ _ _ Htd) by (zconst; lia).
  destruct (Z.leb_spec (Z.of_N n) two63) as [Hn|Hn].
  2:{ rewrite (proj2 (Z.leb_gt _ _)); [done|]. zconst. nia. }
  replace (match cu with "."%char => _ | _ => _ end) with (0, 1, cu :: ru, false)
    by (destruct Hd as (_ & Hdot & _); by destruct cu as [[] [] [] [] [] [] [] []]).
  rewrite (proj2 (Nat.eqb_neq _ _)) by (simpl; rewrite length_app; simpl; lia). cbn [negb andb].
  rewrite Ht. cbv beta iota. rewrite <- Eu, string_of_list_ascii_of_string, Hu. cbv beta iota.
  rewrite Z.ltb_irrefl. cbv beta iota. rewrite ?Z.add_0_l.
  destruct (Z.ltb_spec (two63 / unit) (Z.of_N n)) as [Hb|Hb].
  { pose proof (Z.mul_succ_div_gt two63 unit Hpos). rewrite (proj2 (Z.leb_gt _ _)); [done|]. zconst. nia. }
  pose proof (Z.mul_div_le two63 unit Hpos).
  rewrite Z.add_0_l, wrapu64_small by (zconst; nia).
  destruct (Z.ltb_spec two63 (Z.of_N n * unit)); [zconst; nia|].
  replace (parse_terms _ _ []) with (Some (Z.of_N n * unit)) by (by destruct (length _)).
  rewrite Z.ltb_antisym. by destruct (Z.of_N n * unit <=? max_int64).
Qed.
