(* ===== verification/Settings.v ===== *)
(** * Settings: what the process reads from its environment

    The helpers that read one variable, in each package that has its own:
    [cmd/discord-bot/main.go], [internal/control/client.go],
    [internal/audioforward/client.go], [internal/worker/client.go]; and the
    configurations made of them.  [getenv] is [os.Getenv]. *)

From S2P Require Import Prelude Durations Json NodeConfig Manager.
From S2P Require AudioForward WorkerClient.

(** [os.Getenv]: the empty text for a variable that is not set. *)
Abbreviation environ := (string -> string).

(** ** [cmd/discord-bot/main.go] *)

Module Main.
Section Main.
Context (getenv : environ).

Definition envBoolDefault (name : string) (fallback : bool) : bool :=
  let raw := TrimSpace (getenv name) in
  if raw =s "" then fallback
  else
    let raw := ToLower raw in
    if (raw =s "1") || (raw =s "true") || (raw =s "yes") || (raw =s "on") then true
    else if (raw =s "0") || (raw =s "false") || (raw =s "no") || (raw =s "off") then false
    else fallback.

Definition envIntDefault (name : string) (fallback : Z) : Z :=
  let raw := TrimSpace (getenv name) in
  if raw =s "" then fallback
  else match Durations.Atoi raw with
       | Some value => if value <=? 0 then fallback else value
       | None => fallback
       end.

Definition envDurationDefault (name : string) (fallback : Duration) : Duration :=
  let raw := TrimSpace (getenv name) in
  if raw =s "" then fallback
  else match ParseDuration raw with
       | Some value => if value <? 0 then fallback else value
       | None => fallback
       end.

Definition requireControlPanelRuntimeConfig : bool :=
  if envBoolDefault "AUTOSTREAM_REQUIRE_CONTROL_PANEL_RUNTIME_CONFIG" false then true
  else fold_name (TrimSpace (getenv "AUTOSTREAM_ENV")) =s fold_name "production".

(** [reconnectPolicyFromEnv] *)
Definition reconnectPolicyFromEnv : ReconnectPolicy :=
  mkPolicy (envBoolDefault "DISCORD_RECONNECT_ENABLED" true)
    (envIntDefault "DISCORD_RECONNECT_MAX_ATTEMPTS" 5)
    (envDurationDefault "DISCORD_RECONNECT_BASE_DELAY" (2 * Second))
    (envDurationDefault "DISCORD_RECONNECT_MAX_DELAY" (30 * Second)).

(** The interval of [runRuntimeConfigRefreshLoop], as its callers give it and as
    the loop normalises it. *)
Definition refresh_interval : Duration :=
  let interval := envDurationDefault "CONTROL_PANEL_RUNTIME_CONFIG_REFRESH_INTERVAL" (30 * Second) in
  if interval <=? 0 then 30 * Second else interval.
End Main.
End Main.

(** ** [internal/control/client.go] *)

Module Control.
Section Control.
Context (getenv : environ).

Definition envDefault (key fallback : string) : string :=
  let value := TrimSpace (getenv key) in
  if value <>s "" then value else fallback.

(** A number of seconds: the unit is appended to the value. *)
Definition envDuration (key : string) (fallback : Duration) : Duration :=
  let value := TrimSpace (getenv key) in
  if value =s "" then fallback
  else match ParseDuration (value ++ "s") with
       | Some seconds => if seconds <=? 0 then fallback else seconds
       | None => fallback
       end.

(** [control.Config]: the configuration of [NodeConfig] with its last field. *)
Record ControlConfig := mkControl {
  ccConfig : NodeConfig.Config;
  ccHeartbeatEvery : Duration }.

(** [version.Current] of the version the build sets *)
Definition Current (Version : string) : string := if Version =s "" then "dev" else Version.

(** [ConfigFromEnv] *)
Definition ConfigFromEnv `{ParseListener} (Version : string) (env : node_env) : ControlConfig :=
  mkControl
    (applyNodeConfigFromEnv env (envDefault "SERVICE_VERSION" (Current Version)) "discord_bot")
    (envDuration "CONTROL_PANEL_HEARTBEAT_INTERVAL_SEC" (30 * Second)).

(** [controlPanelRegistrationInterval] of [main.go] *)
Definition controlPanelRegistrationInterval (cfg : ControlConfig) : Duration :=
  if negb (blank (pcControlPanelURL (ccConfig cfg))) && negb (blank (pcToken (ccConfig cfg)))
     && (0 <? ccHeartbeatEvery cfg)
  then ccHeartbeatEvery cfg else 10 * Second.

(** The interval of [RunHeartbeatLoopWithMetrics]. *)
Definition heartbeat_interval (cfg : ControlConfig) : Duration :=
  if ccHeartbeatEvery cfg <=? 0 then 30 * Second else ccHeartbeatEvery cfg.
End Control.
End Control.

(** ** [internal/audioforward/client.go] *)

Module Audio.
Section Audio.
Context (getenv : environ).

Definition envDuration (key : string) (fallback : Duration) : Duration :=
  let value := TrimSpace (getenv key) in
  if value =s "" then fallback
  else match ParseDuration (value ++ "s") with
       | Some duration => if duration <=? 0 then fallback else duration
       | None => fallback
       end.

(** The digits after the sign; what follows them is not looked at. *)
Definition scan_d (neg : bool) (l : list ascii) : option Z :=
  match digits1 0 l with
  | None => None
  | Some (n, _, _) =>
      let n := Z.of_N n in
      let z := if neg then - n else n in
      if (min_int64 <=? z) && (z <=? max_int64) then Some z else None
  end.

(** [fmt.Sscanf(value, "%d", &parsed)] of a value that does not start with a
    space. *)
Definition Sscanf_d (value : string) : option Z :=
  match list_ascii_of_string value with
  | "-"%char :: r => scan_d true r
  | "+"%char :: r => scan_d false r
  | l => scan_d false l
  end.

Definition envInt (key : string) (fallback : Z) : Z :=
  let value := TrimSpace (getenv key) in
  if value =s "" then fallback
  else match Sscanf_d value with
       | Some parsed => if parsed <=? 0 then fallback else parsed
       | None => fallback
       end.

(** [ConfigFromEnv] *)
Definition ConfigFromEnv : AudioForward.Config :=
  AudioForward.mkConfig
    (envDuration "ENCODER_AUDIO_TIMEOUT_SEC" (5 * Second))
    (envInt "ENCODER_AUDIO_RETRY_MAX" 3)
    (envDuration "ENCODER_AUDIO_RETRY_BASE_DELAY_SEC" Second).
End Audio.
End Audio.

(** ** [internal/worker/client.go] *)

Module Worker.
Section Worker.
Context (getenv : environ).

(** A duration, or a number of seconds. *)
Definition envDuration (key : string) (fallback : Duration) : Duration :=
  let value := TrimSpace (getenv key) in
  if value =s "" then fallback
  else
    let duration :=
      match ParseDuration value with Some d => Some d | None => ParseDuration (value ++ "s") end in
    match duration with
    | Some d => if d <=? 0 then fallback else d
    | None => fallback
    end.

(** [ConfigFromEnv]: the address and the token come with each job. *)
Definition ConfigFromEnv : WorkerClient.Config :=
  WorkerClient.mkConfig "" ""
    (envDuration "DISCORD_WORKER_EVENT_TIMEOUT_SEC" (envDuration "WORKER_EVENT_TIMEOUT_SEC" (3 * Second)))
    (Some WorkerClient.defaultRetryDelays).

Definition Enabled (c : WorkerClient.Config) : bool :=
  negb (blank (WorkerClient.cfURL c)) && negb (blank (WorkerClient.cfToken c)).
End Worker.
End Worker.

(** ** What is read *)

Lemma positive_or {A} (o : option A) (P : A -> bool) (Q : A -> Prop) fallback :
  Q fallback -> (forall a, o = Some a -> P a = false -> Q a) ->
  Q (match o with Some a => if P a then fallback else a | None => fallback end).
Proof. intros Hf Ha. destruct o as [a|]; [|done]. destruct (P a) eqn:E; [done|]. by apply Ha. Qed.

Definition positive (d : Z) : Prop := 0 < d <= max_int64.

Lemma parsed_positive s d : ParseDuration s = Some d -> (d <=? 0) = false -> positive d.
Proof. intros Hp%ParseDuration_range Hd%Z.leb_gt. split; [done|]. lia. Qed.

Lemma atoi_range s z : Durations.Atoi s = Some z -> min_int64 <= z <= max_int64.
Proof.
  assert (forall n z, (if (min_int64 <=? n) && (n <=? max_int64) then Some n else None) = Some z ->
    min_int64 <= z <= max_int64) as Hfit.
  { intros n z'. case_match; [|done]. intros [= <-]. by bool_hyps. }
  assert (forall l z, (n ← all_digits l; if (min_int64 <=? n) && (n <=? max_int64) then Some n else None) = Some z ->
    min_int64 <= z <= max_int64) as Hpos.
  { intros l z'. destruct (all_digits l); [apply Hfit|done]. }
  unfold Durations.Atoi. destruct (list_ascii_of_string s) as [|c r]; [apply Hpos|].
  destruct c as [[] [] [] [] [] [] [] []]; try apply Hpos.
  destruct (all_digits r); [apply Hfit|done].
Qed.

Lemma control_duration_positive getenv key fallback :
  positive fallback -> positive (Control.envDuration getenv key fallback).
Proof.
  intros Hf. unfold Control.envDuration. cbv zeta. case_match; [done|].
  apply positive_or; [done|]. intros d. apply parsed_positive.
Qed.

Lemma audio_duration_positive getenv key fallback :
  positive fallback -> positive (Audio.envDuration getenv key fallback).
Proof.
  intros Hf. unfold Audio.envDuration. cbv zeta. case_match; [done|].
  apply positive_or; [done|]. intros d. apply parsed_positive.
Qed.

Lemma worker_duration_positive getenv key fallback :
  positive fallback -> positive (Worker.envDuration getenv key fallback).
Proof.
  intros Hf. unfold Worker.envDuration. cbv zeta. case_match; [done|].
  apply positive_or; [done|]. intros d. case_match eqn:E; [intros [= <-]|]; by eapply parsed_positive.
Qed.

Lemma scan_d_range neg l z : Audio.scan_d neg l = Some z -> min_int64 <= z <= max_int64.
Proof.
  unfold Audio.scan_d. destruct (digits1 0 l) as [[[n ?] ?]|]; [|done]. cbv zeta.
  destruct (_ && _) eqn:E; [|done]. intros [= <-]. by bool_hyps.
Qed.

Lemma scanned_range s z : Audio.Sscanf_d s = Some z -> min_int64 <= z <= max_int64.
Proof.
  unfold Audio.Sscanf_d. destruct (list_ascii_of_string s) as [|c r]; [apply scan_d_range|].
  destruct c as [[] [] [] [] [] [] [] []]; apply scan_d_range.
Qed.

(** No environment makes an interval or a limit that the process cannot work
    with. Whatever the variables hold, every ticker and timeout made of them is
    positive and fits an [int64] ([time.NewTicker] panics on what is not
    positive): the refresh of the runtime configuration, the heartbeat, the wait
    between registrations, the audio request and its retries, and the Worker
    request; an audio request is attempted at least once, a reconnect policy
    allows at least one attempt, and its delays are not negative. *)
Theorem intervals_positive `{ParseListener} getenv Version env :
  let control := Control.ConfigFromEnv getenv Version env in
  let audio := Audio.ConfigFromEnv getenv in
  let policy := Main.reconnectPolicyFromEnv getenv in
  positive (Main.refresh_interval getenv) /\
  positive (Control.heartbeat_interval control) /\
  positive (Control.controlPanelRegistrationInterval control) /\
  positive (AudioForward.cfTimeout audio) /\ positive (AudioForward.cfRetryMax audio) /\
  positive (AudioForward.cfRetryBaseDelay audio) /\
  positive (WorkerClient.cfTimeout (Worker.ConfigFromEnv getenv)) /\
  positive (rpMaxAttempts policy) /\
  0 <= rpBaseDelay policy <= max_int64 /\ 0 <= rpMaxDelay policy <= max_int64.
Proof.
  assert (forall z, 0 < z <= 1000 * Second -> positive z) as Hsmall by (intros z Hz; split; [|zconst; unfold Second in *]; lia).
  assert (positive (Control.ccHeartbeatEvery (Control.ConfigFromEnv getenv Version env))) as Hh
    by (apply control_duration_positive, Hsmall; unfold Second; lia).
  assert (forall key fallback, 0 <= fallback <= max_int64 ->
    0 <= Main.envDurationDefault getenv key fallback <= max_int64) as Hd.
  { intros key fallback Hf. unfold Main.envDurationDefault. cbv zeta. case_match; [done|].
    apply (positive_or _ _ (fun z => 0 <= z <= max_int64)); [done|].
    intros d Hp%ParseDuration_range Hd%Z.ltb_ge. lia. }
  cbv zeta.
  refine (conj _ (conj _ (conj _ (conj _ (conj _ (conj _ (conj _ (conj _ (conj _ _))))))))).
  - unfold Main.refresh_interval. cbv zeta. case_match eqn:E; [apply Hsmall; unfold Second; lia|].
    apply Z.leb_gt in E. split; [done|]. apply Hd. zconst. unfold Second. lia.
  - unfold Control.heartbeat_interval. destruct (_ <=? _); [apply Hsmall; unfold Second; lia|done].
  - unfold Control.controlPanelRegistrationInterval. destruct (_ && _); [done|apply Hsmall; unfold Second; lia].
  - apply audio_duration_positive, Hsmall. unfold Second. lia.
  - unfold Audio.ConfigFromEnv, Audio.envInt; cbn [AudioForward.cfRetryMax]. cbv zeta. case_match; [apply Hsmall; unfold Second; lia|].
    apply positive_or; [apply Hsmall; unfold Second; lia|].
    intros z Hz%scanned_range Hp%Z.leb_gt. split; [done|]. lia.
  - apply audio_duration_positive, Hsmall. unfold Second. lia.
  - apply worker_duration_positive, worker_duration_positive, Hsmall. unfold Second. lia.
  - unfold Main.reconnectPolicyFromEnv, Main.envIntDefault; cbn [rpMaxAttempts]. cbv zeta. case_match; [apply Hsmall; unfold Second; lia|].
    apply positive_or; [apply Hsmall; unfold Second; lia|].
    intros z Hz%atoi_range Hp%Z.leb_gt. split; [done|]. lia.
  - apply Hd. zconst. unfold Second. lia.
  - apply Hd. zconst. unfold Second. lia.
Qed.

(** A number of seconds is read exactly. A variable of the control client
    that holds a plain decimal number gives that many seconds when they are
    positive and fit an [int64], and the default otherwise. *)
Theorem seconds_read getenv key fallback n :
  TrimSpace (getenv key) = with_unit n "" ->
  Control.envDuration getenv key fallback =
  if (0 <? Z.of_N n) && (Z.of_N n * Second <=? max_int64) then Z.of_N n * Second else fallback.
Proof.
  intros Hkey. unfold Control.envDuration. cbv zeta. rewrite Hkey.
  assert (with_unit n "" <> "") as Hne.
  { unfold with_unit. destruct (print_N_digit_head n) as (c & r & -> & _). discriminate. }
  rewrite (proj2 (seqb_neq _ _) Hne).
  replace (with_unit n "" ++ "s") with (with_unit n "s").
  2:{ unfold with_unit. rewrite app_nil_r. generalize (print_N n). intros l.
      induction l as [|c l IH]; [done|]. cbn. apply (f_equal (String c)), IH. }
  rewrite (ParseDuration_whole n "s" Second eq_refl).
  destruct (Z.of_N n * Second <=? max_int64); [|by rewrite andb_false_r].
  rewrite andb_true_r. unfold Second.
  destruct (Z.leb_spec (Z.of_N n * 1000000000) 0), (Z.ltb_spec 0 (Z.of_N n)); done || lia.
Qed.

Module Sample.
Definition getenv (key : string) : string :=
  if key =s "CONTROL_PANEL_HEARTBEAT_INTERVAL_SEC" then " 45 " else
  if key =s "ENCODER_AUDIO_RETRY_MAX" then "4 times" else "".

Lemma seconds_read_witness :
  TrimSpace (getenv "CONTROL_PANEL_HEARTBEAT_INTERVAL_SEC") = with_unit 45 "" /\
  Control.envDuration getenv "CONTROL_PANEL_HEARTBEAT_INTERVAL_SEC" (30 * Second) = 45 * Second.
Proof.
  assert (TrimSpace (getenv "CONTROL_PANEL_HEARTBEAT_INTERVAL_SEC") = with_unit 45 "") as H
    by (vm_compute; reflexivity).
  split; [exact H|].
  exact (seconds_read getenv "CONTROL_PANEL_HEARTBEAT_INTERVAL_SEC" (30 * Second) 45 H).
Defined.

Example audio_retries : AudioForward.cfRetryMax (Audio.ConfigFromEnv getenv) = 4.
Proof. vm_compute. reflexivity. Qed.
End Sample.
