(* ===== verification/MainConfig.v ===== *)
(** * MainConfig: what [main] makes of its configuration

    The part of [cmd/discord-bot/main.go] that reads the listener address, the
    reconnect policy of a runtime profile and the identity of the node, and that
    hands a runtime configuration to the job manager. *)

From Stdlib Require Import SpecFloat.
From S2P Require Import Prelude Conc Errors Types RuntimeConfig Authority Gateway Manager.
From S2P Require Import Lifecycle VoiceDefaults Json Floats NodeConfig Durations Settings UpdaterIdentity.

Open Scope go_scope.

(** ** The address of the listener *)

(** [net.SplitHostPort] *)
Fixpoint index_byte (c : ascii) (l : list ascii) : option nat :=
  match l with
  | [] => None
  | a :: r => if Ascii.eqb a c then Some 0%nat else S <$> index_byte c r
  end.

Fixpoint last_index_byte (c : ascii) (l : list ascii) : option nat :=
  match l with
  | [] => None
  | a :: r =>
      match last_index_byte c r with
      | Some i => Some (S i)
      | None => if Ascii.eqb a c then Some 0%nat else None
      end
  end.

Definition has_byte (c : ascii) (l : list ascii) : bool := bool_decide (is_Some (index_byte c l)).

(** The host, and the positions before which there can be no bracket. *)
Definition split_host (l : list ascii) (i : nat) : option (list ascii * nat * nat) :=
  match l with
  | "["%char :: _ =>
      match index_byte "]" l with
      | None => None
      | Some e => if Nat.eqb (S e) i then Some (take (e - 1) (drop 1 l), 1%nat, S e) else None
      end
  | _ => if has_byte ":" (take i l) then None else Some (take i l, 0%nat, 0%nat)
  end.

Definition SplitHostPort (hostport : string) : option (string * string) :=
  let l := list_ascii_of_string hostport in
  match last_index_byte ":" l with
  | None => None
  | Some i =>
      match split_host l i with
      | None => None
      | Some (host, j, k) =>
          if has_byte "[" (drop j l) || has_byte "]" (drop k l) then None
          else Some (string_of_list_ascii host, string_of_list_ascii (drop (S i) l))
      end
  end.

(** Why an address is refused. *)
Inductive addr_error :=
| AddrRequired
| AddrHostPort
| AddrPortText
| AddrPortRange (port : Z).

Definition discordBotBindAddr (configured : string) : string + addr_error :=
  let addr := TrimSpace configured in
  if addr =s "" then inr AddrRequired
  else
    match SplitHostPort addr with
    | None => inr AddrHostPort
    | Some (_, portText) =>
        match Durations.Atoi portText with
        | None => inr AddrPortText
        | Some port =>
            if (port <? 1024) || (65535 <? port) then inr (AddrPortRange port) else inl addr
        end
    end.

(** The text of the error is prefixed; the address is passed on. *)
Definition discordBotStartupAddr (configured : string) : string + addr_error :=
  match discordBotBindAddr configured with
  | inr err => inr err
  | inl addr => inl addr
  end.

(** ** The reconnect policy of a profile *)

Section Profile.
Context `{FloatConversion}.

(** [encoding/json] makes no [int] values, so that case of the code is dead. *)
Definition intConfig (config : gmap string config_any) (key : string) : option Z :=
  match config !! key with
  | Some (AnyNumber x) => Some (int_of_float x)
  | Some (AnyString s) => Durations.Atoi (TrimSpace s)
  | _ => None
  end.

Definition durationConfig (config : gmap string config_any) (key : string) : option Duration :=
  let value := TrimSpace (stringConfig config key) in
  if value <>s "" then ParseDuration (TrimSpace value)
  else
    match intConfig config (key ++ "_sec") with
    | Some seconds => Some (wrap64 (seconds * Second))
    | None => None
    end.

Definition reconnectPolicyFromRuntimeConfig (cfg : RuntimeConfig) (fallback : ReconnectPolicy)
    : ReconnectPolicy :=
  match firstRuntimeProfileForService (discord_profiles cfg) (rsServiceID (rcService cfg)) with
  | None => fallback
  | Some profile =>
      let config := rpConfig profile in
      mkPolicy
        (default (rpEnabled fallback) (boolConfig config "reconnect_enabled"))
        (default (rpMaxAttempts fallback) (intConfig config "reconnect_max_attempts"))
        (default (rpBaseDelay fallback) (durationConfig config "reconnect_base_delay"))
        (default (rpMaxDelay fallback) (durationConfig config "reconnect_max_delay"))
  end.

(** ** Handing a configuration to the manager *)

Section Apply.
Context `{MapRange}.

(** While a job is active the waiting monitor only describes executing streams. *)
Definition monitor_active (cfg : RuntimeConfig) : RuntimeConfig :=
  match rcDiscordWaitingMonitor cfg with
  | None => cfg
  | Some m =>
      mkRuntimeConfig (rcService cfg) (rcAssignments cfg) (rcProfiles cfg)
        (rcStreamDiscordConfigs cfg) (rcCurrentDiscordBindings cfg)
        (rcCurrentDiscordBindingsPresent cfg)
        (Some (mkMonitor (wmVersion m) true (wmAvailabilityCode m) (wmBindings m)))
        (rcDiscordWaitingMonitorPresent cfg)
  end.

Definition applyRuntimeConfigToManager (cfg : RuntimeConfig) (baseReconnectPolicy : ReconnectPolicy)
    : mprog ReconnectPolicy :=
  do* modify (SetExecutionAuthorityStreams (primaryDiscordAssignmentStreams cfg).1) in
  let* active :=
    match rcDiscordWaitingMonitor cfg with
    | None => ret false
    | Some _ => let* current := read CurrentStreamID in ret (current <>s "")
    end in
  let cfg := if active then monitor_active cfg else cfg in
  do* SetStreamVoiceDefaults (default ∅ (streamDiscordDefaultsFromRuntimeConfig cfg)) in
  let reconnectPolicy := reconnectPolicyFromRuntimeConfig cfg baseReconnectPolicy in
  do* modify (SetReconnectPolicy reconnectPolicy) in
  ret reconnectPolicy.
End Apply.
End Profile.

(** ** The identity of the node *)

Section Identity.
Context {E : Type -> Type} {L M : Type}.
Context (nodeConfigPending : E bool) (configFromEnv : E Config).

Definition requireMatchingUpdaterIdentity (serviceID : string)
    : prog UpdaterIdentityLatch E L M (option error) :=
  let* resolved := ResolveFromEnv nodeConfigPending configFromEnv in
  match resolved with
  | inr err => Ret (Some err)
  | inl identity =>
      Ret (if TrimSpace serviceID <>s uiServiceID identity
           then Some (driftError "control client service id does not match the updater identity")
           else None)
  end.
End Identity.

(** ** Facts about addresses *)

(** [net.JoinHostPort] *)
Definition JoinHostPort (host port : string) : string :=
  if has_byte ":" (list_ascii_of_string host) then "[" ++ host ++ "]:" ++ port else host ++ ":" ++ port.

Lemma has_byte_false c l : has_byte c l = false <-> c ∉ l.
Proof.
  unfold has_byte. rewrite bool_decide_eq_false. induction l as [|a l IH]; cbn [index_byte].
  - split; [intros _; apply not_elem_of_nil|by intros _ []].
  - rewrite not_elem_of_cons, <- IH. destruct (Ascii.eqb_spec a c) as [->|Hne].
    + split; [intros []; by eexists|by intros []].
    + rewrite fmap_is_Some. naive_solver.
Qed.

Lemma last_index_byte_app c l r : c ∉ r -> last_index_byte c (l ++ c :: r) = Some (length l).
Proof.
  intros Hr. assert (last_index_byte c r = None) as Hn.
  { induction r as [|a r IH]; cbn [last_index_byte]; [done|]. apply not_elem_of_cons in Hr as [Hne Hr].
    rewrite IH by done. by destruct (Ascii.eqb_spec a c). }
  induction l as [|a l IH]; cbn [last_index_byte app length].
  - by rewrite Hn, Ascii.eqb_refl.
  - by rewrite IH.
Qed.

Lemma index_byte_app c l r : c ∉ l -> index_byte c (l ++ c :: r) = Some (length l).
Proof.
  induction l as [|a l IH]; cbn [index_byte app length]; [by rewrite Ascii.eqb_refl|].
  intros [Hne Hl]%not_elem_of_cons. destruct (Ascii.eqb_spec a c) as [->|]; [done|]. by rewrite IH.
Qed.

(** What a host and a port may not contain. *)
Definition plain_host (host : string) : Prop :=
  ("["%char ∉ list_ascii_of_string host) /\ ("]"%char ∉ list_ascii_of_string host).
Definition plain_port (port : string) : Prop :=
  (":"%char ∉ list_ascii_of_string port) /\ plain_host port.

(** The number of a digit is no sign, bracket or colon. *)
Lemma print_N_digits n c : c ∈ print_N n -> is_Some (digit_value c).
Proof.
  intros Hin. pose proof (take_digits_print n [] I) as Ht. rewrite app_nil_r in Ht.
  assert (forall l k m, take_digits k l = (m, []) -> forall c, c ∈ l -> is_Some (digit_value c)) as Hall; [|by eapply Hall].
  clear. induction l as [|a l IH]; cbn [take_digits]; intros k m; [by intros _ c ?%elem_of_nil|].
  destruct (digit_value a) as [d|] eqn:E; [|done]. intros Ht c [->|Hc]%elem_of_cons; [by eexists|by eapply IH].
Qed.

Lemma port_text n : plain_port (string_of_list_ascii (print_N n)).
Proof.
  unfold plain_port, plain_host. rewrite list_ascii_of_string_of_list_ascii.
  split_and!; (intros Hin; destruct (print_N_digits _ _ Hin) as [d Hd]; discriminate Hd).
Qed.

Lemma Atoi_print n :
  Durations.Atoi (string_of_list_ascii (print_N n)) = if Z.of_N n <=? max_int64 then Some (Z.of_N n) else None.
Proof.
  unfold Durations.Atoi. rewrite list_ascii_of_string_of_list_ascii.
  destruct (print_N_digit_head n) as (c & r & Ec & [d Hd]).
  assert (all_digits (print_N n) = Some (Z.of_N n)) as Ha.
  { unfold all_digits. rewrite Ec, <- Ec. pose proof (take_digits_print n [] I) as Ht.
    rewrite app_nil_r in Ht. by rewrite Ht. }
  rewrite Ec in Ha |- *.
  replace (match c with "-"%char => _ | "+"%char => _ | _ => _ end) with
    (n ← all_digits (c :: r); if (min_int64 <=? n) && (n <=? max_int64) then Some n else None)
    by (by destruct c as [[] [] [] [] [] [] [] []]).
  rewrite Ha. cbn. rewrite (proj2 (Z.leb_le _ _)) by (zconst; lia). done.
Qed.

(** Joining and splitting are inverse. *)
Lemma SplitHostPort_join host port :
  plain_host host -> plain_port port -> SplitHostPort (JoinHostPort host port) = Some (host, port).
Proof.
  intros [Hh1 Hh2] (Hp0 & Hp1 & Hp2). unfold SplitHostPort, JoinHostPort.
  set (h := list_ascii_of_string host) in *. set (p := list_ascii_of_string port) in *.
  destruct (has_byte ":" h) eqn:Ec.
  - rewrite !list_ascii_app. fold h p. cbn [list_ascii_of_string app].
    replace ("[" :: h ++ "]" :: ":" :: p)%char%list with (("[" :: h ++ ["]"]) ++ ":" :: p)%char%list
      by (cbn; by rewrite <- app_assoc).
    rewrite (last_index_byte_app _ _ _ Hp0). cbn [app length split_host].
    assert (index_byte "]" ("["%char :: (h ++ ["]"]) ++ ":" :: p)%char = Some (S (length h))) as Hi.
    { rewrite <- app_assoc. cbn [app]. apply (index_byte_app _ ("["%char :: h)).
      by apply not_elem_of_cons. }
    rewrite Hi, length_app, Nat.add_1_r, Nat.eqb_refl. cbn [drop Nat.sub].
    rewrite Nat.sub_0_r, !drop_0, <- app_assoc, take_app_length. cbn [app].
    rewrite (proj2 (has_byte_false "[" _)).
    2:{ rewrite elem_of_app, !elem_of_cons. naive_solver. }
    rewrite (proj2 (has_byte_false "]" _)).
    2:{ rewrite drop_app_ge by (simpl; lia). replace (S (length h) - length h)%nat with 1%nat by lia.
        cbn [drop]. rewrite elem_of_cons. naive_solver. }
    cbn [orb]. do 2 f_equal; [apply string_of_list_ascii_of_string|].
    rewrite drop_app_ge by (simpl; lia). replace (S (S (length h)) - length h)%nat with 2%nat by lia.
    apply string_of_list_ascii_of_string.
  - rewrite !list_ascii_app. fold h p. cbn [list_ascii_of_string app].
    rewrite (last_index_byte_app _ _ _ Hp0).
    replace (split_host (h ++ ":"%char :: p) (length h)) with (Some (h, 0%nat, 0%nat)).
    2:{ unfold split_host. rewrite take_app_length, Ec. destruct h as [|c h]; [done|].
        apply not_elem_of_cons in Hh1 as [Hne _]. by destruct c as [[] [] [] [] [] [] [] []]. }
    rewrite !drop_0, (proj2 (has_byte_false "[" _)), (proj2 (has_byte_false "]" _)).
    2,3: rewrite elem_of_app, elem_of_cons; naive_solver.
    cbn [orb]. do 2 f_equal; [apply string_of_list_ascii_of_string|].
    rewrite drop_app_ge by lia. replace (S (length h) - length h)%nat with 1%nat by lia.
    apply string_of_list_ascii_of_string.
Qed.

(** The listener takes the addresses it should. For every host, IPv6 hosts
    included, and every port number, the text [net.JoinHostPort] makes of them is
    accepted as it is when the port is between 1024 and 65535 and refused with
    that port otherwise. *)
Theorem bind_addr_accepted host n :
  let addr := JoinHostPort host (string_of_list_ascii (print_N n)) in
  plain_host host -> trimmed addr -> Z.of_N n <= max_int64 ->
  discordBotStartupAddr addr =
  if (1024 <=? Z.of_N n) && (Z.of_N n <=? 65535) then inl addr else inr (AddrPortRange (Z.of_N n)).
Proof.
  cbv zeta. intros Hh Ht Hn. unfold discordBotStartupAddr, discordBotBindAddr.
  rewrite Ht, (SplitHostPort_join _ _ Hh (port_text n)), Atoi_print.
  assert (JoinHostPort host (string_of_list_ascii (print_N n)) <> "") as Hne.
  { unfold JoinHostPort. case_match; [discriminate|]. by destruct host. }
  rewrite (proj2 (seqb_neq _ _) Hne), (proj2 (Z.leb_le _ _) Hn).
  destruct (Z.ltb_spec (Z.of_N n) 1024), (Z.ltb_spec 65535 (Z.of_N n)),
    (Z.leb_spec 1024 (Z.of_N n)), (Z.leb_spec (Z.of_N n) 65535); done || lia.
Qed.

(** ** Facts about the reconnect policy *)

Section PolicyFacts.
Context `{FloatConversion}.

Definition fits64 (z : Z) : Prop := min_int64 <= z <= max_int64.

Definition policy_fits (p : ReconnectPolicy) : Prop :=
  fits64 (rpMaxAttempts p) /\ fits64 (rpBaseDelay p) /\ fits64 (rpMaxDelay p).

Lemma intConfig_fits config key z : intConfig config key = Some z -> fits64 z.
Proof.
  unfold intConfig. destruct (config !! key) as [[s|b|x|]|]; try done; [apply atoi_range|].
  intros [= <-]. unfold int_of_float. destruct (float_int x); [|apply int_overflow_range].
  destruct (_ && _) eqn:E; [|apply int_overflow_range]. by bool_hyps.
Qed.

Lemma durationConfig_fits config key d : durationConfig config key = Some d -> fits64 d.
Proof.
  unfold durationConfig. cbv zeta. destruct (_ <>s _); [apply ParseDuration_range|].
  destruct (intConfig _ _); [|done]. intros [= <-]. apply wrap64_range.
Qed.

Lemma profile_policy_fits cfg base : policy_fits base -> policy_fits (reconnectPolicyFromRuntimeConfig cfg base).
Proof.
  intros (Ha & Hb & Hm). unfold reconnectPolicyFromRuntimeConfig.
  destruct (firstRuntimeProfileForService _ _) as [p|]; [|by split_and!]. cbv zeta.
  split_and!; cbn [rpMaxAttempts rpBaseDelay rpMaxDelay];
    match goal with |- fits64 (default _ ?o) => destruct o eqn:E; cbn [default] end; try done;
    (by eapply intConfig_fits) || (by eapply durationConfig_fits).
Qed.

(** What the manager makes of any policy. *)
Definition sane (p : ReconnectPolicy) : Prop :=
  1 <= rpMaxAttempts p <= max_int64 /\ 0 <= rpBaseDelay p <= max_int64 /\
  0 < rpMaxDelay p <= max_int64.

Lemma normalised_sane p m : policy_fits p -> sane (mReconnectPolicy (SetReconnectPolicy p m)).
Proof.
  unfold policy_fits, sane, fits64, SetReconnectPolicy, Second; simpl. zconst.
  destruct (Z.leb_spec (rpMaxAttempts p) 0), (Z.ltb_spec (rpBaseDelay p) 0), (Z.leb_spec (rpMaxDelay p) 0);
    lia.
Qed.

Lemma monitor_active_profiles cfg base :
  reconnectPolicyFromRuntimeConfig (monitor_active cfg) base = reconnectPolicyFromRuntimeConfig cfg base.
Proof. unfold monitor_active. by destruct (rcDiscordWaitingMonitor cfg). Qed.

(** No runtime configuration gives the manager a reconnect policy it cannot
    work with. Whatever a profile holds (numbers beyond [int64], fractions,
    negative or overflowing seconds, texts that are no durations), the policy
    applied is the profile's over the base, and in force afterwards is its
    normal form: at least one attempt, a base delay that is not negative, a
    positive maximum, all of them [int64] values. *)
Theorem reconnect_policy_in_force `{MapRange} en cfg base k m :
  policy_fits base ->
  let '(policy, m', _) := run en (applyRuntimeConfigToManager cfg base) k m in
  policy = reconnectPolicyFromRuntimeConfig cfg base /\
  mReconnectPolicy m' = mReconnectPolicy (SetReconnectPolicy policy m) /\ sane (mReconnectPolicy m').
Proof.
  intros Hbase. unfold applyRuntimeConfigToManager. cbn [bind modify run].
  rewrite run_bind. destruct (run en _ k _) as [[active m1] tr1].
  assert (forall c : bool, reconnectPolicyFromRuntimeConfig (if c then monitor_active cfg else cfg) base
    = reconnectPolicyFromRuntimeConfig cfg base) as Hp by (intros []; [apply monitor_active_profiles|done]).
  cbv zeta. rewrite run_bind. destruct (run en (SetStreamVoiceDefaults _) _ m1) as [[[] m2] tr2].
  cbn [bind modify run fst snd]. rewrite Hp. split; [done|]. split; [done|].
  by apply (normalised_sane _ m2), profile_policy_fits.
Qed.
End PolicyFacts.

(** ** Witnesses *)
Module Sample.
#[local] Existing Instance canonical_range.

Lemma bind_addr_accepted_witness :
  discordBotStartupAddr "[::1]:9090" = inl "[::1]:9090" /\
  discordBotStartupAddr "0.0.0.0:80" = inr (AddrPortRange 80).
Proof.
  pose proof (bind_addr_accepted "::1" 9090) as H1. pose proof (bind_addr_accepted "0.0.0.0" 80) as H2.
  split.
  - apply H1; [split; apply (bool_decide_eq_true_1 _); reflexivity|reflexivity|vm_compute; congruence].
  - apply H2; [split; apply (bool_decide_eq_true_1 _); reflexivity|reflexivity|vm_compute; congruence].
Defined.

(** The conversion of amd64. *)
#[local] Instance amd64 : FloatConversion.
Proof. refine (Build_FloatConversion (fun _ => min_int64) _). intros _. zconst. lia. Defined.

(** 10^10 seconds do not fit a [time.Duration]; the product wraps around. *)
Definition profile : RuntimeProfile :=
  mkProfile "p" "discord_config" "Discord"
    (<["reconnect_max_attempts" := AnyNumber (float64 (-2))]>
      (<["reconnect_base_delay_sec" := AnyString "10000000000"]>
        (<["reconnect_max_delay" := AnyString "1m"]> ∅))) 0 0.

Definition cfg : RuntimeConfig :=
  mkRuntimeConfig (mkService "bot" "discord_bot" "") [] {["discord_config" := [profile]]} [] None false None false.

Definition m0 : Manager := NewManagerWithReporter (mkVoiceCaps true true true) None 0.

Definition en : env Manager ExtCall := Build_env (fun X _ e s => (accept_all X e, s)) (fun _ _ _ s => (false, s)).

Lemma reconnect_policy_in_force_witness :
  reconnectPolicyFromRuntimeConfig cfg (mkPolicy true 5 Second 0)
    = mkPolicy true (-2) (-8446744073709551616) Minute /\
  sane (mReconnectPolicy (run en (applyRuntimeConfigToManager cfg (mkPolicy true 5 Second 0)) 0 m0).1.2).
Proof.
  split; [vm_compute; reflexivity|].
  assert (policy_fits (mkPolicy true 5 Second 0)) as Hb
    by (unfold policy_fits, fits64, Second; cbn; zconst; lia).
  pose proof (reconnect_policy_in_force en cfg (mkPolicy true 5 Second 0) 0 m0 Hb) as Ht.
  destruct (run en (applyRuntimeConfigToManager cfg (mkPolicy true 5 Second 0)) 0 m0) as [[policy m'] tr].
  apply Ht.
Defined.
End Sample.
