(* ===== verification/HttpApi.v ===== *)
(** * HttpApi: the control API of the bot

    [internal/httpapi/server.go] and [Manager.Status] of
    [internal/jobs/status.go]: the bearer token, the handlers over the job
    manager, and the answers they give; [Router] dispatches to them.  A handler
    is a program whose calls are the methods of the manager, the runtime-config
    provider and the environment; its state is the updater identity latch. *)

From S2P Require Import Prelude Conc Errors Types Manager RuntimeConfig Notification DiscordClient.
From S2P Require Import Urls Json StartRequest NodeConfig UpdaterIdentity.
From S2P Require Lifecycle.

Open Scope go_scope.

(** ** The bearer token *)

Record TokenVerifier := mkVerifier { tvPlainToken : string; tvSHA256Hex : string }.

(** [sha256.Sum256] in hexadecimal. *)
Class SHA256 := sha256_hex : string -> string.

(** [TokenVerifierFromEnv]: the two variables and the token of the node config. *)
Definition TokenVerifierFromEnv `{SHA256} (plain sha nodeToken : string) : TokenVerifier :=
  if (plain =s "") && (sha =s "") && (nodeToken <>s "") then mkVerifier plain (sha256_hex nodeToken)
  else mkVerifier plain sha.

Fixpoint string_drop (n : nat) (s : string) : string :=
  match n, s with
  | S n, String _ r => string_drop n r
  | _, _ => s
  end.

(** [Verify] of an Authorization header; [nodeToken] is what
    [control.NodeRuntimeTokenFromEnv] answers. *)
Definition Verify `{SHA256} (v : TokenVerifier) (nodeToken header : string) : bool :=
  if negb (HasPrefix header "Bearer ") then false
  else
    let token := TrimSpace (string_drop 7 header) in
    if token =s "" then false
    else if tvSHA256Hex v <>s "" then sha256_hex token =s ToLower (tvSHA256Hex v)
    else if tvPlainToken v <>s "" then token =s tvPlainToken v
    else if nodeToken <>s "" then token =s nodeToken
    else false.

(** ** The status of the manager *)

(** [jobs.Status]; its metrics are [Metrics] of [NodeReports]. *)
Record JobStatus := mkJobStatus {
  jsCurrentJob : option VoiceJob;
  jsCurrentStreamID : string;
  jsStartedAt : option Time;
  jsDiscord : Status;
  jsParticipantCount : Z;
  jsActiveSpeakerID : string;
  jsLastEventAt : option Time }.

(** [Manager.Status]: the addresses and tokens of the job are left out. *)
Definition ManagerStatus (discord : Status) (m : Manager) : JobStatus :=
  let active := jStreamID (mCurrent m) <>s "" in
  mkJobStatus
    (if active then
       Some ((mCurrent m) <| jEncoderAudioURL := "" |> <| jCaptionAudioURL := "" |>
               <| jCaptionAudioToken := "" |> <| jStreamIngestToken := "" |>
               <| jWorkerEventsURL := "" |> <| jWorkerEventsToken := "" |>)
     else None)
    (if active then jStreamID (mCurrent m) else "")
    (if active then Some (mStartedAt m) else None)
    discord
    (Z.of_nat (size (mParticipants m)))
    (mActiveSpeaker m)
    (if IsZero (mLastEventAt m) then None else Some (mLastEventAt m)).

(** [publicJobStatusResponse], [publicJobStatus] *)
Record publicJobStatusResponse := mkPublicStatus {
  pjCurrentJob : option string;  (* the stream id, all that [publicVoiceJob] has *)
  pjCurrentStreamID : string;
  pjStartedAt : option Time;
  pjDiscord : Status;
  pjParticipantCount : Z;
  pjActiveSpeakerID : string;
  pjLastEventAt : option Time }.

Definition publicJobStatus (status : JobStatus) : publicJobStatusResponse :=
  mkPublicStatus (jStreamID <$> jsCurrentJob status) (jsCurrentStreamID status) (jsStartedAt status)
    ((jsDiscord status) <| suCurrentGuildID := "" |> <| suCurrentVoiceID := "" |>)
    (jsParticipantCount status) (jsActiveSpeakerID status) (jsLastEventAt status).

(** ** Answers *)

Inductive response_body :=
| BodyCode (code : string)                      (* {"code": ...} *)
| BodyError (code message : string)             (* {"code": ..., "message": ...} *)
| BodyNotificationError (code message : string) (retryable : bool)
| BodyStatus (status : string)                  (* {"status": ...} *)
| BodyJob (status : publicJobStatusResponse)
| BodyService (serviceType serviceID : string) (job : publicJobStatusResponse)
| BodyVersion (identity : UpdaterIdentity)
| BodyParticipants (participants : list Participant)
| BodyNotification (messageID : string) (alreadySent : bool).

Record response := mkResponse {
  rsStatus : Z;
  rsRetryAfter : option Z;  (* the Retry-After header *)
  rsBody : response_body }.

(** [writeJSON] *)
Definition writeJSON (status : Z) (body : response_body) : response := mkResponse status None body.

Definition unauthorized : response := writeJSON 401 (BodyCode "missing_or_invalid_service_token").

Definition errBodyReadAfterClose : error := ErrNew "http: invalid Read on closed Body".
Definition errStreamNotAssignedToService : error :=
  ErrNew "stream is not assigned to this discord bot as primary".

(** [writeError]: the later tests overwrite the earlier ones. *)
Definition writeError (err : error) : response :=
  let text := Error err in
  let '(status, code) := (409, "request_failed") in
  let status := if Is err errBodyReadAfterClose then 400 else status in
  let '(status, code) := if Contains text "required" then (400, "validation_failed") else (status, code) in
  let '(status, code) :=
    if Contains text "does not match" || Contains text "already active" || Contains text "no active"
    then (409, "invalid_stream_state") else (status, code) in
  let '(status, code) :=
    if Contains text "not assigned" then (403, "stream_not_assigned_to_service") else (status, code) in
  writeJSON status (BodyError code text).

(** [securityHeaders] *)
Definition securityHeaders (path : string) : list (string * string) :=
  ((if path =s "/updater/version" then [("Cache-Control", "no-store")] else []) ++
   [("X-Content-Type-Options", "nosniff"); ("X-Frame-Options", "DENY");
    ("Referrer-Policy", "no-referrer")])%list.

(** ** Requests and calls *)

(** A request: its Authorization header, the path value [id], the body ([None]
    when reading it fails), and the node token of the environment. *)
Record Request := mkRequest {
  rqAuthorization : string;
  rqPathID : string;
  rqBody : option string;
  rqNodeToken : string }.

Inductive HttpCall : Type -> Type :=
(* the environment *)
| NodeConfigPending : HttpCall bool
| ConfigFromEnv : HttpCall NodeConfig.Config
(* the runtime-config provider *)
| FetchRuntimeConfig : HttpCall (RuntimeConfig * option error)
(* the job manager *)
| MgrStatus : HttpCall JobStatus
| MgrCurrentStreamID : HttpCall string
| MgrSetExecutionAuthorityStreams (streams : gmap string bool) : HttpCall unit
| MgrReconcileRuntimeGateway (cfg : RuntimeConfig) : HttpCall (option error)
| MgrStart (job : VoiceJob) : HttpCall (option error)
| MgrStop (streamID : string) : HttpCall (option error)
| MgrParticipants (streamID : string) : HttpCall (list Participant + error)
| MgrSetActiveSpeaker (streamID userID : string) : HttpCall (option error)
| MgrActiveLiveJobTextChannelID (streamID : string) : HttpCall (string * bool)
| MgrNotifyYouTubeLive (streamID eventID textChannelID watchURL : string) : HttpCall notify_result.

(** The mutex of [RefreshRuntimeConfig]. *)
Inductive hmutex := runtimeRefreshMu.

Abbreviation hprog := (prog UpdaterIdentityLatch HttpCall Empty_set hmutex).
Abbreviation hret := (@Ret UpdaterIdentityLatch HttpCall Empty_set hmutex _).

(** [Server]; is there a runtime-config provider? *)
Record Server := mkServer {
  svServiceType : string;
  svVerifier : TokenVerifier;
  svRuntimeConfig : bool }.

(** [decodeJSON]: the first value of at most 2^20 bytes, no unknown field. *)
Definition decodeJSON {A} (fields : list (field A)) (body : option string) (zero : A) : option A :=
  body ← body;
  let body := if (N.of_nat (strlen body) <=? 2 ^ 20)%N then body
              else string_of_list_ascii (take (N.to_nat (2 ^ 20)) (list_ascii_of_string body)) in
  v ← Decode body; decode_struct fields v zero.

Section Server.
Context `{SHA256} (sv : Server).

Definition authorized (r : Request) : bool := Verify (svVerifier sv) (rqNodeToken r) (rqAuthorization r).

Definition resolve : hprog (UpdaterIdentity + error) := ResolveFromEnv NodeConfigPending ConfigFromEnv.

Definition health : hprog response := hret (writeJSON 200 (BodyStatus "ok")).

Definition updaterVersion : hprog response :=
  let* identity := resolve in
  match identity with
  | inr err =>
      let code := if Is err ErrUpdaterIdentityPending then "updater_identity_pending"
                  else "updater_identity_invalid" in
      hret (writeJSON 503 (BodyCode code))
  | inl identity => hret (writeJSON 200 (BodyVersion identity))
  end.

Definition status : hprog response :=
  let* identity := resolve in
  let serviceID := match identity with inl identity => uiServiceID identity | inr _ => "" end in
  let* st := call MgrStatus in
  hret (writeJSON 200 (BodyService (svServiceType sv) serviceID (publicJobStatus st))).

Definition heartbeat (r : Request) : hprog response :=
  if negb (authorized r) then hret unauthorized
  else hret (writeJSON 202 (BodyStatus "accepted")).

(** ** Starting a job *)

(** The primary streams of the configuration, by exact comparison. *)
Definition primary_streams (cfg : RuntimeConfig) : gmap string bool :=
  fold_left (fun acc a =>
    if (ssServiceID a =s rsServiceID (rcService cfg)) && (ssServiceType a =s ServiceType)
       && (ssAssignmentRole a =s "primary")
    then <[ssStreamID a := true]> acc else acc) (rcAssignments cfg) ∅.

(** The target of a legacy job is filled from the configuration of its stream;
    that of a version 2 job is never touched. *)
Definition fill_target (mode : startJobRequestMode) (cfg : RuntimeConfig) (job : VoiceJob) : VoiceJob :=
  match mode with
  | startJobRequestResolvedTargetV2 => job
  | startJobRequestLegacy =>
      match DiscordConfigForStream (jStreamID job) cfg with
      | None => job
      | Some sc =>
          let job := if blank (jGuildID job) then job <| jGuildID := scGuildID sc |> else job in
          let job := if blank (jVoiceChannelID job)
                     then job <| jVoiceChannelID := scVoiceChannelID sc |> else job in
          if blank (jTextChannelID job) then job <| jTextChannelID := scTextChannelID sc |> else job
      end
  end.

(** [applyRuntimeDiscordConfig]: the job it leaves, and its error. *)
Definition applyRuntimeDiscordConfig (job : VoiceJob) (mode : startJobRequestMode)
    : hprog (VoiceJob * option error) :=
  if negb (svRuntimeConfig sv) || blank (jStreamID job) then hret (job, None)
  else
    let* fetched := call FetchRuntimeConfig in
    match fetched with
    | (_, Some err) => hret (job, Some err)
    | (cfg, None) =>
        if negb (isPrimaryDiscordAssignment cfg (jStreamID job))
        then hret (job, Some errStreamNotAssignedToService)
        else
          do* call (MgrSetExecutionAuthorityStreams (primary_streams cfg)) in
          let* err := call (MgrReconcileRuntimeGateway cfg) in
          match err with
          | Some err => hret (job, Some err)
          | None => hret (fill_target mode cfg job, None)
          end
    end.

(** The refresh of [startJob]: [runtimeErr] and [startErr]. *)
Definition start_turn (req : VoiceJob) (mode : startJobRequestMode)
    : hprog (option error * option error) :=
  let* current := call MgrCurrentStreamID in
  if (current <>s "") && (current <>s jStreamID req)
  then hret (None, Some (ErrNew "another stream job is already active"))
  else
    let* applied := applyRuntimeDiscordConfig req mode in
    match applied with
    | (_, Some err) => hret (Some err, Some err)
    | (job, None) => let* err := call (MgrStart job) in hret (None, err)
    end.

Definition startJob (r : Request) : hprog response :=
  if negb (authorized r) then hret unauthorized
  else
    match decodeStartJobRequest (rqBody r) with
    | inr code => hret (writeJSON 400 (BodyCode code))
    | inl (req, mode) =>
        if jJobGeneration req =? 0 then hret (writeJSON 400 (BodyCode "job_generation_required"))
        else
          do* lock runtimeRefreshMu in
          let* errs := start_turn req mode in
          do* unlock runtimeRefreshMu in
          match errs with
          | (Some runtimeErr, Some startErr) =>
              if negb (Is runtimeErr errStreamNotAssignedToService)
              then hret (writeJSON 502 (BodyCode "runtime_config_fetch_failed"))
              else hret (writeError startErr)
          | (None, Some startErr) => hret (writeError startErr)
          | (_, None) => let* st := call MgrStatus in hret (writeJSON 202 (BodyJob (publicJobStatus st)))
          end
    end.

(** ** The other routes of the job *)

Definition stopJob (r : Request) : hprog response :=
  if negb (authorized r) then hret unauthorized
  else
    let streamID := TrimSpace (rqPathID r) in
    let* current := call MgrCurrentStreamID in
    if current =s "" then hret (writeJSON 202 (BodyStatus "already_stopped"))
    else
      let* err := call (MgrStop streamID) in
      match err with
      | None => hret (writeJSON 202 (BodyStatus "stopped"))
      | Some err =>
          let* current := call MgrCurrentStreamID in
          if current =s "" then hret (writeJSON 202 (BodyStatus "already_stopped"))
          else hret (writeError err)
      end.

Definition participants (r : Request) : hprog response :=
  if negb (authorized r) then hret unauthorized
  else
    let* answer := call (MgrParticipants (rqPathID r)) in
    match answer with
    | inr err => hret (writeError err)
    | inl ps => hret (writeJSON 200 (BodyParticipants ps))
    end.

Definition user_fields : list (field string) :=
  [("user_id", fun v s => decode_string v s)].

Definition activeSpeaker (r : Request) : hprog response :=
  if negb (authorized r) then hret unauthorized
  else
    match decodeJSON user_fields (rqBody r) "" with
    | None => hret (writeJSON 400 (BodyCode "invalid_json"))
    | Some userID =>
        let* err := call (MgrSetActiveSpeaker (rqPathID r) userID) in
        match err with
        | Some err => hret (writeError err)
        | None => let* st := call MgrStatus in hret (writeJSON 202 (BodyJob (publicJobStatus st)))
        end
    end.
End Server.

(** ** What a start request does *)

(** The calls of a trace that [sel] selects, in order. *)
Definition selected {B} (sel : forall X, HttpCall X -> X -> option B) (tr : list (obs HttpCall Empty_set))
    : list B :=
  tr ≫= fun o => match o with OCall e x => option_list (sel _ e x) | _ => [] end.

Definition sel_start X (e : HttpCall X) : X -> option (VoiceJob * option error) :=
  match e with MgrStart job => fun err => Some (job, err) | _ => fun _ => None end.
Definition sel_fetch X (e : HttpCall X) : X -> option (RuntimeConfig * option error) :=
  match e with FetchRuntimeConfig => Some | _ => fun _ => None end.
Definition sel_reconcile X (e : HttpCall X) : X -> option (RuntimeConfig * option error) :=
  match e with MgrReconcileRuntimeGateway cfg => fun err => Some (cfg, err) | _ => fun _ => None end.
Definition sel_authority X (e : HttpCall X) : X -> option (gmap string bool) :=
  match e with MgrSetExecutionAuthorityStreams streams => fun _ => Some streams | _ => fun _ => None end.
Definition sel_current X (e : HttpCall X) : X -> option string :=
  match e with MgrCurrentStreamID => Some | _ => fun _ => None end.

Definition starts := selected sel_start.

(** A job that [Manager.Start] refuses, whatever its state: it calls nothing and
    changes nothing. *)
Definition manager_refuses `{MapRange} (job : VoiceJob) : Prop :=
  forall en k m, exists err, run en (Lifecycle.Start job) k m = (Some err, m, []).

Lemma blank_refused `{MapRange} job : blank (jStreamID job) = true -> manager_refuses job.
Proof.
  intros Hb en k m. unfold Lifecycle.Start. cbn [bind read run].
  assert (jStreamID (VoiceDefaults.ApplyVoiceDefaults job m) = jStreamID job) as -> by done.
  rewrite Hb. by eexists.
Qed.

(** Where the job a start request passes to the manager comes from.  Without a
    provider it is the decoded one.  With one, a job with a blank stream id is
    passed on as it is, and the manager refuses it; any other was checked against
    the configuration that was fetched, with which the Gateway was reconciled. *)
Definition start_source `{MapRange} (sv : Server) (req : VoiceJob) (mode : startJobRequestMode)
    (tr : list (obs HttpCall Empty_set)) (job : VoiceJob) : Prop :=
  if svRuntimeConfig sv && negb (blank (jStreamID req)) then
    exists cfg, selected sel_fetch tr = [(cfg, None)] /\
      isPrimaryDiscordAssignment cfg (jStreamID req) = true /\
      selected sel_authority tr = [primary_streams cfg] /\
      selected sel_reconcile tr = [(cfg, None)] /\ job = fill_target mode cfg req
  else job = req /\ selected sel_fetch tr = [] /\ selected sel_authority tr = [] /\
    selected sel_reconcile tr = [] /\ (svRuntimeConfig sv = true -> manager_refuses job).

Lemma selected_app {B} (sel : forall X, HttpCall X -> X -> option B) tr1 tr2 :
  selected sel (tr1 ++ tr2) = (selected sel tr1 ++ selected sel tr2)%list.
Proof. apply bind_app. Qed.

Lemma selected_call {B} (sel : forall X, HttpCall X -> X -> option B) {X} (e : HttpCall X) x tr :
  selected sel (OCall e x :: tr) = (option_list (sel _ e x) ++ selected sel tr)%list.
Proof. reflexivity. Qed.

(** The status read at the end is none of these calls. *)
Lemma selected_status {B} (sel : forall X, HttpCall X -> X -> option B) tr st :
  selected sel (tr ++ [OCall MgrStatus st]) =
  (selected sel tr ++ option_list (sel _ MgrStatus st))%list.
Proof. unfold selected. rewrite bind_app. cbn. by rewrite app_nil_r. Qed.

Lemma start_source_status `{MapRange} sv req mode tr job st :
  start_source sv req mode tr job -> start_source sv req mode (tr ++ [OCall MgrStatus st]) job.
Proof.
  unfold start_source. destruct (svRuntimeConfig sv && _).
  - intros (cfg & Hf & ? & Ha & Hr & ?). exists cfg. by rewrite !selected_status, Hf, Ha, Hr.
  - intros (? & Hf & Ha & Hr & ?). by rewrite !selected_status, Hf, Ha, Hr.
Qed.

Lemma writeError_status err : In (rsStatus (writeError err)) [400; 403; 409].
Proof. unfold writeError. repeat case_match; simplify_eq; simpl; tauto. Qed.

Lemma refused err : rsStatus (writeError err) <> 202.
Proof. pose proof (writeError_status err) as H. simpl in H. lia. Qed.

Lemma fill_target_stream mode cfg req :
  jStreamID (fill_target mode cfg req) = jStreamID req /\
  jJobGeneration (fill_target mode cfg req) = jJobGeneration req.
Proof. unfold fill_target. by repeat case_match. Qed.

Section Start.
Context `{SHA256} `{MapRange} (sv : Server) (en : env UpdaterIdentityLatch HttpCall).

(** The two errors of the refresh and the start it made. *)
Definition turn_outcome (req : VoiceJob) (mode : startJobRequestMode)
    (errs : option error * option error) (tr : list (obs HttpCall Empty_set)) : Prop :=
  (starts tr = [] /\ errs.2 <> None) \/
  exists job current err,
    starts tr = [(job, err)] /\ selected sel_current tr = [current] /\
    (current = "" \/ current = jStreamID req) /\ start_source sv req mode tr job /\ errs = (None, err).

Lemma start_turn_outcome req mode n s :
  let '(errs, _, tr) := run en (start_turn sv req mode) n s in turn_outcome req mode errs tr.
Proof.
  unfold start_turn. cbn [bind call run].
  destruct (env_call en _ n MgrCurrentStreamID s) as [current s1].
  destruct ((current <>s "") && (current <>s jStreamID req)) eqn:Ec; [by left|].
  assert (current = "" \/ current = jStreamID req) as Hc.
  { apply andb_false_iff in Ec as [E|E]; apply negb_false_iff, String.eqb_eq in E; tauto. }
  unfold applyRuntimeDiscordConfig.
  rewrite <- (negb_involutive (blank (jStreamID req))), <- negb_andb.
  destruct (svRuntimeConfig sv && negb (blank (jStreamID req))) eqn:Ep; cbn [negb].
  2: { cbn [bind call run]. destruct (env_call en _ _ (MgrStart req) s1) as [err s2]. cbn [run].
    right. exists req, current, err. split_and!; [done|done|done| |done]. unfold start_source. rewrite Ep.
    split_and!; [done..|]. intros Hp. rewrite Hp in Ep. by apply blank_refused, negb_false_iff. }
  cbn [bind call run]. destruct (env_call en _ _ FetchRuntimeConfig s1) as [[cfg [e|]] s2]; [by left|].
  destruct (isPrimaryDiscordAssignment cfg (jStreamID req)) eqn:Ea; [|by left]. cbn [negb bind call run].
  destruct (env_call en _ _ (MgrSetExecutionAuthorityStreams _) s2) as [[] s3]. cbn [bind call run].
  destruct (env_call en _ _ (MgrReconcileRuntimeGateway cfg) s3) as [[e|] s4]; [by left|]. cbn [bind call run].
  destruct (env_call en _ _ (MgrStart _) s4) as [err s5]. cbn [run].
  right. eexists _, current, err. split_and!; [done|done|done| |done].
  unfold start_source. rewrite Ep. by exists cfg.
Qed.

End Start.

Module Sample.
#[export] Instance no_hash : SHA256 := fun s => s.

Definition server : Server := mkServer "discord_bot" (mkVerifier "secret" "") true.

Definition request (body : string) : Request := mkRequest "Bearer  secret " "s1" (Some (quoted body)) "".

Definition cfg : RuntimeConfig :=
  mkRuntimeConfig (mkService "bot-1" "discord_bot" "")
    [mkAssignment "s1" "bot-1" "discord_bot" "primary" 0] ∅
    [mkStreamConfig "s1" "primary" "c" "11" "22" "33" ""] None false None false.

Definition zeroStatus : JobStatus :=
  ManagerStatus (mkStatus false false "" "" false false false false None 0 0 0 0 0 0 0 0 0 false false
    false 0 0 0 0 0 "" None "" "" "") (NewManagerWithReporter (mkVoiceCaps true true true) None 1000).

(** A manager without an active job that accepts every call. *)
Definition accept X (e : HttpCall X) : X :=
  match e with
  | NodeConfigPending => true
  | ConfigFromEnv => config_error "" ""
  | FetchRuntimeConfig => (cfg, None)
  | MgrStatus => zeroStatus
  | MgrCurrentStreamID => ""
  | MgrSetExecutionAuthorityStreams _ => tt
  | MgrReconcileRuntimeGateway _ => None
  | MgrStart _ => None
  | MgrStop _ => None
  | MgrParticipants _ => inl []
  | MgrSetActiveSpeaker _ _ => None
  | MgrActiveLiveJobTextChannelID _ => ("", false)
  | MgrNotifyYouTubeLive _ _ _ _ => NotifySent "m1"
  end.

Definition outside : env UpdaterIdentityLatch HttpCall :=
  {| env_call X _ e l := (accept X e, l); env_wait _ _ c l := (c l, l) |}.

Definition answer (r : Request) :=
  let '(resp, _, tr) := run outside (startJob server r) 0 (NewUpdaterIdentityLatch "discord_bot") in
  (rsStatus resp, starts tr).

(** A legacy request is started with the target of the configuration; a wrong
    token, a bad body and another bot's stream are refused. *)
Example start_requests :
  answer (request "{'stream_id':'s1','text_channel_id':'44','job_generation':1}") =
    (202, [(mkVoiceJob "11" "22" "44" 0 "s1" "" "" "" "" "" "" 0 0 0 false 1, None)]) /\
  answer (request "{'stream_id':'s1'}") = (400, []) /\
  answer (request "{'stream_id':'s2','job_generation':1}") = (403, []) /\
  answer (mkRequest "Bearer other" "" None "") = (401, []).
Proof. vm_compute. done. Qed.

Definition first_request : Request :=
  request "{'stream_id':'s1','text_channel_id':'44','job_generation':1}".


(** A stop request whose id is white space passes the manager the empty id,
    with which [Stop] ends whatever stream is active. *)
Example blank_stop_id :
  let active : env UpdaterIdentityLatch HttpCall :=
    {| env_call X _ e l :=
         (match e in HttpCall X return X -> X with
          | MgrCurrentStreamID => fun _ => "s1"
          | _ => fun x => x
          end (accept X e), l);
       env_wait _ _ c l := (c l, l) |} in
  let '(resp, _, tr) := run active (stopJob server (mkRequest "Bearer secret" " " None "")) 0
    (NewUpdaterIdentityLatch "discord_bot") in
  (rsBody resp, tr) = (BodyStatus "stopped", [OCall MgrCurrentStreamID "s1"; OCall (MgrStop "") None]).
Proof. vm_compute. reflexivity. Qed.
End Sample.
