(* ===== verification/YouTubeApi.v ===== *)
(** * YouTubeApi: the route of the YouTube-live notification

    [internal/httpapi/youtube_live.go]: the check of the watch URL, the handler
    over the runtime configuration and the job manager, and the answers to the
    errors of a notification. *)

From S2P Require Import Prelude Conc Errors Types RuntimeConfig Notification Urls Json.
From S2P Require Import StartRequest UpdaterIdentity HttpApi.

Open Scope go_scope.

Definition maxNotificationEventIDLength : nat := 256.
Definition maxYouTubeWatchURLLength : nat := 1900.

Definition has_char (c : ascii) (s : string) : bool := negb (string_forall (fun a => negb (Ascii.eqb a c)) s).

(** [validYouTubeVideoID] *)
Definition video_char (a : ascii) : bool := alphanumeric a || Ascii.eqb a "-" || Ascii.eqb a "_".

Definition validYouTubeVideoID (value : string) : bool :=
  let value := TrimSpace value in
  ((6 <=? strlen value) && (strlen value <=? 32))%nat && string_forall video_char value.

(** [validateYouTubeWatchURL]: the canonical URL, or its one error. *)
Definition validateYouTubeWatchURL `{URLParse} (raw : string) : option string :=
  let raw := TrimSpace raw in
  if (raw =s "") || (maxYouTubeWatchURLLength <? strlen raw)%nat || has_char "#" raw then None
  else
    match url_parse raw with
    | None => None
    | Some parsed =>
        if (ToLower (guScheme parsed) <>s "https") || (guHost parsed =s "") || guUser parsed
           || (guFragment parsed <>s "") || (guPort parsed <>s "") then None
        else
          let host := ToLower (guHostname parsed) in
          let videoID :=
            if (host =s "youtube.com") || (host =s "www.youtube.com") || (host =s "m.youtube.com")
            then if guPath parsed <>s "/watch" then None else Some (guQuery parsed "v")
            else if host =s "youtu.be"
            then let id := TrimSlash (guPath parsed) in if has_char "/" id then None else Some id
            else None in
          match videoID with
          | None => None
          | Some id =>
              if negb (validYouTubeVideoID id) then None
              else Some ("https://www.youtube.com/watch?v=" ++ QueryEscape id)
          end
    end.

(** ** The errors *)

Definition writeNotificationError (status : Z) (code message : string) (retryable : bool) : response :=
  writeJSON status (BodyNotificationError code message retryable).

(** [int(math.Ceil(d.Seconds()))] *)
Definition ceil_seconds (d : Duration) : Z := - ((- d) / Second).

(** [writeDiscordSendError] *)
Definition writeDiscordSendError (code : string) (retryable : bool) (retryAfter : Duration) : response :=
  let status :=
    if code =s SendMessageCodeRateLimited then 429
    else if (code =s SendMessageCodeMissingPermissions) || (code =s SendMessageCodeMissingAccess) then 403
    else if code =s SendMessageCodeChannelNotFound then 422
    else if code =s SendMessageCodeInvalidRequest then 500
    else 502 in
  mkResponse status
    (if code =s SendMessageCodeRateLimited then Some (Z.max 1 (ceil_seconds retryAfter)) else None)
    (BodyNotificationError code (send_error_text code) retryable).

Definition as_send_error (e : error) : option (string * bool * Duration) :=
  match e with SendMessageError code retryable retryAfter => Some (code, retryable, retryAfter) | _ => None end.

(** [writeYouTubeLiveNotificationError] *)
Definition writeYouTubeLiveNotificationError (err : error) : response :=
  if Is err ErrNoActiveLiveJob
  then writeNotificationError 409 "live_job_not_active" "live job is not active" false
  else if Is err ErrLiveJobStreamMismatch
  then writeNotificationError 409 "live_job_stream_mismatch" "active live job belongs to another stream" false
  else if Is err ErrLiveJobTextChannelMissing
  then writeNotificationError 409 "text_channel_not_configured" "active live job has no text channel" false
  else if Is err ErrLiveJobTextChannelMismatch
  then writeNotificationError 409 "text_channel_mismatch"
         "runtime text channel does not match the active live job" false
  else if Is err ErrNotificationEventIDConflict
  then writeNotificationError 409 "event_id_conflict"
         "event_id was already used for another notification payload" false
  else if Is err ErrNotificationReceiptCapacity
  then writeNotificationError 503 "notification_capacity_reached"
         "notification processing capacity was reached" true
  else
    match As as_send_error err with
    | Some (code, retryable, retryAfter) => writeDiscordSendError code retryable retryAfter
    | None => writeNotificationError 502 SendMessageCodeUnavailable "Discord is temporarily unavailable" true
    end.

(** ** The handler *)

Record youtubeLiveNotificationRequest := mkNotification { ynEventID : string; ynWatchURL : string }.

Definition eta_notification (r : youtubeLiveNotificationRequest) : youtubeLiveNotificationRequest :=
  mkNotification (ynEventID r) (ynWatchURL r).

#[export] Instance set_ynEventID : Setter ynEventID := ltac:(mk_setter eta_notification).
#[export] Instance set_ynWatchURL : Setter ynWatchURL := ltac:(mk_setter eta_notification).

Definition notification_fields : list (field youtubeLiveNotificationRequest) :=
  [on "event_id" decode_string ynEventID; on "watch_url" decode_string ynWatchURL].

Section Handler.
Context `{SHA256} `{URLParse} (sv : Server).

(** The text channel: of the configuration, else of the active live job. *)
Definition text_channel (streamID : string) (configured : option StreamDiscordConfig) : hprog string :=
  let channel := match configured with Some sc => TrimSpace (scTextChannelID sc) | None => "" end in
  if channel =s "" then
    let* active := call (MgrActiveLiveJobTextChannelID streamID) in
    let '(activeChannelID, found) := active in
    hret (if (found : bool) then activeChannelID else channel)
  else hret channel.

(** The handler once the request is read. *)
Definition notify (streamID eventID watchURL : string) : hprog response :=
  if negb (svRuntimeConfig sv)
  then hret (writeNotificationError 503 "runtime_config_unavailable" "runtime config is unavailable" true)
  else
    let* fetched := call FetchRuntimeConfig in
    match fetched with
    | (_, Some _) =>
        hret (writeNotificationError 502 "runtime_config_fetch_failed" "runtime config fetch failed" true)
    | (cfg, None) =>
        if negb (isPrimaryDiscordAssignment cfg streamID)
        then hret (writeNotificationError 403 "stream_not_assigned_to_service"
                     "stream is not assigned to this Discord bot as primary" false)
        else
          let configured := DiscordConfigForStream streamID cfg in
          let* channel := text_channel streamID configured in
          if channel =s "" then
            hret match configured with
                 | None => writeNotificationError 409 "discord_config_not_found"
                             "primary Discord config is not available for the stream" false
                 | Some _ => writeNotificationError 409 "text_channel_not_configured"
                               "primary Discord config has no text channel" false
                 end
          else
            let* result := call (MgrNotifyYouTubeLive streamID eventID channel watchURL) in
            match result with
            | NotifyError err => hret (writeYouTubeLiveNotificationError err)
            | NotifySent messageID => hret (writeJSON 200 (BodyNotification messageID false))
            | NotifyAlreadySent messageID => hret (writeJSON 200 (BodyNotification messageID true))
            end
    end.

Definition youtubeLiveNotification (r : Request) : hprog response :=
  if negb (authorized sv r)
  then hret (writeNotificationError 401 "missing_or_invalid_service_token"
               "A valid service token is required" false)
  else
    let streamID := TrimSpace (rqPathID r) in
    if streamID =s "" then hret (writeNotificationError 400 "invalid_stream_id" "stream id is required" false)
    else
      match decodeJSON notification_fields (rqBody r) (mkNotification "" "") with
      | None => hret (writeNotificationError 400 "invalid_json" "request body must be valid JSON" false)
      | Some req =>
          let eventID := TrimSpace (ynEventID req) in
          if (eventID =s "") || (maxNotificationEventIDLength <? strlen eventID)%nat
          then hret (writeNotificationError 400 "invalid_event_id"
                       "event_id is required and must be at most 256 bytes" false)
          else
            match validateYouTubeWatchURL (ynWatchURL req) with
            | None => hret (writeNotificationError 400 "invalid_watch_url"
                "watch_url must be an approved HTTPS YouTube URL without credentials or a fragment" false)
            | Some watchURL => notify streamID eventID watchURL
            end
      end.
End Handler.

(** ** The canonical URL *)

Lemma video_char_unreserved a : video_char a = true -> unreserved a = true.
Proof.
  unfold video_char, unreserved. destruct (alphanumeric a); [done|]. simpl.
  intros [->%Ascii.eqb_eq| ->%Ascii.eqb_eq]%orb_true_iff; reflexivity.
Qed.

Lemma forall_imp (p q : ascii -> bool) s :
  (forall a, p a = true -> q a = true) -> string_forall p s = true -> string_forall q s = true.
Proof.
  intros Hpq. induction s as [|a s IH]; [done|]. simpl. intros [Ha Hs]%andb_prop.
  rewrite (Hpq _ Ha). by apply IH.
Qed.

(** A watch URL with the video id [id] of 6 to 32 characters. *)
Definition canonical_watch_url (url : string) : Prop :=
  exists id, url = "https://www.youtube.com/watch?v=" ++ QueryEscape id /\
    (6 <= strlen (TrimSpace id) <= 32)%nat /\ string_forall video_char (TrimSpace id) = true /\
    (TrimSpace id = id -> url = "https://www.youtube.com/watch?v=" ++ id).

Lemma validate_canonical `{URLParse} raw url :
  validateYouTubeWatchURL raw = Some url -> canonical_watch_url url.
Proof.
  unfold validateYouTubeWatchURL. cbv zeta. case_match; [done|].
  destruct (url_parse (TrimSpace raw)) as [parsed|]; [|done]. case_match; [done|].
  match goal with |- match ?v with _ => _ end = _ -> _ => destruct v as [id|]; [|done] end.
  destruct (validYouTubeVideoID id) eqn:Hv; [|done]. cbn [negb]. intros [= <-].
  unfold validYouTubeVideoID in Hv. apply andb_prop in Hv as [[H6 H32]%andb_prop Hc].
  apply Nat.leb_le in H6, H32. exists id. split_and!; [done|lia|lia|done|].
  intros Hid. rewrite Hid in Hc. rewrite QueryEscape_unreserved; [done|].
  eapply forall_imp, Hc. apply video_char_unreserved.
Qed.

(** ** What a notification request does *)

Definition sel_notify X (e : HttpCall X)
    : X -> option (string * string * string * string * notify_result) :=
  match e with
  | MgrNotifyYouTubeLive streamID eventID channel url =>
      fun result => Some (streamID, eventID, channel, url, result)
  | _ => fun _ => None
  end.
Definition sel_active X (e : HttpCall X) : X -> option (string * bool) :=
  match e with MgrActiveLiveJobTextChannelID _ => Some | _ => fun _ => None end.

Definition notifications := selected sel_notify.

(** The answer to the result of a notification. *)
Definition notify_answer (result : notify_result) : response :=
  match result with
  | NotifyError err => writeYouTubeLiveNotificationError err
  | NotifySent messageID => writeJSON 200 (BodyNotification messageID false)
  | NotifyAlreadySent messageID => writeJSON 200 (BodyNotification messageID true)
  end.

Definition configured_channel (configured : option StreamDiscordConfig) : string :=
  match configured with Some sc => TrimSpace (scTextChannelID sc) | None => "" end.

(** The channel is the configured one, or without one that of the live job. *)
Definition channel_source (configured : option StreamDiscordConfig)
    (tr : list (obs HttpCall Empty_set)) (channel : string) : Prop :=
  channel <> "" /\
  (channel = configured_channel configured \/
   configured_channel configured = "" /\ selected sel_active tr = [(channel, true)]).

Section Outcome.
Context `{SHA256} `{URLParse} (sv : Server) (en : env UpdaterIdentityLatch HttpCall).

Lemma text_channel_outcome streamID configured n s :
  let '(channel, _, tr) := run en (text_channel streamID configured) n s in
  notifications tr = [] /\ selected sel_fetch tr = [] /\
  (channel <> "" -> channel_source configured tr channel).
Proof.
  unfold text_channel. fold (configured_channel configured). unfold channel_source.
  destruct (String.eqb_spec (configured_channel configured) "") as [E|E].
  - cbn [bind call run].
    destruct (env_call en _ _ (MgrActiveLiveJobTextChannelID streamID) s) as [[active found] s2].
    cbn [bind run]. rewrite E. split_and!; [done|done|]. intros Hc. split; [done|].
    destruct found; [by right|done].
  - cbn [bind run]. split_and!; [done|done|]. intros Hc. split; [done|by left].
Qed.

Definition notify_outcome (streamID eventID watchURL : string) (resp : response)
    (tr : list (obs HttpCall Empty_set)) : Prop :=
  (notifications tr = [] /\ rsStatus resp <> 200) \/
  exists cfg channel result,
    notifications tr = [(streamID, eventID, channel, watchURL, result)] /\ resp = notify_answer result /\
    svRuntimeConfig sv = true /\ selected sel_fetch tr = [(cfg, None)] /\
    isPrimaryDiscordAssignment cfg streamID = true /\
    channel_source (DiscordConfigForStream streamID cfg) tr channel.

Lemma notify_outcome_ok streamID eventID watchURL n s :
  let '(resp, _, tr) := run en (notify sv streamID eventID watchURL) n s in
  notify_outcome streamID eventID watchURL resp tr.
Proof.
  unfold notify. destruct (svRuntimeConfig sv) eqn:Ep; [|by left]. cbn [negb bind call run].
  destruct (env_call en _ n FetchRuntimeConfig s) as [[cfg [e|]] s1]; [by left|].
  destruct (isPrimaryDiscordAssignment cfg streamID) eqn:Ea; [|by left]. cbn [negb]. cbv zeta.
  rewrite run_bind.
  pose proof (text_channel_outcome streamID (DiscordConfigForStream streamID cfg) (S n) s1) as Ht.
  destruct (run en (text_channel _ _) (S n) s1) as [[channel s2] tr1]. destruct Ht as (Hn & Hf & Hc).
  destruct (String.eqb_spec channel "") as [E|E].
  - cbn [run]. left. unfold notifications in *. rewrite selected_call, app_nil_r. split; [done|].
    by case_match.
  - cbn [bind call run]. destruct (env_call en _ _ (MgrNotifyYouTubeLive _ _ _ _) s2) as [result s3].
    replace (match result with _ => _ end) with
      (@Ret UpdaterIdentityLatch HttpCall Empty_set hmutex _ (notify_answer result)) by by destruct result.
    cbn [run]. right. exists cfg, channel, result. specialize (Hc E) as [_ Hc].
    unfold channel_source, notifications in *.
    rewrite !selected_call, !selected_app, !selected_call, Hn, Hf. split_and!; try done.
    destruct Hc as [?|[? Hc]]; [by left|right]. by rewrite Hc.
Qed.

(** C37: A notification request reaches the manager at most once, and only when
    its token verifies, its event id has 1 to 256 bytes, its URL passed the
    check, and the configuration fetched for it names the stream as a primary
    assignment of this bot.  What it passes on is the trimmed stream and event
    id, the text channel of that configuration (of the live job when it has
    none), and a canonical watch URL with an id that, trimmed, has 6 to 32
    letters, digits, hyphens and underscores.  The answer is 200 only for a result of the
    manager. *)
Theorem notification_is_authorized r n s :
  let '(resp, _, tr) := run en (youtubeLiveNotification sv r) n s in
  (notifications tr = [] /\ rsStatus resp <> 200) \/
  exists cfg req channel url result,
    authorized sv r = true /\ TrimSpace (rqPathID r) <> "" /\
    decodeJSON notification_fields (rqBody r) (mkNotification "" "") = Some req /\
    (1 <= strlen (TrimSpace (ynEventID req)) <= 256)%nat /\
    validateYouTubeWatchURL (ynWatchURL req) = Some url /\ canonical_watch_url url /\
    notifications tr = [(TrimSpace (rqPathID r), TrimSpace (ynEventID req), channel, url, result)] /\
    selected sel_fetch tr = [(cfg, None)] /\
    isPrimaryDiscordAssignment cfg (TrimSpace (rqPathID r)) = true /\
    channel_source (DiscordConfigForStream (TrimSpace (rqPathID r)) cfg) tr channel /\
    resp = notify_answer result.
Proof.
  unfold youtubeLiveNotification. destruct (authorized sv r) eqn:Ea; [|by left]. cbn [negb]. cbv zeta.
  destruct (String.eqb_spec (TrimSpace (rqPathID r)) "") as [|Hid]; [by left|].
  destruct (decodeJSON _ _ _) as [req|] eqn:Ed; [|by left].
  destruct (String.eqb_spec (TrimSpace (ynEventID req)) "") as [|Hev]; [by left|]. cbn [orb].
  destruct (Nat.ltb_spec maxNotificationEventIDLength (strlen (TrimSpace (ynEventID req)))) as [|Hlen];
    [by left|].
  destruct (validateYouTubeWatchURL (ynWatchURL req)) as [url|] eqn:Eu; [|by left].
  pose proof (notify_outcome_ok (TrimSpace (rqPathID r)) (TrimSpace (ynEventID req)) url n s) as Hn.
  destruct (run en (notify _ _ _ _) n s) as [[resp s'] tr].
  destruct Hn as [?|(cfg & channel & result & ? & ? & ? & ? & ? & ?)]; [by left|right].
  exists cfg, req, channel, url, result. split_and!; try done.
  - destruct (TrimSpace (ynEventID req)); [done|simpl; lia].
  - by eapply validate_canonical.
Qed.
End Outcome.

Module Sample.
(** A parser that knows two URLs. *)
#[export] Instance two_urls : URLParse := fun raw =>
  if raw =s "https://youtu.be/abcdef-1/"
  then Some (mkGoURL "https" "youtu.be" false "youtu.be" "" "/abcdef-1/" "" "" (fun _ => ""))
  else if raw =s "https://m.youtube.com/watch?v=%20abcdef"
  then Some (mkGoURL "https" "m.youtube.com" false "m.youtube.com" "" "/watch" "v=%20abcdef" ""
               (fun k => if k =s "v" then " abcdef" else ""))
  else None.

(** An id with white space around it passes the check, which trims it, and is
    written with the white space. *)
Example watch_urls :
  validateYouTubeWatchURL " https://youtu.be/abcdef-1/ " = Some "https://www.youtube.com/watch?v=abcdef-1" /\
  validateYouTubeWatchURL "https://m.youtube.com/watch?v=%20abcdef" =
    Some "https://www.youtube.com/watch?v=+abcdef" /\
  validateYouTubeWatchURL "https://youtu.be/abcdef-1/#t" = None.
Proof. vm_compute. done. Qed.

(** A rate limit of Discord is passed on in whole seconds, at least one. *)
Example rate_limited :
  writeYouTubeLiveNotificationError (SendMessageError SendMessageCodeRateLimited true (1500 * Millisecond)) =
    mkResponse 429 (Some 2) (BodyNotificationError "discord_rate_limited" "Discord rate limit reached" true) /\
  rsRetryAfter (writeDiscordSendError SendMessageCodeRateLimited true 0) = Some 1.
Proof. vm_compute. done. Qed.
End Sample.
