(* ===== verification/Router.v ===== *)
(** * Router: the routes of the HTTP API

    [NewServerWithRuntimeConfigAndUpdaterIdentity] of
    [internal/httpapi/server.go]: the nine patterns and the [net/http.ServeMux]
    that dispatches a request to the handlers of [HttpApi] and [YouTubeApi].
    The path is the escaped one of the request; it is cleaned before it is
    matched, a path that is not clean is redirected. *)

From S2P Require Import Prelude Conc Errors Urls HostMetrics NodeConfig UpdaterIdentity HttpApi YouTubeApi.

Open Scope go_scope.

(** ** Paths *)

(** [pathUnescape]: a segment that is not well escaped stays as it is. *)
Definition pathUnescape (s : string) : string :=
  match unescape (list_ascii_of_string s) with Some l => string_of_list_ascii l | None => s end.

(** [path.Clean] of the segments of a rooted path. *)
Fixpoint clean_segments (out segs : list string) : list string :=
  match segs with
  | [] => rev out
  | s :: segs =>
      if (s =s "") || (s =s ".") then clean_segments out segs
      else if s =s ".." then clean_segments (tail out) segs
      else clean_segments (s :: out) segs
  end.

Fixpoint slashed (segs : list string) : string :=
  match segs with [] => "" | s :: segs => String "/" s ++ slashed segs end.

Definition ends_in_slash (p : string) : bool :=
  match rev (list_ascii_of_string p) with a :: _ => Ascii.eqb a "/" | [] => false end.

(** [cleanPath] *)
Definition cleanPath (p : string) : string :=
  let rest := match p with String "/" r => r | _ => p end in
  match clean_segments [] (Split "/" rest) with
  | [] => "/"
  | segs => slashed segs ++ (if ends_in_slash rest then "/" else "")
  end.

(** The segments a path is matched by; a trailing slash is one of its own. *)
Fixpoint unescaped_segments (segs : list string) : list string :=
  match segs with
  | [] => []
  | [s] => [if s =s "" then "/" else pathUnescape s]
  | s :: segs => pathUnescape s :: unescaped_segments segs
  end.

Definition segments (p : string) : list string :=
  match p with String "/" rest => unescaped_segments (Split "/" rest) | _ => [] end.

(** ** Patterns *)

Inductive segment := Literal (s : string) | PathID.

Inductive route :=
| Health | UpdaterVersion | StatusRoute | HeartbeatRoute | StartJob | StopJob | ParticipantsRoute
| ActiveSpeaker | YouTubeLive.

Definition patterns : list (string * list segment * route) :=
  [("GET", [Literal "health"], Health);
   ("GET", [Literal "updater"; Literal "version"], UpdaterVersion);
   ("GET", [Literal "status"], StatusRoute);
   ("POST", [Literal "heartbeat"], HeartbeatRoute);
   ("POST", [Literal "jobs"; Literal "start"], StartJob);
   ("POST", [Literal "jobs"; PathID; Literal "stop"], StopJob);
   ("GET", [Literal "streams"; PathID; Literal "participants"], ParticipantsRoute);
   ("POST", [Literal "streams"; PathID; Literal "active-speaker"], ActiveSpeaker);
   ("POST", [Literal "streams"; PathID; Literal "notifications"; Literal "youtube-live"], YouTubeLive)].

(** The path value of a match. *)
Fixpoint match_segments (pattern : list segment) (segs : list string) (id : string) : option string :=
  match pattern, segs with
  | [], [] => Some id
  | Literal s :: pattern, t :: segs => if s =s t then match_segments pattern segs id else None
  | PathID :: pattern, t :: segs => if t =s "/" then None else match_segments pattern segs t
  | _, _ => None
  end.

(** A GET pattern also answers HEAD. *)
Definition method_matches (pattern method : string) : bool :=
  (pattern =s method) || ((pattern =s "GET") && (method =s "HEAD")).

Fixpoint find_pattern (ps : list (string * list segment * route)) (method : string) (segs : list string)
    : option (route * string) :=
  match ps with
  | [] => None
  | (m, pattern, r) :: ps =>
      match match_segments pattern segs "" with
      | Some id => if method_matches m method then Some (r, id) else find_pattern ps method segs
      | None => find_pattern ps method segs
      end
  end.

(** The methods of the patterns that match a path. *)
Definition allowed (segs : list string) : list string :=
  patterns ≫= fun '(m, pattern, _) =>
    match match_segments pattern segs "" with
    | Some _ => if m =s "GET" then ["GET"; "HEAD"] else [m]
    | None => []
    end.

Inductive mux_answer :=
| Handled (r : route) (id : string)
| RedirectTo (path : string)
| MethodNotAllowed (allow : list string)
| NotFound
| BadRequest.

Definition dispatch (method path : string) : mux_answer :=
  if path =s "*" then BadRequest
  else
    let clean := if method =s "CONNECT" then path else cleanPath path in
    if clean <>s path then RedirectTo clean
    else
      let segs := segments path in
      match find_pattern patterns method segs with
      | Some (r, id) => Handled r id
      | None => match allowed segs with [] => NotFound | allow => MethodNotAllowed allow end
      end.

Section Serve.
Context `{SHA256} `{URLParse} (sv : Server).

Definition handler (r : route) (req : Request) : hprog response :=
  match r with
  | Health => health
  | UpdaterVersion => updaterVersion
  | StatusRoute => status sv
  | HeartbeatRoute => heartbeat sv req
  | StartJob => startJob sv req
  | StopJob => stopJob sv req
  | ParticipantsRoute => participants sv req
  | ActiveSpeaker => activeSpeaker sv req
  | YouTubeLive => youtubeLiveNotification sv req
  end.

(** One request: the headers of [securityHeaders] and the answer of a
    handler, or the mux's own. *)
Definition serve (method path authorization : string) (body : option string) (nodeToken : string)
    : hprog (list (string * string) * (response + mux_answer)) :=
  let headers := securityHeaders (pathUnescape path) in
  match dispatch method path with
  | Handled r id =>
      let* res := handler r (mkRequest authorization id body nodeToken) in
      hret (headers, inl res)
  | answer => hret (headers, inr answer)
  end.
End Serve.

Example dispatched :
  dispatch "POST" "/jobs/s%2F1/stop" = Handled StopJob "s/1" /\
  dispatch "HEAD" "/he%61lth" = Handled Health "" /\
  dispatch "POST" "/jobs/start/stop" = Handled StopJob "start" /\
  dispatch "GET" "/jobs/../status/" = RedirectTo "/status/" /\
  dispatch "GET" "/jobs/start" = MethodNotAllowed ["POST"] /\
  dispatch "DELETE" "/status" = MethodNotAllowed ["GET"; "HEAD"] /\
  dispatch "GET" "/status/" = NotFound /\ dispatch "CONNECT" "/jobs//stop" = MethodNotAllowed ["POST"] /\ dispatch "POST" "/jobs/%2F/stop" = NotFound /\
  dispatch "GET" "" = RedirectTo "/".
Proof. vm_compute. done. Qed.

(** ** A request without the token *)

(** What the three open routes ask: the identity and the status. *)
Definition open_call X (e : HttpCall X) : Prop :=
  match e with NodeConfigPending | ConfigFromEnv | MgrStatus => True | _ => False end.

Definition open_route (r : route) : bool :=
  match r with Health | UpdaterVersion | StatusRoute => true | _ => false end.

Definition open_obs : obs HttpCall Empty_set -> Prop := obs_ok open_call (fun _ => False).

(** The status an open route answers is the public part of the manager's. *)
Definition public_answer (sv : Server) (res : response) : Prop :=
  match rsBody res with
  | BodyStatus _ | BodyCode _ | BodyVersion _ => True
  | BodyService ty _ job => ty = svServiceType sv /\ exists st, job = publicJobStatus st
  | _ => False
  end.

(** The 401 of a guarded route. *)
Definition refusal (r : route) : response :=
  match r with
  | YouTubeLive =>
      writeNotificationError 401 "missing_or_invalid_service_token" "A valid service token is required" false
  | _ => unauthorized
  end.

Section Open.
Context `{SHA256} `{URLParse} (sv : Server).

Abbreviation open Q p := (safe (fun _ : UpdaterIdentityLatch => True) open_call (fun _ : Empty_set => False) Q p).

Lemma resolve_open : open (fun _ => True) resolve.
Proof. unfold resolve, ResolveFromEnv, bind_identity. go_walk; simpl; auto. Qed.

Lemma open_routes_safe r req :
  open_route r = true -> open (public_answer sv) (handler sv r req).
Proof.
  destruct r; try done; intros _; cbn [handler].
  - eapply safe_bind; [apply resolve_open|]. intros [identity|err] _; exact I.
  - eapply safe_bind; [apply resolve_open|]. intros identity _. split; [exact I|]. intros st.
    split; [done|]. by exists st.
Qed.

Lemma guarded_routes r req :
  open_route r = false -> authorized sv req = false -> handler sv r req = hret (refusal r).
Proof.
  intros Hr Ha. destruct r; try done; cbn [handler];
    unfold heartbeat, startJob, stopJob, participants, activeSpeaker, youtubeLiveNotification;
    by rewrite Ha.
Qed.
End Open.

(** C15: A request that does not carry the service token moves nothing, whatever
    its method, path, body and environment: no handler calls the configuration
    provider or a method of the manager that changes something, the mux answers
    as its patterns say, the six guarded routes answer 401 without any call,
    and the three open ones show only the identity and the public status. *)
Theorem api_requires_token `{SHA256} `{URLParse} (sv : Server) en n s method path authorization body nodeToken :
  Verify (svVerifier sv) nodeToken authorization = false ->
  let '(_, answer, _, tr) := run en (serve sv method path authorization body nodeToken) n s in
  Forall open_obs tr /\
  match dispatch method path with
  | Handled r _ =>
      if open_route r then exists res, answer = inl res /\ public_answer sv res
      else answer = inl (refusal r) /\ tr = []
  | other => answer = inr other /\ tr = []
  end.
Proof.
  intros Hv. unfold serve. destruct (dispatch method path) as [r id| | | |]; try by split.
  set (req := mkRequest _ _ _ _). destruct (open_route r) eqn:Er.
  - rewrite run_bind. pose proof (run_safe _ _ _ _ en _ n s (conj (fun _ _ _ _ _ => I) (fun _ _ _ _ _ => I)) I
      (open_routes_safe sv r req Er)) as Hr.
    destruct (run en (handler sv r req) n s) as [[res s1] tr1]. cbn [run]. rewrite app_nil_r.
    destruct Hr as (Hp & _ & Ht). eauto.
  - rewrite guarded_routes by done. cbn [bind run]. by split.
Qed.

(** ** Path values *)

Lemma pathUnescape_PathEscape s : pathUnescape (PathEscape s) = s.
Proof. unfold pathUnescape. rewrite unescape_PathEscape. apply string_of_list_ascii_of_string. Qed.

Lemma split_from_segment sep w l r :
  Forall (fun a => a <> sep) l ->
  split_from sep w (l ++ sep :: r) = string_of_list_ascii (w ++ l) :: split_from sep [] r.
Proof.
  intros Hl. revert w. induction Hl as [|a l Ha Hl IH]; intros w; cbn [app split_from].
  - by rewrite Ascii.eqb_refl, app_nil_r.
  - destruct (Ascii.eqb_spec a sep); [done|]. by rewrite IH, <- app_assoc.
Qed.

Lemma Split_id id rest :
  Split "/" (PathEscape id ++ String "/" rest) = PathEscape id :: Split "/" rest.
Proof.
  unfold Split. rewrite list_ascii_app. cbn [list_ascii_of_string].
  rewrite split_from_segment by apply PathEscape_slashless. cbn [app].
  by rewrite string_of_list_ascii_of_string.
Qed.

(** ** Cleaning *)

Definition plain_segment (s : string) : Prop := s <> "" /\ s <> "." /\ s <> "..".

Lemma clean_plain out segs :
  Forall plain_segment segs -> clean_segments out segs = (rev out ++ segs)%list.
Proof.
  intros Hs. revert out. induction Hs as [|s segs (H1 & H2 & H3) Hs IH]; intros out; cbn [clean_segments].
  - by rewrite app_nil_r.
  - apply String.eqb_neq in H1, H2, H3. rewrite H1, H2, H3. cbn [orb]. rewrite IH. cbn [rev].
    by rewrite <- app_assoc.
Qed.

Lemma PathEscape_plain id : plain_segment id -> plain_segment (PathEscape id).
Proof.
  intros (H1 & H2 & H3). rewrite <- (pathUnescape_PathEscape id) in H1, H2, H3.
  split_and!; intros E; rewrite E in *; done.
Qed.

(** The path of a route with an id: two plain words around the escaped id. *)
Definition id_path (p id q : string) : string :=
  String "/" (p ++ String "/" (PathEscape id ++ String "/" q)).

Record plain_words (p q : string) : Prop := mkPlainWords {
  words_slashless : Forall (fun a => a <> "/"%char) (list_ascii_of_string p);
  words_plain : Forall plain_segment (p :: Split "/" q);
  words_joined : slashed (Split "/" q) = String "/" q;
  words_end : ends_in_slash q = false /\ q <> "" }.

Lemma Split_segment s rest :
  Forall (fun a => a <> "/"%char) (list_ascii_of_string s) ->
  Split "/" (s ++ String "/" rest) = s :: Split "/" rest.
Proof.
  intros Hs. unfold Split. rewrite list_ascii_app. cbn [list_ascii_of_string].
  rewrite split_from_segment by done. cbn [app]. by rewrite string_of_list_ascii_of_string.
Qed.

Lemma ends_in_slash_last s a t : ends_in_slash (s ++ String a t) = ends_in_slash (String a t).
Proof.
  unfold ends_in_slash. rewrite list_ascii_app, rev_app_distr. cbn [list_ascii_of_string rev].
  by destruct (rev (list_ascii_of_string t)).
Qed.

Lemma id_path_clean p q id : plain_words p q -> plain_segment id -> cleanPath (id_path p id q) = id_path p id q.
Proof.
  intros [Hs Hp Hj [He Hq]] Hid. unfold id_path, cleanPath.
  rewrite !Split_segment by auto using PathEscape_slashless.
  apply Forall_cons in Hp as [Hp Hq'].
  rewrite clean_plain by (rewrite !Forall_cons; auto using PathEscape_plain).
  cbn [rev app slashed]. rewrite Hj, ends_in_slash_last.
  change (String "/" (PathEscape id ++ String "/" q)) with (String "/" (PathEscape id) ++ String "/" q).
  rewrite ends_in_slash_last. destruct q as [|a q]; [done|].
  change (String "/" (String a q)) with ("/" ++ String a q). rewrite ends_in_slash_last, He.
  apply append_empty.
Qed.

Lemma id_path_segments p q id :
  plain_words p q -> 
  segments (id_path p id q) = pathUnescape p :: id :: unescaped_segments (Split "/" q).
Proof.
  intros [Hs Hp Hj [He Hq]]. unfold segments, id_path.
  rewrite !Split_segment by auto using PathEscape_slashless.
  destruct (Split "/" q) eqn:E; [done|]. cbn [unescaped_segments]. by rewrite pathUnescape_PathEscape.
Qed.

Lemma dispatch_id m p q id r :
  plain_words p q -> plain_segment id -> (m =s "CONNECT") = false ->
  find_pattern patterns m (pathUnescape p :: id :: unescaped_segments (Split "/" q)) = Some (r, id) ->
  dispatch m (id_path p id q) = Handled r id.
Proof.
  intros Hw Hid Hm Hf. unfold dispatch. rewrite id_path_clean, id_path_segments, Hm, String.eqb_refl, Hf by done.
  done.
Qed.

Ltac plain_words :=
  constructor;
    [vm_compute; repeat constructor; discriminate|vm_compute; repeat constructor; discriminate
    |reflexivity|split; [reflexivity|discriminate]].

(** The id a caller escapes into a path is the id the handler gets: whatever
    its bytes (slashes, percent signs, control characters), apart from the
    empty id, the two dot segments and the single slash, the four routes with
    an id are reached with exactly that id. *)
Theorem id_paths_roundtrip id :
  plain_segment id -> id <> "/" ->
  dispatch "POST" (id_path "jobs" id "stop") = Handled StopJob id /\
  dispatch "GET" (id_path "streams" id "participants") = Handled ParticipantsRoute id /\
  dispatch "POST" (id_path "streams" id "active-speaker") = Handled ActiveSpeaker id /\
  dispatch "POST" (id_path "streams" id "notifications/youtube-live") = Handled YouTubeLive id.
Proof.
  intros Hid Hn. apply String.eqb_neq in Hn.
  split_and!; (apply dispatch_id; [plain_words|done|reflexivity|cbn [find_pattern match_segments patterns]; rewrite Hn];
    first [reflexivity|by destruct ("start" =s id)]).
Qed.

(** The ids left out do not reach a handler. *)
Example other_ids :
  (fun id => dispatch "POST" (id_path "jobs" id "stop")) <$> [""; "."; ".."; "/"] =
  [RedirectTo "/jobs/stop"; RedirectTo "/jobs/stop"; RedirectTo "/stop"; NotFound].
Proof. vm_compute. done. Qed.

(** ** No two patterns match one request: the precedence rules never decide. *)

Definition segment_matches (p : segment) (s : string) : Prop :=
  match p with Literal t => t = s | PathID => s <> "/" end.

Lemma match_segments_matches pattern segs id0 id :
  match_segments pattern segs id0 = Some id -> Forall2 segment_matches pattern segs.
Proof.
  revert segs id0. induction pattern as [|[t|] pattern IH]; intros [|s segs] id0 Hm; cbn in Hm; try done.
  - destruct (String.eqb_spec t s); [|done]. constructor; [done|eauto].
  - destruct (String.eqb_spec s "/"); [done|]. constructor; [done|eauto].
Qed.

Lemma patterns_disjoint segs id1 id2 m1 p1 r1 m2 p2 r2 :
  (m1, p1, r1) ∈ patterns -> (m2, p2, r2) ∈ patterns ->
  match_segments p1 segs "" = Some id1 -> match_segments p2 segs "" = Some id2 -> r1 = r2.
Proof.
  intros H1 H2 Hm1%match_segments_matches Hm2%match_segments_matches.
  unfold patterns in *. set_unfold.
  repeat match goal with H : _ \/ _ |- _ => destruct H end; simplify_eq; try done;
    repeat match goal with H : Forall2 _ (_ :: _) _ |- _ => inversion H; clear H; subst
                      | H : Forall2 _ [] _ |- _ => inversion H; clear H; subst end;
    cbn in *; congruence.
Qed.

Module Sample.
Export HttpApi.Sample.

#[export] Instance no_url : URLParse := fun _ => None.

(** A start request with a wrong token: refused, and nothing is asked. *)
Lemma api_requires_token_witness :
  let '(_, answer, _, tr) :=
    run outside (serve server "POST" "/jobs/start" "Bearer other" (Some "{}") "") 0
      (NewUpdaterIdentityLatch "discord_bot") in
  Forall open_obs tr /\ answer = inl unauthorized /\ tr = [].
Proof.
  exact (api_requires_token server outside 0 (NewUpdaterIdentityLatch "discord_bot") "POST" "/jobs/start"
           "Bearer other" (Some "{}") "" eq_refl).
Defined.

Lemma id_paths_roundtrip_witness :
  id_path "jobs" "a/../b%" "stop" = "/jobs/a%2F..%2Fb%25/stop" /\
  dispatch "POST" (id_path "jobs" "a/../b%" "stop") = Handled StopJob "a/../b%".
Proof. split; [reflexivity|]. apply (id_paths_roundtrip "a/../b%"); [split_and!|]; discriminate. Defined.

(** A HEAD request reads the status. *)
Example head_status :
  let '(headers, answer, _, tr) :=
    run outside (serve server "HEAD" "/status" "" None "") 0 (NewUpdaterIdentityLatch "discord_bot") in
  length headers = 3%nat /\
  match answer with inl res => rsStatus res = 200 | inr _ => False end /\
  length tr = 2%nat.
Proof. vm_compute. done. Qed.
End Sample.
