(* ===== verification/ControlClient.v ===== *)
(** * ControlClient: requests to the Control Panel

    [internal/control/client.go]: the checks of the configured URLs, the
    request with its answer, and the calls that start and stop a stream and
    resolve a secret.  [StopStream] decides what counts as a confirmed stop. *)

From S2P Require Import Prelude Conc Errors Urls Secrets Json NodeConfig.

Open Scope go_scope.

(** ** URLs *)

Definition isLocalDevHost (host : string) : bool :=
  let normalized :=
    trim bracket (string_of_list_ascii (lower_bytes (list_ascii_of_string (TrimSpace host)))) in
  (normalized =s "localhost") || (normalized =s "127.0.0.1") || (normalized =s "host.docker.internal").

Definition isExactAllowedHost (host allowed : string) : bool :=
  (allowed <>s "") && (fold_name (TrimSpace host) =s fold_name allowed).

Definition validateHTTPURL `{URLParse} (raw name allowedComposeHTTPHost : string) : option error :=
  match url_parse raw with
  | None => Some (ErrNew (name ++ " must be an absolute URL"))
  | Some parsed =>
      if (guScheme parsed =s "") || (guHost parsed =s "")
      then Some (ErrNew (name ++ " must be an absolute URL"))
      else if (guScheme parsed <>s "http") && (guScheme parsed <>s "https")
      then Some (ErrNew (name ++ " must use http or https"))
      else if guUser parsed then Some (ErrNew (name ++ " must not include credentials"))
      else if (guRawQuery parsed <>s "") || (guFragment parsed <>s "")
      then Some (ErrNew (name ++ " must not include query or fragment"))
      else if (guScheme parsed =s "http") && negb (isLocalDevHost (guHostname parsed))
              && negb (isExactAllowedHost (guHostname parsed) allowedComposeHTTPHost)
      then Some (ErrNew (name ++ " must use https for remote hosts"))
      else None
  end.

(** [Config.Validate] *)
Definition Validate `{URLParse} (c : Config) : option error :=
  if negb (blank (pcConfigError c)) then Some (ErrNew (pcConfigError c))
  else if blank (pcControlPanelURL c) then Some (ErrNew "node config panel.url is required")
  else if blank (pcToken c) then Some (ErrNew "node config auth.token is required")
  else if blank (pcServiceID c) then Some (ErrNew "node config node.id is required")
  else if blank (pcServiceName c) then Some (ErrNew "node config node.name is required")
  else
    match validateHTTPURL (pcControlPanelURL c) "CONTROL_PANEL_URL" "" with
    | Some err => Some err
    | None => validateHTTPURL (pcServicePublicURL c) "SERVICE_PUBLIC_URL" "discord-bot"
    end.

(** ** Requests *)

(** An answer: its status and its body, [None] when the body cannot be read to
    the end of a value. *)
Record http_response := mkHttp { hrStatus : Z; hrBody : option string }.

Inductive CtlCall : Type -> Type :=
| NewRequest (method url : string) : CtlCall (option error)
| DoRequest (method url token : string) (body : option json) : CtlCall (http_response + error).

Abbreviation cprog := (prog unit CtlCall Empty_set Empty_set).
Abbreviation cret := (@Ret unit CtlCall Empty_set Empty_set _).

(** [json.Decoder.Decode] of a body: a value, [io.EOF] for an empty body, or an
    error. *)
Inductive decode_result (A : Type) := Decoded (a : A) | DecodeEOF | DecodeError.
Arguments Decoded {A}. Arguments DecodeEOF {A}. Arguments DecodeError {A}.

(** Fields the struct does not have are ignored. *)
Fixpoint decode_members_lenient {A} (fields : list (field A)) (kvs : list (string * json)) (x : A)
    : option A :=
  match kvs with
  | [] => Some x
  | (key, v) :: kvs =>
      match find_field fields key with
      | Some f => x ← f v x; decode_members_lenient fields kvs x
      | None => decode_members_lenient fields kvs x
      end
  end.

Definition decode_body {A} (fields : list (field A)) (zero : A) (body : option string) : decode_result A :=
  match body with
  | None => DecodeError
  | Some text =>
      match skip_ws (list_ascii_of_string text) with
      | [] => DecodeEOF
      | _ =>
          match Decode text with
          | Some (JObject kvs) =>
              match decode_members_lenient fields kvs zero with Some a => Decoded a | None => DecodeError end
          | Some JNull => Decoded zero
          | _ => DecodeError
          end
      end
  end.

Definition decode_bool (v : json) (b : bool) : option bool :=
  match v with JBool b' => Some b' | JNull => Some b | _ => None end.

Definition code_fields : list (field string) := [("code", decode_string)].

(** The first 4096 bytes. *)
Definition limited (body : option string) : option string :=
  (fun b => string_of_list_ascii (take 4096 (list_ascii_of_string b))) <$> body.

(** [controlPanelErrorFromResponse] *)
Definition controlPanelErrorFromResponse (endpoint : string) (res : http_response) : error :=
  ControlPanelError endpoint (hrStatus res)
    match decode_body code_fields "" (limited (hrBody res)) with
    | Decoded code => TrimSpace code
    | _ => ""
    end.

Definition success (status : Z) : bool := (200 <=? status) && (status <? 300).

Definition errEOF : error := ErrNew "EOF".
Definition errDecode : error := ErrNew "invalid response body".

Section Client.
Context `{URLParse} (c : Config).

(** The request of [get] and of the post methods up to its answer: an error,
    or the response with its error by status. *)
Definition request (method endpoint : string) (body : option json)
    : cprog (http_response + error) :=
  match Validate c with
  | Some err => cret (inr err)
  | None =>
      let url := joinURL (pcControlPanelURL c) endpoint in
      let* invalid := call (NewRequest method url) in
      match invalid with
      | Some err => cret (inr err)
      | None =>
          let* answer := call (DoRequest method url (pcToken c) body) in
          match answer with
          | inr err => cret (inr err)
          | inl res =>
              if success (hrStatus res) then cret (inl res)
              else cret (inr (controlPanelErrorFromResponse endpoint res))
          end
      end
  end.

(** [postDecodeWithOptionalBody] into a value [out], when there is one: the
    status and the value, or the error. *)
Definition postDecodeWithOptionalBody {A} (endpoint : string) (payload : json)
    (out : option (list (field A) * A)) (zero : A) (allowEmptyBody : bool) : cprog (Z * A + error) :=
  let* answer := request "POST" endpoint (Some payload) in
  match answer with
  | inr err => cret (inr err)
  | inl res =>
      match out with
      | None => cret (inl (hrStatus res, zero))
      | Some (fields, start) =>
          match decode_body fields start (hrBody res) with
          | Decoded a => cret (inl (hrStatus res, a))
          | DecodeEOF => if allowEmptyBody then cret (inl (hrStatus res, start)) else cret (inr errEOF)
          | DecodeError => cret (inr errDecode)
          end
      end
  end.

(** [post] *)
Definition post (endpoint : string) (payload : json) : cprog (option error) :=
  let* answer := postDecodeWithOptionalBody endpoint payload (@None (list (field unit) * unit)) tt false in
  match answer with inr err => cret (Some err) | inl _ => cret None end.

(** [StartStream] *)
Definition StartStream (streamID : string) : cprog (option error) :=
  let streamID := TrimSpace streamID in
  if streamID =s "" then cret (Some (ErrNew "stream_id is required"))
  else post ("/services/streams/" ++ PathEscape streamID ++ "/start") (JObject []).

(** The receipt of a stop: [already_stopping] and [already_stopped]. *)
Definition receipt_fields : list (field (bool * bool)) :=
  [("already_stopping", fun v r => b ← decode_bool v r.1; Some (b, r.2));
   ("already_stopped", fun v r => b ← decode_bool v r.2; Some (r.1, b))].

(** What an answer of the stop endpoint says. *)
Definition stop_answer (streamID : string) (status : Z) (receipt : bool * bool) : option error :=
  if status =? 202 then (if receipt.2 then None else Some (AutoStopPendingError streamID))
  else if receipt.1 then Some (AutoStopPendingError streamID)
  else if (status =? 200) || (status =? 204) then None
  else Some (AutoStopPendingError streamID).

Definition as_control_error (e : error) : option unit :=
  match e with ControlPanelError _ _ _ => Some tt | _ => None end.

(** [StopStream] *)
Definition StopStream (streamID : string) : cprog (option error) :=
  let streamID := TrimSpace streamID in
  if streamID =s "" then cret (Some (ErrNew "stream_id is required"))
  else
    match Validate c with
    | Some err => cret (Some err)
    | None =>
        let* answer := postDecodeWithOptionalBody ("/services/streams/" ++ PathEscape streamID ++ "/stop")
          (JObject []) (Some (receipt_fields, (false, false))) (false, false) true in
        match answer with
        | inl (status, receipt) => cret (stop_answer streamID status receipt)
        | inr err =>
            match As as_control_error err with
            | Some _ => cret (Some err)
            | None => cret (Some (AutoStopTransportError (Some err)))
            end
        end
    end.

(** [RuntimeSecret], [ResolveRuntimeSecret] *)
Record RuntimeSecret := mkSecret { seSecretName : string; seValue : string; seExpiresInSec : Z }.

Definition secret_fields : list (field RuntimeSecret) :=
  [("secret_name", fun v r => s ← decode_string v (seSecretName r); Some (mkSecret s (seValue r) (seExpiresInSec r)));
   ("value", fun v r => s ← decode_string v (seValue r); Some (mkSecret (seSecretName r) s (seExpiresInSec r)));
   ("expires_in_sec", fun v r => n ← decode_int v (seExpiresInSec r); Some (mkSecret (seSecretName r) (seValue r) n))].

Definition ResolveRuntimeSecret (secretName : string) : cprog (RuntimeSecret + error) :=
  let secretName := TrimSpace secretName in
  if secretName =s "" then cret (inr (ErrNew "secret name is required"))
  else
    let* answer := postDecodeWithOptionalBody "/services/runtime-secrets/resolve"
      (JObject [("secret_name", JString secretName); ("service_id", JString (pcServiceID c))])
      (Some (secret_fields, mkSecret "" "" 0)) (mkSecret "" "" 0) false in
    match answer with
    | inr err => cret (inr err)
    | inl (_, secret) => cret (inl secret)
    end.
End Client.

(** ** What a stop request confirms *)

Definition sel_do X (e : CtlCall X) : X -> option (http_response + error) :=
  match e with DoRequest _ _ _ _ => Some | NewRequest _ _ => fun _ => None end.

(** The answers of the requests of a trace. *)
Definition answers (tr : list (obs CtlCall Empty_set)) : list (http_response + error) :=
  tr ≫= fun o => match o with OCall e x => option_list (sel_do _ e x) | _ => [] end.

Section Outcome.
Context `{URLParse} (c : Config) (en : env unit CtlCall).

(** Either nothing was sent, and the error is that of the checks or of the
    construction of the request, or the one answer decides. *)
Lemma request_outcome method endpoint body n s :
  let '(res, _, tr) := run en (request c method endpoint body) n s in
  (answers tr = [] /\ exists err, res = inr err /\
     (Validate c = None \/ Validate c = Some err)) \/
  exists answer, answers tr = [answer] /\
    res = match answer with
          | inr err => inr err
          | inl r => if success (hrStatus r) then inl r else inr (controlPanelErrorFromResponse endpoint r)
          end.
Proof.
  unfold request. destruct (Validate c) as [err|] eqn:Ev; [left; split; [done|]; by eauto|].
  cbv zeta. cbn [bind call run]. destruct (env_call en _ _ (NewRequest _ _) s) as [[err|] s1].
  { cbn [run]. left. split; [done|]. by eauto. }
  cbn [bind call run]. destruct (env_call en _ _ (DoRequest _ _ _ _) s1) as [[r|err] s2].
  - destruct (success (hrStatus r)) eqn:Es; cbn [run]; right; exists (inl r); by rewrite Es.
  - cbn [run]. right. by exists (inr err).
Qed.

(** The receipt read from a body: an empty one says nothing. *)
Definition receipt_of (body : option string) (receipt : bool * bool) : Prop :=
  decode_body receipt_fields (false, false) body = Decoded receipt \/
  decode_body receipt_fields (false, false) body = DecodeEOF /\ receipt = (false, false).

Definition stop_endpoint (streamID : string) : string :=
  "/services/streams/" ++ PathEscape (TrimSpace streamID) ++ "/stop".

(** What the result of a stop request means. *)
Definition stop_outcome (streamID : string) (res : option error) (sent : list (http_response + error)) : Prop :=
  match res with
  | None =>
      exists status body receipt,
        sent = [inl (mkHttp status body)] /\ receipt_of body receipt /\
        (status = 202 /\ receipt.2 = true \/ (status = 200 \/ status = 204) /\ receipt.1 = false)
  | Some e =>
      (sent = [] /\ (TrimSpace streamID = "" \/ Validate c = Some e \/ shouldRetryAutoStop e = true \/
                     exists err, As as_control_error err <> None /\ e = err)) \/
      exists answer, sent = [answer] /\
        match answer with
        | inl r => if success (hrStatus r) then shouldRetryAutoStop e = true
                   else e = controlPanelErrorFromResponse (stop_endpoint streamID) r
        | inr err => e = AutoStopTransportError (Some err) \/ As as_control_error err <> None /\ e = err
        end
  end.

Lemma stop_answer_outcome streamID status receipt :
  match stop_answer streamID status receipt with
  | None => status = 202 /\ receipt.2 = true \/ (status = 200 \/ status = 204) /\ receipt.1 = false
  | Some e => shouldRetryAutoStop e = true
  end.
Proof.
  unfold stop_answer. destruct receipt as [stopping stopped]. simpl.
  destruct (Z.eqb_spec status 202) as [->|]; [destruct stopped; [by left|done]|].
  destruct stopping; [done|].
  destruct (Z.eqb_spec status 200); simpl; [right; tauto|].
  destruct (Z.eqb_spec status 204); [right; tauto|done].
Qed.

Lemma stop_sent streamID r receipt :
  success (hrStatus r) = true -> receipt_of (hrBody r) receipt ->
  stop_outcome streamID (stop_answer (TrimSpace streamID) (hrStatus r) receipt) [inl r].
Proof.
  intros Hs Hr. pose proof (stop_answer_outcome (TrimSpace streamID) (hrStatus r) receipt) as Ha.
  destruct (stop_answer _ _ _) as [e|]; simpl.
  - right. exists (inl r). by rewrite Hs.
  - destruct r as [status body]. by exists status, body, receipt.
Qed.

(** C28: A stop request reports success only when the Control Panel confirmed
    that the stream is stopped: one request was answered with status 200 or
    204 and no [already_stopping], or with status 202 and [already_stopped].
    Every other success status, an empty receipt of status 202, an unreadable
    receipt and every transport failure is an error that the auto-stop retries;
    a refusal is the error with the panel's status and code. *)
Theorem stop_is_confirmed streamID n s :
  let '(res, _, tr) := run en (StopStream c streamID) n s in
  stop_outcome streamID res (answers tr).
Proof.
  unfold StopStream. cbv zeta.
  destruct (String.eqb_spec (TrimSpace streamID) "") as [E|E]; [left; split; [done|by left]|].
  destruct (Validate c) as [err|] eqn:Ev; [left; split; [done|right; by left]|].
  unfold postDecodeWithOptionalBody. fold (stop_endpoint streamID). rewrite run_bind.
  rewrite run_bind. pose proof (request_outcome "POST" (stop_endpoint streamID) (Some (JObject [])) n s) as Hr.
  destruct (run en (request _ _ _ _) n s) as [[res s1] tr].
  destruct Hr as [(Htr & err & -> & _)|([r|err] & Htr & ->)].
  - cbn [run]. destruct (As as_control_error err) eqn:Ea; cbn [run]; rewrite !app_nil_r, Htr; left; (split; [done|]).
    + right; right; right. exists err. split; [by rewrite Ea|done].
    + right; right; left. done.
  - destruct (success (hrStatus r)) eqn:Es.
    + destruct (decode_body receipt_fields (false, false) (hrBody r)) as [receipt| |] eqn:Eb; cbn [run].
      * rewrite !app_nil_r, Htr. apply stop_sent; [done|by left].
      * rewrite !app_nil_r, Htr. apply stop_sent; [done|by right].
      * change (As as_control_error errDecode) with (@None unit). cbn [run]. rewrite !app_nil_r, Htr.
        right. exists (inl r). by rewrite Es.
    + cbn [run]. change (As as_control_error (controlPanelErrorFromResponse _ r)) with (Some tt). cbn [run].
      rewrite !app_nil_r, Htr. right. exists (inl r). by rewrite Es.
  - cbn [run]. destruct (As as_control_error err) eqn:Ea; cbn [run]; rewrite !app_nil_r, Htr;
      right; exists (inr err); (split; [done|]); [right|by left].
    split; [by rewrite Ea|done].
Qed.
End Outcome.

Module Sample.
#[export] Instance local_url : URLParse := fun raw =>
  Some (mkGoURL "http" "localhost" false "LOCALHOST" "" "" "" "" (fun _ => "")).

Definition config : Config := mkPanelConfig "http://localhost/" "t" "bot-1" "bot" "http://localhost" "" 1 "v" "".

Definition stop (status : Z) (body : string) : option error :=
  (run {| env_call X _ e s :=
            (match e in CtlCall X return X with
             | NewRequest _ _ => None
             | DoRequest _ _ _ _ => inl (mkHttp status (Some (quoted body)))
             end, s);
          env_wait _ _ c s := (c s, s) |} (StopStream config " s/1 ") 0 tt).1.1.

Example stops :
  stop 200 "" = None /\ stop 204 "" = None /\ stop 202 "{'already_stopped':true,'x':1}" = None /\
  stop 202 "" = Some (AutoStopPendingError "s/1") /\
  stop 200 "{'already_stopping':true}" = Some (AutoStopPendingError "s/1") /\
  stop 201 "{}" = Some (AutoStopPendingError "s/1") /\
  stop 200 "[]" = Some (AutoStopTransportError (Some errDecode)) /\
  stop 409 "{'code':' conflict '}" = Some (ControlPanelError "/services/streams/s%2F1/stop" 409 "conflict") /\
  isLocalDevHost " [LocalHost]" = true.
Proof. vm_compute. done. Qed.
End Sample.
