(* ===== verification/RuntimeJson.v ===== *)
(** * RuntimeJson: decoding the runtime configuration

    [RuntimeConfig.UnmarshalJSON] of [internal/control/current_discord_bindings.go]
    with the duplicate-key checks of the authority fields,
    [DiscordWaitingMonitor.UnmarshalJSON] of [discord_waiting_monitor.go], and
    [Client.RuntimeConfig] of [client.go], over the structs of [RuntimeConfig].
    [encoding/json] decodes a struct member by member: unknown keys are skipped,
    a later member is decoded over what an earlier one left, also in the elements
    of a slice, and keys match field names up to case folding. *)

From Stdlib Require Import SpecFloat.
From S2P Require Import Prelude Conc Errors Utf8 Secrets Json Floats Rfc3339 NodeConfig RuntimeConfig Gateway.
From S2P Require Import Urls ControlClient.

Open Scope go_scope.

(** ** Numbers as doubles *)

Definition number (v : json) : option spec_float :=
  match v with
  | JInteger negative n => decimal negative n 0
  | JFraction negative n e => decimal negative n e
  | _ => None
  end.

Definition is_number (v : json) : bool :=
  match v with JInteger _ _ | JFraction _ _ _ => true | _ => false end.

Example float_samples :
  number (JFraction false 15 (-1)) = Some (S754_finite false 6755399441055744 (-52)) /\
  number (JFraction true 1 (-1)) = Some (S754_finite true 7205759403792794 (-56)) /\
  number (JFraction false 1 400) = None /\ number (JInteger true 0) = Some (S754_zero true).
Proof. vm_compute. done. Qed.

(** ** Values of type [any] *)

(** An [any] takes every value whose numbers are in range. *)
Fixpoint any_ok (v : json) : bool :=
  match v with
  | JInteger _ _ | JFraction _ _ _ => bool_decide (is_Some (number v))
  | JArray vs => forallb any_ok vs
  | JObject kvs => forallb (fun kv => any_ok kv.2) kvs
  | _ => true
  end.

Definition decode_any (v : json) : option config_any :=
  match v with
  | JString s => Some (AnyString s)
  | JBool b => Some (AnyBool b)
  | JInteger _ _ | JFraction _ _ _ => AnyNumber <$> number v
  | _ => if any_ok v then Some AnyOther else None
  end.

(** A map: [null] empties it, an object is merged into it. *)
Fixpoint decode_entries {A} (decode : json -> option A) (kvs : list (string * json))
    (m : gmap string A) : option (gmap string A) :=
  match kvs with
  | [] => Some m
  | (key, v) :: kvs => x ← decode v; decode_entries decode kvs (<[key := x]> m)
  end.

Definition decode_map {A} (decode : json -> option A) (v : json) (m : gmap string A)
    : option (gmap string A) :=
  match v with
  | JNull => Some ∅
  | JObject kvs => decode_entries decode kvs m
  | _ => None
  end.

(** ** Slices *)

(** A slice while its struct is decoded: its length, [None] for nil, and the
    elements its array holds, which an array of the input is decoded over. *)
Record slice (A : Type) := mkSlice { slLength : option nat; slArray : list A }.
Arguments mkSlice {A}. Arguments slLength {A}. Arguments slArray {A}.

Definition nil_slice {A} : slice A := mkSlice None [].

Definition elements {A} (s : slice A) : option (list A) :=
  (fun n => take n (slArray s)) <$> slLength s.

Fixpoint decode_items {A} (zero : A) (decode : json -> A -> option A) (vs : list json) (old : list A)
    : option (list A) :=
  match vs with
  | [] => Some old
  | v :: vs =>
      x ← decode v (default zero (head old));
      xs ← decode_items zero decode vs (tail old);
      Some (x :: xs)
  end.

Definition decode_slice {A} (zero : A) (decode : json -> A -> option A) (v : json) (s : slice A)
    : option (slice A) :=
  match v with
  | JNull => Some nil_slice
  | JArray [] => Some (mkSlice (Some O) [])
  | JArray vs => mkSlice (Some (length vs)) <$> decode_items zero decode vs (slArray s)
  | _ => None
  end.

(** A struct whose unknown members are skipped. *)
Definition decode_lenient {A} (fields : list (field A)) (v : json) (x : A) : option A :=
  match v with
  | JObject kvs => decode_members_lenient fields kvs x
  | JNull => Some x
  | _ => None
  end.

(** A field the model does not keep. *)
Definition ignored {A T} (name : string) (decode : json -> T -> option T) (zero : T) : field A :=
  (name, fun v r => _ ← decode v zero; Some r).

(** ** The structs *)

Record bindings_wire := mkBindingsWire {
  bwVersion : Z; bwBindings : slice CurrentDiscordCredentialBinding }.

Record monitor_wire := mkMonitorWire {
  mwVersion : Z;
  mwExecutionActive : bool;
  mwAvailabilityCode : string;
  mwBindings : slice DiscordWaitingMonitorBinding }.

(** [RuntimeConfig] without the monitor, which is decoded on its own. *)
Record config_wire := mkConfigWire {
  cwService : RegisteredService;
  cwAssignments : slice StreamServiceAssignment;
  cwProfiles : gmap string (list RuntimeProfile);
  cwStreamDiscordConfigs : slice StreamDiscordConfig;
  cwCurrentDiscordBindings : option bindings_wire }.

Definition eta_RegisteredService (r : RegisteredService) : RegisteredService :=
  mkService (rsServiceID r) (rsServiceType r) (rsCurrentStreamID r).

#[export] Instance set_rsServiceID : Setter rsServiceID := ltac:(mk_setter eta_RegisteredService).
#[export] Instance set_rsServiceType : Setter rsServiceType := ltac:(mk_setter eta_RegisteredService).
#[export] Instance set_rsCurrentStreamID : Setter rsCurrentStreamID := ltac:(mk_setter eta_RegisteredService).

Definition eta_StreamServiceAssignment (r : StreamServiceAssignment) : StreamServiceAssignment :=
  mkAssignment (ssStreamID r) (ssServiceID r) (ssServiceType r) (ssAssignmentRole r)
    (ssAssignedAt r).

#[export] Instance set_ssStreamID : Setter ssStreamID := ltac:(mk_setter eta_StreamServiceAssignment).
#[export] Instance set_ssServiceID : Setter ssServiceID := ltac:(mk_setter eta_StreamServiceAssignment).
#[export] Instance set_ssServiceType : Setter ssServiceType := ltac:(mk_setter eta_StreamServiceAssignment).
#[export] Instance set_ssAssignmentRole : Setter ssAssignmentRole := ltac:(mk_setter eta_StreamServiceAssignment).
#[export] Instance set_ssAssignedAt : Setter ssAssignedAt := ltac:(mk_setter eta_StreamServiceAssignment).

Definition eta_RuntimeProfile (r : RuntimeProfile) : RuntimeProfile :=
  mkProfile (rpID r) (rpKind r) (rpName r) (rpConfig r) (rpCreatedAt r) (rpUpdatedAt r).

#[export] Instance set_rpID : Setter rpID := ltac:(mk_setter eta_RuntimeProfile).
#[export] Instance set_rpKind : Setter rpKind := ltac:(mk_setter eta_RuntimeProfile).
#[export] Instance set_rpName : Setter rpName := ltac:(mk_setter eta_RuntimeProfile).
#[export] Instance set_rpConfig : Setter rpConfig := ltac:(mk_setter eta_RuntimeProfile).
#[export] Instance set_rpCreatedAt : Setter rpCreatedAt := ltac:(mk_setter eta_RuntimeProfile).
#[export] Instance set_rpUpdatedAt : Setter rpUpdatedAt := ltac:(mk_setter eta_RuntimeProfile).

Definition eta_StreamDiscordConfig (r : StreamDiscordConfig) : StreamDiscordConfig :=
  mkStreamConfig (scStreamID r) (scAssignmentRole r) (scDiscordConfigID r) (scGuildID r)
    (scVoiceChannelID r) (scTextChannelID r) (scAutoStartTrigger r).

#[export] Instance set_scStreamID : Setter scStreamID := ltac:(mk_setter eta_StreamDiscordConfig).
#[export] Instance set_scAssignmentRole : Setter scAssignmentRole := ltac:(mk_setter eta_StreamDiscordConfig).
#[export] Instance set_scDiscordConfigID : Setter scDiscordConfigID := ltac:(mk_setter eta_StreamDiscordConfig).
#[export] Instance set_scGuildID : Setter scGuildID := ltac:(mk_setter eta_StreamDiscordConfig).
#[export] Instance set_scVoiceChannelID : Setter scVoiceChannelID := ltac:(mk_setter eta_StreamDiscordConfig).
#[export] Instance set_scTextChannelID : Setter scTextChannelID := ltac:(mk_setter eta_StreamDiscordConfig).
#[export] Instance set_scAutoStartTrigger : Setter scAutoStartTrigger := ltac:(mk_setter eta_StreamDiscordConfig).

Definition eta_CurrentDiscordCredentialBinding (r : CurrentDiscordCredentialBinding) : CurrentDiscordCredentialBinding :=
  mkBinding (cbStreamID r) (cbServiceID r) (cbServiceType r) (cbAssignmentRole r)
    (cbAssignmentEpoch r) (cbProfileID r) (cbProfileOwnerServiceID r) (cbSecretName r)
    (cbFingerprint r) (cbReady r) (cbReadinessCode r).

#[export] Instance set_cbStreamID : Setter cbStreamID := ltac:(mk_setter eta_CurrentDiscordCredentialBinding).
#[export] Instance set_cbServiceID : Setter cbServiceID := ltac:(mk_setter eta_CurrentDiscordCredentialBinding).
#[export] Instance set_cbServiceType : Setter cbServiceType := ltac:(mk_setter eta_CurrentDiscordCredentialBinding).
#[export] Instance set_cbAssignmentRole : Setter cbAssignmentRole := ltac:(mk_setter eta_CurrentDiscordCredentialBinding).
#[export] Instance set_cbAssignmentEpoch : Setter cbAssignmentEpoch := ltac:(mk_setter eta_CurrentDiscordCredentialBinding).
#[export] Instance set_cbProfileID : Setter cbProfileID := ltac:(mk_setter eta_CurrentDiscordCredentialBinding).
#[export] Instance set_cbProfileOwnerServiceID : Setter cbProfileOwnerServiceID := ltac:(mk_setter eta_CurrentDiscordCredentialBinding).
#[export] Instance set_cbSecretName : Setter cbSecretName := ltac:(mk_setter eta_CurrentDiscordCredentialBinding).
#[export] Instance set_cbFingerprint : Setter cbFingerprint := ltac:(mk_setter eta_CurrentDiscordCredentialBinding).
#[export] Instance set_cbReady : Setter cbReady := ltac:(mk_setter eta_CurrentDiscordCredentialBinding).
#[export] Instance set_cbReadinessCode : Setter cbReadinessCode := ltac:(mk_setter eta_CurrentDiscordCredentialBinding).

Definition eta_DiscordWaitingCredentialBinding (r : DiscordWaitingCredentialBinding) : DiscordWaitingCredentialBinding :=
  mkWaitingCredential (wcStreamID r) (wcServiceID r) (wcServiceType r) (wcSelectionEpoch r)
    (wcProfileID r) (wcProfileRevision r) (wcProfileOwnerServiceID r) (wcSecretName r)
    (wcFingerprint r) (wcReady r) (wcReadinessCode r).

#[export] Instance set_wcStreamID : Setter wcStreamID := ltac:(mk_setter eta_DiscordWaitingCredentialBinding).
#[export] Instance set_wcServiceID : Setter wcServiceID := ltac:(mk_setter eta_DiscordWaitingCredentialBinding).
#[export] Instance set_wcServiceType : Setter wcServiceType := ltac:(mk_setter eta_DiscordWaitingCredentialBinding).
#[export] Instance set_wcSelectionEpoch : Setter wcSelectionEpoch := ltac:(mk_setter eta_DiscordWaitingCredentialBinding).
#[export] Instance set_wcProfileID : Setter wcProfileID := ltac:(mk_setter eta_DiscordWaitingCredentialBinding).
#[export] Instance set_wcProfileRevision : Setter wcProfileRevision := ltac:(mk_setter eta_DiscordWaitingCredentialBinding).
#[export] Instance set_wcProfileOwnerServiceID : Setter wcProfileOwnerServiceID := ltac:(mk_setter eta_DiscordWaitingCredentialBinding).
#[export] Instance set_wcSecretName : Setter wcSecretName := ltac:(mk_setter eta_DiscordWaitingCredentialBinding).
#[export] Instance set_wcFingerprint : Setter wcFingerprint := ltac:(mk_setter eta_DiscordWaitingCredentialBinding).
#[export] Instance set_wcReady : Setter wcReady := ltac:(mk_setter eta_DiscordWaitingCredentialBinding).
#[export] Instance set_wcReadinessCode : Setter wcReadinessCode := ltac:(mk_setter eta_DiscordWaitingCredentialBinding).

Definition eta_DiscordWaitingMonitorBinding (r : DiscordWaitingMonitorBinding) : DiscordWaitingMonitorBinding :=
  mkWaitingBinding (wbCredential r) (wbGuildID r) (wbVoiceChannelID r) (wbTextChannelID r)
    (wbTargetRevision r) (wbAutoStartTrigger r).

#[export] Instance set_wbCredential : Setter wbCredential := ltac:(mk_setter eta_DiscordWaitingMonitorBinding).
#[export] Instance set_wbGuildID : Setter wbGuildID := ltac:(mk_setter eta_DiscordWaitingMonitorBinding).
#[export] Instance set_wbVoiceChannelID : Setter wbVoiceChannelID := ltac:(mk_setter eta_DiscordWaitingMonitorBinding).
#[export] Instance set_wbTextChannelID : Setter wbTextChannelID := ltac:(mk_setter eta_DiscordWaitingMonitorBinding).
#[export] Instance set_wbTargetRevision : Setter wbTargetRevision := ltac:(mk_setter eta_DiscordWaitingMonitorBinding).
#[export] Instance set_wbAutoStartTrigger : Setter wbAutoStartTrigger := ltac:(mk_setter eta_DiscordWaitingMonitorBinding).

Definition eta_bindings_wire (r : bindings_wire) : bindings_wire :=
  mkBindingsWire (bwVersion r) (bwBindings r).

#[export] Instance set_bwVersion : Setter bwVersion := ltac:(mk_setter eta_bindings_wire).
#[export] Instance set_bwBindings : Setter bwBindings := ltac:(mk_setter eta_bindings_wire).

Definition eta_monitor_wire (r : monitor_wire) : monitor_wire :=
  mkMonitorWire (mwVersion r) (mwExecutionActive r) (mwAvailabilityCode r) (mwBindings r).

#[export] Instance set_mwVersion : Setter mwVersion := ltac:(mk_setter eta_monitor_wire).
#[export] Instance set_mwExecutionActive : Setter mwExecutionActive := ltac:(mk_setter eta_monitor_wire).
#[export] Instance set_mwAvailabilityCode : Setter mwAvailabilityCode := ltac:(mk_setter eta_monitor_wire).
#[export] Instance set_mwBindings : Setter mwBindings := ltac:(mk_setter eta_monitor_wire).

Definition eta_config_wire (r : config_wire) : config_wire :=
  mkConfigWire (cwService r) (cwAssignments r) (cwProfiles r) (cwStreamDiscordConfigs r)
    (cwCurrentDiscordBindings r).

#[export] Instance set_cwService : Setter cwService := ltac:(mk_setter eta_config_wire).
#[export] Instance set_cwAssignments : Setter cwAssignments := ltac:(mk_setter eta_config_wire).
#[export] Instance set_cwProfiles : Setter cwProfiles := ltac:(mk_setter eta_config_wire).
#[export] Instance set_cwStreamDiscordConfigs : Setter cwStreamDiscordConfigs := ltac:(mk_setter eta_config_wire).
#[export] Instance set_cwCurrentDiscordBindings : Setter cwCurrentDiscordBindings := ltac:(mk_setter eta_config_wire).

Definition zeroAssignment : StreamServiceAssignment := mkAssignment "" "" "" "" 0.
Definition zeroStreamConfig : StreamDiscordConfig := mkStreamConfig "" "" "" "" "" "" "".
Definition zeroWaitingBinding : DiscordWaitingMonitorBinding :=
  mkWaitingBinding zeroWaitingCredential "" "" "" 0 "".
Definition zeroConfigWire : config_wire := mkConfigWire (mkService "" "" "") nil_slice ∅ nil_slice None.
Definition zeroConfig : RuntimeConfig :=
  mkRuntimeConfig (mkService "" "" "") [] ∅ [] None false None false.

Definition service_fields : list (field RegisteredService) :=
  [on "service_id" decode_string rsServiceID;
   on "service_type" decode_string rsServiceType;
   ignored "service_name" decode_string "";
   ignored "public_url" decode_string "";
   ignored "version" decode_string "";
   ignored "status" decode_string "";
   ignored "assignment_role" decode_string "";
   on "current_stream_id" decode_string rsCurrentStreamID;
   ignored "capabilities" (decode_map decode_any) ∅].

Definition assignment_fields : list (field StreamServiceAssignment) :=
  [on "stream_id" decode_string ssStreamID;
   on "service_id" decode_string ssServiceID;
   on "service_type" decode_string ssServiceType;
   on "assignment_role" decode_string ssAssignmentRole;
   on "assigned_at" decode_time ssAssignedAt].

Definition profile_fields : list (field RuntimeProfile) :=
  [on "id" decode_string rpID;
   on "kind" decode_string rpKind;
   on "name" decode_string rpName;
   on "config" (decode_map decode_any) rpConfig;
   on "created_at" decode_time rpCreatedAt;
   on "updated_at" decode_time rpUpdatedAt].

Definition stream_config_fields : list (field StreamDiscordConfig) :=
  [on "stream_id" decode_string scStreamID;
   on "assignment_role" decode_string scAssignmentRole;
   on "discord_config_id" decode_string scDiscordConfigID;
   on "guild_id" decode_string scGuildID;
   on "voice_channel_id" decode_string scVoiceChannelID;
   on "text_channel_id" decode_string scTextChannelID;
   on "auto_start_trigger" decode_string scAutoStartTrigger].

Definition binding_fields : list (field CurrentDiscordCredentialBinding) :=
  [on "stream_id" decode_string cbStreamID;
   on "service_id" decode_string cbServiceID;
   on "service_type" decode_string cbServiceType;
   on "assignment_role" decode_string cbAssignmentRole;
   on "assignment_epoch" decode_time cbAssignmentEpoch;
   on "profile_id" decode_string cbProfileID;
   on "profile_owner_service_id" decode_string cbProfileOwnerServiceID;
   on "secret_name" decode_string cbSecretName;
   on "fingerprint" decode_string cbFingerprint;
   on "ready" decode_bool cbReady;
   on "readiness_code" decode_string cbReadinessCode].

Definition bindings_fields : list (field bindings_wire) :=
  [on "version" decode_int bwVersion;
   on "bindings" (decode_slice zeroBinding (decode_lenient binding_fields)) bwBindings].

Definition waiting_credential_fields : list (field DiscordWaitingCredentialBinding) :=
  [on "stream_id" decode_string wcStreamID;
   on "service_id" decode_string wcServiceID;
   on "service_type" decode_string wcServiceType;
   on "selection_epoch" decode_time wcSelectionEpoch;
   on "profile_id" decode_string wcProfileID;
   on "profile_revision" decode_string wcProfileRevision;
   on "profile_owner_service_id" decode_string wcProfileOwnerServiceID;
   on "secret_name" decode_string wcSecretName;
   on "fingerprint" decode_string wcFingerprint;
   on "ready" decode_bool wcReady;
   on "readiness_code" decode_string wcReadinessCode].

(** The fields of an embedded struct are promoted. *)
Definition promoted {A T} (fields : list (field T)) (proj : A -> T) `{!Setter proj} : list (field A) :=
  map (fun f => on f.1 f.2 proj) fields.

Definition waiting_binding_fields : list (field DiscordWaitingMonitorBinding) :=
  (promoted waiting_credential_fields wbCredential ++
   [on "guild_id" decode_string wbGuildID;
    on "voice_channel_id" decode_string wbVoiceChannelID;
    on "text_channel_id" decode_string wbTextChannelID;
    on "target_revision" decode_uint64 wbTargetRevision;
    on "auto_start_trigger" decode_string wbAutoStartTrigger])%list.

Definition monitor_fields : list (field monitor_wire) :=
  [on "version" decode_int mwVersion;
   on "execution_active" decode_bool mwExecutionActive;
   ignored "required_capability" decode_string "";
   on "availability_code" decode_string mwAvailabilityCode;
   on "bindings" (decode_slice zeroWaitingBinding (decode_lenient waiting_binding_fields)) mwBindings].

(** A pointer: [null] is nil, and a value is decoded over what it points to. *)
Definition decode_pointer {A} (zero : A) (decode : json -> A -> option A) (v : json) (x : option A)
    : option (option A) :=
  match v with JNull => Some None | _ => Some <$> decode v (default zero x) end.

Definition decode_profiles (v : json) : option (list RuntimeProfile) :=
  default [] ∘ elements <$>
    decode_slice zeroProfile (decode_lenient profile_fields) v nil_slice.

Definition config_fields : list (field config_wire) :=
  [on "service" (decode_lenient service_fields) cwService;
   on "assignments" (decode_slice zeroAssignment (decode_lenient assignment_fields)) cwAssignments;
   on "profiles" (decode_map decode_profiles) cwProfiles;
   on "stream_discord_configs"
     (decode_slice zeroStreamConfig (decode_lenient stream_config_fields)) cwStreamDiscordConfigs;
   on "current_discord_bindings"
     (decode_pointer (mkBindingsWire 0 nil_slice) (decode_lenient bindings_fields)) cwCurrentDiscordBindings].

(** ** Duplicate keys *)

(** [unicode.ToLower] of the runes that have a lower case and are neither ASCII
    nor U+0130 or U+212A, whose lower case is ASCII. *)
Class LowerRune := lower_rune : list ascii -> list ascii.

Definition lower1 `{LowerRune} (rune : list ascii) : list ascii :=
  match rune with
  | [a] => [lower_ascii a]
  | _ =>
      if bool_decide (byteN <$> rune = [196; 176]%N) then ["i"%char]
      else if bool_decide (byteN <$> rune = [226; 132; 170]%N) then ["k"%char]
      else lower_rune rune
  end.

(** [strings.ToLower] *)
Definition lower_key `{LowerRune} (s : string) : string :=
  string_of_list_ascii (List.concat (lower1 <$> runes s)).

(** Errors of [encoding/json], whose texts are left out. *)
Definition errNesting : error := ErrNew "current authority nesting exceeds wire contract".
Definition errDuplicateKey : error := ErrNew "duplicate current authority key".
Definition errCurrentEnvelope : error := ErrNew "duplicate current authority envelope".
Definition errWaitingEnvelope : error := ErrNew "duplicate waiting monitoring envelope".
Definition errNotObject : error := ErrNew "runtime config must be an object".

Section Keys.
Context `{LowerRune}.

(** [rejectCurrentBindingDuplicateKeys]: over the tokens of a value at [depth];
    a number that is no double is an error of its token. *)
Fixpoint rejectCurrentBindingDuplicateKeys (v : json) (depth : Z) {struct v} : option error :=
  if 16 <? depth then Some errNesting
  else
    match v with
    | JObject kvs =>
        (fix members (seen : list string) (kvs : list (string * json)) : option error :=
           match kvs with
           | [] => None
           | (key, x) :: kvs =>
               let name := lower_key key in
               if bool_decide (name ∈ seen) then Some errDuplicateKey
               else
                 match rejectCurrentBindingDuplicateKeys x (depth + 1) with
                 | Some err => Some err
                 | None => members (name :: seen) kvs
                 end
           end) [] kvs
    | JArray vs =>
        (fix items (vs : list json) : option error :=
           match vs with
           | [] => None
           | x :: vs =>
               match rejectCurrentBindingDuplicateKeys x (depth + 1) with
               | Some err => Some err
               | None => items vs
               end
           end) vs
    | JInteger _ _ | JFraction _ _ _ => if number v is Some _ then None else Some errDecode
    | _ => None
    end.

(** [strings.EqualFold] of a key and an ASCII name. *)
Definition is_current (key : string) : bool := fold_name key =s "current_discord_bindings".
Definition is_waiting (key : string) : bool := fold_name key =s "discord_waiting_monitor".

(** The member [envelope] selects: once at most, and without duplicates inside. *)
Fixpoint envelope_keys (envelope : string -> bool) (duplicate : error) (found : bool)
    (kvs : list (string * json)) : option error :=
  match kvs with
  | [] => None
  | (key, v) :: kvs =>
      if negb (envelope key) then envelope_keys envelope duplicate found kvs
      else if found then Some duplicate
      else
        match rejectCurrentBindingDuplicateKeys v 0 with
        | Some err => Some err
        | None => envelope_keys envelope duplicate true kvs
        end
  end.

Definition validateCurrentBindingJSONKeys (v : json) : option error :=
  match v with JObject kvs => envelope_keys is_current errCurrentEnvelope false kvs | _ => None end.

Definition validateDiscordWaitingMonitorJSONKeys (v : json) : option error :=
  match v with
  | JObject kvs => envelope_keys is_waiting errWaitingEnvelope false kvs
  | _ => Some errNotObject
  end.

(** ** [UnmarshalJSON] *)

(** The entry of a key in a [map[string]json.RawMessage] in the order in which
    the map is marshaled; a later value of a key replaces an earlier one. *)
Fixpoint put_entry (key : string) (v : json) (m : list (string * json)) : list (string * json) :=
  match m with
  | [] => [(key, v)]
  | (k, x) :: rest =>
      match String.compare key k with
      | Lt => (key, v) :: m
      | Eq => (key, v) :: rest
      | Gt => (k, x) :: put_entry key v rest
      end
  end.

Definition raw_map (kvs : list (string * json)) : list (string * json) :=
  fold_left (fun m kv => put_entry kv.1 kv.2 m) kvs [].

Definition entry (key : string) (m : list (string * json)) : option json :=
  snd <$> List.find (fun kv => kv.1 =s key) m.

(** [DiscordWaitingMonitor.UnmarshalJSON]; every failure is the same error. *)
Definition unmarshalMonitor (v : json) : option DiscordWaitingMonitor :=
  match v with
  | JObject kvs =>
      match entry "execution_active" (raw_map kvs) with
      | Some (JBool _) =>
          m ← decode_lenient monitor_fields v (mkMonitorWire 0 false "" nil_slice);
          Some (mkMonitor (mwVersion m) (mwExecutionActive m) (mwAvailabilityCode m)
                  (elements (mwBindings m)))
      | _ => None
      end
  | _ => None
  end.

Definition config_of (w : config_wire) (present waitingPresent : bool) : RuntimeConfig :=
  mkRuntimeConfig (cwService w) (default [] (elements (cwAssignments w))) (cwProfiles w)
    (default [] (elements (cwStreamDiscordConfigs w)))
    ((fun b => mkBindings (bwVersion b) (elements (bwBindings b))) <$> cwCurrentDiscordBindings w)
    present None waitingPresent.

Definition with_monitor (monitor : option DiscordWaitingMonitor) (cfg : RuntimeConfig) : RuntimeConfig :=
  mkRuntimeConfig (rcService cfg) (rcAssignments cfg) (rcProfiles cfg) (rcStreamDiscordConfigs cfg)
    (rcCurrentDiscordBindings cfg) (rcCurrentDiscordBindingsPresent cfg) monitor
    (rcDiscordWaitingMonitorPresent cfg).

(** [fmt.Errorf("%w: ...")] *)
Definition wrap (sentinel : error) (text : string) : error :=
  Wrapped (Error sentinel ++ ": " ++ text) (Some sentinel).

(** The end of [UnmarshalJSON], when the execution authority is decoded. *)
Definition unmarshal_monitor (v : json) (waitingRaw : option json) (cfg : RuntimeConfig)
    : RuntimeConfig * option error :=
  match validateDiscordWaitingMonitorJSONKeys v with
  | Some err => (cfg, Some (wrap ErrInvalidDiscordWaitingMonitor (Error err)))
  | None =>
      match waitingRaw with
      | None => (cfg, None)
      | Some JNull => (with_monitor None cfg, None)
      | Some raw =>
          match unmarshalMonitor raw with
          | None => (cfg, Some ErrInvalidDiscordWaitingMonitor)
          | Some monitor => (with_monitor (Some monitor) cfg, None)
          end
      end
  end.

(** [RuntimeConfig.UnmarshalJSON] over [cfg]: what [cfg] is afterwards, and the
    error.  The keys of a map are visited in any order: two that fold to the
    monitor are refused before its value is used. *)
Definition UnmarshalJSON (v : json) (cfg : RuntimeConfig) : RuntimeConfig * option error :=
  match (match v with JObject kvs => Some kvs | JNull => Some [] | _ => None end) with
  | None => (cfg, Some errDecode)
  | Some kvs =>
      let fields := raw_map kvs in
      let present := existsb (fun kv => is_current kv.1) fields in
      let waitingRaw := snd <$> List.find (fun kv => is_waiting kv.1) fields in
      let withoutWaiting := List.filter (fun kv => negb (is_waiting kv.1)) fields in
      match validateCurrentBindingJSONKeys v with
      | Some err => (cfg, Some (wrap ErrInvalidCurrentDiscordBinding (Error err)))
      | None =>
          match decode_lenient config_fields (JObject withoutWaiting) zeroConfigWire with
          | None =>
              (cfg, Some (if present then wrap ErrInvalidCurrentDiscordBinding "malformed authority fields"
                          else errDecode))
          | Some value =>
              unmarshal_monitor v waitingRaw
                (config_of value present (match waitingRaw with Some _ => true | None => false end))
          end
      end
  end.

(** ** [Client.RuntimeConfig] *)

(** The first value of a body, decoded. *)
Definition decode_config (body : option string) : RuntimeConfig * option error :=
  match body with
  | None => (zeroConfig, Some errDecode)
  | Some text =>
      match skip_ws (list_ascii_of_string text) with
      | [] => (zeroConfig, Some errEOF)
      | _ =>
          match Decode text with
          | None => (zeroConfig, Some errDecode)
          | Some v => UnmarshalJSON v zeroConfig
          end
      end
  end.

Definition RuntimeConfig_ `{URLParse} (c : Config) : cprog (RuntimeConfig * option error) :=
  let* answer := request c "GET" ("/services/runtime-config?service_id=" ++ QueryEscape (pcServiceID c)) None in
  match answer with
  | inr err => cret (zeroConfig, Some err)
  | inl res =>
      let '(cfg, err) := decode_config (hrBody res) in
      match err with
      | Some err =>
          if Is err ErrInvalidDiscordWaitingMonitor then cret (cfg, Some err)
          else cret (zeroConfig, Some err)
      | None => cret (cfg, None)
      end
  end.
End Keys.

(** ** What the duplicate check accepts *)

Section Facts.
Context `{LowerRune}.

Abbreviation reject := rejectCurrentBindingDuplicateKeys.

Lemma reject_array vs d :
  reject (JArray vs) d = None <-> d <= 16 /\ Forall (fun v => reject v (d + 1) = None) vs.
Proof.
  cbn [rejectCurrentBindingDuplicateKeys]. destruct (Z.ltb_spec 16 d); [split; [done|lia]|].
  transitivity (Forall (fun v => reject v (d + 1) = None) vs); [|by split; [split; [lia|]|intros [_ ?]]].
  induction vs as [|v vs IH]; [by split; [constructor|]|]. rewrite Forall_cons, <- IH.
  destruct (reject v (d + 1)); naive_solver.
Qed.

Lemma reject_object kvs d :
  reject (JObject kvs) d = None <->
  d <= 16 /\ NoDup (lower_key <$> kvs.*1) /\ Forall (fun kv => reject kv.2 (d + 1) = None) kvs.
Proof.
  cbn [rejectCurrentBindingDuplicateKeys]. destruct (Z.ltb_spec 16 d); [split; [done|lia]|].
  match goal with |- ?go [] kvs = None <-> _ =>
    assert (forall seen, go seen kvs = None <->
      NoDup (lower_key <$> kvs.*1) /\ Forall (fun k => k ∉ seen) (lower_key <$> kvs.*1) /\
      Forall (fun kv => reject kv.2 (d + 1) = None) kvs) as Hgo
  end.
  - induction kvs as [|[k v] kvs IH]; intros seen.
    { simpl. split; [|done]. by repeat split; constructor. }
    cbn [fmap list_fmap fst snd]. rewrite NoDup_cons, !Forall_cons. cbn [snd].
    case_bool_decide as Hin; [by split; [|intros (_ & [Hn _] & _)]|].
    destruct (reject v (d + 1)); [by split; [|intros (_ & _ & [Hn _])]|]. rewrite IH, !Forall_forall.
    split.
    + intros (Hn & Hs & Hr). split_and!; try done.
      * intros Hk. destruct (Hs _ Hk). left.
      * intros k' Hk' Hin'. destruct (Hs _ Hk'). by right.
    + intros ([Hk Hn] & [_ Hs] & _ & Hr). split_and!; try done.
      intros k' Hk' [->|Hin']%elem_of_cons; [done|by apply (Hs k')].
  - rewrite Hgo. split; [by intros (? & _ & ?)|]. intros (_ & ? & ?). split_and!; try done.
    apply Forall_forall. intros k _. apply not_elem_of_nil.
Qed.

(** Members of objects in another order, [n] levels deep. *)
Fixpoint reordered (n : nat) (v v' : json) : Prop :=
  v = v' \/
  match n with
  | O => False
  | S n =>
      match v, v' with
      | JArray vs, JArray vs' => Forall2 (reordered n) vs vs'
      | JObject kvs, JObject kvs' =>
          exists l, Forall2 (fun a b => a.1 = b.1 /\ reordered n a.2 b.2) kvs l /\ l ≡ₚ kvs'
      | _, _ => False
      end
  end.

Lemma reordered_keys n (kvs l : list (string * json)) :
  Forall2 (fun a b => a.1 = b.1 /\ reordered n a.2 b.2) kvs l -> kvs.*1 = l.*1.
Proof. induction 1 as [|a b kvs l [Hk _] _ IH]; [done|]. cbn. by rewrite Hk, IH. Qed.

Lemma reordered_accepted n : forall v v' d, reordered n v v' -> reject v d = None -> reject v' d = None.
Proof.
  induction n as [|n IH]; intros v v' d [->|Hr]; try done.
  destruct v as [| | | | |vs|kvs], v' as [| | | | |vs'|kvs']; try done.
  - rewrite !reject_array. intros [Hd Hvs]. split; [done|].
    revert Hvs. induction Hr as [|v v' vs vs' Hv _ IHl]; [done|].
    rewrite !Forall_cons. intros [H1 H2]. split; [by apply (IH v)|by apply IHl].
  - destruct Hr as (l & Hl & Hp). rewrite !reject_object. intros (Hd & Hn & Hvs).
    rewrite (reordered_keys _ _ _ Hl) in Hn. split; [done|]. split; [by rewrite <- Hp|].
    rewrite <- Hp. clear Hp Hn.
    revert Hvs. induction Hl as [|a b kvs l [_ Hv] _ IHl]; [done|].
    rewrite !Forall_cons. intros [H1 H2]. split; [by apply (IH a.2)|by apply IHl].
Qed.

(** Keys of ASCII, everywhere in a value. *)
Definition ascii_key (key : string) : bool :=
  forallb (fun a => (byteN a <? 128)%N) (list_ascii_of_string key).

Fixpoint ascii_keys (v : json) : bool :=
  match v with
  | JArray vs => forallb ascii_keys vs
  | JObject kvs => forallb (fun kv => ascii_key kv.1 && ascii_keys kv.2) kvs
  | _ => true
  end.

Lemma fold_case_step a l : (byteN a < 128)%N -> fold_case (a :: l) = lower_ascii a :: fold_case l.
Proof.
  intros Ha. pose proof (proj2 (N.eqb_neq (byteN a) 197) ltac:(lia)) as H1.
  pose proof (proj2 (N.eqb_neq (byteN a) 226) ltac:(lia)) as H2.
  destruct l as [|b [|c l]]; [done|simpl; by rewrite H1|]. remember (b :: c :: l) as t eqn:Ht.
  simpl. rewrite Ht at 1. by rewrite H1, H2.
Qed.

Lemma fold_case_ascii l :
  forallb (fun a => (byteN a <? 128)%N) l = true -> fold_case l = lower_ascii <$> l.
Proof.
  induction l as [|a l IH]; [done|]. cbn [forallb]. intros Hl. bool_hyps.
  rewrite fold_case_step by (by apply N.ltb_lt). by rewrite IH.
Qed.

Lemma lower_ascii_runes l :
  forallb (fun a => (byteN a <? 128)%N) l = true ->
  List.concat (lower1 <$> runes_bytes l) = lower_ascii <$> l.
Proof.
  induction l as [|a l IH]; [done|]. cbn [forallb]. intros Hl. bool_hyps.
  cbn [runes_bytes]. match goal with H : (byteN a <? 128)%N = true |- _ => rewrite H end.
  cbn [fmap list_fmap List.concat lower1 app]. by rewrite IH.
Qed.

(** Of ASCII keys, two that fold alike are lowered alike. *)
Lemma lower_key_fold key : ascii_key key = true -> lower_key key = fold_name key.
Proof.
  intros Hk. unfold lower_key, fold_name, runes. by rewrite lower_ascii_runes, fold_case_ascii.
Qed.

(** ** Decoding that does not depend on the order of members *)

Create HintDb stable.

Definition stable {A} (decode : json -> A -> option A) : Prop :=
  forall n v v' x d, reordered n v v' -> reject v d = None -> ascii_keys v = true ->
    decode v x = decode v' x.

Lemma stable_scalar {A} (decode : json -> A -> option A) :
  (forall vs x, decode (JArray vs) x = None) -> (forall kvs x, decode (JObject kvs) x = None) ->
  stable decode.
Proof.
  intros Ha Ho [|n] v v' x d [->|Hr] _ _; try done. destruct v, v'; try done.
  - by rewrite !Ha.
  - by rewrite !Ho.
Qed.

Lemma stable_items {A} (zero : A) decode n vs vs' d :
  stable decode -> Forall2 (reordered n) vs vs' -> Forall (fun v => reject v d = None) vs ->
  forallb ascii_keys vs = true ->
  forall old, decode_items zero decode vs old = decode_items zero decode vs' old.
Proof.
  intros Hs Hf. induction Hf as [|v v' vs vs' Hv _ IH]; [done|].
  rewrite Forall_cons. cbn [forallb]. intros [Hr Hrs] Ha old. bool_hyps. cbn [decode_items].
  rewrite (Hs n v v' _ d) by done. destruct (decode v' _); [|done]. simpl. by rewrite IH.
Qed.

Lemma stable_slice {A} (zero : A) decode : stable decode -> stable (decode_slice zero decode).
Proof.
  intros Hs [|n] v v' x d [->|Hr] Hj Ha; try done. destruct v, v'; try done.
  apply reject_array in Hj as [_ Hj].
  pose proof (stable_items zero decode n _ _ _ Hs Hr Hj Ha (slArray x)) as Hi.
  pose proof (Forall2_length _ _ _ Hr) as Hl.
  destruct Hr as [|v v' vs vs' Hv Hvs]; [done|]. cbn [decode_slice]. by rewrite Hi, Hl.
Qed.

Lemma stable_pointer {A} (zero : A) decode : stable decode -> stable (decode_pointer zero decode).
Proof.
  intros Hs [|n] v v' x d [->|Hr] Hj Ha; try done.
  assert (decode v (default zero x) = decode v' (default zero x)) as Hd
    by (apply (Hs (S n) v v' _ d); [by right|done|done]).
  destruct v, v'; try done; cbn [decode_pointer]; by rewrite Hd.
Qed.

(** Fields that do not interfere. *)
Definition commute {A} (f g : field A) : Prop :=
  forall v w x, (y ← f.2 v x; g.2 w y) = (y ← g.2 w x; f.2 v y).

Record good_fields {A} (fields : list (field A)) : Prop := {
  gf_stable : Forall (fun f => stable f.2) fields;
  gf_commute : ForallOrdPairs commute fields;
  gf_names : NoDup (fold_name <$> fields.*1) }.

Lemma find_field_in {A} (fields : list (field A)) key f :
  find_field fields key = Some f ->
  exists name, (name, f) ∈ fields /\ fold_name name = fold_name key.
Proof.
  unfold find_field. destruct (List.find (fun f => f.1 =s key) fields) as [[name g]|] eqn:E.
  - intros [= <-]. apply List.find_some in E as [Hin Hk]. simpl in Hk. bool_hyps. subst.
    exists key. split; [by apply list_elem_of_In|done].
  - intros Hf. apply fmap_Some in Hf as ([name g] & E2 & ->). apply List.find_some in E2 as [Hin Hk].
    simpl in Hk. bool_hyps. exists name. split; [by apply list_elem_of_In|done].
Qed.

Lemma commute_sym {A} (f g : field A) : commute f g -> commute g f.
Proof. intros Hc v w x. symmetry. apply Hc. Qed.

Lemma members_swap {A} (fields : list (field A)) a b kvs x :
  good_fields fields -> fold_name a.1 <> fold_name b.1 ->
  decode_members_lenient fields (a :: b :: kvs) x = decode_members_lenient fields (b :: a :: kvs) x.
Proof.
  intros Hg Hne. destruct a as [ka va], b as [kb vb]. cbn [decode_members_lenient fst snd] in *.
  destruct (find_field fields ka) as [f|] eqn:Ef, (find_field fields kb) as [g|] eqn:Eg; try done.
  destruct (find_field_in _ _ _ Ef) as (nf & Hf & Hnf), (find_field_in _ _ _ Eg) as (ng & Hgg & Hng).
  assert (commute (nf, f) (ng, g)) as Hc.
  { destruct (ForallOrdPairs_In (gf_commute _ Hg) (nf, f) (ng, g)) as [[= -> _]|[?|?]];
      [by apply list_elem_of_In..|congruence|done|by apply commute_sym]. }
  specialize (Hc va vb x). cbn [snd] in Hc.
  transitivity (y ← (y ← f va x; g vb y); decode_members_lenient fields kvs y).
  - by destruct (f va x).
  - rewrite Hc. by destruct (g vb x).
Qed.

Lemma members_permuted {A} (fields : list (field A)) kvs kvs' :
  good_fields fields -> kvs ≡ₚ kvs' -> NoDup (fold_name <$> kvs.*1) ->
  forall x, decode_members_lenient fields kvs x = decode_members_lenient fields kvs' x.
Proof.
  intros Hg Hp. induction Hp as [|[k v] kvs kvs' _ IH|a b kvs|kvs kvs' kvs'' Hp1 IH1 _ IH2]; intros Hn x.
  - done.
  - cbn [fmap list_fmap fst] in Hn. apply NoDup_cons in Hn as [_ Hn]. cbn [decode_members_lenient].
    destruct (find_field fields k) as [f|]; [|by apply IH]. destruct (f v x); [|done]. by apply IH.
  - cbn [fmap list_fmap] in Hn. apply NoDup_cons in Hn as [Hn _]. rewrite not_elem_of_cons in Hn.
    apply members_swap; [done|]. naive_solver.
  - rewrite IH1 by done. apply IH2. by rewrite <- Hp1.
Qed.

Lemma members_stable {A} (fields : list (field A)) n kvs l d :
  good_fields fields -> Forall2 (fun a b => a.1 = b.1 /\ reordered n a.2 b.2) kvs l ->
  Forall (fun kv => reject kv.2 d = None) kvs -> forallb (fun kv => ascii_key kv.1 && ascii_keys kv.2) kvs = true ->
  forall x, decode_members_lenient fields kvs x = decode_members_lenient fields l x.
Proof.
  intros Hg Hf. induction Hf as [|[k v] [k' v'] kvs l [Hk Hv] _ IH]; [done|]. cbn [fst snd] in *. subst k'.
  rewrite Forall_cons. cbn [forallb fst snd]. intros [Hr Hrs] Ha x. bool_hyps.
  cbn [decode_members_lenient]. destruct (find_field fields k) as [f|] eqn:Ef; [|by apply IH].
  destruct (find_field_in _ _ _ Ef) as (name & Hin & _).
  assert (stable f) as Hs by (pose proof (gf_stable _ Hg) as Hst; rewrite Forall_forall in Hst; by apply (Hst (name, f))).
  rewrite (Hs n v v' x d) by done. destruct (f v' x); [|done]. by apply IH.
Qed.

Lemma fold_keys_distinct (kvs : list (string * json)) :
  forallb (fun kv => ascii_key kv.1 && ascii_keys kv.2) kvs = true ->
  lower_key <$> kvs.*1 = fold_name <$> kvs.*1.
Proof.
  induction kvs as [|[k v] kvs IH]; [done|]. cbn [forallb fst snd]. intros Ha. bool_hyps.
  cbn [fmap list_fmap fst]. by rewrite lower_key_fold, IH.
Qed.

Lemma stable_lenient {A} (fields : list (field A)) : good_fields fields -> stable (decode_lenient fields).
Proof.
  intros Hg [|n] v v' x d [->|Hr] Hj Ha; try done. destruct v as [| | | | | |kvs], v' as [| | | | | |kvs']; try done.
  destruct Hr as (l & Hl & Hp). apply reject_object in Hj as (_ & Hn & Hj). cbn [ascii_keys] in Ha.
  rewrite (fold_keys_distinct _ Ha) in Hn. cbn [decode_lenient].
  rewrite (members_stable fields n kvs l _ Hg Hl Hj Ha).
  apply members_permuted; [done|done|]. by rewrite <- (reordered_keys _ _ _ Hl).
Qed.

Lemma stable_on {A T} name (decode : json -> T -> option T) (proj : A -> T) `{!Setter proj} :
  stable decode -> stable (on name decode proj).2.
Proof. intros Hs n v v' x d Hr Hj Ha. cbn [on snd]. by rewrite (Hs n v v' _ d). Qed.

Lemma stable_string : stable decode_string. Proof. by apply stable_scalar. Qed.
Lemma stable_bool : stable decode_bool. Proof. by apply stable_scalar. Qed.
Lemma stable_int : stable decode_int. Proof. by apply stable_scalar. Qed.
Lemma stable_time : stable decode_time. Proof. by apply stable_scalar. Qed.

#[local] Hint Resolve stable_on stable_string stable_bool stable_int stable_time stable_slice
  stable_pointer stable_lenient : stable.

(** Fields of different projections do not interfere. *)
Lemma commute_on {A T U} name name' (decode : json -> T -> option T) (decode' : json -> U -> option U)
    (p : A -> T) (q : A -> U) `{!Setter p} `{!Setter q} :
  (forall r x, q (r <| p := x |>) = q r) -> (forall r y, p (r <| q := y |>) = p r) ->
  (forall r x y, r <| p := x |> <| q := y |> = r <| q := y |> <| p := x |>) ->
  commute (on name decode p) (on name' decode' q).
Proof.
  intros Hq Hp Hpq v w r. cbn [on snd].
  destruct (decode v (p r)) as [x|] eqn:E1, (decode' w (q r)) as [y|] eqn:E2; cbn [mbind option_bind];
    rewrite ?Hq, ?Hp, ?E1, ?E2; cbn [mbind option_bind]; by rewrite ?Hpq.
Qed.

Ltac commuting := repeat constructor; apply commute_on; by intros [].

Lemma binding_fields_good : good_fields binding_fields.
Proof.
  split.
  - unfold binding_fields. repeat constructor; auto with stable.
  - unfold binding_fields. commuting.
  - apply (bool_decide_eq_true_1 (NoDup (fold_name <$> binding_fields.*1))). vm_compute. reflexivity.
Qed.

#[local] Hint Resolve binding_fields_good : stable.

Lemma bindings_fields_good : good_fields bindings_fields.
Proof.
  split.
  - unfold bindings_fields. repeat constructor; auto with stable.
  - unfold bindings_fields. commuting.
  - apply (bool_decide_eq_true_1 (NoDup (fold_name <$> bindings_fields.*1))). vm_compute. reflexivity.
Qed.

#[local] Hint Resolve bindings_fields_good : stable.

(** ** The order of members in an authority *)

(** The error without that of the monitor alone: [None] means that the execution
    authority was accepted. *)
Definition execution_error (err : option error) : option error :=
  match err with
  | Some e => if Is e ErrInvalidDiscordWaitingMonitor then None else err
  | None => None
  end.

(** The members of two configurations that only differ in their authority. *)
Definition same_but (n : nat) (a b : string * json) : Prop :=
  a.1 = b.1 /\
  (a.2 = b.2 \/
   is_current a.1 = true /\ reordered n a.2 b.2 /\ reject a.2 0 = None /\ ascii_keys a.2 = true).

Lemma same_but_entry n m l a b :
  Forall2 (same_but n) m l -> same_but n a b ->
  Forall2 (same_but n) (put_entry a.1 a.2 m) (put_entry b.1 b.2 l).
Proof.
  destruct a as [ka va], b as [kb vb]. intros Hm [Hk Hv]. cbn [fst snd] in *. subst kb.
  assert (same_but n (ka, va) (ka, vb)) as Hab by (by split).
  induction Hm as [|[k x] [k' y] m l [Hk' Hxy] Hml IH];
    cbn [fst snd put_entry] in *; [by apply Forall2_cons|].
  subst k'. assert (same_but n (k, x) (k, y)) by (by split).
  destruct (String.compare ka k); rewrite ?Forall2_cons; auto.
Qed.

Lemma same_but_map n kvs l :
  Forall2 (same_but n) kvs l -> Forall2 (same_but n) (raw_map kvs) (raw_map l).
Proof.
  intros Hf. unfold raw_map.
  assert (Forall2 (same_but n) [] []) as H0 by constructor. revert H0.
  generalize (@nil (string * json)) at 1 3. generalize (@nil (string * json)).
  induction Hf as [|a b kvs l Hab _ IH]; intros m' m Hm; [done|]. cbn [fold_left].
  apply IH. by apply same_but_entry.
Qed.

Lemma same_but_filter n P m l :
  Forall2 (same_but n) m l ->
  Forall2 (same_but n) (List.filter (fun kv => P kv.1) m) (List.filter (fun kv => P kv.1) l).
Proof.
  induction 1 as [|a b m l [Hk Hv] _ IH]; [done|]. cbn [List.filter]. rewrite <- Hk.
  destruct (P a.1); [|done]. by constructor.
Qed.

Lemma same_but_exists n P m l :
  Forall2 (same_but n) m l -> existsb (fun kv => P kv.1) m = existsb (fun kv => P kv.1) l.
Proof. induction 1 as [|a b m l [Hk _] _ IH]; [done|]. cbn. by rewrite Hk, IH. Qed.

Lemma current_not_waiting key : is_current key = true -> is_waiting key = false.
Proof. unfold is_current, is_waiting. intros Hk. bool_hyps. by rewrite Hk. Qed.

Lemma same_but_waiting n m l :
  Forall2 (same_but n) m l ->
  snd <$> List.find (fun kv => is_waiting kv.1) m = snd <$> List.find (fun kv => is_waiting kv.1) l.
Proof.
  induction 1 as [|[k x] [k' y] m l [Hk Hv] _ IH]; [done|]. cbn [fst snd List.find] in *. subst k'.
  destruct (is_waiting k) eqn:E; [|done]. simpl. f_equal. destruct Hv as [|[Hc _]]; [done|].
  by rewrite (current_not_waiting k) in E.
Qed.

(** The key of a field is the key of the authority only for its own field. *)
Lemma current_field key f :
  is_current key = true -> find_field config_fields key = Some f -> stable f.
Proof.
  intros Hc Hf. destruct (find_field_in _ _ _ Hf) as (name & Hin & Hn).
  unfold is_current in Hc. bool_hyps. rewrite Hc in Hn. unfold config_fields, on in Hin.
  rewrite !elem_of_cons, elem_of_nil in Hin.
  destruct Hin as [[= -> _]|[[= -> _]|[[= -> _]|[[= -> _]|[[= -> ->]|[]]]]]]; try done.
  apply (stable_on "current_discord_bindings"). auto with stable.
Qed.

Lemma same_but_decoded n m l :
  Forall2 (same_but n) m l ->
  forall w, decode_members_lenient config_fields m w = decode_members_lenient config_fields l w.
Proof.
  induction 1 as [|[k x] [k' y] m l [Hk Hv] _ IH]; [done|]. intros w. cbn [fst snd decode_members_lenient] in *.
  subst k'. destruct (find_field config_fields k) as [f|] eqn:Ef; [|done].
  assert (f x w = f y w) as ->.
  { destruct Hv as [->|(Hc & Hr & Hj & Ha)]; [done|]. by apply (current_field k f Hc Ef n x y w 0). }
  destruct (f y w); [|done]. apply IH.
Qed.

Lemma envelope_app envelope dup found kvs1 kvs2 :
  envelope_keys envelope dup found (kvs1 ++ kvs2) =
  match envelope_keys envelope dup found kvs1 with
  | Some err => Some err
  | None => envelope_keys envelope dup (found || existsb (fun kv => envelope kv.1) kvs1) kvs2
  end.
Proof.
  revert found. induction kvs1 as [|[k v] kvs1 IH]; intros found; cbn [app envelope_keys existsb fst].
  { by rewrite orb_false_r. }
  destruct (envelope k); cbn [negb orb]; [|by apply IH].
  destruct found; [done|]. destruct (reject v 0); [done|]. by rewrite IH.
Qed.

Lemma current_keys_reordered n key v v' kvs1 kvs2 :
  is_current key = true -> reordered n v v' ->
  validateCurrentBindingJSONKeys (JObject (kvs1 ++ (key, v) :: kvs2)) = None ->
  reject v 0 = None /\ validateCurrentBindingJSONKeys (JObject (kvs1 ++ (key, v') :: kvs2)) = None.
Proof.
  cbn [validateCurrentBindingJSONKeys]. intros Hc Hr. rewrite !envelope_app.
  destruct (envelope_keys is_current errCurrentEnvelope false kvs1); [done|]. cbn [orb envelope_keys].
  rewrite Hc. cbn [negb]. destruct (existsb _ kvs1); [done|].
  destruct (reject v 0) eqn:E; [done|]. by rewrite (reordered_accepted n v v' 0 Hr E).
Qed.

Lemma waiting_keys_current envelope key v v' dup found kvs1 kvs2 :
  envelope key = false ->
  envelope_keys envelope dup found (kvs1 ++ (key, v) :: kvs2) =
  envelope_keys envelope dup found (kvs1 ++ (key, v') :: kvs2).
Proof.
  intros Hk. rewrite !envelope_app. destruct (envelope_keys _ _ _ kvs1); [done|].
  cbn [envelope_keys]. by rewrite Hk.
Qed.

(** C17: nothing is granted by the order of keys. When a runtime configuration
    is accepted (at least its execution authority), rearranging the members of
    the objects of its current bindings, however deep, changes nothing in what is
    decoded: no binding, credential reference or readiness depends on which of two
    members comes last. The keys of the authority are ASCII. *)
Theorem authority_order_irrelevant n key v v' kvs1 kvs2 cfg :
  is_current key = true -> ascii_keys v = true -> reordered n v v' ->
  let accepted := UnmarshalJSON (JObject (kvs1 ++ (key, v) :: kvs2)) cfg in
  execution_error accepted.2 = None ->
  UnmarshalJSON (JObject (kvs1 ++ (key, v') :: kvs2)) cfg = accepted.
Proof.
  intros Hk Ha Hr accepted Hacc.
  assert (validateCurrentBindingJSONKeys (JObject (kvs1 ++ (key, v) :: kvs2)) = None) as Hv.
  { unfold accepted, UnmarshalJSON in Hacc. by destruct (validateCurrentBindingJSONKeys _). }
  destruct (current_keys_reordered n key v v' kvs1 kvs2 Hk Hr Hv) as [Hj Hv'].
  assert (Forall2 (same_but n) (raw_map (kvs1 ++ (key, v) :: kvs2)) (raw_map (kvs1 ++ (key, v') :: kvs2))) as Hm.
  { apply same_but_map, Forall2_app; [|apply Forall2_cons; split].
    - apply Forall_Forall2_diag, Forall_forall. split; [done|by left].
    - split; [done|]. right. by split_and!.
    - apply Forall_Forall2_diag, Forall_forall. split; [done|by left]. }
  unfold accepted, UnmarshalJSON. rewrite Hv, Hv', <- (same_but_exists n is_current _ _ Hm),
    <- (same_but_waiting n _ _ Hm). cbn [decode_lenient].
  rewrite <- (same_but_decoded n _ _ (same_but_filter n (fun key => negb (is_waiting key)) _ _ Hm)).
  destruct (decode_members_lenient config_fields _ _); [|done].
  unfold unmarshal_monitor. cbn [validateDiscordWaitingMonitorJSONKeys].
  by rewrite (waiting_keys_current is_waiting key v' v) by (by apply current_not_waiting).
Qed.

(** ** The monitor and the execution authority *)

Definition key_lt (a b : string * json) : Prop := String.compare a.1 b.1 = Lt.

Lemma compare_trans a : forall b c,
  String.compare a b = Lt -> String.compare b c = Lt -> String.compare a c = Lt.
Proof.
  induction a as [|x a IH]; intros [|y b] [|z c]; simpl; try done.
  unfold Ascii.compare. destruct (N.compare_spec (N_of_ascii x) (N_of_ascii y)) as [Exy|Hxy|Hxy];
    destruct (N.compare_spec (N_of_ascii y) (N_of_ascii z)) as [Eyz|Hyz|Hyz]; try done; intros H1 H2.
  - rewrite Exy, Eyz, N.compare_refl. by apply (IH b).
  - by rewrite Exy, (proj2 (N.compare_lt_iff _ _)).
  - by rewrite <- Eyz, (proj2 (N.compare_lt_iff _ _)).
  - by rewrite (proj2 (N.compare_lt_iff _ _)) by (by etrans).
Qed.

Lemma compare_same a : String.compare a a = Eq.
Proof. induction a as [|x a IH]; [done|]. simpl. unfold Ascii.compare. by rewrite N.compare_refl. Qed.

Lemma compare_gt a b : String.compare a b = Gt -> String.compare b a = Lt.
Proof. intros Hc. by rewrite String.compare_antisym, Hc. Qed.

Lemma put_entry_keys k v m kv : kv ∈ put_entry k v m -> kv.1 = k \/ kv ∈ m.
Proof.
  induction m as [|[k' x] m IH]; cbn [put_entry].
  - intros ->%list_elem_of_singleton. by left.
  - destruct (String.compare k k') eqn:E; rewrite !elem_of_cons; [|by intros [->|?]; [left|right]|].
    + intros [->|?]; [by left|by right; right].
    + intros [->|Hin]; [by right; left|]. destruct (IH Hin); [by left|by right; right].
Qed.

Lemma put_entry_sorted k v m : StronglySorted key_lt m -> StronglySorted key_lt (put_entry k v m).
Proof.
  induction 1 as [|[k' x] m Hm IH Hall]; cbn [put_entry]; [by repeat constructor|].
  rewrite Forall_forall in Hall. destruct (String.compare k k') eqn:E.
  - apply String.compare_eq_iff in E as ->. constructor; [done|]. by apply Forall_forall.
  - constructor; [constructor; [done|by apply Forall_forall]|]. constructor; [done|].
    apply Forall_forall. intros kv Hkv. unfold key_lt. eapply compare_trans; [exact E|]. by apply Hall.
  - constructor; [done|]. apply Forall_forall. intros kv [Hk|Hin]%put_entry_keys; [|by apply Hall].
    unfold key_lt. cbn [fst]. rewrite Hk. by apply compare_gt.
Qed.

Section Filter.
Context (P : string -> bool).
Abbreviation sift := (List.filter (fun kv : string * json => P kv.1)).

Lemma put_entry_below k v m :
  Forall (key_lt (k, v)) m -> put_entry k v m = (k, v) :: m.
Proof. destruct m as [|[k' x] m]; [done|]. intros [Hk _]%Forall_cons. cbn. unfold key_lt in Hk. simpl in Hk. by rewrite Hk. Qed.

Lemma sift_put_entry k v m :
  StronglySorted key_lt m ->
  sift (put_entry k v m) = if P k then put_entry k v (sift m) else sift m.
Proof.
  induction 1 as [|[k' x] m Hm IH Hall]; cbn [put_entry List.filter fst]; [by destruct (P k)|].
  assert (Forall (key_lt (k', x)) (sift m)) as Hs.
  { rewrite Forall_forall in Hall. apply Forall_forall. intros kv Hkv%list_elem_of_In.
    apply List.filter_In in Hkv as [Hin _]. by apply Hall, list_elem_of_In. }
  destruct (String.compare k k') eqn:E; cbn [List.filter fst].
  - apply String.compare_eq_iff in E as ->. destruct (P k'); [|done]. cbn [put_entry].
    by rewrite compare_same.
  - destruct (P k) eqn:Ek; [|done].
    destruct (P k'); [cbn [put_entry]; by rewrite E|]. symmetry. apply put_entry_below.
    eapply Forall_impl; [exact Hs|]. intros kv Hkv. unfold key_lt in *. simpl in *. by eapply compare_trans.
  - rewrite IH. destruct (P k), (P k'); try done. cbn [put_entry]. by rewrite E.
Qed.

Lemma sift_raw_map kvs : sift (raw_map kvs) = raw_map (sift kvs).
Proof.
  unfold raw_map. assert (StronglySorted key_lt []) as H0 by constructor.
  change (@nil (string * json)) with (sift []) at 2. revert H0.
  generalize (@nil (string * json)) as m. induction kvs as [|[k v] kvs IH]; intros m Hm; [done|].
  cbn [fold_left List.filter fst snd]. rewrite IH by (by apply put_entry_sorted).
  rewrite sift_put_entry by done. by destruct (P k).
Qed.
End Filter.

Definition without_monitor (kvs : list (string * json)) : list (string * json) :=
  List.filter (fun kv => negb (is_waiting kv.1)) kvs.

(** A configuration without its monitor. *)
Definition execution (cfg : RuntimeConfig) : RuntimeConfig :=
  mkRuntimeConfig (rcService cfg) (rcAssignments cfg) (rcProfiles cfg) (rcStreamDiscordConfigs cfg)
    (rcCurrentDiscordBindings cfg) (rcCurrentDiscordBindingsPresent cfg) None false.

Lemma envelope_sift dup found kvs :
  envelope_keys is_current dup found (without_monitor kvs) = envelope_keys is_current dup found kvs.
Proof.
  revert found. induction kvs as [|[k v] kvs IH]; intros found; [done|].
  unfold without_monitor in *. cbn [List.filter fst]. destruct (is_waiting k) eqn:Ew; cbn [negb envelope_keys].
  - assert (is_current k = false) as ->.
    { destruct (is_current k) eqn:Ec; [|done]. by rewrite current_not_waiting in Ew. }
    apply IH.
  - rewrite !IH. done.
Qed.

Lemma existsb_sift kvs :
  existsb (fun kv => is_current kv.1) (without_monitor kvs) = existsb (fun kv => is_current kv.1) kvs.
Proof.
  induction kvs as [|[k v] kvs IH]; [done|]. unfold without_monitor in *. cbn [List.filter fst].
  destruct (is_waiting k) eqn:Ew; cbn [negb existsb fst]; rewrite IH; [|done].
  destruct (is_current k) eqn:Ec; [|done]. by rewrite current_not_waiting in Ew.
Qed.

Lemma unmarshal_monitor_execution v raw cfg :
  let '(cfg', err) := unmarshal_monitor v raw cfg in
  execution cfg' = execution cfg /\ execution_error err = None.
Proof.
  unfold unmarshal_monitor. destruct (validateDiscordWaitingMonitorJSONKeys v) as [err|].
  { split; [done|]. unfold execution_error, wrap, ErrInvalidDiscordWaitingMonitor, Is.
    cbn [chain existsb]. by rewrite (bool_decide_eq_true_2 (ErrNew _ = ErrNew _)), orb_true_r. }
  destruct raw as [[]|]; try done; destruct (unmarshalMonitor _); done.
Qed.

(** C18: a monitor never masks the execution authority. Two configurations with
    the same members besides those of the waiting monitor, in whatever order,
    however often and with whatever values these occur, decode to the same
    service, assignments, profiles and current bindings, and are refused for the
    same reason if they are refused for more than their monitor. *)
Theorem monitor_cannot_mask_authority kvs kvs' cfg :
  without_monitor kvs = without_monitor kvs' ->
  let '(decoded, err) := UnmarshalJSON (JObject kvs) cfg in
  let '(decoded', err') := UnmarshalJSON (JObject kvs') cfg in
  execution decoded = execution decoded' /\ execution_error err = execution_error err'.
Proof.
  intros Hs. unfold UnmarshalJSON. cbn [validateCurrentBindingJSONKeys].
  rewrite <- (envelope_sift _ _ kvs), <- (envelope_sift _ _ kvs'), Hs.
  destruct (envelope_keys is_current _ _ _) as [err|]; [done|].
  rewrite <- (existsb_sift (raw_map kvs)), <- (existsb_sift (raw_map kvs')).
  unfold without_monitor in *. rewrite !(sift_raw_map (fun key => negb (is_waiting key))), Hs.
  destruct (decode_lenient config_fields _ _) as [w|]; [|done].
  match goal with |- let '(_, _) := unmarshal_monitor ?v ?raw ?c in let '(_, _) := unmarshal_monitor ?v' ?raw' ?c' in _ =>
    pose proof (unmarshal_monitor_execution v raw c) as H1;
    pose proof (unmarshal_monitor_execution v' raw' c') as H2;
    destruct (unmarshal_monitor v raw c) as [d e], (unmarshal_monitor v' raw' c') as [d' e'] end.
  destruct H1 as [-> ->], H2 as [-> ->]. done.
Qed.
End Facts.

(** ** What is fetched *)

Section Fetch.
Context `{LowerRune} `{URLParse} (c : Config) (en : env unit CtlCall).

(** The answer that was decoded, and what it was decoded to. *)
Definition fetched (tr : list (obs CtlCall Empty_set)) (cfg : RuntimeConfig) (err : option error) : Prop :=
  exists status body v, answers tr = [inl (mkHttp status (Some body))] /\ success status = true /\
    Decode body = Some v /\ UnmarshalJSON v zeroConfig = (cfg, err).

(** A configuration is handed on only when one successful answer decodes to it;
    with an error, only when the execution authority was accepted. *)
Theorem runtime_config_fetched n s :
  let '((cfg, err), _, tr) := run en (RuntimeConfig_ c) n s in
  match err with
  | None => fetched tr cfg None
  | Some e => cfg = zeroConfig \/ execution_error err = None /\ fetched tr cfg err
  end.
Proof.
  unfold RuntimeConfig_.
  pose proof (request_outcome c en "GET" ("/services/runtime-config?service_id=" ++ QueryEscape (pcServiceID c)) None n s) as Hr.
  rewrite run_bind. destruct (run en (request c _ _ _) n s) as [[res s1] tr].
  destruct Hr as [(Ha & err & -> & _)|([r|err] & Ha & ->)]; try (cbn [run]; by left).
  destruct (success (hrStatus r)) eqn:Es; [|cbn [run]; by left].
  destruct (decode_config (hrBody r)) as [cfg err] eqn:Ed.
  assert ((cfg = zeroConfig /\ is_Some err) \/ fetched tr cfg err) as Hf.
  { destruct r as [status [body|]]; cbn [decode_config hrBody] in Ed; [|left; by simplify_eq].
    destruct (skip_ws _) as [|]; [left; by simplify_eq|].
    destruct (Decode body) as [v|] eqn:Ev; [|left; by simplify_eq]. right. by exists status, body, v. }
  destruct err as [err|]; cbn [run]; [|rewrite app_nil_r; by destruct Hf as [[_ [? ?]]|]].
  destruct (Is err ErrInvalidDiscordWaitingMonitor) eqn:Ei; cbn [run]; [|by left]. rewrite app_nil_r.
  destruct Hf as [[-> _]|Hf]; [by left|right]. split; [|done]. cbn. by rewrite Ei.
Qed.
End Fetch.

(** ** Witnesses, and what ASCII keys are needed for *)
Module Sample.
#[local] Instance lower : LowerRune := fun rune => rune.

Definition decode (text : string) : RuntimeConfig * option error := decode_config (Some (quoted text)).

Definition member (key : string) (v : json) : string * json := (key, v).
Definition pair (a b : string * json) : json := JObject [a; b].

Definition version : string * json := ("version", JInt 1).
Definition credential : json := pair ("ready", JBool true) ("secret_name", JString "n").
Definition reversed : json := pair ("secret_name", JString "n") ("ready", JBool true).
Definition authority (b : json) : json := pair version ("bindings", JArray [b]).
Definition moved (b : json) : json := pair ("bindings", JArray [b]) version.

Lemma authority_order_irrelevant_witness :
  execution_error (UnmarshalJSON (JObject [("Current_Discord_Bindings", authority credential)]) zeroConfig).2 = None /\
  UnmarshalJSON (JObject [("Current_Discord_Bindings", moved reversed)]) zeroConfig =
  UnmarshalJSON (JObject [("Current_Discord_Bindings", authority credential)]) zeroConfig.
Proof.
  split; [vm_compute; reflexivity|].
  apply (authority_order_irrelevant 4 "Current_Discord_Bindings" (authority credential) (moved reversed) [] []);
    [vm_compute; reflexivity|vm_compute; reflexivity| |vm_compute; reflexivity].
  right. exists [version; ("bindings", JArray [reversed])]. split; [|apply perm_swap].
  constructor; [split; [done|by left]|]. constructor; [|constructor]. split; [done|].
  right. constructor; [|constructor]. right.
  exists [("ready", JBool true); ("secret_name", JString "n")]. split; [|apply perm_swap].
  repeat (constructor; [split; [done|by left]|]). constructor.
Defined.

(** With two monitors around it, or none, an authority is the same. *)
Lemma monitor_cannot_mask_authority_witness :
  let base := ("current_discord_bindings", authority credential) in
  let bad := ("discord_waiting_monitor", JBool true) in
  without_monitor [bad; base; bad] = without_monitor [base] /\
  execution (UnmarshalJSON (JObject [bad; base; bad]) zeroConfig).1 =
  execution (UnmarshalJSON (JObject [base]) zeroConfig).1.
Proof.
  intros base bad. assert (without_monitor [bad; base; bad] = without_monitor [base]) as Hs by (vm_compute; reflexivity).
  split; [exact Hs|]. pose proof (monitor_cannot_mask_authority _ _ zeroConfig Hs) as H.
  destruct (UnmarshalJSON (JObject [bad; base; bad]) zeroConfig) as [c e].
  destruct (UnmarshalJSON (JObject [base]) zeroConfig) as [c' e']. exact (proj1 H).
Defined.

(** U+017F, which [encoding/json] folds to [s] and [strings.ToLower] keeps. *)
Definition long_s : string := string_of_list_ascii ["197"; "191"]%char.

Definition ready_of (r : RuntimeConfig * option error) : option (list bool) :=
  match r with
  | (cfg, None) =>
      match rcCurrentDiscordBindings cfg with
      | Some (mkBindings _ (Some bs)) => Some (map cbReady bs)
      | _ => None
      end
  | _ => None
  end.

(** A second list of bindings under a key that the duplicate check takes for
    another: it is decoded over the first, and a binding that is not ready
    becomes ready, or not, by the order of the two. *)
Lemma duplicate_bindings_accepted :
  let bindings ready := JArray [JObject [("ready", JBool ready)]] in
  let decoded a b :=
    ready_of (UnmarshalJSON (JObject [("current_discord_bindings",
      pair ("bindings", bindings a) ("binding" ++ long_s, bindings b))]) zeroConfig) in
  decoded false true = Some [true] /\ decoded true false = Some [false].
Proof. vm_compute. done. Qed.
End Sample.
