(* ===== verification/RuntimeRoundtrip.v ===== *)
(** * RuntimeRoundtrip: the runtime configuration through its JSON

    A reference encoder for the configurations of [RuntimeConfig], and the round
    trip through [RuntimeJson]: every member is read under its key into its field,
    through the text of the answer, whatever the configuration holds. *)

From Stdlib Require Import SpecFloat.
From S2P Require Import Prelude Errors Utf8 Json Floats FloatText Rfc3339 RuntimeConfig Gateway ControlClient RuntimeJson.

Open Scope go_scope.

(** ** The reference encoder

    A time is written in UTC. *)

Definition list_json {A} (f : A -> json) (xs : option (list A)) : json :=
  match xs with Some xs => JArray (map f xs) | None => JNull end.
Definition map_json {A} (f : A -> json) (m : gmap string A) : json :=
  JObject (map (fun kv => (kv.1, f kv.2)) (map_to_list m)).

Definition service_json (s : RegisteredService) : json :=
  JObject [("service_id", JString (rsServiceID s)); ("service_type", JString (rsServiceType s));
           ("current_stream_id", JString (rsCurrentStreamID s))].

Definition assignment_json (a : StreamServiceAssignment) : json :=
  JObject [("stream_id", JString (ssStreamID a)); ("service_id", JString (ssServiceID a));
           ("service_type", JString (ssServiceType a)); ("assignment_role", JString (ssAssignmentRole a));
           ("assigned_at", time_json (ssAssignedAt a))].

(** A number by its shortest decimal; any other value of a profile is [null] here. *)
Definition any_json (x : config_any) : json :=
  match x with
  | AnyString s => JString s
  | AnyBool b => JBool b
  | AnyNumber x => default JNull (json_float x)
  | AnyOther => JNull
  end.

Definition profile_json (p : RuntimeProfile) : json :=
  JObject [("id", JString (rpID p)); ("kind", JString (rpKind p)); ("name", JString (rpName p));
           ("config", map_json any_json (rpConfig p));
           ("created_at", time_json (rpCreatedAt p)); ("updated_at", time_json (rpUpdatedAt p))].

Definition stream_config_json (c : StreamDiscordConfig) : json :=
  JObject [("stream_id", JString (scStreamID c)); ("assignment_role", JString (scAssignmentRole c));
           ("discord_config_id", JString (scDiscordConfigID c)); ("guild_id", JString (scGuildID c));
           ("voice_channel_id", JString (scVoiceChannelID c)); ("text_channel_id", JString (scTextChannelID c));
           ("auto_start_trigger", JString (scAutoStartTrigger c))].

Definition binding_json (b : CurrentDiscordCredentialBinding) : json :=
  JObject [("stream_id", JString (cbStreamID b)); ("service_id", JString (cbServiceID b));
           ("service_type", JString (cbServiceType b)); ("assignment_role", JString (cbAssignmentRole b));
           ("assignment_epoch", time_json (cbAssignmentEpoch b)); ("profile_id", JString (cbProfileID b));
           ("profile_owner_service_id", JString (cbProfileOwnerServiceID b));
           ("secret_name", JString (cbSecretName b)); ("fingerprint", JString (cbFingerprint b));
           ("ready", JBool (cbReady b)); ("readiness_code", JString (cbReadinessCode b))].

Definition bindings_json (b : CurrentDiscordBindings) : json :=
  JObject [("version", JInt (cdVersion b)); ("bindings", list_json binding_json (cdBindings b))].

Definition waiting_binding_json (w : DiscordWaitingMonitorBinding) : json :=
  let b := wbCredential w in
  JObject [("stream_id", JString (wcStreamID b)); ("service_id", JString (wcServiceID b));
           ("service_type", JString (wcServiceType b)); ("selection_epoch", time_json (wcSelectionEpoch b));
           ("profile_id", JString (wcProfileID b)); ("profile_revision", JString (wcProfileRevision b));
           ("profile_owner_service_id", JString (wcProfileOwnerServiceID b));
           ("secret_name", JString (wcSecretName b)); ("fingerprint", JString (wcFingerprint b));
           ("ready", JBool (wcReady b)); ("readiness_code", JString (wcReadinessCode b));
           ("guild_id", JString (wbGuildID w)); ("voice_channel_id", JString (wbVoiceChannelID w));
           ("text_channel_id", JString (wbTextChannelID w)); ("target_revision", JInt (wbTargetRevision w));
           ("auto_start_trigger", JString (wbAutoStartTrigger w))].

Definition monitor_json (m : DiscordWaitingMonitor) : json :=
  JObject [("version", JInt (wmVersion m)); ("execution_active", JBool (wmExecutionActive m));
           ("availability_code", JString (wmAvailabilityCode m));
           ("bindings", list_json waiting_binding_json (wmBindings m))].

Definition option_json {A} (f : A -> json) (x : option A) : json :=
  match x with Some x => f x | None => JNull end.

Definition config_json (cfg : RuntimeConfig) : json :=
  JObject
    ([("service", service_json (rcService cfg));
      ("assignments", JArray (map assignment_json (rcAssignments cfg)));
      ("profiles", map_json (fun ps => JArray (map profile_json ps)) (rcProfiles cfg));
      ("stream_discord_configs", JArray (map stream_config_json (rcStreamDiscordConfigs cfg)))] ++
     (if rcCurrentDiscordBindingsPresent cfg
      then [("current_discord_bindings", option_json bindings_json (rcCurrentDiscordBindings cfg))] else []) ++
     (if rcDiscordWaitingMonitorPresent cfg
      then [("discord_waiting_monitor", option_json monitor_json (rcDiscordWaitingMonitor cfg))] else []))%list.

(** What the encoder can write: times of the format's range, integers of their
    width, the finite doubles; an authority that is there is present. *)
Definition time_ok (t : Time) : Prop := 0 <= t < max_time.
Definition int_ok (z : Z) : Prop := - 2 ^ 63 <= z < 2 ^ 63.
Definition uint_ok (z : Z) : Prop := 0 <= z < 2 ^ 64.

Definition setting_ok (x : config_any) : Prop :=
  match x with AnyNumber x => is_finite x = true /\ valid_binary 53 1024 x = true | _ => True end.

Record encodable (cfg : RuntimeConfig) : Prop := {
  en_assignments : Forall (fun a => time_ok (ssAssignedAt a)) (rcAssignments cfg);
  en_profiles : map_Forall (fun _ => Forall (fun p =>
    time_ok (rpCreatedAt p) /\ time_ok (rpUpdatedAt p) /\ map_Forall (fun _ => setting_ok) (rpConfig p))) (rcProfiles cfg);
  en_bindings : forall b, rcCurrentDiscordBindings cfg = Some b ->
    rcCurrentDiscordBindingsPresent cfg = true /\ int_ok (cdVersion b) /\
    Forall (fun b => time_ok (cbAssignmentEpoch b)) (default [] (cdBindings b));
  en_monitor : forall m, rcDiscordWaitingMonitor cfg = Some m ->
    rcDiscordWaitingMonitorPresent cfg = true /\ int_ok (wmVersion m) /\
    Forall (fun w => time_ok (wcSelectionEpoch (wbCredential w)) /\ uint_ok (wbTargetRevision w))
      (default [] (wmBindings m)) }.

(** ** Structs *)

Ltac decoded := cbn -[decode_time FormatRFC3339Nano decode_int decode_uint64 JInt time_json].

Lemma service_decoded s x : decode_lenient service_fields (service_json s) x = Some s.
Proof. destruct s. by decoded. Qed.

Lemma assignment_decoded a x :
  time_ok (ssAssignedAt a) -> decode_lenient assignment_fields (assignment_json a) x = Some a.
Proof. destruct a. intros Ht. decoded. unfold time_json. by rewrite decode_time_format. Qed.

Lemma stream_config_decoded c x : decode_lenient stream_config_fields (stream_config_json c) x = Some c.
Proof. destruct c. by decoded. Qed.

Lemma binding_decoded b x :
  time_ok (cbAssignmentEpoch b) -> decode_lenient binding_fields (binding_json b) x = Some b.
Proof. destruct b. intros Ht. decoded. unfold time_json. by rewrite decode_time_format. Qed.

Lemma waiting_binding_decoded w x :
  time_ok (wcSelectionEpoch (wbCredential w)) -> uint_ok (wbTargetRevision w) ->
  decode_lenient waiting_binding_fields (waiting_binding_json w) x = Some w.
Proof.
  destruct w as [[] ? ? ? ? ?]. intros Ht Hu. decoded. unfold time_json.
  rewrite decode_time_format by done. decoded. by rewrite decode_uint64_int.
Qed.

(** ** Lists and maps *)

Lemma items_decoded {A} (zero : A) (decode : json -> A -> option A) (f : A -> json) xs :
  Forall (fun a => decode (f a) zero = Some a) xs ->
  decode_items zero decode (map f xs) [] = Some xs.
Proof. induction 1 as [|a xs Ha _ IH]; [done|]. cbn. rewrite Ha. simpl. by rewrite IH. Qed.

Lemma slice_decoded {A} (zero : A) (decode : json -> A -> option A) (f : A -> json) xs :
  Forall (fun a => decode (f a) zero = Some a) (default [] xs) ->
  exists s, decode_slice zero decode (list_json f xs) nil_slice = Some s /\ elements s = xs.
Proof.
  intros Hf. destruct xs as [xs|]; [|by exists nil_slice]. cbn [list_json].
  exists (mkSlice (Some (length xs)) xs). split.
  - destruct xs as [|a xs]; [done|]. cbn [map decode_slice].
    change (f a :: map f xs) with (map f (a :: xs)).
    change (slArray nil_slice) with (@nil A). by rewrite items_decoded, length_map by done.
  - unfold elements. cbn. by rewrite firstn_all.
Qed.

Lemma entries_decoded {A} (decode : json -> option A) (f : A -> json) l m :
  Forall (fun kv => decode (f kv.2) = Some kv.2) l -> NoDup l.*1 ->
  decode_entries decode (map (fun kv => (kv.1, f kv.2)) l) m = Some (list_to_map l ∪ m).
Proof.
  intros Hf. revert m. induction Hf as [|[k a] l Ha _ IH]; intros m Hn.
  { simpl. by rewrite map_empty_union. }
  cbn [fmap list_fmap fst] in Hn. apply NoDup_cons in Hn as [Hk Hn].
  cbn [map decode_entries fst snd] in *. rewrite Ha. cbn [mbind option_bind]. rewrite IH by done.
  f_equal. rewrite list_to_map_cons, <- insert_union_l, insert_union_r; [done|]. by apply not_elem_of_list_to_map_1.
Qed.

Lemma map_decoded {A} (decode : json -> option A) (f : A -> json) (m : gmap string A) :
  map_Forall (fun _ a => decode (f a) = Some a) m -> decode_map decode (map_json f m) ∅ = Some m.
Proof.
  intros Hm. cbn [decode_map map_json]. rewrite entries_decoded.
  - by rewrite list_to_map_to_list, map_union_empty.
  - apply Forall_forall. intros [k a] Hin%elem_of_map_to_list. by apply (Hm k).
  - apply NoDup_fst_map_to_list.
Qed.

Lemma decode_any_number v x : number_text v = Some x -> decode_any v = Some (AnyNumber x).
Proof. destruct v; try done; cbn [number_text]; intros Hr; unfold decode_any, number; by rewrite Hr. Qed.

Lemma any_decoded x : setting_ok x -> decode_any (any_json x) = Some x.
Proof.
  destruct x as [s|b|x|]; [done|done| |done]. intros [Hf Hv]. cbn [any_json].
  destruct (json_float_finite x Hf) as [v Hj]. rewrite Hj. cbn [default].
  by apply decode_any_number, json_float_reads.
Qed.

(** An integer of the machine is in the range of a double. *)
Lemma integer_number z : - 2 ^ 64 <= z <= 2 ^ 64 -> is_Some (number (JInt z)).
Proof.
  intros Hz. unfold JInt. cbn [number]. unfold decimal. destruct (Z.abs_N z) as [|p] eqn:Ez; [by eexists|].
  assert ((if z <? 0 then - (Zpos p * 10 ^ 0) else Zpos p * 10 ^ 0) = z) as -> by (destruct (Z.ltb_spec z 0); lia).
  assert (binary_normalize 53 1024 z 0 (z <? 0) = float64 z) as -> by by destruct z.
  rewrite float64_finite by done. by eexists.
Qed.

Lemma int_number z : int_ok z -> is_Some (number (JInt z)).
Proof. unfold int_ok. intros Hz. apply integer_number. lia. Qed.

Lemma uint_number z : uint_ok z -> is_Some (number (JInt z)).
Proof. unfold uint_ok. intros Hz. apply integer_number. lia. Qed.

Lemma profile_decoded p x :
  time_ok (rpCreatedAt p) -> time_ok (rpUpdatedAt p) -> map_Forall (fun _ => setting_ok) (rpConfig p) ->
  rpConfig x = ∅ -> decode_lenient profile_fields (profile_json p) x = Some p.
Proof.
  destruct p as [i k n c t u], x. intros Ht Hu Hc Hx. simpl in Ht, Hu, Hc, Hx. subst.
  assert (decode_map decode_any (map_json any_json c) ∅ = Some c) as Hm.
  { apply map_decoded. intros key a Ha. by apply any_decoded, (Hc key). }
  cbn -[decode_map map_json decode_time time_json]. rewrite Hm.
  cbn -[decode_time time_json]. unfold time_json. rewrite decode_time_format by done.
  cbn -[decode_time FormatRFC3339Nano]. by rewrite decode_time_format.
Qed.

Lemma bindings_decoded b :
  int_ok (cdVersion b) -> Forall (fun b => time_ok (cbAssignmentEpoch b)) (default [] (cdBindings b)) ->
  exists w, decode_lenient bindings_fields (bindings_json b) (mkBindingsWire 0 nil_slice) = Some w /\
    mkBindings (bwVersion w) (elements (bwBindings w)) = b.
Proof.
  intros Hv Hb. destruct b as [v bs]. simpl in Hv, Hb.
  destruct (slice_decoded zeroBinding (decode_lenient binding_fields) binding_json bs) as (s & Hs & He).
  { eapply Forall_impl; [exact Hb|]. intros b Ht. by apply binding_decoded. }
  exists (mkBindingsWire v s). split; [|by simpl; rewrite He].
  cbn -[decode_int JInt decode_slice list_json binding_fields waiting_binding_fields]. rewrite decode_int_int by done.
  cbn -[decode_int JInt decode_slice list_json binding_fields waiting_binding_fields]. by rewrite Hs.
Qed.

Lemma monitor_decoded m :
  int_ok (wmVersion m) ->
  Forall (fun w => time_ok (wcSelectionEpoch (wbCredential w)) /\ uint_ok (wbTargetRevision w))
    (default [] (wmBindings m)) ->
  unmarshalMonitor (monitor_json m) = Some m.
Proof.
  intros Hv Hb. destruct m as [v a c bs]. simpl in Hv, Hb.
  destruct (slice_decoded zeroWaitingBinding (decode_lenient waiting_binding_fields) waiting_binding_json bs)
    as (s & Hs & He).
  { eapply Forall_impl; [exact Hb|]. intros w [Ht Hu]. by apply waiting_binding_decoded. }
  unfold unmarshalMonitor, monitor_json.
  cbn -[decode_int JInt decode_slice list_json decode_lenient monitor_fields].
  assert (decode_lenient monitor_fields (JObject [("version", JInt v); ("execution_active", JBool a);
    ("availability_code", JString c); ("bindings", list_json waiting_binding_json bs)])
    (mkMonitorWire 0 false "" nil_slice) = Some (mkMonitorWire v a c s)) as ->; [|simpl; by rewrite He].
  cbn -[decode_int JInt decode_slice list_json binding_fields waiting_binding_fields]. rewrite decode_int_int by done.
  cbn -[decode_int JInt decode_slice list_json binding_fields waiting_binding_fields]. by rewrite Hs.
Qed.

(** ** The whole configuration *)

Section Roundtrip.
Context `{LowerRune}.

Abbreviation reject := rejectCurrentBindingDuplicateKeys.

(** A struct of distinct keys. *)
Lemma reject_struct kvs d :
  bool_decide (NoDup (lower_key <$> kvs.*1)) = true -> d <= 16 ->
  Forall (fun kv => reject kv.2 (d + 1) = None) kvs -> reject (JObject kvs) d = None.
Proof. intros Hn%bool_decide_eq_true_1 Hd Hf. by apply reject_object. Qed.

Lemma reject_list {A} (f : A -> json) xs d :
  d <= 16 -> Forall (fun a => reject (f a) (d + 1) = None) (default [] xs) ->
  reject (list_json f xs) d = None.
Proof.
  intros Hd Hf. destruct xs as [xs|].
  - apply reject_array. split; [done|]. by apply Forall_map.
  - cbn. by rewrite (proj2 (Z.ltb_ge _ _)).
Qed.

Lemma reject_int z d : d <= 16 -> is_Some (number (JInt z)) -> reject (JInt z) d = None.
Proof. intros Hd [x Hx]. unfold JInt in *. cbn -[number]. by rewrite (proj2 (Z.ltb_ge _ _)), Hx. Qed.

Lemma bindings_accepted b : is_Some (number (JInt (cdVersion b))) -> reject (bindings_json b) 0 = None.
Proof.
  intros Hv. apply reject_struct; [vm_compute; reflexivity|done|]. cbn [Z.add]. constructor.
  { by apply reject_int. }
  constructor; [|constructor]. apply reject_list; [done|]. apply Forall_forall. intros c _.
  apply reject_struct; [vm_compute; reflexivity|done|]. by repeat constructor.
Qed.

Lemma monitor_accepted m :
  is_Some (number (JInt (wmVersion m))) ->
  Forall (fun w => is_Some (number (JInt (wbTargetRevision w)))) (default [] (wmBindings m)) ->
  reject (monitor_json m) 0 = None.
Proof.
  intros Hv Hb. apply reject_struct; [vm_compute; reflexivity|done|]. cbn [Z.add]. constructor.
  { by apply reject_int. }
  do 2 (constructor; [done|]). constructor; [|constructor]. apply reject_list; [done|].
  eapply Forall_impl; [exact Hb|]. intros w Hw.
  apply reject_struct; [vm_compute; reflexivity|done|].
  do 14 (constructor; [done|]). constructor; [apply reject_int; [lia|done]|]. by repeat constructor.
Qed.

Lemma members_app {A} (fields : list (field A)) kvs l x :
  decode_members_lenient fields (kvs ++ l) x =
  (y ← decode_members_lenient fields kvs x; decode_members_lenient fields l y).
Proof.
  revert x. induction kvs as [|[k v] kvs IH]; intros x; [done|]. cbn [app decode_members_lenient].
  destruct (find_field fields k) as [f|]; [|by apply IH]. destruct (f v x); [|done]. by apply IH.
Qed.

(** The wire form of a configuration without its monitor. *)
Lemma config_decoded cfg bindings :
  encodable cfg ->
  (bindings = [] /\ rcCurrentDiscordBindings cfg = None \/
   bindings = [("current_discord_bindings", option_json bindings_json (rcCurrentDiscordBindings cfg))]) ->
  exists w,
    decode_members_lenient config_fields
      (("assignments", JArray (map assignment_json (rcAssignments cfg))) :: bindings ++
       [("profiles", map_json (fun ps => JArray (map profile_json ps)) (rcProfiles cfg));
        ("service", service_json (rcService cfg));
        ("stream_discord_configs", JArray (map stream_config_json (rcStreamDiscordConfigs cfg)))])
      zeroConfigWire = Some w /\
    forall present waiting, config_of w present waiting =
      mkRuntimeConfig (rcService cfg) (rcAssignments cfg) (rcProfiles cfg) (rcStreamDiscordConfigs cfg)
        (rcCurrentDiscordBindings cfg) present None waiting.
Proof.
  intros [Ha Hp Hb _] Hbs.
  destruct (slice_decoded zeroAssignment (decode_lenient assignment_fields) assignment_json
    (Some (rcAssignments cfg))) as (sa & Hsa & Hea).
  { eapply Forall_impl; [exact Ha|]. intros a Ht. by apply assignment_decoded. }
  destruct (slice_decoded zeroStreamConfig (decode_lenient stream_config_fields) stream_config_json
    (Some (rcStreamDiscordConfigs cfg))) as (sc & Hsc & Hes).
  { apply Forall_forall. intros a _. by apply stream_config_decoded. }
  assert (decode_map decode_profiles (map_json (fun ps => JArray (map profile_json ps)) (rcProfiles cfg)) ∅
    = Some (rcProfiles cfg)) as Hps.
  { apply map_decoded. intros k ps Hk. unfold decode_profiles.
    destruct (slice_decoded zeroProfile (decode_lenient profile_fields) profile_json (Some ps)) as (s & Hs & He).
    { eapply Forall_impl; [exact (Hp k ps Hk)|]. intros p (? & ? & ?). by apply profile_decoded. }
    cbn [list_json] in Hs. rewrite Hs. cbn. by rewrite He. }
  cbn [list_json] in *.
  assert (exists o, decode_members_lenient config_fields bindings
      (mkConfigWire (mkService "" "" "") sa ∅ nil_slice None)
      = Some (mkConfigWire (mkService "" "" "") sa ∅ nil_slice o) /\
    (fun b => mkBindings (bwVersion b) (elements (bwBindings b))) <$> o = rcCurrentDiscordBindings cfg) as (o & Ho & Heo).
  { destruct Hbs as [[-> ->]| ->]; [by exists None|].
    destruct (rcCurrentDiscordBindings cfg) as [b|] eqn:Eb; cbn [option_json]; [|by exists None].
    destruct (Hb b eq_refl) as (_ & Hv & Ht). destruct (bindings_decoded b Hv Ht) as (w & Hw & Hwb).
    exists (Some w). split; [|by simpl; rewrite Hwb].
    unfold bindings_json in *. cbn -[bindings_fields decode_lenient]. by rewrite Hw. }
  exists (mkConfigWire (rcService cfg) sa (rcProfiles cfg) sc o). split.
  - match goal with |- decode_members_lenient _ (?m :: _) _ = _ =>
      assert (decode_members_lenient config_fields [m] zeroConfigWire
        = Some (mkConfigWire (mkService "" "" "") sa ∅ nil_slice None)) as E1 end.
    { cbn -[decode_slice assignment_fields]. by rewrite Hsa. }
    match goal with |- decode_members_lenient _ (?m :: ?l) _ = _ => change (m :: l) with ([m] ++ l)%list end.
    rewrite members_app, E1. cbn [mbind option_bind]. rewrite members_app, Ho. cbn [mbind option_bind].
    cbn -[decode_slice decode_map decode_profiles map_json service_json service_fields decode_lenient].
    rewrite Hps. cbn -[decode_slice service_json service_fields decode_lenient].
    rewrite service_decoded. cbn -[decode_slice decode_lenient stream_config_fields]. by rewrite Hsc.
  - intros present waiting. unfold config_of. simpl. by rewrite Hea, Hes, Heo.
Qed.

Lemma bindings_member_accepted cfg b :
  encodable cfg -> rcCurrentDiscordBindings cfg = b -> reject (option_json bindings_json b) 0 = None.
Proof.
  intros He <-. destruct (rcCurrentDiscordBindings cfg) as [b|] eqn:E; [|done].
  destruct (en_bindings _ He b E) as (_ & Hv & _). by apply bindings_accepted, int_number.
Qed.

(** The monitor is accepted and decoded. *)
Lemma monitor_member_decoded v m raw cfg :
  validateDiscordWaitingMonitorJSONKeys v = None ->
  raw = option_json monitor_json m -> rcDiscordWaitingMonitor cfg = None ->
  (forall w, m = Some w -> int_ok (wmVersion w) /\
    Forall (fun w => time_ok (wcSelectionEpoch (wbCredential w)) /\ uint_ok (wbTargetRevision w))
      (default [] (wmBindings w))) ->
  unmarshal_monitor v (Some raw) cfg = (with_monitor m cfg, None).
Proof.
  intros Hv -> Hn Hm. unfold unmarshal_monitor. rewrite Hv. destruct m as [w|]; [|done].
  destruct (Hm w eq_refl) as [Hw Hb]. cbn [option_json].
  unfold monitor_json at 1. by rewrite monitor_decoded.
Qed.

Lemma monitor_member_accepted m :
  (forall w, m = Some w -> int_ok (wmVersion w) /\
    Forall (fun w => time_ok (wcSelectionEpoch (wbCredential w)) /\ uint_ok (wbTargetRevision w))
      (default [] (wmBindings w))) ->
  reject (option_json monitor_json m) 0 = None.
Proof.
  intros Hm. destruct m as [w|]; [|done]. destruct (Hm w eq_refl) as [Hw Hb].
  apply monitor_accepted; [by apply int_number|]. eapply Forall_impl; [exact Hb|].
  intros ? [_ Hu]. by apply uint_number.
Qed.

(** Which members a configuration has, and what is left of them without the
    monitor, in the order of their keys. *)
Definition members (a b c d : json) (current waiting : option json) : list (string * json) :=
  ([("service", a); ("assignments", b); ("profiles", c); ("stream_discord_configs", d)] ++
   match current with Some e => [("current_discord_bindings", e)] | None => [] end ++
   match waiting with Some f => [("discord_waiting_monitor", f)] | None => [] end)%list.

Lemma members_sorted a b c d current waiting :
  let fields := raw_map (members a b c d current waiting) in
  existsb (fun kv => is_current kv.1) fields = bool_decide (is_Some current) /\
  snd <$> List.find (fun kv => is_waiting kv.1) fields = waiting /\
  List.filter (fun kv => negb (is_waiting kv.1)) fields =
    (("assignments", b) ::
     match current with Some e => [("current_discord_bindings", e)] | None => [] end ++
     [("profiles", c); ("service", a); ("stream_discord_configs", d)])%list.
Proof. by destruct current, waiting. Qed.

(** Decides whether a key is that of an authority. *)
Ltac classified :=
  repeat match goal with
  | |- context [is_current ?k] => let b := eval vm_compute in (is_current k) in change (is_current k) with b
  | |- context [is_waiting ?k] => let b := eval vm_compute in (is_waiting k) in change (is_waiting k) with b
  end; cbn [negb].

Lemma members_keys a b c d current waiting :
  (forall e, current = Some e -> reject e 0 = None) -> (forall f, waiting = Some f -> reject f 0 = None) ->
  validateCurrentBindingJSONKeys (JObject (members a b c d current waiting)) = None /\
  validateDiscordWaitingMonitorJSONKeys (JObject (members a b c d current waiting)) = None.
Proof.
  intros He Hf. unfold validateCurrentBindingJSONKeys, validateDiscordWaitingMonitorJSONKeys.
  destruct current as [e|], waiting as [f|]; unfold members; cbn [app envelope_keys]; classified;
    rewrite ?(He _ eq_refl), ?(Hf _ eq_refl); done.
Qed.

(** What [UnmarshalJSON] makes of the members of a configuration. *)
Lemma config_unmarshaled cfg c0 :
  encodable cfg -> UnmarshalJSON (config_json cfg) c0 = (cfg, None).
Proof.
  intros He.
  set (current := if rcCurrentDiscordBindingsPresent cfg
                  then Some (option_json bindings_json (rcCurrentDiscordBindings cfg)) else None).
  set (waiting := if rcDiscordWaitingMonitorPresent cfg
                  then Some (option_json monitor_json (rcDiscordWaitingMonitor cfg)) else None).
  assert (forall w, rcDiscordWaitingMonitor cfg = Some w -> int_ok (wmVersion w) /\
    Forall (fun w => time_ok (wcSelectionEpoch (wbCredential w)) /\ uint_ok (wbTargetRevision w))
      (default [] (wmBindings w))) as Hm by (intros w Hw; by apply (en_monitor _ He)).
  assert (config_json cfg = JObject (members (service_json (rcService cfg))
    (JArray (map assignment_json (rcAssignments cfg)))
    (map_json (fun ps => JArray (map profile_json ps)) (rcProfiles cfg))
    (JArray (map stream_config_json (rcStreamDiscordConfigs cfg))) current waiting)) as ->.
  { unfold config_json, members, current, waiting. repeat case_match; reflexivity. }
  match goal with |- UnmarshalJSON (JObject (members ?a ?b ?c ?d _ _)) _ = _ =>
    destruct (members_sorted a b c d current waiting) as (Hcur & Hwait & Hrest);
    destruct (members_keys a b c d current waiting) as [Hkc Hkw] end.
  { unfold current. intros e. destruct (rcCurrentDiscordBindingsPresent cfg); [|done]. intros [= <-]. by eapply bindings_member_accepted. }
  { unfold waiting. intros f. destruct (rcDiscordWaitingMonitorPresent cfg); [|done]. intros [= <-]. by apply monitor_member_accepted. }
  unfold UnmarshalJSON. rewrite Hcur, Hwait, Hrest, Hkc. cbn [decode_lenient].
  match goal with |- context [decode_members_lenient _ (_ :: ?bs ++ _) _] =>
    destruct (config_decoded cfg bs He) as (w & Hw & Hcfg) end.
  { unfold current. destruct (rcCurrentDiscordBindingsPresent cfg) eqn:Ep; [by right|left].
    split; [done|]. destruct (rcCurrentDiscordBindings cfg) as [b|] eqn:Eb; [|done].
    destruct (en_bindings _ He b Eb) as [? _]. congruence. }
  rewrite Hw, Hcfg. unfold waiting at 2 3.
  assert (bool_decide (is_Some current) = rcCurrentDiscordBindingsPresent cfg) as ->
    by (unfold current; by destruct (rcCurrentDiscordBindingsPresent cfg)).
  destruct (rcDiscordWaitingMonitorPresent cfg) eqn:Ew.
  - rewrite (monitor_member_decoded _ (rcDiscordWaitingMonitor cfg)) by done. destruct cfg; simpl in *. by subst.
  - unfold unmarshal_monitor. rewrite Hkw. destruct (rcDiscordWaitingMonitor cfg) as [m|] eqn:Em.
    { destruct (en_monitor _ He m Em) as [? _]. congruence. }
    destruct cfg; simpl in *. by subst.
Qed.

(** C19: the runtime configuration is read without loss. For every configuration
    the Control Panel can write (times of the years 1 to 9999, integers of their
    width, strings of UTF-8, and in the settings of a profile any finite number,
    by its shortest decimal; settings the bot does not read, objects and lists,
    stand for null), the text of its answer is decoded to exactly that
    configuration: every member under its key into its field, lists in their
    order, an absent authority apart from one that is null, and with both
    authorities past the duplicate-key checks. *)
Theorem runtime_config_roundtrip cfg :
  encodable cfg -> clean max_depth (config_json cfg) ->
  decode_config (Some (encode (config_json cfg))) = (cfg, None).
Proof.
  intros He Hc. unfold decode_config, encode. rewrite list_ascii_of_string_of_list_ascii.
  pose proof (print_skip_ws (config_json cfg) []) as Hs. rewrite app_nil_r in Hs. rewrite Hs.
  destruct (print_head (config_json cfg)) as (a & r & Hp & _). rewrite Hp, <- Hp.
  unfold Decode. rewrite list_ascii_of_string_of_list_ascii, Hs.
  pose proof (parse_value_print max_depth (config_json cfg) [] Hc I) as Hv. rewrite app_nil_r in Hv.
  rewrite Hv. by apply config_unmarshaled.
Qed.
End Roundtrip.

(** [clean] as a check. *)
Fixpoint cleanb (d : nat) (v : json) : bool :=
  match v with
  | JString s => string_of_runes (runes s) =s s
  | JArray vs => match d with O => false | S d => forallb (cleanb d) vs end
  | JObject kvs =>
      match d with
      | O => false
      | S d => forallb (fun kv => (string_of_runes (runes kv.1) =s kv.1) && cleanb d kv.2) kvs
      end
  | _ => true
  end.

Lemma cleanb_clean d : forall v, cleanb d v = true -> clean d v.
Proof.
  induction d as [|d IH]; intros v Hv; destruct v; try done; cbn [cleanb clean] in *;
    try (by apply String.eqb_eq).
  - apply Forall_forall. intros v Hin%list_elem_of_In. apply IH. by eapply forallb_forall in Hv.
  - apply Forall_forall. intros kv Hin%list_elem_of_In. eapply forallb_forall in Hv; [|done].
    bool_hyps. split; [done|by apply IH].
Qed.

(** ** Witness: both authorities, with a target revision beyond 2^53 *)
Module Sample.
#[local] Instance lower : LowerRune := fun rune => rune.

Definition epoch : Time := 63844761600123000000.

Definition settings : gmap string config_any := {["service_id" := AnyString "bot"; "x" := AnyOther; "reconnect_base_delay_sec" := AnyNumber (fdiv (float64 1) (float64 10));
    "reconnect_max_attempts" := AnyNumber (float64 5)]}.

Definition profiles : gmap string (list RuntimeProfile) :=
  {["discord_config" := [mkProfile "p" "discord_config" "Name é" settings 0 epoch]]}.

Definition binding : CurrentDiscordCredentialBinding :=
  mkBinding "s1" "bot" "discord_bot" "primary" epoch "p" "bot" "n" "f" true "".

Definition waiting : DiscordWaitingMonitorBinding :=
  mkWaitingBinding (mkWaitingCredential "s2" "bot" "discord_bot" epoch "p" "r" "bot" "n" "f" true "")
    "1" "2" "" (2 ^ 60 + 1) "voice_join".

Definition bindings : CurrentDiscordBindings := mkBindings 1 (Some [binding]).
Definition monitor : DiscordWaitingMonitor := mkMonitor 1 true "" (Some [waiting]).

Definition cfg : RuntimeConfig :=
  mkRuntimeConfig (mkService "bot" "discord_bot" "s1")
    [mkAssignment "s1" "bot" "discord_bot" "primary" epoch] profiles
    [mkStreamConfig "s1" "primary" "c" "1" "2" "3" "voice_join"]
    (Some bindings) true
    (Some monitor) true.

Lemma runtime_config_roundtrip_witness :
  is_current "Current_Discord_Bindings" = true /\
  decode_config (Some (encode (config_json cfg))) = (cfg, None).
Proof.
  split; [reflexivity|]. apply runtime_config_roundtrip.
  - split.
    + by repeat constructor.
    + change (rcProfiles cfg) with profiles. apply map_Forall_singleton. constructor; [|constructor].
      split; [done|]. split; [done|]. apply (map_Forall_to_list (fun _ => setting_ok) settings).
      vm_compute. by repeat constructor.
    + change (rcCurrentDiscordBindings cfg) with (Some bindings). intros b [= <-].
      split; [done|]. split; [done|]. by apply Forall_singleton.
    + change (rcDiscordWaitingMonitor cfg) with (Some monitor). intros m [= <-].
      split; [done|]. split; [done|]. apply Forall_singleton. done.
  - apply (clean_le 7); [apply Nat.leb_le; vm_compute; reflexivity|]. apply cleanb_clean. vm_compute. reflexivity.
Defined.
End Sample.
