(* ===== verification/NodeReports.v ===== *)
(** * NodeReports: registration, heartbeats and credentials

    The requests of [internal/control/client.go], [current_discord_bindings.go]
    and [discord_waiting_monitor.go] that report the node to the Control Panel
    and fetch the secret of a binding, with the metrics of
    [internal/jobs/status.go] that a heartbeat carries.  They are what
    [PanelRegister], [PanelHeartbeat] and the secret calls of [Registration]
    stand for.  The samples of the host ([HostMetrics]) are the state, each
    under its mutex. *)

From Stdlib Require Import SpecFloat.
From S2P Require Import Prelude Conc Compose Errors Urls Json Floats HostMetrics Types RuntimeConfig.
From S2P Require Import Manager DiscordClient NodeConfig Settings ControlClient Rfc3339 RuntimeJson RuntimeRoundtrip.

Open Scope go_scope.

(** ** The metrics of the manager *)

Definition boolMetric (value : bool) : spec_float := float64 (if value then 1 else 0).

(** The ages are those of [normalizeStatus], absent when there is no time. *)
Definition metricsFromStatus (status : Status) (audioAge forwardAge : option Duration) (participantCount : Z)
    : metrics :=
  let out : metrics := list_to_map
    [("discord.gateway_connected", boolMetric (suConnected status));
     ("discord.voice_connected", boolMetric (suVoiceConnected status));
     ("discord.audio_forward_enabled", boolMetric (suAudioForwardEnabled status));
     ("discord.audio_forward_active", boolMetric (suAudioForwardActive status));
     ("discord.caption_audio_forward_active", boolMetric (suCaptionAudioForwardActive status));
     ("discord.audio_receiving", boolMetric (suAudioReceiving status));
     ("discord.participant_count", float64 participantCount);
     ("discord.audio_packets_total", float64 (suAudioPacketsReceived status));
     ("discord.audio_forwarded_total", float64 (suAudioPacketsForwarded status));
     ("discord.audio_forward_errors_total", float64 (suAudioForwardErrors status));
     ("discord.audio_forward_queue_drops_total", float64 (suAudioForwardQueueDrops status));
     ("discord.caption_packets_forwarded_total", float64 (suCaptionPacketsForwarded status));
     ("discord.caption_forward_errors_total", float64 (suCaptionForwardErrors status));
     ("discord.caption_forward_queue_drops_total", float64 (suCaptionForwardQueueDrops status));
     ("discord.reconnect_count", float64 (suGatewayReconnectCount status));
     ("discord.voice_disconnect_count", float64 (suVoiceDisconnectCount status));
     ("discord.dave_initialized", boolMetric (suDAVEInitialized status));
     ("discord.dave_ready", boolMetric (suDAVEReady status));
     ("discord.dave_welcome_received", boolMetric (suDAVEWelcomeReceived status));
     ("discord.dave_roster_size", float64 (suDAVERosterSize status));
     ("discord.dave_ratchets_missing", float64 (suDAVERatchetsMissing status));
     ("discord.dave_key_package_resends_total", float64 (suDAVEKeyPackageResends status));
     ("discord.dave_soft_resets_total", float64 (suDAVESoftResets status));
     ("discord.dave_recovery_errors_total", float64 (suDAVERecoveryErrors status))] in
  let age key (d : option Duration) (m : metrics) : metrics :=
    let seconds := match d with Some d => duration_seconds d | None => fzero end in
    if SFltb fzero seconds then <[key := seconds]> m else m in
  age "discord.audio_last_forward_age_sec" forwardAge
    (age "discord.audio_last_packet_age_sec" audioAge out).

(** [Manager.Metrics]: those of [Manager.Status], of the status the Discord
    client answered. *)
Definition Metrics (discord : Status * option Duration * option Duration) (m : Manager) : metrics :=
  let '(status, audioAge, forwardAge) := discord in
  <["discord.voice_rejoin_failures_total" := float64 (mVoiceRejoinFailures m)]>
    (<["discord.voice_rejoin_attempts_total" := float64 (mVoiceRejoinAttempts m)]>
      (<["discord.worker_event_publish_failures_total" := float64 (mWorkerFailures m)]>
        (metricsFromStatus status audioAge forwardAge (Z.of_nat (size (mParticipants m)))))).

Definition manager_keys : list string :=
  ["discord.gateway_connected"; "discord.voice_connected"; "discord.audio_forward_enabled";
   "discord.audio_forward_active"; "discord.caption_audio_forward_active"; "discord.audio_receiving";
   "discord.participant_count"; "discord.audio_packets_total"; "discord.audio_forwarded_total";
   "discord.audio_forward_errors_total"; "discord.audio_forward_queue_drops_total";
   "discord.caption_packets_forwarded_total"; "discord.caption_forward_errors_total";
   "discord.caption_forward_queue_drops_total"; "discord.reconnect_count"; "discord.voice_disconnect_count";
   "discord.dave_initialized"; "discord.dave_ready"; "discord.dave_welcome_received";
   "discord.dave_roster_size"; "discord.dave_ratchets_missing"; "discord.dave_key_package_resends_total";
   "discord.dave_soft_resets_total"; "discord.dave_recovery_errors_total";
   "discord.audio_last_packet_age_sec"; "discord.audio_last_forward_age_sec";
   "discord.worker_event_publish_failures_total"; "discord.voice_rejoin_attempts_total";
   "discord.voice_rejoin_failures_total"].

Lemma metrics_in discord m : keys_in manager_keys (Metrics discord m).
Proof.
  destruct discord as [[status a1] a2]. unfold Metrics, metricsFromStatus. cbv zeta.
  set (base := list_to_map _ : metrics).
  assert (keys_in manager_keys base) as Hb.
  { apply keys_in_list. repeat apply Forall_cons_2; try apply Forall_nil_2; cbn [fst]; literal_key. }
  clearbody base. do 3 (apply keys_in_insert; [literal_key|]).
  assert (forall k x (b : bool) (m : metrics), k ∈ manager_keys -> keys_in manager_keys m ->
    keys_in manager_keys (if b then <[k := x]> m else m)) as Hif.
  { intros k x [] m' Hk Hm'; [by apply keys_in_insert|done]. }
  apply Hif; [literal_key|]. apply Hif; [literal_key|done].
Qed.

(** Every name is trimmed, so a heartbeat carries the metrics as they are. *)
Lemma metrics_canonical discord m : canonical_keys (Metrics discord m).
Proof. eapply canonical_in; [|apply metrics_in]. vm_compute. reflexivity. Qed.

(** The number of participants is reported as it is. *)
Lemma participants_metric discord m :
  Metrics discord m !! "discord.participant_count" = Some (float64 (Z.of_nat (size (mParticipants m)))).
Proof.
  destruct discord as [[status a1] a2]. unfold Metrics, metricsFromStatus. cbv zeta.
  rewrite !lookup_insert_ne by done. repeat case_match; rewrite ?lookup_insert_ne by done; done.
Qed.

(** ** The requests *)

Inductive SampleMutex := cpuSampleState | networkSampleState.

Inductive ReportCall : Type -> Type :=
(* the Control Panel *)
| FromClient {X : Type} (e : CtlCall X) : ReportCall X
(* the host *)
| Hostname : ReportCall (option string)
| ReadRuntime : ReportCall (GoRuntime * Duration)
| ReadFile (path : string) : ReportCall (option string)
| ReadStatfs : ReportCall (option Statfs)
| TimeNow : ReportCall Time
(* the functions given to the heartbeat loop *)
| CurrentStreamID : ReportCall string
| CurrentMetrics : ReportCall metrics
| OnError (err : error) : ReportCall unit.

Inductive ReportLabel := HeartbeatLoop.

Definition eta_Samples (s : Samples) : Samples := mkSamples (smCPU s) (smNetwork s).
#[export] Instance set_smCPU : Setter smCPU := ltac:(mk_setter eta_Samples).
#[export] Instance set_smNetwork : Setter smNetwork := ltac:(mk_setter eta_Samples).

Abbreviation rprog := (prog Samples ReportCall ReportLabel SampleMutex).
Abbreviation rret := (@Ret Samples ReportCall ReportLabel SampleMutex _).

Definition from_client {A} (p : cprog A) : rprog A :=
  inline (fun _ : Samples => tt) (fun _ s => s) (fun l : Empty_set => match l with end)
    (fun mu : Empty_set => match mu with end) (fun _ e => call (FromClient e)) p.

(** What the build sets: [version.Commit], [version.BuildDate], [runtime.GOOS],
    [runtime.GOARCH]. *)
Record Build := mkBuild { bdCommit : string; bdDate : string; bdOS : string; bdArch : string }.

Definition CapabilityDiscordWaitingMonitorV1 : string := "discord_waiting_monitor_v1".

Definition key_le (a b : string * json) : Prop := strings.String.le a.1 b.1.
#[export] Instance key_le_dec a b : Decision (key_le a b) := _.

(** A map, as [json.Marshal] writes it. *)
Definition json_map (entries : list (string * json)) : json := JObject (merge_sort key_le entries).

Definition serviceCapabilities : list (string * json) :=
  (fun name => (name, JBool true)) <$>
    ["discord_gateway"; "voice_connect"; "participant_events"; "active_speaker_state"; "audio_capture";
     "audio_capture_runtime_secret"; "audio_stream_forward"; "audio_stream_forward_runtime_token";
     "audio_forward_retry"; "chat_overlay_events"; "caption_audio_forward"; "discord_resolved_target_v2";
     CapabilityDiscordWaitingMonitorV1; "health_endpoint"; "job_endpoint"].

(** A [map[string]float64]: a number that is not finite makes [json.Marshal] fail. *)
Definition metrics_json (m : metrics) : option json :=
  json_map <$> mapM (fun kv => v ← json_float kv.2; Some (kv.1, v)) (map_to_list m).

Definition errUnsupportedValue : error := ErrNew "json: unsupported value".

Section Reports.
Context `{URLParse} `{MapRange} (build : Build) (c : Config).

(** [post] of a payload that may fail to marshal. *)
Definition post_payload (endpoint : string) (payload : option json) : cprog (option error) :=
  match payload with
  | Some payload => post c endpoint payload
  | None =>
      match Validate c with
      | Some err => Ret (Some err)
      | None => Ret (Some errUnsupportedValue)
      end
  end.

(** [reportHostname] *)
Definition reportHostname : rprog string :=
  let* name := call Hostname in
  rret match name with Some name => TrimSpace name | None => "" end.

(** The fields [Registration] and [Heartbeat] end with. *)
Definition host_fields (hostname : string) : list (string * json) :=
  omitempty "hostname" hostname ++ omitempty "os" (bdOS build) ++ omitempty "arch" (bdArch build).

Definition registration_body (hostname : string) : json :=
  JObject
    ([("service_id", JString (pcServiceID c)); ("service_type", JString ServiceType);
      ("service_name", JString (pcServiceName c)); ("public_url", JString (pcServicePublicURL c));
      ("version", JString (pcVersion c))]
     ++ omitempty "commit" (bdCommit build) ++ omitempty "build_date" (bdDate build)
     ++ [("capabilities", json_map serviceCapabilities)] ++ host_fields hostname).

(** [Register] *)
Definition Register : rprog (option error) :=
  let* hostname := reportHostname in
  from_client (post_payload "/services/register" (Some (registration_body hostname))).

Definition heartbeat_body (status currentStreamID hostname : string) (m : metrics) : option json :=
  reported ← metrics_json m;
  Some (JObject
    ([("service_id", JString (pcServiceID c)); ("status", JString status)]
     ++ omitempty "current_stream_id" currentStreamID ++ omitempty "version" (pcVersion c)
     ++ omitempty "commit" (bdCommit build) ++ omitempty "build_date" (bdDate build)
     ++ [("capabilities", json_map serviceCapabilities)] ++ host_fields hostname
     ++ (if bool_decide (m = ∅) then [] else [("metrics", reported)]))).

(** [cpuMetrics], the file being read under the mutex *)
Definition cpu_metrics : rprog metrics :=
  do* lock cpuSampleState in
  let* stat := call (ReadFile "/proc/stat") in
  let* m := atomic (fun s =>
    let '(m, cpu) := cpuMetrics stat (smCPU s) in (m, s <| smCPU := cpu |>)) in
  do* unlock cpuSampleState in
  rret m.

(** [networkMetrics] *)
Definition network_metrics : rprog metrics :=
  let* netdev := call (ReadFile "/proc/net/dev") in
  match networkByteCounters netdev with
  | None => rret ∅
  | Some _ =>
      let* now := call TimeNow in
      do* lock networkSampleState in
      let* m := atomic (fun s =>
        let '(m, network) := networkMetrics netdev now (smNetwork s) in (m, s <| smNetwork := network |>)) in
      do* unlock networkSampleState in
      rret m
  end.

(** [NodeHostMetrics] *)
Definition node_host_metrics : rprog metrics :=
  let* runtime := call ReadRuntime in
  let* cpu := cpu_metrics in
  let* meminfo := call (ReadFile "/proc/meminfo") in
  let* loadavg := call (ReadFile "/proc/loadavg") in
  let* statfs := call ReadStatfs in
  let* network := network_metrics in
  rret (mergeFloatMetrics
    [runtime_metrics (mkHost runtime.1 runtime.2 None None None None None 0); cpu;
     procMemInfoMetrics meminfo; procLoadMetrics loadavg; filesystemMetrics statfs; network]).

(** [HeartbeatWithMetrics] *)
Definition HeartbeatWithMetrics (status currentStreamID : string) (m : metrics) : rprog (option error) :=
  let status := if status =s "" then "online" else status in
  let* hostname := reportHostname in
  let* host := node_host_metrics in
  from_client (post_payload "/services/heartbeat"
    (heartbeat_body status currentStreamID hostname (mergeFloatMetrics [host; m]))).

(** [Heartbeat] *)
Definition Heartbeat (status currentStreamID : string) : rprog (option error) :=
  HeartbeatWithMetrics status currentStreamID ∅.

(** [RunHeartbeatLoopWithMetrics]: one turn and the wait for the next tick; the
    functions may be [nil]. *)
Definition heartbeat_turn (currentStreamID withMetrics onError : bool) : rprog unit :=
  let* stream := (if currentStreamID then call CurrentStreamID else rret "") in
  let* m := (if withMetrics then call CurrentMetrics else rret ∅) in
  let* err := HeartbeatWithMetrics "online" stream m in
  match err with
  | Some err => if onError then call (OnError err) else rret tt
  | None => rret tt
  end.

Definition RunHeartbeatLoopWithMetrics (currentStreamID withMetrics onError : bool) (full : Control.ControlConfig)
    (canceled : Samples -> bool) : rprog (option ReportLabel) :=
  do* heartbeat_turn currentStreamID withMetrics onError in
  let* done := wait (Some (Control.heartbeat_interval full)) canceled in
  rret (if (done : bool) then None else Some HeartbeatLoop).

(** ** The secret of a binding *)

(** A time of a binding as it is written back: [time.Time.MarshalJSON] keeps the
    offset the time was read with, which the model of the time does not. *)
Context (epoch_text : Time -> string).

Definition current_binding_json (b : CurrentDiscordCredentialBinding) : json :=
  JObject
    ([("stream_id", JString (cbStreamID b)); ("service_id", JString (cbServiceID b));
      ("service_type", JString (cbServiceType b)); ("assignment_role", JString (cbAssignmentRole b));
      ("assignment_epoch", JString (epoch_text (cbAssignmentEpoch b)));
      ("profile_id", JString (cbProfileID b))]
     ++ omitempty "profile_owner_service_id" (cbProfileOwnerServiceID b)
     ++ omitempty "secret_name" (cbSecretName b) ++ omitempty "fingerprint" (cbFingerprint b)
     ++ [("ready", JBool (cbReady b))] ++ omitempty "readiness_code" (cbReadinessCode b)).

Definition waiting_credential_json (b : DiscordWaitingCredentialBinding) : json :=
  JObject
    ([("stream_id", JString (wcStreamID b)); ("service_id", JString (wcServiceID b));
      ("service_type", JString (wcServiceType b));
      ("selection_epoch", JString (epoch_text (wcSelectionEpoch b)));
      ("profile_id", JString (wcProfileID b)); ("profile_revision", JString (wcProfileRevision b))]
     ++ omitempty "profile_owner_service_id" (wcProfileOwnerServiceID b)
     ++ omitempty "secret_name" (wcSecretName b) ++ omitempty "fingerprint" (wcFingerprint b)
     ++ [("ready", JBool (wcReady b))] ++ omitempty "readiness_code" (wcReadinessCode b)).

(** The resolver of both: the request names the binding and its secret.  What a
    failed call leaves beside its error is not used. *)
Definition resolve_binding (versionKey bindingKey : string) (binding : json) (secretName : string)
    : cprog (RuntimeSecret + error) :=
  let* answer := postDecodeWithOptionalBody c "/services/runtime-secrets/resolve"
    (json_map [("service_id", JString (pcServiceID c)); ("secret_name", JString secretName);
               (versionKey, JInt 1); (bindingKey, binding)])
    (Some (secret_fields, mkSecret "" "" 0)) (mkSecret "" "" 0) false in
  match answer with
  | inr err => Ret (inr err)
  | inl (_, secret) => Ret (inl secret)
  end.

Definition ResolveRuntimeSecretForCurrentBinding (b : CurrentDiscordCredentialBinding) :
    cprog (RuntimeSecret + error) :=
  resolve_binding "current_discord_binding_version" "current_discord_binding"
    (current_binding_json b) (cbSecretName b).

Definition ResolveRuntimeSecretForWaitingBinding (b : DiscordWaitingCredentialBinding) :
    cprog (RuntimeSecret + error) :=
  resolve_binding "discord_waiting_binding_version" "discord_waiting_binding"
    (waiting_credential_json b) (wcSecretName b).
End Reports.

(** ** What a heartbeat sends *)

(** The requests of a trace: method, URL, token and body. *)
Definition sel_request X (e : ReportCall X) : option (string * string * string * option json) :=
  match e with
  | FromClient e =>
      match e with
      | DoRequest method url token body => Some (method, url, token, body)
      | NewRequest _ _ => None
      end
  | _ => None
  end.

Definition requests (tr : list (obs ReportCall ReportLabel)) : list (string * string * string * option json) :=
  tr ≫= fun o => match o with OCall e _ => option_list (sel_request _ e) | _ => [] end.

Lemma secret_requests_app tr1 tr2 : requests (tr1 ++ tr2) = (requests tr1 ++ requests tr2)%list.
Proof. apply bind_app. Qed.

Lemma requests_silent o tr : requests [o] = [] -> requests (o :: tr) = requests tr.
Proof. change (o :: tr) with ([o] ++ tr)%list. rewrite secret_requests_app. by intros ->. Qed.

Section Outcome.
Context `{URLParse} `{MapRange} (build : Build) (c : Config) (en : env Samples ReportCall).

(** A post: what the checks or the construction of the request refuse is not
    sent; what is sent, is sent once. *)
Lemma post_run endpoint payload n s :
  let '(res, s', tr) := run en (from_client (post_payload c endpoint payload)) n s in
  let url := joinURL (pcControlPanelURL c) endpoint in
  (requests tr = [] /\ res <> None) \/
  exists body, payload = Some body /\ Validate c = None /\
    requests tr = [("POST", url, pcToken c, Some body)].
Proof.
  unfold from_client, post_payload. destruct payload as [body|].
  - unfold post, postDecodeWithOptionalBody, request.
    destruct (Validate c) as [err|] eqn:Ev; [by left|]. cbv zeta. cbn [bind call inline run].
    destruct (env_call en _ _ _ s) as [[err|] s1]; [by left|]. cbn [bind call inline run].
    destruct (env_call en _ _ _ s1) as [[r|err] s2]; [destruct (success (hrStatus r))|];
      cbn [bind call inline run]; right; by exists body.
  - destruct (Validate c) as [err|]; by left.
Qed.

Lemma metrics_encode m : (forall k x, m !! k = Some x -> is_finite x = true) -> is_Some (metrics_json m).
Proof.
  intros Hm. unfold metrics_json. apply fmap_is_Some, mapM_is_Some_2, Forall_forall.
  intros [k x] Hin%elem_of_map_to_list. apply Hm, json_float_finite in Hin as [v Hv].
  simpl. rewrite Hv. by eexists.
Qed.

Lemma heartbeat_encodes status stream hostname m :
  (forall k x, m !! k = Some x -> is_finite x = true) ->
  is_Some (heartbeat_body build c status stream hostname m).
Proof. intros Hm. unfold heartbeat_body. destruct (metrics_encode m Hm) as [v ->]. by eexists. Qed.

(** What the caller supplies wins over the host. *)
Lemma supplied_wins host m k x :
  canonical_keys host -> canonical_keys m -> m !! k = Some x -> is_finite x = true ->
  mergeFloatMetrics [host; m] !! k = Some x.
Proof.
  intros Hh Hm Hk Hx. rewrite merge_is_reference by (by repeat constructor).
  unfold merge_reference. simpl. apply lookup_union_Some_l. by apply map_lookup_filter_Some.
Qed.

Lemma cpu_metrics_run n s :
  let '(m, _, tr) := run en cpu_metrics n s in requests tr = [].
Proof.
  unfold cpu_metrics. cbn [bind lock call atomic run]. destruct (env_call en _ _ _ s) as [stat s1].
  cbn [bind run]. by destruct (cpuMetrics stat (smCPU s1)) as [m cpu].
Qed.

Lemma network_metrics_run n s :
  let '(m, _, tr) := run en network_metrics n s in requests tr = [].
Proof.
  unfold network_metrics. cbn [bind call run]. destruct (env_call en _ _ _ s) as [netdev s1].
  destruct (networkByteCounters netdev); [|done]. cbn [bind call run].
  destruct (env_call en _ _ _ s1) as [now s2]. cbn [bind lock atomic run].
  by destruct (networkMetrics netdev now (smNetwork s2)).
Qed.

Lemma node_host_metrics_run n s :
  let '(m, _, tr) := run en node_host_metrics n s in
  requests tr = [] /\ exists inputs, m = mergeFloatMetrics inputs.
Proof.
  unfold node_host_metrics. cbn [bind call run]. destruct (env_call en _ _ _ s) as [runtime s1].
  rewrite run_bind. pose proof (cpu_metrics_run (S n) s1) as Hc.
  destruct (run en cpu_metrics _ s1) as [[cpu s2] tr1]. cbn [bind call run].
  destruct (env_call en _ _ _ s2) as [meminfo s3]. cbn [bind call run].
  destruct (env_call en _ _ _ s3) as [loadavg s4]. cbn [bind call run].
  destruct (env_call en _ _ _ s4) as [statfs s5]. rewrite run_bind.
  pose proof (network_metrics_run (S (S (S (S n + length tr1)))) s5) as Hn.
  destruct (run en network_metrics _ s5) as [[network s6] tr2]. cbn [run].
  split; [|by eexists]. rewrite requests_silent, secret_requests_app, Hc by done. cbn [app].
  by rewrite !requests_silent, app_nil_r.
Qed.

(** What a reader of a heartbeat finds under a name, and a text that is left out
    when it is empty. *)
Fixpoint assoc (key : string) (kvs : list (string * json)) : option json :=
  match kvs with
  | [] => None
  | (k, v) :: kvs => if k =s key then Some v else assoc key kvs
  end.

Definition json_member (key : string) (body : json) : option json :=
  match body with JObject kvs => assoc key kvs | _ => None end.

Definition text_if_any (text : string) : option json := if text =s "" then None else Some (JString text).

Record heartbeat_says (status stream hostname : string) (reported : metrics) (body : json) : Prop := {
  hb_service : json_member "service_id" body = Some (JString (pcServiceID c));
  hb_status : json_member "status" body = Some (JString status);
  hb_stream : json_member "current_stream_id" body = text_if_any stream;
  hb_version : json_member "version" body = text_if_any (pcVersion c);
  hb_commit : json_member "commit" body = text_if_any (bdCommit build);
  hb_date : json_member "build_date" body = text_if_any (bdDate build);
  hb_capabilities : json_member "capabilities" body = Some (json_map serviceCapabilities);
  hb_hostname : json_member "hostname" body = text_if_any hostname;
  hb_os : json_member "os" body = text_if_any (bdOS build);
  hb_arch : json_member "arch" body = text_if_any (bdArch build);
  hb_metrics : if bool_decide (reported = ∅) then json_member "metrics" body = None
    else exists entries, json_member "metrics" body = Some (JObject entries) /\
      forall k v, (k, v) ∈ entries <-> exists x, reported !! k = Some x /\ json_float x = Some v }.

Lemma assoc_app key l1 l2 :
  assoc key (l1 ++ l2) = match assoc key l1 with Some v => Some v | None => assoc key l2 end.
Proof. induction l1 as [|[k v] l1 IH]; [done|]. cbn [app assoc]. by destruct (k =s key). Qed.

Lemma assoc_omitempty key name text :
  assoc key (omitempty name text) = if name =s key then text_if_any text else None.
Proof. unfold omitempty, text_if_any. destruct (text =s ""); simpl; by destruct (name =s key). Qed.

Lemma metrics_json_entries m v :
  metrics_json m = Some v -> exists entries, v = JObject entries /\
    forall k t, (k, t) ∈ entries <-> exists x, m !! k = Some x /\ json_float x = Some t.
Proof.
  unfold metrics_json. intros (l & Hl%mapM_Some_1 & ->)%fmap_Some. unfold json_map.
  exists (merge_sort key_le l). split; [done|]. intros k t. rewrite merge_sort_Permutation.
  split.
  - intros [i Hi]%list_elem_of_lookup. destruct (Forall2_lookup_r _ _ _ _ _ Hl Hi) as ([k' x] & Hk & Hf).
    cbn [fst snd] in Hf. apply bind_Some in Hf as (t' & Ht & [= -> ->]). exists x. split; [|done].
    apply elem_of_map_to_list. by eapply list_elem_of_lookup_2.
  - intros (x & Hx & Ht). apply elem_of_map_to_list, list_elem_of_lookup in Hx as [i Hi].
    destruct (Forall2_lookup_l _ _ _ _ _ Hl Hi) as (y & Hy & Hf). cbn [fst snd] in Hf.
    rewrite Ht in Hf. injection Hf as <-. by eapply list_elem_of_lookup_2.
Qed.

Lemma heartbeat_body_says status stream hostname reported body :
  heartbeat_body build c status stream hostname reported = Some body ->
  heartbeat_says status stream hostname reported body.
Proof.
  unfold heartbeat_body. intros (entries & He & [= <-])%bind_Some.
  destruct (metrics_json_entries _ _ He) as (l & -> & Hl).
  destruct (bool_decide (reported = ∅)) eqn:Ee; split; rewrite ?Ee; cbn [json_member]; unfold host_fields;
    repeat (progress (rewrite ?assoc_app, ?assoc_omitempty; cbn [assoc String.eqb Ascii.eqb Bool.eqb]));
    try reflexivity.
  all: try (repeat (match goal with |- context [text_if_any ?t] => destruct (text_if_any t) end); reflexivity).
  by exists l.
Qed.

(** C39: A heartbeat that is sent is one POST to the heartbeat endpoint of the
    configured Control Panel under its token. Its body names the service, the
    stream, the version and build and the host it read, each left out when it is
    empty, with the status [online] unless another is given, and the capabilities
    of the bot; and it always encodes: its metrics are finite numbers under
    trimmed names, and a finite metric of the caller whose name is not blank is
    among them, with the value the caller gave to that name, or to another one
    that is trimmed to the same, whatever the host reports; with the names of
    [Manager.Metrics], which are trimmed, every finite value of the caller is
    reported as it is. *)
Theorem heartbeat_reports status stream m n s :
  let '(res, _, tr) := run en (HeartbeatWithMetrics build c status stream m) n s in
  exists hostname rest reported body,
    tr = OCall Hostname hostname :: rest /\
    heartbeat_says (if status =s "" then "online" else status) stream
      (match hostname with Some name => TrimSpace name | None => "" end) reported body /\
    (forall k x, reported !! k = Some x -> is_finite x = true /\ canonical_key k = true) /\
    (forall k x, m !! k = Some x -> is_finite x = true -> blank k = false ->
       exists k' x', m !! k' = Some x' /\ TrimSpace k' = TrimSpace k /\
         reported !! TrimSpace k = Some x') /\
    ((exists discord manager, m = Metrics discord manager) ->
       forall k x, m !! k = Some x -> is_finite x = true -> reported !! k = Some x) /\
    ((requests tr = [] /\ res <> None) \/
     (Validate c = None /\
      requests tr = [("POST", joinURL (pcControlPanelURL c) "/services/heartbeat", pcToken c, Some body)])).
Proof.
  unfold HeartbeatWithMetrics, reportHostname. cbn [bind call run].
  destruct (env_call en _ _ _ s) as [hostname s1]. cbn [bind run]. rewrite run_bind.
  pose proof (node_host_metrics_run (S n) s1) as Hh.
  destruct (run en node_host_metrics _ s1) as [[host s2] tr1]. destruct Hh as [Htr1 [inputs ->]].
  set (name := match hostname with Some name => TrimSpace name | None => "" end).
  set (host := mergeFloatMetrics inputs). set (reported := mergeFloatMetrics [host; m]).
  assert (forall k x, reported !! k = Some x -> is_finite x = true /\ canonical_key k = true) as Hr.
  { intros k x (Hx & Hk & _)%merge_sound. done. }
  set (st := if status =s "" then _ else _).
  destruct (heartbeat_encodes st stream name reported) as [body Hb]; [intros k x Hl; by apply (Hr k x)|].
  pose proof (post_run "/services/heartbeat" (heartbeat_body build c st stream name reported)
    (S n + length tr1) s2) as Hp.
  destruct (run en (from_client _) _ s2) as [[res s3] tr2]. cbv zeta in Hp.
  eexists hostname, _, reported, body. split; [done|]. split; [by apply heartbeat_body_says|].
  split; [done|]. split; [|split].
  - intros k x Hk Hx Hkb. by apply last_input_reports with (x := x).
  - intros (discord & manager & ->) k x Hk Hx.
    apply supplied_wins; [|apply metrics_canonical|done..].
    intros k' [x' Hl]. by apply merge_sound in Hl as (_ & ? & _).
  - rewrite requests_silent, secret_requests_app, Htr1 by done.
    destruct Hp as [Hp|(body' & Hb' & Hv & Hp)]; [by left|]. right. split; [done|].
    rewrite Hb in Hb'. injection Hb' as <-. done.
Qed.

(** A turn of the loop goes on to the next, whatever became of its heartbeat. *)
Lemma heartbeat_loop_goes_on stream withMetrics onError every canceled n s :
  let '(next, _, tr) :=
    run en (RunHeartbeatLoopWithMetrics build c stream withMetrics onError every canceled) n s in
  exists done tr0, tr = (tr0 ++ [OWait (Some (Control.heartbeat_interval every)) done])%list /\
    next = if done then None else Some HeartbeatLoop.
Proof.
  unfold RunHeartbeatLoopWithMetrics. rewrite run_bind.
  destruct (run en (heartbeat_turn _ _ _ _ _) n s) as [[[] s1] tr0]. cbn [bind wait run].
  destruct (env_wait en _ _ _ s1) as [done s2]. cbn [run]. by exists done, tr0.
Qed.
End Outcome.

(** ** What a secret request names *)

(** What a member of a JSON object decodes to as a struct. *)
Definition member (key : string) (v : json) : json :=
  match v with
  | JObject kvs => default JNull (snd <$> (snd <$> list_find (fun kv : string * json => kv.1 = key) kvs))
  | _ => JNull
  end.

Section Secrets.
Context `{URLParse} (c : Config) (en : env Samples ReportCall) (epoch_text : Time -> string).
(** [time.Time.MarshalJSON] writes a text that reads as the same instant. *)
Context (epoch_reads : forall t, time_ok t -> Parse (list_ascii_of_string (epoch_text t)) = Some t).

Lemma current_binding_reads b :
  time_ok (cbAssignmentEpoch b) ->
  decode_lenient binding_fields (current_binding_json epoch_text b) zeroBinding = Some b.
Proof using epoch_reads.
  destruct b as [a1 a2 a3 a4 t a6 owner name print ready code]. cbn [cbAssignmentEpoch]. intros Ht.
  unfold current_binding_json, omitempty. cbn -[decode_time Parse].
  destruct (String.eqb_spec owner ""), (String.eqb_spec name ""), (String.eqb_spec print ""),
    (String.eqb_spec code ""); subst; cbn -[Parse]; by rewrite epoch_reads.
Qed.

Lemma waiting_credential_reads b :
  time_ok (wcSelectionEpoch b) ->
  decode_lenient waiting_credential_fields (waiting_credential_json epoch_text b) zeroWaitingCredential = Some b.
Proof using epoch_reads.
  destruct b as [a1 a2 a3 t a5 a6 owner name print ready code]. cbn [wcSelectionEpoch]. intros Ht.
  unfold waiting_credential_json, omitempty. cbn -[decode_time Parse].
  destruct (String.eqb_spec owner ""), (String.eqb_spec name ""), (String.eqb_spec print ""),
    (String.eqb_spec code ""); subst; cbn -[Parse]; by rewrite epoch_reads.
Qed.

(** The request of a binding's secret, when one is sent. *)
Definition secret_request (versionKey bindingKey : string) (binding : json) (secretName : string)
    (tr : list (obs ReportCall ReportLabel)) : Prop :=
  exists body,
    requests tr = [("POST", joinURL (pcControlPanelURL c) "/services/runtime-secrets/resolve", pcToken c, Some body)] /\
    member "service_id" body = JString (pcServiceID c) /\ member "secret_name" body = JString secretName /\
    member versionKey body = JInt 1 /\ member bindingKey body = binding.

Lemma resolve_run versionKey bindingKey binding secretName n s :
  (forall a b v x, member "service_id" (json_map [("service_id", a); ("secret_name", b); (versionKey, v); (bindingKey, x)]) = a /\
    member "secret_name" (json_map [("service_id", a); ("secret_name", b); (versionKey, v); (bindingKey, x)]) = b /\
    member versionKey (json_map [("service_id", a); ("secret_name", b); (versionKey, v); (bindingKey, x)]) = v /\
    member bindingKey (json_map [("service_id", a); ("secret_name", b); (versionKey, v); (bindingKey, x)]) = x) ->
  let '(res, _, tr) := run en (from_client (resolve_binding c versionKey bindingKey binding secretName)) n s in
  (requests tr = [] /\ exists err, res = inr err) \/
  secret_request versionKey bindingKey binding secretName tr.
Proof.
  intros Hkeys. unfold from_client, resolve_binding, postDecodeWithOptionalBody, request.
  set (body := json_map _). specialize (Hkeys (JString (pcServiceID c)) (JString secretName) (JInt 1) binding).
  fold body in Hkeys. clearbody body. destruct (Validate c) as [err|]; [left; split; [done|by exists err]|].
  cbv zeta. cbn [bind call inline run].
  destruct (env_call en _ _ _ s) as [[err|] s1]; [left; split; [done|by exists err]|].
  cbn [bind call inline run]. destruct (env_call en _ _ _ s1) as [[r|err] s2].
  - destruct (success (hrStatus r)); cbn [bind inline run]; [destruct (decode_body secret_fields (mkSecret "" "" 0) (hrBody r))|]; cbn [bind inline run];
      right; by exists body.
  - cbn [bind inline run]. right. by exists body.
Qed.

(** The secret of a binding is asked for by one POST to the resolve endpoint
    under the node's token; it names the node, the secret and the contract
    version, and its binding reads back as exactly the binding the node was
    given. *)
Theorem secret_request_names_binding b n s :
  time_ok (cbAssignmentEpoch b) ->
  let '(res, _, tr) := run en (from_client (ResolveRuntimeSecretForCurrentBinding c epoch_text b)) n s in
  (requests tr = [] /\ exists err, res = inr err) \/
  exists binding, secret_request "current_discord_binding_version" "current_discord_binding" binding (cbSecretName b) tr /\
    decode_lenient binding_fields binding zeroBinding = Some b.
Proof using epoch_reads.
  intros Ht. pose proof (resolve_run "current_discord_binding_version" "current_discord_binding"
    (current_binding_json epoch_text b) (cbSecretName b) n s) as Hr.
  unfold ResolveRuntimeSecretForCurrentBinding. destruct (run en _ n s) as [[res s1] tr].
  destruct Hr as [?|Hr]; [done|by left|]. right. exists (current_binding_json epoch_text b).
  split; [done|by apply current_binding_reads].
Qed.

Lemma waiting_secret_request_names_binding b n s :
  time_ok (wcSelectionEpoch b) ->
  let '(res, _, tr) := run en (from_client (ResolveRuntimeSecretForWaitingBinding c epoch_text b)) n s in
  (requests tr = [] /\ exists err, res = inr err) \/
  exists binding, secret_request "discord_waiting_binding_version" "discord_waiting_binding" binding (wcSecretName b) tr /\
    decode_lenient waiting_credential_fields binding zeroWaitingCredential = Some b.
Proof using epoch_reads.
  intros Ht. pose proof (resolve_run "discord_waiting_binding_version" "discord_waiting_binding"
    (waiting_credential_json epoch_text b) (wcSecretName b) n s) as Hr.
  unfold ResolveRuntimeSecretForWaitingBinding. destruct (run en _ n s) as [[res s1] tr].
  destruct Hr as [?|Hr]; [done|by left|]. right. exists (waiting_credential_json epoch_text b).
  split; [done|by apply waiting_credential_reads].
Qed.
End Secrets.

Module Sample.
#[local] Existing Instance ControlClient.Sample.local_url.
#[local] Existing Instance canonical_range.

Definition build : Build := mkBuild "abc" "" "linux" "amd64".

(** Every request is answered, the host reads nothing. *)
Definition en : env Samples ReportCall :=
  {| env_call X _ e s :=
       (match e in ReportCall X return X with
        | FromClient e =>
            match e in CtlCall X return X with
            | NewRequest _ _ => None
            | DoRequest _ _ _ _ => inl (mkHttp 200 None)
            end
        | Hostname => Some " host "
        | ReadRuntime => (mkGoRuntime 1 1 0 0 0 0, 0)
        | ReadFile _ => None
        | ReadStatfs => None
        | TimeNow => 0
        | CurrentStreamID => "s1"
        | CurrentMetrics => ∅
        | OnError _ => tt
        end, s);
     env_wait _ _ c s := (c s, s) |}.

Definition idle : Samples := mkSamples None None.
Definition supplied : metrics := {["discord.participant_count" := float64 3]}.

Definition beat : option error * Samples * list (obs ReportCall ReportLabel) :=
  run en (HeartbeatWithMetrics build ControlClient.Sample.config "" "s1" supplied) 0 idle.

Lemma beat_sent : beat.1.1 = None.
Proof. vm_compute. reflexivity. Qed.

Lemma heartbeat_reports_witness :
  let '(res, _, tr) := beat in
  exists body, requests tr = [("POST", joinURL "http://localhost/" "/services/heartbeat", "t", Some body)] /\
    json_member "status" body = Some (JString "online") /\
    json_member "current_stream_id" body = Some (JString "s1") /\
    exists reported : metrics, reported !! "discord.participant_count" = Some (float64 3).
Proof.
  pose proof (heartbeat_reports build ControlClient.Sample.config en "" "s1" supplied 0 idle) as H.
  fold beat in H. pose proof beat_sent as Hres. destruct beat as [[res s1] tr]. cbn [fst] in Hres.
  destruct H as (hostname & rest & reported & body & _ & Hb & _ & Hs & _ & [[_ ?]|[_ Hr]]); [done|].
  exists body. split; [exact Hr|]. split; [exact (hb_status _ _ _ _ _ _ _ Hb)|].
  split; [exact (hb_stream _ _ _ _ _ _ _ Hb)|]. exists reported.
  destruct (Hs "discord.participant_count" (float64 3)) as (k' & x' & Hk & _ & Hx);
    [apply lookup_singleton_eq|reflexivity|reflexivity|].
  unfold supplied in Hk. apply lookup_singleton_Some in Hk as [_ <-]. exact Hx.
Defined.

Definition binding : CurrentDiscordCredentialBinding :=
  mkBinding "s1" "bot-1" "discord_bot" "primary" 0 "p" "" "token" "" true "".

Lemma secret_request_names_binding_witness :
  time_ok (cbAssignmentEpoch binding) /\
  let '(res, _, tr) := run en (from_client
    (ResolveRuntimeSecretForCurrentBinding ControlClient.Sample.config FormatRFC3339Nano binding)) 0 idle in
  (requests tr = [] /\ exists err, res = inr err) \/
  exists v, secret_request ControlClient.Sample.config "current_discord_binding_version" "current_discord_binding" v "token" tr /\
    decode_lenient binding_fields v zeroBinding = Some binding.
Proof.
  assert (time_ok 0) as Ht by (unfold time_ok, max_time, Second; lia).
  split; [exact Ht|].
  exact (secret_request_names_binding ControlClient.Sample.config en FormatRFC3339Nano parse_format binding 0 idle Ht).
Defined.
End Sample.
