(* ===== verification/Wire.v ===== *)
(** * Wire: the bodies of the requests to the Worker and the encoder

    The JSON values that [encoding/json] writes for the payloads of
    [internal/worker/client.go] and the batches of
    [internal/audioforward/client.go], with the base64 text of an Opus packet,
    and the request of the configure command ([internal/control/configure_command.go]).
    Two payloads with the same text are the same payload. *)

From S2P Require Import Prelude Types Json Rfc3339 AudioForward WorkerClient.
From S2P Require NodeReports.

Open Scope go_scope.

(** ** Base64 *)

(** [base64.StdEncoding] *)
Definition base64_digit (n : N) : ascii :=
  ascii_of_N (if n <? 26 then 65 + n else if n <? 52 then 71 + n else if n <? 62 then n - 4
              else if n =? 62 then 43 else 47)%N.

Fixpoint base64 (l : list Byte.byte) : list ascii :=
  match l with
  | a :: b :: c :: l =>
      let n := (65536 * Byte.to_N a + 256 * Byte.to_N b + Byte.to_N c)%N in
      base64_digit (n / 262144) :: base64_digit (n / 4096 mod 64)
      :: base64_digit (n / 64 mod 64) :: base64_digit (n mod 64) :: base64 l
  | [a; b] =>
      let n := (65536 * Byte.to_N a + 256 * Byte.to_N b)%N in
      [base64_digit (n / 262144); base64_digit (n / 4096 mod 64); base64_digit (n / 64 mod 64); "="%char]
  | [a] =>
      let n := (65536 * Byte.to_N a)%N in
      [base64_digit (n / 262144); base64_digit (n / 4096 mod 64); "="%char; "="%char]
  | [] => []
  end.

Definition EncodeToString (l : list Byte.byte) : string := string_of_list_ascii (base64 l).

Definition base64_value (a : ascii) : N :=
  let n := byteN a in
  (if (65 <=? n) && (n <=? 90) then n - 65 else if (97 <=? n) && (n <=? 122) then n - 71
   else if (48 <=? n) && (n <=? 57) then n + 4 else if n =? 43 then 62 else if n =? 47 then 63 else 64)%N.

Lemma base64_value_digit n : (n < 64)%N -> base64_value (base64_digit n) = n.
Proof. intros Hn. by destruct n as [|p]; [|do 6 (destruct p as [p|p|]; try done; try lia)]. Qed.

Lemma base64_digit_inj n m : (n < 64)%N -> (m < 64)%N -> base64_digit n = base64_digit m -> n = m.
Proof. intros Hn Hm E. by rewrite <- (base64_value_digit n), E, base64_value_digit. Qed.

Lemma base64_digit_pad n : (n < 64)%N -> base64_digit n <> "="%char.
Proof. intros Hn E. apply (f_equal base64_value) in E. rewrite base64_value_digit in E by done. vm_compute in E. lia. Qed.

Lemma byte_inj a b : Byte.to_N a = Byte.to_N b -> a = b.
Proof. intros E. apply (f_equal Byte.of_N) in E. rewrite !Byte.of_to_N in E. congruence. Qed.

(** The digits of three bytes determine them. *)
Lemma base64_group a b c a' b' c' :
  (a < 256 -> b < 256 -> c < 256 -> a' < 256 -> b' < 256 -> c' < 256 ->
   let n := 65536 * a + 256 * b + c in let m := 65536 * a' + 256 * b' + c' in
   n / 262144 = m / 262144 -> n / 4096 mod 64 = m / 4096 mod 64 -> n / 64 mod 64 = m / 64 mod 64 ->
   n mod 64 = m mod 64 -> a = a' /\ b = b' /\ c = c')%N.
Proof.
  intros ?????? n m H1 H2 H3 H4.
  assert (n = m) as E; [|subst n m; lia].
  rewrite (N.div_mod n 64), (N.div_mod m 64), H4 by done. do 2 f_equal.
  rewrite (N.div_mod (n / 64) 64), (N.div_mod (m / 64) 64), H3 by done. do 2 f_equal.
  rewrite !N.Div0.div_div. change (64 * 64)%N with 4096%N.
  rewrite (N.div_mod (n / 4096) 64), (N.div_mod (m / 4096) 64), H2, !N.Div0.div_div by done.
  change (4096 * 64)%N with 262144%N. by rewrite H1.
Qed.

Lemma byte_bound a : (Byte.to_N a < 256)%N.
Proof. pose proof (Byte.to_N_bounded a). lia. Qed.

Ltac base64_digits :=
  repeat match goal with
  | H : base64_digit _ = base64_digit _ |- _ =>
      apply base64_digit_inj in H;
        [|first [by apply N.mod_lt|apply N.Div0.div_lt_upper_bound; lia]..]
  end.

Lemma base64_low a b : ((65536 * a + 256 * b) mod 64 = 0)%N.
Proof. replace (65536 * a + 256 * b)%N with ((1024 * a + 4 * b) * 64)%N by lia. apply N.Div0.mod_mul. Qed.

Lemma base64_low2 a : ((65536 * a) / 64 mod 64 = 0)%N.
Proof.
  replace (65536 * a)%N with (1024 * a * 64)%N by lia. rewrite N.div_mul by done.
  replace (1024 * a)%N with (16 * a * 64)%N by lia. apply N.Div0.mod_mul.
Qed.

Lemma triples_ind {A} (P : list A -> Prop) :
  P [] -> (forall a, P [a]) -> (forall a b, P [a; b]) -> (forall a b c l, P l -> P (a :: b :: c :: l)) ->
  forall l, P l.
Proof.
  intros H0 H1 H2 H3. fix IH 1. intros [|a [|b [|c l]]]; [done|apply H1|apply H2|apply H3, IH].
Qed.

(** The padding tells how many bytes the last group has. *)
Ltac wrong_padding E :=
  injection E; intros; exfalso;
  first [by eapply base64_digit_pad; [|done]; apply N.mod_lt
        |by eapply base64_digit_pad; [|symmetry; done]; apply N.mod_lt].

(** Different payloads have different texts. *)
Lemma base64_inj l1 l2 : base64 l1 = base64 l2 -> l1 = l2.
Proof.
  revert l2. induction l1 as [|a|a b|a b c l1 IH] using triples_ind; intros [|a' [|b' [|c' l2]]] E;
    try discriminate E; try done; cbn [base64] in E; try (by wrong_padding E);
    pose proof (byte_bound a); pose proof (byte_bound a').
  - injection E as H1 H2. base64_digits.
    destruct (base64_group (Byte.to_N a) 0 0 (Byte.to_N a') 0 0) as (Ea & _); rewrite ?N.mul_0_r, ?N.add_0_r; try done.
    + by rewrite !base64_low2.
    + by rewrite <- (N.add_0_r (65536 * _)), <- (N.add_0_r (65536 * Byte.to_N a')), !(base64_low _ 0).
    + by apply byte_inj in Ea as ->.
  - pose proof (byte_bound b). pose proof (byte_bound b'). injection E as H1' H2' H3'. base64_digits.
    destruct (base64_group (Byte.to_N a) (Byte.to_N b) 0 (Byte.to_N a') (Byte.to_N b') 0) as (Ea & Eb & _);
      rewrite ?N.add_0_r, ?base64_low; try done.
    by apply byte_inj in Ea as ->, Eb as ->.
  - pose proof (byte_bound b). pose proof (byte_bound b'). pose proof (byte_bound c). pose proof (byte_bound c').
    injection E as H1' H2' H3' H4' E. base64_digits.
    destruct (base64_group (Byte.to_N a) (Byte.to_N b) (Byte.to_N c) (Byte.to_N a') (Byte.to_N b') (Byte.to_N c'))
      as (Ea & Eb & Ec); try done.
    apply byte_inj in Ea as ->, Eb as ->, Ec as ->. by rewrite (IH _ E).
Qed.

Lemma EncodeToString_inj l1 l2 : EncodeToString l1 = EncodeToString l2 -> l1 = l2.
Proof.
  intros E. apply base64_inj. rewrite <- (list_ascii_of_string_of_list_ascii (base64 l1)).
  rewrite <- (list_ascii_of_string_of_list_ascii (base64 l2)). by f_equal.
Qed.

(** ** The values *)

(** [packetWire] and the [ingestRequest] of a batch. *)
Definition packet_json (p : OpusPacket) : json :=
  JObject ([("ssrc", JInt (opSSRC p))] ++ omitempty "user_id" (opUserID p)
    ++ [("job_generation", JInt (opJobGeneration p));
        ("connection_generation", JInt (opConnectionGeneration p)); ("sequence", JInt (opSequence p));
        ("timestamp", JInt (opTimestamp p)); ("received_at", time_json (opReceivedAt p));
        ("opus_base64", JString (EncodeToString (opOpus p)))])%list.

Definition ingest_json (r : ingestRequest) : json :=
  JObject [("stream_id", JString (irStreamID r)); ("source", JString (irSource r));
           ("packets", JArray (map packet_json (irPackets r)))].

(** [participantPayload] *)
Definition participant_json (p : participantPayload) : json :=
  JObject ([("user_id", JString (ppUserID p))] ++ omitempty "display_name" (ppDisplayName p)
    ++ omitempty "avatar_url" (ppAvatarURL p) ++ (if ppIsBot p then [("is_bot", JBool true)] else [])
    ++ [("speaking", JBool (ppSpeaking p))])%list.

(** The bodies of the three events; the keys of a Go map are sorted. *)
Definition payload_json (p : payload) : json :=
  match p with
  | ParticipantsPayload participants generation =>
      JObject [("participants", JArray (map participant_json participants)); ("job_generation", JInt generation)]
  | ActiveSpeakerPayload userID displayName speaking generation =>
      JObject [("display_name", JString displayName); ("job_generation", JInt generation);
               ("speaking", JBool speaking); ("user_id", JString userID)]
  | ChatPayload m generation =>
      JObject [("job_generation", JInt generation);
        ("payload", JObject [("author_id", JString (cmUserID m)); ("avatar_url", JString (cmAvatarURL m));
           ("content", JString (cmContent m)); ("created_at", time_json (cmCreatedAt m));
           ("display_name", JString (cmUsername m)); ("is_bot", JBool (cmIsBot m));
           ("message_id", JString (cmMessageID m)); ("text_channel_id", JString (cmTextChannelID m))]);
        ("type", JString "overlay.discord_chat")]
  end.

(** [configureRequestPayload], with [configureHostname] of the host's answer. *)
Definition configureRequestPayload (build : NodeReports.Build) (current : string) (hostname : option string)
    (nodeID configureToken : string) : json :=
  NodeReports.json_map
    [("nodeId", JString nodeID); ("configureToken", JString configureToken); ("version", JString current);
     ("commit", JString (NodeReports.bdCommit build)); ("build_date", JString (NodeReports.bdDate build));
     ("hostname", JString (match hostname with Some name => TrimSpace name | None => "" end));
     ("os", JString (NodeReports.bdOS build)); ("arch", JString (NodeReports.bdArch build))].

(** ** Faithfulness *)

Lemma JInt_inj z w : JInt z = JInt w -> z = w.
Proof. unfold JInt. intros [= E1 E2]. lia. Qed.

Lemma time_json_inj t u : 0 <= t < max_time -> 0 <= u < max_time -> time_json t = time_json u -> t = u.
Proof.
  intros Ht Hu E. pose proof (decode_time_format t 0 Ht) as H1. unfold time_json in E. rewrite E in H1.
  rewrite decode_time_format in H1 by done. by injection H1.
Qed.

Lemma omitempty_inj name s t r q :
  Forall (fun kv => kv.1 <> name) (r ++ q) ->
  (omitempty name s ++ r = omitempty name t ++ q)%list -> s = t /\ r = q.
Proof.
  intros Hn. unfold omitempty. destruct (String.eqb_spec s ""), (String.eqb_spec t ""); subst; cbn [app];
    intros E; [done| | |by injection E].
  - rewrite E in Hn. apply Forall_app in Hn as [Hn _]. by inversion Hn.
  - rewrite <- E in Hn. apply Forall_app in Hn as [_ Hn]. by inversion Hn.
Qed.

Lemma omitempty_no name s k : name <> k -> Forall (fun kv : string * json => kv.1 <> k) (omitempty name s).
Proof. intros Hk. unfold omitempty. case_match; by repeat constructor. Qed.

Ltac other_keys :=
  repeat match goal with
  | |- Forall _ (omitempty _ _) => by apply omitempty_no
  | |- Forall _ (_ ++ _) => apply Forall_app_2
  | |- Forall _ (if ?b then _ else _) => destruct b
  | |- Forall _ _ => constructor; try done
  end.

Lemma participant_json_inj p q : participant_json p = participant_json q -> p = q.
Proof.
  destruct p as [i n a b s], q as [i' n' a' b' s']. unfold participant_json. cbn.
  intros E. injection E as -> E.
  apply omitempty_inj in E as [-> E]; [|other_keys].
  apply omitempty_inj in E as [-> E]; [|other_keys].
  destruct b, b'; by injection E as ->.
Qed.

Lemma packet_json_inj p q :
  0 <= opReceivedAt p < max_time -> 0 <= opReceivedAt q < max_time -> packet_json p = packet_json q -> p = q.
Proof.
  destruct p as [ssrc u g cg sq ts r o], q as [ssrc' u' g' cg' sq' ts' r' o'].
  intros Hr Hr'. unfold packet_json. cbn -[JInt time_json].
  intros E. injection E as E1 E1' E.
  apply omitempty_inj in E as [-> E]; [|other_keys].
  injection E as E2 E2' E3 E3' E4 E4' E5 E5' E6 E7. cbn in Hr, Hr'.
  assert (ssrc = ssrc' /\ g = g' /\ cg = cg' /\ sq = sq' /\ ts = ts') as (-> & -> & -> & -> & ->) by lia.
  apply EncodeToString_inj in E7 as ->. by rewrite (time_json_inj r r' Hr Hr' (f_equal JString E6)).
Qed.

(** A list of values determines the list. *)
Lemma array_inj {A} (P : A -> Prop) (f : A -> json) xs ys :
  (forall x y, P x -> P y -> f x = f y -> x = y) -> Forall P xs -> Forall P ys ->
  JArray (map f xs) = JArray (map f ys) -> xs = ys.
Proof.
  intros Hf Hx. revert ys. induction Hx as [|x xs Hx Hxs IH]; intros [|y ys] Hy E; try discriminate E; [done|].
  inversion_clear Hy. injection E as E1 E2. f_equal; [by apply Hf|]. apply IH; [done|by rewrite E2].
Qed.

(** The value of a payload; [json.Marshal] takes times of the format's range. *)
Class Body (A : Type) := { body : A -> json; times_ok : A -> Prop }.

#[export] Instance ingest_body : Body ingestRequest :=
  {| body := ingest_json; times_ok r := Forall (fun p => 0 <= opReceivedAt p < max_time) (irPackets r) |}.

#[export] Instance payload_body : Body payload :=
  {| body := payload_json;
     times_ok p := match p with ChatPayload m _ => 0 <= cmCreatedAt m < max_time | _ => True end |}.

(** A text a payload is sent as: any that is read back as its value. *)
Definition sent_as `{Body A} (x : A) (text : string) : Prop := times_ok x /\ Unmarshal text = Some (body x).

Lemma sent_as_encode `{Body A} (x : A) : times_ok x -> clean max_depth (body x) -> sent_as x (encode (body x)).
Proof. intros Hx Hc. split; [done|by apply json_roundtrip]. Qed.

Lemma sent_as_body `{Body A} (x y : A) text : sent_as x text -> sent_as y text -> body x = body y.
Proof. intros [_ Hx] [_ Hy]. rewrite Hx in Hy. by injection Hy. Qed.

(** The encoder gets every batch as it is: no text stands for two batches. *)
Theorem batch_text_faithful (r q : ingestRequest) text : sent_as r text -> sent_as q text -> r = q.
Proof.
  intros Hr Hq. pose proof (sent_as_body _ _ _ Hr Hq) as E. destruct Hr as [Tr _], Hq as [Tq _].
  destruct r as [i s ps], q as [i' s' ps']. injection E as -> -> E. f_equal.
  refine (array_inj _ packet_json ps ps' _ Tr Tq (f_equal JArray E)).
  intros x y Hx Hy. by apply packet_json_inj.
Qed.

(** And the Worker every event. *)
Theorem event_text_faithful (p q : payload) text : sent_as p text -> sent_as q text -> p = q.
Proof.
  intros Hp Hq. pose proof (sent_as_body _ _ _ Hp Hq) as E. destruct Hp as [Tp _], Hq as [Tq _].
  cbn [body payload_body] in E.
  destruct p as [ps g|u d s g|m g], q as [ps' g'|u' d' s' g'|m' g']; try discriminate E.
  - injection E as E E1 E2. assert (g = g') as -> by lia. f_equal.
    apply (array_inj (fun _ => True) participant_json);
      [by intros ?? _ _; apply participant_json_inj|by apply Forall_true..|by f_equal].
  - injection E as -> E1 E2 -> ->. assert (g = g') as -> by lia. done.
  - destruct m as [? ? ? ? ? ? ? t], m' as [? ? ? ? ? ? ? t']. injection E as E1 E2. cbn in Tp, Tq. intros; subst.
    assert (g = g') as -> by lia.
    assert (t = t') as -> by (apply time_json_inj; [done..|unfold time_json; congruence]). done.
Qed.

Module Sample.
(** The members in the order of their keys. *)
Example configure_payload :
  encode (configureRequestPayload (NodeReports.mkBuild "c0" "d0" "linux" "amd64") "v1" (Some " host ") "n1" "t1") =
  quoted ("{'arch':'amd64','build_date':'d0','commit':'c0','configureToken':'t1','hostname':'host'," ++
    "'nodeId':'n1','os':'linux','version':'v1'}").
Proof. vm_compute. reflexivity. Qed.

Definition batch : ingestRequest :=
  mkIngest "s1" "discord-bot"
    [mkOpusPacket 7 "" 2 1 40 960 63844761600123000000 [Byte.xf8; Byte.xff; Byte.xfe; Byte.x00]].

Definition chat : payload :=
  ChatPayload (mkChatMessage "m1" "u1" "Ann" "" false "a 'quoted' word" "44" 63844761600123000000) 3.

Definition batch_body : string :=
  quoted ("{'stream_id':'s1','source':'discord-bot','packets':[{'ssrc':7,'job_generation':2," ++
    "'connection_generation':1,'sequence':40,'timestamp':960," ++
    "'received_at':'2024-02-29T00:00:00.123Z','opus_base64':'+P/+AA=='}]}").

Lemma batch_text_faithful_witness :
  sent_as batch batch_body /\ (forall q, sent_as q batch_body -> batch = q).
Proof.
  assert (sent_as batch batch_body) as Hb.
  { split; [|vm_compute; reflexivity]. repeat constructor; vm_compute; discriminate || reflexivity. }
  split; [exact Hb|]. intros q. exact (batch_text_faithful batch q batch_body Hb).
Defined.

Lemma event_text_faithful_witness :
  exists text, sent_as chat text /\ (forall q, sent_as q text -> chat = q).
Proof.
  exists (encode (body chat)).
  assert (sent_as chat (encode (body chat))) as Hc.
  { split; [|vm_compute; reflexivity]. split; vm_compute; discriminate || reflexivity. }
  split; [exact Hc|]. intros q. exact (event_text_faithful chat q _ Hc).
Defined.
End Sample.
