(* ===== verification/ConfigureCommand.v ===== *)
(** * ConfigureCommand: pairing the bot with a Control Panel node

    [internal/control/configure_command.go]: the request for the node
    configuration, the checks of what the panel answers, and the installation of
    the file by a temporary file and a rename, with the removal and second rename
    of Windows.  Paths are in their Unix form. *)

From S2P Require Import Prelude Conc Errors Urls Json NodeConfig ControlClient.

Open Scope go_scope.

Definition maxConfigureResponseBytes : N := 2 ^ 20.
Definition nodeConfigDirMode : N := 488.   (* 0o750 *)
Definition nodeConfigFileMode : N := 416.  (* 0o640 *)
Definition nodeConfigSecureDir : string := "/etc/autostream-discord-bot".
Definition nodeConfigServiceGroup : string := "autostream".

(** The parsed flags. *)
Record configure_flags := mkFlags {
  fgPanelURL : string;
  fgToken : string;
  fgNode : string;
  fgConfig : string;
  fgTimeout : Duration }.

(** Operations of [os] that only fail or succeed. *)
Inductive fs_op :=
| MkdirAll (dir : string) (mode : N)
| ChmodTemp (tmp : string) (mode : N)
| WriteTemp (tmp : string) (body : string)
| CloseTemp (tmp : string)
| Rename (from to : string)
| Remove (name : string)
| Chown (path : string) (gid : Z)
| Chmod (path : string) (mode : N).

Inductive CfgCall : Type -> Type :=
| NewConfigureRequest (url : string) : CfgCall (option error)
| DoConfigure (url nodeID configureToken : string) (timeout : Duration) : CfgCall (http_response + error)
| Geteuid : CfgCall Z
| LookupGroup (group : string) : CfgCall (string + error)  (* its [Gid] *)
| CreateTemp (dir pattern : string) : CfgCall (string + error)
| Fs (op : fs_op) : CfgCall (option error).

Abbreviation fprog := (prog unit CfgCall Empty_set Empty_set).
Abbreviation fret := (@Ret unit CfgCall Empty_set Empty_set _).

(** [fmt.Errorf("...: %w", err)] *)
Definition wrapped (text : string) (err : error) : error := Wrapped (text ++ ": " ++ Error err) (Some err).

Definition failing (text : string) (err : option error) : option error :=
  match err with Some err => Some (wrapped text err) | None => None end.

(** ** The request *)

(** [readLimitedConfigureBody] *)
Definition readLimitedConfigureBody (body : option string) : string + error :=
  match body with
  | None => inr (ErrNew "unexpected EOF")
  | Some body =>
      if (maxConfigureResponseBytes <? N.of_nat (strlen body))%N
      then inr (ErrNew "control panel configure response is too large") else inl body
  end.

(** [json.Unmarshal] into a struct whose other fields are ignored. *)
Definition unmarshal {A} (fields : list (field A)) (zero : A) (body : string) : option A :=
  match Unmarshal body with
  | Some (JObject kvs) => decode_members_lenient fields kvs zero
  | Some JNull => Some zero
  | _ => None
  end.

(** [config_yml] and [configuration_yaml] *)
Definition response_fields : list (field (string * string)) :=
  [("config_yml", fun v r => s ← decode_string v r.1; Some (s, r.2));
   ("configuration_yaml", fun v r => s ← decode_string v r.2; Some (r.1, s))].

(** What [json.Unmarshal] leaves in [apiErr] when its error is dropped: a field
    that decodes before a mistake in another one keeps its value. *)
Definition error_code (body : string) : string :=
  match Unmarshal body with
  | Some (JObject kvs) =>
      fold_left (fun code kv =>
        if fold_name kv.1 =s "code" then default code (decode_string kv.2 code) else code) kvs ""
  | _ => ""
  end.

Definition config_text (body : string) : string + error :=
  match unmarshal response_fields ("", "") body with
  | None => inr (wrapped "decode control panel configure response" (ErrNew "invalid JSON"))
  | Some (configYML, configurationYML) =>
      let text := if blank configYML then TrimSpace configurationYML else TrimSpace configYML in
      if text =s "" then inr (ErrNew "control panel configure response did not include config_yml")
      else inl (text ++ String newline "")
  end.

(** [fetchNodeConfig] *)
Definition fetchNodeConfig (panelURL nodeID configureToken : string) (timeout : Duration)
    : fprog (string + error) :=
  let url := TrimRightSlash panelURL ++ "/services/runtime-identity/configuration" in
  let* invalid := call (NewConfigureRequest url) in
  match invalid with
  | Some err => fret (inr err)
  | None =>
      let* answer := call (DoConfigure url nodeID configureToken timeout) in
      match answer with
      | inr err => fret (inr (wrapped "control panel configure request failed" err))
      | inl res =>
          match readLimitedConfigureBody (hrBody res) with
          | inr err => fret (inr err)
          | inl body =>
              if negb (success (hrStatus res)) then
                let failed := "control panel configure failed: HTTP " ++ itoa (hrStatus res) in
                let code := error_code body in
                fret (inr (ErrNew (if code <>s "" then failed ++ " code " ++ code else failed)))
              else fret (config_text body)
          end
      end
  end.

(** ** The file *)

Section Platform.
(** [runtime.GOOS == [windows]] *)
Context (windows : bool).

(** [shouldApplyAutostreamNodeOwnership] *)
Definition shouldApplyAutostreamNodeOwnership (path : string) : fprog bool :=
  if windows then fret false else
  let* euid := call Geteuid in
  if negb (euid =? 0) then fret false
  else
    fret ((Clean path =s Clean nodeConfigSecureDir) ||
          HasPrefix (Clean path) (Clean nodeConfigSecureDir ++ "/")).

(** [chownRootAutostream]; a group id that is no number is an error. *)
Definition gid_number (gid : string) : option Z :=
  match list_ascii_of_string gid with
  | "-"%char :: r => Z.opp <$> all_digits r
  | "+"%char :: r => all_digits r
  | l => all_digits l
  end.

Definition chownRootAutostream (path : string) : fprog (option error) :=
  let* group := call (LookupGroup nodeConfigServiceGroup) in
  match group with
  | inr err => fret (Some (wrapped "lookup group" err))
  | inl gid =>
      match gid_number gid with
      | None => fret (Some (ErrNew "parse group gid"))
      | Some n =>
          if (n <? - two63) || (two63 <=? n) then fret (Some (ErrNew "parse group gid"))
          else
            let* err := call (Fs (Chown path n)) in
            fret (failing ("chown root:" ++ nodeConfigServiceGroup) err)
      end
  end.

(** [secureNodeConfigDir] *)
Definition secureNodeConfigDir (path : string) : fprog (option error) :=
  let* owned := shouldApplyAutostreamNodeOwnership path in
  if negb owned then fret None
  else
    let* err := chownRootAutostream path in
    match err with
    | Some err => fret (Some (wrapped "secure config directory" err))
    | None =>
        let* err := call (Fs (Chmod path nodeConfigDirMode)) in
        fret (failing "chmod config directory" err)
    end.

(** [secureNodeConfigFile] *)
Definition secureNodeConfigFile (path : string) : fprog (option error) :=
  let* owned := shouldApplyAutostreamNodeOwnership path in
  let* err := if owned then chownRootAutostream path else fret None in
  match err with
  | Some err => fret (Some (wrapped "secure config file" err))
  | None =>
      let* err := call (Fs (Chmod path nodeConfigFileMode)) in
      fret (failing "chmod config" err)
  end.

(** The temporary file once created: its mode, its contents. *)
Definition fill_temp (tmp body : string) : fprog (option error) :=
  let* err := call (Fs (ChmodTemp tmp nodeConfigFileMode)) in
  match err with
  | Some err => do* call (Fs (CloseTemp tmp)) in fret (Some (wrapped "chmod temp config" err))
  | None =>
  let* err := secureNodeConfigFile tmp in
  match err with
  | Some err => do* call (Fs (CloseTemp tmp)) in fret (Some err)
  | None =>
  let* err := call (Fs (WriteTemp tmp body)) in
  match err with
  | Some err => do* call (Fs (CloseTemp tmp)) in fret (Some (wrapped "write temp config" err))
  | None =>
  let* err := call (Fs (CloseTemp tmp)) in
  fret (failing "close temp config" err)
  end
  end
  end.

(** The rename, on Windows once more after the named file was removed, and the
    ownership of the named file: [keepTemp] and the error. *)
Definition install_temp (cleanPath tmp : string) : fprog (bool * option error) :=
  let* renamed := call (Fs (Rename tmp cleanPath)) in
  match renamed with
  | Some err =>
      if windows then
        do* call (Fs (Remove cleanPath)) in
        let* retryErr := call (Fs (Rename tmp cleanPath)) in
        match retryErr with
        | None => do* secureNodeConfigFile cleanPath in fret (true, None)
        | Some _ => fret (false, Some (wrapped "install config" err))
        end
      else fret (false, Some (wrapped "install config" err))
  | None => let* err := secureNodeConfigFile cleanPath in fret (true, err)
  end.

(** [writeNodeConfigFile] *)
Definition writeNodeConfigFile (path body : string) : fprog (option error) :=
  let cleanPath := Clean (TrimSpace path) in
  let dir := Dir cleanPath in
  let* err := call (Fs (MkdirAll dir nodeConfigDirMode)) in
  match err with
  | Some err => fret (Some (wrapped "create config directory" err))
  | None =>
  let* err := secureNodeConfigDir dir in
  match err with
  | Some err => fret (Some err)
  | None =>
  let* created := call (CreateTemp dir ("." ++ Base cleanPath ++ ".tmp-*")) in
  match created with
  | inr err => fret (Some (wrapped "create temp config" err))
  | inl tmp =>
  let* failed := fill_temp tmp body in
  let* installed :=
    match failed with
    | Some err => fret (false, Some err)
    | None => install_temp cleanPath tmp
    end in
  let '(keepTemp, err) := installed in
  do* (if keepTemp then fret tt else do* call (Fs (Remove tmp)) in fret tt) in
  fret err
  end
  end
  end.

(** ** The command *)

(** The checks of the flags. *)
Definition flags_error `{URLParse} (f : configure_flags) : option error :=
  if blank (fgPanelURL f) then Some (ErrNew "--panel-url is required")
  else if blank (fgToken f) then Some (ErrNew "--token is required")
  else if blank (fgNode f) then Some (ErrNew "--node is required")
  else if blank (fgConfig f) then Some (ErrNew "--config is required")
  else if fgTimeout f <=? 0 then Some (ErrNew "--timeout must be positive")
  else validateHTTPURL (fgPanelURL f) "--panel-url" "".

(** The checks of the configuration received. *)
Definition received_error (expectedType nodeID configYML : string) : option error :=
  match parseNodeAgentConfig configYML with
  | inr err => Some (wrapped "received invalid config.yml" (ErrNew err))
  | inl node =>
      let expectedType := TrimSpace expectedType in
      if (expectedType <>s "") && (naNodeType node <>s expectedType)
      then Some (ErrNew "received config for another node.type")
      else if naNodeID node <>s TrimSpace nodeID then Some (ErrNew "received config for another node")
      else None
  end.

(** [RunConfigureCommand] after the flags are parsed *)
Definition RunConfigureCommand `{URLParse} (f : configure_flags) (expectedType : string)
    : fprog (option error) :=
  match flags_error f with
  | Some err => fret (Some err)
  | None =>
      let* fetched := fetchNodeConfig (TrimSpace (fgPanelURL f)) (TrimSpace (fgNode f))
                        (TrimSpace (fgToken f)) (fgTimeout f) in
      match fetched with
      | inr err => fret (Some err)
      | inl configYML =>
          match received_error expectedType (fgNode f) configYML with
          | Some err => fret (Some err)
          | None => writeNodeConfigFile (fgConfig f) configYML
          end
      end
  end.

End Platform.

(** ** The installation is atomic *)

(** What the operations of a run did to files: those that succeeded, except
    that an attempt to remove counts. *)
Inductive file_event :=
| Created (tmp : string)
| Wrote (tmp body : string)
| Installed (from to : string)
| Removed (name : string).

Definition event_of X (e : CfgCall X) : X -> list file_event :=
  match e with
  | CreateTemp _ _ => fun x => match x with inl tmp => [Created tmp] | inr _ => [] end
  | Fs (WriteTemp tmp body) => fun x => match x with None => [Wrote tmp body] | Some _ => [] end
  | Fs (Rename from to) => fun x => match x with None => [Installed from to] | Some _ => [] end
  | Fs (Remove name) => fun _ => [Removed name]
  | _ => fun _ => []
  end.

Definition events (tr : list (obs CfgCall Empty_set)) : list file_event :=
  tr ≫= fun o => match o with OCall e x => event_of _ e x | _ => [] end.

Lemma events_app tr1 tr2 : events (tr1 ++ tr2) = (events tr1 ++ events tr2)%list.
Proof. apply bind_app. Qed.

Lemma events_call {X} (e : CfgCall X) x tr : events (OCall e x :: tr) = (event_of _ e x ++ events tr)%list.
Proof. reflexivity. Qed.

Section Install.
Context (windows : bool) (en : env unit CfgCall).

(** A method that neither creates, writes, installs nor removes. *)
Definition no_events {A} (p : fprog A) : Prop :=
  forall n s, let '(_, _, tr) := run en p n s in events tr = [].

Lemma no_events_ret {A} (a : A) : no_events (fret a).
Proof. done. Qed.

Lemma no_events_call {A X} (e : CfgCall X) (k : X -> fprog A) :
  (forall x, event_of _ e x = []) -> (forall x, no_events (k x)) -> no_events (Call e k).
Proof.
  intros He Hk n s. cbn [run]. destruct (env_call en _ _ e s) as [x s1].
  specialize (Hk x (S n) s1). destruct (run en (k x) (S n) s1) as [[a s2] tr].
  by rewrite events_call, He, Hk.
Qed.

Lemma no_events_bind {A B} (p : fprog A) (k : A -> fprog B) :
  no_events p -> (forall a, no_events (k a)) -> no_events (bind p k).
Proof.
  intros Hp Hk n s. rewrite run_bind. specialize (Hp n s). destruct (run en p n s) as [[a s1] tr1].
  specialize (Hk a (n + length tr1)%nat s1). destruct (run en (k a) _ s1) as [[b s2] tr2].
  by rewrite events_app, Hp, Hk.
Qed.

Lemma chown_no_events path : no_events (chownRootAutostream path).
Proof.
  apply no_events_call; [done|]. intros [gid|]; [|done]. destruct (gid_number gid); [|done].
  case_match; [done|]. by apply no_events_call.
Qed.

Lemma owned_no_events path : no_events (shouldApplyAutostreamNodeOwnership windows path).
Proof.
  unfold shouldApplyAutostreamNodeOwnership. case_match; [done|].
  apply no_events_call; [done|]. intros euid. cbn [bind]. by case_match.
Qed.

Lemma secure_file_no_events path : no_events (secureNodeConfigFile windows path).
Proof.
  apply no_events_bind; [apply owned_no_events|]. intros owned.
  apply no_events_bind; [destruct owned; [apply chown_no_events|done]|].
  intros [err|]; [done|]. by apply no_events_call.
Qed.

Lemma secure_dir_no_events path : no_events (secureNodeConfigDir windows path).
Proof.
  apply no_events_bind; [apply owned_no_events|]. intros owned. destruct owned; [|done].
  apply no_events_bind; [apply chown_no_events|]. intros [err|]; [done|]. by apply no_events_call.
Qed.

Lemma fetch_no_events panelURL nodeID token timeout :
  no_events (fetchNodeConfig panelURL nodeID token timeout).
Proof.
  apply no_events_call; [done|]. intros [err|]; [done|]. apply no_events_call; [done|].
  intros [res|err]; [|done]. cbn [bind]. destruct (readLimitedConfigureBody _); [|done]. by case_match.
Qed.

(** Before the rename: the write happened, or there is an error. *)
Lemma fill_temp_events tmp body n s :
  let '(res, _, tr) := run en (fill_temp windows tmp body) n s in
  (res = None /\ events tr = [Wrote tmp body]) \/
  (res <> None /\ (events tr = [] \/ events tr = [Wrote tmp body])).
Proof.
  unfold fill_temp. cbn [bind call run].
  destruct (env_call en _ _ (Fs (ChmodTemp _ _)) s) as [[err|] s1].
  { cbn [bind call run]. destruct (env_call en _ _ _ s1). right. split; [done|by left]. }
  cbn [bind call run]. rewrite run_bind. pose proof (secure_file_no_events tmp (S n) s1) as Hs.
  destruct (run en (secureNodeConfigFile _ tmp) (S n) s1) as [[[err|] s2] tr1].
  { cbn [bind call run]. destruct (env_call en _ _ _ s2). cbn [run]. right.
    rewrite events_call, events_app, Hs. split; [done|by left]. }
  cbn [bind call run]. destruct (env_call en _ _ (Fs (WriteTemp _ _)) s2) as [[err|] s3].
  { cbn [bind call run]. destruct (env_call en _ _ _ s3). cbn [run]. right.
    rewrite events_call, events_app, Hs. split; [done|by left]. }
  cbn [bind call run]. destruct (env_call en _ _ (Fs (CloseTemp _)) s3) as [[err|] s4]; cbn [run];
    rewrite events_call, events_app, Hs; [right; split; [done|by right]|by left].
Qed.

(** The rename: done at once, on Windows after a removal, or not at all. *)
Lemma install_temp_events cleanPath tmp n s :
  let '((keep, res), _, tr) := run en (install_temp windows cleanPath tmp) n s in
  (keep = true /\ events tr = [Installed tmp cleanPath]) \/
  (keep = true /\ windows = true /\ res = None /\ events tr = [Removed cleanPath; Installed tmp cleanPath]) \/
  (keep = false /\ res <> None /\
   (events tr = [] \/ windows = true /\ events tr = [Removed cleanPath])).
Proof.
  unfold install_temp. cbn [bind call run].
  destruct (env_call en _ _ (Fs (Rename _ _)) s) as [[err|] s1].
  - destruct windows eqn:Ew.
    + cbn [bind call run]. destruct (env_call en _ _ (Fs (Remove _)) s1) as [r s2]. cbn [bind call run].
      destruct (env_call en _ _ (Fs (Rename _ _)) s2) as [[err'|] s3].
      * cbn [run]. right; right. split; [done|]. split; [done|by right].
      * rewrite run_bind. pose proof (secure_file_no_events cleanPath (S (S (S n))) s3) as Hs.
        rewrite Ew in Hs. destruct (run en (secureNodeConfigFile _ _) _ s3) as [[r' s4] tr].
        cbn [run]. rewrite app_nil_r. right; left. rewrite !events_call, Hs. done.
    + cbn [run]. right; right. split; [done|]. split; [done|by left].
  - rewrite run_bind. pose proof (secure_file_no_events cleanPath (S n) s1) as Hs.
    destruct (run en (secureNodeConfigFile _ _) _ s1) as [[r' s4] tr].
    cbn [run]. rewrite app_nil_r. left. rewrite events_call, Hs. done.
Qed.

(** The courses of an installation. *)
Definition install_outcome (path body : string) (res : option error) (ev : list file_event) : Prop :=
  let named := Clean (TrimSpace path) in
  (exists tmp, ev = [Created tmp; Wrote tmp body; Installed tmp named]) \/
  (windows = true /\ res = None /\
   exists tmp, ev = [Created tmp; Wrote tmp body; Removed named; Installed tmp named]) \/
  (res <> None /\
   (ev = [] \/ exists tmp,
      ev = [Created tmp; Removed tmp] \/ ev = [Created tmp; Wrote tmp body; Removed tmp] \/
      windows = true /\ ev = [Created tmp; Wrote tmp body; Removed named; Removed tmp])).

Lemma write_outcome path body n s :
  let '(res, _, tr) := run en (writeNodeConfigFile windows path body) n s in
  install_outcome path body res (events tr).
Proof.
  unfold writeNodeConfigFile, install_outcome. cbv zeta. cbn [bind call run].
  destruct (env_call en _ _ (Fs (MkdirAll _ _)) s) as [[err|] s1].
  { right; right. split; [done|by left]. }
  cbn [bind call run]. rewrite run_bind.
  pose proof (secure_dir_no_events (Dir (Clean (TrimSpace path))) (S n) s1) as Hd.
  destruct (run en (secureNodeConfigDir _ _) (S n) s1) as [[[err|] s2] tr1].
  { cbn [run]. rewrite events_call, events_app, Hd. right; right. split; [done|by left]. }
  cbn [bind call run]. destruct (env_call en _ _ (CreateTemp _ _) s2) as [[tmp|err] s3].
  2:{ cbn [run]. rewrite events_call, events_app, Hd. right; right. split; [done|by left]. }
  rewrite run_bind. pose proof (fill_temp_events tmp body (S (S n + length tr1)) s3) as Hf.
  destruct (run en (fill_temp _ _ _) _ s3) as [[[err|] s4] tr2].
  - cbn [bind call run]. destruct (env_call en _ _ _ s4). cbn [run].
    rewrite events_call, events_app, events_call, events_app, Hd.
    destruct Hf as [[? _]|[_ Hf]]; [done|]. right; right. split; [done|]. right. exists tmp.
    destruct Hf as [->| ->]; [by left|right; by left].
  - destruct Hf as [[_ Hf]|[? _]]; [|done]. rewrite run_bind.
    match goal with |- context [run en (install_temp windows ?p ?t) ?k s4] =>
      pose proof (install_temp_events p t k s4) as He;
      destruct (run en (install_temp windows p t) k s4) as [[[keep res] s5] tr3] end.
    destruct He as [[-> He]|[(-> & Hw & -> & He)|(-> & Hr & He)]].
    1,2: cbn [bind run]; rewrite events_call, events_app, events_call, !events_app, Hd, Hf, He.
    + left. by exists tmp.
    + right; left. split; [done|]. split; [done|]. by exists tmp.
    + cbn [bind call run]. destruct (env_call en _ _ _ s5). cbn [run].
      rewrite events_call, events_app, events_call, !events_app, events_call, Hd, Hf.
      right; right. split; [done|]. right. exists tmp. right.
      destruct He as [->|[Hw ->]]; [by left|by right].
Qed.

(** The modes the command sets: those of the directory and of the file. *)
Definition mode_ok (path : string) X (e : CfgCall X) : Prop :=
  match e with
  | Fs (MkdirAll _ mode) => mode = nodeConfigDirMode
  | Fs (ChmodTemp _ mode) => mode = nodeConfigFileMode
  | Fs (Chmod p mode) =>
      mode = nodeConfigFileMode \/ mode = nodeConfigDirMode /\ p = Dir (Clean (TrimSpace path))
  | _ => True
  end.

Lemma command_modes `{URLParse} f expectedType :
  safe (fun _ => True) (mode_ok (fgConfig f)) (fun _ => True) (fun _ => True)
    (RunConfigureCommand windows f expectedType).
Proof.
  unfold RunConfigureCommand, fetchNodeConfig, writeNodeConfigFile, fill_temp, install_temp,
    secureNodeConfigDir, secureNodeConfigFile, chownRootAutostream, shouldApplyAutostreamNodeOwnership.
  go_walk; cbn; auto.
Qed.

(** C31: The configure command installs a complete configuration by a rename. The
    text it installs parses as a complete node configuration of the requested
    node and of this kind of service; it is written to a temporary file, and the
    contents of the named file change at most once, when the temporary file is
    renamed to it. On any system but Windows nothing else removes or writes the
    named file, so it has its old contents or the new ones at every moment; on
    Windows a failed rename is followed by the removal of the named file and a
    second rename, so there, and only there, the file can be missing, for good if
    the second rename fails too, which is reported. A temporary file that is not
    installed is removed, and the command reports success only after an
    installation. The only other changes to the named file are its owner and group
    and its mode, which is set to 0640 after the rename; the modes set are 0640, and 0750
    for its directory. *)
Theorem configure_is_atomic `{URLParse} f expectedType n s :
  let '(res, _, tr) := run en (RunConfigureCommand windows f expectedType) n s in
  Forall (obs_ok (mode_ok (fgConfig f)) (fun _ => True)) tr /\
  ((res <> None /\ events tr = []) \/
   exists body node,
     parseNodeAgentConfig body = inl node /\ node_complete node = true /\
     naNodeID node = TrimSpace (fgNode f) /\
     (TrimSpace expectedType = "" \/ naNodeType node = TrimSpace expectedType) /\
     install_outcome (fgConfig f) body res (events tr)).
Proof.
  pose proof (run_safe _ _ _ _ en (RunConfigureCommand windows f expectedType) n s
    (conj (fun _ _ _ _ _ => I) (fun _ _ _ _ _ => I)) I (command_modes f expectedType)) as Hm.
  revert Hm. unfold RunConfigureCommand. destruct (flags_error f) as [err|].
  { intros (_ & _ & Hm). split; [done|by left]. }
  rewrite run_bind. pose proof (fetch_no_events (TrimSpace (fgPanelURL f)) (TrimSpace (fgNode f))
    (TrimSpace (fgToken f)) (fgTimeout f) n s) as Hf.
  destruct (run en (fetchNodeConfig _ _ _ _) n s) as [[[body|err] s1] tr1].
  2:{ cbn [run]. rewrite app_nil_r. intros (_ & _ & Hm). split; [done|by left]. }
  destruct (received_error expectedType (fgNode f) body) as [err|] eqn:Er.
  { cbn [run]. rewrite app_nil_r. intros (_ & _ & Hm). split; [done|by left]. }
  pose proof (write_outcome (fgConfig f) body (n + length tr1) s1) as Hw.
  destruct (run en (writeNodeConfigFile _ _ _) _ s1) as [[res s2] tr2]. intros (_ & _ & Hm).
  split; [done|]. rewrite events_app, Hf.
  right. unfold received_error in Er. destruct (parseNodeAgentConfig body) as [node|] eqn:Ep; [|done].
  exists body, node. cbv zeta in Er.
  destruct (_ && _) eqn:Et in Er; [done|]. destruct (String.eqb_spec (naNodeID node) (TrimSpace (fgNode f))); [|done].
  split; [done|]. split.
  { unfold parseNodeAgentConfig in Ep. destruct (scan_lines body); [|done]. cbv zeta in Ep.
    destruct (node_complete _) eqn:En in Ep; [|done]. by injection Ep as <-. }
  split; [done|]. split; [|done].
  apply andb_false_iff in Et as [Et|Et]; apply negb_false_iff, String.eqb_eq in Et; tauto.
Qed.
End Install.

Module Sample.
#[export] Instance https_url : URLParse := fun raw =>
  Some (mkGoURL "https" "panel.example" false "panel.example" "" "" "" "" (fun _ => "")).

Definition yml : string :=
  "panel:\n url: https://p\nnode:\n id: n1\n name: bot\n type: discord_bot\napi:\n host: h\n port: 1\nlistener:\n credential: node-listener.json\nauth:\n token: t".

(** A panel that answers [body], and a file system in which renaming answers
    [renamed], by the index of the call. *)
Definition outside (body : string) (renamed : nat -> option error) : env unit CfgCall :=
  {| env_call X n e s :=
       (match e in CfgCall X return X with
        | NewConfigureRequest _ => None
        | DoConfigure _ _ _ _ => inl (mkHttp 200 (Some (quoted ("{'config_yml':'" ++ body ++ "'}"))))
        | Geteuid => 0
        | LookupGroup _ => inl "999"
        | CreateTemp dir _ => inl (dir ++ "/tmp1")
        | Fs (Rename _ _) => renamed n
        | Fs _ => None
        end, s);
     env_wait _ _ c s := (c s, s) |}.

Definition configure (windows : bool) (node : string) (renamed : nat -> option error) :=
  run (outside yml renamed)
    (RunConfigureCommand windows
       (mkFlags "https://panel.example/" "tok" node " /etc/x/../c.yml" Second) "discord_bot") 0 tt.

Definition course (windows : bool) (node : string) (renamed : nat -> option error) :=
  let '(res, _, tr) := configure windows node renamed in
  (bool_decide (res = None), match events tr with
                            | Created t :: Wrote _ _ :: ev => Created t :: ev
                            | ev => ev
                            end).

Definition fine (n : nat) : option error := None.
Definition busy (n : nat) : option error := Some (ErrNew "busy").
Definition busy_once (n : nat) : option error := if (n <? 10)%nat then Some (ErrNew "busy") else None.

Example courses :
  course false "n1" fine = (true, [Created "/etc/tmp1"; Installed "/etc/tmp1" "/etc/c.yml"]) /\
  course false "n1" busy = (false, [Created "/etc/tmp1"; Removed "/etc/tmp1"]) /\
  course true "n1" busy_once =
    (true, [Created "/etc/tmp1"; Removed "/etc/c.yml"; Installed "/etc/tmp1" "/etc/c.yml"]) /\
  course true "n1" busy =
    (false, [Created "/etc/tmp1"; Removed "/etc/c.yml"; Removed "/etc/tmp1"]) /\
  course false "n2" fine = (false, []).
Proof. vm_compute. done. Qed.
End Sample.
