(* ===== verification/Registration.v ===== *)
(** * Registration: the node and its registration with the Control Panel

    [runPendingControlPanelRegistrationLoop] of [cmd/discord-bot/main.go]: the
    goroutine that watches the node config, registers under the identity it
    names, installs what the registration authorises and takes it back when the
    config changes; with the goroutines it works against: the refresh loops it
    starts, the manager with the auto-start refresher and the stream controller
    it installs, and the start requests of the HTTP API.  [Node] is what they
    share; each runs the text of its own file ([Compose]). *)

From S2P Require Import Prelude Conc Compose Errors Types Floats RuntimeConfig Authority Gateway Manager.
From S2P Require Import AutoStart AutoStop VoiceDefaults Lifecycle Goroutines SdkState NodeConfig.
From S2P Require Import UpdaterIdentity Settings MainConfig StartRequest HttpApi JobMachine.
From S2P Require DiscordClient.

Open Scope go_scope.

(** ** State *)

(** The context of a registration, [refreshLifetime], and the client of the
    configuration it was made for. *)
Record Lifetime := mkLifetime { lfClient : Config; lfCanceled : bool }.

Record Node := mkNode {
  ndGateway : Gateway;
  ndManager : Manager;
  ndLatch : UpdaterIdentityLatch;
  (* stream controllers and lifetimes made so far, by their numbers *)
  ndControllers : list Config;
  ndLifetimes : list Lifetime;
  (* the context of the process *)
  ndDone : bool }.

Definition eta_Node (s : Node) : Node :=
  mkNode (ndGateway s) (ndManager s) (ndLatch s) (ndControllers s) (ndLifetimes s) (ndDone s).
#[export] Instance set_ndGateway : Setter ndGateway := ltac:(mk_setter eta_Node).
#[export] Instance set_ndManager : Setter ndManager := ltac:(mk_setter eta_Node).
#[export] Instance set_ndLatch : Setter ndLatch := ltac:(mk_setter eta_Node).
#[export] Instance set_ndControllers : Setter ndControllers := ltac:(mk_setter eta_Node).
#[export] Instance set_ndLifetimes : Setter ndLifetimes := ltac:(mk_setter eta_Node).
#[export] Instance set_ndDone : Setter ndDone := ltac:(mk_setter eta_Node).

(** The local variables of the loop; [rgCancel] is the lifetime [cancelRefresh]
    cancels. *)
Record Registration := mkRegistration {
  rgLastState : string;
  rgServiceID : string;
  rgAuthority : string;
  rgCancel : option nat }.

Definition eta_Registration (r : Registration) : Registration :=
  mkRegistration (rgLastState r) (rgServiceID r) (rgAuthority r) (rgCancel r).
#[export] Instance set_rgLastState : Setter rgLastState := ltac:(mk_setter eta_Registration).
#[export] Instance set_rgServiceID : Setter rgServiceID := ltac:(mk_setter eta_Registration).
#[export] Instance set_rgAuthority : Setter rgAuthority := ltac:(mk_setter eta_Registration).
#[export] Instance set_rgCancel : Setter rgCancel := ltac:(mk_setter eta_Registration).

Definition unregistered : Registration := mkRegistration "" "" "" None.

(** What leaves the node. *)
Inductive NodeCall : Type -> Type :=
(* the environment and the node config *)
| ReadConfig : NodeCall Control.ControlConfig
| ReadPending : NodeCall bool
| ReadConfigPath : NodeCall string
(* the Control Panel, by the client of a configuration *)
| PanelRegister (c : Config) : NodeCall (option error)
| PanelHeartbeat (c : Config) (status currentStreamID : string) : NodeCall (option error)
| PanelRuntimeConfig (c : Config) : NodeCall (RuntimeConfig * option error)
| PanelCurrentSecret (c : Config) (b : CurrentDiscordCredentialBinding) : NodeCall (string * option error)
| PanelWaitingSecret (c : Config) (b : DiscordWaitingCredentialBinding) : NodeCall (string * option error)
| PanelStartStream (c : Config) (streamID : string) : NodeCall (option error)
| PanelStopStream (c : Config) (streamID : string) : NodeCall (option error)
(* has the deadline of the request's context passed? *)
| DeadlinePassed : NodeCall bool
(* the Discord client *)
| NodeReconcileGateway (token : string) (selected : bool) : NodeCall (option error)
| NodeVoiceStatus : NodeCall DiscordClient.Status
(* the other calls of the manager *)
| FromManager {X : Type} (e : ExtCall X) : NodeCall X
(* [log.Fatal]: the process ends *)
| Fatal : NodeCall Empty_set.

Inductive NodeLabel :=
| LRegistration (st : Registration)
| LRefreshLoop (lifetime : nat)
| LManager (l : label)
| LStartJob (sv : Server) (r : Request)
| LShutdown.

#[export] Instance gmutex_eq_dec : EqDecision gmutex.
Proof. solve_decision. Defined.

#[export] Instance gmutex_countable : Countable gmutex.
Proof.
  refine (inj_countable' (fun m => match m with gatewayCredentialMu => true | _ => false end)
    (fun b : bool => if b then gatewayCredentialMu else Gateway.runtimeRefreshMu) _). by intros [].
Defined.

Abbreviation NodeMutex := (gmutex + mutex)%type.
Abbreviation nprog := (prog Node NodeCall NodeLabel NodeMutex).
Abbreviation nret := (@Ret Node NodeCall NodeLabel NodeMutex _).

(** The mutex of [RefreshRuntimeConfig]. *)
Definition refreshMu : NodeMutex := inl Gateway.runtimeRefreshMu.

Definition put_gateway (g : Gateway) (s : Node) : Node := s <| ndGateway := g |>.
Definition put_manager (m : Manager) (s : Node) : Node := s <| ndManager := m |>.
Definition put_latch (l : UpdaterIdentityLatch) (s : Node) : Node := s <| ndLatch := l |>.

(** The client of a call that makes no request. *)
Definition no_client : Config := mkPanelConfig "" "" "" "" "" "" 0 "" "".

Definition no_label (l : Empty_set) : NodeLabel := match l with end.

Section Node.
Context `{MapRange} `{FloatConversion} `{SHA256} (sum256 : string -> string).
(** The settings of the process. *)
Context (requireRuntimeConfig : bool) (fallbackReconnectPolicy : ReconnectPolicy) (interval : Duration).

(** ** Contexts *)

Definition canceled (lifetime : nat) (s : Node) : bool :=
  ndDone s || match ndLifetimes s !! lifetime with Some l => lfCanceled l | None => true end.

(** [Err] of a lifetime, or of a context with a deadline derived from it. *)
Definition ctx_err (lifetime : nat) (deadline : bool) : nprog (option error) :=
  let* stopped := read (canceled lifetime) in
  if (stopped : bool) then nret (Some Canceled)
  else if deadline then
    let* late := call DeadlinePassed in nret (if (late : bool) then Some DeadlineExceeded else None)
  else nret None.

Definition client_of (lifetime : nat) (s : Node) : option Config :=
  match ndLifetimes s !! lifetime with Some l => Some (lfClient l) | None => None end.

Definition cancel_lifetime (lifetime : nat) (s : Node) : Node :=
  s <| ndLifetimes ::= alter (fun l => mkLifetime (lfClient l) true) lifetime |>.

Definition new_lifetime (c : Config) (s : Node) : nat * Node :=
  (length (ndLifetimes s), s <| ndLifetimes ::= fun ls => (ls ++ [mkLifetime c false])%list |>).

Definition new_controller (c : Config) (s : Node) : nat * Node :=
  (length (ndControllers s), s <| ndControllers ::= fun cs => (cs ++ [c])%list |>).

(** ** The components *)

Definition from_manager X (e : ExtCall X) : nprog X := call (FromManager e).

(** The manager's setters; they only call the Discord client. *)
Definition on_manager {A} (p : mprog A) : nprog A :=
  inline ndManager put_manager LManager inr from_manager p.

(** What the reconciliation of the Gateway calls, with the client [c] and under
    the context of a lifetime. *)
Definition gateway_calls (c : Config) (lifetime : nat) X (e : GwCall X) : nprog X :=
  match e in GwCall Y return nprog Y with
  | VoiceReconcileGateway token selected => call (NodeReconcileGateway token selected)
  | ResolveRuntimeSecretForCurrentBinding b => call (PanelCurrentSecret c b)
  | ResolveRuntimeSecretForWaitingBinding b => call (PanelWaitingSecret c b)
  | Gateway.FetchRuntimeConfig => call (PanelRuntimeConfig c)
  | CtxErr => ctx_err lifetime false
  | RunReconciler _ _ => nret None
  | ManagerClearDefaults => on_manager (SetStreamVoiceDefaults ∅)
  | ManagerCurrentStreamID => read (fun s => CurrentStreamID (ndManager s))
  | ManagerApplyRuntimeConfig cfg =>
      do* on_manager (applyRuntimeConfigToManager cfg fallbackReconnectPolicy) in nret tt
  end.

Definition in_gateway {A} (c : Config) (lifetime : nat) (p : gprog A) : nprog A :=
  inline ndGateway put_gateway no_label inl (gateway_calls c lifetime) p.

(** [RefreshRuntimeConfig] *)
Definition refresh {A} (p : nprog A) : nprog A :=
  do* lock refreshMu in
  let* result := p in
  do* unlock refreshMu in
  nret result.

(** The rest of a refresh once the configuration is there. *)
Definition reconcile_and_apply (c : Config) (lifetime : nat) (deadline : bool) (cfg : RuntimeConfig)
    : nprog (option error) :=
  let* err := ctx_err lifetime deadline in
  match err with
  | Some err => nret (Some err)
  | None =>
      let* err := in_gateway c lifetime (reconcileRuntimeGateway (pcServiceID c) cfg) in
      match err with
      | Some err => nret (Some err)
      | None =>
          let* err := ctx_err lifetime deadline in
          match err with
          | Some err => nret (Some err)
          | None =>
              do* on_manager (applyRuntimeConfigToManager cfg fallbackReconnectPolicy) in
              nret None
          end
      end
  end.

(** The refresher of the auto-start, made for a lifetime. *)
Definition auto_start_refresh (lifetime : nat) : nprog (option error) :=
  refresh (
    let* client := read (client_of lifetime) in
    let* err := ctx_err lifetime true in
    match client, err with
    | None, _ => nret (Some Canceled)
    | _, Some err => nret (Some err)
    | Some c, None =>
        let* fetched := call (PanelRuntimeConfig c) in
        match fetched with
        | (_, Some err) => nret (Some err)
        | (cfg, None) => reconcile_and_apply c lifetime true cfg
        end
    end).

(** [controlStreamStarter]: the client of the controller with that number. *)
Definition stream_controller (i : nat) (request : Config -> NodeCall (option error)) : nprog (option error) :=
  let* c := read (fun s => ndControllers s !! i) in
  match c with Some c => call (request c) | None => nret (Some Canceled) end.

(** The manager's goroutines and entry points: the refresher and the stream
    controller are run here. *)
Definition manager_calls X (e : ExtCall X) : nprog X :=
  match e in ExtCall Y return nprog Y with
  | Refresh refresher => auto_start_refresh refresher
  | Manager.StartStream starter streamID => stream_controller starter (fun c => PanelStartStream c streamID)
  | Manager.StopStream stopper streamID => stream_controller stopper (fun c => PanelStopStream c streamID)
  | StopStreamContext _ stopper streamID => stream_controller stopper (fun c => PanelStopStream c streamID)
  | e => call (FromManager e)
  end.

Definition in_manager {A} (p : mprog A) : nprog A :=
  inline ndManager put_manager LManager inr manager_calls p.

(** ** The updater's identity *)

Inductive LatchCall : Type -> Type :=
| LatchPending : LatchCall bool
| LatchConfig : LatchCall Config.

Definition latch_calls X (e : LatchCall X) : nprog X :=
  match e in LatchCall Y return nprog Y with
  | LatchPending => call ReadPending
  | LatchConfig => let* full := call ReadConfig in nret (Control.ccConfig full)
  end.

Definition match_identity (serviceID : string) : nprog (option error) :=
  inline ndLatch put_latch no_label (fun m : Empty_set => match m with end) latch_calls
    (requireMatchingUpdaterIdentity LatchPending LatchConfig serviceID).

(** ** The registration loop *)

(** [fmt.Sprintf] with the hexadecimal form of the sum of the three fields that
    make an authority. *)
Definition authority (c : Config) : string :=
  sha256_hex (pcServiceID c ++ NUL ++ pcControlPanelURL c ++ NUL ++ pcToken c).

(** What [stopRefresh] takes back. *)
Definition take_back : nprog unit :=
  do* on_manager (SetStreamVoiceDefaults ∅) in
  do* modify (fun s => s <| ndManager ::= SetAutoStartRefresher None |>) in
  do* modify (fun s => s <| ndManager ::= SetStreamStarter None |>) in
  do* modify (fun s => s <| ndManager ::= SetStreamStopper None |>) in
  do* inline ndGateway put_gateway no_label inl (gateway_calls no_client 0) (ReconcileGatewayCredential None) in
  nret tt.

Definition stopRefresh (st : Registration) : nprog Registration :=
  do* match rgCancel st with
      | Some lifetime => modify (cancel_lifetime lifetime)
      | None => nret tt
      end in
  do* refresh take_back in
  nret (st <| rgCancel := None |> <| rgAuthority := "" |>).

(** [logRegistrationStateChange] without the log. *)
Definition logRegistrationStateChange (state : string) (st : Registration) : Registration :=
  if state =s rgLastState st then st else st <| rgLastState := state |>.

Definition fatal : nprog Registration :=
  let* never := call Fatal in match never : Empty_set with end.

(** The first refresh of a registration, under its lifetime. *)
Definition first_refresh (c : Config) (lifetime : nat) : nprog (option error) :=
  refresh (
    let* fetched := call (PanelRuntimeConfig c) in
    match fetched with
    | (_, Some _) => nret (Some (ErrNew "control panel runtime config unavailable"))
    | (cfg, None) => reconcile_and_apply c lifetime false cfg
    end).

(** A registration that was just accepted. *)
Definition install (cfg : Config) (st : Registration) : nprog Registration :=
  let st := logRegistrationStateChange ("registered:" ++ pcServiceID cfg)
              (st <| rgServiceID := pcServiceID cfg |>) in
  let* st := stopRefresh st in
  let* controller := atomic (new_controller cfg) in
  do* modify (fun s => s <| ndManager ::= SetStreamStarter (Some controller) |>) in
  do* modify (fun s => s <| ndManager ::= SetStreamStopper (Some (mkStopperRef controller true)) |>) in
  let* lifetime := atomic (new_lifetime cfg) in
  let st := st <| rgCancel := Some lifetime |> <| rgAuthority := authority cfg |> in
  do* modify (fun s => s <| ndManager ::= SetAutoStartRefresher (Some lifetime) |>) in
  let* err := first_refresh cfg lifetime in
  do* match err with
      | Some _ => if requireRuntimeConfig then do* fatal in nret tt else nret tt
      | None => nret tt
      end in
  do* spawn (LRefreshLoop lifetime) in
  nret st.

(** Registering: the locals, and whether the turn goes on to the heartbeat. *)
Definition register (cfg : Config) (st : Registration) : nprog (Registration * bool) :=
  if rgServiceID st =s pcServiceID cfg then nret (st, true)
  else
    let* err := call (PanelRegister cfg) in
    match err with
    | Some err =>
        do* (if requireRuntimeConfig then do* fatal in nret tt else nret tt) in
        let st := logRegistrationStateChange ("register-failed:" ++ Error err) st in
        let* st := stopRefresh (st <| rgServiceID := "" |>) in
        nret (st, false)
    | None => let* st := install cfg st in nret (st, true)
    end.

Definition send_heartbeat (cfg : Config) (st : Registration) : nprog Registration :=
  if rgServiceID st =s pcServiceID cfg then
    let* current := read (fun s => CurrentStreamID (ndManager s)) in
    let* err := call (PanelHeartbeat cfg "online" current) in
    match err with
    | Some err => nret (logRegistrationStateChange ("heartbeat-failed:" ++ Error err) st)
    | None => nret (st <| rgLastState := "online:" ++ pcServiceID cfg |>)
    end
  else nret st.

(** The [switch] of a turn. *)
Definition configured (cfg : Config) (st : Registration) : nprog Registration :=
  if negb (blank (pcConfigError cfg)) then
    if requireRuntimeConfig then fatal
    else stopRefresh ((logRegistrationStateChange ("invalid:" ++ pcConfigError cfg) st) <| rgServiceID := "" |>)
  else if blank (pcControlPanelURL cfg) || blank (pcToken cfg) then
    let* path := call ReadConfigPath in
    stopRefresh ((logRegistrationStateChange ("pending:" ++ path) st) <| rgServiceID := "" |>)
  else
    let* registered := register cfg st in
    let '(st, ok) := registered in
    if (ok : bool) then send_heartbeat cfg st else nret st.

(** One turn up to its timer: the locals, and how long to wait. *)
Definition registration_turn (st : Registration) : nprog (Registration * Duration) :=
  let* full := call ReadConfig in
  let cfg := Control.ccConfig full in
  let* st :=
    if (rgAuthority st <>s "") && (rgAuthority st <>s authority cfg) then
      let* st := stopRefresh st in nret (st <| rgServiceID := "" |>)
    else nret st in
  let pause := Control.controlPanelRegistrationInterval full in
  let* err := match_identity (pcServiceID cfg) in
  match err with
  | Some err =>
      if Is err ErrUpdaterIdentityPending then
        let* path := call ReadConfigPath in
        let* st := stopRefresh ((logRegistrationStateChange ("pending:" ++ path) st) <| rgServiceID := "" |>) in
        nret (st, pause)
      else let* st := fatal in nret (st, pause)
  | None => let* st := configured cfg st in nret (st, pause)
  end.

(** [runPendingControlPanelRegistrationLoop]: one turn and what follows it. *)
Definition registration_loop (st : Registration) : nprog (option NodeLabel) :=
  let* turn := registration_turn st in
  let '(st, pause) := turn in
  let* done := wait (Some pause) ndDone in
  if (done : bool) then do* stopRefresh st in nret None
  else nret (Some (LRegistration st)).

(** [runRuntimeConfigRefreshLoop] *)
Definition refresh_loop (lifetime : nat) : nprog (option NodeLabel) :=
  let* done := wait (Some interval) (canceled lifetime) in
  if (done : bool) then nret None
  else
    let* client := read (client_of lifetime) in
    match client with
    | None => nret None
    | Some c =>
        do* in_gateway c lifetime (refresh_turn (pcServiceID c)) in
        nret (Some (LRefreshLoop lifetime))
    end.

(** ** Start requests *)

(** What a start request calls; the configuration is read anew for each request
    ([controlRuntimeConfigFromEnv] and the reconciler [main] installs). *)
Definition http_calls X (e : HttpCall X) : nprog X :=
  match e in HttpCall Y return nprog Y with
  | NodeConfigPending => call ReadPending
  | ConfigFromEnv => let* full := call ReadConfig in nret (Control.ccConfig full)
  | HttpApi.FetchRuntimeConfig =>
      let* full := call ReadConfig in call (PanelRuntimeConfig (Control.ccConfig full))
  | MgrStatus =>
      let* discord := call NodeVoiceStatus in read (fun s => ManagerStatus discord (ndManager s))
  | MgrCurrentStreamID => read (fun s => CurrentStreamID (ndManager s))
  | MgrSetExecutionAuthorityStreams streams =>
      on_manager (modify (SetExecutionAuthorityStreams streams))
  | MgrReconcileRuntimeGateway cfg =>
      let* full := call ReadConfig in
      let c := Control.ccConfig full in
      in_gateway c 0 (reconcileRuntimeGateway (pcServiceID c) cfg)
  | MgrStart job => in_manager (Lifecycle.Start job)
  | MgrStop streamID => in_manager (Lifecycle.Stop streamID)
  | MgrParticipants streamID => read (fun s => Manager.Participants streamID (ndManager s))
  | MgrSetActiveSpeaker streamID userID => in_manager (Participants.SetActiveSpeaker streamID userID)
  | MgrActiveLiveJobTextChannelID streamID =>
      read (fun s => Notification.ActiveLiveJobTextChannelID streamID (ndManager s))
  | MgrNotifyYouTubeLive streamID eventID channelID watchURL =>
      in_manager (Notification.NotifyYouTubeLive sum256 None streamID eventID channelID watchURL)
  end.

Definition in_http {A} (p : hprog A) : nprog A :=
  inline ndLatch put_latch no_label (fun _ => refreshMu) http_calls p.

(** ** The pool *)

Definition node_code (l : NodeLabel) : nprog (option NodeLabel) :=
  match l with
  | LRegistration st => registration_loop st
  | LRefreshLoop lifetime => refresh_loop lifetime
  | LManager l => let* next := in_manager (code sum256 l) in nret (LManager <$> next)
  | LStartJob sv r => do* in_http (startJob sv r) in nret None
  | LShutdown => do* modify (fun s => s <| ndDone := true |>) in nret None
  end.

(** What starts at any time: callbacks and requests of the manager that do not
    set what the node sets, start requests, the signal that ends the process. *)
Definition node_entry (l : NodeLabel) : Prop :=
  match l with
  | LRegistration _ | LRefreshLoop _ => False
  | LManager l => is_entry l /\ working l
  | LStartJob _ _ | LShutdown => True
  end.

Definition node_clock (s : Node) : Time := hClock (ndManager s).
Definition node_advance (d : Duration) (s : Node) : Node := s <| ndManager ::= advance d |>.

(** The process when [main] starts the loop: no job, nothing installed. *)
Definition booted (reporter : option ReporterCaps) (now : Time) : Node :=
  mkNode (mkGateway ∅ "" "" true (Some 0%nat))
    (NewManagerWithReporter (mkVoiceCaps true true true) reporter now)
    (NewUpdaterIdentityLatch ServiceType) [] [] false.

Definition start (reporter : option ReporterCaps) (now : Time) : pool Node NodeCall NodeLabel NodeMutex _ _ :=
  Pool (booted reporter now) ∅ [Running (node_code (LRegistration unregistered))].

Definition nodes (p0 p : pool Node NodeCall NodeLabel NodeMutex _ _) : Prop :=
  rtc (pstep node_code node_entry node_clock node_advance) p0 p.
End Node.
