(* ===== verification/Fencing.v ===== *)
(** * Fencing: a registration that was taken back has no effect

    What the registration loop of [Registration] can rely on: it is the only
    goroutine that makes and cancels lifetimes and that installs handles; a
    refresh applies a configuration only while it holds the refresh mutex and
    found its lifetime live under it.  So once the loop has cancelled a lifetime
    and cleared the manager under the mutex, nothing of that lifetime comes
    back. *)

From S2P Require Import Prelude Conc Compose Rely Errors Types Floats RuntimeConfig Authority Gateway Manager.
From S2P Require Import WorkerReporting Participants AutoStart AutoStop VoiceDefaults Lifecycle Goroutines.
From S2P Require Import SdkState NodeConfig.
From S2P Require Import UpdaterIdentity Settings MainConfig StartRequest HttpApi JobMachine Registration.

Open Scope go_scope.

(** ** Knowledge *)

(** What the loop knows of the node: the live lifetime and its client, whether
    the manager has no waiting streams, the handles it installed and their
    clients, a controller it made, and a configuration whose service is the
    latched identity. *)
Record LoopView := mkView {
  lvLive : option (nat * Config);
  lvClear : bool;
  lvStarter : option (nat * Config);
  lvStopper : option (nat * Config);
  lvRefresher : option nat;
  lvMade : option (nat * Config);
  lvIdent : option Config }.

(** [kLoop]: the goroutine is the loop.  [kGate]: it holds the refresh mutex,
    and the lifetime it found live since it took it. *)
Record Know := mkKnow { kLoop : option LoopView; kGate : option (option nat) }.

Definition live (s : Node) (n : nat) (c : Config) : Prop := ndLifetimes s !! n = Some (mkLifetime c false).

(** The latch holds the identity of a configuration. *)
Definition identified (c : Config) (l : UpdaterIdentityLatch) : Prop :=
  ulBound l = true /\ uiServiceID (ulIdentity l) = TrimSpace (pcServiceID c) /\ blank (pcServiceID c) = false.

Record view_holds (v : LoopView) (s : Node) : Prop := {
  vh_live : forall n c, live s n c <-> lvLive v = Some (n, c);
  vh_clear : lvClear v = true -> lvLive v = None /\ mStreamDefaults (ndManager s) = ∅;
  vh_starter : mStreamStarter (ndManager s) = fst <$> lvStarter v;
  vh_stopper : mStreamStopper (ndManager s) = (fun ic => mkStopperRef ic.1 true) <$> lvStopper v;
  vh_refresher : mAutoStartRefresher (ndManager s) = lvRefresher v;
  vh_controllers : forall i c,
    lvStarter v = Some (i, c) \/ lvStopper v = Some (i, c) \/ lvMade v = Some (i, c) ->
    ndControllers s !! i = Some c;
  vh_ident : forall c, lvIdent v = Some c -> identified c (ndLatch s);
  vh_live_ident : forall n c, lvLive v = Some (n, c) -> identified c (ndLatch s) }.

Definition knows (k : Know) (s : Node) : Prop := forall v, kLoop k = Some v -> view_holds v s.

(** A lifetime found live under the mutex is the loop's, or the loop has still
    to clear what it leaves. *)
Definition agrees (k k' : Know) : Prop :=
  forall v m, kLoop k = Some v -> kGate k' = Some (Some m) ->
  lvClear v = false /\ forall n c, lvLive v = Some (n, c) -> n = m.

Definition compat (k k' : Know) : Prop :=
  (kLoop k = None \/ kLoop k' = None) /\ (kGate k = None \/ kGate k' = None) /\ agrees k k' /\ agrees k' k.

Definition gated (k : Know) : bool := match kGate k with Some _ => true | None => false end.
Definition take (k : Know) : Know := mkKnow (kLoop k) (Some None).
Definition release (k : Know) : Know := mkKnow (kLoop k) None.
Definition nothing : Know := mkKnow None None.

Section Fencing.
Context `{MapRange} `{FloatConversion} `{SHA256} (sum256 : string -> string).
Context (requireRuntimeConfig : bool) (fallbackReconnectPolicy : ReconnectPolicy) (interval : Duration).

(** What the loop's locals say. *)
Definition settled (st : Registration) (v : LoopView) : Prop :=
  match rgCancel st with
  | None =>
      rgServiceID st = "" /\ rgAuthority st = "" /\ lvLive v = None /\ lvClear v = true /\
      lvStarter v = None /\ lvStopper v = None /\ lvRefresher v = None
  | Some n => exists c i,
      rgServiceID st = pcServiceID c /\ rgAuthority st = authority c /\ lvLive v = Some (n, c) /\
      lvStarter v = Some (i, c) /\ lvStopper v = Some (i, c) /\ lvRefresher v = Some n
  end.

(** Registrations go out under the latched identity, heartbeats for the
    registration in force. *)
Definition permitted (X : Type) (k : Know) (e : NodeCall X) : Prop :=
  match e with
  | PanelRegister c => exists v, kLoop k = Some v /\ lvIdent v = Some c
  | PanelHeartbeat c _ _ => exists v n c0,
      kLoop k = Some v /\ lvLive v = Some (n, c0) /\ authority c0 = authority c /\
      pcServiceID c0 = pcServiceID c
  | _ => True
  end.

Definition starts (k : Know) (l : NodeLabel) : Prop :=
  match l with
  | LRegistration st => exists v, kLoop k = Some v /\ settled st v
  | LManager l => working l
  | _ => True
  end.

Definition any (s : Node) : Prop := True.

Abbreviation nsafe := (rsafe any knows compat refreshMu gated take release permitted starts).
Abbreviation nkeeps := (keeps any knows compat refreshMu gated take release permitted starts).
Abbreviation nturns := (turns any knows compat gated).
Abbreviation nunseen := (unseen any knows).

(** ** The laws of knowledge *)

Lemma compat_sym k k' : compat k k' -> compat k' k.
Proof. intros (Hl & Hg & Ha & Ha'). split_and!; tauto. Qed.

Lemma compat_nothing k : compat k nothing.
Proof. split; [by right|]. split; [by right|]. by split; intros v m. Qed.

Lemma splits_nothing k : splits knows compat gated k k nothing.
Proof.
  split; [done|]. split; [done|]. split; [apply compat_nothing|]. split; [by intros s Hk; split|].
  intros k2 Hc. split; [done|]. apply compat_sym, compat_nothing.
Qed.

Lemma compat_gated k k' : compat k k' -> gated k = true -> gated k' = false.
Proof. unfold gated. intros (_ & [-> | ->] & _); [done|done]. Qed.

Lemma take_knows k s : knows k s -> knows (take k) s.
Proof. done. Qed.

Lemma take_compat k k' : compat k k' -> gated k' = false -> compat (take k) k'.
Proof.
  unfold gated. intros (Hl & _ & Ha & Ha') Hg. destruct (kGate k') eqn:E; [done|].
  split; [done|]. split; [by right|]. split; [exact Ha|]. by intros v m.
Qed.

Lemma release_compat k k' : compat k k' -> compat (release k) k'.
Proof. intros (Hl & Hg & Ha & Ha'). split; [done|]. split; [by left|]. split; [exact Ha|]. by intros v m. Qed.

(** A section no goroutine notices. *)
Definition still (s s' : Node) : Prop :=
  ndLifetimes s' = ndLifetimes s /\ ndControllers s' = ndControllers s /\
  handles_of (ndManager s') = handles_of (ndManager s) /\
  (mStreamDefaults (ndManager s) = ∅ -> mStreamDefaults (ndManager s') = ∅) /\
  latched (ndLatch s) (ndLatch s').

Lemma identified_latched c l l' : latched l l' -> identified c l -> identified c l'.
Proof. intros [_ Hl] [Hb Hi]. rewrite (Hl Hb). by split. Qed.

Lemma still_view v s s' : still s s' -> view_holds v s -> view_holds v s'.
Proof.
  intros (Hl & Hc & Hh & Hd & Hla) [H1' H2' H3' H4' H5' H6' H7' H8']. injection Hh as Hh1 Hh2 Hh3.
  split; unfold live; rewrite ?Hl, ?Hc, ?Hh1, ?Hh2, ?Hh3; try done.
  - intros Hv. destruct (H2' Hv). split; [done|by apply Hd].
  - intros c Hv. by eapply identified_latched, H7'.
  - intros n c Hv. by eapply identified_latched, H8'.
Qed.

Lemma still_unseen s s' : still s s' -> nunseen s s'.
Proof. intros Hst _. split; [done|]. intros k Hk v Hv. by eapply still_view, Hk. Qed.

Lemma still_gateway s g : still s (put_gateway g s).
Proof. by repeat split. Qed.

Lemma still_latch s l : latched (ndLatch s) l -> still s (put_latch l s).
Proof. intros Hl. do 4 (split; [done|]). exact Hl. Qed.

(** What the manager may do unnoticed. *)
Definition undisturbed (m m' : Manager) : Prop :=
  handles_of m' = handles_of m /\ (mStreamDefaults m = ∅ -> mStreamDefaults m' = ∅).

Lemma still_manager s m : undisturbed (ndManager s) m -> still s (put_manager m s).
Proof. intros [Hh Hd]. do 2 (split; [done|]). split; [exact Hh|]. by split. Qed.

Lemma settings_undisturbed m m' : settings_of m' = settings_of m -> undisturbed m m'.
Proof.
  intros [= H1' H2' H3' H4' H5' H6']. split; [unfold handles_of; congruence|]. by rewrite H1'.
Qed.

(** A section by the loop or by a goroutine that is not: what it has to show of
    its own view, and that other views are not touched. *)
Lemma loop_turns k s k' s' :
  gated k' = gated k -> knows k' s' -> is_Some (kLoop k) -> is_Some (kLoop k') ->
  (forall k2, compat k k2 -> agrees k' k2 /\ agrees k2 k') -> (kGate k' = None <-> kGate k = None) ->
  nturns k s k' s'.
Proof.
  intros Hg Hk [v Hv] [v' Hv'] Ha Hgate. split; [done|]. split; [done|]. split; [done|].
  intros k2 Hc H2. destruct Hc as ([Hl|Hl] & Hgc & Hc); [congruence|].
  assert (compat k k2) as Hcc by (split; [by right|by split]).
  split; [|intros w; congruence]. destruct (Ha k2 Hcc).
  split; [by right|]. split; [rewrite Hgate; tauto|by split].
Qed.

(** ** Text the loop's knowledge survives *)

(** The manager's setters, and everything it does by itself. *)
Lemma on_manager_keeps {A} (Q : A -> Prop) k (p : mprog A) :
  moves undisturbed (fun _ _ => True) (fun _ => True) (fun _ => False) Q p ->
  nsafe (fun k' a => k' = k /\ Q a) k (on_manager p).
Proof.
  apply (rsafe_inline any knows compat refreshMu gated take release nothing permitted starts splits_nothing).
  - intros s m Hm Hs Hk. by apply unseen_turns; [apply still_unseen, still_manager|..].
  - intros X e _. by split.
  - done.
  - done.
Qed.

Lemma rsafe_ignore {A} (Q : A -> Prop) k (p : nprog A) :
  nsafe (fun k' a => k' = k /\ Q a) k p -> nkeeps k p.
Proof. apply rsafe_mono. by intros k' a []. Qed.

Lemma ctx_err_keeps k lifetime deadline : nkeeps k (ctx_err lifetime deadline).
Proof.
  unfold ctx_err. apply rsafe_read. intros s _ _. destruct (canceled _ _); [by apply keeps_ret|].
  destruct deadline; [|by apply keeps_ret]. by split.
Qed.

Lemma undisturbed_refl m : undisturbed m m.
Proof. by split. Qed.

Lemma defaults_cleared m : mStreamDefaults (set_stream_defaults ∅ m).2 = ∅.
Proof.
  assert (map_range (∅ : gmap string VoiceDefaults) = []) as He.
  { apply Permutation_nil. symmetry. etrans; [apply map_range_perm|]. by rewrite map_to_list_empty. }
  assert (canonical_keys (map_range (∅ : gmap string VoiceDefaults))) as Hc by (rewrite He; constructor).
  pose proof (set_stream_defaults_spec ∅ m Hc) as Hs.
  destruct (set_stream_defaults ∅ m) as [ts m']. apply map_eq. intros i.
  destruct Hs as [Hd _]. simpl. by rewrite Hd, !lookup_empty.
Qed.

Lemma clear_defaults_keeps k : nkeeps k (on_manager (SetStreamVoiceDefaults ∅)).
Proof.
  eapply rsafe_ignore, on_manager_keeps. unfold SetStreamVoiceDefaults. moves_walk undisturbed_refl.
  split; [apply spec_set_stream_defaults|]. intros _. apply defaults_cleared.
Qed.

(** *** The Gateway *)

(** A text that neither applies a configuration nor takes the refresh mutex. *)
Definition plain_call X (e : GwCall X) : Prop :=
  match e with ManagerApplyRuntimeConfig _ => False | _ => True end.
Definition plain_mutex (mu : gmutex) : Prop := mu <> Gateway.runtimeRefreshMu.

Abbreviation gmoves := (moves (fun _ _ : Gateway => True) plain_call plain_mutex (fun _ : Empty_set => True) (fun _ => True)).

Lemma gateway_call_keeps c lifetime k X (e : GwCall X) :
  plain_call X e -> nkeeps k (gateway_calls fallbackReconnectPolicy c lifetime X e).
Proof.
  destruct e; cbn [plain_call gateway_calls]; intros He; try (by split).
  - apply ctx_err_keeps.
  - apply clear_defaults_keeps.
  - by apply rsafe_read.
  - done.
Qed.

Lemma in_gateway_keeps {A} c lifetime k (p : gprog A) :
  gmoves p -> nkeeps k (in_gateway fallbackReconnectPolicy c lifetime p).
Proof.
  intros Hp. eapply rsafe_ignore.
  apply (rsafe_inline any knows compat refreshMu gated take release nothing permitted starts splits_nothing
    (fun _ _ => True) plain_call plain_mutex (fun _ => True)); [| | | |exact Hp].
  - intros s g _ Hs Hk. by apply unseen_turns; [apply still_unseen, still_gateway|..].
  - intros X e. apply gateway_call_keeps.
  - intros mu Hmu [= Heq]. by apply Hmu.
  - by intros [].
Qed.

Lemma gateway_refl (g : Gateway) : True.
Proof. done. Qed.

(** Walks over a Gateway text. *)
Ltac gateway_walk := moves_walk gateway_refl; try exact I; try discriminate.

Lemma moves_ReconcileGateway token selected : gmoves (ReconcileGateway token selected).
Proof. unfold ReconcileGateway. gateway_walk. Qed.

#[local] Hint Resolve moves_ReconcileGateway : moves.

Definition resolves_secret (selected : option (string * GwCall (string * option error))) : Prop :=
  match selected with Some (_, e) => plain_call _ e | None => True end.

Lemma moves_credential selected : resolves_secret selected -> gmoves (ReconcileGatewayCredential selected).
Proof.
  intros Hs. unfold ReconcileGatewayCredential, reconcile_credential. destruct selected as [[r e]|]; gateway_walk.
  exact Hs.
Qed.

Lemma moves_revoke : gmoves revoke.
Proof. unfold revoke, revoke_profiles. gateway_walk. by apply moves_credential. Qed.

Lemma gateway_moves_reconcile serviceID cfg : gmoves (reconcileRuntimeGateway serviceID cfg).
Proof.
  unfold reconcileRuntimeGateway, reconcileWaitingDiscordGateway. gateway_walk;
    try apply moves_revoke; try (by apply moves_credential).
Qed.

(** ** The refresh mutex *)

(** A goroutine under the mutex: its view of the loop stays, the mutex stays. *)
Definition under (k k' : Know) : Prop := kLoop k' = kLoop k /\ is_Some (kGate k').

Lemma refresh_keeps {A} k (p : nprog A) :
  kGate k = None -> nsafe (fun k' _ => under k k') (take k) p -> nkeeps k (refresh p).
Proof.
  intros Hg Hp. unfold keeps, refresh. cbn [lock bind rsafe]. rewrite decide_True by done.
  split; [by unfold gated; rewrite Hg|]. eapply rsafe_seq; [exact Hp|].
  intros k' a [Hl [o Ho]]. cbn [unlock bind rsafe]. rewrite decide_True by done.
  split; [by unfold gated; rewrite Ho|]. unfold release. destruct k; simpl in *. by subst.
Qed.

(** *** Checking a lifetime *)

(** A goroutine under the mutex that found the lifetime live. *)
Definition checked (n : nat) (k : Know) : Know := mkKnow (kLoop k) (Some (Some n)).

Lemma canceled_live n s : canceled n s = false -> exists c, live s n c.
Proof.
  unfold canceled, live. intros [_ Hc]%orb_false_elim.
  destruct (ndLifetimes s !! n) as [[c []]|]; [done| |done]. by exists c.
Qed.

Lemma live_view v s n c : view_holds v s -> live s n c -> lvClear v = false /\ lvLive v = Some (n, c).
Proof.
  intros Hv Hl. apply (vh_live _ _ Hv) in Hl. split; [|done].
  destruct (lvClear v) eqn:Ec; [|done]. destruct (vh_clear _ _ Hv Ec). congruence.
Qed.

Lemma check_turns k n s c : is_Some (kGate k) -> live s n c -> knows k s -> nturns k s (checked n k) s.
Proof.
  intros [o Ho] Hl Hk. split; [done|]. split; [done|]. split; [by unfold gated; rewrite Ho|].
  intros k2 (Hlc & Hg & Ha & Ha') H2. split; [|done].
  destruct Hg as [Hg|Hg]; [congruence|]. split; [done|]. split; [by right|]. split; [by intros v m; rewrite Hg|].
  intros v m Hv [= <-]. destruct (live_view v s n c (H2 v Hv) Hl) as [Hc Hlv]. split; [done|].
  intros n' c'. rewrite Hlv. by intros [= <- _].
Qed.

(** What a checked goroutine knows of its own view. *)
Definition sound (n : nat) (k : Know) : Prop :=
  kGate k = Some (Some n) /\ forall v, kLoop k = Some v -> lvClear v = false.

Lemma ctx_err_checks k n deadline :
  is_Some (kGate k) ->
  nsafe (fun k' err => under k k' /\ (err = None -> sound n k')) k (ctx_err n deadline).
Proof.
  intros Hg. unfold ctx_err. intros s _ Hk. cbn [fst snd]. destruct (canceled n s) eqn:Ec.
  { exists k. split; [by apply unseen_turns; [apply still_unseen|..]|]. by split. }
  destruct (canceled_live _ _ Ec) as [c Hl]. exists (checked n k).
  split; [by apply (check_turns k n s c)|].
  assert (forall err, under k (checked n k) /\ (err = None (A := error) -> sound n (checked n k))) as Hdone.
  { intros err. split; [by split; [|by eexists]|]. intros _. split; [done|]. intros v Hv.
    by apply (live_view v s n c (Hk v Hv) Hl). }
  destruct deadline; [|apply Hdone]. split; [done|]. intros late. apply Hdone.
Qed.

(** *** Applying a configuration *)

Definition applies (m m' : Manager) : Prop := handles_of m' = handles_of m.

Lemma apply_turns k n s m :
  sound n k -> applies (ndManager s) m -> knows k s -> nturns k s k (put_manager m s).
Proof.
  intros [Hg Hc] Hm Hk.
  assert (forall v, view_holds v s -> lvClear v = false -> view_holds v (put_manager m s)) as Hview.
  { intros v [H1' H2' H3' H4' H5' H6' H7' H8'] Hv. injection Hm as Hm1 Hm2 Hm3.
    split; simpl; try done; try congruence. }
  split; [done|]. split; [intros v Hv; apply Hview; [by apply Hk|by apply Hc]|]. split; [done|].
  intros k2 Hcc H2. split; [done|]. intros v Hv. apply Hview; [by apply H2|].
  destruct Hcc as (_ & _ & _ & Ha). by destruct (Ha v n Hv Hg).
Qed.

Lemma applies_refl m : applies m m.
Proof. done. Qed.

Lemma apply_keeps k n cfg policy :
  sound n k -> nkeeps k (on_manager (applyRuntimeConfigToManager cfg policy)).
Proof.
  intros Hs. eapply rsafe_ignore.
  apply (rsafe_inline any knows compat refreshMu gated take release nothing permitted starts splits_nothing
    applies (fun _ _ => True) (fun _ => True) (fun _ => False)) with (Q := fun _ => True).
  - intros s m Hm _ Hk. by apply (apply_turns k n).
  - intros X e _. by split.
  - done.
  - done.
  - unfold applyRuntimeConfigToManager, SetStreamVoiceDefaults. moves_walk applies_refl; try done.
    apply spec_set_stream_defaults.
Qed.

Lemma reconcile_and_apply_under c n deadline cfg k :
  is_Some (kGate k) ->
  nsafe (fun k' _ => under k k') k (reconcile_and_apply fallbackReconnectPolicy c n deadline cfg).
Proof.
  intros Hg. unfold reconcile_and_apply.
  eapply rsafe_seq; [by apply ctx_err_checks|]. intros k1 err [[Hl1 Hg1] _].
  destruct err; [by split|].
  eapply keeps_seq; [apply in_gateway_keeps, gateway_moves_reconcile|]. intros err. destruct err; [by split|].
  eapply rsafe_seq; [by apply ctx_err_checks|]. intros k2 err [[Hl2 Hg2] Hs].
  assert (under k k2) as Hu by (split; [congruence|done]). destruct err; [done|].
  eapply keeps_seq; [by eapply apply_keeps, Hs|]. by intros _.
Qed.

Lemma auto_start_refresh_keeps k n : kGate k = None -> nkeeps k (auto_start_refresh fallbackReconnectPolicy n).
Proof.
  intros Hg. apply refresh_keeps; [done|]. apply rsafe_read. intros s _ _.
  eapply rsafe_seq; [apply ctx_err_checks; by eexists|]. intros k1 err [[Hl1 Hg1] _].
  destruct (client_of n s) as [c|], err; try (by split).
  eapply keeps_seq; [by apply keeps_call|]. intros [cfg [err|]]; [by split|].
  eapply rsafe_mono; [|by apply reconcile_and_apply_under]. intros k2 a [Hl2 Hg2]. split; [|done].
  rewrite Hl2. exact Hl1.
Qed.

(** ** The other goroutines *)

Lemma in_manager_keeps {A} (Q : A -> Prop) k (p : mprog A) :
  kGate k = None ->
  moves (fun m m' => settings_of m' = settings_of m) (fun _ _ => True) (fun _ => True) working Q p ->
  nsafe (fun k' a => k' = k /\ Q a) k (in_manager fallbackReconnectPolicy p).
Proof.
  intros Hg.
  apply (rsafe_inline any knows compat refreshMu gated take release nothing permitted starts splits_nothing).
  - intros s m Hm Hs Hk. by apply unseen_turns; [apply still_unseen, still_manager, settings_undisturbed|..].
  - intros X e _.
    assert (forall i request, (forall c, permitted _ k (request c)) -> nkeeps k (stream_controller i request)) as Hsc.
    { intros i request Hr. apply rsafe_read. intros s _ _. destruct (ndControllers s !! i); [|done].
      by split; [apply Hr|]. }
    destruct e; cbn [manager_calls]; try (by split); try (by apply Hsc). by apply auto_start_refresh_keeps.
  - done.
  - done.
Qed.

Lemma manager_keeps k l :
  kGate k = None -> working l ->
  nsafe (fun k' next => k' = k /\ next_ok working next) k (in_manager fallbackReconnectPolicy (code sum256 l)).
Proof.
  intros Hg Hl. apply in_manager_keeps; [done|].
  eapply moves_mono; [| | | | |by apply working_moves]; try done. by intros m m' [].
Qed.

(** A tick of the refresh loop. *)
Lemma moves_fetch_failed serviceID cfg err : gmoves (fetch_failed serviceID cfg err).
Proof. unfold fetch_failed. gateway_walk; try apply moves_revoke. Qed.

Lemma refresh_turn_keeps c n k :
  kGate k = None -> nkeeps k (in_gateway fallbackReconnectPolicy c n (refresh_turn (pcServiceID c))).
Proof.
  intros Hg. unfold refresh_turn, RefreshRuntimeConfig, in_gateway, keeps.
  cbn [lock bind inline rsafe]. change (inl Gateway.runtimeRefreshMu) with refreshMu.
  rewrite decide_True by done. split; [by unfold gated; rewrite Hg|].
  apply rsafe_inline_bind, rsafe_mono with (P := fun k' _ => under k k').
  { intros k' a [Hl [o Ho]]. cbn [unlock bind inline rsafe]. change (inl Gateway.runtimeRefreshMu) with refreshMu.
    rewrite decide_True by done. split; [by unfold gated; rewrite Ho|]. unfold release.
    destruct k; simpl in *. by subst. }
  assert (forall k1, under (take k) k1 -> under k k1) as Hu by done.
  apply rsafe_inline_bind. cbn [call inline]. apply rsafe_bind.
  eapply rsafe_mono; [|apply ctx_err_checks; by eexists]. intros k1 err [[Hl1 Hg1] _]. cbn [inline rsafe].
  destruct err; [by split|]. apply rsafe_inline_bind. cbn [call inline]. apply rsafe_bind.
  eapply rsafe_mono; [|by apply keeps_call]. intros k2 [cfg err] ->. cbn [inline rsafe].
  assert (forall A (p : gprog A) (Q : Know -> option error -> Prop) k' g,
    gmoves p -> (forall a, nsafe Q k' (in_gateway fallbackReconnectPolicy c n (g a))) ->
    nsafe Q k' (in_gateway fallbackReconnectPolicy c n (bind p g))) as Hseq.
  { intros A p Q k' g Hp Hq. apply rsafe_inline_bind. eapply rsafe_mono; [|by apply in_gateway_keeps].
    intros k3 a ->. apply Hq. }
  destruct err as [err|]; [apply Hseq; [apply moves_fetch_failed|by split]|].
  apply rsafe_inline_bind. cbn [call inline]. apply rsafe_bind.
  eapply rsafe_mono; [|by apply ctx_err_checks]. intros k2 err [[Hl2 Hg2] _]. cbn [inline rsafe].
  assert (under k k2) as Hu2 by (split; [rewrite Hl2; exact Hl1|done]).
  destruct err; [done|]. apply Hseq; [apply gateway_moves_reconcile|]. intros [err|].
  { apply Hseq; [by split|]. done. }
  apply rsafe_inline_bind. cbn [call inline]. apply rsafe_bind.
  eapply rsafe_mono; [|by apply ctx_err_checks]. intros k3 err [[Hl3 Hg3] Hs]. cbn [inline rsafe].
  assert (under k k3) as Hu3 by (split; [rewrite Hl3; apply Hu2|done]). destruct err; [done|].
  apply rsafe_inline_bind. cbn [call inline]. apply rsafe_bind. cbn [gateway_calls].
  apply rsafe_bind. eapply rsafe_mono; [|by eapply apply_keeps, Hs]. by intros k4 a ->.
Qed.

(** *** Start requests *)

Definition no_refresh X (e : ExtCall X) : Prop := match e with Refresh _ => False | _ => True end.

(** [Start] does not refresh: it runs under the mutex a refresh takes. *)
Lemma Start_no_refresh job :
  safe (fun _ : Manager => True) no_refresh (fun _ : label => True) (fun _ => True) (Lifecycle.Start job).
Proof.
  unfold Lifecycle.Start, hydrateVoiceParticipants, Participants.ParticipantsSynced,
    participantsSynced, report_participants,
    schedule_auto_stop, reportParticipantsIfCurrent, publishParticipants, recordWorkerPublishFailure,
    recordWorkerPublishFailureAttempt, enqueueWorkerEventRetry, supersedeWorkerEventRetry,
    stopAndWaitOpt, stopAndWait, startQueue.
  go_walk; auto.
Qed.

Definition start_call X (e : HttpCall X) : Prop :=
  match e with
  | HttpApi.FetchRuntimeConfig | MgrStatus | MgrCurrentStreamID | MgrSetExecutionAuthorityStreams _
  | MgrReconcileRuntimeGateway _ | MgrStart _ => True
  | _ => False
  end.

Lemma start_job_keeps k job : nkeeps k (in_manager fallbackReconnectPolicy (Lifecycle.Start job)).
Proof.
  eapply rsafe_ignore.
  apply (rsafe_inline any knows compat refreshMu gated take release nothing permitted starts splits_nothing
    (fun m m' => settings_of m' = settings_of m) (fun X e => True /\ no_refresh X e) (fun _ => True) working)
    with (Q := fun _ => True).
  - intros s m Hm Hs Hk. by apply unseen_turns; [apply still_unseen, still_manager, settings_undisturbed|..].
  - intros X e [_ He].
    assert (forall i request, (forall c, permitted _ k (request c)) -> nkeeps k (stream_controller i request)) as Hsc.
    { intros i request Hr. apply rsafe_read. intros s _ _. destruct (ndControllers s !! i); [|done].
      by split; [apply Hr|]. }
    destruct e; cbn [manager_calls]; try (by split); by apply Hsc.
  - done.
  - done.
  - eapply moves_permitted; [|apply Start_no_refresh]. eapply moves_mono; [| | | | |apply moves_Start]; try done.
    by intros m m' [].
Qed.

Lemma http_call_keeps k X (e : HttpCall X) :
  start_call X e -> nkeeps k (http_calls sum256 fallbackReconnectPolicy X e).
Proof.
  destruct e; cbn [start_call http_calls]; intros He; try done.
  - eapply keeps_seq; [by apply keeps_call|]. intros d. by apply rsafe_read.
  - by apply rsafe_read.
  - eapply rsafe_ignore, on_manager_keeps. apply (moves_modify undisturbed). by split.
  - eapply keeps_seq; [by apply keeps_call|]. intros full. apply in_gateway_keeps, gateway_moves_reconcile.
  - apply start_job_keeps.
Qed.

Abbreviation hmoves := (moves latched start_call (fun _ : hmutex => False) (fun _ : Empty_set => True) (fun _ => True)).

Lemma latched_refl l : latched l l.
Proof. done. Qed.

Lemma in_http_keeps {A} k (p : hprog A) : hmoves p -> nkeeps k (in_http sum256 fallbackReconnectPolicy p).
Proof.
  intros Hp. eapply rsafe_ignore.
  apply (rsafe_inline any knows compat refreshMu gated take release nothing permitted starts splits_nothing
    latched start_call (fun _ => False) (fun _ => True)); [| | | |exact Hp].
  - intros s l Hl Hs Hk. by apply unseen_turns; [apply still_unseen, still_latch|..].
  - intros X e. apply http_call_keeps.
  - by intros mu [].
  - by intros [].
Qed.

Lemma moves_start_turn sv req mode : hmoves (start_turn sv req mode).
Proof. unfold start_turn, applyRuntimeDiscordConfig. moves_walk latched_refl. Qed.

(** A start request holds the mutex across its check, the reconciliation and the
    start of the job. *)
Lemma startJob_keeps k sv r :
  kGate k = None -> nkeeps k (in_http sum256 fallbackReconnectPolicy (startJob sv r)).
Proof.
  intros Hg. unfold startJob. destruct (negb _); [done|]. destruct (decodeStartJobRequest _) as [[req mode]|]; [|done].
  destruct (_ =? 0); [done|]. unfold in_http, keeps. cbn [lock bind inline rsafe]. rewrite decide_True by done.
  split; [by unfold gated; rewrite Hg|].
  apply rsafe_inline_bind. eapply rsafe_mono; [|apply in_http_keeps, moves_start_turn].
  intros k1 errs ->. cbn [unlock bind inline rsafe]. rewrite decide_True by done. split; [done|].
  assert (release (take k) = k) as -> by (unfold release; destruct k; simpl in *; by subst).
  apply in_http_keeps. moves_walk latched_refl.
Qed.

(** ** The loop *)

Definition loop (v : LoopView) : Know := mkKnow (Some v) None.
Definition loop_under (v : LoopView) : Know := mkKnow (Some v) (Some None).

(** A step of the loop to another view: it holds of the new state, and what was
    found live under the mutex stays in agreement. *)
Lemma view_turns v s v' s' g :
  view_holds v' s' ->
  (forall m, lvClear v = false /\ (forall n c, lvLive v = Some (n, c) -> n = m) ->
     lvClear v' = false /\ forall n c, lvLive v' = Some (n, c) -> n = m) \/ g <> None ->
  (g = None \/ g = Some None) ->
  nturns (mkKnow (Some v) g) s (mkKnow (Some v') g) s'.
Proof.
  intros Hv' Hag Hg. split; [done|]. split; [by intros w [= <-]|]. split; [done|].
  intros k2 (Hl & Hgc & Ha & Ha') H2. destruct Hl as [|Hl]; [done|]. simpl in *.
  split; [|intros w; congruence]. split; [by right|]. split; [done|].
  split; [|intros w m; rewrite Hl; done].
  intros w m [= <-] Hm. destruct Hag as [Hag|Hg']; [|destruct Hgc as [Hgc|Hgc]; simpl in *; congruence].
  by apply Hag, (Ha v).
Qed.

(** *** The identity *)

Definition with_ident (v : LoopView) (o : option Config) : LoopView :=
  mkView (lvLive v) (lvClear v) (lvStarter v) (lvStopper v) (lvRefresher v) (lvMade v) o.

Lemma ident_turns v s l o :
  view_holds v s -> latched (ndLatch s) l -> (forall c, o = Some c -> identified c l) ->
  nturns (loop v) s (loop (with_ident v o)) (put_latch l s).
Proof.
  intros Hv Hl Ho. apply view_turns; [|by left|by left].
  destruct (still_view v s (put_latch l s) (still_latch s l Hl) Hv). by split.
Qed.

(** The answer of the latch, and what it means for a configuration. *)
Definition answered (v : LoopView) (c : Config) (k : Know) (res : UpdaterIdentity + error) : Prop :=
  exists o, k = loop (with_ident v o) /\
    forall id, res = inl id -> TrimSpace (pcServiceID c) = uiServiceID id -> o = Some c.

Lemma bound_identified candidate l id c :
  (bind_section candidate l).1 = inl id -> uiServiceID candidate <> "" ->
  TrimSpace (pcServiceID c) = uiServiceID id -> identified c (bind_section candidate l).2.
Proof.
  intros Hid Hne Hc. destruct (bind_section_answer _ _ _ Hid) as [Hb Hi].
  split; [done|]. rewrite Hi. split; [done|]. unfold blank. rewrite Hc.
  unfold bind_section in Hid. destruct (ulBound l); simpl in Hid; [|injection Hid as <-; by apply seqb_neq].
  case_bool_decide; [|done]. injection Hid as <-. apply seqb_neq. congruence.
Qed.

Lemma with_ident_same v : with_ident v (lvIdent v) = v.
Proof. by destruct v. Qed.

Lemma resolve_answers v c :
  nsafe (answered v c) (loop v)
    (inline ndLatch put_latch no_label (fun m : Empty_set => match m with end) latch_calls
       (ResolveFromEnv LatchPending LatchConfig)).
Proof.
  assert (forall err, answered v c (loop v) (inr err)) as Herr.
  { intros err. exists (lvIdent v). by rewrite with_ident_same. }
  assert (forall (f : UpdaterIdentityLatch -> error * UpdaterIdentityLatch) s,
    (f (ndLatch s)).2 = ndLatch s -> view_holds v s ->
    nturns (loop v) s (loop v) (put_latch (f (ndLatch s)).2 s)) as Hsame.
  { intros f s Hf Hv. pose proof (ident_turns v s (f (ndLatch s)).2 (lvIdent v) Hv) as Ht.
    rewrite with_ident_same in Ht. apply Ht; [by rewrite Hf|]. rewrite Hf. apply (vh_ident _ _ Hv). }
  unfold ResolveFromEnv. intros s _ Hk. exists (loop v). split.
  { specialize (Hk v eq_refl). pose proof (ident_turns v s (ndLatch s) (lvIdent v) Hk) as Ht.
    rewrite with_ident_same in Ht. apply Ht; [done|]. apply (vh_ident _ _ Hk). }
  cbn [fst snd bind read]. destruct (_ <>s _); [apply Herr|].
  cbn [call bind inline latch_calls rsafe]. split; [done|]. intros []; cbn [bind atomic inline rsafe].
  { intros s1 _ Hk1. exists (loop v). split; [|apply Herr].
    apply (Hsame pending_section); [done|by apply Hk1]. }
  split; [done|]. intros full. cbn [bind]. set (cfg := Control.ccConfig full).
  destruct (negb (blank (pcConfigError cfg))); cbn [inline rsafe]; [apply Herr|].
  destruct (blank (pcServiceID cfg)) eqn:Eb; cbn [inline rsafe]; [apply Herr|].
  unfold bind_identity. cbn [uiServiceID].
  destruct (TrimSpace (pcServiceID cfg) =s "") eqn:Ee; cbn [atomic inline rsafe]; [apply Herr|].
  intros s1 _ Hk1. specialize (Hk1 v eq_refl). set (candidate := mkIdentity _ _ _).
  pose proof (bind_section_latched candidate (ndLatch s1)) as Hl. cbn [fst snd].
  destruct (bind_section candidate (ndLatch s1)).1 as [id|err] eqn:Eid.
  2:{ exists (loop v). split; [|apply Herr].
      pose proof (ident_turns v s1 _ (lvIdent v) Hk1 Hl) as Ht. rewrite with_ident_same in Ht. apply Ht.
      intros c' Hc'. eapply identified_latched; [exact Hl|]. by apply (vh_ident _ _ Hk1). }
  set (o := if decide (TrimSpace (pcServiceID c) = uiServiceID id) then Some c else lvIdent v).
  exists (loop (with_ident v o)). split.
  - apply ident_turns; [done..|]. intros c'. unfold o. case_decide as Hd.
    + intros [= <-]. apply (bound_identified candidate _ id); [done| |done]. by apply seqb_neq.
    + intros Hc'. eapply identified_latched; [exact Hl|]. by apply (vh_ident _ _ Hk1).
  - exists o. split; [done|]. intros id' [= <-] Hc. unfold o. by rewrite decide_True.
Qed.

Lemma identity_checked v c :
  nsafe (fun k err => exists o, k = loop (with_ident v o) /\ (err = None -> o = Some c)) (loop v)
    (match_identity (pcServiceID c)).
Proof.
  unfold match_identity, requireMatchingUpdaterIdentity. apply rsafe_inline_bind.
  eapply rsafe_mono; [|by apply resolve_answers]. intros k res (o & -> & Ho).
  destruct res as [id|err]; cbn [inline rsafe]; exists o; (split; [done|]); [|done].
  destruct (TrimSpace (pcServiceID c) =s uiServiceID id) eqn:E; cbn [negb]; [|done].
  intros _. eapply Ho; [done|]. by apply seqb_eq.
Qed.

(** *** Taking a registration back *)

Definition with_live (v : LoopView) (o : option (nat * Config)) : LoopView :=
  mkView o (lvClear v) (lvStarter v) (lvStopper v) (lvRefresher v) (lvMade v) (lvIdent v).
Definition with_handles (v : LoopView) (starter stopper : option (nat * Config)) (refresher : option nat)
    : LoopView :=
  mkView (lvLive v) (lvClear v) starter stopper refresher (lvMade v) (lvIdent v).
Definition with_made (v : LoopView) (o : option (nat * Config)) : LoopView :=
  mkView (lvLive v) (lvClear v) (lvStarter v) (lvStopper v) (lvRefresher v) o (lvIdent v).
Definition cleared (o : option Config) : LoopView := mkView None true None None None None o.

(** The loop sets handles of the manager. *)
Lemma handles_hold v s f starter stopper refresher :
  view_holds v s -> mStreamDefaults (f (ndManager s)) = mStreamDefaults (ndManager s) ->
  handles_of (f (ndManager s)) =
    (fst <$> starter, (fun ic => mkStopperRef ic.1 true) <$> stopper, refresher) ->
  (forall i c, starter = Some (i, c) \/ stopper = Some (i, c) \/ lvMade v = Some (i, c) ->
     ndControllers s !! i = Some c) ->
  view_holds (with_handles v starter stopper refresher) (s <| ndManager ::= f |>).
Proof.
  intros [H1' H2' H3' H4' H5' H6' H7' H8'] Hd [= Hs Ht Hr] Hc.
  split; simpl; rewrite ?Hd; try done.
Qed.

Lemma handles_keep v s : view_holds v s ->
  handles_of (ndManager s) =
    (fst <$> lvStarter v, (fun ic => mkStopperRef ic.1 true) <$> lvStopper v, lvRefresher v).
Proof. intros []. unfold handles_of. congruence. Qed.

Lemma set_handles {A} (Q : Know -> A -> Prop) v g f starter stopper refresher (p : nprog A) :
  (g = None \/ g = Some None) ->
  (forall s, view_holds v s ->
     mStreamDefaults (f (ndManager s)) = mStreamDefaults (ndManager s) /\
     handles_of (f (ndManager s)) =
       (fst <$> starter, (fun ic => mkStopperRef ic.1 true) <$> stopper, refresher) /\
     (forall i c, starter = Some (i, c) \/ stopper = Some (i, c) \/ lvMade v = Some (i, c) ->
     ndControllers s !! i = Some c)) ->
  nsafe Q (mkKnow (Some (with_handles v starter stopper refresher)) g) p ->
  nsafe Q (mkKnow (Some v) g) (do* modify (fun s => s <| ndManager ::= f |>) in p).
Proof.
  intros Hg Hf Hp. eapply rsafe_modify; [|exact Hp]. intros s _ Hk. specialize (Hk v eq_refl).
  destruct (Hf s Hk) as (Hd & Hh & Hc). apply view_turns; [by apply handles_hold| |done]. by left.
Qed.

Definition owned (st : Registration) (v : LoopView) : Prop :=
  match rgCancel st with None => lvLive v = None | Some n => exists c, lvLive v = Some (n, c) end.

Lemma cancel_turns v s n c :
  lvLive v = Some (n, c) -> view_holds v s -> nturns (loop v) s (loop (with_live v None)) (cancel_lifetime n s).
Proof.
  intros Hn [H1' H2' H3' H4' H5' H6' H7' H8']. apply view_turns; [|left; intros m [Hf _]; by split|by left].
  split; simpl; try done.
  - intros n' c'. split; [|done]. unfold live. simpl. intros Hl. exfalso.
    destruct (decide (n' = n)) as [->|Hne].
    + rewrite list_lookup_alter_eq in Hl. by destruct (ndLifetimes s !! n); simplify_eq/=.
    + rewrite list_lookup_alter_ne in Hl by done. apply H1' in Hl. congruence.
  - intros Hc. destruct (H2' Hc). congruence.
Qed.

Lemma take_back_spec v :
  lvLive v = None ->
  nsafe (fun k _ => k = loop_under (cleared (lvIdent v))) (loop_under v) (take_back fallbackReconnectPolicy).
Proof.
  intros Hl. unfold take_back, on_manager, SetStreamVoiceDefaults.
  set (v1 := mkView None true (lvStarter v) (lvStopper v) (lvRefresher v) None (lvIdent v)).
  assert (nsafe (fun k _ => k = loop_under (cleared (lvIdent v))) (loop_under v1)
    (do* modify (fun s => s <| ndManager ::= SetAutoStartRefresher None |>) in
     do* modify (fun s => s <| ndManager ::= SetStreamStarter None |>) in
     do* modify (fun s => s <| ndManager ::= SetStreamStopper None |>) in
     do* in_gateway fallbackReconnectPolicy no_client 0 (ReconcileGatewayCredential None) in nret tt)) as Hrest.
  { unfold loop_under.
    apply (set_handles _ v1 _ _ (lvStarter v1) (lvStopper v1) None); [by right| |].
    { intros s Hv. pose proof (handles_keep _ _ Hv) as [= Ha Hb Hc]. destruct Hv.
      split; [done|]. split; [unfold handles_of; simpl; congruence|done]. }
    eapply (set_handles _ _ _ _ None (lvStopper v1) None); [by right| |].
    { intros s Hv. pose proof (handles_keep _ _ Hv) as [= Ha Hb Hc]. destruct Hv as [? ? ? ? ? Hcc ? ?]. simpl in *.
      split; [done|]. split; [unfold handles_of; simpl; congruence|]. intros i c [|[|]]; [done| |done]. apply Hcc. by right; left. }
    eapply (set_handles _ _ _ _ None None None); [by right| |].
    { intros s Hv. pose proof (handles_keep _ _ Hv) as [= Ha Hb Hc].
      split; [done|]. split; [unfold handles_of; simpl in *; congruence|]. by intros i c [|[]]. }
    eapply keeps_seq; [by apply in_gateway_keeps, moves_credential|]. by intros _. }
  cbn [bind atomic read inline rsafe]. intros s _ Hk. specialize (Hk v eq_refl). exists (loop_under v1). split.
  { apply view_turns; [|by right|by right]. destruct Hk as [H1' H2' H3' H4' H5' H6' H7' H8'].
    destruct (spec_set_stream_defaults ∅ (ndManager s)) as [_ [= Hh1 Hh2 Hh3]].
    split; simpl; try congruence; try done.
    - intros n c. unfold live. simpl. rewrite <- Hl. apply H1'.
    - intros _. split; [done|]. apply defaults_cleared.
    - intros i c [|[|]]; [apply H6'; by left|apply H6'; by right; left|done]. }
  intros s1 _ Hk1. exists (loop_under v1). split.
  { apply view_turns; [|by right|by right]. eapply still_view; [|by apply Hk1]. by apply still_manager. }
  cbn [fst snd]. destruct (vcTargetSetter _); cbn [call bind inline from_manager rsafe]; [split; [done|]; intros _|];
    exact Hrest.
Qed.

Lemma stopRefresh_spec st v :
  owned st v ->
  nsafe (fun k st' => k = loop (cleared (lvIdent v)) /\ st' = st <| rgCancel := None |> <| rgAuthority := "" |>)
    (loop v) (stopRefresh fallbackReconnectPolicy st).
Proof.
  intros Ho. unfold stopRefresh, owned in *.
  assert (forall w, lvLive w = None -> lvIdent w = lvIdent v ->
    nsafe (fun k st' => k = loop (cleared (lvIdent v)) /\ st' = st <| rgCancel := None |> <| rgAuthority := "" |>)
      (loop w) (do* refresh (take_back fallbackReconnectPolicy) in nret (st <| rgCancel := None |> <| rgAuthority := "" |>))) as Hrest.
  { intros w Hw Hi. unfold refresh. cbn [lock bind rsafe]. rewrite decide_True by done. split; [done|].
    apply rsafe_bind, rsafe_bind. eapply rsafe_mono; [|by apply (take_back_spec w)]. intros k a ->.
    cbn [unlock bind rsafe]. rewrite decide_True by done. split; [done|]. split; [|done]. by rewrite Hi. }
  destruct (rgCancel st) as [n|].
  - destruct Ho as [c Hc]. eapply (rsafe_modify _ _ _ _ _ _ _ _ _ _ (loop v) (loop (with_live v None))).
    + intros s _ Hk. apply (cancel_turns v s n c Hc). by apply Hk.
    + by apply Hrest.
  - cbn [bind]. by apply Hrest.
Qed.

(** *** A turn *)

Lemma fatal_safe Q k : nsafe Q k fatal.
Proof. by split. Qed.

Lemma settled_log state st v : settled (logRegistrationStateChange state st) v <-> settled st v.
Proof. unfold logRegistrationStateChange. by case_match. Qed.

Lemma settled_owned st v : settled st v -> owned st v.
Proof. unfold settled, owned. destruct (rgCancel st); [intros (c & i & _ & _ & Hl & _); by exists c|tauto]. Qed.

Lemma owned_log state st v : owned (logRegistrationStateChange state st) v <-> owned st v.
Proof. unfold logRegistrationStateChange. by case_match. Qed.

(** Taking back leaves the loop unregistered. *)
Lemma stop_settled st v :
  owned st v -> rgServiceID st = "" ->
  nsafe (fun k st' => k = loop (cleared (lvIdent v)) /\ settled st' (cleared (lvIdent v)) /\ rgAuthority st' = "")
    (loop v) (stopRefresh fallbackReconnectPolicy st).
Proof.
  intros Ho Hid. eapply rsafe_mono; [|by apply stopRefresh_spec]. intros k st' [-> ->]. by repeat split.
Qed.

Definition registered_view (n i : nat) (c : Config) : LoopView :=
  mkView (Some (n, c)) false (Some (i, c)) (Some (i, c)) (Some n) (Some (i, c)) (Some c).

Lemma new_lifetime_turns v c s :
  lvLive v = None -> lvClear v = true -> lvIdent v = Some c -> view_holds v s ->
  nturns (loop v) s
    (loop (mkView (Some (length (ndLifetimes s), c)) false (lvStarter v) (lvStopper v) (lvRefresher v) (lvMade v) (lvIdent v)))
    (new_lifetime c s).2.
Proof.
  intros Hl Hc Hi [H1' H2' H3' H4' H5' H6' H7' H8']. apply view_turns; [|left; intros m [Hf _]; congruence|by left].
  split; simpl; try done.
  - intros n c'. unfold live. simpl. rewrite lookup_snoc_Some. split.
    + intros [[_ Hlive]|[<- [= <-]]]; [|done]. apply H1' in Hlive. congruence.
    + intros [= <- <-]. by right.
  - intros n c' [= <- <-]. by apply H7'.
Qed.

Lemma new_controller_turns v c s :
  view_holds v s ->
  nturns (loop v) s (loop (with_made v (Some (length (ndControllers s), c)))) (new_controller c s).2.
Proof.
  intros [H1' H2' H3' H4' H5' H6' H7' H8']. apply view_turns; [|left; intros m Hm; exact Hm|by left].
  split; simpl; try done. intros i c' Hi. apply lookup_snoc_Some.
  destruct Hi as [Hi|[Hi|Hi]]; [left|left|injection Hi as <- <-; by right];
    (assert (ndControllers s !! i = Some c') as Hc by (apply H6'; tauto);
     split; [by eapply lookup_lt_Some|done]).
Qed.

Lemma first_refresh_keeps c n k : kGate k = None -> nkeeps k (first_refresh fallbackReconnectPolicy c n).
Proof.
  intros Hg. apply refresh_keeps; [done|]. eapply keeps_seq; [by apply keeps_call|].
  intros [cfg [err|]]; [by split; [|eexists]|].
  eapply rsafe_mono; [|apply reconcile_and_apply_under; by eexists]. by intros k' a [].
Qed.

Lemma install_spec st v c :
  owned st v -> lvIdent v = Some c ->
  nsafe (fun k st' => exists n i, k = loop (registered_view n i c) /\ settled st' (registered_view n i c))
    (loop v) (install requireRuntimeConfig fallbackReconnectPolicy c st).
Proof.
  intros Ho Hi. unfold install.
  eapply rsafe_seq; [by apply stopRefresh_spec, owned_log|]. intros k st' [-> ->]. rewrite Hi. cbv zeta.
  intros s _ Hk. specialize (Hk _ eq_refl). eexists. split; [by apply new_controller_turns|]. cbn [fst new_controller].
  set (i := length (ndControllers s)). clearbody i. clear s Hk.
  eapply (set_handles _ _ None _ (Some (i, c)) None None); [by left| |].
  { intros s Hv. pose proof (handles_keep _ _ Hv) as [= Ha Hb Hcc]. destruct Hv as [? ? ? ? ? Hctl ? ?].
    split; [done|]. split; [unfold handles_of; simpl in *; congruence|].
    intros j c' Hj. apply Hctl. simpl in *. right; right. destruct Hj as [|[|]]; done. }
  eapply (set_handles _ _ None _ (Some (i, c)) (Some (i, c)) None); [by left| |].
  { intros s Hv. pose proof (handles_keep _ _ Hv) as [= Ha Hb Hcc]. destruct Hv as [? ? ? ? ? Hctl ? ?].
    split; [done|]. split; [unfold handles_of; simpl in *; congruence|].
    intros j c' Hj. apply Hctl. simpl in *. right; right. destruct Hj as [|[|]]; done. }
  intros s _ Hk. specialize (Hk _ eq_refl). eexists. split; [by apply new_lifetime_turns|]. cbn [fst new_lifetime].
  set (n := length (ndLifetimes s)). clearbody n. clear s Hk.
  eapply (set_handles _ _ None _ (Some (i, c)) (Some (i, c)) (Some n)); [by left| |].
  { intros s Hv. pose proof (handles_keep _ _ Hv) as [= Ha Hb Hcc]. destruct Hv as [? ? ? ? ? Hctl ? ?].
    split; [done|]. split; [unfold handles_of; simpl in *; congruence|].
    intros j c' Hj. apply Hctl. simpl in *. right; right. destruct Hj as [|[|]]; done. }
  eapply keeps_seq; [by apply first_refresh_keeps|]. intros err. apply rsafe_bind.
  assert (nsafe (fun k st' => exists n i, k = loop (registered_view n i c) /\ settled st' (registered_view n i c))
    (loop (registered_view n i c)) (do* spawn (LRefreshLoop n) in
      nret ((logRegistrationStateChange ("registered:" ++ pcServiceID c) (st <| rgServiceID := pcServiceID c |>))
        <| rgCancel := None |> <| rgAuthority := "" |> <| rgCancel := Some n |> <| rgAuthority := authority c |>))) as Hend.
  { exists (loop (registered_view n i c)), nothing. split; [apply splits_nothing|]. split; [done|].
    exists n, i. split; [done|].
    unfold settled. simpl.
    exists c, i.
    unfold logRegistrationStateChange. by case_match. }
  destruct err; [destruct requireRuntimeConfig; [by apply rsafe_bind, fatal_safe|]|]; exact Hend.
Qed.

(** The loop between the steps of a turn for the configuration [c]. *)
Definition in_turn (c : Config) (st : Registration) (v : LoopView) : Prop :=
  settled st v /\ (rgAuthority st = "" \/ rgAuthority st = authority c).

Lemma cleared_in_turn c st o : settled st (cleared o) -> rgAuthority st = "" -> in_turn c st (cleared o).
Proof. intros Hs Ha. split; [done|by left]. Qed.

Lemma register_spec st v c :
  in_turn c st v -> lvIdent v = Some c ->
  nsafe (fun k res => exists w, k = loop w /\ in_turn c res.1 w /\ lvIdent w = Some c) (loop v)
    (register requireRuntimeConfig fallbackReconnectPolicy c st).
Proof.
  intros [Hs Ha] Hi. unfold register. destruct (_ =s _); [by exists v|].
  split; [by exists v|]. intros [err|]; cbn [bind].
  - apply rsafe_bind. destruct requireRuntimeConfig; [by apply rsafe_bind, fatal_safe|].
    cbn [rsafe bind]. eapply rsafe_seq.
    { apply (stop_settled _ v); [|done]. by apply owned_log, settled_owned. }
    intros k st' (-> & Hs' & Ha'). exists (cleared (lvIdent v)). split; [done|]. split; [by apply cleared_in_turn|done].
  - eapply rsafe_seq; [by apply install_spec; [apply settled_owned|]|]. intros k st' (n & i & -> & Hs').
    exists (registered_view n i c). split; [done|]. split; [|done]. split; [done|]. right.
    cbn [fst]. unfold settled in Hs'. destruct (rgCancel st') as [n'|]; [|by destruct Hs' as (_ & _ & [=] & _)].
    destruct Hs' as (c' & i' & _ & -> & [= _ <-] & _). done.
Qed.

Lemma settled_state st v s : settled (st <| rgLastState := s |>) v <-> settled st v.
Proof. done. Qed.

Lemma heartbeat_spec st v c :
  (forall x, authority x <> "") -> in_turn c st v -> lvIdent v = Some c ->
  nsafe (fun k st' => exists w, k = loop w /\ settled st' w) (loop v) (send_heartbeat c st).
Proof.
  intros Hsha [Hs Ha] Hi. unfold send_heartbeat. destruct (rgServiceID st =s pcServiceID c) eqn:E; [|by exists v].
  apply seqb_eq in E. apply rsafe_read. intros s _ Hk. specialize (Hk v eq_refl).
  pose proof (vh_ident _ _ Hk _ Hi) as (_ & _ & Hb). split.
  - unfold settled in Hs. exists v. destruct (rgCancel st) as [n|].
    + destruct Hs as (c0 & i & Hid & Hau & Hl & _). exists n, c0. split; [done|]. split; [done|].
      split; [|congruence]. destruct Ha as [Ha|Ha]; [|congruence]. destruct (Hsha c0). congruence.
    + destruct Hs as [Hid _]. rewrite E in Hid. unfold blank in Hb. by rewrite Hid in Hb.
  - intros [err|]; exists v; (split; [done|]); [by apply settled_log|done].
Qed.

Lemma configured_spec st v c :
  (forall x, authority x <> "") -> in_turn c st v -> lvIdent v = Some c ->
  nsafe (fun k st' => exists w, k = loop w /\ settled st' w) (loop v)
    (configured requireRuntimeConfig fallbackReconnectPolicy c st).
Proof.
  intros Hsha Ht Hi. pose proof (settled_owned _ _ (proj1 Ht)) as Ho. unfold configured.
  assert (forall state, nsafe (fun k st' => exists w, k = loop w /\ settled st' w) (loop v)
    (stopRefresh fallbackReconnectPolicy ((logRegistrationStateChange state st) <| rgServiceID := "" |>))) as Hstop.
  { intros state. eapply rsafe_mono; [|apply stop_settled; [by apply owned_log|done]].
    intros k st' (-> & Hs & _). by eexists. }
  destruct (negb _).
  { destruct requireRuntimeConfig; [apply fatal_safe|apply Hstop]. }
  destruct (_ || _); [split; [done|]; intros path; apply Hstop|].
  eapply rsafe_seq; [by apply register_spec|]. intros k [st1 ok] (w & -> & Hw & Hiw). cbn [fst] in *.
  destruct ok; [by apply heartbeat_spec|]. exists w. split; [done|apply Hw].
Qed.

Lemma turn_spec st v :
  (forall x, authority x <> "") -> settled st v ->
  nsafe (fun k res => exists w, k = loop w /\ settled res.1 w) (loop v)
    (registration_turn requireRuntimeConfig fallbackReconnectPolicy st).
Proof.
  intros Hsha Hs. unfold registration_turn. split; [done|]. intros full. cbn [bind]. set (c := Control.ccConfig full).
  eapply (rsafe_seq _ _ _ _ _ _ _ _ _ (fun k st' => exists w, k = loop w /\ in_turn c st' w)).
  { destruct (rgAuthority st <>s "") eqn:E1; cbn [andb].
    - destruct (rgAuthority st <>s authority c) eqn:E2.
      + eapply rsafe_seq; [by apply stopRefresh_spec, settled_owned|]. intros k st' [-> ->].
        exists (cleared (lvIdent v)). split; [done|]. split; [by repeat split|by left].
      + exists v. split; [done|]. split; [done|]. right. by bool_hyps.
    - exists v. split; [done|]. split; [done|]. left. by bool_hyps. }
  intros k st1 (w & -> & Hw). eapply rsafe_seq; [by apply identity_checked|]. intros k err (o & -> & Ho).
  assert (in_turn c st1 (with_ident w o)) as Hw'.
  { destruct Hw as [Hw Ha]. split; [|done]. unfold settled in *. by destruct (rgCancel st1). }
  destruct err as [err|].
  - destruct (Is err ErrUpdaterIdentityPending); [|by apply rsafe_bind, fatal_safe].
    split; [done|]. intros path. cbn [bind]. eapply rsafe_seq.
    { apply stop_settled; [|done]. apply owned_log, settled_owned, Hw'. }
    intros k st2 (-> & Hs2 & _). by eexists.
  - eapply rsafe_seq; [apply configured_spec; [done|exact Hw'|by apply Ho]|].
    intros k st2 (w2 & -> & Hs2). by exists w2.
Qed.

Lemma registration_loop_safe st v :
  (forall x, authority x <> "") -> settled st v ->
  nsafe (goes_on gated starts) (loop v) (registration_loop requireRuntimeConfig fallbackReconnectPolicy st).
Proof.
  intros Hsha Hs. unfold registration_loop. eapply rsafe_seq; [by apply turn_spec|].
  intros k [st' pause] (w & -> & Hw). cbn [fst] in *. intros []; cbn [bind].
  - eapply rsafe_seq; [by apply stopRefresh_spec, settled_owned|]. intros k st2 [-> ->]. by split.
  - split; [done|]. by exists w.
Qed.

Lemma node_code_safe :
  (forall x, authority x <> "") -> forall k l, gated k = false -> starts k l ->
  nsafe (goes_on gated starts) k
    (node_code sum256 requireRuntimeConfig fallbackReconnectPolicy interval l).
Proof.
  intros Hsha k l Hg Hl. assert (kGate k = None) as Hk by (unfold gated in Hg; by destruct (kGate k)).
  destruct l as [st|n|l|sv r|]; cbn [node_code starts] in *.
  - destruct Hl as (v & Hv & Hs). destruct k as [o g]. simpl in *. subst. by apply registration_loop_safe.
  - intros []; cbn [bind]; [by split|]. apply rsafe_read. intros s _ _. destruct (client_of n s); [|by split].
    eapply keeps_seq; [by apply refresh_turn_keeps|]. intros err. by split.
  - eapply rsafe_seq; [by apply manager_keeps|]. intros k' next [-> Hn]. split; [done|]. by destruct next.
  - eapply keeps_seq; [by apply startJob_keeps|]. intros a. by split.
  - intros s _ Hks. exists k. split; [|by split]. apply unseen_turns; [|done..]. by apply still_unseen.
Qed.

(** ** Pools *)

Abbreviation start := (Registration.start sum256 requireRuntimeConfig fallbackReconnectPolicy interval).
Abbreviation nodes := (Registration.nodes sum256 requireRuntimeConfig fallbackReconnectPolicy interval).
Abbreviation nrelied := (relied any knows compat refreshMu gated take release permitted starts).

Context (Hsha : forall x, sha256_hex x <> "").

Lemma authority_named c : authority c <> "".
Proof using Hsha. apply Hsha. Qed.

Lemma booted_view reporter now : view_holds (cleared None) (booted reporter now).
Proof. split; simpl; try done. by intros i c [|[]]. Qed.

Lemma start_relied reporter now : nrelied (start reporter now) [loop (cleared None)].
Proof using Hsha.
  split.
  - done.
  - constructor; [|constructor]. apply node_code_safe; [apply authority_named|done|].
    exists (cleared None). by repeat split.
  - constructor; [|constructor]. intros v [= <-]. apply booted_view.
  - by repeat constructor.
  - split; [by intros ?%not_elem_of_empty|]. intros He%Exists_exists. destruct He as (k & Hk & Hg).
    apply list_elem_of_singleton in Hk as ->. done.
Qed.

Lemma nodes_relied reporter now p : nodes (start reporter now) p -> exists ks, nrelied p ks.
Proof using Hsha.
  intros Hp. eapply (rely_invariant any knows compat refreshMu gated take release nothing permitted starts
    splits_nothing); [..|apply (start_relied reporter now)|exact Hp]; try done.
  - apply node_code_safe, authority_named.
  - intros [st|n|l|sv r|]; try done. by intros [].
  - intros d s _. apply still_unseen. split; [done|]. split; [done|].
    destruct (settings_undisturbed _ _ (proj1 (advance_moves d (ndManager s)))). by split_and!.
  - apply compat_sym.
  - apply compat_gated.
  - apply take_compat.
  - apply release_compat.
Qed.

(** C7: a registration that was taken back has no effect left. In every
    interleaving of the registration loop with the refresh loops it started, the
    manager's goroutines with their auto-start refreshes, and start requests,
    whenever the loop goes on to its next turn: without a registration no
    refresh context is live, the manager has no waiting streams, no stream
    starter, stopper or refresher, and no late refresh put them back; with one,
    exactly one refresh context is live, it and the installed controller use the
    configuration registered, and the starter, stopper and refresher are those of
    this registration. *)
Theorem registration_is_fenced reporter now p st :
  nodes (start reporter now) p -> Running (Ret (Some (LRegistration st))) ∈ p_threads p ->
  let s := p_state p in
  match rgCancel st with
  | None =>
      rgServiceID st = "" /\ rgAuthority st = "" /\ (forall n c, ~ live s n c) /\
      mStreamDefaults (ndManager s) = ∅ /\ handles_of (ndManager s) = (None, None, None)
  | Some n => exists c i,
      rgServiceID st = pcServiceID c /\ rgAuthority st = authority c /\
      (forall n' c', live s n' c' <-> n' = n /\ c' = c) /\ ndControllers s !! i = Some c /\
      handles_of (ndManager s) = (Some i, Some (mkStopperRef i true), Some n)
  end.
Proof using Hsha.
  intros Hp Hin. destruct (nodes_relied _ _ _ Hp) as [ks Hks].
  destruct (relied_label _ _ _ _ _ _ _ _ _ _ _ _ Hks Hin) as (_ & k & (v & Hv & Hst) & Hk).
  specialize (Hk v Hv). pose proof (handles_keep _ _ Hk) as Hh. cbv zeta.
  unfold settled in Hst. destruct (rgCancel st) as [n|].
  - destruct Hst as (c & i & Hid & Ha & Hl & Hs1 & Hs2 & Hr). exists c, i.
    rewrite Hs1, Hs2, Hr in Hh. split; [done|]. split; [done|].
    split; [|split; [apply (vh_controllers _ _ Hk); by left|done]].
    intros n' c'. rewrite (vh_live _ _ Hk), Hl. split; [by intros [= -> ->]|by intros [-> ->]].
  - destruct Hst as (Hid & Ha & Hl & Hc & Hs1 & Hs2 & Hr). rewrite Hs1, Hs2, Hr in Hh.
    split; [done|]. split; [done|]. split; [intros n c Hlive%(vh_live _ _ Hk); congruence|].
    split; [by apply (vh_clear _ _ Hk)|done].
Qed.

(** C16: the node registers as the service its updater knows, and reports only
    for the registration in force. In every interleaving, a registration about to
    be sent carries the service id of the identity the latch holds, and a
    heartbeat of the loop is sent only while a refresh context is live, with the
    service id and the authority (service, panel address and token) that were
    registered for it. *)
Theorem registration_requests_are_authorized reporter now p X (e : NodeCall X) k :
  nodes (start reporter now) p -> Running (Call e k) ∈ p_threads p ->
  match e with
  | PanelRegister c => identified c (ndLatch (p_state p))
  | PanelHeartbeat c _ _ => exists n c0,
      live (p_state p) n c0 /\ identified c0 (ndLatch (p_state p)) /\
      authority c0 = authority c /\ pcServiceID c0 = pcServiceID c
  | _ => True
  end.
Proof using Hsha.
  intros Hp Hin. destruct (nodes_relied _ _ _ Hp) as [ks Hks].
  destruct (relied_call _ _ _ _ _ _ _ _ _ _ _ _ _ _ Hks Hin) as (_ & kn & Hperm & Hk).
  destruct e; try done; cbn [permitted] in Hperm.
  - destruct Hperm as (v & Hv & Hi). by apply (vh_ident _ _ (Hk v Hv)).
  - destruct Hperm as (v & n & c0 & Hv & Hl & Ha & Hid). specialize (Hk v Hv). exists n, c0.
    split; [by apply (vh_live _ _ Hk)|]. split; [by apply (vh_live_ident _ _ Hk n)|done].
Qed.
End Fencing.

(** ** Witnesses: a node whose config names a panel *)
Module Sample.
#[local] Existing Instance canonical_range.
#[local] Existing Instance MainConfig.Sample.amd64.

(** A sum of fixed length. *)
#[local] Instance sha : SHA256 := fun s => "00" ++ s.

Lemma sha_named x : sha256_hex x <> "".
Proof. discriminate. Qed.

Definition config : Config :=
  mkPanelConfig "https://panel.example" "token" "bot-1" "Bot" "https://bot.example" "0.0.0.0:8080" 3 "dev" "".

(** The panel accepts the registration; its configuration is not there yet.
    Nothing answers [log.Fatal]. *)
Definition ans X (e : NodeCall X) : option X :=
  match e in NodeCall Y return option Y with
  | ReadConfig => Some (Control.mkControl config (30 * Second))
  | ReadPending => Some false
  | ReadConfigPath => Some "/etc/autostream/node.yaml"
  | PanelRegister _ => Some None
  | PanelHeartbeat _ _ _ => Some None
  | PanelRuntimeConfig _ => Some (MainConfig.Sample.cfg, Some (ErrNew "unavailable"))
  | PanelCurrentSecret _ _ => Some ("", None)
  | PanelWaitingSecret _ _ => Some ("", None)
  | PanelStartStream _ _ => Some None
  | PanelStopStream _ _ => Some None
  | DeadlinePassed => Some false
  | NodeReconcileGateway _ _ => Some None
  | NodeVoiceStatus => Some DiscordClient.zeroStatus
  | FromManager e => Some (accept_all _ e)
  | Fatal => None
  end.

Abbreviation node_choice := (choice (L := NodeLabel) node_entry).

Definition go (n : nat) : list node_choice := repeat (CNode node_entry 0) n.

Definition fallback : ReconnectPolicy := mkPolicy false 3 Second (30 * Second).

Definition run_node (h : list node_choice) : pool Node NodeCall NodeLabel NodeMutex _ _ :=
  sched (node_code id false fallback Minute) node_entry node_clock node_advance ans h
    (start id false fallback Minute None 1000).

Lemma run_node_reachable h :
  nodes id false fallback Minute (start id false fallback Minute None 1000) (run_node h).
Proof. apply sched_reaches. Qed.

(** The loop has registered and its pause has passed. *)
Definition registered : pool Node NodeCall NodeLabel NodeMutex _ _ :=
  run_node (go 30 ++ CTick node_entry (30 * Second) :: go 1)%list.

Definition again (p : pool Node NodeCall NodeLabel NodeMutex _ _) : option (string * option nat) :=
  match p_threads p with
  | Running (Ret (Some (LRegistration st))) :: _ => Some (rgServiceID st, rgCancel st)
  | _ => None
  end.

Lemma again_thread p id n :
  again p = Some (id, n) ->
  exists st, rgCancel st = n /\ Running (Ret (Some (LRegistration st))) ∈ p_threads p.
Proof.
  unfold again. destruct (p_threads p) as [|[[[[]|]| | | | | |]|] l]; try done.
  intros [= _ <-]. eexists. split; [done|]. apply list_elem_of_here.
Qed.

(** The loop is about to send a heartbeat. *)
Definition beating : pool Node NodeCall NodeLabel NodeMutex _ _ := run_node (go 28).

Definition beats (p : pool Node NodeCall NodeLabel NodeMutex _ _) : bool :=
  match p_threads p with
  | Running (Call e _) :: _ => match e with PanelHeartbeat _ _ _ => true | _ => false end
  | _ => false
  end.

Lemma beats_thread p :
  beats p = true -> exists c s j k, Running (Call (PanelHeartbeat c s j) k) ∈ p_threads p.
Proof.
  unfold beats. destruct (p_threads p) as [|[[| |X e k| | | |]|] l]; try done.
  destruct e; try done. intros _. eexists _, _, _, _. apply list_elem_of_here.
Qed.

Lemma registration_is_fenced_witness :
  again registered = Some ("bot-1", Some 0%nat) /\
  exists c i, live (p_state registered) 0%nat c /\
    handles_of (ndManager (p_state registered)) = (Some i, Some (mkStopperRef i true), Some 0%nat).
Proof.
  assert (again registered = Some ("bot-1", Some 0%nat)) as Ha by (vm_compute; reflexivity).
  split; [exact Ha|]. destruct (again_thread _ _ _ Ha) as (st & Hc & Hin).
  pose proof (registration_is_fenced id false fallback Minute sha_named None 1000 registered st
    (run_node_reachable _) Hin) as Hf.
  cbv zeta in Hf. rewrite Hc in Hf. destruct Hf as (c & i & _ & _ & Hl & _ & Hh).
  exists c, i. exact (conj (proj2 (Hl 0%nat c) (conj eq_refl eq_refl)) Hh).
Defined.

Lemma registration_requests_are_authorized_witness :
  beats beating = true /\
  exists (n : nat) c, live (p_state beating) n c /\ identified c (ndLatch (p_state beating)).
Proof.
  assert (beats beating = true) as Hb by (vm_compute; reflexivity).
  split; [exact Hb|]. destruct (beats_thread _ Hb) as (c & s & j & k & Hin).
  destruct (registration_requests_are_authorized id false fallback Minute sha_named None 1000 beating
    _ _ _ (run_node_reachable _) Hin) as (n & c0 & Hl & Hi & _).
  exists n, c0. exact (conj Hl Hi).
Defined.
End Sample.
