(* ===== verification/Startup.v ===== *)
(** * Startup: [main]

    [main] of [cmd/discord-bot/main.go]: the subcommands, the checks that end the
    process before it serves, the registration and the first runtime
    configuration, what is installed on the manager, the goroutines that are
    started, and the HTTP server up to the shutdown.  [log.Fatal] is an outcome;
    the goroutines are labels, their texts are those of [Registration],
    [NodeReports] and [HttpApi]. *)

From S2P Require Import Prelude Conc Compose Errors Types Floats RuntimeConfig Authority Gateway Manager.
From S2P Require Import AutoStart AutoStop VoiceDefaults Lifecycle NodeConfig UpdaterIdentity Settings.
From S2P Require Import MainConfig Registration.
From S2P Require RuntimeJson.

Open Scope go_scope.

(** ** State *)

(** The manager, the identity latch, whether the process was told to stop, and
    the outcome of the server once it has one. *)
Record Boot := mkBoot {
  btManager : Manager;
  btLatch : UpdaterIdentityLatch;
  btStopped : bool;
  btServed : option (option error) }.

Definition eta_Boot (s : Boot) : Boot := mkBoot (btManager s) (btLatch s) (btStopped s) (btServed s).
#[export] Instance set_btManager : Setter btManager := ltac:(mk_setter eta_Boot).
#[export] Instance set_btLatch : Setter btLatch := ltac:(mk_setter eta_Boot).

Inductive BootCall : Type -> Type :=
(* [control.RunConfigureCommand] *)
| RunConfigure (args : list string) : BootCall (option error)
(* the node config *)
| BootConfig : BootCall Control.ControlConfig
| BootPending : BootCall bool
(* the Control Panel *)
| BootRegister (c : Config) : BootCall (option error)
| BootRuntimeConfig (c : Config) : BootCall (RuntimeConfig * option error)
(* [reconcileRuntimeGateway] *)
| BootReconcile (c : Config) (cfg : RuntimeConfig) : BootCall (option error)
(* the Discord client *)
| SetAudioForwarder (serviceID : string) : BootCall unit
| SetEventSink : BootCall unit
(* [manager.SetRuntimeGatewayReconciler] *)
| SetReconciler : BootCall unit
| BootManager {X : Type} (e : ExtCall X) : BootCall X
(* of two channels that are ready, does [select] take the server's? *)
| SelectServer : BootCall bool
| ServerShutdown : BootCall (option error)
| ServerClose : BootCall (option error).

Inductive BootLabel :=
| BootGoroutine (l : label)
(* [runRuntimeConfigRefreshLoop], with the policy of the environment *)
| StartRefreshLoop (c : Config) (policy : ReconnectPolicy) (interval : Duration)
(* [RunHeartbeatLoopWithMetrics] *)
| StartHeartbeatLoop (c : Config)
(* [runPendingControlPanelRegistrationLoop] *)
| StartRegistrationLoop (policy : ReconnectPolicy) (requireRuntimeConfig : bool)
(* the server, with or without a source of the runtime configuration *)
| Serve (addr : string) (provider : bool).

(** How [main] ends: it returns, a subcommand exits with a code, [log.Fatal] ends
    the process, or it panics. *)
Inductive Exit := Returned | ExitCode (code : Z) | FatalExit (message : string) | Panicked (err : error).

Abbreviation bprog := (prog Boot BootCall BootLabel NodeMutex).
Abbreviation bret := (@Ret Boot BootCall BootLabel NodeMutex _).

Definition put_boot_manager (m : Manager) (s : Boot) : Boot := s <| btManager := m |>.
Definition put_boot_latch (l : UpdaterIdentityLatch) (s : Boot) : Boot := s <| btLatch := l |>.

Definition on_boot_manager {A} (p : mprog A) : bprog A :=
  inline btManager put_boot_manager BootGoroutine inr (fun _ e => call (BootManager e)) p.

Inductive IdentityCall : Type -> Type :=
| IdentityPending : IdentityCall bool
| IdentityConfig : IdentityCall Config.

Definition identity_calls X (e : IdentityCall X) : bprog X :=
  match e in IdentityCall Y return bprog Y with
  | IdentityPending => call BootPending
  | IdentityConfig => let* full := call BootConfig in bret (Control.ccConfig full)
  end.

Definition on_latch {A} (p : prog UpdaterIdentityLatch IdentityCall Empty_set Empty_set A) : bprog A :=
  inline btLatch put_boot_latch (fun l : Empty_set => match l with end)
    (fun m : Empty_set => match m with end) identity_calls p.

(** An identity that is not there yet does not stop the start. *)
Definition tolerated (err : option error) : bool :=
  match err with Some err => Is err ErrUpdaterIdentityPending | None => true end.

Definition identity_fatal (err : option error) : bprog Exit :=
  bret (FatalExit ("invalid updater identity: " ++ match err with Some err => Error err | None => "" end)).

(** Are the panel's URL and the token there? *)
Definition credentialed (c : Config) : bool := (pcControlPanelURL c <>s "") && (pcToken c <>s "").

Section Main.
Context `{MapRange} `{FloatConversion}.
(** The settings of the process, and the capabilities of the Worker reporter. *)
Context (requireRuntimeConfig : bool) (policyFromEnv : ReconnectPolicy) (interval : Duration).
Context (reporter : option ReporterCaps).

(** [shouldUseControlPanelRuntimeConfig] *)
Definition shouldUseControlPanelRuntimeConfig (c : Config) : bprog bool :=
  if requireRuntimeConfig then bret true
  else
    let* pending := call BootPending in
    if (pending : bool) then bret true
    else bret (negb (blank (pcControlPanelURL c)) && negb (blank (pcToken c))).

(** [logRuntimeConfig] without the log *)
Definition logRuntimeConfig (c : Config) : bprog (option RuntimeConfig) :=
  let* fetched := call (BootRuntimeConfig c) in
  match fetched with (_, Some _) => bret None | (cfg, None) => bret (Some cfg) end.

(** The registration: the runtime configuration, and whether the pending
    registration loop is to be started; or the end. *)
Definition registration_phase (c : Config) (configPending : bool)
    : bprog (option RuntimeConfig * bool + Exit) :=
  if credentialed c then
    let* err := call (BootRegister c) in
    match err with
    | Some err =>
        bret (if requireRuntimeConfig
              then inr (FatalExit ("control panel registration is required in this environment: " ++ Error err))
              else inl (None, false))
    | None =>
        let* cfg := logRuntimeConfig c in
        bret match cfg with
             | Some cfg => inl (Some cfg, false)
             | None =>
                 if requireRuntimeConfig
                 then inr (FatalExit "control panel runtime config is required in this environment")
                 else inl (None, false)
             end
    end
  else if configPending then bret (inl (None, true))
  else if requireRuntimeConfig then
    bret (inr (FatalExit
      (if negb (blank (pcConfigError c)) then "node config invalid: " ++ pcConfigError c
       else "panel-managed node config is required in this environment")))
  else bret (inl (None, false)).

(** The refresher of the auto-start that [main] installs. *)
Definition auto_start_refresher (c : Config) (policy : ReconnectPolicy) : bprog (option error) :=
  do* lock refreshMu in
  let* fetched := call (BootRuntimeConfig c) in
  let* res :=
    match fetched with
    | (_, Some err) => bret (Some err)
    | (cfg, None) =>
        let* err := call (BootReconcile c cfg) in
        match err with
        | Some err => bret (Some err)
        | None => do* on_boot_manager (applyRuntimeConfigToManager cfg policy) in bret None
        end
    end in
  do* unlock refreshMu in
  bret res.

(** What is installed before the server starts; the reconnect policy in force. *)
Definition wire (c : Config) (runtimeCfg : option RuntimeConfig) (provider : bool) : bprog ReconnectPolicy :=
  do* call (SetAudioForwarder (pcServiceID c)) in
  do* modify (fun s =>
    s <| btManager ::= fun m => NewManagerWithReporter (mkVoiceCaps true true true) reporter (hClock m) |>) in
  do* call SetReconciler in
  do* (if credentialed c then
         do* modify (fun s => s <| btManager ::= SetStreamStarter (Some 0%nat) |>) in
         modify (fun s => s <| btManager ::= SetStreamStopper (Some (mkStopperRef 0 true)) |>)
       else bret tt) in
  do* call SetEventSink in
  let* policy :=
    match runtimeCfg with
    | Some cfg => on_boot_manager (applyRuntimeConfigToManager cfg policyFromEnv)
    | None => bret policyFromEnv
    end in
  do* modify (fun s => s <| btManager ::= SetReconnectPolicy policy |>) in
  do* (if credentialed c && provider
       then modify (fun s => s <| btManager ::= SetAutoStartRefresher (Some 0%nat) |>)
       else bret tt) in
  bret policy.

(** The goroutines that are started. *)
Definition start_goroutines (c : Config) (provider pendingLoop : bool) : bprog unit :=
  do* (if credentialed c && provider then spawn (StartRefreshLoop c policyFromEnv interval) else bret tt) in
  do* (if credentialed c then spawn (StartHeartbeatLoop c)
       else if pendingLoop then spawn (StartRegistrationLoop policyFromEnv requireRuntimeConfig)
       else bret tt) in
  bret tt.

(** [NewServerWithRuntimeConfigAndUpdaterIdentity] resolves the identity once
    more, and panics on any error but a pending one. *)
Definition new_server : bprog (option error) :=
  let* resolved := on_latch (ResolveFromEnv IdentityPending IdentityConfig) in
  bret match resolved with
       | inr err => if tolerated (Some err) then None else Some err
       | inl _ => None
       end.

(** The end of the server, or the shutdown. *)
Definition serve_until_stopped : bprog Exit :=
  do* wait None (fun s => btStopped s || match btServed s with Some _ => true | None => false end) in
  let* state := read (fun s => (btStopped s, btServed s)) in
  let* server :=
    match state with
    | (true, Some _) => call SelectServer
    | (_, Some _) => bret true
    | _ => bret false
    end in
  match server : bool, state.2 with
  | true, Some (Some err) => bret (FatalExit (Error err))
  | true, _ => bret Returned
  | false, _ =>
      let* err := call ServerShutdown in
      do* match err with Some _ => do* call ServerClose in bret tt | None => bret tt end in
      bret Returned
  end.

(** From the checks of the configuration on. *)
Definition start (c : Config) (addr : string) : bprog Exit :=
  let* configPending := call BootPending in
  let* provider := shouldUseControlPanelRuntimeConfig c in
  let* registered := registration_phase c configPending in
  match registered with
  | inr exit => bret exit
  | inl (runtimeCfg, pendingLoop) =>
      do* wire c runtimeCfg provider in
      do* match runtimeCfg with
          | Some cfg => do* call (BootReconcile c cfg) in bret tt
          | None => bret tt
          end in
      do* start_goroutines c provider pendingLoop in
      let* refused := new_server in
      match refused with
      | Some err => bret (Panicked err)
      | None => do* spawn (Serve addr provider) in serve_until_stopped
      end
  end.

(** The node: its configuration, its address and its identity.  The text of an
    address error is not kept. *)
Definition run_node : bprog Exit :=
  let* full := call BootConfig in
  let c := Control.ccConfig full in
  match discordBotStartupAddr (pcBindAddress c) with
  | inr _ => bret (FatalExit "invalid node listener credential bind_address")
  | inl addr =>
      let* resolved := on_latch (ResolveFromEnv IdentityPending IdentityConfig) in
      let err := match resolved with inr err => Some err | inl _ => None end in
      if negb (tolerated err) then identity_fatal err
      else
        let* err := on_latch (requireMatchingUpdaterIdentity IdentityPending IdentityConfig (pcServiceID c)) in
        if negb (tolerated err) then identity_fatal err
        else start c addr
  end.

(** [os.Args] without the name of the program *)
Definition main (args : list string) : bprog Exit :=
  match args with
  | command :: rest =>
      if (command =s "--version") || (command =s "version") then bret Returned
      else if command =s "configure" then
        let* err := call (RunConfigure rest) in
        bret match err with Some _ => ExitCode 2 | None => Returned end
      else run_node
  | [] => run_node
  end.
End Main.

(** ** What a process that serves has gone through *)

Definition goroutine (l : BootLabel) : bool := match l with BootGoroutine _ => true | _ => false end.

(** The goroutines [main] starts, without those of the manager. *)
Definition spawned (tr : list (obs BootCall BootLabel)) : list BootLabel :=
  tr ≫= fun o => match o with OSpawn l => if goroutine l then [] else [l] | _ => [] end.

Lemma spawned_app tr1 tr2 : spawned (tr1 ++ tr2) = (spawned tr1 ++ spawned tr2)%list.
Proof. apply bind_app. Qed.

Lemma spawned_cons o tr : spawned [o] = [] -> spawned (o :: tr) = spawned tr.
Proof. change (o :: tr) with ([o] ++ tr)%list. rewrite spawned_app. by intros ->. Qed.

(** A text that starts none. *)
Definition starts_none {A} (p : bprog A) : Prop :=
  safe (fun _ => True) (fun _ _ => True) (fun l => goroutine l = true) (fun _ => True) p.

Lemma safe_always {S E L M A} (p : prog S E L M A) :
  safe (fun _ => True) (fun _ _ => True) (fun _ => True) (fun _ => True) p.
Proof. induction p; simpl; auto. Qed.

Lemma none_spawned {A} (en : env Boot BootCall) (p : bprog A) n s :
  starts_none p -> spawned (run en p n s).2 = [].
Proof.
  intros Hp. assert (env_ok (fun _ : Boot => True) en) as He by (by split).
  pose proof (run_safe _ _ _ _ en p n s He I Hp) as Hr.
  destruct (run en p n s) as [[a s1] tr]. destruct Hr as (_ & _ & Htr). simpl.
  induction Htr as [|o tr Ho _ IH]; [done|]. rewrite spawned_cons; [done|].
  destruct o as [| |l]; [done..|]. unfold spawned. simpl in *. by rewrite Ho.
Qed.

Lemma none_bind {A B} (p : bprog A) (f : A -> bprog B) :
  starts_none p -> (forall a, starts_none (f a)) -> starts_none (bind p f).
Proof. intros Hp Hf. by eapply safe_seq_rule. Qed.

Lemma none_latch {A} (p : prog UpdaterIdentityLatch IdentityCall Empty_set Empty_set A) :
  starts_none (on_latch p).
Proof.
  apply (safe_inline btLatch put_boot_latch _ _ _ (fun _ => True) (fun _ _ => True) (fun _ => True));
    [done|done| |by intros []|apply safe_always].
  intros X e _. by destruct e.
Qed.

Lemma none_manager {A} (p : mprog A) : starts_none (on_boot_manager p).
Proof.
  by apply (safe_inline btManager put_boot_manager _ _ _ (fun _ => True) (fun _ _ => True) (fun _ => True));
    [..|apply safe_always].
Qed.

Create HintDb boot.
#[export] Hint Resolve none_bind none_latch none_manager : boot.

Section Outcome.
Context `{MapRange} `{FloatConversion}.
Context (requireRuntimeConfig : bool) (policyFromEnv : ReconnectPolicy) (interval : Duration).
Context (reporter : option ReporterCaps) (en : env Boot BootCall).

(** The registration was accepted and a runtime configuration was read. *)
Definition admitted (c : Config) (tr : list (obs BootCall BootLabel)) : Prop :=
  OCall (BootRegister c) None ∈ tr /\ exists cfg, OCall (BootRuntimeConfig c) (cfg, None) ∈ tr.

Lemma admitted_mono c tr tr' : tr ⊆ tr' -> admitted c tr -> admitted c tr'.
Proof. intros Hs [Hr [cfg Hc]]. split; [by apply Hs|]. exists cfg. by apply Hs. Qed.

Lemma provider_none c : starts_none (shouldUseControlPanelRuntimeConfig requireRuntimeConfig c).
Proof. unfold shouldUseControlPanelRuntimeConfig. repeat case_match; repeat split; by intros []. Qed.

(** The source of the runtime configuration: the answer of
    [shouldUseControlPanelRuntimeConfig], with what it asked. *)
Definition provider_read (c : Config) (provider : bool) (tr : list (obs BootCall BootLabel)) : Prop :=
  if requireRuntimeConfig then provider = true /\ tr = []
  else exists pending, tr = [OCall BootPending pending] /\
    provider = pending || (negb (blank (pcControlPanelURL c)) && negb (blank (pcToken c))).

Lemma provider_run c n s :
  let '(provider, _, tr) := run en (shouldUseControlPanelRuntimeConfig requireRuntimeConfig c) n s in
  provider_read c provider tr.
Proof.
  unfold shouldUseControlPanelRuntimeConfig, provider_read. destruct requireRuntimeConfig; [done|].
  cbn [bind call run]. destruct (env_call en _ n BootPending s) as [[] s1]; cbn [run]; by eexists.
Qed.

Lemma provider_required c provider tr :
  provider_read c provider tr -> requireRuntimeConfig = true -> provider = true.
Proof. unfold provider_read. intros Hp Hr. rewrite Hr in Hp. by destruct Hp. Qed.

Lemma provider_spawned c provider tr : provider_read c provider tr -> spawned tr = [].
Proof.
  unfold provider_read. destruct requireRuntimeConfig; [by intros [_ ->]|by intros (p & -> & _)].
Qed.

(** A segment of the trace in which the identity was resolved, or compared with
    the service id of the node, and the answer. *)
Definition resolves (tr : list (obs BootCall BootLabel)) (resolved : UpdaterIdentity + error) : Prop :=
  exists k s s', run en (on_latch (ResolveFromEnv IdentityPending IdentityConfig)) k s = (resolved, s', tr).
Definition matches (id : string) (tr : list (obs BootCall BootLabel)) (err : option error) : Prop :=
  exists k s s', run en (on_latch (requireMatchingUpdaterIdentity IdentityPending IdentityConfig id)) k s
                 = (err, s', tr).

Lemma latch_spawned {A} (p : prog UpdaterIdentityLatch IdentityCall Empty_set Empty_set A) a k s s' tr :
  run en (on_latch p) k s = (a, s', tr) -> spawned tr = [].
Proof. intros Hr. pose proof (none_spawned en _ k s (none_latch p)) as Hs. by rewrite Hr in Hs. Qed.

Lemma wire_none c rc provider : starts_none (wire policyFromEnv reporter c rc provider).
Proof.
  unfold wire. repeat (apply none_bind; [|intros ?]); try done.
  - by destruct (credentialed c).
  - destruct rc; [apply none_manager|done].
  - by destruct (credentialed c && provider).
Qed.

Lemma serve_none : starts_none serve_until_stopped.
Proof.
  unfold serve_until_stopped. apply none_bind; [done|]. intros _. apply none_bind; [done|].
  intros [stopped served]. apply none_bind; [by destruct stopped, served as [[]|]|].
  intros [|]; [by destruct served as [[]|]|]. simpl. split; [done|]. by intros [].
Qed.

(** The registration phase goes on only with what the settings require. *)
Lemma registration_phase_run c pending n s :
  let '(res, _, tr) := run en (registration_phase requireRuntimeConfig c pending) n s in
  spawned tr = [] /\
  match res with
  | inr exit => exists message, exit = FatalExit message
  | inl (cfg, loop) =>
      loop = negb (credentialed c) && pending /\
      (requireRuntimeConfig = true -> credentialed c = true /\ admitted c tr \/ credentialed c = false /\ pending = true)
  end.
Proof.
  unfold registration_phase, logRuntimeConfig. destruct (credentialed c) eqn:Ec.
  - cbn [bind call run]. destruct (env_call en _ _ (BootRegister c) s) as [[err|] s1]; cbn [bind call run].
    + destruct requireRuntimeConfig; (split; [done|]); [by eexists|by split].
    + destruct (env_call en _ _ (BootRuntimeConfig c) s1) as [[cfg [err|]] s2]; cbn [bind run].
      * destruct requireRuntimeConfig; (split; [done|]); [by eexists|by split].
      * split; [done|]. split; [done|]. intros _. left. split; [done|].
        split; [by left|]. exists cfg. right. by left.
  - destruct pending; [by repeat split; right|]. destruct requireRuntimeConfig; (split; [done|]); [by eexists|by split].
Qed.

Definition goroutines (c : Config) (provider pending : bool) : list BootLabel :=
  (if credentialed c && provider then [StartRefreshLoop c policyFromEnv interval] else []) ++
  (if credentialed c then [StartHeartbeatLoop c]
   else if pending then [StartRegistrationLoop policyFromEnv requireRuntimeConfig] else []).

Lemma start_goroutines_run c provider pending n s :
  spawned (run en (start_goroutines requireRuntimeConfig policyFromEnv interval c provider
    (negb (credentialed c) && pending)) n s).2 = goroutines c provider pending.
Proof.
  unfold start_goroutines, goroutines. by destruct (credentialed c), provider, pending.
Qed.

(** A process that got as far as the server: whether the config was pending, the
    source of the runtime configuration, the registration with the wiring and the
    goroutines, the identity that [NewServer] resolves once more, and the rest. *)
Definition served (c : Config) (addr : string) (exit : Exit) (tr : list (obs BootCall BootLabel)) : Prop :=
  exists pending provider trP trR trN tail resolved,
    tr = OCall BootPending pending :: (trP ++ trR ++ trN ++ tail)%list /\
    provider_read c provider trP /\
    spawned trR = goroutines c provider pending /\
    (requireRuntimeConfig = true ->
       credentialed c = true /\ admitted c trR \/ credentialed c = false /\ pending = true) /\
    resolves trN resolved /\
    (if tolerated (match resolved with inr err => Some err | inl _ => None end)
     then spawned tail = [Serve addr provider] /\ forall err, exit <> Panicked err
     else tail = [] /\ exists err, resolved = inr err /\ exit = Panicked err).

Lemma serve_exit n s err : (run en serve_until_stopped n s).1.1 <> Panicked err.
Proof.
  pose proof (run_safe (fun _ => True) (fun _ _ => True) (fun _ => True)
    (fun exit => forall err, exit <> Panicked err) en serve_until_stopped n s
    (conj (fun _ _ _ _ _ => I) (fun _ _ _ _ _ => I)) I) as Hr.
  destruct (run en serve_until_stopped n s) as [[exit s1] tr]. apply Hr.
  unfold serve_until_stopped. cbn [bind wait safe read].
  intros _ s0 _. split; [done|]. cbn [fst snd].
  destruct (btStopped s0), (btServed s0) as [[e|]|]; cbn [bind call safe];
    repeat match goal with
    | |- _ /\ _ => split; [done|]
    | |- forall _ : bool, _ => intros []
    | |- forall _ : option error, _ => intros []
    | _ => progress cbn [bind call safe]
    end; done.
Qed.

Lemma start_run c addr n s :
  let '(exit, _, tr) := run en (start requireRuntimeConfig policyFromEnv interval reporter c addr) n s in
  (spawned tr = [] /\ exists message, exit = FatalExit message) \/ served c addr exit tr.
Proof.
  unfold start. cbn [bind call run]. destruct (env_call en _ _ BootPending s) as [pending s1].
  rewrite run_bind. pose proof (provider_run c (S n) s1) as Hp.
  destruct (run en (shouldUseControlPanelRuntimeConfig _ c) _ s1) as [[provider s2] trP].
  rewrite run_bind. pose proof (registration_phase_run c pending (S n + length trP) s2) as Hr.
  destruct (run en (registration_phase _ c pending) _ s2) as [[res s3] tr2]. destruct Hr as [Htr2 Hr].
  destruct res as [[rc loop]|exit].
  2: { destruct Hr as [message ->]. left. cbn [run].
       rewrite spawned_cons, !spawned_app, Htr2, (provider_spawned _ _ _ Hp) by done. eauto. }
  destruct Hr as [-> Hr]. rewrite run_bind.
  pose proof (none_spawned en _ (S n + length trP + length tr2) s3 (wire_none c rc provider)) as Hw.
  destruct (run en (wire _ _ c rc provider) _ s3) as [[policy s4] tr3]. cbn [snd] in Hw.
  rewrite run_bind. set (reconcile := match rc with Some cfg => _ | None => _ end).
  assert (starts_none reconcile) as Hrec by by destruct rc.
  pose proof (none_spawned en reconcile (S n + length trP + length tr2 + length tr3) s4 Hrec) as Ht4.
  destruct (run en reconcile _ s4) as [[[] s5] tr4]. cbn [snd] in Ht4. rewrite run_bind.
  pose proof (start_goroutines_run c provider pending
    (S n + length trP + length tr2 + length tr3 + length tr4) s5) as Ht5.
  destruct (run en (start_goroutines _ _ _ c provider _) _ s5) as [[[] s6] tr5]. cbn [snd] in Ht5.
  unfold new_server. rewrite run_bind, run_bind.
  destruct (run en (on_latch (ResolveFromEnv IdentityPending IdentityConfig)) _ s6)
    as [[resolved s7] trN] eqn:EN.
  cbn [run]. rewrite app_nil_r.
  assert (forall exit tail,
    (if tolerated (match resolved with inr err => Some err | inl _ => None end)
     then spawned tail = [Serve addr provider] /\ forall err, exit <> Panicked err
     else tail = [] /\ exists err, resolved = inr err /\ exit = Panicked err) ->
    served c addr exit (OCall BootPending pending :: (trP ++ tr2 ++ tr3 ++ tr4 ++ tr5 ++ trN ++ tail)%list))
    as Hend.
  { intros exit tail Htail. exists pending, provider, trP, (tr2 ++ tr3 ++ tr4 ++ tr5)%list, trN, tail, resolved.
    split; [by rewrite <- !app_assoc|]. split; [done|].
    split; [by rewrite !spawned_app, Htr2, Hw, Ht4, Ht5|].
    split; [|split; [by eexists _, _, _|done]].
    intros Hreq. destruct (Hr Hreq) as [[Hc Ha]|Hc]; [left|by right].
    split; [done|]. eapply admitted_mono; [|done]. set_solver. }
  assert (forall k s, let '(exit, _, tr) := run en (do* spawn (Serve addr provider) in serve_until_stopped) k s in
    spawned tr = [Serve addr provider] /\ forall err, exit <> Panicked err) as Hserve.
  { intros k s0. cbn [bind spawn run]. pose proof (none_spawned en _ (S k) s0 serve_none) as Hn.
    pose proof (serve_exit (S k) s0) as He.
    destruct (run en serve_until_stopped _ s0) as [[exit s8] tr8]. cbn [fst snd] in *.
    split; [|done]. change (OSpawn (Serve addr provider) :: tr8) with ([OSpawn (Serve addr provider)] ++ tr8)%list.
    by rewrite spawned_app, Hn. }
  destruct resolved as [id|err]; cbn [tolerated].
  - specialize (Hserve (S n + length trP + length tr2 + length tr3 + length tr4 + length tr5 + length trN)%nat s7).
    destruct (run en (do* spawn (Serve addr provider) in serve_until_stopped) _ s7) as [[exit s8] tail].
    right. by apply Hend.
  - destruct (Is err ErrUpdaterIdentityPending) eqn:Ei.
    + specialize (Hserve (S n + length trP + length tr2 + length tr3 + length tr4 + length tr5 + length trN)%nat s7).
      destruct (run en (do* spawn (Serve addr provider) in serve_until_stopped) _ s7) as [[exit s8] tail].
      right. apply Hend. cbn [tolerated]. by rewrite Ei.
    + cbn [run]. right. apply Hend. cbn [tolerated]. rewrite Ei. eauto.
Qed.

(** What one run of the node comes to: the address, the identity, then [start]. *)
Definition node_outcome (exit : Exit) (tr : list (obs BootCall BootLabel)) : Prop :=
  exists full rest, tr = OCall BootConfig full :: rest /\
  let c := Control.ccConfig full in
  match discordBotStartupAddr (pcBindAddress c) with
  | inr _ => rest = [] /\ exists message, exit = FatalExit message
  | inl addr => exists tr1 tr2 resolved,
      rest = (tr1 ++ tr2)%list /\ resolves tr1 resolved /\
      if tolerated (match resolved with inr err => Some err | inl _ => None end) then
        exists tr3 tr4 err, tr2 = (tr3 ++ tr4)%list /\ matches (pcServiceID c) tr3 err /\
        if tolerated err then
          (spawned tr4 = [] /\ exists message, exit = FatalExit message) \/ served c addr exit tr4
        else tr4 = [] /\ exists message, exit = FatalExit message
      else tr2 = [] /\ exists message, exit = FatalExit message
  end.

(** What one run of [main] comes to. *)
Definition main_outcome (args : list string) (exit : Exit) (tr : list (obs BootCall BootLabel)) : Prop :=
  match args with
  | command :: rest =>
      if (command =s "--version") || (command =s "version") then exit = Returned /\ tr = []
      else if command =s "configure" then
        exists err, tr = [OCall (RunConfigure rest) err] /\
          exit = match err with Some _ => ExitCode 2 | None => Returned end
      else node_outcome exit tr
  | [] => node_outcome exit tr
  end.
(** C14: a process serves only as the node its config describes. [version] returns
    and [configure] runs the command, both without a goroutine. Every other run
    reads the node config once; it ends with a fatal error before it starts any
    goroutine when the address of the config is not valid, when the updater
    identity cannot be resolved or is not that of the config (an identity that is
    still pending is let through), or when the registration phase refuses the
    node. Otherwise it starts exactly the goroutines its credentials call for:
    heartbeats for a node with a Control Panel and a token, the refresh loop when
    it also has a source of the runtime configuration, and the pending
    registration loop for a node whose config is not there yet. It has a source
    when one is required, when the config is pending, or when both the panel and
    the token are there; where it is required, the Control Panel has accepted the
    registration and given a configuration, or the config is still pending. Last,
    the identity is resolved once more: it serves on the checked address if that
    goes well or the identity is pending, and panics with the error, without
    serving, on any other. *)
Theorem served_node_is_configured args n s :
  let '(exit, _, tr) := run en (main requireRuntimeConfig policyFromEnv interval reporter args) n s in
  main_outcome args exit tr.
Proof.
  assert (forall n s,
    let '(exit, _, tr) := run en (run_node requireRuntimeConfig policyFromEnv interval reporter) n s in
    node_outcome exit tr) as Hrun.
  { clear n s. intros n s. unfold run_node, node_outcome. cbn [bind call run].
    destruct (env_call en _ _ BootConfig s) as [full s1]. set (c := Control.ccConfig full).
    destruct (discordBotStartupAddr (pcBindAddress c)) as [addr|] eqn:Ea; cbn [run].
    2: { exists full, []. split; [done|]. cbv zeta. fold c. rewrite Ea. eauto. }
    rewrite run_bind.
    destruct (run en (on_latch (ResolveFromEnv _ _)) _ s1) as [[resolved s2] tr1] eqn:E1.
    destruct (tolerated (match resolved with inr err => Some err | inl _ => None end)) eqn:Et1; cbn [negb].
    2: { cbn [run identity_fatal]. exists full, (tr1 ++ [])%list. split; [done|]. cbv zeta. fold c. rewrite Ea.
         exists tr1, [], resolved. split; [done|]. split; [by eexists _, _, _|]. rewrite Et1. eauto. }
    rewrite run_bind.
    destruct (run en (on_latch (requireMatchingUpdaterIdentity _ _ _)) _ s2) as [[err s3] tr2] eqn:E2.
    destruct (tolerated err) eqn:Et2; cbn [negb].
    2: { cbn [run identity_fatal]. eexists full, _. split; [done|]. cbv zeta. fold c. rewrite Ea.
         eexists tr1, _, resolved. split; [done|]. split; [by eexists _, _, _|]. rewrite Et1.
         exists tr2, [], err. split; [done|]. split; [by eexists _, _, _|]. rewrite Et2. eauto. }
    pose proof (start_run c addr (S n + length tr1 + length tr2) s3) as Hs.
    destruct (run en (start _ _ _ _ c addr) _ s3) as [[exit s4] tr3].
    eexists full, _. split; [done|]. cbv zeta. fold c. rewrite Ea.
    eexists tr1, _, resolved. split; [done|]. split; [by eexists _, _, _|]. rewrite Et1.
    exists tr2, tr3, err. split; [done|]. split; [by eexists _, _, _|]. by rewrite Et2. }
  unfold main, main_outcome. destruct args as [|command rest]; [apply Hrun|].
  destruct ((command =s "--version") || (command =s "version")); [done|].
  destruct (command =s "configure"); [|apply Hrun].
  cbn [bind call run]. destruct (env_call en _ _ (RunConfigure rest) s) as [[err|] s1]; by eexists.
Qed.
End Outcome.

Module Sample.
#[local] Existing Instance canonical_range.
#[local] Existing Instance MainConfig.Sample.amd64.

Definition node : Config := mkPanelConfig "https://panel" "t" "bot-1" "bot" "https://bot" "127.0.0.1:9000" 1 "v" "".

(** A Control Panel that accepts the node and answers the configuration, or not;
    the server ends when it is asked to. *)
Definition en (c : Config) (pending : bool) (cfg : RuntimeConfig * option error) : env Boot BootCall :=
  {| env_call X _ e s :=
       (match e in BootCall Y return Y with
        | RunConfigure _ => None
        | BootConfig => Control.mkControl c (30 * Second)
        | BootPending => pending
        | BootRegister _ => None
        | BootRuntimeConfig _ => cfg
        | BootReconcile _ _ => None
        | BootManager e => accept_all _ e
        | SelectServer => true
        | ServerShutdown | ServerClose => None
        | _ => tt
        end, s);
     env_wait _ _ _ s := (true, s) |}.

Definition boot : Boot :=
  mkBoot (NewManagerWithReporter (mkVoiceCaps true true true) None 0) (NewUpdaterIdentityLatch ServiceType) true None.
Definition policy : ReconnectPolicy := mkPolicy true 5 Second (30 * Second).

(** How the process ends, what it started, the handles of the manager. *)
Definition outcome (c : Config) (pending : bool) (cfg : RuntimeConfig * option error) (args : list string) :=
  let '(exit, s, tr) := run (en c pending cfg) (main true policy (30 * Second) None args) 0 boot in
  (exit, spawned tr, mStreamStarter (btManager s), mAutoStartRefresher (btManager s)).

Definition config : RuntimeConfig := RuntimeJson.zeroConfig.
Definition no_config : Config := mkPanelConfig "" "" "" "" "" "127.0.0.1:9000" 0 "v" "".

Example outcomes :
  outcome node false (config, None) [] =
    (Returned, [StartRefreshLoop node policy (30 * Second); StartHeartbeatLoop node; Serve "127.0.0.1:9000" true],
     Some 0%nat, Some 0%nat) /\
  outcome node false (config, Some Canceled) [] =
    (FatalExit "control panel runtime config is required in this environment", [], None, None) /\
  outcome no_config true (config, None) [] =
    (Returned, [StartRegistrationLoop policy true; Serve "127.0.0.1:9000" true], None, None) /\
  outcome node false (config, None) ["version"] = (Returned, [], None, None).
Proof. vm_compute. done. Qed.

(** The node config names another service from the sixth question on: the identity
    that [NewServer] resolves has drifted. *)
Definition renamed : Config := mkPanelConfig "https://panel" "t" "bot-2" "bot" "https://bot" "127.0.0.1:9000" 1 "v" "".
Definition drifting : env Boot BootCall :=
  {| env_call X n e s :=
       env_call (en (if (n <? 10)%nat then node else renamed) false (config, None)) X n e s;
     env_wait _ _ _ s := (true, s) |}.

Definition run_main (e : env Boot BootCall) (args : list string) :=
  run e (main true policy (30 * Second) None args) 0 boot.

(** The node serves; the drifted one panics after its goroutines are started. *)
Lemma served_node_is_configured_witness :
  (let '(exit, _, tr) := run_main (en node false (config, None)) [] in
   exit = Returned /\ spawned tr = [StartRefreshLoop node policy (30 * Second); StartHeartbeatLoop node;
                                    Serve "127.0.0.1:9000" true] /\
   main_outcome true policy (30 * Second) (en node false (config, None)) [] exit tr) /\
  (let '(exit, _, tr) := run_main drifting [] in
   (exists err, exit = Panicked err) /\
   spawned tr = [StartRefreshLoop node policy (30 * Second); StartHeartbeatLoop node] /\
   main_outcome true policy (30 * Second) drifting [] exit tr).
Proof.
  split.
  - pose proof (served_node_is_configured true policy (30 * Second) None (en node false (config, None)) [] 0 boot) as Ht.
    change (run _ _ 0 boot) with (run_main (en node false (config, None)) []) in Ht.
    assert ((run_main (en node false (config, None)) []).1.1 = Returned) as E1 by (vm_compute; reflexivity).
    assert (spawned (run_main (en node false (config, None)) []).2 =
      [StartRefreshLoop node policy (30 * Second); StartHeartbeatLoop node; Serve "127.0.0.1:9000" true]) as E2
      by (vm_compute; reflexivity).
    destruct (run_main _ _) as [[exit s] tr]. exact (conj E1 (conj E2 Ht)).
  - pose proof (served_node_is_configured true policy (30 * Second) None drifting [] 0 boot) as Ht.
    change (run _ _ 0 boot) with (run_main drifting []) in Ht.
    assert (exists err, (run_main drifting []).1.1 = Panicked err) as E1 by (eexists; vm_compute; reflexivity).
    assert (spawned (run_main drifting []).2 =
      [StartRefreshLoop node policy (30 * Second); StartHeartbeatLoop node]) as E2
      by (vm_compute; reflexivity).
    destruct (run_main _ _) as [[exit s] tr]. exact (conj E1 (conj E2 Ht)).
Defined.
End Sample.
